(* ===== verification/_CoqProject ===== *)
-Q . S2P
Prelude.v
Time.v
P2pAddress.v
Native.v
ValidatorSet.v
Staking.v
Protocol.v
Tokens.v
Emission.v
LbMath.v
BinTree.v
Storage.v
Heap.v
Nod.v
NodStore.v
Metadata.v
Rewards.v
Snapshots.v
Slash.v
AgentReward.v
Tribute.v
Lysis.v
Metadosis.v
TributeFactory.v
Cycle.v
Oracle.v
OraclePrices.v
OracleTally.v
OracleSlash.v
OracleGenesis.v
OracleRun.v
OracleServices.v
Gem.v
GemStore.v
GemFactory.v
GemCycle.v
