(* ===== verification/Prelude.v ===== *)
(** * Outbe Chain: verification of the chain's state machine

    Outbe is a proof-of-stake EVM chain written in Rust. Its own state machine is a
    set of precompiled contracts and block hooks: the validator set and its
    staking, the rewards and penalties of validators, the daily emission, and the
    economy on top of it (tributes, Nods, Gratis and Promis). This library models
    these modules as functions on explicit states, translated from the sources
    under [src/], and proves what makes them correct.

    ** The program and the files

    A block starts with a begin zone: the finalized parent is accounted
    (participation, fees, penalties), then the cycle dispatcher runs the daily
    handler when a UTC day has ended, and transactions call the precompiles.

    - [Prelude.v]: results and errors, the notations of the error monad, machine
      integers, bytes, default-zero maps and their sums, the tactics and the lemmas
      shared by all files.
    - [Time.v]: date keys and worldwide days ([primitives/src/time.rs],
      [core/common/src/worldwideday.rs]) against a reference calendar.
    - [Native.v], [Storage.v], [Heap.v]: native balances, and the collections
      contracts keep in storage ([primitives/src/storage]).
    - [ValidatorSet.v], [Staking.v], [Protocol.v]: the registry with its lifecycle
      ([system/validatorset]), stakes and the unbonding queue ([system/staking]),
      and both as one transition system.
    - [Snapshots.v], [Slash.v]: committee snapshots and the slash indicator with its
      evidence ([system/slashindicator], [consensus/src/proof]).
    - [Metadata.v], [Rewards.v]: the accounting metadata of a block and its codec,
      the fee escrow, the inclusion window, daily participation and the top-up
      ([primitives/src/consensus_metadata.rs], [system/rewards]).
    - [Emission.v]: the daily cap and its allocation ([system/emissionlimit]).
    - [Tokens.v]: Promis, Gratis with its escrow, and the Promis limit
      ([core/promis], [core/gratis], [core/promislimit]).
    - [LbMath.v], [BinTree.v]: the fixed-point price ladder and the bitmap trie
      ([primitives/src/math]).
    - [Nod.v], [NodStore.v]: Nods, buckets, price bins and mining ([core/nod],
      [core/nodfactory], [core/common/src/pow.rs]).
    - [P2pAddress.v]: the address codec ([primitives/src/consensus_p2p.rs]).
    - [AgentReward.v]: agent counts, the capped pools and claims
      ([core/agentreward]).
    - [Tribute.v], [TributeFactory.v]: the tribute store and the offer path
      ([core/tribute], [core/tributefactory]).
    - [Lysis.v]: the distribution of a day's gratis over its tributes ([core/lysis],
      [core/fidelity]).
    - [Metadosis.v]: the life of a worldwide day and the daily run
      ([core/metadosis]).
    - [Cycle.v]: the daily triggers, the accounting gate and the daily handler that
      composes emission, rewards, agent rewards, Metadosis and the tribute factory
      ([system/cycle], [system/accounting]).
    - [Oracle.v], [OraclePrices.v], [OracleTally.v], [OracleSlash.v],
      [OracleGenesis.v], [OracleRun.v]: the price oracle ([system/oracle]): pairs,
      feeders and votes; the price history, its averages and the S-curves; the tally
      of a vote period and the begin-block hook; the slash window on top of
      validator set and staking; genesis import and export; all as one transition
      system.
    - [OracleServices.v]: the oracle as the implementation of the price classes that
      Lysis, Metadosis and the tribute factory are proved against.
    - [Gem.v], [GemStore.v], [GemFactory.v]: gems, their price bins and the
      begin-block qualifier; minting at the oracle's rate, settling and mining
      ([core/gem], [core/gemfactory]).
    - [GemCycle.v]: the daily settlement of the Cycle with the Gem factory as its
      mint.

    ** How code becomes definitions

    A contract is a record with one field per storage slot; a mapping is a [gmap]
    read with default zero ([rd]), a nested mapping a map keyed by pairs, and where
    the code hashes the parts of a key the model hashes them too. An operation takes
    the state and returns the new one or the error that makes the journal discard
    its writes ([res]); where the code catches an error without a checkpoint
    (lysis under Metadosis) the operation returns the state it leaves together with
    its result. Integers are [Z] with the width written at each operation: [wadd],
    [wsub], [wmul] wrap, [checked_*] and [saturating_*] are what they say. U256 and
    I256 operators wrap, as do machine integers in a release build. Error texts keep
    their constant part. Events are kept where a property speaks of them.

    Code that is not modelled here is an argument: hashes and signature checks are
    the class [Crypto] ([KeccakLaws] states that keccak is injective on the inputs
    used and not zero), [CycleServices] the minting of gems, which [GemCycle.v]
    instantiates, and the scan of intex series, [AuctionStages] the stages of the
    auction, [Enclave] the enclave and the parsing of texts; sinks, vaults and asset calls are arguments of the operations
    that make them. [PriceOracle] (the price queries of lysis), [DayServices] (the
    stored averages and the auction, for Metadosis) and [OfferServices] (the
    registry of prices and the enclave, for the tribute factory) are interfaces
    between components: [OracleServices.v] gives their instances for the oracle
    modelled here, with the auction and the enclave as what remains.

    ** What the theorems show

    - Validators and stakes: in every reachable state of the joint protocol the
      staking account holds exactly what it owes and the surplus it started with,
      and every validator moves along lifecycle edges only; committee activation,
      slashing, unbonding and claiming are exact; the finalized-participation hook
      and the snapshot store refine abstract lists and maps.
    - Penalties: evidence is sound and consumed once, a liveness fault is punished
      once.
    - Rewards and emission: the fee window pays what it escrowed, the daily ledger
      is exact, the cap never overflows, the settlement of a day divides the cap
      without loss and happens once, and missed slots are caught up one per block.
    - The agents' pools: the capped distribution is exact and what is credited can
      be claimed; but in the composed system the credited amount is always zero,
      because the pools of a day are distributed before its agents can be counted
      ([Cycle.agents_never_paid]).
    - Worldwide days: the daily run lists the day of the block, keeps every day on its
      timetable and processes every day that is due; offers are taken exactly when
      they should be and a spending unit is spent once; the tribute store refines a
      list, in which a burned id that is issued again appears twice; when owners are
      distinct and amounts are below [2^128], lysis pays exactly the tributes the
      allocation covers and the processing of a day conserves its limit.
    - Nods and prices: all indexes of the Nod store agree, the qualifier ends and
      qualifies exactly the buckets the rate reaches, mining is safe under
      re-entrancy; the price arithmetic is exact and the trie refines a finite set.
    - Gems: the store and its indexes agree, a load becomes Promis at most once, the
      qualifier ends and qualifies exactly the gems that are due, and the daily
      settlement mints one gem per voter with a share.
    - The oracle: every run of it keeps its state well formed, with votes of
      registered validators only; a tally cannot fail, publishes the weighted
      median, which a minority cannot move, and judges every
      active validator once; averages are exact floor quotients over their windows;
      S-curves appear at peaks and their eviction is invisible; a slash window
      punishes exactly the underperformers; an export can always be imported and
      keeps what it lists; a day that has formed is priced without fail.
    - Codecs and calendar: the address codec, with its version, and the metadata codec
      round trip and reject everything else; date keys follow the Gregorian calendar.
    - Defects: unjailing drops a live share, a pledge by the escrow itself inflates
      its balance, a pending absentee blocks a window, two tributes of one owner
      make a day hand out more than its limit, offers are priced with the
      first offering day whatever their own day is, the root of the lysis weights wraps, a feeder's votes can be taken over
      by an earlier validator, a pending underperformer blocks the oracle's slash
      window, the average of a window at the end of time never returns, the average
      of a worldwide day covers other hours than the day, and without a dollar price
      no day with a gem to mint can be settled.

    ** Bounds and fuel

    Loops that are not structural run on a fuel that is proved sufficient: unbonding
    lists one more than the queue length ([list_fuel], [OutOfGas] if exhausted); the
    heap 33 rounds, since indices are 32-bit; the price qualifiers of Nods and gems [2^24 + 1]
    steps, one per bin and the end; LEB128 ten groups of seven bits; the bisection of the
    lysis root 257 rounds, since it halves an interval below [2^256]; the clean-up of
    day limits one round per date; byte chunking the length of the input; the binary
    search in the price history 65 rounds and the integer square root 257, since
    they halve 64- and 256-bit intervals; the day loop of an average [2^48] rounds,
    more than [2^64] seconds have days. The ten
    redistribution rounds of the agent pools and the six Newton rounds of the
    modular inverse are the code's own. The calendar is exact up to
    [Calendar.horizon] days, beyond the year 400000; theorems about days assume
    timestamps in that range.

    ** What is not modelled

    The consensus engine, networking, the node and the enclave are asynchronous I/O
    over third-party libraries; only the codecs, hashes and checks they share with
    the state machine are here. The auction (desis), intex, credis, the
    shielded Gratis pool, the zero-fee policy and the TEE registry have no model
    yet. ABI dispatch, token metadata strings, metrics and logging carry no
    state. The derive macros appear only through the storage layout they generate. *)

From stdpp Require Export base gmap list strings sorting.
From Stdlib Require Export ZArith Lia.

#[global] Open Scope Z_scope.

Declare Scope outbe_scope.
Delimit Scope outbe_scope with outbe.
#[global] Open Scope outbe_scope.

(** ** Results and errors *)

Inductive result (E A : Type) : Type :=
| Ok (a : A)
| Err (e : E).
Arguments Ok {E A} _.
Arguments Err {E A} _.

(** Why a child frame could not be run. *)
Inductive SubCallError : Type :=
| SubNotAvailable
| SubProviderBorrowed
| SubDatabaseError (msg : string)
| SubFatal (msg : string)
| SubOutOfGas
| SubDepthLimitExceeded
| SubStaticContextViolation
| SubInvalidTarget
| SubNotActivated
| SubStateChangeDuringStaticCall
| SubEvmHalt (reason : string).

(** The error type of every precompile. *)
Inductive PrecompileError : Type :=
| OutOfGas
| Storage (msg : string)
| WriteProtection
| Revert (msg : string)
| RevertBytes (data : list Z)
| SubCall (e : SubCallError)
| Unsupported
| Fatal (msg : string).

Abbreviation res A := (result PrecompileError A).

(** [let? x := c in k] is Rust's [let x = c?; k]. *)
Notation "'let?' x ':=' c 'in' k" :=
  (match c with Ok x => k | Err e => Err e end)
  (at level 10, x pattern, c at level 200, k at level 200,
   format "'[v' 'let?'  x  ':='  c  'in' '/' k ']'") : outbe_scope.

(** [ensure b else e in k]: the early return [if !b { return Err(e) }]. *)
Notation "'ensure' b 'else' e 'in' k" :=
  (if b then k else Err e)
  (at level 10, b at level 200, e at level 100, k at level 200,
   format "'[v' 'ensure'  b  'else'  e  'in' '/' k ']'") : outbe_scope.

Definition ok_or {E A} (o : option A) (e : E) : result E A :=
  match o with Some a => Ok a | None => Err e end.

Definition is_ok {E A} (r : result E A) : bool :=
  match r with Ok _ => true | Err _ => false end.

(** A left fold whose step may fail, the shape of a [for] loop with [?]. *)
Fixpoint foldM {E A B} (f : B -> A -> result E B) (b : B) (l : list A) : result E B :=
  match l with
  | [] => Ok b
  | a :: l => let? b := f b a in foldM f b l
  end.

(** ** Machine integers

    A [w]-bit unsigned integer is a [Z]; the operators write the wrap-around
    out. [U256] is ruint's [Uint<256, 4>], whose [+], [-] and [*] wrap. *)

Abbreviation U256 := Z (only parsing).
Abbreviation u64 := Z (only parsing).
Abbreviation u32 := Z (only parsing).
Abbreviation u8 := Z (only parsing).
Abbreviation B256 := Z (only parsing).
Abbreviation Address := Z (only parsing).

Definition MAX_U256 : Z := 2 ^ 256 - 1.
Definition MAX_U64 : Z := 2 ^ 64 - 1.
Definition MAX_U32 : Z := 2 ^ 32 - 1.

Definition fits (w x : Z) : Prop := 0 <= x < 2 ^ w.
Definition is_u32 (x : Z) : Prop := 0 <= x < 2 ^ 32.
Definition is_address (x : Z) : Prop := 0 <= x < 2 ^ 160.
Definition fitsb (w x : Z) : bool := (0 <=? x) && (x <? 2 ^ w).

Definition wadd (w x y : Z) : Z := (x + y) mod 2 ^ w.
Definition wsub (w x y : Z) : Z := (x - y) mod 2 ^ w.
Definition wmul (w x y : Z) : Z := (x * y) mod 2 ^ w.

Definition checked_add (w x y : Z) : option Z :=
  if x + y <? 2 ^ w then Some (x + y) else None.
Definition checked_sub (x y : Z) : option Z :=
  if y <=? x then Some (x - y) else None.
Definition checked_mul (w x y : Z) : option Z :=
  if x * y <? 2 ^ w then Some (x * y) else None.
Definition saturating_add (w x y : Z) : Z := Z.min (x + y) (2 ^ w - 1).
Definition saturating_sub (x y : Z) : Z := Z.max (x - y) 0.
Definition saturating_mul (w x y : Z) : Z := Z.min (x * y) (2 ^ w - 1).
(** [try_from(x).unwrap_or(T::MAX)] *)
Definition clamp (w x : Z) : Z := if x <? 2 ^ w then x else 2 ^ w - 1.

(** ** Storage reads

    An EVM word that was never written reads as zero; a [Mapping<K, V>] is a
    [gmap] whose missing keys read as the zero of [V]. *)

Class Zeroed (A : Type) := zeroed : A.
#[global] Instance zeroed_Z : Zeroed Z := 0.
#[global] Instance zeroed_bool : Zeroed bool := false.
#[global] Instance zeroed_list {A} : Zeroed (list A) := [].

Definition rd `{Countable K} {V} `{Zeroed V} (m : gmap K V) (k : K) : V :=
  default zeroed (m !! k).

(** The sum of all the values of a mapping. *)
Definition msum `{Countable K} (m : gmap K Z) : Z :=
  map_fold (fun _ v acc => v + acc) 0 m.

(** [Vec::len] as an integer. *)
Definition len {A} (l : list A) : Z := Z.of_nat (length l).

Definition lsum (l : list Z) : Z := foldr Z.add 0 l.

(** ** Execution environment *)

(** What a storage provider reports of the block being executed. *)
Record BlockEnv := mkEnv { block_number : u64; timestamp : u64 }.

(** Third-party code, as parameters: [alloy_primitives::keccak256], [ring]'s
    SHA-256, [hex::encode] and the three [blst] calls the registration check
    makes. *)
Class Crypto := {
  keccak256 : list Z -> B256;
  sha256 : list Z -> list Z;
  hex_encode : list Z -> list Z;
  blst_pk_from_bytes : list Z -> bool;
  blst_sig_from_bytes : list Z -> bool;
  blst_verify : list Z -> list Z -> list Z -> bool
}.

(** An instance for evaluating definitions on concrete inputs. *)
Definition sample_crypto : Crypto := {|
  keccak256 := fun l => foldl (fun acc b => acc * 256 + b) 1 l;
  sha256 := fun l => replicate 32 0;
  hex_encode := fun l => l;
  blst_pk_from_bytes := fun _ => true;
  blst_sig_from_bytes := fun _ => true;
  blst_verify := fun _ _ _ => true
|}.

(** A string of bytes. *)
Definition bytes (l : list Z) : Prop := Forall (fun b => 0 <= b < 256) l.

(** What storage layouts and fingerprints assume of the hash: no collisions, and no
    preimage of the zero word. *)
Class KeccakLaws `{Crypto} := {
  keccak_inj l1 l2 : bytes l1 -> bytes l2 -> keccak256 l1 = keccak256 l2 -> l1 = l2;
  keccak_nonzero l : bytes l -> keccak256 l <> 0
}.

(** ** Loops

    [loopP p step s] runs [step] at most [p] times, until it returns a result on
    the right: a [loop] with [break], where the fuel is binary so that large
    bounds cost nothing to write down. *)
Fixpoint loopP {S R} (p : positive) (step : S -> S + R) (s : S) : S + R :=
  match p with
  | xH => step s
  | xO p => match loopP p step s with inl s => loopP p step s | inr r => inr r end
  | xI p => match loopP p step s with
            | inl s => match loopP p step s with inl s => step s | inr r => inr r end
            | inr r => inr r
            end
  end.

(** ** Bytes *)

(** [n] bytes of [x], most significant first. *)
Fixpoint be_bytes (n : nat) (x : Z) : list Z :=
  match n with
  | O => []
  | S n => be_bytes n (x / 256) ++ [x mod 256]
  end.

Definition from_be_bytes (l : list Z) : Z := foldl (fun acc b => acc * 256 + b) 0 l.

(** A 32-byte array; the zero array is what an unwritten slot reads as. *)
Record bytes32 := B32 { b32 : list Z }.
#[global] Instance zeroed_bytes32 : Zeroed bytes32 := B32 (replicate 32 0).

(** ** Tactics *)

(** Turn boolean comparisons of the code into propositions [lia] reads. *)
Ltac bools :=
  repeat match goal with
  | H : (_ && _) = true |- _ => apply andb_prop in H as [? ?]
  | H : (_ || _) = false |- _ => apply orb_false_elim in H as [? ?]
  | H : negb _ = true |- _ => apply negb_true_iff in H
  | H : negb _ = false |- _ => apply negb_false_iff in H
  | H : (_ =? _) = true |- _ => apply Z.eqb_eq in H
  | H : (_ =? _) = false |- _ => apply Z.eqb_neq in H
  | H : (_ <? _) = true |- _ => apply Z.ltb_lt in H
  | H : (_ <? _) = false |- _ => apply Z.ltb_ge in H
  | H : (_ <=? _) = true |- _ => apply Z.leb_le in H
  | H : (_ <=? _) = false |- _ => apply Z.leb_gt in H
  | H : (_ >? _) = true |- _ => rewrite Z.gtb_ltb in H
  | H : (_ >? _) = false |- _ => rewrite Z.gtb_ltb in H
  | H : (_ >=? _) = true |- _ => rewrite Z.geb_leb in H
  | H : (_ >=? _) = false |- _ => rewrite Z.geb_leb in H
  end.

(** Invert a hypothesis [f ... = Ok _] whose left side is a chain of early
    returns: one goal per branch that reaches [Ok]. *)
Ltac inv_ok_step H :=
  lazymatch type of H with
  | Err _ = Ok _ => discriminate H
  | Ok _ = Ok _ => injection H as H; subst
  | (if ?b then _ else _) = Ok _ =>
      let E := fresh "E" in destruct b eqn:E; [| try discriminate H]; try discriminate H
  | (match ?c with Ok _ => _ | Err _ => _ end) = Ok _ =>
      let E := fresh "E" in destruct c eqn:E; [| discriminate H]
  | (match ?c with Some _ => _ | None => _ end) = Ok _ =>
      let E := fresh "E" in destruct c eqn:E; try discriminate H
  | (let (_, _) := ?p in _) = Ok _ => destruct p
  | (let _ := _ in _) = Ok _ => cbv zeta in H
  end.
Ltac inv_ok H := repeat (inv_ok_step H); bools.

(** The same on every hypothesis. *)
Ltac inv_oks :=
  repeat match goal with
  | H : Err _ = Ok _ |- _ => discriminate H
  | H : Ok _ = Ok _ |- _ => inv_ok H
  | H : (if _ then _ else _) = Ok _ |- _ => inv_ok H
  | H : (match _ with Ok _ => _ | Err _ => _ end) = Ok _ |- _ => inv_ok H
  | H : (let (_, _) := _ in _) = Ok _ |- _ => inv_ok H
  end.

(** Evaluate a closed goal. *)
Ltac crunch := vm_compute; repeat split; try reflexivity; try discriminate.

Create HintDb outbe.
Create Rewrite HintDb outbe.

(** ** Results: shared lemmas *)

Lemma is_ok_unit {E} (r : result E unit) : is_ok r = true <-> r = Ok tt.
Proof. destruct r as [[]|]; simpl; split; congruence. Qed.

Lemma ok_or_Ok {E A} (o : option A) (e : E) a : ok_or o e = Ok a <-> o = Some a.
Proof. destruct o; simpl; split; congruence. Qed.

Lemma Ok_inj {E A} (a b : A) : @Ok E A a = Ok b -> a = b.
Proof. congruence. Qed.

Lemma foldM_app {E A B} (f : B -> A -> result E B) b l1 l2 :
  foldM f b (l1 ++ l2) = let? b' := foldM f b l1 in foldM f b' l2.
Proof. revert b; induction l1 as [|a l1 IH]; intros b; simpl; [done|]. by destruct (f b a). Qed.

(** An invariant of the step is an invariant of the fold. *)
Lemma foldM_inv {E A B} (P : B -> Prop) (f : B -> A -> result E B) l b b' :
  (forall b a b', a ∈ l -> P b -> f b a = Ok b' -> P b') ->
  P b -> foldM f b l = Ok b' -> P b'.
Proof.
  revert b; induction l as [|a l IH]; intros b Hf Hb; simpl.
  - by injection 1 as <-.
  - destruct (f b a) eqn:E1; [|discriminate]. intros H.
    eapply IH; [| |exact H]; [|eapply Hf; [left|exact Hb|exact E1]].
    intros ????. eapply Hf. by right.
Qed.

(** ** Loops: shared lemmas *)

Lemma loopP_inv {S R} (Inv : S -> Prop) (Post : R -> Prop) (m : S -> Z) (step : S -> S + R) :
  (forall s s', Inv s -> step s = inl s' -> Inv s' /\ 0 <= m s' < m s) ->
  (forall s r, Inv s -> step s = inr r -> Post r) ->
  forall p s, Inv s ->
  match loopP p step s with
  | inl s' => Inv s' /\ 0 <= m s' <= m s - Z.pos p
  | inr r => Post r
  end.
Proof.
  intros Hs Hr. induction p as [p IH|p IH|]; intros s Hi; cbn [loopP].
  - specialize (IH s Hi) as H1. destruct (loopP p step s) as [s1|r]; [|done]. destruct H1 as (Hi1 & H1).
    specialize (IH s1 Hi1) as H2. destruct (loopP p step s1) as [s2|r]; [|done]. destruct H2 as (Hi2 & H2).
    destruct (step s2) as [s3|r] eqn:E; [|by eapply Hr]. destruct (Hs _ _ Hi2 E). split; [done|lia].
  - specialize (IH s Hi) as H1. destruct (loopP p step s) as [s1|r]; [|done]. destruct H1 as (Hi1 & H1).
    specialize (IH s1 Hi1) as H2. destruct (loopP p step s1) as [s2|r]; [|done]. destruct H2. split; [done|lia].
  - destruct (step s) as [s1|r] eqn:E; [|by eapply Hr]. destruct (Hs _ _ Hi E). split; [done|lia].
Qed.

(** A loop whose measure starts below the fuel returns. *)
Lemma loopP_total {S R} (Inv : S -> Prop) (Post : R -> Prop) (m : S -> Z) (step : S -> S + R) p s :
  (forall s s', Inv s -> step s = inl s' -> Inv s' /\ 0 <= m s' < m s) ->
  (forall s r, Inv s -> step s = inr r -> Post r) ->
  Inv s -> m s < Z.pos p -> exists r, loopP p step s = inr r /\ Post r.
Proof.
  intros Hs Hr Hi Hm. pose proof (loopP_inv Inv Post m step Hs Hr p s Hi) as H.
  destruct (loopP p step s) as [s'|r]; [lia|by exists r].
Qed.

(** ** Integers: shared lemmas *)

Lemma checked_add_Some w x y z : checked_add w x y = Some z <-> z = x + y /\ x + y < 2 ^ w.
Proof. unfold checked_add. case_match eqn:E; bools; split; [intros [= <-]; lia | intros [-> ?]; done || lia | done | intros [-> ?]; lia]. Qed.

Lemma checked_sub_Some x y z : checked_sub x y = Some z <-> z = x - y /\ y <= x.
Proof. unfold checked_sub. case_match eqn:E; bools; split; [intros [= <-]; lia | intros [-> ?]; done || lia | done | intros [-> ?]; lia]. Qed.

Lemma checked_mul_Some w x y z : checked_mul w x y = Some z <-> z = x * y /\ x * y < 2 ^ w.
Proof. unfold checked_mul. case_match eqn:E; bools; split; [intros [= <-]; lia | intros [-> ?]; done || lia | done | intros [-> ?]; lia]. Qed.

Lemma wadd_small w x y : 0 <= x + y < 2 ^ w -> wadd w x y = x + y.
Proof. intros. unfold wadd. by apply Z.mod_small. Qed.

Lemma wsub_small w x y : 0 <= x - y < 2 ^ w -> wsub w x y = x - y.
Proof. intros. unfold wsub. by apply Z.mod_small. Qed.

Lemma wmul_small w x y : 0 <= x * y < 2 ^ w -> wmul w x y = x * y.
Proof. intros. unfold wmul. by apply Z.mod_small. Qed.

Lemma wadd_fits w x y : 0 < w -> fits w (wadd w x y).
Proof. intros. unfold fits, wadd. apply Z.mod_pos_bound. lia. Qed.

Lemma wsub_fits w x y : 0 < w -> fits w (wsub w x y).
Proof. intros. unfold fits, wsub. apply Z.mod_pos_bound. lia. Qed.

(** ** Mappings: shared lemmas *)

Section Reads.
Context `{Countable K} {V : Type} `{Zeroed V}.
Implicit Types m : gmap K V.

Lemma rd_insert_eq m k v : rd (<[k:=v]> m) k = v.
Proof. unfold rd. by rewrite lookup_insert_eq. Qed.

Lemma rd_insert_ne m k k' v : k <> k' -> rd (<[k:=v]> m) k' = rd m k'.
Proof. intros. unfold rd. by rewrite lookup_insert_ne. Qed.

Lemma rd_insert m k k' v : rd (<[k:=v]> m) k' = if decide (k = k') then v else rd m k'.
Proof. case_decide; subst; [apply rd_insert_eq | by apply rd_insert_ne]. Qed.

Lemma rd_empty k : rd (∅ : gmap K V) k = zeroed.
Proof. unfold rd. by rewrite lookup_empty. Qed.
End Reads.

#[export] Hint Rewrite @rd_insert_eq @rd_empty : outbe.
#[export] Hint Rewrite @rd_insert_ne using congruence : outbe.

Section Sums.
Context `{Countable K}.
Implicit Types m : gmap K Z.

Lemma msum_empty : msum (∅ : gmap K Z) = 0.
Proof. apply map_fold_empty. Qed.

Lemma msum_insert_new m k v : m !! k = None -> msum (<[k:=v]> m) = v + msum m.
Proof. intros. unfold msum. rewrite map_fold_insert_L; [done| |done]. intros; lia. Qed.

Lemma msum_delete m k : msum m = rd m k + msum (delete k m).
Proof.
  unfold rd. destruct (m !! k) as [v|] eqn:E; simpl.
  - rewrite <- (insert_delete_id m k v) at 1 by done.
    by rewrite msum_insert_new by apply lookup_delete_eq.
  - by rewrite delete_id.
Qed.

Lemma msum_insert m k v : msum (<[k:=v]> m) = msum m - rd m k + v.
Proof.
  rewrite (msum_delete (<[k:=v]> m) k), (msum_delete m k).
  rewrite rd_insert_eq, delete_insert_eq. lia.
Qed.

Lemma msum_nonneg m : (forall k, 0 <= rd m k) -> 0 <= msum m.
Proof.
  induction m as [|k v m Hk IH] using map_ind; intros Hr.
  - by rewrite msum_empty.
  - rewrite msum_insert_new by done.
    pose proof (Hr k) as Hv. rewrite rd_insert_eq in Hv.
    assert (0 <= msum m); [|lia]. apply IH. intros k'.
    destruct (decide (k = k')) as [<-|Hne].
    + unfold rd. by rewrite Hk.
    + specialize (Hr k'). by rewrite rd_insert_ne in Hr.
Qed.

Lemma rd_le_msum m k : (forall k, 0 <= rd m k) -> rd m k <= msum m.
Proof.
  intros Hr. rewrite (msum_delete m k).
  assert (0 <= msum (delete k m)); [|lia]. apply msum_nonneg. intros k'.
  unfold rd. rewrite lookup_delete. case_decide; [done|]. apply Hr.
Qed.

(** Two keys read together are bounded by the sum. *)
Lemma rd2_le_msum m k k' : (forall k, 0 <= rd m k) -> k <> k' -> rd m k + rd m k' <= msum m.
Proof.
  intros Hr Hne. rewrite (msum_delete m k).
  assert (rd m k' <= msum (delete k m)); [|lia].
  replace (rd m k') with (rd (delete k m) k').
  - apply rd_le_msum. intros j. unfold rd. rewrite lookup_delete.
    case_decide; [done|]. apply Hr.
  - unfold rd. by rewrite lookup_delete_ne.
Qed.

(** Distinct keys read together are bounded by the sum. *)
Lemma lsum_le_msum m (l : list K) :
  (forall k, 0 <= rd m k) -> NoDup l -> lsum (rd m <$> l) <= msum m.
Proof.
  revert m. induction l as [|k l IH]; intros m Hr Hnd; [by apply msum_nonneg|].
  inversion Hnd as [|? ? Hk Hnd']; subst. rewrite (msum_delete m k). cbn [fmap list_fmap lsum foldr].
  assert (E : lsum (rd m <$> l) = lsum (rd (delete k m) <$> l)).
  { f_equal. apply list_fmap_ext. intros i k' Hi. unfold rd. rewrite lookup_delete_ne; [done|].
    intros ->. apply Hk. by eapply list_elem_of_lookup_2. }
  fold (lsum (rd m <$> l)). rewrite E.
  assert (lsum (rd (delete k m) <$> l) <= msum (delete k m)); [|lia].
  apply IH; [|done]. intros k'. unfold rd. rewrite lookup_delete. case_decide; [done|apply Hr].
Qed.
End Sums.

(** Distinct indices below [n] are at most [n] many. *)
Lemma NoDup_bounded_length (l : list Z) n :
  NoDup l -> (forall i, i ∈ l -> 0 <= i < n) -> (length l <= Z.to_nat n)%nat.
Proof.
  intros Hnd Hb. rewrite <- (length_seqZ 0 n). apply submseteq_length, NoDup_submseteq; [done|].
  intros i Hi. apply elem_of_seqZ. specialize (Hb i Hi). lia.
Qed.

Lemma lsum_app l1 l2 : lsum (l1 ++ l2) = lsum l1 + lsum l2.
Proof. unfold lsum. induction l1; simpl in *; lia. Qed.

Lemma lsum_nonneg l : Forall (fun x => 0 <= x) l -> 0 <= lsum l.
Proof. induction 1 as [|x l Hx Hl IH]; [done|]. change (0 <= x + lsum l). lia. Qed.

(** A decidable property of an interval is checked by evaluation. *)
Lemma foldl_wadd w l acc : 0 <= acc -> Forall (fun x => 0 <= x) l -> acc + lsum l < 2 ^ w -> foldl (wadd w) acc l = acc + lsum l.
Proof.
  revert acc. induction l as [|x l IH]; intros acc Ha Hl Hs; [cbn; lia|]. apply Forall_cons_1 in Hl as [Hx Hl].
  change (lsum (x :: l)) with (x + lsum l) in *. pose proof (lsum_nonneg l Hl). cbn [foldl]. rewrite wadd_small by lia. rewrite IH by (done || lia). lia.
Qed.

Lemma lsum_perm l1 l2 : l1 ≡ₚ l2 -> lsum l1 = lsum l2.
Proof. unfold lsum. induction 1; cbn [foldr]; lia. Qed.

Lemma len_le_lsum l : Forall (fun x => 0 < x) l -> len l <= lsum l.
Proof. induction 1 as [|x l Hx Hl IH]; [done|]. change (lsum (x :: l)) with (x + lsum l). unfold len in *. cbn [length]. lia. Qed.

Lemma elem_le_lsum l x : Forall (fun y => 0 <= y) l -> x ∈ l -> x <= lsum l.
Proof.
  induction 1 as [|y l Hy Hl IH]; intros Hx; [by apply not_elem_of_nil in Hx|]. change (lsum (y :: l)) with (y + lsum l). pose proof (lsum_nonneg l Hl).
  apply elem_of_cons in Hx as [->|Hx]; [lia|]. specialize (IH Hx). lia.
Qed.

Lemma range_forall (P : Z -> bool) lo n :
  forallb P (seqZ lo n) = true -> forall x, lo <= x < lo + n -> P x = true.
Proof.
  intros H x Hx. rewrite forallb_forall in H. apply H.
  apply list_elem_of_In, elem_of_seqZ. lia.
Qed.

(** ** Bytes: shared lemmas *)

Lemma length_be_bytes n x : length (be_bytes n x) = n.
Proof. revert x; induction n; intros x; simpl; [done|]. rewrite length_app, IHn. simpl. lia. Qed.

Lemma from_be_bytes_snoc l b : from_be_bytes (l ++ [b]) = from_be_bytes l * 256 + b.
Proof. unfold from_be_bytes. by rewrite foldl_app. Qed.

Lemma from_be_bytes_app l1 l2 :
  from_be_bytes (l1 ++ l2) = from_be_bytes l1 * 256 ^ Z.of_nat (length l2) + from_be_bytes l2.
Proof.
  revert l1; induction l2 as [|b l2 IH] using rev_ind; intros l1.
  - rewrite app_nil_r. unfold from_be_bytes. simpl. lia.
  - rewrite app_assoc, !from_be_bytes_snoc, IH.
    rewrite length_app, Nat2Z.inj_add, Z.pow_add_r by lia. simpl. lia.
Qed.

(** Encoding and decoding big-endian integers. *)
Lemma from_be_bytes_be_bytes n x :
  0 <= x < 256 ^ Z.of_nat n -> from_be_bytes (be_bytes n x) = x.
Proof.
  revert x; induction n as [|n IH]; intros x Hx; simpl be_bytes.
  - simpl in Hx. unfold from_be_bytes. simpl. lia.
  - rewrite from_be_bytes_app, IH.
    + unfold from_be_bytes. simpl. pose proof (Z.div_mod x 256). lia.
    + rewrite Nat2Z.inj_succ, Z.pow_succ_r in Hx by lia.
      split; [apply Z.div_pos; lia | apply Z.div_lt_upper_bound; lia].
Qed.

Lemma be_bytes_range n x : Forall (fun b => 0 <= b < 256) (be_bytes n x).
Proof.
  revert x; induction n; intros x; simpl; [constructor|].
  apply Forall_app. split; [done|]. constructor; [|constructor]. by apply Z.mod_pos_bound.
Qed.

#[global] Arguments be_bytes : simpl never.

Lemma be_bytes_inj n x y :
  0 <= x < 256 ^ Z.of_nat n -> 0 <= y < 256 ^ Z.of_nat n -> be_bytes n x = be_bytes n y -> x = y.
Proof. intros Hx Hy E. rewrite <- (from_be_bytes_be_bytes n x), <- (from_be_bytes_be_bytes n y) by done. by f_equal. Qed.

Lemma from_be_bytes_inj l1 l2 :
  length l1 = length l2 -> bytes l1 -> bytes l2 -> from_be_bytes l1 = from_be_bytes l2 -> l1 = l2.
Proof.
  revert l2. induction l1 as [|b l1 IH] using rev_ind; intros l2 Hl H1 H2 E.
  - by destruct l2.
  - destruct (exists_last (l := l2)) as (l2' & b' & ->); [intros ->; rewrite length_app in Hl; cbn in Hl; lia|].
    rewrite !length_app in Hl. rewrite !from_be_bytes_snoc in E. apply Forall_app in H1 as [H1 Hb], H2 as [H2 Hb'].
    rewrite Forall_singleton in Hb, Hb'.
    assert (b = b' /\ from_be_bytes l1 = from_be_bytes l2') as [-> E'] by lia.
    f_equal. apply IH; [cbn in Hl; lia|done..].
Qed.

Lemma foldl_be acc l : foldl (fun acc b => acc * 256 + b) acc l = acc * 256 ^ Z.of_nat (length l) + from_be_bytes l.
Proof.
  induction l as [|b l IH] using rev_ind; [unfold from_be_bytes; cbn; lia|].
  rewrite foldl_app, IH, from_be_bytes_snoc, length_app, Nat2Z.inj_add, Z.pow_add_r by lia. cbn. lia.
Qed.

Lemma bytes_be n x : bytes (be_bytes n x).
Proof. apply be_bytes_range. Qed.

Lemma bytes_app l1 l2 : bytes l1 -> bytes l2 -> bytes (l1 ++ l2).
Proof. apply Forall_app_2. Qed.

Lemma from_be_bytes_nonneg l : bytes l -> 0 <= from_be_bytes l.
Proof.
  induction l as [|b l IH] using rev_ind; intros H; [done|]. apply Forall_app in H as [H Hb]. rewrite Forall_singleton in Hb.
  rewrite from_be_bytes_snoc. specialize (IH H). lia.
Qed.

Lemma from_be_bytes_bound l : bytes l -> 0 <= from_be_bytes l < 256 ^ Z.of_nat (length l).
Proof.
  intros Hl. split; [by apply from_be_bytes_nonneg|]. induction l as [|b l IH] using rev_ind; [done|].
  apply Forall_app in Hl as [Hl Hb]. rewrite Forall_singleton in Hb. rewrite from_be_bytes_snoc, length_app, Nat2Z.inj_add, Z.pow_add_r by lia.
  specialize (IH Hl). cbn. lia.
Qed.

Lemma sample_keccak : @KeccakLaws sample_crypto.
Proof.
  split; cbn.
  - intros l1 l2 H1 H2 E. rewrite !foldl_be in E. pose proof (from_be_bytes_bound l1 H1) as B1. pose proof (from_be_bytes_bound l2 H2) as B2.
    assert (Hl : length l1 = length l2).
    { destruct (Nat.lt_trichotomy (length l1) (length l2)) as [Hlt|[Heq|Hlt]]; [|done|];
        [pose proof (Z.pow_le_mono_r 256 (Z.of_nat (length l1) + 1) (Z.of_nat (length l2)) ltac:(lia) ltac:(lia)) as Hp
        |pose proof (Z.pow_le_mono_r 256 (Z.of_nat (length l2) + 1) (Z.of_nat (length l1)) ltac:(lia) ltac:(lia)) as Hp];
        rewrite Z.pow_add_r in Hp by lia; change (256 ^ 1) with 256 in Hp; lia. }
    rewrite Hl in E. apply from_be_bytes_inj; [done..|lia].
  - intros l H. rewrite foldl_be. pose proof (from_be_bytes_nonneg l H). assert (0 < 256 ^ Z.of_nat (length l)) by lia. lia.
Qed.

(** ** Tallies

    A list of keys with positive counts, in the order the keys were first seen:
    what an enumeration with counters in storage represents. *)

Definition add_once (vs : list Address) (v : Address) : list Address := if decide (v ∈ vs) then vs else vs ++ [v].

Fixpoint bump (l : list (Address * u64)) (v : Address) : list (Address * u64) :=
  match l with
  | [] => [(v, 1)]
  | (w, c) :: l => if decide (w = v) then (w, c + 1) :: l else (w, c) :: bump l v
  end.

Fixpoint count_of (l : list (Address * u64)) (v : Address) : Z :=
  match l with [] => 0 | (w, c) :: l => if decide (w = v) then c else count_of l v end.

Lemma bump_fst l v : fst <$> bump l v = add_once (fst <$> l) v.
Proof.
  unfold add_once. induction l as [|[w c] l IH]; [done|]. cbn [bump fmap list_fmap fst]. pose proof (elem_of_cons (fst <$> l) v w) as Hc.
  destruct (decide (w = v)) as [->|Hne]; cbn [fmap list_fmap fst].
  - rewrite decide_True; [done|]. apply Hc. by left.
  - change (list_fmap _ _ fst (bump l v)) with (fst <$> bump l v). rewrite IH. repeat case_decide; first [done|exfalso; naive_solver].
Qed.

Lemma bump_sum l v : lsum (snd <$> bump l v) = lsum (snd <$> l) + 1.
Proof. induction l as [|[w c] l IH]; [done|]. cbn [bump fmap list_fmap snd]. case_decide; cbn [lsum foldr fmap list_fmap snd] in *; unfold lsum, fmap in *; cbn in *; lia. Qed.

Lemma bump_count l v w : count_of (bump l v) w = count_of l w + (if decide (w = v) then 1 else 0).
Proof.
  induction l as [|[u c] l IH]; cbn [bump count_of]; [repeat case_decide; first [congruence|lia]|].
  destruct (decide (u = v)); cbn [count_of]; [repeat case_decide; first [congruence|lia]|]. rewrite IH. repeat case_decide; first [congruence|lia].
Qed.

Lemma bump_pos l v : Forall (fun c => 1 <= snd c) l -> Forall (fun c : Address * u64 => 1 <= snd c) (bump l v).
Proof.
  induction 1 as [|[w c] l Hc Hl IH]; cbn [bump snd] in *; [repeat constructor; cbn; lia|]. case_decide; constructor; cbn [snd]; first [lia|done].
Qed.

Lemma count_bounds l v : Forall (fun c => 1 <= snd c) l -> 0 <= count_of l v <= lsum (snd <$> l) /\ len l <= lsum (snd <$> l).
Proof.
  induction 1 as [|[w c] l Hc Hl IH]; [unfold len; cbn; lia|]. unfold len in *. cbn [count_of length fmap list_fmap snd] in *.
  change (lsum (c :: (snd <$> l))) with (c + lsum (snd <$> l)). case_decide; lia.
Qed.

Lemma count_of_zero l v : Forall (fun c => 1 <= snd c) l -> count_of l v = 0 <-> v ∉ fst <$> l.
Proof.
  induction 1 as [|[w c] l Hc Hl IH]; [split; [intros _; apply not_elem_of_nil|done]|]. cbn [count_of fmap list_fmap fst snd] in *.
  rewrite not_elem_of_cons. case_decide; [split; [lia|naive_solver]|]. rewrite IH. naive_solver.
Qed.
