(* ===== verification/Time.v ===== *)
(** * Time: UTC date keys and worldwide days

    [crates/blockchain/primitives/src/time.rs] and
    [crates/core/common/src/worldwideday.rs]. A date key is the [u32]
    [yyyymmdd]; the conversions are the era arithmetic of the source, with the
    [u32]/[u64] wrap-around written out and the [i64] intermediate values exact
    (they stay below [2^48]). [Calendar] is the independent reference: the
    Gregorian successor of a date, one day at a time. *)

From S2P Require Import Prelude.
From Stdlib Require Import Zify.

Definition SECONDS_PER_DAY : Z := 86400.
Definition UTC_PLUS_14_OFFSET : Z := 50400.

Inductive TimeError : Type :=
| PreGenesis (utc_day genesis_utc_day : u32).

Definition civil_date_from_days (days_since_epoch : Z) : u32 :=
  let z := days_since_epoch + 719468 in
  let era := Z.quot (if 0 <=? z then z else z - 146096) 146097 in
  let doe := (z - era * 146097) mod 2 ^ 32 in
  let yoe := (doe - doe / 1460 + doe / 36524 - doe / 146096) / 365 in
  let y := yoe + era * 400 in
  let doy := doe - (365 * yoe + yoe / 4 - yoe / 100) in
  let mp := (5 * doy + 2) / 153 in
  let d := doy - (153 * mp + 2) / 5 + 1 in
  let m := if mp <? 10 then mp + 3 else mp - 9 in
  let y := if m <=? 2 then y + 1 else y in
  (y mod 2 ^ 32 * 10000 + m * 100 + d) mod 2 ^ 32.

Definition days_from_civil (year month day : Z) : Z :=
  let year := year - (if month <=? 2 then 1 else 0) in
  let era := Z.quot (if 0 <=? year then year else year - 399) 400 in
  let yoe := year - era * 400 in
  let mp := month + (if 2 <? month then -3 else 9) in
  let doy := Z.quot (153 * mp + 2) 5 + day - 1 in
  let doe := yoe * 365 + Z.quot yoe 4 - Z.quot yoe 100 + doy in
  era * 146097 + doe - 719468.

Definition timestamp_to_date_key (timestamp : u64) : u32 :=
  let days := clamp 63 (timestamp / SECONDS_PER_DAY) in
  civil_date_from_days days.

Definition worldwide_day_from_timestamp (timestamp : u64) : u32 :=
  timestamp_to_date_key (wadd 64 timestamp UTC_PLUS_14_OFFSET).

Definition date_key_to_utc_timestamp (date_key : u32) : u64 :=
  let year := date_key / 10000 in
  let month := (date_key / 100) mod 100 in
  let day := date_key mod 100 in
  let days := days_from_civil year month day in
  wmul 64 (days mod 2 ^ 64) SECONDS_PER_DAY.

Definition previous_date_key (date_key : u32) : u32 :=
  let ts := saturating_sub (date_key_to_utc_timestamp date_key) SECONDS_PER_DAY in
  timestamp_to_date_key ts.

Definition next_date_key (date_key : u32) : u32 :=
  let ts := saturating_add 64 (date_key_to_utc_timestamp date_key) SECONDS_PER_DAY in
  timestamp_to_date_key ts.

Definition day_number_between (genesis_utc_day utc_day : u32) : result TimeError u32 :=
  let g_ts := date_key_to_utc_timestamp genesis_utc_day in
  let u_ts := date_key_to_utc_timestamp utc_day in
  let? delta := ok_or (checked_sub u_ts g_ts) (PreGenesis utc_day genesis_utc_day) in
  Ok (clamp 32 (delta / SECONDS_PER_DAY)).

(** ** Worldwide days *)

Module WorldwideDay.

Definition parse_wwd_to_nums (raw : u32) : Z * Z * Z :=
  let year := raw / 10000 in
  let month := ((raw / 100) mod 100) mod 2 ^ 8 in
  let day := (raw mod 100) mod 2 ^ 8 in
  (year, month, day).

Definition from_timestamp (timestamp : u64) : u32 :=
  timestamp_to_date_key (wadd 64 timestamp UTC_PLUS_14_OFFSET).

Definition start_timestamp (wwd : u32) : u64 :=
  saturating_sub (date_key_to_utc_timestamp wwd) UTC_PLUS_14_OFFSET.

Definition to_timestamp_utc (wwd : u32) : u64 := date_key_to_utc_timestamp wwd.

End WorldwideDay.

(** ** The reference calendar *)

Module Calendar.

Definition is_leap (y : Z) : bool :=
  (y mod 4 =? 0) && (negb (y mod 100 =? 0) || (y mod 400 =? 0)).

Definition days_in_month (y m : Z) : Z :=
  if m =? 2 then (if is_leap y then 29 else 28)
  else if (m =? 4) || (m =? 6) || (m =? 9) || (m =? 11) then 30 else 31.

(** The day after [y]-[m]-[d]. *)
Definition next (c : Z * Z * Z) : Z * Z * Z :=
  let '(y, m, d) := c in
  if d <? days_in_month y m then (y, m, d + 1)
  else if m <? 12 then (y, m + 1, 1) else (y + 1, 1, 1).

Definition epoch : Z * Z * Z := (1970, 1, 1).

Definition key (c : Z * Z * Z) : Z :=
  let '(y, m, d) := c in y * 10000 + m * 100 + d.

Definition valid (c : Z * Z * Z) : bool :=
  let '(y, m, d) := c in
  (0 <=? y) && (1 <=? m) && (m <=? 12) && (1 <=? d) && (d <=? days_in_month y m).

(** A day in the year 401,702; the [u32] key of a date overflows in the year
    429,496. *)
Definition horizon : Z := 146000000.

End Calendar.

(** ** The era arithmetic

    [ymd doe] is the date of the [doe]-th day of an era of 400 years that
    starts on 1 March of year 0. *)

Definition ymd (doe : Z) : Z * Z * Z :=
  let yoe := (doe - doe / 1460 + doe / 36524 - doe / 146096) / 365 in
  let doy := doe - (365 * yoe + yoe / 4 - yoe / 100) in
  let mp := (5 * doy + 2) / 153 in
  let d := doy - (153 * mp + 2) / 5 + 1 in
  let m := if mp <? 10 then mp + 3 else mp - 9 in
  ((if m <=? 2 then yoe + 1 else yoe), m, d).

Definition shift_years (k : Z) (c : Z * Z * Z) : Z * Z * Z :=
  let '(y, m, d) := c in (k + y, m, d).

Section Era.
Local Ltac Zify.zify_post_hook ::= Z.div_mod_to_equations.

Definition year_days (yoe : Z) : Z := if Calendar.is_leap (yoe + 1) then 366 else 365.

Lemma doe_split doe :
  0 <= doe < 146097 ->
  let yoe := (doe - doe / 1460 + doe / 36524 - doe / 146096) / 365 in
  let doy := doe - (365 * yoe + yoe / 4 - yoe / 100) in
  0 <= yoe < 400 /\ 0 <= doy < year_days yoe.
Proof.
  intros H. cbv zeta. unfold year_days, Calendar.is_leap.
  repeat case_match; bools; simpl in *; try lia.
Qed.

Lemma doe_join yoe doy :
  0 <= yoe < 400 -> 0 <= doy < year_days yoe ->
  let doe := 365 * yoe + yoe / 4 - yoe / 100 + doy in
  0 <= doe < 146097 /\ (doe - doe / 1460 + doe / 36524 - doe / 146096) / 365 = yoe.
Proof.
  intros H H'. cbv zeta. unfold year_days, Calendar.is_leap in H'.
  destruct (((yoe + 1) mod 4 =? 0) && _) eqn:E; bools; lia.
Qed.

(** Month and day of the [doy]-th day of a year that starts on 1 March. *)
Definition md (doy : Z) : Z * Z :=
  let mp := (5 * doy + 2) / 153 in
  ((if mp <? 10 then mp + 3 else mp - 9), doy - (153 * mp + 2) / 5 + 1).

(** In a year with a 29 February the months follow one another. *)
Definition md_next_check (doy : Z) : bool :=
  let '(m, d) := md doy in
  (1 <=? m) && (m <=? 12) && (1 <=? d) &&
  bool_decide (md (doy + 1) =
    if d <? Calendar.days_in_month 0 m then (m, d + 1)
    else if m <? 12 then (m + 1, 1) else (1, 1)) &&
  bool_decide (m = 2 -> d <= 28) && bool_decide (m = 2 -> d = 28 -> doy = 364).

Lemma md_next doy m d :
  0 <= doy < 365 -> md doy = (m, d) ->
  1 <= m <= 12 /\ 1 <= d /\
  md (doy + 1) = (if d <? Calendar.days_in_month 0 m then (m, d + 1)
                  else if m <? 12 then (m + 1, 1) else (1, 1)) /\
  (m = 2 -> d <= 28) /\ (m = 2 -> d = 28 -> doy = 364).
Proof.
  intros H Hm. assert (Hc : md_next_check doy = true).
  { apply (range_forall md_next_check 0 365); [vm_compute; reflexivity | lia]. }
  unfold md_next_check in Hc. rewrite Hm in Hc.
  rewrite !andb_true_iff, !bool_decide_eq_true in Hc. bools. intuition lia.
Qed.

Lemma ymd_md doe :
  let yoe := (doe - doe / 1460 + doe / 36524 - doe / 146096) / 365 in
  let doy := doe - (365 * yoe + yoe / 4 - yoe / 100) in
  ymd doe = ((if (md doy).1 <=? 2 then yoe + 1 else yoe), (md doy).1, (md doy).2).
Proof. reflexivity. Qed.

Lemma days_in_month_leap y m :
  Calendar.days_in_month y m =
    if (m =? 2) && negb (Calendar.is_leap y) then 28 else Calendar.days_in_month 0 m.
Proof. unfold Calendar.days_in_month. destruct (m =? 2); simpl; [|done]. by destruct (Calendar.is_leap y). Qed.

Lemma year_days_next yoe doy :
  doy + 1 = year_days yoe ->
  365 * (yoe + 1) + (yoe + 1) / 4 - (yoe + 1) / 100 + (yoe + 1) / 400
  = 365 * yoe + yoe / 4 - yoe / 100 + yoe / 400 + doy + 1.
Proof.
  unfold year_days, Calendar.is_leap.
  destruct ((_ =? 0) && _) eqn:E; intros H; rewrite ?andb_true_iff, ?andb_false_iff, ?orb_true_iff, ?orb_false_iff, ?negb_true_iff, ?negb_false_iff in E; rewrite ?Z.eqb_eq, ?Z.eqb_neq in E; lia.
Qed.

(** Inside an era the date advances by one calendar day. *)
Lemma ymd_next doe : 0 <= doe < 146096 -> ymd (doe + 1) = Calendar.next (ymd doe).
Proof.
  intros H. destruct (doe_split doe) as [Hy Hd]; [lia|].
  set (yoe := (doe - _ + _ - _) / 365) in *.
  set (doy := doe - (365 * yoe + yoe / 4 - yoe / 100)) in *.
  assert (Hdoe : doe = 365 * yoe + yoe / 4 - yoe / 100 + doy) by lia.
  assert (year_days yoe <= 366) by (unfold year_days; case_match; lia).
  destruct (decide (doy + 1 < year_days yoe)) as [Hin|Hlast].
  - destruct (doe_join yoe (doy + 1)) as [_ Hj]; [lia..|].
    replace (365 * yoe + yoe / 4 - yoe / 100 + (doy + 1)) with (doe + 1) in Hj by lia.
    rewrite !ymd_md, Hj. fold yoe.
    replace (doe + 1 - (365 * yoe + yoe / 4 - yoe / 100)) with (doy + 1) by lia. fold doy.
    destruct (md doy) as [m d] eqn:Hm.
    apply md_next in Hm as (? & ? & -> & ? & ?); [|lia].
    unfold Calendar.next. cbn [fst snd]. clear Hj Hdoe.
    set (y := if m <=? 2 then yoe + 1 else yoe). rewrite (days_in_month_leap y m).
    assert (Hd' : (d <? (if (m =? 2) && negb (Calendar.is_leap y) then 28
                         else Calendar.days_in_month 0 m)) = (d <? Calendar.days_in_month 0 m)).
    { destruct (m =? 2) eqn:Em; [|done]. bools. subst m. subst y.
      change (2 <=? 2) with true. cbn [andb].
      unfold year_days in Hin. destruct (Calendar.is_leap (yoe + 1)); [done|].
      assert (d < 28) by lia. cbn [negb]. change (Calendar.days_in_month 0 2) with 29.
      by rewrite (proj2 (Z.ltb_lt d 28)), (proj2 (Z.ltb_lt d 29)) by lia. }
    rewrite Hd'. destruct (d <? Calendar.days_in_month 0 m) eqn:Ed; [done|].
    assert (m <> 2) by (intros ->; bools; change (Calendar.days_in_month 0 2) with 29 in Ed; lia).
    subst y. destruct (m <? 12) eqn:E12; cbn [fst snd]; repeat case_match; bools; f_equal; f_equal; lia.
  - assert (Hdoy : doy + 1 = year_days yoe) by lia.
    assert (yoe <> 399).
    { intros H9. rewrite H9 in Hdoy, Hdoe. change (year_days 399) with 366 in Hdoy. lia. }
    assert (0 < year_days (yoe + 1)) by (unfold year_days; case_match; lia).
    destruct (doe_join (yoe + 1) 0) as [_ Hj]; [lia..|].
    replace (365 * (yoe + 1) + (yoe + 1) / 4 - (yoe + 1) / 100 + 0) with (doe + 1) in Hj
      by (apply year_days_next in Hdoy; lia).
    rewrite !ymd_md, Hj. fold yoe. fold doy.
    replace (doe + 1 - _) with 0
      by (apply year_days_next in Hdoy; lia).
    unfold year_days in Hdoy.
    destruct (Calendar.is_leap (yoe + 1)) eqn:E.
    + replace doy with 365 by lia. unfold Calendar.next. rewrite days_in_month_leap.
      change (md 365) with (2, 29). change (md 0) with (3, 1). cbn. by rewrite E.
    + replace doy with 364 by lia. unfold Calendar.next. rewrite days_in_month_leap.
      change (md 364) with (2, 28). change (md 0) with (3, 1). cbn. by rewrite E.
Qed.

(** ** The date of a day number *)

Definition date (n : Z) : Z * Z * Z :=
  shift_years (400 * ((n + 719468) / 146097)) (ymd ((n + 719468) mod 146097)).

Lemma next_shift k c :
  Calendar.next (shift_years (400 * k) c) = shift_years (400 * k) (Calendar.next c).
Proof.
  destruct c as [[y m] d]. unfold shift_years, Calendar.next, Calendar.days_in_month.
  replace (Calendar.is_leap (400 * k + y)) with (Calendar.is_leap y).
  { repeat case_match; f_equal; f_equal; lia. }
  unfold Calendar.is_leap. f_equal; [f_equal; lia|]. f_equal; [f_equal|]; f_equal; lia.
Qed.

Lemma date_next n : 0 <= n -> date (n + 1) = Calendar.next (date n).
Proof.
  intros H. unfold date. rewrite next_shift.
  set (era := (n + 719468) / 146097). set (doe := (n + 719468) mod 146097).
  destruct (decide (doe = 146096)) as [E|E].
  - replace ((n + 1 + 719468) / 146097) with (era + 1) by lia.
    replace ((n + 1 + 719468) mod 146097) with 0 by lia.
    rewrite E. change (Calendar.next (ymd 146096)) with (400, 3, 1).
    change (ymd 0) with (0, 3, 1). simpl. f_equal. f_equal. lia.
  - replace ((n + 1 + 719468) / 146097) with era by lia.
    replace ((n + 1 + 719468) mod 146097) with (doe + 1) by lia.
    by rewrite ymd_next by lia.
Qed.

(** Counting days from the epoch is iterating the calendar's successor. *)
Lemma date_iter (n : nat) : date (Z.of_nat n) = Nat.iter n Calendar.next Calendar.epoch.
Proof.
  induction n as [|n IH]; [reflexivity|].
  rewrite Nat2Z.inj_succ, <- Z.add_1_r, date_next by lia. rewrite IH. reflexivity.
Qed.

Lemma md_inv doy :
  0 <= doy < 366 ->
  let '(m, d) := md doy in
  1 <= m <= 12 /\ 1 <= d <= 31 /\
  (153 * (m + (if 2 <? m then -3 else 9)) + 2) / 5 + d - 1 = doy.
Proof.
  intros H.
  set (ck := fun doy => let '(m, d) := md doy in
    (1 <=? m) && (m <=? 12) && (1 <=? d) && (d <=? 31) &&
    ((153 * (m + (if 2 <? m then -3 else 9)) + 2) / 5 + d - 1 =? doy)).
  assert (Hc : ck doy = true) by (apply (range_forall ck 0 366); [vm_compute; reflexivity | lia]).
  unfold ck in Hc. destruct (md doy) as [m d]. bools. lia.
Qed.

(** The three components of a date within the horizon, and the day number
    [days_from_civil] computes from them. *)
Lemma date_spec n :
  0 <= n < Calendar.horizon ->
  let '(y, m, d) := date n in
  0 <= y <= 402001 /\ 1 <= m <= 12 /\ 1 <= d <= 31 /\ days_from_civil y m d = n.
Proof.
  intros H. unfold Calendar.horizon in H. unfold date.
  set (era := (n + 719468) / 146097). set (doe := (n + 719468) mod 146097).
  assert (Hz : n + 719468 = era * 146097 + doe) by lia.
  assert (0 <= era <= 1004) by lia.
  destruct (doe_split doe) as [Hy Hd]; [lia|].
  rewrite ymd_md. set (yoe := (doe - _ + _ - _) / 365) in *.
  set (doy := doe - (365 * yoe + yoe / 4 - yoe / 100)) in *.
  assert (year_days yoe <= 366) by (unfold year_days; case_match; lia).
  pose proof (md_inv doy ltac:(lia)) as Hm.
  assert (Hdoe : doe = 365 * yoe + yoe / 4 - yoe / 100 + doy) by lia.
  destruct (md doy) as [m d]. destruct Hm as (? & ? & Hm). cbn [fst snd shift_years].
  clearbody era doe yoe doy.
  assert (Hyear : (400 * era + (if m <=? 2 then yoe + 1 else yoe)) - (if m <=? 2 then 1 else 0)
                  = 400 * era + yoe) by (destruct (m <=? 2); lia).
  split; [destruct (m <=? 2); lia|]. split; [lia|]. split; [lia|].
  unfold days_from_civil. rewrite Hyear.
  rewrite (proj2 (Z.leb_le 0 (400 * era + yoe))) by lia.
  rewrite !Z.quot_div_nonneg by (destruct (2 <? m) eqn:?; bools; lia).
  replace ((400 * era + yoe) / 400) with era by lia.
  replace (400 * era + yoe - era * 400) with yoe by lia.
  rewrite Hm. lia.
Qed.

(** Month and day determine the day of the year. *)
Lemma md_of_doy leap m d :
  1 <= m <= 12 -> 1 <= d <= (if (m =? 2) && negb leap then 28 else Calendar.days_in_month 0 m) ->
  let doy := (153 * (m + (if 2 <? m then -3 else 9)) + 2) / 5 + d - 1 in
  0 <= doy < (if leap then 366 else 365) /\ md doy = (m, d).
Proof.
  intros Hm Hd.
  set (ck := fun x => let m := x / 32 in let d := x mod 32 in
    let doy := (153 * (m + (if 2 <? m then -3 else 9)) + 2) / 5 + d - 1 in
    implb ((1 <=? d) && (d <=? (if (m =? 2) && negb leap then 28 else Calendar.days_in_month 0 m)))
      ((0 <=? doy) && (doy <? (if leap then 366 else 365)) && bool_decide (md doy = (m, d)))).
  assert (Hd31 : d <= 31).
  { revert Hd. unfold Calendar.days_in_month. repeat case_match; bools; lia. }
  assert (Hc : ck (32 * m + d) = true).
  { apply (range_forall ck 32 384); [destruct leap; vm_compute; reflexivity | lia]. }
  unfold ck in Hc. replace ((32 * m + d) / 32) with m in Hc by lia.
  replace ((32 * m + d) mod 32) with d in Hc by lia.
  rewrite (proj2 (Z.leb_le 1 d)), (proj2 (Z.leb_le d _)) in Hc by lia.
  cbn [andb implb] in Hc. cbv zeta.
  rewrite !andb_true_iff, bool_decide_eq_true in Hc. destruct Hc as [[H1 H2] H3].
  bools. by split.
Qed.

(** Every valid calendar date is the date of its day number. *)
Lemma date_of_valid y m d :
  Calendar.valid (y, m, d) = true -> 1 <= y ->
  date (days_from_civil y m d) = (y, m, d).
Proof.
  unfold Calendar.valid. rewrite !andb_true_iff, !Z.leb_le, days_in_month_leap.
  intros [[[[_ Hm1] Hm12] Hd1] Hd] Hy1.
  set (y' := y - (if m <=? 2 then 1 else 0)).
  assert (Hy' : y = if m <=? 2 then y' + 1 else y') by (unfold y'; destruct (m <=? 2); lia).
  set (era := y' / 400). set (yoe := y' mod 400).
  assert (0 <= y') by (unfold y'; destruct (m <=? 2); lia).
  assert (Hq : y' = 400 * era + yoe) by lia.
  destruct (md_of_doy (Calendar.is_leap y) m d) as [Hdoy Hmd]; [lia..|].
  unfold days_from_civil. fold y'.
  rewrite (proj2 (Z.leb_le 0 y')) by lia.
  rewrite !Z.quot_div_nonneg by (destruct (2 <? m) eqn:?; bools; lia).
  fold era. replace (y' - era * 400) with yoe by lia.
  set (doy := (153 * _ + 2) / 5 + d - 1) in *. clearbody doy.
  assert (Hyd : 0 <= doy < year_days yoe).
  { unfold year_days. revert Hdoy.
    destruct (m <=? 2) eqn:Em.
    - replace (Calendar.is_leap y) with (Calendar.is_leap (yoe + 1)); [done|].
      rewrite Hy', Hq. unfold Calendar.is_leap. f_equal; [f_equal; lia|].
      f_equal; [f_equal|]; f_equal; lia.
    - pose proof (md_inv doy) as Hi. destruct (Calendar.is_leap y); rewrite Hmd in Hi;
        bools; intros Hr; specialize (Hi ltac:(lia)) as (? & ? & Hi);
        rewrite (proj2 (Z.ltb_lt 2 m)) in Hi by lia;
        destruct (Calendar.is_leap (yoe + 1)); lia. }
  destruct (doe_join yoe doy) as [Hb Hj]; [lia..|].
  unfold date. set (doe := yoe * 365 + yoe / 4 - yoe / 100 + doy).
  replace (365 * yoe + yoe / 4 - yoe / 100 + doy) with doe in * by lia.
  replace (era * 146097 + doe - 719468 + 719468) with (era * 146097 + doe) by lia.
  replace ((era * 146097 + doe) / 146097) with era by lia.
  replace ((era * 146097 + doe) mod 146097) with doe by lia.
  rewrite ymd_md, Hj.
  replace (doe - (365 * yoe + yoe / 4 - yoe / 100)) with doy by lia.
  rewrite Hmd. cbn [fst snd shift_years]. rewrite Hy', Hq.
  f_equal. f_equal. destruct (m <=? 2); lia.
Qed.

Lemma civil_date n : 0 <= n < Calendar.horizon -> civil_date_from_days n = Calendar.key (date n).
Proof.
  intros H. pose proof (date_spec n H) as Hs. unfold Calendar.horizon in H.
  unfold civil_date_from_days.
  rewrite (proj2 (Z.leb_le 0 (n + 719468))) by lia.
  rewrite Z.quot_div_nonneg by lia.
  replace (n + 719468 - (n + 719468) / 146097 * 146097) with ((n + 719468) mod 146097) by lia.
  rewrite (Z.mod_small ((n + 719468) mod 146097) (2 ^ 32)) by lia.
  unfold date in *. destruct (ymd _) as [[y m] d] eqn:E. cbn [shift_years Calendar.key] in *.
  unfold ymd in E. injection E as Ey Em Ed.
  cbv zeta. rewrite Em, Ed.
  set (yoe := (_ - _ + _ - _) / 365) in *. set (era := (n + 719468) / 146097) in *.
  assert (Hy : (if m <=? 2 then yoe + era * 400 + 1 else yoe + era * 400) = 400 * era + y)
    by (rewrite <- Ey, Em; destruct (m <=? 2); lia).
  rewrite Hy. rewrite (Z.mod_small (400 * era + y)) by lia. apply Z.mod_small. lia.
Qed.

Lemma key_parts y m d :
  0 <= y -> 1 <= m <= 12 -> 1 <= d <= 31 ->
  let k := Calendar.key (y, m, d) in
  k / 10000 = y /\ (k / 100) mod 100 = m /\ k mod 100 = d.
Proof.
  intros ? ? ?. cbv zeta. unfold Calendar.key. cbv beta iota.
  assert (E : (y * 10000 + m * 100 + d) / 100 = 100 * y + m) by lia.
  split; [lia|]. split; [rewrite E; lia | lia].
Qed.

(** Later days have larger keys. *)
Lemma key_next c : Calendar.valid c = true -> Calendar.key c < Calendar.key (Calendar.next c).
Proof.
  destruct c as [[y m] d]. unfold Calendar.valid, Calendar.next. intros Hv. bools.
  assert (Calendar.days_in_month y m <= 31)
    by (unfold Calendar.days_in_month; repeat case_match; lia).
  destruct (d <? _); [unfold Calendar.key; lia|].
  destruct (m <? 12) eqn:E; unfold Calendar.key; bools; lia.
Qed.

Lemma next_valid c : Calendar.valid c = true -> Calendar.valid (Calendar.next c) = true.
Proof.
  destruct c as [[y m] d]. unfold Calendar.valid, Calendar.next.
  rewrite !andb_true_iff, !Z.leb_le. intros [[[[? ?] ?] ?] ?].
  assert (forall y m, 28 <= Calendar.days_in_month y m)
    by (intros; unfold Calendar.days_in_month; repeat case_match; lia).
  destruct (d <? _) eqn:E; bools; [|destruct (m <? 12) eqn:E2; bools];
    rewrite !andb_true_iff, !Z.leb_le; intuition (try lia).
  - specialize (H4 y (m + 1)). lia.
  - specialize (H4 (y + 1) 1). lia.
Qed.

Lemma date_valid n : 0 <= n -> Calendar.valid (date n) = true.
Proof.
  intros H. rewrite <- (Z2Nat.id n), date_iter by done.
  induction (Z.to_nat n); [reflexivity|]. by apply next_valid.
Qed.

Lemma key_date_mono n k : 0 <= n -> 0 < k -> Calendar.key (date n) < Calendar.key (date (n + k)).
Proof.
  intros Hn Hk. rewrite <- (Z2Nat.id k) by lia.
  assert (Z.to_nat k <> 0%nat) by lia.
  induction (Z.to_nat k) as [|j IH]; [done|].
  replace (n + Z.of_nat (S j)) with (n + Z.of_nat j + 1) by lia.
  rewrite date_next by lia.
  pose proof (key_next (date (n + Z.of_nat j)) ltac:(apply date_valid; lia)).
  destruct j; [rewrite Z.add_0_r in *; done|]. lia.
Qed.

Lemma date_key_of_date n :
  0 <= n < Calendar.horizon ->
  date_key_to_utc_timestamp (Calendar.key (date n)) = n * SECONDS_PER_DAY.
Proof.
  intros H. pose proof (date_spec n H) as Hs. destruct (date n) as [[y m] d].
  destruct Hs as (? & ? & ? & Hn).
  unfold date_key_to_utc_timestamp. destruct (key_parts y m d) as (-> & -> & ->); [lia..|].
  rewrite Hn. unfold Calendar.horizon in H. unfold SECONDS_PER_DAY.
  rewrite (Z.mod_small n) by lia. apply wmul_small. lia.
Qed.

Lemma timestamp_key n r :
  0 <= n < Calendar.horizon -> 0 <= r < SECONDS_PER_DAY ->
  timestamp_to_date_key (n * SECONDS_PER_DAY + r) = Calendar.key (date n).
Proof.
  intros H Hr. unfold timestamp_to_date_key.
  replace ((n * SECONDS_PER_DAY + r) / SECONDS_PER_DAY) with n
    by (unfold SECONDS_PER_DAY in *; lia).
  unfold clamp. rewrite (proj2 (Z.ltb_lt _ _)) by (unfold Calendar.horizon in H; lia).
  by apply civil_date.
Qed.

Lemma days_from_civil_bound y m d :
  Calendar.valid (y, m, d) = true -> 1970 <= y <= 400000 ->
  0 <= days_from_civil y m d < Calendar.horizon.
Proof.
  unfold Calendar.valid. rewrite !andb_true_iff, !Z.leb_le.
  intros [[[[_ ?] ?] ?] Hd] ?.
  assert (d <= 31) by (unfold Calendar.days_in_month in Hd; repeat case_match; lia).
  unfold days_from_civil, Calendar.horizon.
  destruct (m <=? 2) eqn:E1; destruct (2 <? m) eqn:E2; bools; try lia;
    rewrite (proj2 (Z.leb_le 0 _)) by lia; rewrite !Z.quot_div_nonneg by lia; lia.
Qed.
End Era.

(** ** Properties *)

(** [timestamp_to_date_key] is the Gregorian calendar: a timestamp in the
    [n]-th day since 1970-01-01 has the key of the date obtained by taking the
    calendar successor [n] times, for every day up to the horizon. *)
Theorem timestamp_to_date_key_calendar (n : nat) (r : Z) :
  Z.of_nat n < Calendar.horizon -> 0 <= r < SECONDS_PER_DAY ->
  timestamp_to_date_key (Z.of_nat n * SECONDS_PER_DAY + r)
  = Calendar.key (Nat.iter n Calendar.next Calendar.epoch).
Proof. intros Hn Hr. rewrite timestamp_key by lia. by rewrite date_iter. Qed.

Lemma timestamp_to_date_key_calendar_witness :
  timestamp_to_date_key (Z.of_nat 60 * SECONDS_PER_DAY + 86399)
  = Calendar.key (Nat.iter 60 Calendar.next Calendar.epoch).
Proof. apply timestamp_to_date_key_calendar; [reflexivity | by split]. Defined.

(** Date keys and timestamps round trip: the key of a timestamp is turned
    back into the midnight that starts its day, and the key of every valid date
    from 1970 on comes back from its own midnight. *)
Theorem date_key_roundtrip :
  (forall ts, 0 <= ts < Calendar.horizon * SECONDS_PER_DAY ->
     date_key_to_utc_timestamp (timestamp_to_date_key ts) = ts - ts mod SECONDS_PER_DAY) /\
  (forall y m d, Calendar.valid (y, m, d) = true -> 1970 <= y <= 400000 ->
     timestamp_to_date_key (date_key_to_utc_timestamp (Calendar.key (y, m, d)))
     = Calendar.key (y, m, d)).
Proof.
  split.
  - intros ts Hts. set (n := ts / SECONDS_PER_DAY). set (r := ts mod SECONDS_PER_DAY).
    assert (E : ts = n * SECONDS_PER_DAY + r)
      by (unfold n, r; rewrite (Z.div_mod ts SECONDS_PER_DAY) at 1 by done; lia).
    assert (0 <= r < SECONDS_PER_DAY) by (apply Z.mod_pos_bound; reflexivity).
    assert (0 <= n < Calendar.horizon) by (unfold SECONDS_PER_DAY, Calendar.horizon in *; lia).
    rewrite E at 1. rewrite timestamp_key, date_key_of_date by done. lia.
  - intros y m d Hv Hy. rewrite <- (date_of_valid y m d Hv) by lia.
    assert (0 <= days_from_civil y m d < Calendar.horizon) by (by apply days_from_civil_bound).
    rewrite date_key_of_date by done.
    rewrite <- (Z.add_0_r (_ * _)). apply timestamp_key; [done | by split].
Qed.

Lemma date_key_roundtrip_witness :
  date_key_to_utc_timestamp (timestamp_to_date_key 1734706800) = 1734706800 - 54000 /\
  timestamp_to_date_key (date_key_to_utc_timestamp 20240229) = 20240229.
Proof.
  split.
  - rewrite (proj1 date_key_roundtrip 1734706800); [reflexivity | by split].
  - apply (proj2 date_key_roundtrip 2024 2 29); [reflexivity | by split].
Defined.

(** Day arithmetic on keys follows the calendar: [next_date_key] and
    [previous_date_key] step to the neighbouring day, and
    [day_number_between] is the number of days between two dates, or
    [PreGenesis] exactly when the second one is earlier. *)
Theorem date_key_arithmetic (n k : Z) :
  0 <= n -> 0 <= k -> n + k + 1 < Calendar.horizon ->
  let kn := Calendar.key (date n) in
  let kk := Calendar.key (date (n + k)) in
  next_date_key kk = Calendar.key (Calendar.next (date (n + k))) /\
  previous_date_key (next_date_key kk) = kk /\
  day_number_between kn kk = Ok k /\
  (day_number_between kk kn = if k =? 0 then Ok 0 else Err (PreGenesis kn kk)).
Proof.
  intros Hn Hk Hh. cbv zeta.
  assert (H1 : next_date_key (Calendar.key (date (n + k))) = Calendar.key (date (n + k + 1))).
  { unfold next_date_key, saturating_add. rewrite date_key_of_date by lia.
    rewrite Z.min_l by (unfold Calendar.horizon, SECONDS_PER_DAY in *; lia).
    replace (_ + SECONDS_PER_DAY) with ((n + k + 1) * SECONDS_PER_DAY + 0) by lia.
    apply timestamp_key; [lia | by split]. }
  split; [by rewrite H1, date_next by lia|]. split.
  { rewrite H1. unfold previous_date_key, saturating_sub. rewrite date_key_of_date by lia.
    replace ((n + k + 1) * SECONDS_PER_DAY - SECONDS_PER_DAY)
      with ((n + k) * SECONDS_PER_DAY) by lia.
    rewrite Z.max_l by (unfold SECONDS_PER_DAY; lia).
    rewrite <- (Z.add_0_r (_ * _)). apply timestamp_key; [lia | by split]. }
  unfold day_number_between. rewrite !date_key_of_date by lia. unfold checked_sub.
  rewrite (proj2 (Z.leb_le (n * _) ((n + k) * _))) by (unfold SECONDS_PER_DAY; lia). simpl ok_or.
  split.
  - replace ((n + k) * SECONDS_PER_DAY - n * SECONDS_PER_DAY) with (k * SECONDS_PER_DAY) by lia.
    cbv iota. rewrite Z.div_mul by done. unfold clamp.
    by rewrite (proj2 (Z.ltb_lt k _)) by (unfold Calendar.horizon in *; lia).
  - destruct (k =? 0) eqn:E; bools.
    + subst k. rewrite Z.add_0_r, Z.leb_refl, Z.sub_diag. reflexivity.
    + by rewrite (proj2 (Z.leb_gt _ _)) by (unfold SECONDS_PER_DAY; lia).
Qed.

Lemma date_key_arithmetic_witness :
  next_date_key 20231231 = 20240101 /\ day_number_between 19700101 20231231 = Ok 19722.
Proof.
  pose proof (date_key_arithmetic 0 19722 ltac:(done) ltac:(done) ltac:(done)) as (H1 & _ & H3 & _).
  split; [exact H1 | exact H3].
Defined.

(** A worldwide day is the 24 hours that start at UTC+14 midnight: every
    timestamp lies in the window that [start_timestamp] gives for its own
    worldwide day. *)
Theorem worldwide_day_window (ts : u64) :
  0 <= ts -> ts + UTC_PLUS_14_OFFSET < Calendar.horizon * SECONDS_PER_DAY ->
  let start := WorldwideDay.start_timestamp (WorldwideDay.from_timestamp ts) in
  start <= ts < start + SECONDS_PER_DAY.
Proof.
  intros H0 Hh. cbv zeta. unfold WorldwideDay.start_timestamp, WorldwideDay.from_timestamp.
  rewrite wadd_small by (unfold Calendar.horizon, SECONDS_PER_DAY, UTC_PLUS_14_OFFSET in *; lia).
  set (t := ts + UTC_PLUS_14_OFFSET) in *.
  pose proof (Z.mod_pos_bound t SECONDS_PER_DAY ltac:(done)).
  pose proof (Z.div_mod t SECONDS_PER_DAY ltac:(done)) as E.
  assert (0 <= t / SECONDS_PER_DAY < Calendar.horizon)
    by (unfold t, SECONDS_PER_DAY, UTC_PLUS_14_OFFSET, Calendar.horizon in *; lia).
  rewrite E. rewrite Z.mul_comm. rewrite timestamp_key, date_key_of_date by done.
  unfold saturating_sub, t, SECONDS_PER_DAY, UTC_PLUS_14_OFFSET in *. lia.
Qed.

Lemma worldwide_day_window_witness :
  let start := WorldwideDay.start_timestamp (WorldwideDay.from_timestamp 1734706800) in
  start <= 1734706800 < start + SECONDS_PER_DAY.
Proof. apply (worldwide_day_window 1734706800); done. Defined.
