(* ===== verification/P2pAddress.v ===== *)
(** * P2pAddress: the versioned P2P address codec

    [crates/blockchain/primitives/src/consensus_p2p.rs]. An address is
    [Symmetric] (one socket) or [Asymmetric] (an ingress socket or DNS name and
    an egress socket). The encoder writes tagged big-endian fields; the decoder
    is the source's cursor, an offset into the payload threaded through every
    read. Hostnames are byte lists: [validate_hostname] only lets ASCII through,
    and [from_utf8] rejects a byte string only when a byte is not ASCII, which
    [validate_hostname] rejects with the same error. *)

From S2P Require Import Prelude.

Definition P2P_ADDRESS_VERSION_V1 : u8 := 1.
Definition MAX_P2P_ADDRESS_ENCODED_LEN : Z := 512.
Definition ADDR_SYMMETRIC : u8 := 0.
Definition ADDR_ASYMMETRIC : u8 := 1.
Definition INGRESS_SOCKET : u8 := 0.
Definition INGRESS_DNS : u8 := 1.
Definition IP_V4 : u8 := 4.
Definition IP_V6 : u8 := 6.

(** [std::net::IpAddr], by its octets. *)
Inductive IpAddr : Type :=
| V4 (octets : list Z)
| V6 (octets : list Z).

Record SocketAddr := mkSocket { ip : IpAddr; port : Z }.

Inductive P2pIngress : Type :=
| Socket (socket : SocketAddr)
| Dns (host : list Z) (port : Z).

Inductive P2pAddress : Type :=
| Symmetric (socket : SocketAddr)
| Asymmetric (ingress : P2pIngress) (egress : SocketAddr).

Inductive P2pAddressError : Type :=
| UnsupportedVersion (v : u8)
| TooLarge (actual max : Z)
| Truncated
| TrailingBytes
| InvalidAddressKind (k : u8)
| InvalidIngressKind (k : u8)
| InvalidIpKind (k : u8)
| ZeroPort
| InvalidHostname.

Abbreviation pres A := (result P2pAddressError A).

(** ** Encoding *)

Definition encode_socket (socket : SocketAddr) (out : list Z) : list Z :=
  let out :=
    match ip socket with
    | V4 o => out ++ [IP_V4] ++ o
    | V6 o => out ++ [IP_V6] ++ o
    end in
  out ++ be_bytes 2 (port socket).

Definition encode_ingress (ingress : P2pIngress) (out : list Z) : list Z :=
  match ingress with
  | Socket socket => encode_socket socket (out ++ [INGRESS_SOCKET])
  | Dns host port =>
      out ++ [INGRESS_DNS] ++ be_bytes 2 (Z.of_nat (length host) mod 2 ^ 16)
          ++ host ++ be_bytes 2 port
  end.

Definition encode_v1 (address : P2pAddress) : list Z :=
  match address with
  | Symmetric socket => encode_socket socket [ADDR_SYMMETRIC]
  | Asymmetric ingress egress =>
      encode_socket egress (encode_ingress ingress [ADDR_ASYMMETRIC])
  end.

(** ** Decoding *)

Record Cursor := mkCursor { bytes : list Z; offset : nat }.

Definition is_finished (c : Cursor) : bool := Nat.eqb (offset c) (length (bytes c)).

Definition read_u8 (c : Cursor) : pres (Z * Cursor) :=
  match bytes c !! offset c with
  | Some value => Ok (value, {| c with offset := (offset c + 1)%nat |})
  | None => Err Truncated
  end.

Definition read_exact (len : nat) (c : Cursor) : pres (list Z * Cursor) :=
  let end_ := (offset c + len)%nat in
  if (end_ <=? length (bytes c))%nat
  then Ok (take len (drop (offset c) (bytes c)), {| c with offset := end_ |})
  else Err Truncated.

Definition read_u16 (c : Cursor) : pres (Z * Cursor) :=
  let? (bs, c) := read_exact 2 c in
  Ok (from_be_bytes bs, c).

Definition read_socket (c : Cursor) : pres (SocketAddr * Cursor) :=
  let? (ip_kind, c) := read_u8 c in
  let? (ip, c) :=
    (if ip_kind =? IP_V4 then
       let? (bs, c) := read_exact 4 c in Ok (V4 bs, c)
     else if ip_kind =? IP_V6 then
       let? (bs, c) := read_exact 16 c in Ok (V6 bs, c)
     else Err (InvalidIpKind ip_kind)) in
  let? (port, c) := read_u16 c in
  if port =? 0 then Err ZeroPort else Ok (mkSocket ip port, c).

(** [host.split('.')] *)
Fixpoint split_dots (cur : list Z) (host : list Z) : list (list Z) :=
  match host with
  | [] => [cur]
  | b :: host => if b =? 46 then cur :: split_dots [] host else split_dots (cur ++ [b]) host
  end.

Definition is_ascii_alphanumeric (b : Z) : bool :=
  ((48 <=? b) && (b <=? 57)) || ((65 <=? b) && (b <=? 90)) || ((97 <=? b) && (b <=? 122)).

Definition label_ok (label : list Z) : bool :=
  negb (Nat.eqb (length label) 0) && (length label <=? 63)%nat &&
  negb (bool_decide (head label = Some 45)) && negb (bool_decide (last label = Some 45)) &&
  forallb (fun b => is_ascii_alphanumeric b || (b =? 45)) label.

Definition validate_hostname (host : list Z) : pres unit :=
  if Nat.eqb (length host) 0 || (253 <? length host)%nat then Err InvalidHostname
  else if forallb label_ok (split_dots [] host) then Ok tt else Err InvalidHostname.

Definition read_ingress (c : Cursor) : pres (P2pIngress * Cursor) :=
  let? (kind, c) := read_u8 c in
  if kind =? INGRESS_SOCKET then
    let? (socket, c) := read_socket c in Ok (Socket socket, c)
  else if kind =? INGRESS_DNS then
    let? (host_len, c) := read_u16 c in
    let? (host, c) := read_exact (Z.to_nat host_len) c in
    let? _ := validate_hostname host in
    let? (port, c) := read_u16 c in
    if port =? 0 then Err ZeroPort else Ok (Dns host port, c)
  else Err (InvalidIngressKind kind).

Definition validate_len (payload : list Z) : pres unit :=
  if MAX_P2P_ADDRESS_ENCODED_LEN <? Z.of_nat (length payload)
  then Err (TooLarge (Z.of_nat (length payload)) MAX_P2P_ADDRESS_ENCODED_LEN)
  else Ok tt.

Definition decode_v1 (payload : list Z) : pres P2pAddress :=
  let? _ := validate_len payload in
  let c := mkCursor payload 0 in
  let? (kind, c) := read_u8 c in
  let? (address, c) :=
    (if kind =? ADDR_SYMMETRIC then
       let? (socket, c) := read_socket c in Ok (Symmetric socket, c)
     else if kind =? ADDR_ASYMMETRIC then
       let? (ingress, c) := read_ingress c in
       let? (egress, c) := read_socket c in Ok (Asymmetric ingress egress, c)
     else Err (InvalidAddressKind kind)) in
  if is_finished c then Ok address else Err TrailingBytes.

Definition decode_versioned (version : u8) (payload : list Z) : pres P2pAddress :=
  if version =? P2P_ADDRESS_VERSION_V1 then decode_v1 payload
  else Err (UnsupportedVersion version).

Definition validate_versioned (version : u8) (payload : list Z) : pres unit :=
  let? _ := decode_versioned version payload in Ok tt.

(** ** Well-formed addresses *)

Definition byte_ok (b : Z) : bool := (0 <=? b) && (b <? 256).

Definition ip_ok (i : IpAddr) : bool :=
  match i with
  | V4 o => Nat.eqb (length o) 4
  | V6 o => Nat.eqb (length o) 16
  end.

Definition port_ok (p : Z) : bool := (0 <? p) && (p <? 2 ^ 16).

Definition socket_ok (s : SocketAddr) : bool := ip_ok (ip s) && port_ok (port s).

Definition ingress_ok (i : P2pIngress) : bool :=
  match i with
  | Socket s => socket_ok s
  | Dns host p => is_ok (validate_hostname host) && port_ok p
  end.

Definition address_ok (a : P2pAddress) : bool :=
  match a with
  | Symmetric s => socket_ok s
  | Asymmetric i s => ingress_ok i && socket_ok s
  end.

(** ** Cursor reads *)

(** What the cursor has not read yet. *)
Definition rest (c : Cursor) : list Z := drop (offset c) (bytes c).

Definition in_bounds (c : Cursor) : Prop := (offset c <= length (bytes c))%nat.

(** [c'] is [c] advanced over exactly the bytes [l]. *)
Definition advanced (c : Cursor) (l : list Z) (c' : Cursor) : Prop :=
  bytes c' = bytes c /\ offset c' = (offset c + length l)%nat /\
  rest c = l ++ rest c' /\ in_bounds c'.

Lemma advanced_trans c l c' l' c'' :
  advanced c l c' -> advanced c' l' c'' -> advanced c (l ++ l') c''.
Proof.
  intros (Hb & Ho & Hr & _) (Hb' & Ho' & Hr' & Hi). repeat split; [congruence| | |done].
  - rewrite length_app. lia.
  - by rewrite Hr, Hr', app_assoc.
Qed.

Lemma cursor_eq c l c1 c2 : advanced c l c1 -> advanced c l c2 -> c1 = c2.
Proof.
  destruct c1, c2. intros (Hb & Ho & _) (Hb' & Ho' & _). simpl in *. congruence.
Qed.

(** A cursor in front of [l] can be advanced over it. *)
Lemma advance c l r :
  in_bounds c -> rest c = l ++ r ->
  let c' := {| c with offset := (offset c + length l)%nat |} in advanced c l c' /\ rest c' = r.
Proof.
  intros Hi Hr. cbv zeta. assert (Hd : rest {| c with offset := (offset c + length l)%nat |} = r).
  { unfold rest in *. simpl. rewrite <- drop_drop, Hr. by rewrite drop_app_length. }
  split; [|done]. repeat split; simpl; [by rewrite Hd|].
  unfold in_bounds in *. simpl. apply (f_equal length) in Hr.
  unfold rest in Hr. rewrite length_drop, length_app in Hr. lia.
Qed.

Lemma read_u8_Ok c v c' :
  in_bounds c -> read_u8 c = Ok (v, c') <-> advanced c [v] c'.
Proof.
  intros Hi. unfold read_u8. split.
  - case_match eqn:E; [|done]. intros [= <- <-].
    refine (proj1 (advance c [_] _ Hi _)). unfold rest. by apply drop_S.
  - intros Ha. pose proof Ha as (_ & _ & Hr & _).
    assert (E : bytes c !! offset c = Some v).
    { rewrite <- (Nat.add_0_r (offset c)), <- lookup_drop. fold (rest c). by rewrite Hr. }
    rewrite E. do 2 f_equal. eapply cursor_eq; [|exact Ha].
    exact (proj1 (advance c [v] _ Hi Hr)).
Qed.

Lemma read_exact_Ok n c l c' :
  in_bounds c -> read_exact n c = Ok (l, c') <-> advanced c l c' /\ length l = n.
Proof.
  intros Hi. unfold read_exact. split.
  - case_match eqn:E; [|done]. apply Nat.leb_le in E. intros [= <- <-].
    assert (Hl : length (take n (drop (offset c) (bytes c))) = n).
    { rewrite length_take, length_drop. lia. }
    split; [|done]. rewrite <- Hl at 2.
    refine (proj1 (advance c _ _ Hi _)). unfold rest. symmetry. apply take_drop.
  - intros [Ha <-]. pose proof Ha as (_ & Ho & Hr & Hb').
    assert (E : (offset c + length l <=? length (bytes c))%nat = true).
    { apply Nat.leb_le. destruct Ha as (Hb & _). unfold in_bounds in Hb'. rewrite <- Hb. lia. }
    rewrite E. fold (rest c). rewrite Hr, take_app_length. do 2 f_equal.
    eapply cursor_eq; [|exact Ha]. exact (proj1 (advance c l _ Hi Hr)).
Qed.

Lemma be_bytes2 x : be_bytes 2 x = [(x / 256) mod 256; x mod 256].
Proof. reflexivity. Qed.

Lemma be_bytes2_inv l :
  length l = 2%nat -> forallb byte_ok l = true -> be_bytes 2 (from_be_bytes l) = l.
Proof.
  destruct l as [|a [|b [|]]]; try discriminate. intros _ Hl. simpl in Hl.
  unfold byte_ok in Hl. bools. unfold from_be_bytes. simpl foldl. rewrite be_bytes2.
  rewrite (Z.add_comm (_ * 256)), Z.div_add, Z.mod_add by done.
  rewrite (Z.div_small b), (Z.mod_small b), Z.mod_small by lia. done.
Qed.

(** A cursor over real bytes. *)
Definition good (c : Cursor) : Prop := in_bounds c /\ forallb byte_ok (bytes c) = true.

Lemma advanced_good c l c' : good c -> advanced c l c' -> good c' /\ forallb byte_ok l = true.
Proof.
  intros [_ Hg] (Hb & _ & Hr & Hi). split; [split; [done | by rewrite Hb]|].
  rewrite forallb_forall in Hg |- *. intros x Hx. apply Hg.
  rewrite <- (take_drop (offset c) (bytes c)). apply in_or_app. right.
  fold (rest c). rewrite Hr. apply in_or_app. by left.
Qed.

Lemma advanced_app_inv c l1 l2 c' :
  in_bounds c -> advanced c (l1 ++ l2) c' -> exists c1, advanced c l1 c1 /\ advanced c1 l2 c'.
Proof.
  intros Hi (Hb & Ho & Hr & Hi'). rewrite <- app_assoc in Hr.
  destruct (advance c l1 _ Hi Hr) as [Ha Hr1]. eexists; split; [exact Ha|].
  rewrite length_app in Ho. repeat split; simpl; [done|lia|done|done].
Qed.

Lemma encode_socket_acc s out : encode_socket s out = out ++ encode_socket s [].
Proof. unfold encode_socket. destruct (ip s); simpl; by rewrite <- !app_assoc. Qed.

Lemma encode_ingress_acc i out : encode_ingress i out = out ++ encode_ingress i [].
Proof.
  destruct i; simpl; [|done]. rewrite (encode_socket_acc _ (out ++ _)), (encode_socket_acc _ [_]).
  by rewrite <- app_assoc.
Qed.

Lemma read_u16_Ok c v c' :
  good c -> read_u16 c = Ok (v, c') <-> advanced c (be_bytes 2 v) c' /\ fits 16 v.
Proof.
  intros Hg. pose proof Hg as [Hi _]. unfold read_u16. split.
  - intros H. inv_ok H. apply read_exact_Ok in E as [Ha Hl]; [|done].
    destruct (advanced_good _ _ _ Hg Ha) as [_ Hbs]. rewrite be_bytes2_inv by done.
    split; [done|]. destruct l as [|a [|b [|]]]; try discriminate. simpl in Hbs.
    unfold byte_ok in Hbs. bools. unfold fits, from_be_bytes. simpl. lia.
  - intros [Ha Hf]. rewrite (proj2 (read_exact_Ok 2 c (be_bytes 2 v) c' Hi)).
    + rewrite from_be_bytes_be_bytes; [done|]. unfold fits in Hf. simpl. lia.
    + split; [done | reflexivity].
Qed.

Lemma port_ok_fits p : port_ok p = true <-> fits 16 p /\ p <> 0.
Proof. unfold port_ok, fits. rewrite andb_true_iff, !Z.ltb_lt. lia. Qed.

(** The address part of a socket: a tag and its octets. *)
Lemma encode_ip s :
  encode_socket s [] = (match ip s with V4 o => [IP_V4] ++ o | V6 o => [IP_V6] ++ o end)
                       ++ be_bytes 2 (port s).
Proof. unfold encode_socket. by destruct (ip s). Qed.

(** Turn every read that succeeded into the bytes it advanced over. *)
Ltac reads :=
  repeat match goal with
  | Hg : good ?c, H : read_u8 ?c = Ok (_, _) |- _ => apply read_u8_Ok in H; [|exact (proj1 Hg)]
  | Hg : good ?c, H : read_exact _ ?c = Ok (_, _) |- _ =>
      apply read_exact_Ok in H as [H ?]; [|exact (proj1 Hg)]
  | Hg : good ?c, H : read_u16 ?c = Ok (_, _) |- _ => apply read_u16_Ok in H as [H ?]; [|exact Hg]
  | Hg : good ?c, Ha : advanced ?c ?l ?c' |- _ =>
      lazymatch goal with
      | _ : good c' |- _ => fail
      | _ => destruct (advanced_good _ _ _ Hg Ha)
      end
  end.

(** [read_socket] reads exactly the encodings of well-formed sockets. *)
Lemma read_socket_Ok c s c' :
  good c -> read_socket c = Ok (s, c') <-> advanced c (encode_socket s []) c' /\ socket_ok s = true.
Proof.
  intros Hg. unfold read_socket. split.
  - intros H. inv_oks; subst; rewrite encode_ip; reads; simpl ip; simpl port.
    all: split; [eauto using advanced_trans|].
    all: unfold socket_ok; simpl; apply andb_true_iff; split; [by apply Nat.eqb_eq|].
    all: by apply port_ok_fits.
  - intros [Ha Hs]. unfold socket_ok in Hs. apply andb_prop in Hs as [Hip Hp].
    apply port_ok_fits in Hp as [Hf Hp]. apply Z.eqb_neq in Hp.
    rewrite encode_ip in Ha. apply advanced_app_inv in Ha as (c2 & Ha & Ha2); [|apply Hg].
    destruct (advanced_good _ _ _ Hg Ha) as [Hg2 _].
    destruct s as [[o|o] p]; simpl in *; change (?x :: o) with ([x] ++ o) in Ha;
      apply advanced_app_inv in Ha as (c1 & Ha & Ha1); try apply Hg;
      destruct (advanced_good _ _ _ Hg Ha) as [Hg1 _]; apply Nat.eqb_eq in Hip;
      rewrite (proj2 (read_u8_Ok _ _ _ (proj1 Hg)) Ha); simpl.
    all: rewrite (proj2 (read_exact_Ok _ _ _ _ (proj1 Hg1)) (conj Ha1 Hip)).
    all: rewrite (proj2 (read_u16_Ok _ _ _ Hg2) (conj Ha2 Hf)).
    all: by rewrite Hp.
Qed.

Lemma hostname_length host : validate_hostname host = Ok tt -> (0 < length host <= 253)%nat.
Proof.
  unfold validate_hostname. intros H. inv_ok H.
  apply Nat.eqb_neq in H0. apply Nat.ltb_ge in H1. lia.
Qed.

(** [read_ingress] reads exactly the encodings of well-formed ingresses. *)
Lemma read_ingress_Ok c i c' :
  good c -> read_ingress c = Ok (i, c') <-> advanced c (encode_ingress i []) c' /\ ingress_ok i = true.
Proof.
  intros Hg. unfold read_ingress. split.
  - intros H. inv_oks; subst; reads.
    + match goal with H : read_socket _ = _ |- _ => apply read_socket_Ok in H as [H ?]; [|done] end.
      simpl. rewrite encode_socket_acc. eauto using advanced_trans.
    + match goal with u : unit |- _ => destruct u end.
      match goal with H : validate_hostname _ = _ |- _ =>
        pose proof (hostname_length _ H); pose proof (proj2 (is_ok_unit _) H) end.
      cbn [encode_ingress ingress_ok]. split.
      * unfold fits in *. rewrite Z.mod_small by (change (2 ^ 16) with 65536; lia).
        match goal with H : length ?h = _ |- _ => replace (Z.of_nat (length h)) with z0 by lia end.
        rewrite app_nil_l. eauto using advanced_trans.
      * apply andb_true_iff. split; [done|]. by apply port_ok_fits.
  - intros [Ha Hok]. destruct i as [s|host p]; cbn [encode_ingress ingress_ok] in *; rewrite app_nil_l in Ha.
    + rewrite encode_socket_acc in Ha. apply advanced_app_inv in Ha as (c1 & Ha & Ha1); [|apply Hg].
      destruct (advanced_good _ _ _ Hg Ha) as [Hg1 _].
      rewrite (proj2 (read_u8_Ok _ _ _ (proj1 Hg)) Ha). simpl.
      by rewrite (proj2 (read_socket_Ok _ _ _ Hg1) (conj Ha1 Hok)).
    + apply andb_prop in Hok as [Hh Hp]. apply is_ok_unit in Hh.
      pose proof (hostname_length _ Hh). apply port_ok_fits in Hp as [Hf Hp].
      assert (Hl : fits 16 (Z.of_nat (length host))) by (unfold fits; change (2 ^ 16) with 65536; lia).
      rewrite (Z.mod_small _ (2 ^ 16)) in Ha by apply Hl.
      apply advanced_app_inv in Ha as (c1 & Ha & Ha1); [|apply Hg].
      destruct (advanced_good _ _ _ Hg Ha) as [Hg1 _].
      apply advanced_app_inv in Ha1 as (c2 & Ha1 & Ha2); [|apply Hg1].
      destruct (advanced_good _ _ _ Hg1 Ha1) as [Hg2 _].
      apply advanced_app_inv in Ha2 as (c3 & Ha2 & Ha3); [|apply Hg2].
      destruct (advanced_good _ _ _ Hg2 Ha2) as [Hg3 _].
      rewrite (proj2 (read_u8_Ok _ _ _ (proj1 Hg)) Ha). simpl.
      rewrite (proj2 (read_u16_Ok _ _ _ Hg1) (conj Ha1 Hl)).
      rewrite Nat2Z.id, (proj2 (read_exact_Ok _ _ _ _ (proj1 Hg2)) (conj Ha2 eq_refl)), Hh.
      rewrite (proj2 (read_u16_Ok _ _ _ Hg3) (conj Ha3 Hf)).
      by rewrite (proj2 (Z.eqb_neq _ _) Hp).
Qed.

Lemma length_encode_socket s : socket_ok s = true -> (length (encode_socket s []) <= 19)%nat.
Proof.
  unfold socket_ok, ip_ok. rewrite encode_ip, length_app, length_be_bytes.
  destruct (ip s); simpl; intros H; apply andb_prop in H as [H _]; apply Nat.eqb_eq in H; lia.
Qed.

Lemma length_encode a : address_ok a = true -> (length (encode_v1 a) <= 512)%nat.
Proof.
  destruct a as [s|i s]; simpl; rewrite encode_socket_acc, length_app.
  - intros H%length_encode_socket. simpl. lia.
  - intros [Hi Hs%length_encode_socket]%andb_prop.
    rewrite encode_ingress_acc, length_app. destruct i as [s'|h p]; simpl in *.
    + rewrite encode_socket_acc, length_app. apply length_encode_socket in Hi. simpl. lia.
    + apply andb_prop in Hi as [Hh%is_ok_unit%hostname_length _].
      rewrite !length_app. simpl. lia.
Qed.

(** A cursor that ends at the end of the payload has read all of it. *)
Lemma finished_all p l c' : advanced (mkCursor p 0) l c' -> is_finished c' = true -> p = l.
Proof.
  intros (Hb & Ho & Hr & _) Hf. apply Nat.eqb_eq in Hf. unfold rest in Hr.
  rewrite Hf, drop_all, app_nil_r in Hr. exact Hr.
Qed.

Lemma advance_all p : advanced (mkCursor p 0) p (mkCursor p (length p)).
Proof.
  repeat split; unfold rest, in_bounds; simpl; [|lia]. by rewrite drop_all, app_nil_r.
Qed.

(** Version 1 of the codec accepts exactly the encodings of well-formed addresses. *)
Lemma decode_v1_iff (payload : list Z) (a : P2pAddress) :
  forallb byte_ok payload = true ->
  decode_v1 payload = Ok a <-> payload = encode_v1 a /\ address_ok a = true.
Proof.
  intros Hb. assert (Hg : good (mkCursor payload 0)) by (split; [unfold in_bounds; simpl; lia|done]).
  unfold decode_v1. split.
  - intros H. inv_oks; subst; reads;
      repeat match goal with
      | H : read_socket ?c = _ |- _ => apply read_socket_Ok in H as [H ?]; [reads|assumption]
      | H : read_ingress ?c = _ |- _ => apply read_ingress_Ok in H as [H ?]; [reads|assumption]
      end.
    all: simpl; rewrite encode_socket_acc; try rewrite encode_ingress_acc.
    all: split; [eapply finished_all; eauto using advanced_trans | auto using andb_true_intro].
  - intros [-> Hok]. unfold validate_len, MAX_P2P_ADDRESS_ENCODED_LEN.
    pose proof (length_encode a Hok). rewrite (proj2 (Z.ltb_ge _ _)) by lia.
    pose proof (advance_all (encode_v1 a)) as Hall. revert Hall Hg.
    generalize (encode_v1 a) at 1 3 4 5 6 as payload. intros payload Hall Hg.
    destruct a as [s|i s]; simpl in Hall, Hok; rewrite encode_socket_acc in Hall.
    + apply advanced_app_inv in Hall as (c1 & Ha & Ha1); [|apply Hg].
      destruct (advanced_good _ _ _ Hg Ha) as [Hg1 _].
      rewrite (proj2 (read_u8_Ok _ _ _ (proj1 Hg)) Ha). simpl.
      rewrite (proj2 (read_socket_Ok _ _ _ Hg1) (conj Ha1 Hok)).
      unfold is_finished. simpl. by rewrite Nat.eqb_refl.
    + apply andb_prop in Hok as [Hi Hs]. rewrite encode_ingress_acc, <- app_assoc in Hall.
      apply advanced_app_inv in Hall as (c1 & Ha & Ha1); [|apply Hg].
      destruct (advanced_good _ _ _ Hg Ha) as [Hg1 _].
      apply advanced_app_inv in Ha1 as (c2 & Ha1 & Ha2); [|apply Hg1].
      destruct (advanced_good _ _ _ Hg1 Ha1) as [Hg2 _].
      rewrite (proj2 (read_u8_Ok _ _ _ (proj1 Hg)) Ha). simpl.
      rewrite (proj2 (read_ingress_Ok _ _ _ Hg1) (conj Ha1 Hi)).
      rewrite (proj2 (read_socket_Ok _ _ _ Hg2) (conj Ha2 Hs)).
      unfold is_finished. simpl. by rewrite Nat.eqb_refl.
Qed.

(** C37. The versioned P2P address codec is a bijection between well-formed addresses
    and accepted payloads. On a byte string the decoder returns an address exactly
    when the version is 1 and the payload is the encoding of that address, which is
    then well formed; any other version is refused with its own error, whatever the
    payload; and [validate_versioned] passes exactly what decodes. Hence no address
    has two encodings and no payload two meanings. *)
Theorem p2p_codec_roundtrip (version : u8) (payload : list Z) (a : P2pAddress) :
  forallb byte_ok payload = true ->
  (decode_versioned version payload = Ok a <-> version = P2P_ADDRESS_VERSION_V1 /\ payload = encode_v1 a /\ address_ok a = true) /\
  (version <> P2P_ADDRESS_VERSION_V1 -> decode_versioned version payload = Err (UnsupportedVersion version)) /\
  (validate_versioned version payload = Ok tt <-> version = P2P_ADDRESS_VERSION_V1 /\ exists b, payload = encode_v1 b /\ address_ok b = true).
Proof.
  intros Hb. unfold validate_versioned, decode_versioned. destruct (version =? P2P_ADDRESS_VERSION_V1) eqn:E; bools.
  - split; [rewrite decode_v1_iff by done; tauto|]. split; [done|]. destruct (decode_v1 payload) as [b|e] eqn:Ed.
    + apply decode_v1_iff in Ed; [|done]. split; [intros _; split; [done|by exists b]|done].
    + split; [done|]. intros (_ & b & Hp). apply decode_v1_iff in Hp; [congruence|done].
  - split; [split; [done|by intros [? _]]|]. split; [done|]. split; [done|by intros [? _]].
Qed.

Lemma p2p_codec_roundtrip_witness :
  let a := Asymmetric (Dns [110; 111; 100; 101; 46; 105; 111] 30400) (mkSocket (V4 [127; 0; 0; 1]) 30401) in
  decode_versioned 1 (encode_v1 a) = Ok a /\ decode_versioned 2 (encode_v1 a) = Err (UnsupportedVersion 2).
Proof.
  cbv zeta. set (a := Asymmetric _ _). assert (Hb : forallb byte_ok (encode_v1 a) = true) by (vm_compute; reflexivity). split.
  - apply (proj1 (p2p_codec_roundtrip 1 (encode_v1 a) a Hb)). split; [reflexivity|]. split; [reflexivity|vm_compute; reflexivity].
  - apply (p2p_codec_roundtrip 2 (encode_v1 a) a Hb). discriminate.
Defined.
