(* ===== verification/Native.v ===== *)
(** * Native: native coin balances

    The balance half of the storage provider of
    [crates/blockchain/primitives/src/storage/hashmap.rs]: transfer, credit and
    burn of the native coin. The EVM provider of [evm.rs] performs the same
    three operations through the journal of the EVM. *)

From S2P Require Import Prelude.

Abbreviation Balances := (gmap Z Z) (only parsing).

Definition transfer_balance (b : Balances) (from to : Address) (amount : U256) : res Balances :=
  if amount =? 0 then Ok b
  else
    let from_balance := rd b from in
    ensure amount <=? from_balance else Fatal "insufficient balance" in
    let b := <[from := wsub 256 (rd b from) amount]> b in
    Ok (<[to := wadd 256 (rd b to) amount]> b).

Definition increase_balance (b : Balances) (address : Address) (amount : U256) : Balances :=
  if amount =? 0 then b else <[address := wadd 256 (rd b address) amount]> b.

Definition decrease_balance (b : Balances) (address : Address) (amount : U256) : res Balances :=
  if amount =? 0 then Ok b
  else
    ensure amount <=? rd b address else Fatal "insufficient balance for burn" in
    Ok (<[address := wsub 256 (rd b address) amount]> b).

(** Every balance is a [U256] and the supply is one too. *)
Definition balances_ok (b : Balances) : Prop := (forall a, 0 <= rd b a) /\ msum b < 2 ^ 256.

Lemma balances_fits b a : balances_ok b -> fits 256 (rd b a).
Proof. intros [Hn Hs]. split; [apply Hn|]. pose proof (rd_le_msum b a Hn). lia. Qed.

(** A transfer that goes through moves exactly [amount] and keeps the supply. *)
Lemma transfer_balance_spec b from to amount :
  balances_ok b -> 0 <= amount ->
  if amount <=? rd b from then
    exists b', transfer_balance b from to amount = Ok b' /\ balances_ok b' /\ msum b' = msum b /\
      forall a, rd b' a = rd b a - (if decide (a = from) then amount else 0)
                                 + (if decide (a = to) then amount else 0)
  else transfer_balance b from to amount = Err (Fatal "insufficient balance").
Proof.
  intros [Hn Hs] Ha. pose proof (Hn from) as Hf. unfold transfer_balance.
  destruct (amount =? 0) eqn:E0; bools.
  { subst. rewrite (proj2 (Z.leb_le _ _)) by lia. exists b. split_and!; try done.
    intros. repeat case_decide; lia. }
  destruct (amount <=? rd b from) eqn:E; bools; [|done].
  assert (from_lt : rd b from <= msum b) by (by apply rd_le_msum).
  rewrite (wsub_small 256 (rd b from)) by lia.
  set (b1 := <[from := rd b from - amount]> b).
  assert (Hr1 : forall a, rd b1 a = rd b a - if decide (a = from) then amount else 0).
  { intros a. unfold b1. rewrite rd_insert. repeat case_decide; subst; congruence || lia. }
  assert (Hn1 : forall a, 0 <= rd b1 a).
  { intros a. rewrite Hr1. pose proof (Hn a). case_decide; subst; lia. }
  assert (Hm1 : msum b1 = msum b - amount) by (unfold b1; rewrite msum_insert; lia).
  pose proof (Hn1 to). pose proof (rd_le_msum b1 to Hn1).
  rewrite wadd_small by lia. eexists. split; [done|].
  assert (Hr : forall a, rd (<[to := rd b1 to + amount]> b1) a =
     rd b a - (if decide (a = from) then amount else 0) + (if decide (a = to) then amount else 0)).
  { intros a. rewrite rd_insert. specialize (Hr1 a). repeat case_decide; subst; congruence || lia. }
  split_and!; [split|..]; [..|done].
  - intros a. rewrite rd_insert. case_decide; [lia|apply Hn1].
  - rewrite msum_insert. lia.
  - rewrite msum_insert. lia.
Qed.

Lemma decrease_balance_spec b a amount :
  balances_ok b -> 0 <= amount ->
  if amount <=? rd b a then
    exists b', decrease_balance b a amount = Ok b' /\ balances_ok b' /\ msum b' = msum b - amount /\
      forall x, rd b' x = rd b x - if decide (x = a) then amount else 0
  else decrease_balance b a amount = Err (Fatal "insufficient balance for burn").
Proof.
  intros [Hn Hs] Ha. pose proof (Hn a) as Hf. unfold decrease_balance.
  destruct (amount =? 0) eqn:E0; bools.
  { subst. rewrite (proj2 (Z.leb_le _ _)) by lia. exists b. split_and!; try done; [lia|].
    intros. case_decide; lia. }
  destruct (amount <=? rd b a) eqn:E; bools; [|done].
  pose proof (rd_le_msum b a Hn). rewrite wsub_small by lia. eexists. split; [done|].
  split_and!; [split|..].
  - intros x. rewrite rd_insert. case_decide; [lia|apply Hn].
  - rewrite msum_insert. lia.
  - rewrite msum_insert. lia.
  - intros x. rewrite rd_insert. repeat case_decide; subst; congruence || lia.
Qed.

(** A credit that does not overflow the supply. *)
Lemma increase_balance_spec b a amount :
  balances_ok b -> 0 <= amount -> msum b + amount < 2 ^ 256 ->
  let b' := increase_balance b a amount in
  balances_ok b' /\ msum b' = msum b + amount /\
  forall x, rd b' x = rd b x + if decide (x = a) then amount else 0.
Proof.
  intros [Hn Hs] Ha Hov. unfold increase_balance. destruct (amount =? 0) eqn:E0; bools; cbv zeta.
  { subst. split_and!; try done; [lia|]. intros. case_decide; lia. }
  pose proof (Hn a). pose proof (rd_le_msum b a Hn). rewrite wadd_small by lia.
  split_and!; [split|..].
  - intros x. rewrite rd_insert. case_decide; [lia|apply Hn].
  - rewrite msum_insert. lia.
  - rewrite msum_insert. lia.
  - intros x. rewrite rd_insert. repeat case_decide; subst; congruence || lia.
Qed.
