(* ===== verification/ValidatorSet.v ===== *)
(** * ValidatorSet: the validator registry and its lifecycle

    [crates/system/validatorset/src/schema.rs], [runtime.rs] and the hooks of
    [hooks.rs] that drive them. [ValidatorSet] holds one field per storage slot
    of the schema (the committee snapshot slots 31..40, 44 and 47 are the state
    of [Snapshots.v]); every operation takes the state and returns the new one,
    or the error that makes the caller's journal discard all of its writes.
    Metrics, tracing and the slashing journal are process-local output and are
    not part of the state; the EVM logs are ([logs]). *)

From S2P Require Import Prelude P2pAddress.

Module status.
Definition REGISTERED : u8 := 0.
Definition PENDING : u8 := 1.
Definition ACTIVE : u8 := 2.
Definition EXITING : u8 := 3.
Definition UNBONDING : u8 := 4.
Definition INACTIVE : u8 := 5.
Definition JAILED : u8 := 6.
End status.

Definition MAX_SELF_REGISTERED_UNSTAKED : u32 := 32.
Definition FINALIZED_PARTICIPATION_RETAIN : u64 := 64.

(** The logs the contract emits ([IValidatorSet] events). *)
Inductive VsEvent : Type :=
| ValidatorRegistered (validator : Address) (index : u64)
| ValidatorActivated (validator : Address)
| ValidatorDeactivated (validator : Address) (atHeight : u64)
| ValidatorForcedExit (validator : Address) (atHeight : u64)
| ValidatorJailed (validator : Address) (atHeight : u64)
| ValidatorUnjailed (validator : Address) (atHeight : u64)
| ConsensusSetUpdated (activeCount : u32)
| EpochTransition (newEpochNumber : U256) (timestamp : u64) (activeValidatorCount : u32).

Record ValidatorSet := mkVS {
  config_owner : Address;
  config_max_validators : u32;
  config_epoch_length_blocks : u32;
  vs_config_min_stake : U256;
  config_is_initialized : bool;
  val_consensus_pubkey_lo : gmap Address bytes32;
  val_consensus_pubkey_hi : gmap Address bytes32;
  val_stake : gmap Address U256;
  val_status : gmap Address u8;
  val_slash_count : gmap Address u64;
  val_missed_blocks : gmap Address u64;
  val_missed_votes : gmap Address u64;
  val_blocks_proposed : gmap Address u64;
  val_joined_at_height : gmap Address u64;
  val_deactivated_at_height : gmap Address u64;
  val_unbonding_end : gmap Address u64;
  address_to_index : gmap Address u64;
  index_to_address : gmap u64 Address;
  consensus_pubkey_hash_to_address : gmap B256 Address;
  validator_count : u32;
  epoch_number : U256;
  epoch_start_timestamp : u64;
  epoch_start_block : u64;
  val_has_bls_share : gmap Address bool;
  pending_set_change : bool;
  active_consensus_set_hash : B256;
  config_reregistration_cooldown : u32;
  val_p2p_address_version : gmap Address u8;
  val_p2p_address_payload : gmap Address (list Z);
  finalized_participation_recorded : gmap B256 bool;
  val_join_confirmed : gmap Address bool;
  config_unjail_cooldown_blocks : u64;
  val_jailed_at_height : gmap Address u64;
  finalized_participation_ring : gmap u64 B256;
  finalized_participation_ring_seq : u64;
  logs : list VsEvent
}.

(** One writer per slot: [self.f.write(&k, v)] is [wr_f s k v]. *)
Definition wr_val_consensus_pubkey_lo (s : ValidatorSet) (k : Address) (v : bytes32) : ValidatorSet :=
  {| s with val_consensus_pubkey_lo := <[k := v]> (val_consensus_pubkey_lo s) |}.
Definition wr_val_consensus_pubkey_hi (s : ValidatorSet) (k : Address) (v : bytes32) : ValidatorSet :=
  {| s with val_consensus_pubkey_hi := <[k := v]> (val_consensus_pubkey_hi s) |}.
Definition wr_val_stake (s : ValidatorSet) (k : Address) (v : U256) : ValidatorSet :=
  {| s with val_stake := <[k := v]> (val_stake s) |}.
Definition wr_val_status (s : ValidatorSet) (k : Address) (v : u8) : ValidatorSet :=
  {| s with val_status := <[k := v]> (val_status s) |}.
Definition wr_val_slash_count (s : ValidatorSet) (k : Address) (v : u64) : ValidatorSet :=
  {| s with val_slash_count := <[k := v]> (val_slash_count s) |}.
Definition wr_val_missed_blocks (s : ValidatorSet) (k : Address) (v : u64) : ValidatorSet :=
  {| s with val_missed_blocks := <[k := v]> (val_missed_blocks s) |}.
Definition wr_val_missed_votes (s : ValidatorSet) (k : Address) (v : u64) : ValidatorSet :=
  {| s with val_missed_votes := <[k := v]> (val_missed_votes s) |}.
Definition wr_val_blocks_proposed (s : ValidatorSet) (k : Address) (v : u64) : ValidatorSet :=
  {| s with val_blocks_proposed := <[k := v]> (val_blocks_proposed s) |}.
Definition wr_val_joined_at_height (s : ValidatorSet) (k : Address) (v : u64) : ValidatorSet :=
  {| s with val_joined_at_height := <[k := v]> (val_joined_at_height s) |}.
Definition wr_val_deactivated_at_height (s : ValidatorSet) (k : Address) (v : u64) : ValidatorSet :=
  {| s with val_deactivated_at_height := <[k := v]> (val_deactivated_at_height s) |}.
Definition wr_val_unbonding_end (s : ValidatorSet) (k : Address) (v : u64) : ValidatorSet :=
  {| s with val_unbonding_end := <[k := v]> (val_unbonding_end s) |}.
Definition wr_address_to_index (s : ValidatorSet) (k : Address) (v : u64) : ValidatorSet :=
  {| s with address_to_index := <[k := v]> (address_to_index s) |}.
Definition wr_index_to_address (s : ValidatorSet) (k : u64) (v : Address) : ValidatorSet :=
  {| s with index_to_address := <[k := v]> (index_to_address s) |}.
Definition wr_consensus_pubkey_hash_to_address (s : ValidatorSet) (k : B256) (v : Address) : ValidatorSet :=
  {| s with consensus_pubkey_hash_to_address := <[k := v]> (consensus_pubkey_hash_to_address s) |}.
Definition set_validator_count (s : ValidatorSet) (v : u32) : ValidatorSet :=
  {| s with validator_count := v |}.
Definition set_epoch_number (s : ValidatorSet) (v : U256) : ValidatorSet :=
  {| s with epoch_number := v |}.
Definition set_epoch_start_timestamp (s : ValidatorSet) (v : u64) : ValidatorSet :=
  {| s with epoch_start_timestamp := v |}.
Definition set_epoch_start_block (s : ValidatorSet) (v : u64) : ValidatorSet :=
  {| s with epoch_start_block := v |}.
Definition wr_val_has_bls_share (s : ValidatorSet) (k : Address) (v : bool) : ValidatorSet :=
  {| s with val_has_bls_share := <[k := v]> (val_has_bls_share s) |}.
Definition set_pending_set_change (s : ValidatorSet) (v : bool) : ValidatorSet :=
  {| s with pending_set_change := v |}.
Definition set_active_consensus_set_hash (s : ValidatorSet) (v : B256) : ValidatorSet :=
  {| s with active_consensus_set_hash := v |}.
Definition wr_val_p2p_address_version (s : ValidatorSet) (k : Address) (v : u8) : ValidatorSet :=
  {| s with val_p2p_address_version := <[k := v]> (val_p2p_address_version s) |}.
Definition wr_val_p2p_address_payload (s : ValidatorSet) (k : Address) (v : (list Z)) : ValidatorSet :=
  {| s with val_p2p_address_payload := <[k := v]> (val_p2p_address_payload s) |}.
Definition wr_finalized_participation_recorded (s : ValidatorSet) (k : B256) (v : bool) : ValidatorSet :=
  {| s with finalized_participation_recorded := <[k := v]> (finalized_participation_recorded s) |}.
Definition wr_val_join_confirmed (s : ValidatorSet) (k : Address) (v : bool) : ValidatorSet :=
  {| s with val_join_confirmed := <[k := v]> (val_join_confirmed s) |}.
Definition wr_val_jailed_at_height (s : ValidatorSet) (k : Address) (v : u64) : ValidatorSet :=
  {| s with val_jailed_at_height := <[k := v]> (val_jailed_at_height s) |}.
Definition wr_finalized_participation_ring (s : ValidatorSet) (k : u64) (v : B256) : ValidatorSet :=
  {| s with finalized_participation_ring := <[k := v]> (finalized_participation_ring s) |}.
Definition set_finalized_participation_ring_seq (s : ValidatorSet) (v : u64) : ValidatorSet :=
  {| s with finalized_participation_ring_seq := v |}.
Definition set_logs (s : ValidatorSet) (v : list VsEvent) : ValidatorSet :=
  {| s with logs := v |}.


Definition emit (s : ValidatorSet) (e : VsEvent) : ValidatorSet :=
  set_logs s (logs s ++ [e]).

(** A fully-hydrated validator record read from storage. *)
Record ValidatorRecord := mkRecord {
  validator_address : Address;
  consensus_pubkey : list Z;
  stake : U256;
  vstatus : u8;
  slash_count : u64;
  missed_blocks : u64;
  missed_votes : u64;
  blocks_proposed : u64;
  joined_at_height : u64;
  deactivated_at_height : u64;
  unbonding_end : u64;
  has_bls_share : bool
}.

Section Runtime.
Context `{Crypto}.
Context (env : BlockEnv).

(** ** Reads *)

Definition is_current_consensus_participant_status (validator_status : u8)
    (has_bls_share : bool) : bool :=
  ((validator_status =? status.ACTIVE) || (validator_status =? status.EXITING)
   || (validator_status =? status.JAILED)) && has_bls_share.

Definition read_consensus_pubkey (s : ValidatorSet) (addr : Address) : list Z :=
  let lo := rd (val_consensus_pubkey_lo s) addr in
  let hi := rd (val_consensus_pubkey_hi s) addr in
  b32 lo ++ take 16 (b32 hi).

Definition write_consensus_pubkey (s : ValidatorSet) (addr : Address) (pubkey : list Z) : ValidatorSet :=
  let lo := B32 (take 32 pubkey) in
  let hi := B32 (take 16 (drop 32 pubkey) ++ replicate 16 0) in
  let s := wr_val_consensus_pubkey_lo s addr lo in
  wr_val_consensus_pubkey_hi s addr hi.

Definition consensus_pubkey_hash (pubkey : list Z) : B256 := keccak256 pubkey.

Definition get_validator (s : ValidatorSet) (addr : Address) : option ValidatorRecord :=
  let index := rd (address_to_index s) addr in
  if index =? 0 then None
  else Some {|
    validator_address := addr;
    consensus_pubkey := read_consensus_pubkey s addr;
    stake := rd (val_stake s) addr;
    vstatus := rd (val_status s) addr;
    slash_count := rd (val_slash_count s) addr;
    missed_blocks := rd (val_missed_blocks s) addr;
    missed_votes := rd (val_missed_votes s) addr;
    blocks_proposed := rd (val_blocks_proposed s) addr;
    joined_at_height := rd (val_joined_at_height s) addr;
    deactivated_at_height := rd (val_deactivated_at_height s) addr;
    unbonding_end := rd (val_unbonding_end s) addr;
    has_bls_share := rd (val_has_bls_share s) addr
  |}.

Definition get_all_validators (s : ValidatorSet) : list ValidatorRecord :=
  let count := validator_count s in
  omap (fun i =>
          let addr := rd (index_to_address s) i in
          if addr =? 0 then None else get_validator s addr)
       (seqZ 1 count).

Definition get_active_validators (s : ValidatorSet) : list ValidatorRecord :=
  filter (fun v => vstatus v = status.ACTIVE) (get_all_validators s).

Definition get_reshare_target_set (s : ValidatorSet) : list ValidatorRecord :=
  filter (fun v =>
    is_true (if vstatus v =? status.ACTIVE then true
             else if vstatus v =? status.PENDING then rd (val_join_confirmed s) (validator_address v)
             else false)) (get_all_validators s).

Definition get_pending_validators (s : ValidatorSet) : list ValidatorRecord :=
  filter (fun v => vstatus v = status.PENDING) (get_all_validators s).

Definition get_admitted_non_consensus_validators (s : ValidatorSet) : list ValidatorRecord :=
  filter (fun v => vstatus v = status.REGISTERED \/ vstatus v = status.PENDING
                   \/ vstatus v = status.JAILED) (get_all_validators s).

Definition get_active_consensus_set (s : ValidatorSet) : list ValidatorRecord :=
  filter (fun v => is_true (is_current_consensus_participant_status (vstatus v) (has_bls_share v)))
         (get_all_validators s).

(** [count().try_into()] into a [u32]. *)
Definition count_u32 (l : list ValidatorRecord) (msg : string) : res u32 :=
  if Z.of_nat (length l) <? 2 ^ 32 then Ok (Z.of_nat (length l)) else Err (Revert msg).

Definition active_validator_count (s : ValidatorSet) : res u32 :=
  count_u32 (filter (fun v => vstatus v = status.ACTIVE) (get_all_validators s))
            "active validator count exceeds u32".

Definition registered_count (s : ValidatorSet) : res u32 :=
  count_u32 (filter (fun v => vstatus v = status.REGISTERED) (get_all_validators s))
            "registered validator count exceeds u32".

Definition active_consensus_count (s : ValidatorSet) : res u32 :=
  count_u32 (get_active_consensus_set s) "active consensus count exceeds u32".

Definition is_consensus_participant (s : ValidatorSet) (addr : Address) : bool :=
  let index := rd (address_to_index s) addr in
  if index =? 0 then false
  else
    let st := rd (val_status s) addr in
    let has_bls := rd (val_has_bls_share s) addr in
    is_current_consensus_participant_status st has_bls.

Definition has_pending_set_change (s : ValidatorSet) : bool := pending_set_change s.

Definition is_validator (s : ValidatorSet) (addr : Address) : bool :=
  0 <? rd (address_to_index s) addr.

Definition lookup_by_pubkey_hash (s : ValidatorSet) (pubkey_hash : B256) : Address :=
  rd (consensus_pubkey_hash_to_address s) pubkey_hash.

(** ** P2P addresses *)

Definition set_p2p_address (s : ValidatorSet) (caller validator_addr : Address)
    (version : u8) (encoded : list Z) : res ValidatorSet :=
  let owner := config_owner s in
  ensure negb (negb (caller =? owner) && negb (caller =? validator_addr))
    else Revert "unauthorized: caller must be owner or validator itself" in
  ensure negb (rd (address_to_index s) validator_addr =? 0)
    else Revert "validator not registered" in
  ensure version =? P2P_ADDRESS_VERSION_V1 else Revert "unsupported p2p address version" in
  ensure Z.of_nat (length encoded) <=? MAX_P2P_ADDRESS_ENCODED_LEN
    else Revert "p2p address payload exceeds max length" in
  match validate_versioned version encoded with
  | Err _ => Err (Revert "invalid p2p address")
  | Ok _ =>
      let s := wr_val_p2p_address_version s validator_addr version in
      Ok (wr_val_p2p_address_payload s validator_addr encoded)
  end.

Definition get_p2p_address (s : ValidatorSet) (validator_addr : Address) :
    res (option (u8 * list Z)) :=
  ensure negb (rd (address_to_index s) validator_addr =? 0)
    else Revert "validator not registered" in
  let version := rd (val_p2p_address_version s) validator_addr in
  let encoded := rd (val_p2p_address_payload s) validator_addr in
  if (version =? 0) && Nat.eqb (length encoded) 0 then Ok None
  else Ok (Some (version, encoded)).

(** ** Registration *)

(** [verify_bls_registration_sig]: parse the key and the signature, then
    check it over the 20 address bytes. *)
Definition verify_bls_registration_sig (pubkey_bytes sig_bytes : list Z)
    (validator_addr : Address) : res unit :=
  ensure blst_pk_from_bytes pubkey_bytes else Revert "invalid BLS public key" in
  ensure blst_sig_from_bytes sig_bytes else Revert "invalid BLS signature" in
  ensure blst_verify pubkey_bytes sig_bytes (be_bytes 20 validator_addr)
    else Revert "invalid BLS registration signature" in
  Ok tt.

Definition register_validator_with_sig (s : ValidatorSet) (caller validator_addr : Address)
    (pubkey : list Z) (bls_signature : option (list Z)) : res ValidatorSet :=
  let owner := config_owner s in
  ensure negb (negb (caller =? owner) && negb (caller =? validator_addr))
    else Revert "unauthorized: caller must be owner or validator itself" in
  let? _ :=
    (if caller =? validator_addr then
       match bls_signature with
       | Some sig_bytes => verify_bls_registration_sig pubkey sig_bytes validator_addr
       | None => Err (Revert "self-registration requires BLS proof-of-key-ownership signature")
       end
     else
       match bls_signature with
       | Some sig_bytes => verify_bls_registration_sig pubkey sig_bytes validator_addr
       | None => Ok tt
       end) in
  let? _ :=
    (if caller =? validator_addr then
       let? registered := registered_count s in
       if MAX_SELF_REGISTERED_UNSTAKED <=? registered
       then Err (Revert "self-registration limit reached: too many unstaked REGISTERED validators (owner may register directly)")
       else Ok tt
     else Ok tt) in
  let pk_hash := consensus_pubkey_hash pubkey in
  let existing_owner := rd (consensus_pubkey_hash_to_address s) pk_hash in
  ensure negb (negb (existing_owner =? 0) && negb (existing_owner =? validator_addr))
    else Revert "BLS consensus pubkey already registered by another validator" in
  let existing_index := rd (address_to_index s) validator_addr in
  if negb (existing_index =? 0) then
    let current_status := rd (val_status s) validator_addr in
    ensure current_status =? status.INACTIVE else Revert "validator already registered" in
    let cooldown := config_reregistration_cooldown s in
    let deactivated_at := rd (val_deactivated_at_height s) validator_addr in
    let current_height := block_number env in
    ensure negb ((0 <? cooldown) && ((0 <? deactivated_at)
                 && (current_height <? wadd 64 deactivated_at cooldown)))
      else Revert "re-registration cooldown not expired" in
    let old_pubkey := read_consensus_pubkey s validator_addr in
    let old_pk_hash := consensus_pubkey_hash old_pubkey in
    let s := wr_consensus_pubkey_hash_to_address s old_pk_hash 0 in
    let s := write_consensus_pubkey s validator_addr pubkey in
    let s := wr_consensus_pubkey_hash_to_address s pk_hash validator_addr in
    let s := wr_val_status s validator_addr status.REGISTERED in
    let s := wr_val_slash_count s validator_addr 0 in
    let s := wr_val_missed_blocks s validator_addr 0 in
    let s := wr_val_missed_votes s validator_addr 0 in
    let s := wr_val_blocks_proposed s validator_addr 0 in
    let s := wr_val_joined_at_height s validator_addr (block_number env) in
    let s := wr_val_deactivated_at_height s validator_addr 0 in
    let s := wr_val_unbonding_end s validator_addr 0 in
    let s := wr_val_has_bls_share s validator_addr false in
    let s := wr_val_p2p_address_version s validator_addr 0 in
    let s := wr_val_p2p_address_payload s validator_addr [] in
    let s := set_pending_set_change s true in
    Ok (emit s (ValidatorRegistered validator_addr existing_index))
  else
    let count := validator_count s in
    let max := config_max_validators s in
    ensure negb ((0 <? max) && (max <=? count)) else Revert "max validators reached" in
    let new_index := wadd 32 count 1 in
    let s := wr_address_to_index s validator_addr new_index in
    let s := wr_index_to_address s new_index validator_addr in
    let s := write_consensus_pubkey s validator_addr pubkey in
    let s := wr_val_status s validator_addr status.REGISTERED in
    let s := wr_val_joined_at_height s validator_addr (block_number env) in
    let s := wr_consensus_pubkey_hash_to_address s pk_hash validator_addr in
    let s := set_validator_count s new_index in
    let s := set_pending_set_change s true in
    Ok (emit s (ValidatorRegistered validator_addr new_index)).

Definition register_validator (s : ValidatorSet) (caller validator_addr : Address)
    (pubkey : list Z) : res ValidatorSet :=
  register_validator_with_sig s caller validator_addr pubkey None.

(** ** Lifecycle transitions *)

Definition mark_pending (s : ValidatorSet) (addr : Address) : res ValidatorSet :=
  let index := rd (address_to_index s) addr in
  ensure negb (index =? 0) else Revert "validator not registered" in
  let current_status := rd (val_status s) addr in
  if negb (current_status =? status.REGISTERED) then Ok s
  else
    let s := wr_val_status s addr status.PENDING in
    let s := wr_val_join_confirmed s addr false in
    Ok (set_pending_set_change s true).

Definition confirm_validator_ready (s : ValidatorSet) (caller : Address) : res ValidatorSet :=
  let index := rd (address_to_index s) caller in
  ensure negb (index =? 0) else Revert "validator not registered" in
  let current_status := rd (val_status s) caller in
  ensure current_status =? status.PENDING
    else Revert "confirmValidatorReady requires PENDING status" in
  let s := wr_val_join_confirmed s caller true in
  Ok (set_pending_set_change s true).

Definition activate_validator (s : ValidatorSet) (addr : Address) : res ValidatorSet :=
  let index := rd (address_to_index s) addr in
  ensure negb (index =? 0) else Revert "validator not registered" in
  let current_status := rd (val_status s) addr in
  if current_status =? status.ACTIVE then Ok s
  else
    ensure negb (negb (current_status =? status.REGISTERED) && negb (current_status =? status.PENDING))
      else Revert "cannot activate validator: only REGISTERED or PENDING allowed" in
    let s := wr_val_status s addr status.ACTIVE in
    let s := wr_val_deactivated_at_height s addr 0 in
    let s := set_pending_set_change s true in
    Ok (emit s (ValidatorActivated addr)).

Definition deactivate_validator (s : ValidatorSet) (caller addr : Address) : res ValidatorSet :=
  let owner := config_owner s in
  ensure negb (negb (caller =? owner) && negb (caller =? addr))
    else Revert "unauthorized: caller must be owner or validator itself" in
  let index := rd (address_to_index s) addr in
  ensure negb (index =? 0) else Revert "validator not registered" in
  let current_status := rd (val_status s) addr in
  ensure current_status =? status.ACTIVE else Revert "can only deactivate an active validator" in
  let s := wr_val_status s addr status.EXITING in
  let height := block_number env in
  let s := wr_val_deactivated_at_height s addr height in
  let s := set_pending_set_change s true in
  Ok (emit s (ValidatorDeactivated addr height)).

(** The shared punitive transition of [force_exit_validator] and
    [jail_validator]. *)
Definition punish_validator (s : ValidatorSet) (addr : Address) (jail : bool) : res ValidatorSet :=
  let index := rd (address_to_index s) addr in
  ensure negb (index =? 0) else Revert "validator not registered" in
  let current_status := rd (val_status s) addr in
  let height := block_number env in
  let target := if jail then status.JAILED else status.EXITING in
  let? s :=
    (if current_status =? status.ACTIVE then
       let s := wr_val_status s addr target in
       let s := if jail
                then wr_val_jailed_at_height s addr height
                else s in
       let s := wr_val_deactivated_at_height s addr height in
       let s := set_pending_set_change s true in
       if jail then Ok (emit s (ValidatorJailed addr height))
       else Ok (emit (emit s (ValidatorDeactivated addr height)) (ValidatorForcedExit addr height))
     else if (current_status =? status.JAILED) && jail then
       let s := set_pending_set_change s true in
       Ok (emit s (ValidatorJailed addr (rd (val_jailed_at_height s) addr)))
     else if current_status =? status.EXITING then
       let s := set_pending_set_change s true in
       Ok (emit s (ValidatorForcedExit addr (rd (val_deactivated_at_height s) addr)))
     else if (current_status =? status.UNBONDING) || (current_status =? status.INACTIVE) then Ok s
     else Err (Revert "cannot punish validator: only ACTIVE, EXITING, UNBONDING, or INACTIVE allowed")) in
  let sc := rd (val_slash_count s) addr in
  Ok (wr_val_slash_count s addr (wadd 64 sc 1)).

Definition force_exit_validator (s : ValidatorSet) (addr : Address) : res ValidatorSet :=
  punish_validator s addr false.

Definition jail_validator (s : ValidatorSet) (addr : Address) : res ValidatorSet :=
  punish_validator s addr true.

Definition unjail_cooldown_blocks (s : ValidatorSet) : u64 := config_unjail_cooldown_blocks s.

Definition unjail_to_pending (s : ValidatorSet) (addr : Address) : res ValidatorSet :=
  let index := rd (address_to_index s) addr in
  ensure negb (index =? 0) else Revert "validator not registered" in
  let current_status := rd (val_status s) addr in
  ensure current_status =? status.JAILED else Revert "unjailValidator requires JAILED status" in
  let height := block_number env in
  let jailed_at := rd (val_jailed_at_height s) addr in
  let cooldown := unjail_cooldown_blocks s in
  let ready_at := saturating_add 64 jailed_at cooldown in
  ensure ready_at <=? height else Revert "unjail cooldown not elapsed" in
  let s := wr_val_status s addr status.PENDING in
  let s := wr_val_jailed_at_height s addr 0 in
  let s := wr_val_join_confirmed s addr false in
  let s := wr_val_missed_blocks s addr 0 in
  let s := wr_val_missed_votes s addr 0 in
  let s := set_pending_set_change s true in
  Ok (emit s (ValidatorUnjailed addr height)).

(** ** Reshare activation *)

Definition in_set (set : list Address) (a : Address) : bool := existsb (Z.eqb a) set.

Definition clear_share (s : ValidatorSet) (v : ValidatorRecord) : ValidatorSet :=
  if has_bls_share v
  then wr_val_has_bls_share s (validator_address v) false
  else s.

Definition activate_member (s : ValidatorSet) (addr : Address) : res ValidatorSet :=
  let index := rd (address_to_index s) addr in
  ensure negb (index =? 0) else Revert "reshared active set contains unregistered validator" in
  let st := rd (val_status s) addr in
  if (st =? status.REGISTERED) || (st =? status.PENDING) then
    let s := wr_val_status s addr status.ACTIVE in
    let s := wr_val_has_bls_share s addr true in
    Ok (wr_val_join_confirmed s addr false)
  else if st =? status.ACTIVE then
    Ok (wr_val_has_bls_share s addr true)
  else Err (Revert "reshared active set contains validator with non-active status").

Definition exclude_exiting (new_active_set : list Address) (s : ValidatorSet)
    (v : ValidatorRecord) : ValidatorSet :=
  if (vstatus v =? status.EXITING) && negb (in_set new_active_set (validator_address v)) then
    let s := wr_val_status s (validator_address v) status.UNBONDING in
    wr_val_has_bls_share s (validator_address v) false
  else s.

Definition activate_reshared_set (s : ValidatorSet) (new_active_set : list Address)
    (active_set_hash : B256) : res ValidatorSet :=
  let all := get_all_validators s in
  let s := foldl clear_share s all in
  let? s := foldM activate_member s new_active_set in
  let s := foldl (exclude_exiting new_active_set) s all in
  let s := set_active_consensus_set_hash s active_set_hash in
  let all_covered :=
    forallb (fun v => in_set new_active_set (validator_address v)) (get_active_validators s) in
  let s := set_pending_set_change s (negb all_covered) in
  ensure Z.of_nat (length new_active_set) <? 2 ^ 32 else Revert "active set count exceeds u32" in
  Ok (emit s (ConsensusSetUpdated (Z.of_nat (length new_active_set)))).

(** ** Participation *)

Definition record_proposer (s : ValidatorSet) (addr : Address) : res ValidatorSet :=
  ensure is_consensus_participant s addr
    else Revert "proposer is not a current consensus participant" in
  let proposed := rd (val_blocks_proposed s) addr in
  Ok (wr_val_blocks_proposed s addr (wadd 64 proposed 1)).

Definition record_missed_block (s : ValidatorSet) (addr : Address) : ValidatorSet :=
  let missed := rd (val_missed_blocks s) addr in
  wr_val_missed_blocks s addr (wadd 64 missed 1).

Definition add_missed_vote (s : ValidatorSet) (addr : Address) : ValidatorSet :=
  let missed := rd (val_missed_votes s) addr in
  wr_val_missed_votes s addr (wadd 64 missed 1).

Definition record_participation (s : ValidatorSet) (voters absent : list Address) : res ValidatorSet :=
  let? _ := foldM (fun _ addr =>
    if is_consensus_participant s addr then Ok tt
    else Err (Revert "voter is not a current consensus participant")) tt voters in
  foldM (fun s addr =>
    if is_consensus_participant s addr then Ok (add_missed_vote s addr)
    else Err (Revert "absent voter is not a current consensus participant")) s absent.

Definition record_finalized_participation (s : ValidatorSet) (voters absent : list Address) :
    res ValidatorSet :=
  let? _ := foldM (fun _ addr =>
    if is_validator s addr then Ok tt
    else Err (Revert "finalized voter is not a registered validator")) tt voters in
  foldM (fun s addr =>
    if is_validator s addr then Ok (add_missed_vote s addr)
    else Err (Revert "finalized absent voter is not a registered validator")) s absent.

(** ** Epochs and cleanup *)

Definition reset_epoch_counters (s : ValidatorSet) (v : ValidatorRecord) : ValidatorSet :=
  if negb (vstatus v =? status.ACTIVE) && negb (vstatus v =? status.EXITING)
     && negb (vstatus v =? status.JAILED) then s
  else
    let addr := validator_address v in
    let s := wr_val_missed_blocks s addr 0 in
    let s := wr_val_missed_votes s addr 0 in
    wr_val_blocks_proposed s addr 0.

Definition update_epoch (s : ValidatorSet) (ts : u64) (bn : u64) : res ValidatorSet :=
  let all := get_all_validators s in
  let s := foldl reset_epoch_counters s all in
  let epoch := epoch_number s in
  let new_epoch := wadd 256 epoch 1 in
  let s := set_epoch_number s new_epoch in
  let s := set_epoch_start_timestamp s ts in
  let s := set_epoch_start_block s bn in
  let? active_count := active_validator_count s in
  Ok (emit s (EpochTransition new_epoch ts active_count)).

Definition clear_validator_storage (s : ValidatorSet) (addr : Address) : ValidatorSet :=
  let pubkey := read_consensus_pubkey s addr in
  let pk_hash := consensus_pubkey_hash pubkey in
  let s := wr_consensus_pubkey_hash_to_address s pk_hash 0 in
  let s := write_consensus_pubkey s addr (replicate 48 0) in
  let s := wr_val_stake s addr 0 in
  let s := wr_val_status s addr 0 in
  let s := wr_val_slash_count s addr 0 in
  let s := wr_val_missed_blocks s addr 0 in
  let s := wr_val_missed_votes s addr 0 in
  let s := wr_val_blocks_proposed s addr 0 in
  let s := wr_val_joined_at_height s addr 0 in
  let s := wr_val_deactivated_at_height s addr 0 in
  let s := wr_val_unbonding_end s addr 0 in
  let s := wr_val_has_bls_share s addr false in
  let s := wr_val_p2p_address_version s addr 0 in
  let s := wr_val_p2p_address_payload s addr [] in
  let s := wr_val_join_confirmed s addr false in
  wr_val_jailed_at_height s addr 0.

(** The removal of the entry at index [i] by swapping the last entry in. *)
Definition swap_remove (s : ValidatorSet) (addr : Address) (i count : Z) : ValidatorSet :=
  let s := clear_validator_storage s addr in
  let s :=
    if i <? count then
      let last_addr := rd (index_to_address s) count in
      let s := wr_index_to_address s i last_addr in
      wr_address_to_index s last_addr i
    else s in
  let s := wr_index_to_address s count 0 in
  wr_address_to_index s addr 0.

(** The [while i <= count] loop: every iteration either advances [i] or
    decrements [count], so it is recursion on the [remaining] indices. *)
Fixpoint cleanup_loop (remaining : nat) (max_removals : u32) (s : ValidatorSet)
    (i count removed : Z) : ValidatorSet * Z * Z :=
  match remaining with
  | O => (s, count, removed)
  | S remaining =>
      if (0 <? max_removals) && (max_removals <=? removed) then (s, count, removed)
      else
        let addr := rd (index_to_address s) i in
        if addr =? 0 then cleanup_loop remaining max_removals s (i + 1) count removed
        else
          let st := rd (val_status s) addr in
          if negb (st =? status.INACTIVE)
          then cleanup_loop remaining max_removals s (i + 1) count removed
          else cleanup_loop remaining max_removals (swap_remove s addr i count) i (count - 1) (removed + 1)
  end.

Definition cleanup_inactive_validators (s : ValidatorSet) (max_removals : u32) : ValidatorSet * u32 :=
  let count := validator_count s in
  let '(s, count, removed) := cleanup_loop (Z.to_nat count) max_removals s 1 count 0 in
  (set_validator_count s count, removed).

(** ** Hooks *)

Definition is_epoch_boundary (s : ValidatorSet) (bn : u64) : bool :=
  let epoch_length_blocks := config_epoch_length_blocks s in
  if epoch_length_blocks =? 0 then false
  else saturating_add 64 (epoch_start_block s) epoch_length_blocks <=? bn.

Definition hook_record_proposer (s : ValidatorSet) (beneficiary : Address) : res ValidatorSet :=
  if is_validator s beneficiary then record_proposer s beneficiary else Ok s.

Definition hook_record_participation (s : ValidatorSet) (voters absent : list Address) :
    res ValidatorSet :=
  match absent with
  | [] => Ok s
  | _ => record_participation s voters absent
  end.

Definition hook_record_finalized_participation (s : ValidatorSet) (fb_hash : B256)
    (voters absent : list Address) : res ValidatorSet :=
  match voters, absent with
  | [], [] => Ok s
  | _, _ =>
      if rd (finalized_participation_recorded s) fb_hash then Ok s
      else
        let? s := record_finalized_participation s voters absent in
        let s := wr_finalized_participation_recorded s fb_hash true in
        let seq := finalized_participation_ring_seq s in
        let idx := seq mod FINALIZED_PARTICIPATION_RETAIN in
        let evicted := rd (finalized_participation_ring s) idx in
        let s := if negb (evicted =? 0) && negb (evicted =? fb_hash)
                 then wr_finalized_participation_recorded s evicted false
                 else s in
        let s := wr_finalized_participation_ring s idx fb_hash in
        Ok (set_finalized_participation_ring_seq s (wadd 64 seq 1))
  end.

End Runtime.

(** ** The registry invariant *)

Section Invariant.
Context `{Crypto}.

(** The part of the state that says who is registered, under which index and
    with which key. *)
Definition registry (s : ValidatorSet) :=
  (address_to_index s, index_to_address s, validator_count s,
   consensus_pubkey_hash_to_address s, val_consensus_pubkey_lo s, val_consensus_pubkey_hi s).

(** The 1-based index array and the reverse mapping are inverse bijections
    between [1..count] and the registered addresses, the zero address is not
    registered, and the key index maps every registered key to its owner. *)
Record registry_ok (s : ValidatorSet) : Prop := {
  ro_count : fits 32 (validator_count s);
  ro_index : forall a, rd (address_to_index s) a <> 0 ->
    1 <= rd (address_to_index s) a <= validator_count s /\
    rd (index_to_address s) (rd (address_to_index s) a) = a;
  ro_address : forall i, 1 <= i <= validator_count s ->
    rd (address_to_index s) (rd (index_to_address s) i) = i;
  ro_zero : rd (address_to_index s) 0 = 0;
  ro_key : forall a, rd (address_to_index s) a <> 0 ->
    rd (consensus_pubkey_hash_to_address s)
       (consensus_pubkey_hash (read_consensus_pubkey s a)) = a
}.

Lemma registry_ok_ext s s' : registry s' = registry s -> registry_ok s -> registry_ok s'.
Proof.
  unfold registry. intros [= E1 E2 E3 E4 E5 E6] [].
  split; rewrite ?E1, ?E2, ?E3, ?E4; auto.
  intros a Ha. specialize (ro_key0 a Ha). unfold read_consensus_pubkey in *. by rewrite E5, E6.
Qed.

Lemma registry_foldl {A} (f : ValidatorSet -> A -> ValidatorSet) l s :
  (forall s a, registry (f s a) = registry s) -> registry (foldl f s l) = registry s.
Proof. intros Hf. revert s. induction l; intros s; simpl; [done|]. by rewrite IHl, Hf. Qed.

Lemma registry_foldM {A} (f : ValidatorSet -> A -> res ValidatorSet) l s s' :
  (forall s a s', f s a = Ok s' -> registry s' = registry s) ->
  foldM f s l = Ok s' -> registry s' = registry s.
Proof.
  intros Hf. apply (foldM_inv (fun s' => registry s' = registry s)); [|done].
  intros s1 a s2 _ <- E. eauto.
Qed.

Lemma registry_clear_share s v : registry (clear_share s v) = registry s.
Proof. unfold clear_share. by case_match. Qed.

Lemma registry_exclude_exiting l s v : registry (exclude_exiting l s v) = registry s.
Proof. unfold exclude_exiting. by case_match. Qed.

Lemma registry_reset_epoch_counters s v : registry (reset_epoch_counters s v) = registry s.
Proof. unfold reset_epoch_counters. by case_match. Qed.

Lemma registry_activate_member s a s' : activate_member s a = Ok s' -> registry s' = registry s.
Proof. unfold activate_member. intros E. inv_oks; done. Qed.

Lemma registry_activate_reshared_set s l h s' :
  activate_reshared_set s l h = Ok s' -> registry s' = registry s.
Proof.
  unfold activate_reshared_set. intros E. inv_oks.
  etransitivity; [apply (registry_foldl (exclude_exiting l)); auto using registry_exclude_exiting|].
  etransitivity; [eapply registry_foldM; eauto using registry_activate_member|].
  apply registry_foldl, registry_clear_share.
Qed.

Lemma registry_update_epoch s ts bn s' : update_epoch s ts bn = Ok s' -> registry s' = registry s.
Proof.
  unfold update_epoch. intros E. inv_oks.
  etransitivity; [|apply (registry_foldl reset_epoch_counters); auto using registry_reset_epoch_counters].
  done.
Qed.

Lemma registry_record_participation s v a s' :
  record_participation s v a = Ok s' -> registry s' = registry s.
Proof.
  unfold record_participation. intros E. inv_ok_step E.
  eapply registry_foldM; [|exact E]. intros. simpl in *. by inv_oks.
Qed.

Lemma registry_record_finalized s v a s' :
  record_finalized_participation s v a = Ok s' -> registry s' = registry s.
Proof.
  unfold record_finalized_participation. intros E. inv_ok_step E.
  eapply registry_foldM; [|exact E]. intros. simpl in *. by inv_oks.
Qed.

Lemma registry_punish env s a j s' : punish_validator env s a j = Ok s' -> registry s' = registry s.
Proof. unfold punish_validator. intros E. destruct j; by inv_oks. Qed.

Lemma registry_finalized_hook s fb v a s' :
  hook_record_finalized_participation s fb v a = Ok s' -> registry s' = registry s.
Proof.
  unfold hook_record_finalized_participation. intros E.
  assert (E' : s' = s \/ exists s1, record_finalized_participation s v a = Ok s1 /\ registry s' = registry s1).
  { destruct v, a; [by inv_oks; left| | |];
      (inv_ok_step E; [inv_oks; by left|]; inv_ok_step E; inv_ok E; right; eexists; split; [done|]; by case_match). }
  destruct E' as [->|(s1 & E1 & ->)]; [done|]. by eapply registry_record_finalized.
Qed.

(** Reading back a written key. *)
Lemma read_write_pubkey s a pk :
  length pk = 48%nat -> read_consensus_pubkey (write_consensus_pubkey s a pk) a = pk.
Proof.
  intros Hl. unfold read_consensus_pubkey, write_consensus_pubkey.
  cbn [val_consensus_pubkey_lo val_consensus_pubkey_hi wr_val_consensus_pubkey_lo wr_val_consensus_pubkey_hi].
  rewrite !rd_insert_eq. simpl b32.
  rewrite take_app_le by (rewrite length_take, length_drop; lia).
  rewrite take_take. rewrite <- (take_drop 32 pk) at 3. f_equal.
  apply take_ge. rewrite length_drop. lia.
Qed.

Lemma read_write_pubkey_ne s a a' pk :
  a <> a' -> read_consensus_pubkey (write_consensus_pubkey s a pk) a' = read_consensus_pubkey s a'.
Proof.
  intros Hne. unfold read_consensus_pubkey, write_consensus_pubkey.
  cbn [val_consensus_pubkey_lo val_consensus_pubkey_hi wr_val_consensus_pubkey_lo wr_val_consensus_pubkey_hi].
  by rewrite !rd_insert_ne.
Qed.

(** The three ways the registry changes: a new entry is appended, an entry gets
    a new key, an entry is removed. *)
Definition append_entry (s : ValidatorSet) (a : Address) (pk : list Z) : ValidatorSet :=
  let n := wadd 32 (validator_count s) 1 in
  let s := wr_address_to_index s a n in
  let s := wr_index_to_address s n a in
  let s := write_consensus_pubkey s a pk in
  let s := wr_consensus_pubkey_hash_to_address s (consensus_pubkey_hash pk) a in
  set_validator_count s n.

Definition rekey_entry (s : ValidatorSet) (a : Address) (pk : list Z) : ValidatorSet :=
  let s := wr_consensus_pubkey_hash_to_address s
             (consensus_pubkey_hash (read_consensus_pubkey s a)) 0 in
  let s := write_consensus_pubkey s a pk in
  wr_consensus_pubkey_hash_to_address s (consensus_pubkey_hash pk) a.

Lemma registry_register env s c a pk sig s' :
  register_validator_with_sig env s c a pk sig = Ok s' ->
  let owner := rd (consensus_pubkey_hash_to_address s) (consensus_pubkey_hash pk) in
  (owner = 0 \/ owner = a) /\
  (rd (address_to_index s) a = 0 /\ registry s' = registry (append_entry s a pk) \/
   rd (address_to_index s) a <> 0 /\ rd (val_status s) a = status.INACTIVE /\
   registry s' = registry (rekey_entry s a pk)).
Proof.
  unfold register_validator_with_sig. intros E. cbv zeta in E.
  do 4 inv_ok_step E. apply negb_true_iff, andb_false_iff in E3.
  split; [destruct E3; bools; auto|].
  inv_ok_step E; [right|left]; inv_ok E; bools; done.
Qed.

(** Key reads depend on the two key slots only. *)
Lemma read_pubkey_ext s s' a :
  val_consensus_pubkey_lo s' = val_consensus_pubkey_lo s ->
  val_consensus_pubkey_hi s' = val_consensus_pubkey_hi s ->
  read_consensus_pubkey s' a = read_consensus_pubkey s a.
Proof. unfold read_consensus_pubkey. by intros -> ->. Qed.

Lemma read_pubkey_write s a b pk :
  length pk = 48%nat ->
  read_consensus_pubkey (write_consensus_pubkey s a pk) b =
  if decide (a = b) then pk else read_consensus_pubkey s b.
Proof. intros. case_decide; subst; [by apply read_write_pubkey|by apply read_write_pubkey_ne]. Qed.

Lemma append_entry_ok s a pk :
  registry_ok s -> a <> 0 -> length pk = 48%nat -> validator_count s < MAX_U32 ->
  rd (address_to_index s) a = 0 ->
  (let owner := rd (consensus_pubkey_hash_to_address s) (consensus_pubkey_hash pk) in
   owner = 0 \/ owner = a) ->
  registry_ok (append_entry s a pk).
Proof.
  intros [Hc Hi Ha Hz Hk] Ha0 Hlen Hmax Hnew Hown. unfold MAX_U32, fits in *.
  set (n := validator_count s + 1).
  assert (Hn : wadd 32 (validator_count s) 1 = n) by (apply wadd_small; lia).
  assert (E1 : address_to_index (append_entry s a pk) = <[a := n]> (address_to_index s)) by (by rewrite <- Hn).
  assert (E2 : index_to_address (append_entry s a pk) = <[n := a]> (index_to_address s)) by (by rewrite <- Hn).
  assert (E3 : validator_count (append_entry s a pk) = n) by done.
  assert (E4 : consensus_pubkey_hash_to_address (append_entry s a pk)
    = <[consensus_pubkey_hash pk := a]> (consensus_pubkey_hash_to_address s)) by done.
  split; rewrite ?E1, ?E2, ?E3, ?E4; unfold fits.
  - lia.
  - intros b Hb. rewrite rd_insert in Hb |- *. case_decide; subst.
    + rewrite rd_insert_eq. lia.
    + destruct (Hi b Hb). rewrite rd_insert_ne by lia. split; [lia|done].
  - intros i Hr. destruct (decide (i = n)) as [->|]; [by rewrite !rd_insert_eq|].
    rewrite (rd_insert_ne _ n) by done.
    rewrite rd_insert_ne; [apply Ha; lia|]. intros ->. rewrite Ha in Hnew by lia. lia.
  - by rewrite rd_insert_ne.
  - intros b Hb.
    change (read_consensus_pubkey (append_entry s a pk) b)
      with (read_consensus_pubkey (write_consensus_pubkey s a pk) b).
    rewrite read_pubkey_write by done. case_decide; subst; [by rewrite rd_insert_eq|].
    rewrite rd_insert_ne in Hb by done. rewrite rd_insert_ne; [by apply Hk|].
    intros E. specialize (Hk b Hb). rewrite <- E in Hk. simpl in Hown. rewrite Hk in Hown.
    destruct Hown as [Hb0|Hb0]; [by rewrite Hb0, Hz in Hb|done].
Qed.

Lemma rekey_entry_ok s a pk :
  registry_ok s -> length pk = 48%nat -> rd (address_to_index s) a <> 0 ->
  (let owner := rd (consensus_pubkey_hash_to_address s) (consensus_pubkey_hash pk) in
   owner = 0 \/ owner = a) ->
  registry_ok (rekey_entry s a pk).
Proof.
  intros [Hc Hi Ha Hz Hk] Hlen Hreg Hown. simpl in Hown.
  split; try done. intros b Hb.
  change (read_consensus_pubkey (rekey_entry s a pk) b)
    with (read_consensus_pubkey (write_consensus_pubkey s a pk) b).
  change (consensus_pubkey_hash_to_address (rekey_entry s a pk)) with
    (<[consensus_pubkey_hash pk := a]>
       (<[consensus_pubkey_hash (read_consensus_pubkey s a) := 0]> (consensus_pubkey_hash_to_address s))).
  change (address_to_index (rekey_entry s a pk)) with (address_to_index s) in Hb.
  rewrite read_pubkey_write by done. case_decide; subst; [by rewrite rd_insert_eq|].
  pose proof (Hk b Hb) as Kb. pose proof (Hk a Hreg) as Ka.
  rewrite !rd_insert_ne; [done| |]; intros E; rewrite <- E in Kb; [congruence|].
  rewrite Kb in Hown. destruct Hown as [Hb0|Hb0]; [by rewrite Hb0, Hz in Hb|done].
Qed.

Lemma register_registry_ok env s c a pk sig s' :
  registry_ok s -> a <> 0 -> length pk = 48%nat -> validator_count s < MAX_U32 ->
  register_validator_with_sig env s c a pk sig = Ok s' -> registry_ok s'.
Proof.
  intros Hok Ha Hl Hc E. apply registry_register in E as [Hown [[H0 E]|(H0 & _ & E)]];
    eapply registry_ok_ext; try exact E; auto using append_entry_ok, rekey_entry_ok.
Qed.

Lemma register_grows env s c a pk sig s' n :
  registry_ok s -> a <> 0 -> length pk = 48%nat -> validator_count s <= n -> n < MAX_U32 ->
  register_validator_with_sig env s c a pk sig = Ok s' ->
  registry_ok s' /\ validator_count s' <= n + 1.
Proof.
  intros Hok Ha Hl Hc Hn E. split; [eapply register_registry_ok; eauto; lia|].
  pose proof (ro_count _ Hok) as [? ?]. unfold MAX_U32 in *.
  apply registry_register in E as [_ [[_ [= _ _ Ec _ _ _]]|(_ & _ & [= _ _ Ec _ _ _])]]; rewrite Ec.
  - cbn [append_entry validator_count set_validator_count]. rewrite wadd_small; lia.
  - cbn. lia.
Qed.

(** *** Removal *)

Lemma get_validator_None s a : get_validator s a = None <-> rd (address_to_index s) a = 0.
Proof. unfold get_validator. case_match eqn:E; bools; naive_solver. Qed.

(** What [clear_validator_storage] and [swap_remove] leave of the other slots. *)
Lemma swap_remove_frame s addr i count b :
  b <> addr -> (i < count -> rd (index_to_address s) count <> 0 /\
                rd (address_to_index s) (rd (index_to_address s) count) <> 0) -> 0 < i ->
  get_validator (swap_remove s addr i count) b = get_validator s b.
Proof.
  intros Hne Hlast Hi. unfold swap_remove, clear_validator_storage, write_consensus_pubkey.
  case_match eqn:Hlt; bools.
  - specialize (Hlast Hlt) as [_ Hlast]. unfold get_validator, read_consensus_pubkey. simpl.
    rewrite !(rd_insert_ne _ addr) by done.
    rewrite rd_insert. case_decide as Hd; [|done]. rewrite Hd in Hlast.
    by rewrite !(proj2 (Z.eqb_neq _ _)) by lia.
  - unfold get_validator, read_consensus_pubkey. simpl. by rewrite !rd_insert_ne by done.
Qed.

Lemma swap_remove_gone s addr i count : get_validator (swap_remove s addr i count) addr = None.
Proof. apply get_validator_None. unfold swap_remove. simpl. apply rd_insert_eq. Qed.

Lemma swap_remove_i2a s addr i count :
  index_to_address (swap_remove s addr i count) =
  <[count := 0]> (if i <? count then <[i := rd (index_to_address s) count]> (index_to_address s)
                  else index_to_address s).
Proof. unfold swap_remove. by destruct (i <? count). Qed.

Lemma swap_remove_a2i s addr i count :
  address_to_index (swap_remove s addr i count) =
  <[addr := 0]> (if i <? count then <[rd (index_to_address s) count := i]> (address_to_index s)
                 else address_to_index s).
Proof. unfold swap_remove. by destruct (i <? count). Qed.

Lemma swap_remove_index s addr i count j :
  j <> count -> rd (index_to_address (swap_remove s addr i count)) j =
  if decide (j = i /\ i < count) then rd (index_to_address s) count else rd (index_to_address s) j.
Proof.
  intros Hj. rewrite swap_remove_i2a, rd_insert_ne by done. destruct (i <? count) eqn:Hlt; bools.
  - rewrite rd_insert. repeat case_decide; done || lia.
  - case_decide; [lia|done].
Qed.

Lemma swap_remove_address s addr i count b :
  rd (address_to_index (swap_remove s addr i count)) b =
  if decide (b = addr) then 0
  else if decide (i < count /\ b = rd (index_to_address s) count) then i
  else rd (address_to_index s) b.
Proof.
  rewrite swap_remove_a2i, rd_insert. destruct (i <? count) eqn:Hlt; bools.
  - rewrite rd_insert. repeat case_decide; done || lia.
  - repeat case_decide; done || lia.
Qed.

Lemma swap_remove_key s addr i count b :
  b <> addr ->
  rd (consensus_pubkey_hash_to_address s) (consensus_pubkey_hash (read_consensus_pubkey s addr)) = addr ->
  rd (consensus_pubkey_hash_to_address s) (consensus_pubkey_hash (read_consensus_pubkey s b)) = b ->
  rd (consensus_pubkey_hash_to_address (swap_remove s addr i count))
     (consensus_pubkey_hash (read_consensus_pubkey (swap_remove s addr i count) b)) = b.
Proof.
  intros Hne Ka Kb.
  assert (E : consensus_pubkey_hash_to_address (swap_remove s addr i count) =
    <[consensus_pubkey_hash (read_consensus_pubkey s addr) := 0]> (consensus_pubkey_hash_to_address s))
    by (unfold swap_remove; by case_match).
  assert (E' : read_consensus_pubkey (swap_remove s addr i count) b =
               read_consensus_pubkey (write_consensus_pubkey s addr (replicate 48 0)) b)
    by (unfold swap_remove; by case_match).
  rewrite E, E', read_write_pubkey_ne by done.
  rewrite rd_insert_ne; [done|]. congruence.
Qed.

(** Removing the entry at index [i] keeps the registry well formed. *)
Lemma swap_remove_ok s i count :
  registry_ok (set_validator_count s count) -> 1 <= i <= count ->
  registry_ok (set_validator_count (swap_remove s (rd (index_to_address s) i) i count) (count - 1)).
Proof.
  intros [Hc Hi Ha Hz Hk] Hr. cbn [validator_count address_to_index index_to_address
    consensus_pubkey_hash_to_address set_validator_count] in *.
  set (addr := rd (index_to_address s) i).
  assert (Hlast : rd (address_to_index s) (rd (index_to_address s) count) = count) by (apply Ha; lia).
  assert (Hai : rd (address_to_index s) addr = i) by (apply Ha; lia).
  unfold fits in Hc. split; cbn [validator_count address_to_index index_to_address
    consensus_pubkey_hash_to_address set_validator_count].
  - unfold fits. lia.
  - intros b. rewrite swap_remove_address. repeat case_decide; [done| |].
    + intros _. split; [lia|]. rewrite swap_remove_index by lia. rewrite decide_True by lia. by destruct H1.
    + intros Hb. destruct (Hi b Hb) as [Hb1 Hb2].
      assert (rd (address_to_index s) b <> i) by (intros Hbi; rewrite Hbi in Hb2; done).
      assert (rd (address_to_index s) b <> count).
      { intros Hbc. rewrite Hbc in Hb2. destruct (decide (i < count)); [by destruct H1|].
        assert (i = count) by lia. congruence. }
      split; [lia|]. rewrite swap_remove_index by lia. rewrite decide_False by lia. done.
  - intros j Hj. rewrite swap_remove_index by lia. rewrite swap_remove_address.
    destruct (decide (j = i /\ i < count)) as [Hd|Hd].
    + destruct Hd as [-> Hlt]. rewrite decide_False; [by rewrite decide_True|]. intros E. rewrite E in Hlast. lia.
    + assert (Hja : rd (address_to_index s) (rd (index_to_address s) j) = j) by (apply Ha; lia).
      rewrite decide_False; [rewrite decide_False; [done|]|].
      * intros [Hlt E]. rewrite E, Hlast in Hja. lia.
      * intros E. rewrite E, Hai in Hja. lia.
  - rewrite swap_remove_address. repeat case_decide; [done| |done].
    destruct H1 as [_ E]. rewrite <- E, Hz in Hlast. lia.
  - intros b Hb. rewrite swap_remove_address in Hb.
    change (read_consensus_pubkey (set_validator_count (swap_remove s addr i count) (count - 1)) b)
      with (read_consensus_pubkey (swap_remove s addr i count) b).
    assert (Hreg : b <> addr /\ rd (address_to_index s) b <> 0).
    { case_decide; [done|]. split; [done|]. case_decide; [|done]. destruct H1 as [_ ->]. lia. }
    apply swap_remove_key; [apply Hreg|apply Hk; lia|apply Hk, Hreg].
Qed.

Lemma swap_remove_status s addr i count :
  val_status (swap_remove s addr i count) = <[addr := 0]> (val_status s).
Proof. unfold swap_remove. by destruct (i <? count). Qed.

(** [a] was registered as INACTIVE in [s0] and is gone from [s]. *)
Definition dropped (s0 s : ValidatorSet) (a : Address) : Prop :=
  get_validator s a = None /\
  exists v, get_validator s0 a = Some v /\ vstatus v = status.INACTIVE.

Definition kept_or_dropped (s0 s : ValidatorSet) : Prop :=
  forall a, get_validator s a = get_validator s0 a \/ dropped s0 s a.

Lemma get_validator_status s a v : get_validator s a = Some v -> vstatus v = rd (val_status s) a.
Proof. unfold get_validator. case_match; [done|]. by intros [= <-]. Qed.

Lemma get_validator_Some s a : rd (address_to_index s) a <> 0 -> exists v, get_validator s a = Some v.
Proof. destruct (get_validator s a) eqn:E; [eauto|]. by apply get_validator_None in E. Qed.

Lemma swap_remove_kept s0 s i count :
  registry_ok (set_validator_count s count) -> 1 <= i <= count ->
  rd (val_status s) (rd (index_to_address s) i) = status.INACTIVE ->
  kept_or_dropped s0 s -> kept_or_dropped s0 (swap_remove s (rd (index_to_address s) i) i count).
Proof.
  intros [Hc Hi Ha Hz Hk] Hr Hst Hkd b.
  cbn [validator_count address_to_index index_to_address set_validator_count] in *.
  destruct (decide (b = rd (index_to_address s) i)) as [->|Hne].
  - right. split; [apply swap_remove_gone|].
    destruct (get_validator_Some s (rd (index_to_address s) i)) as [v Hv]; [rewrite Ha; lia|].
    destruct (Hkd (rd (index_to_address s) i)) as [E|[E _]]; [|congruence].
    exists v. split; [congruence|]. by rewrite (get_validator_status _ _ _ Hv).
  - unfold dropped. rewrite swap_remove_frame; [apply Hkd|done| |lia].
    intros Hlt. rewrite Ha by lia. split; [|lia]. intros E. specialize (Ha count). rewrite E in Ha. lia.
Qed.

Lemma cleanup_loop_spec remaining max s0 s i count removed s' count' removed' :
  registry_ok (set_validator_count s count) -> 1 <= i ->
  Z.of_nat remaining = count - i + 1 -> 0 <= removed ->
  kept_or_dropped s0 s ->
  (forall j, 1 <= j < i -> rd (val_status s) (rd (index_to_address s) j) <> status.INACTIVE) ->
  cleanup_loop remaining max s i count removed = (s', count', removed') ->
  registry_ok (set_validator_count s' count') /\ count' + removed' = count + removed /\
  removed <= removed' /\ (0 < max -> removed <= max -> removed' <= max) /\
  kept_or_dropped s0 s' /\
  (max = 0 \/ removed' < max -> forall a, rd (address_to_index s') a <> 0 ->
     rd (val_status s') a <> status.INACTIVE).
Proof.
  revert s i count removed. induction remaining as [|n IH]; intros s i count removed Hok Hi Hrem Hre Hkd Hlow.
  - intros [= <- <- <-]. split_and!; try done. intros _ a Ha.
    destruct Hok as [_ Hx _ _ _]. destruct (Hx a Ha) as [Hb <-]. apply Hlow. simpl in *. lia.
  - cbn [cleanup_loop]. case_match eqn:Hstop.
    { intros [= <- <- <-]. bools. split_and!; try done. lia. }
    assert (Hnz : rd (index_to_address s) i <> 0).
    { destruct Hok as [_ _ Ha Hz _]. intros E. specialize (Ha i). simpl in *. rewrite E, Hz in Ha. lia. }
    rewrite (proj2 (Z.eqb_neq _ _)) by done.
    case_match eqn:Hst; bools; intros E.
    + refine (IH s (i + 1) count removed Hok _ _ _ Hkd _ E); [lia..|].
      intros j Hj. destruct (decide (j = i)) as [->|]; [done|]. apply Hlow. lia.
    + assert (Hr : 1 <= i <= count) by lia.
      eapply IH in E as (? & ? & ? & Hmx & ? & ?);
        [|by apply swap_remove_ok|lia|lia|lia|by apply swap_remove_kept|].
      { split_and!; try done; lia. }
      intros j Hj. rewrite swap_remove_index by lia. rewrite decide_False by lia.
      rewrite swap_remove_status, rd_insert_ne; [apply Hlow; lia|].
      intros E'. destruct Hok as [_ _ Ha _ _]. pose proof (Ha i). pose proof (Ha j). simpl in *.
      rewrite E' in *. lia.
Qed.

(** *** Enumeration *)

Lemma get_validator_address s a v : get_validator s a = Some v -> validator_address v = a.
Proof. unfold get_validator. case_match; [done|]. by intros [= <-]. Qed.

Lemma get_validator_pubkey s a v :
  get_validator s a = Some v ->
  rd (address_to_index s) a <> 0 /\ consensus_pubkey v = read_consensus_pubkey s a.
Proof. unfold get_validator. case_match; [done|]. bools. by intros [= <-]. Qed.

(** The enumeration in index order, without the guards: on a well-formed
    registry none of them fires. *)
Lemma get_all_validators_map s :
  registry_ok s ->
  validator_address <$> get_all_validators s = (rd (index_to_address s)) <$> seqZ 1 (validator_count s).
Proof.
  intros [Hc Hi Ha Hz Hk]. unfold get_all_validators. cbv zeta.
  assert (Hin : forall i, i ∈ seqZ 1 (validator_count s) -> 1 <= i <= validator_count s)
    by (intros i ?%elem_of_seqZ; lia).
  induction (seqZ 1 (validator_count s)) as [|i l IH]; [done|].
  assert (Hr : 1 <= i <= validator_count s) by (apply Hin; left).
  assert (Hidx : rd (address_to_index s) (rd (index_to_address s) i) = i) by (by apply Ha).
  destruct (get_validator_Some s (rd (index_to_address s) i)) as [v Hv]; [lia|].
  cbn [omap list_omap]. rewrite (proj2 (Z.eqb_neq _ _)), Hv by (intros E; rewrite E in Hidx; lia).
  rewrite !fmap_cons, (get_validator_address _ _ _ Hv). f_equal. apply IH. intros. apply Hin. by right.
Qed.

Lemma elem_of_get_all s v :
  registry_ok s ->
  v ∈ get_all_validators s <-> get_validator s (validator_address v) = Some v.
Proof.
  intros [Hc Hi Ha Hz Hk]. unfold get_all_validators. cbv zeta. rewrite list_elem_of_omap. split.
  - intros (i & _ & Hv). case_match; [done|].
    by rewrite (get_validator_address _ _ _ Hv).
  - intros Hv.
    assert (Hreg : rd (address_to_index s) (validator_address v) <> 0)
      by (rewrite <- get_validator_None; congruence).
    destruct (Hi _ Hreg) as [Hr E]. exists (rd (address_to_index s) (validator_address v)).
    split; [apply elem_of_seqZ; lia|]. rewrite E. case_match eqn:E0; [|done]. bools. by rewrite E0 in Hreg.
Qed.

Lemma NoDup_get_all s : registry_ok s -> NoDup (validator_address <$> get_all_validators s).
Proof.
  intros Hok. rewrite get_all_validators_map by done. destruct Hok as [Hc Hi Ha Hz Hk].
  apply NoDup_fmap_2_strong; [|apply NoDup_seqZ].
  intros i j ?%elem_of_seqZ ?%elem_of_seqZ E.
  rewrite <- (Ha i), <- (Ha j), E by lia. done.
Qed.

(** *** Reshare activation *)

Lemma forallb_ext_elem {A} (f g : A -> bool) l :
  (forall a, a ∈ l -> f a = g a) -> forallb f l = forallb g l.
Proof.
  induction l as [|a l IH]; intros Hfg; [done|]. cbn [forallb].
  rewrite Hfg by left. f_equal. apply IH. intros. apply Hfg. by right.
Qed.

Lemma in_set_true l a : in_set l a = true <-> a ∈ l.
Proof.
  unfold in_set. rewrite existsb_exists, list_elem_of_In. split.
  - intros (x & Hx & E). bools. by subst.
  - intros. exists a. split; [done|]. apply Z.eqb_refl.
Qed.

(** The statuses a member of the new committee may come from. *)
Definition eligible (s : ValidatorSet) (a : Address) : bool :=
  negb (rd (address_to_index s) a =? 0) && ((rd (val_status s) a =? status.REGISTERED)
    || (rd (val_status s) a =? status.PENDING) || (rd (val_status s) a =? status.ACTIVE)).

Lemma foldl_clear_share all s :
  let s' := foldl clear_share s all in
  val_status s' = val_status s /\
  forall a, rd (val_has_bls_share s') a =
    rd (val_has_bls_share s) a && negb (existsb (fun v => has_bls_share v && (validator_address v =? a)) all).
Proof.
  revert s. induction all as [|v all IH]; intros s; cbn [foldl existsb].
  - split; [done|]. intros. by rewrite andb_true_r.
  - destruct (IH (clear_share s v)) as [E1 E2]. unfold clear_share in E1, E2 |- *.
    destruct (has_bls_share v); [|done]. split; [done|]. intros a. rewrite E2.
    cbn [val_has_bls_share wr_val_has_bls_share]. rewrite rd_insert.
    case_decide; subst; [by rewrite Z.eqb_refl, !andb_false_r|].
    by rewrite (proj2 (Z.eqb_neq _ _)).
Qed.

(** Clearing over the whole enumeration leaves no registered share. *)
Lemma clear_all_shares s a :
  registry_ok s -> rd (address_to_index s) a <> 0 ->
  rd (val_has_bls_share (foldl clear_share s (get_all_validators s))) a = false.
Proof.
  intros Hok Ha. destruct (foldl_clear_share (get_all_validators s) s) as [_ E]. rewrite E.
  destruct (rd (val_has_bls_share s) a) eqn:Hs; [|done]. apply negb_false_iff, existsb_exists.
  destruct (get_validator_Some s a Ha) as [v Hv]. pose proof (get_validator_address _ _ _ Hv) as Ea.
  exists v. split.
  - apply list_elem_of_In, elem_of_get_all; [done|]. by rewrite Ea.
  - rewrite Ea, Z.eqb_refl, andb_true_r. unfold get_validator in Hv. case_match; [done|].
    by injection Hv as <-.
Qed.

(** [s'] is [s] after the members of [l] were activated. *)
Definition activated (l : list Address) (s s' : ValidatorSet) : Prop :=
  registry s' = registry s /\
  (forall b, rd (val_status s') b = if in_set l b then status.ACTIVE else rd (val_status s) b) /\
  (forall b, rd (val_has_bls_share s') b = in_set l b || rd (val_has_bls_share s) b).

Lemma activate_member_spec s a :
  if eligible s a then exists s', activate_member s a = Ok s' /\ activated [a] s s'
  else exists e, activate_member s a = Err e.
Proof.
  unfold eligible, activate_member, activated, in_set. cbv zeta. cbn [existsb].
  destruct (negb (rd (address_to_index s) a =? 0)); [|cbn; eauto].
  destruct ((rd (val_status s) a =? status.REGISTERED) || (rd (val_status s) a =? status.PENDING)) eqn:E1;
    [|destruct (rd (val_status s) a =? status.ACTIVE) eqn:E2; [|cbn; eauto]]; cbn [andb orb];
    (eexists; split; [done|]; split; [done|]; split; intros b; simpl; rewrite ?orb_false_r, ?rd_insert;
     repeat case_decide; subst; rewrite ?Z.eqb_refl; try done;
     rewrite ?(proj2 (Z.eqb_neq _ _)) by congruence; try done).
  destruct (b =? a) eqn:E; bools; by subst.
Qed.

Lemma activated_eligible l s s' a : activated l s s' -> eligible s a = true -> eligible s' a = true.
Proof.
  unfold eligible. intros ([= Ea _ _ _ _ _] & Hs & _) Hel. rewrite Ea, Hs.
  destruct (in_set l a); [|done]. apply andb_prop in Hel as [-> _]. done.
Qed.

Lemma activated_eligible_inv l s s' a :
  activated l s s' -> in_set l a = false -> eligible s' a = eligible s a.
Proof. unfold eligible. intros ([= Ea _ _ _ _ _] & Hs & _) Hl. by rewrite Ea, Hs, Hl. Qed.

Lemma foldM_activate_spec l s :
  if forallb (eligible s) l then exists s', foldM activate_member s l = Ok s' /\ activated l s s'
  else exists e, foldM activate_member s l = Err e.
Proof.
  revert s; induction l as [|a l IH]; intros s; cbn [forallb foldM].
  - exists s. unfold activated, in_set. by split_and!.
  - pose proof (activate_member_spec s a) as Ha. destruct (eligible s a) eqn:Ea; cbn [andb].
    2:{ destruct Ha as [e ->]. eauto. }
    destruct Ha as (s1 & -> & H1). specialize (IH s1).
    assert (forallb (eligible s1) l = forallb (eligible s) l) as Heq.
    { apply forallb_ext_elem. intros b _. destruct (in_set [a] b) eqn:Eb.
      - apply in_set_true, list_elem_of_singleton in Eb as ->. rewrite Ea. by eapply activated_eligible.
      - by eapply activated_eligible_inv. }
    rewrite Heq in IH. destruct (forallb (eligible s) l); [|done].
    destruct IH as (s2 & -> & H2). exists s2. split; [done|].
    destruct H1 as (R1 & S1 & B1), H2 as (R2 & S2 & B2). split; [by rewrite R2, R1|].
    split; intros b; rewrite ?S2, ?B2, ?S1, ?B1; unfold in_set; cbn [existsb];
      destruct (existsb (Z.eqb b) l), (b =? a); done.
Qed.

Lemma foldl_exclude_exiting l all s :
  let s' := foldl (exclude_exiting l) s all in
  let hit b := existsb (fun v => (vstatus v =? status.EXITING)
                 && negb (in_set l (validator_address v)) && (validator_address v =? b)) all in
  (forall b, rd (val_status s') b = if hit b then status.UNBONDING else rd (val_status s) b) /\
  (forall b, rd (val_has_bls_share s') b = rd (val_has_bls_share s) b && negb (hit b)).
Proof.
  revert s. induction all as [|v all IH]; intros s; cbn [foldl existsb].
  - split; [done|]. intros. by rewrite andb_true_r.
  - destruct (IH (exclude_exiting l s v)) as [E1 E2]. cbv zeta in E1, E2 |- *.
    unfold exclude_exiting in E1, E2 |- *.
    destruct ((vstatus v =? status.EXITING) && negb (in_set l (validator_address v))); cbn [andb orb]; [|done].
    split; intros b; rewrite ?E1, ?E2; cbn [val_status val_has_bls_share wr_val_status wr_val_has_bls_share];
      rewrite rd_insert; (destruct (decide (validator_address v = b)) as [<-|Hne];
        [rewrite Z.eqb_refl; cbn [orb negb]; rewrite ?andb_false_r; by destruct existsb
        |rewrite (proj2 (Z.eqb_neq _ _)) by done; done]).
Qed.

(** Over the whole enumeration the excluded ones are the registered EXITING
    validators outside the new set. *)
Lemma exiting_hit l s b :
  registry_ok s ->
  existsb (fun v => (vstatus v =? status.EXITING) && negb (in_set l (validator_address v))
                    && (validator_address v =? b)) (get_all_validators s) =
  negb (rd (address_to_index s) b =? 0) && (rd (val_status s) b =? status.EXITING) && negb (in_set l b).
Proof.
  intros Hok. apply eq_iff_eq_true. rewrite existsb_exists, !andb_true_iff. split.
  - intros (v & Hv & Hc). apply list_elem_of_In, elem_of_get_all in Hv; [|done].
    apply andb_prop in Hc as [[Hc1 Hc2]%andb_prop <-%Z.eqb_eq].
    rewrite <- (get_validator_status _ _ _ Hv). apply get_validator_pubkey in Hv as [Hr _].
    by rewrite (proj2 (Z.eqb_neq _ _)).
  - intros [[Hr Hst] Hin]. apply negb_true_iff, Z.eqb_neq in Hr.
    destruct (get_validator_Some s b Hr) as [v Hv]. pose proof (get_validator_address _ _ _ Hv) as Ea.
    exists v. split; [apply list_elem_of_In, elem_of_get_all; [done|by rewrite Ea]|].
    by rewrite (get_validator_status _ _ _ Hv), Ea, Hst, Hin, Z.eqb_refl.
Qed.

Lemma all_active_covered l s :
  registry_ok s ->
  forallb (fun v => in_set l (validator_address v)) (get_active_validators s) = true <->
  forall b, rd (address_to_index s) b <> 0 -> rd (val_status s) b = status.ACTIVE -> b ∈ l.
Proof.
  intros Hok. rewrite forallb_forall. unfold get_active_validators. split.
  - intros Hall b Hr Hst. destruct (get_validator_Some s b Hr) as [v Hv].
    pose proof (get_validator_address _ _ _ Hv) as Ea. rewrite <- Ea. apply in_set_true, Hall.
    apply list_elem_of_In, list_elem_of_filter. rewrite (get_validator_status _ _ _ Hv).
    split; [done|]. apply elem_of_get_all; [done|]. by rewrite Ea.
  - intros Hall v Hv. apply list_elem_of_In, list_elem_of_filter in Hv as [Hst Hv].
    apply elem_of_get_all in Hv; [|done]. apply in_set_true, Hall.
    + by apply get_validator_pubkey in Hv as [? _].
    + by rewrite <- (get_validator_status _ _ _ Hv).
Qed.

(** *** The replay guard of finalized participation *)

(** The abstract guard: the finalized hashes recorded so far, newest first; the
    last [FINALIZED_PARTICIPATION_RETAIN] of them are remembered. *)
Record guard_refines (hist : list B256) (s : ValidatorSet) : Prop := {
  gr_seq : finalized_participation_ring_seq s = Z.of_nat (length hist) mod 2 ^ 64;
  gr_ring : forall i, 0 <= i < 64 -> rd (finalized_participation_ring s) i =
    default 0 (hist !! Z.to_nat ((Z.of_nat (length hist) - 1 - i) mod 64));
  gr_recorded : forall h, rd (finalized_participation_recorded s) h = true <-> h ∈ take 64 hist;
  gr_nodup : NoDup (take 64 hist);
  gr_zero : 0 ∉ hist
}.

(** The write of one new hash into the guard. *)
Definition guard_push (s : ValidatorSet) (fb_hash : B256) : ValidatorSet :=
  let s := wr_finalized_participation_recorded s fb_hash true in
  let seq := finalized_participation_ring_seq s in
  let idx := seq mod FINALIZED_PARTICIPATION_RETAIN in
  let evicted := rd (finalized_participation_ring s) idx in
  let s := if negb (evicted =? 0) && negb (evicted =? fb_hash)
           then wr_finalized_participation_recorded s evicted false else s in
  let s := wr_finalized_participation_ring s idx fb_hash in
  set_finalized_participation_ring_seq s (wadd 64 seq 1).

Lemma hook_finalized_unfold s fb_hash voters absent :
  voters ++ absent <> [] ->
  hook_record_finalized_participation s fb_hash voters absent =
  if rd (finalized_participation_recorded s) fb_hash then Ok s
  else let? s := record_finalized_participation s voters absent in Ok (guard_push s fb_hash).
Proof. intros. by destruct voters, absent. Qed.

Lemma seq_index n : (n mod 2 ^ 64) mod 64 = n mod 64.
Proof. apply Z.mod_mod_divide. by exists (2 ^ 58). Qed.

Lemma ring_shift n i : 0 <= i < 64 -> i <> n mod 64 -> (n - i) mod 64 = (n - 1 - i) mod 64 + 1.
Proof.
  intros Hi Hne. pose proof (Z.div_mod n 64). pose proof (Z.mod_pos_bound n 64).
  destruct (decide (i < n mod 64)).
  - rewrite <- (Z.mod_unique (n - i) 64 (n / 64) (n mod 64 - i)) by lia.
    rewrite <- (Z.mod_unique (n - 1 - i) 64 (n / 64) (n mod 64 - 1 - i)) by lia. lia.
  - rewrite <- (Z.mod_unique (n - i) 64 (n / 64 - 1) (64 + n mod 64 - i)) by lia.
    rewrite <- (Z.mod_unique (n - 1 - i) 64 (n / 64 - 1) (63 + n mod 64 - i)) by lia. lia.
Qed.

Lemma guard_evicted hist s :
  guard_refines hist s ->
  rd (finalized_participation_ring s) (finalized_participation_ring_seq s mod 64) = default 0 (hist !! 63%nat).
Proof.
  intros [Hs Hr _ _ _]. rewrite Hs, seq_index, Hr by (apply Z.mod_pos_bound; lia).
  do 2 f_equal. rewrite Zminus_mod_idemp_r. by replace (_ - _ - _) with (-1) by lia.
Qed.

Lemma guard_push_recorded hist s h x :
  guard_refines hist s -> h <> 0 -> h ∉ take 64 hist ->
  rd (finalized_participation_recorded (guard_push s h)) x = true <-> x ∈ take 64 (h :: hist).
Proof.
  intros Hg Hh Hnew. pose proof (guard_evicted _ _ Hg) as He. destruct Hg as [Hs Hr Hrec Hnd Hz].
  set (ev := rd (finalized_participation_ring s) (finalized_participation_ring_seq s mod 64)) in *.
  assert (E : finalized_participation_recorded (guard_push s h) =
    if negb (ev =? 0) && negb (ev =? h)
    then <[ev := false]> (<[h := true]> (finalized_participation_recorded s))
    else <[h := true]> (finalized_participation_recorded s))
    by (unfold guard_push; by destruct (_ && _)).
  rewrite E. change (take 64 (h :: hist)) with (h :: take 63 hist). rewrite elem_of_cons.
  destruct (hist !! 63%nat) as [e|] eqn:E63; simpl in He; rewrite He in *.
  - rewrite (take_S_r _ _ e) in Hrec, Hnd, Hnew by done.
    assert (e <> 0) by (intros ->; apply Hz; by eapply list_elem_of_lookup_2).
    assert (e <> h) by (intros ->; apply Hnew; set_solver).
    rewrite !(proj2 (Z.eqb_neq _ _)) by done. cbn [negb andb].
    apply NoDup_app in Hnd as (_ & Hd & _).
    rewrite !rd_insert. specialize (Hrec x). rewrite elem_of_app, list_elem_of_singleton in Hrec.
    repeat case_decide; subst; set_solver.
  - rewrite Z.eqb_refl. cbn [negb andb]. rewrite rd_insert. specialize (Hrec x).
    apply lookup_ge_None in E63. rewrite take_ge in Hrec by lia. rewrite take_ge by lia.
    case_decide; subst; set_solver.
Qed.

Lemma guard_push_refines hist s h :
  guard_refines hist s -> h <> 0 -> h ∉ take 64 hist -> guard_refines (h :: hist) (guard_push s h).
Proof.
  intros Hg Hh Hnew. split.
  - change (finalized_participation_ring_seq (guard_push s h))
      with (wadd 64 (finalized_participation_ring_seq s) 1).
    rewrite (gr_seq _ _ Hg). unfold wadd. rewrite Zplus_mod_idemp_l. f_equal. cbn [length]. lia.
  - intros i Hi.
    assert (E : finalized_participation_ring (guard_push s h) =
      <[finalized_participation_ring_seq s mod 64 := h]> (finalized_participation_ring s))
      by (unfold guard_push; by destruct (_ && _)).
    rewrite E, (gr_seq _ _ Hg), seq_index, rd_insert. cbn [length].
    replace (Z.of_nat (S (length hist)) - 1 - i) with (Z.of_nat (length hist) - i) by lia.
    case_decide as Hd.
    + rewrite <- Hd, Zminus_mod_idemp_r, Z.sub_diag. done.
    + rewrite ring_shift by (done || congruence). rewrite (gr_ring _ _ Hg) by done.
      rewrite Z2Nat.inj_add, Nat.add_1_r by (try apply Z.mod_pos_bound; lia). done.
  - intros x. by apply guard_push_recorded.
  - destruct Hg as [_ _ _ Hnd _]. cbn [take]. constructor.
    + intros Hin. apply Hnew. rewrite <- (firstn_skipn 63 (take 64 hist)), take_take.
      apply elem_of_app. by left.
    + replace (take 63 hist) with (take 63 (take 64 hist)) by (by rewrite take_take).
      by eapply sublist_NoDup; [|apply sublist_take].
  - destruct Hg. set_solver.
Qed.

(** How often [b] occurs in [l]. *)
Definition occurrences (b : Address) (l : list Address) : Z := Z.of_nat (length (filter (eq b) l)).

Lemma record_finalized_spec s voters absent :
  if forallb (is_validator s) (voters ++ absent) then
    exists s', record_finalized_participation s voters absent = Ok s' /\
      s' = {| s with val_missed_votes := val_missed_votes s' |} /\
      forall b, rd (val_missed_votes s') b mod 2 ^ 64 =
                (rd (val_missed_votes s) b + occurrences b absent) mod 2 ^ 64
  else exists e, record_finalized_participation s voters absent = Err e.
Proof.
  unfold record_finalized_participation. rewrite forallb_app.
  assert (Hv : foldM (fun _ addr => if is_validator s addr then Ok tt
      else Err (Revert "finalized voter is not a registered validator")) tt voters
    = if forallb (is_validator s) voters then Ok tt
      else Err (Revert "finalized voter is not a registered validator")).
  { induction voters as [|v l IH]; [done|]. cbn [foldM forallb]. by destruct (is_validator s v). }
  rewrite Hv. destruct (forallb (is_validator s) voters); cbn [andb]; [|by eexists].
  clear Hv. revert s. induction absent as [|a l IH]; intros s; cbn [foldM forallb].
  - exists s. split; [done|]. split; [by destruct s|]. intros. by rewrite Z.add_0_r.
  - destruct (is_validator s a) eqn:Ea; cbn [andb]; [|by eexists].
    specialize (IH (add_missed_vote s a)).
    change (forallb (is_validator (add_missed_vote s a)) l) with (forallb (is_validator s) l) in IH.
    destruct (forallb (is_validator s) l); [|done].
    destruct IH as (s' & -> & E & Hm). exists s'. split; [done|]. split; [rewrite E at 1; done|].
    intros b. rewrite Hm. unfold add_missed_vote, occurrences. cbn [val_missed_votes wr_val_missed_votes].
    rewrite filter_cons. rewrite rd_insert. destruct (decide (a = b)) as [->|].
    + rewrite decide_True by done. unfold wadd. rewrite Zplus_mod_idemp_l. f_equal. cbn [length]. lia.
    + rewrite decide_False by congruence. done.
Qed.

Lemma guard_refines_ext hist s s' :
  finalized_participation_ring_seq s' = finalized_participation_ring_seq s ->
  finalized_participation_ring s' = finalized_participation_ring s ->
  finalized_participation_recorded s' = finalized_participation_recorded s ->
  guard_refines hist s -> guard_refines hist s'.
Proof. intros E1 E2 E3 []. by split; rewrite ?E1, ?E2, ?E3. Qed.

(** *** Genesis *)

(** A registry whose only written slots are the configuration. *)
Definition genesis_validator_set (owner : Address) (max epoch_length : u32) (min_stake : U256)
    (cooldown : u32) (unjail_cooldown : u64) : ValidatorSet :=
  mkVS owner max epoch_length min_stake true ∅ ∅ ∅ ∅ ∅ ∅ ∅ ∅ ∅ ∅ ∅ ∅ ∅ ∅ 0 0 0 0 ∅ false 0 cooldown
       ∅ ∅ ∅ ∅ unjail_cooldown ∅ ∅ 0 [].

Lemma genesis_registry_ok o m e ms c u : registry_ok (genesis_validator_set o m e ms c u).
Proof. split; simpl; intros; rewrite ?rd_empty in *; done || lia. Qed.

Lemma genesis_guard o m e ms c u : guard_refines [] (genesis_validator_set o m e ms c u).
Proof.
  split.
  - done.
  - intros. simpl. by rewrite rd_empty.
  - intros. simpl. rewrite rd_empty. set_solver.
  - constructor.
  - set_solver.
Qed.

(** *** Committee membership *)

Lemma participant_ext s s' b :
  address_to_index s' = address_to_index s ->
  rd (val_has_bls_share s') b = rd (val_has_bls_share s) b ->
  (rd (val_status s') b = rd (val_status s) b \/
   is_current_consensus_participant_status (rd (val_status s') b) true =
   is_current_consensus_participant_status (rd (val_status s) b) true) ->
  is_consensus_participant s' b = is_consensus_participant s b.
Proof.
  unfold is_consensus_participant. intros -> -> Hst. case_match; [done|].
  destruct Hst as [->|Hst]; [done|]. unfold is_current_consensus_participant_status in *.
  rewrite !andb_true_r in Hst. by rewrite Hst.
Qed.

Lemma deactivate_status env s c a s' :
  deactivate_validator env s c a = Ok s' ->
  rd (val_status s) a = status.ACTIVE /\ val_status s' = <[a := status.EXITING]> (val_status s) /\
  val_has_bls_share s' = val_has_bls_share s /\ registry s' = registry s.
Proof. unfold deactivate_validator. intros E. by inv_oks. Qed.

(** Status and share effects of the punitive transition. *)
Lemma punish_status env s a j s' :
  punish_validator env s a j = Ok s' ->
  (val_status s' = val_status s \/
   rd (val_status s) a = status.ACTIVE /\
   val_status s' = <[a := if j then status.JAILED else status.EXITING]> (val_status s)) /\
  val_has_bls_share s' = val_has_bls_share s /\ rd (address_to_index s) a <> 0.
Proof. unfold punish_validator. intros E. destruct j; inv_oks; (split; [by auto|done]). Qed.

Lemma mark_pending_status s a s' :
  mark_pending s a = Ok s' ->
  (val_status s' = val_status s \/
   rd (val_status s) a = status.REGISTERED /\ val_status s' = <[a := status.PENDING]> (val_status s)) /\
  val_has_bls_share s' = val_has_bls_share s /\ registry s' = registry s.
Proof. unfold mark_pending. intros E. inv_oks; (split; [by auto|done]). Qed.

Lemma confirm_status s a s' :
  confirm_validator_ready s a = Ok s' ->
  val_status s' = val_status s /\ val_has_bls_share s' = val_has_bls_share s /\ registry s' = registry s /\
  rd (val_status s) a = status.PENDING.
Proof. unfold confirm_validator_ready. intros E. by inv_oks. Qed.

Lemma unjail_status env s a s' :
  unjail_to_pending env s a = Ok s' ->
  rd (val_status s) a = status.JAILED /\ val_status s' = <[a := status.PENDING]> (val_status s) /\
  val_has_bls_share s' = val_has_bls_share s /\ registry s' = registry s /\
  saturating_add 64 (rd (val_jailed_at_height s) a) (unjail_cooldown_blocks s) <= block_number env.
Proof. unfold unjail_to_pending. intros E. by inv_oks. Qed.

(** One status entry changes between two values on the same side. *)
Lemma participant_insert s s' a x b :
  registry s' = registry s -> val_has_bls_share s' = val_has_bls_share s ->
  val_status s' = <[a := x]> (val_status s) ->
  is_current_consensus_participant_status x true =
  is_current_consensus_participant_status (rd (val_status s) a) true ->
  is_consensus_participant s' b = is_consensus_participant s b.
Proof.
  intros [= Ei _ _ _ _ _] Es Est Hx. apply participant_ext; [done|by rewrite Es|].
  rewrite Est, rd_insert. case_decide; subst; auto.
Qed.

Lemma participant_same s s' b :
  registry s' = registry s -> val_has_bls_share s' = val_has_bls_share s ->
  val_status s' = val_status s -> is_consensus_participant s' b = is_consensus_participant s b.
Proof. intros [= Ei _ _ _ _ _] Es Est. apply participant_ext; [done|by rewrite Es|left; by rewrite Est]. Qed.

Lemma register_status env s c a pk sig s' :
  register_validator_with_sig env s c a pk sig = Ok s' ->
  val_status s' = <[a := status.REGISTERED]> (val_status s).
Proof.
  unfold register_validator_with_sig. intros E. cbv zeta in E. do 4 inv_ok_step E.
  inv_ok_step E; inv_ok E; done.
Qed.

Lemma register_guards env s c a pk sig s' :
  register_validator_with_sig env s c a pk sig = Ok s' ->
  (c = config_owner s \/ c = a) /\
  (forall sg, sig = Some sg -> blst_verify pk sg (be_bytes 20 a) = true) /\
  (c = a -> (exists sg, sig = Some sg) /\
     exists n, registered_count s = Ok n /\ n < MAX_SELF_REGISTERED_UNSTAKED).
Proof.
  unfold register_validator_with_sig. intros E. cbv zeta in E. do 3 inv_ok_step E. clear E.
  apply negb_true_iff, andb_false_iff in E0.
  split; [destruct E0; bools; auto|].
  assert (Hsig : (forall sg, sig = Some sg -> blst_verify pk sg (be_bytes 20 a) = true)).
  { intros sg ->. destruct (c =? a); unfold verify_bls_registration_sig in *; by inv_oks. }
  split; [done|]. intros ->. rewrite Z.eqb_refl in *. destruct sig; [|done]. split; [by eexists|].
  destruct (registered_count s) as [n|]; [|done]. exists n. split; [done|].
  destruct (MAX_SELF_REGISTERED_UNSTAKED <=? n) eqn:En; [done|]. by bools.
Qed.

Lemma register_key env s c a pk sig s' :
  register_validator_with_sig env s c a pk sig = Ok s' -> length pk = 48%nat ->
  read_consensus_pubkey s' a = pk /\ lookup_by_pubkey_hash s' (consensus_pubkey_hash pk) = a.
Proof.
  intros E Hl. unfold lookup_by_pubkey_hash.
  assert (Hr : val_consensus_pubkey_lo s' = val_consensus_pubkey_lo (write_consensus_pubkey s a pk) /\
               val_consensus_pubkey_hi s' = val_consensus_pubkey_hi (write_consensus_pubkey s a pk) /\
               rd (consensus_pubkey_hash_to_address s') (consensus_pubkey_hash pk) = a).
  { apply registry_register in E as [_ [[_ [= _ _ _ Eh El Er]]|(_ & _ & [= _ _ _ Eh El Er])]];
      rewrite El, Er, Eh; split_and!; try done; apply rd_insert_eq. }
  destruct Hr as (E1 & E2 & E3). split; [|done].
  rewrite (read_pubkey_ext (write_consensus_pubkey s a pk)) by done. by apply read_write_pubkey.
Qed.

Lemma reshare_spec s l h :
  registry_ok s ->
  if forallb (eligible s) l && (Z.of_nat (length l) <? 2 ^ 32) then
    exists s', activate_reshared_set s l h = Ok s' /\
    registry s' = registry s /\ active_consensus_set_hash s' = h /\
    (forall a, rd (address_to_index s) a <> 0 ->
       rd (val_has_bls_share s') a = in_set l a /\
       rd (val_status s') a =
         if in_set l a then status.ACTIVE
         else if rd (val_status s) a =? status.EXITING then status.UNBONDING
         else rd (val_status s) a) /\
    (pending_set_change s' = false <->
     forall a, rd (address_to_index s) a <> 0 -> rd (val_status s') a = status.ACTIVE -> a ∈ l)
  else exists e, activate_reshared_set s l h = Err e.
Proof.
  intros Hok. unfold activate_reshared_set. cbv zeta.
  set (s1 := foldl clear_share s (get_all_validators s)).
  assert (R1 : registry s1 = registry s) by (apply registry_foldl, registry_clear_share).
  destruct (foldl_clear_share (get_all_validators s) s) as [S1 B1]. fold s1 in S1, B1.
  assert (Hel : forallb (eligible s1) l = forallb (eligible s) l).
  { apply forallb_ext_elem. intros a _. unfold eligible. injection R1 as -> _ _ _ _ _. by rewrite S1. }
  pose proof (foldM_activate_spec l s1) as HM. rewrite Hel in HM.
  destruct (forallb (eligible s) l); [|destruct HM as [e ->]; by eexists].
  destruct HM as (s2 & -> & R2 & S2 & B2). cbn [andb].
  destruct (Z.of_nat (length l) <? 2 ^ 32); [|by eexists].
  set (s3 := foldl (exclude_exiting l) s2 (get_all_validators s)).
  assert (R3 : registry s3 = registry s)
    by (etransitivity; [apply registry_foldl, registry_exclude_exiting|congruence]).
  destruct (foldl_exclude_exiting l (get_all_validators s) s2) as [S3 B3]. fold s3 in S3, B3.
  eexists; split; [done|]. split; [done|]. split; [done|].
  split.
  - intros a Ha. cbn [val_has_bls_share val_status emit set_logs set_pending_set_change set_active_consensus_set_hash].
    rewrite S3, B3, S2, B2, exiting_hit by done. unfold s1 at 1. rewrite clear_all_shares, S1 by done.
    rewrite (proj2 (Z.eqb_neq _ _)) by done. cbn [negb andb].
    destruct (in_set l a), (rd (val_status s) a =? status.EXITING); done.
  - cbn [pending_set_change emit set_logs set_pending_set_change].
    rewrite negb_false_iff, all_active_covered by (eapply registry_ok_ext; [|exact Hok]; done).
    by injection R3 as E _ _ _ _ _; rewrite <- E.
Qed.

Lemma cleanup_spec s max s' removed :
  registry_ok s -> cleanup_inactive_validators s max = (s', removed) ->
  registry_ok s' /\ validator_count s' = validator_count s - removed /\
  0 <= removed /\ (0 < max -> removed <= max) /\
  (forall a, get_validator s' a = get_validator s a \/
     get_validator s' a = None /\
     exists v, get_validator s a = Some v /\ vstatus v = status.INACTIVE) /\
  (max = 0 \/ removed < max -> forall v, v ∈ get_all_validators s' -> vstatus v <> status.INACTIVE).
Proof.
  intros Hok. unfold cleanup_inactive_validators.
  destruct (cleanup_loop _ _ _ _ _ _) as [[s1 c1] r1] eqn:E. intros [= <- <-].
  assert (0 <= validator_count s) by apply (ro_count _ Hok).
  eapply cleanup_loop_spec with (s0 := s) in E as (Hok' & Hc & Hr & Hmax & Hkd & Hall);
    [|by destruct s|lia|lia|lia|by left|lia].
  split; [done|]. split; [cbn [validator_count set_validator_count]; lia|]. split; [done|].
  split; [intros; apply Hmax; lia|]. split; [exact Hkd|].
  intros Hm v Hv. apply elem_of_get_all in Hv; [|done].
  rewrite (get_validator_status _ _ _ Hv). apply (Hall Hm). by apply get_validator_pubkey in Hv as [? _].
Qed.
End Invariant.

(** ** A concrete registry *)

(** Three validators registered by the owner; 5 and 7 form the committee, 7 is
    jailed and 6 has left. *)
Definition sample_env : BlockEnv := mkEnv 10 1000.

Definition sample_run : res ValidatorSet :=
  let register s a := register_validator (H := sample_crypto) sample_env s 1 a (replicate 48 a) in
  let? s := register (genesis_validator_set 1 10 100 1000 0 0) 5 in
  let? s := register s 6 in
  let? s := register s 7 in
  let? s := activate_reshared_set s [5; 7] 99 in
  let? s := jail_validator sample_env s 7 in
  Ok (wr_val_status s 6 status.INACTIVE).

Definition sample_validators : ValidatorSet :=
  match sample_run with Ok s => s | Err _ => genesis_validator_set 1 10 100 1000 0 0 end.

Lemma sample_run_ok : sample_run = Ok sample_validators.
Proof. vm_compute. reflexivity. Qed.

Lemma sample_registry_ok : @registry_ok sample_crypto sample_validators.
Proof.
  pose proof sample_run_ok as E. unfold sample_run, register_validator in E. cbv zeta in E.
  destruct (register_validator_with_sig _ _ _ 5 _ _) as [s1|] eqn:E1; [|done].
  destruct (register_validator_with_sig _ s1 _ 6 _ _) as [s2|] eqn:E2; [|done].
  destruct (register_validator_with_sig _ s2 _ 7 _ _) as [s3|] eqn:E3; [|done].
  destruct (activate_reshared_set s3 _ _) as [s4|] eqn:E4; [|done].
  destruct (jail_validator _ s4 _) as [s5|] eqn:E5; [|done]. apply Ok_inj in E. rewrite <- E.
  apply (registry_ok_ext s5); [done|]. eapply registry_ok_ext; [by eapply registry_punish|].
  eapply registry_ok_ext; [by eapply registry_activate_reshared_set|].
  apply (register_grows (H := sample_crypto) _ _ _ _ _ _ _ 0) in E1 as [O1 C1];
    [|apply genesis_registry_ok|done..].
  apply (register_grows (H := sample_crypto) _ _ _ _ _ _ _ 1) in E2 as [O2 C2]; [|done..].
  apply (register_grows (H := sample_crypto) _ _ _ _ _ _ _ 2) in E3 as [O3 C3]; done.
Qed.

#[local] Opaque sample_validators.

(** ** Properties *)

(** [cleanup_inactive_validators] keeps the registry well formed, removes
    only INACTIVE validators and at most [max_removals] of them (0 means no
    bound), leaves the record of every other validator as it was, reports how
    many it removed, and when it stops below the bound no INACTIVE validator is
    left. *)
Theorem cleanup_inactive_spec `{Crypto} s max s' removed :
  registry_ok s -> cleanup_inactive_validators s max = (s', removed) ->
  registry_ok s' /\ validator_count s' = validator_count s - removed /\
  0 <= removed /\ (0 < max -> removed <= max) /\
  (forall a, get_validator s' a = get_validator s a \/
     get_validator s' a = None /\
     exists v, get_validator s a = Some v /\ vstatus v = status.INACTIVE) /\
  (max = 0 \/ removed < max -> forall v, v ∈ get_all_validators s' -> vstatus v <> status.INACTIVE).
Proof. apply cleanup_spec. Qed.

Lemma cleanup_inactive_spec_witness :
  let '(s', removed) := cleanup_inactive_validators (H := sample_crypto) sample_validators 16 in
  removed = 1 /\ validator_count s' = 2 /\ get_validator s' 6 = None.
Proof.
  assert (Hr : snd (cleanup_inactive_validators (H := sample_crypto) sample_validators 16) = 1)
    by (vm_compute; reflexivity).
  assert (H6 : get_validator (fst (cleanup_inactive_validators (H := sample_crypto) sample_validators 16)) 6 = None)
    by (vm_compute; reflexivity).
  destruct (cleanup_inactive_validators sample_validators 16) as [s' r] eqn:E. cbn [fst snd] in Hr, H6.
  pose proof (@cleanup_inactive_spec sample_crypto _ _ _ _ sample_registry_ok E) as (_ & Hc & _).
  split; [done|]. split; [rewrite Hc, Hr; vm_compute; reflexivity|done].
Defined.

(** C32. The finalized-participation hook refines its abstract guard, the list of
    recorded block hashes of which the last 64 are remembered. A hash among
    them changes nothing; a new one is recorded exactly when every voter and
    every absentee is registered, and then each absentee is charged one missed
    vote per occurrence, no other slot than the counters and the guard changes,
    and the guard remembers the hash. *)
Theorem finalized_participation_refines `{Crypto} hist s fb_hash voters absent :
  guard_refines hist s -> fb_hash <> 0 -> voters ++ absent <> [] ->
  if decide (fb_hash ∈ take 64 hist) then
    hook_record_finalized_participation s fb_hash voters absent = Ok s
  else if forallb (is_validator s) (voters ++ absent) then
    exists s', hook_record_finalized_participation s fb_hash voters absent = Ok s' /\
      guard_refines (fb_hash :: hist) s' /\
      (forall b, rd (val_missed_votes s') b mod 2 ^ 64 =
                 (rd (val_missed_votes s) b + occurrences b absent) mod 2 ^ 64) /\
      s' = {| s with val_missed_votes := val_missed_votes s';
                     finalized_participation_recorded := finalized_participation_recorded s';
                     finalized_participation_ring := finalized_participation_ring s';
                     finalized_participation_ring_seq := finalized_participation_ring_seq s' |}
  else exists e, hook_record_finalized_participation s fb_hash voters absent = Err e.
Proof.
  intros Hg Hh Hne. rewrite hook_finalized_unfold by done. pose proof (gr_recorded _ _ Hg fb_hash) as Hrec.
  case_decide as Hin; [by rewrite (proj2 Hrec Hin)|].
  destruct (rd (finalized_participation_recorded s) fb_hash); [by destruct Hin; apply Hrec|].
  pose proof (record_finalized_spec s voters absent) as Hs.
  destruct (forallb (is_validator s) (voters ++ absent)); [|by destruct Hs as [e ->]; eexists].
  destruct Hs as (s1 & -> & E & Hm). eexists. split; [done|]. split; [|split].
  - apply guard_push_refines; [|done|done]. eapply guard_refines_ext; [..|exact Hg]; by rewrite E.
  - intros b. rewrite <- Hm. unfold guard_push. by destruct (_ && _).
  - rewrite E. unfold guard_push. by destruct (_ && _).
Qed.

Lemma finalized_participation_refines_witness :
  exists s', hook_record_finalized_participation sample_validators 77 [5] [7] = Ok s' /\
    guard_refines [77] s' /\ hook_record_finalized_participation s' 77 [5] [7] = Ok s'.
Proof.
  assert (Hg : guard_refines [] sample_validators).
  { eapply guard_refines_ext; [..|apply (genesis_guard 1 10 100 1000 0 0)]; reflexivity. }
  pose proof (@finalized_participation_refines sample_crypto [] sample_validators 77 [5] [7] Hg
                ltac:(done) ltac:(done)) as E.
  rewrite decide_False in E by apply not_elem_of_nil.
  assert (Hv : forallb (is_validator sample_validators) ([5] ++ [7]) = true) by (vm_compute; reflexivity).
  rewrite Hv in E. destruct E as (s' & E & Hg' & _). exists s'. split; [done|]. split; [done|].
  pose proof (@finalized_participation_refines sample_crypto [77] s' 77 [5] [7] Hg'
                ltac:(done) ltac:(done)) as E'.
  rewrite decide_True in E' by (apply elem_of_cons; by left). exact E'.
Defined.

(** Between reshares the committee is fixed: deactivation, forced exit,
    jailing, staking admission and join confirmation leave it unchanged for
    every address, so a validator that was punished or is leaving stays
    accountable (it is still counted as a consensus participant) until a
    reshare excludes it. *)
Theorem committee_stable `{Crypto} env s caller a s' :
  deactivate_validator env s caller a = Ok s' \/ force_exit_validator env s a = Ok s' \/
  jail_validator env s a = Ok s' \/ mark_pending s a = Ok s' \/ confirm_validator_ready s a = Ok s' ->
  forall b, is_consensus_participant s' b = is_consensus_participant s b.
Proof.
  intros [E|[E|[E|[E|E]]]] b.
  - apply deactivate_status in E as (Ha & ? & ? & ?). eapply participant_insert; eauto. by rewrite Ha.
  - pose proof (registry_punish _ _ _ _ _ E). apply punish_status in E as ([?|[Ha ?]] & ? & _);
      [by apply participant_same|]. eapply participant_insert; eauto. by rewrite Ha.
  - pose proof (registry_punish _ _ _ _ _ E). apply punish_status in E as ([?|[Ha ?]] & ? & _);
      [by apply participant_same|]. eapply participant_insert; eauto. by rewrite Ha.
  - apply mark_pending_status in E as ([?|[Ha ?]] & ? & ?);
      [by apply participant_same|]. eapply participant_insert; eauto. by rewrite Ha.
  - apply confirm_status in E as (? & ? & ? & _). by apply participant_same.
Qed.

Lemma committee_stable_witness :
  exists s', jail_validator sample_env sample_validators 5 = Ok s' /\ rd (val_status s') 5 = status.JAILED /\
    is_consensus_participant sample_validators 5 = true /\ is_consensus_participant s' 5 = true.
Proof.
  assert (Hj : match jail_validator sample_env sample_validators 5 with
               | Ok s' => rd (val_status s') 5 | Err _ => 0 end = status.JAILED) by (vm_compute; reflexivity).
  assert (Hp : is_consensus_participant sample_validators 5 = true) by (vm_compute; reflexivity).
  destruct (jail_validator sample_env sample_validators 5) as [s'|] eqn:E; [|discriminate Hj].
  exists s'. split; [done|]. split; [done|]. split; [done|].
  rewrite (@committee_stable sample_crypto sample_env sample_validators 0 5 s'); [done|auto].
Defined.

(** Unjailing drops a jailed committee member out of the participant set
    while it keeps its BLS share: with the share still live, the validator was a
    participant before the call and is none after it, and it is the only one
    whose membership changes. *)
Theorem unjail_drops_live_share `{Crypto} env s a s' :
  unjail_to_pending env s a = Ok s' -> rd (val_has_bls_share s) a = true ->
  is_consensus_participant s a = true /\ is_consensus_participant s' a = false /\
  rd (val_has_bls_share s') a = true /\
  forall b, b <> a -> is_consensus_participant s' b = is_consensus_participant s b.
Proof.
  intros E Hs. assert (Hidx : rd (address_to_index s) a <> 0) by (unfold unjail_to_pending in E; by inv_oks).
  apply unjail_status in E as (Hj & Est & Esh & [= Ei _ _ _ _ _] & _).
  unfold is_consensus_participant. rewrite Est, Esh, Ei. cbv zeta.
  rewrite rd_insert_eq, Hj, Hs, (proj2 (Z.eqb_neq _ _)) by done. split_and!; try done.
  intros b Hb. by rewrite rd_insert_ne.
Qed.

Lemma unjail_drops_live_share_witness :
  exists s', unjail_to_pending sample_env sample_validators 7 = Ok s' /\
    is_consensus_participant sample_validators 7 = true /\ is_consensus_participant s' 7 = false.
Proof.
  assert (Hu : is_ok (unjail_to_pending sample_env sample_validators 7) = true) by (vm_compute; reflexivity).
  assert (Hb : rd (val_has_bls_share sample_validators) 7 = true) by (vm_compute; reflexivity).
  destruct (unjail_to_pending sample_env sample_validators 7) as [s'|] eqn:E; [|discriminate Hu].
  exists s'. split; [done|].
  destruct (@unjail_drops_live_share sample_crypto sample_env sample_validators 7 s' E Hb) as (H1 & H2 & _).
  exact (conj H1 H2).
Defined.

(** A registration that succeeds was authorised: the caller is the owner or
    the validator itself, any signature given verifies over the validator's
    address bytes, and a self-registration did carry one and found fewer than
    [MAX_SELF_REGISTERED_UNSTAKED] validators in REGISTERED. Afterwards the
    validator is REGISTERED, holds the given key, and the key's hash resolves to
    it. *)
Theorem register_authorised `{Crypto} env s caller a pk sig s' :
  register_validator_with_sig env s caller a pk sig = Ok s' -> length pk = 48%nat ->
  (caller = config_owner s \/ caller = a) /\
  (forall sg, sig = Some sg -> blst_verify pk sg (be_bytes 20 a) = true) /\
  (caller = a -> (exists sg, sig = Some sg) /\
     exists n, registered_count s = Ok n /\ n < MAX_SELF_REGISTERED_UNSTAKED) /\
  rd (val_status s') a = status.REGISTERED /\ read_consensus_pubkey s' a = pk /\
  lookup_by_pubkey_hash s' (consensus_pubkey_hash pk) = a.
Proof.
  intros E Hl. destruct (register_guards _ _ _ _ _ _ _ E) as (? & ? & ?).
  destruct (register_key _ _ _ _ _ _ _ E Hl). apply register_status in E as ->.
  by rewrite rd_insert_eq.
Qed.

Lemma register_authorised_witness :
  exists s', register_validator_with_sig (H := sample_crypto) sample_env sample_validators 8 8
               (replicate 48 8) (Some []) = Ok s' /\ read_consensus_pubkey s' 8 = replicate 48 8.
Proof.
  assert (Hu : is_ok (register_validator_with_sig (H := sample_crypto) sample_env sample_validators 8 8
                        (replicate 48 8) (Some [])) = true) by (vm_compute; reflexivity).
  destruct (register_validator_with_sig _ _ _ _ _ _) as [s'|] eqn:E; [|discriminate Hu].
  exists s'. split; [reflexivity|].
  apply (@register_authorised sample_crypto sample_env sample_validators 8 8 (replicate 48 8) (Some []) s' E).
  reflexivity.
Defined.

(** C2. [activate_reshared_set] succeeds exactly when every member of the new
    committee is registered and REGISTERED, PENDING or ACTIVE (and the size
    fits a [u32]). Then exactly the members hold a BLS share and are ACTIVE, an
    EXITING validator left out becomes UNBONDING, every other status is
    unchanged, the registry is untouched, the given hash is stored, and a set
    change stays pending exactly when some ACTIVE validator is not covered. *)
Theorem activate_reshared_set_spec `{Crypto} s l h :
  registry_ok s ->
  if forallb (eligible s) l && (Z.of_nat (length l) <? 2 ^ 32) then
    exists s', activate_reshared_set s l h = Ok s' /\
    registry s' = registry s /\ active_consensus_set_hash s' = h /\
    (forall a, rd (address_to_index s) a <> 0 ->
       rd (val_has_bls_share s') a = in_set l a /\
       rd (val_status s') a =
         if in_set l a then status.ACTIVE
         else if rd (val_status s) a =? status.EXITING then status.UNBONDING
         else rd (val_status s) a) /\
    (pending_set_change s' = false <->
     forall a, rd (address_to_index s) a <> 0 -> rd (val_status s') a = status.ACTIVE -> a ∈ l)
  else exists e, activate_reshared_set s l h = Err e.
Proof. apply reshare_spec. Qed.

Lemma activate_reshared_set_spec_witness :
  exists s', activate_reshared_set sample_validators [5] 1 = Ok s' /\
    rd (val_has_bls_share s') 5 = true /\ rd (val_has_bls_share s') 7 = false /\
    rd (val_status s') 7 = status.JAILED.
Proof.
  pose proof (@activate_reshared_set_spec sample_crypto sample_validators [5] 1 sample_registry_ok) as Hs.
  assert (Hel : forallb (eligible sample_validators) [5] && (Z.of_nat (length [5]) <? 2 ^ 32) = true)
    by (vm_compute; reflexivity).
  assert (H5 : rd (address_to_index sample_validators) 5 = 1) by (vm_compute; reflexivity).
  assert (H7 : rd (address_to_index sample_validators) 7 = 3) by (vm_compute; reflexivity).
  assert (Hj : rd (val_status sample_validators) 7 = status.JAILED) by (vm_compute; reflexivity).
  rewrite Hel in Hs. destruct Hs as (s' & E & _ & _ & Ha & _). exists s'. split; [exact E|].
  destruct (Ha 5) as [-> _]; [rewrite H5; lia|]. destruct (Ha 7) as [-> ->]; [rewrite H7; lia|].
  rewrite Hj. repeat split.
Defined.

(** On a well-formed registry [get_all_validators] lists every registered
    validator exactly once, with the record [get_validator] reads for it, and
    as many entries as [validator_count] says; two different registered
    validators never hold the same consensus key. *)
Theorem get_all_validators_exact `{Crypto} s :
  registry_ok s ->
  NoDup (validator_address <$> get_all_validators s) /\
  Z.of_nat (length (get_all_validators s)) = validator_count s /\
  (forall v, v ∈ get_all_validators s <-> get_validator s (validator_address v) = Some v) /\
  (forall v w, v ∈ get_all_validators s -> w ∈ get_all_validators s ->
     consensus_pubkey v = consensus_pubkey w -> v = w).
Proof.
  intros Hok. split_and!.
  - by apply NoDup_get_all.
  - rewrite <- (length_fmap validator_address), get_all_validators_map by done.
    destruct Hok as [[? ?] _ _ _ _]. rewrite length_fmap, length_seqZ. lia.
  - intros v. by apply elem_of_get_all.
  - intros v w Hv Hw E. rewrite elem_of_get_all in Hv, Hw by done.
    assert (validator_address v = validator_address w) as Ea; [|rewrite Ea in Hv; congruence].
    apply get_validator_pubkey in Hv as [Rv Pv]. apply get_validator_pubkey in Hw as [Rw Pw].
    destruct Hok as [_ _ _ _ Hk]. rewrite <- (Hk _ Rv), <- (Hk _ Rw). congruence.
Qed.

Lemma get_all_validators_exact_witness :
  Z.of_nat (length (get_all_validators sample_validators)) = validator_count sample_validators /\
  validator_count sample_validators = 3.
Proof.
  split; [|vm_compute; reflexivity].
  apply (@get_all_validators_exact sample_crypto sample_validators sample_registry_ok).
Defined.
