(* ===== verification/Staking.v ===== *)
(** * Staking: stakes, the unbonding queue and slashing

    [crates/system/staking/src/contract.rs], [logic.rs] and [hooks.rs]. The
    operations run on a [World]: the staking slots, the validator registry they
    call into and the native balances they move. A validator's unbonding entries
    form a singly linked list through [unbonding_next], whose pointers are stored
    as index + 1; the [while] loops over such a list are recursion on a fuel that
    plays the role of gas, [OutOfGas] when it is exhausted. [list_fuel], one more
    than the number of queue entries, is always enough on the states the
    operations reach. *)

From S2P Require Import Prelude Native P2pAddress ValidatorSet.

Definition STAKING_ADDRESS : Address := 0xEE02.
Definition MAX_COMPACTION_PER_BLOCK : u32 := 64.

Record Staking := mkStaking {
  config_min_stake : U256;
  config_unbonding_period : u64;
  config_max_stake_percent : u64;
  stake_amount : gmap Address U256;
  total_staked : U256;
  unbonding_count : u32;
  unbonding_validator : gmap u32 Address;
  unbonding_amount : gmap u32 U256;
  unbonding_complete_time : gmap u32 u64;
  per_val_unbonding_head : gmap Address u32;
  unbonding_next : gmap u32 u32;
  config_slashed_withdrawal_delay : u64
}.

(** One writer per slot: [self.f.write(&k, v)] is [wr_f s k v]. *)
Definition wr_stake_amount (s : Staking) (k : Address) (v : U256) : Staking :=
  {| s with stake_amount := <[k := v]> (stake_amount s) |}.
Definition set_total_staked (s : Staking) (v : U256) : Staking :=
  {| s with total_staked := v |}.
Definition set_unbonding_count (s : Staking) (v : u32) : Staking :=
  {| s with unbonding_count := v |}.
Definition wr_unbonding_validator (s : Staking) (k : u32) (v : Address) : Staking :=
  {| s with unbonding_validator := <[k := v]> (unbonding_validator s) |}.
Definition wr_unbonding_amount (s : Staking) (k : u32) (v : U256) : Staking :=
  {| s with unbonding_amount := <[k := v]> (unbonding_amount s) |}.
Definition wr_unbonding_complete_time (s : Staking) (k : u32) (v : u64) : Staking :=
  {| s with unbonding_complete_time := <[k := v]> (unbonding_complete_time s) |}.
Definition wr_per_val_unbonding_head (s : Staking) (k : Address) (v : u32) : Staking :=
  {| s with per_val_unbonding_head := <[k := v]> (per_val_unbonding_head s) |}.
Definition wr_unbonding_next (s : Staking) (k : u32) (v : u32) : Staking :=
  {| s with unbonding_next := <[k := v]> (unbonding_next s) |}.


(** What the staking precompile can touch. *)
Record World := mkWorld { staking : Staking; valset : ValidatorSet; balance : Balances }.

Section Runtime.
Context (env : BlockEnv).

Definition list_fuel (s : Staking) : nat := S (Z.to_nat (unbonding_count s)).

(** The calls into the registry that follow a stake. *)
Definition sync_stake (s : Staking) (vs : ValidatorSet) (validator : Address) (new_stake : U256) :
    res ValidatorSet :=
  let vs := wr_val_stake vs validator new_stake in
  let min_stake := config_min_stake s in
  if is_validator vs validator then
    let current_status := rd (val_status vs) validator in
    if (min_stake <=? new_stake) && (current_status =? status.REGISTERED)
    then mark_pending vs validator else Ok vs
  else Ok vs.

Definition stake (w : World) (caller validator : Address) (amount : U256) : res World :=
  let s := staking w in
  ensure negb (amount =? 0) else Revert "amount must be non-zero" in
  ensure caller =? validator
    else Revert "third-party staking not supported: caller must be validator" in
  let current := rd (stake_amount s) validator in
  let new_stake := wadd 256 current amount in
  let max_pct := config_max_stake_percent s in
  let total := total_staked s in
  if ((0 <? max_pct) && (max_pct <? 100)) && (total =? 0) then
    let s := wr_stake_amount s validator new_stake in
    let s := set_total_staked s amount in
    let? vs := sync_stake s (valset w) validator new_stake in
    Ok (mkWorld s vs (balance w))
  else
    ensure negb (((0 <? max_pct) && (max_pct <? 100))
                 && (wmul 256 max_pct (wadd 256 total amount) <? wmul 256 new_stake 100))
      else Revert "stake would exceed max_stake_percent" in
    let s := wr_stake_amount s validator new_stake in
    let s := set_total_staked s (wadd 256 total amount) in
    let? vs := sync_stake s (valset w) validator new_stake in
    Ok (mkWorld s vs (balance w)).

Definition checked_complete_time (ts period : u64) : res u64 :=
  ok_or (checked_add 64 ts period) (Revert "unbonding completion timestamp overflow").

Definition slashed_withdrawal_delay (s : Staking) : res u64 :=
  let configured := config_slashed_withdrawal_delay s in
  if 0 <? configured then Ok configured
  else
    let unbonding_period := config_unbonding_period s in
    ok_or (checked_mul 64 unbonding_period 2) (Revert "slashed withdrawal delay overflow").

Definition enqueue_unbonding (s : Staking) (validator : Address) (amount : U256)
    (complete_time : u64) : Staking :=
  if amount =? 0 then s
  else
    let idx := unbonding_count s in
    let s := wr_unbonding_validator s idx validator in
    let s := wr_unbonding_amount s idx amount in
    let s := wr_unbonding_complete_time s idx complete_time in
    let s := set_unbonding_count s (wadd 32 idx 1) in
    let prev_head_stored := rd (per_val_unbonding_head s) validator in
    let s := wr_unbonding_next s idx prev_head_stored in
    wr_per_val_unbonding_head s validator (wadd 32 idx 1).

Fixpoint has_pending_loop (fuel : nat) (s : Staking) (current_stored : u32) : res bool :=
  match fuel with
  | O => Err OutOfGas
  | S fuel =>
      if current_stored =? 0 then Ok false
      else
        let idx := current_stored - 1 in
        if negb (rd (unbonding_amount s) idx =? 0) then Ok true
        else has_pending_loop fuel s (rd (unbonding_next s) idx)
  end.

Definition has_pending_unbonding (s : Staking) (validator : Address) : res bool :=
  has_pending_loop (list_fuel s) s (rd (per_val_unbonding_head s) validator).

Definition finalize_inactive_if_complete (s : Staking) (vs : ValidatorSet) (validator : Address) :
    res ValidatorSet :=
  if negb (is_validator vs validator) then Ok vs
  else
    let current_status := rd (val_status vs) validator in
    if (current_status =? status.UNBONDING) && (rd (stake_amount s) validator =? 0) then
      let? pending := has_pending_unbonding s validator in
      if negb pending then
        let vs := wr_val_status vs validator status.INACTIVE in
        let vs := wr_val_unbonding_end vs validator 0 in
        Ok (wr_val_has_bls_share vs validator false)
      else Ok vs
    else Ok vs.

(** The status change an unstake below the minimum brings about. *)
Definition demote_on_unstake (vs : ValidatorSet) (caller : Address) (new_stake min_stake : U256) :
    ValidatorSet :=
  if is_validator vs caller then
    let current_status := rd (val_status vs) caller in
    if (new_stake <? min_stake) && (current_status =? status.ACTIVE) then
      let vs := wr_val_status vs caller status.EXITING in
      let vs := wr_val_deactivated_at_height vs caller (block_number env) in
      set_pending_set_change vs true
    else if (new_stake <? min_stake) && (current_status =? status.PENDING) then
      let vs := wr_val_status vs caller status.REGISTERED in
      set_pending_set_change vs true
    else if (new_stake <? min_stake) && (current_status =? status.JAILED) then
      let vs := wr_val_status vs caller status.EXITING in
      let vs := wr_val_deactivated_at_height vs caller (block_number env) in
      let vs := wr_val_jailed_at_height vs caller 0 in
      set_pending_set_change vs true
    else vs
  else vs.

Definition unstake (w : World) (caller : Address) (amount : U256) : res World :=
  let s := staking w in
  let vs := valset w in
  ensure negb (amount =? 0) else Revert "amount must be non-zero" in
  let current := rd (stake_amount s) caller in
  ensure amount <=? current else Revert "insufficient staked amount" in
  let new_stake := wsub 256 current amount in
  let s := wr_stake_amount s caller new_stake in
  let total := total_staked s in
  let s := set_total_staked s (wsub 256 total amount) in
  let vs := wr_val_stake vs caller new_stake in
  let min_stake := config_min_stake s in
  let vs := demote_on_unstake vs caller new_stake min_stake in
  let ts := timestamp env in
  let unbonding_period := config_unbonding_period s in
  let? complete_time := checked_complete_time ts unbonding_period in
  let s := enqueue_unbonding s caller amount complete_time in
  let vs := wr_val_unbonding_end vs caller complete_time in
  Ok (mkWorld s vs (balance w)).

Definition unjail_validator (w : World) (caller : Address) : res World :=
  let stake := rd (stake_amount (staking w)) caller in
  let min_stake := config_min_stake (staking w) in
  ensure min_stake <=? stake else Revert "unjailValidator requires stake >= min_stake" in
  let? vs := unjail_to_pending env (valset w) caller in
  Ok (mkWorld (staking w) vs (balance w)).

(** The mutable variables of the loop of [claim_unbonded]. *)
Record ClaimLoop := mkClaim {
  cl_state : Staking;
  total_claimable : U256;
  new_head_stored : u32;
  pending_tail_stored : u32
}.

(** One turn of the loop on the entry stored as [current_stored]. *)
Definition claim_entry (ts : u64) (c : ClaimLoop) (current_stored : u32) : ClaimLoop :=
  let s := cl_state c in
  let idx := current_stored - 1 in
  let complete_time := rd (unbonding_complete_time s) idx in
  if complete_time <=? ts then
    let amount := rd (unbonding_amount s) idx in
    let s := wr_unbonding_validator s idx 0 in
    let s := wr_unbonding_amount s idx 0 in
    let s := wr_unbonding_complete_time s idx 0 in
    let s := wr_unbonding_next s idx 0 in
    mkClaim s (wadd 256 (total_claimable c) amount) (new_head_stored c) (pending_tail_stored c)
  else if new_head_stored c =? 0 then
    mkClaim s (total_claimable c) current_stored current_stored
  else
    let s := wr_unbonding_next s (pending_tail_stored c - 1) current_stored in
    mkClaim s (total_claimable c) (new_head_stored c) current_stored.

Fixpoint claim_loop (fuel : nat) (ts : u64) (c : ClaimLoop) (current_stored : u32) : res ClaimLoop :=
  match fuel with
  | O => Err OutOfGas
  | S fuel =>
      if current_stored =? 0 then Ok c
      else
        let idx := current_stored - 1 in
        let next_stored := rd (unbonding_next (cl_state c)) idx in
        claim_loop fuel ts (claim_entry ts c current_stored) next_stored
  end.

Definition claim_unbonded (w : World) (caller : Address) : res World :=
  let s := staking w in
  let ts := timestamp env in
  let? c := claim_loop (list_fuel s) ts (mkClaim s 0 0 0) (rd (per_val_unbonding_head s) caller) in
  let s := cl_state c in
  let s := if negb (pending_tail_stored c =? 0)
           then wr_unbonding_next s (pending_tail_stored c - 1) 0
           else s in
  let s := wr_per_val_unbonding_head s caller (new_head_stored c) in
  let? b := (if negb (total_claimable c =? 0)
             then transfer_balance (balance w) STAKING_ADDRESS caller (total_claimable c)
             else Ok (balance w)) in
  let? vs := finalize_inactive_if_complete s (valset w) caller in
  Ok (mkWorld s vs b).

(** ** Slashing *)

Definition percent_of (amount percent : U256) : U256 := wmul 256 amount percent / 100.

(** One turn of the loop over the unbonding entries. *)
Definition slash_entry (percent slash_complete_time : Z) (s : Staking) (total_slashed idx : Z) :
    Staking * U256 :=
  let amount := rd (unbonding_amount s) idx in
  if negb (amount =? 0) then
    let unbonding_slash := percent_of amount percent in
    let '(s, total_slashed) :=
      if negb (unbonding_slash =? 0) then
        (wr_unbonding_amount s idx (wsub 256 amount unbonding_slash),
         wadd 256 total_slashed unbonding_slash)
      else (s, total_slashed) in
    let complete_time := rd (unbonding_complete_time s) idx in
    if complete_time <? slash_complete_time then
      (wr_unbonding_complete_time s idx slash_complete_time, total_slashed)
    else (s, total_slashed)
  else (s, total_slashed).

Fixpoint slash_loop (fuel : nat) (percent slash_complete_time : Z) (s : Staking)
    (total_slashed : U256) (current_stored : u32) : res (Staking * U256) :=
  match fuel with
  | O => Err OutOfGas
  | S fuel =>
      if current_stored =? 0 then Ok (s, total_slashed)
      else
        let idx := current_stored - 1 in
        let '(s, total_slashed) := slash_entry percent slash_complete_time s total_slashed idx in
        slash_loop fuel percent slash_complete_time s total_slashed (rd (unbonding_next s) idx)
  end.

(** The demotion of a validator whose stake fell below the minimum. *)
Definition demote_on_slash (vs : ValidatorSet) (validator : Address) (remaining_stake min_stake : U256) :
    ValidatorSet :=
  if negb (min_stake =? 0) && (remaining_stake <? min_stake) && is_validator vs validator then
    let current_status := rd (val_status vs) validator in
    if current_status =? status.ACTIVE then
      let vs := wr_val_status vs validator status.EXITING in
      let vs := wr_val_deactivated_at_height vs validator (block_number env) in
      set_pending_set_change vs true
    else if current_status =? status.PENDING then
      let vs := wr_val_status vs validator status.REGISTERED in
      set_pending_set_change vs true
    else vs
  else vs.

(** The part of the slash that falls on the active stake. *)
Definition slash_active (s : Staking) (validator : Address) (percent : u64) : Staking * U256 :=
  let current := rd (stake_amount s) validator in
  if negb (current =? 0) then
    let slash := percent_of current percent in
    let new_stake := wsub 256 current slash in
    let s := wr_stake_amount s validator new_stake in
    let total := total_staked s in
    (set_total_staked s (wsub 256 total slash), wadd 256 0 slash)
  else (s, 0).

Definition slash_stake (w : World) (validator : Address) (percent : u64) : res (World * U256) :=
  let s := staking w in
  ensure percent <=? 100 else Revert "slash percent must be <= 100" in
  let '(s, total_slashed) := slash_active s validator percent in
  let head := rd (per_val_unbonding_head s) validator in
  let? delay := slashed_withdrawal_delay s in
  let? slash_complete_time := checked_complete_time (timestamp env) delay in
  let? (s, total_slashed) := slash_loop (list_fuel s) percent slash_complete_time s total_slashed head in
  let? b := (if negb (total_slashed =? 0)
             then decrease_balance (balance w) STAKING_ADDRESS total_slashed
             else Ok (balance w)) in
  let remaining_stake := rd (stake_amount s) validator in
  let vs := wr_val_stake (valset w) validator remaining_stake in
  let min_stake := config_min_stake s in
  let vs := demote_on_slash vs validator remaining_stake min_stake in
  Ok (mkWorld s vs b, total_slashed).

(** ** The per-block hook *)

(** One turn of the loop over the validators. *)
Definition drain_validator (ts : u64) (sv : Staking * ValidatorSet) (v : ValidatorRecord) :
    res (Staking * ValidatorSet) :=
  let '(s, vs) := sv in
  if negb (vstatus v =? status.UNBONDING) then Ok (s, vs)
  else
    let a := validator_address v in
    let stake := rd (stake_amount s) a in
    if negb (stake =? 0) then
      let total := total_staked s in
      ensure stake <=? total else Revert "stake accounting underflow for validator" in
      let s := wr_stake_amount s a 0 in
      let s := set_total_staked s (wsub 256 total stake) in
      let vs := wr_val_stake vs a 0 in
      let? period := (if 0 <? slash_count v then slashed_withdrawal_delay s
                      else Ok (config_unbonding_period s)) in
      let? complete_time := checked_complete_time ts period in
      let s := enqueue_unbonding s a stake complete_time in
      Ok (s, wr_val_unbonding_end vs a complete_time)
    else
      let? vs := finalize_inactive_if_complete s vs a in
      Ok (s, vs).

(** The tail trim: [n] bounds the turns, the [ops < MAX_COMPACTION_PER_BLOCK]
    counter. *)
Fixpoint trim_loop (n : nat) (s : Staking) (count : u32) : u32 :=
  match n with
  | O => count
  | S n =>
      if 0 <? count then
        let validator := rd (unbonding_validator s) (count - 1) in
        if negb (validator =? 0) then count else trim_loop n s (count - 1)
      else count
  end.

Definition process_unbonding (w : World) (ts : u64) : res World :=
  let validators := get_all_validators (valset w) in
  let? (s, vs) := foldM (drain_validator ts) (staking w, valset w) validators in
  let count := trim_loop (Z.to_nat MAX_COMPACTION_PER_BLOCK) s (unbonding_count s) in
  let s := set_unbonding_count s count in
  Ok (mkWorld s vs (balance w)).

Definition get_stake (w : World) (validator : Address) : U256 := rd (stake_amount (staking w)) validator.

Definition get_total_staked (w : World) : U256 := total_staked (staking w).

(** ** The payable entry point

    [dispatch] of [precompile.rs] for [stake]: the EVM has moved [value] from
    the sender to the contract before the code runs, and undoes it on error. *)
Definition dispatch_stake (w : World) (sender : Address) (value : U256) (validator : Address)
    (amount : U256) : res World :=
  let? b := transfer_balance (balance w) sender STAKING_ADDRESS value in
  ensure value =? amount else Revert "msg.value must equal stake amount" in
  stake (mkWorld (staking w) (valset w) b) sender validator amount.

End Runtime.

(** ** Linked lists

    [chain next h l]: following [next] from the stored pointer [h] visits the
    indices [l] and ends. *)

Inductive chain (next : gmap u32 u32) : u32 -> list Z -> Prop :=
| chain_nil : chain next 0 []
| chain_cons i l : 0 <= i -> chain next (rd next i) l -> chain next (i + 1) (i :: l).

(** A stored pointer to the head, and to the last element, of a list. *)
Definition stored_head (l : list Z) : u32 := match l with [] => 0 | i :: _ => i + 1 end.
Definition stored_last (l : list Z) : u32 := match last l with None => 0 | Some i => i + 1 end.

(** Consecutive elements are linked; where the last one points is left open. *)
Fixpoint linked (next : gmap u32 u32) (l : list Z) : Prop :=
  match l with
  | [] => True
  | i :: l => match l with [] => True | j :: _ => rd next i = j + 1 end /\ linked next l
  end.

Lemma chain_head next h l : chain next h l -> h = stored_head l.
Proof. by destruct 1. Qed.

Lemma chain_cons_inv next h i l : chain next h (i :: l) -> 0 <= i /\ chain next (rd next i) l.
Proof. by inversion 1; subst. Qed.

Lemma chain_insert next h l i v : chain next h l -> i ∉ l -> chain (<[i := v]> next) h l.
Proof.
  induction 1 as [|j l Hj Hc IH]; intros Hi; [constructor|].
  constructor; [done|]. rewrite rd_insert_ne by set_solver. apply IH. set_solver.
Qed.

Lemma linked_insert next l i v : linked next l -> i ∉ l -> linked (<[i := v]> next) l.
Proof.
  induction l as [|j l IH]; intros Hl Hi; [done|]. destruct Hl as [Hl1 Hl2].
  split; [|apply IH; [done|set_solver]]. destruct l; [done|].
  rewrite rd_insert_ne by set_solver. done.
Qed.

Lemma linked_snoc next l i :
  linked next l -> NoDup (l ++ [i]) -> linked (<[stored_last l - 1 := i + 1]> next) (l ++ [i]).
Proof.
  induction l as [|j l IH]; intros Hl Hnd; [done|]. destruct Hl as [Hl1 Hl2].
  inversion Hnd as [|? ? Hj Hnd']; subst. destruct l as [|k l].
  - change (stored_last [j]) with (j + 1). replace (j + 1 - 1) with j by lia.
    split; [apply rd_insert_eq|done].
  - assert (E : stored_last (j :: k :: l) = stored_last (k :: l)) by done. rewrite E. split; [|by apply IH].
    rewrite <- app_comm_cons. rewrite rd_insert_ne; [done|].
    intros E'. apply Hj. apply elem_of_app. left. unfold stored_last in E'.
    destruct (last (k :: l)) as [x|] eqn:El.
    + replace (x + 1 - 1) with x in E' by lia. subst. apply last_Some in El as [l' ->]. set_solver.
    + by apply last_None in El.
Qed.

(** Closing a linked list at its last element gives a chain. *)
Lemma linked_chain next l :
  Forall (fun i => 0 <= i) l -> NoDup l -> linked next l ->
  chain (if stored_last l =? 0 then next else <[stored_last l - 1 := 0]> next) (stored_head l) l.
Proof.
  induction l as [|i l IH]; intros Hp Hnd Hl; [constructor|].
  inversion Hp; subst. inversion Hnd as [|? ? Hi Hnd']; subst. destruct Hl as [Hl1 Hl2].
  destruct l as [|j l].
  - change (stored_last [i]) with (i + 1). rewrite (proj2 (Z.eqb_neq _ _)) by lia.
    replace (i + 1 - 1) with i by lia. constructor; [done|]. rewrite rd_insert_eq. constructor.
  - assert (E : stored_last (i :: j :: l) = stored_last (j :: l)) by done. rewrite E.
    constructor; [done|]. specialize (IH H2 Hnd' Hl2).
    destruct (last (j :: l)) as [x|] eqn:El; [|by apply last_None in El].
    assert (E' : stored_last (j :: l) = x + 1) by (unfold stored_last; by rewrite El).
    assert (Hx : x ∈ j :: l) by (apply last_Some in El as [l' ->]; set_solver).
    assert (0 <= x) by (rewrite Forall_forall in H2; by apply H2).
    rewrite E' in IH |- *. rewrite (proj2 (Z.eqb_neq _ _)) in IH |- * by lia.
    replace (x + 1 - 1) with x in IH |- * by lia.
    rewrite rd_insert_ne by (intros ->; done). rewrite Hl1. exact IH.
Qed.

(** ** The queue and ledger invariants *)

(** The unbonding queue holds, for every validator [a], the entries [L a]: the
    list its head pointer starts, each of them inside the queue and owned by
    [a]; every other entry carries no amount. *)
Record queue_ok (s : Staking) (L : Address -> list Z) : Prop := {
  q_count : fits 32 (unbonding_count s);
  q_chain : forall a, chain (unbonding_next s) (rd (per_val_unbonding_head s) a) (L a);
  q_entry : forall a i, i ∈ L a ->
    0 <= i < unbonding_count s /\ rd (unbonding_validator s) i = a /\ a <> 0;
  q_nodup : forall a, NoDup (L a);
  q_amount : forall i, rd (unbonding_amount s) i <> 0 -> exists a, i ∈ L a;
  q_nonneg : forall i, 0 <= rd (unbonding_amount s) i
}.

(** Stakes add up to the total, and what the contract owes (stakes plus
    unbonding amounts) is covered by its native balance. *)
Record ledger_ok (s : Staking) (b : Balances) : Prop := {
  l_stake : forall a, 0 <= rd (stake_amount s) a;
  l_total : msum (stake_amount s) = total_staked s;
  l_amount : forall i, 0 <= rd (unbonding_amount s) i;
  l_balances : balances_ok b;
  l_solvent : total_staked s + msum (unbonding_amount s) <= rd b STAKING_ADDRESS
}.

Lemma queue_disjoint s L a b i : queue_ok s L -> i ∈ L a -> i ∈ L b -> a = b.
Proof. intros Hq Ha Hb. apply (q_entry _ _ Hq) in Ha, Hb. naive_solver. Qed.

Lemma queue_fuel s L a : queue_ok s L -> (length (L a) < list_fuel s)%nat.
Proof.
  intros Hq. unfold list_fuel. apply Nat.lt_succ_r, NoDup_bounded_length; [apply Hq|].
  intros i Hi. by apply (q_entry _ _ Hq) in Hi as [? _].
Qed.

(** What the ledger invariant implies of the amounts involved. *)
Lemma ledger_bounds s b a :
  ledger_ok s b ->
  0 <= rd (stake_amount s) a <= total_staked s /\ 0 <= msum (unbonding_amount s) /\
  total_staked s + msum (unbonding_amount s) <= rd b STAKING_ADDRESS < 2 ^ 256.
Proof.
  intros [Hs Ht Ha Hb Hv]. pose proof (rd_le_msum _ a Hs). pose proof (msum_nonneg _ Ha).
  pose proof (balances_fits b STAKING_ADDRESS Hb) as [? ?]. specialize (Hs a). lia.
Qed.

(** Updating the owner's list. *)
Definition upd (L : Address -> list Z) (a : Address) (l : list Z) (b : Address) : list Z :=
  if decide (b = a) then l else L b.

Lemma queue_not_listed s L i : queue_ok s L -> unbonding_count s <= i -> forall a, i ∉ L a.
Proof. intros Hq Hi a Ha. apply (q_entry _ _ Hq) in Ha. lia. Qed.

Lemma enqueue_queue_ok s L a amount ct :
  queue_ok s L -> a <> 0 -> 0 < amount -> unbonding_count s < MAX_U32 ->
  queue_ok (enqueue_unbonding s a amount ct) (upd L a (unbonding_count s :: L a)) /\
  msum (unbonding_amount (enqueue_unbonding s a amount ct)) = msum (unbonding_amount s) + amount.
Proof.
  intros Hq Ha Hamt Hmax. pose proof (queue_not_listed s L (unbonding_count s) Hq ltac:(lia)) as Hfresh.
  destruct Hq as [Hc Hch He Hnd Ham Hnn]. unfold MAX_U32, fits in *.
  assert (Hzero : rd (unbonding_amount s) (unbonding_count s) = 0).
  { destruct (decide (rd (unbonding_amount s) (unbonding_count s) = 0)) as [|Hne]; [done|].
    apply Ham in Hne as [b Hb]. by destruct (Hfresh b). }
  unfold enqueue_unbonding. rewrite (proj2 (Z.eqb_neq _ _)) by lia. cbv zeta. simpl.
  rewrite wadd_small by lia. split; [split|]; simpl; unfold upd, fits.
  - lia.
  - intros b. rewrite rd_insert. repeat case_decide; subst; try congruence.
    + constructor; [lia|]. rewrite rd_insert_eq. by apply chain_insert.
    + by apply chain_insert.
  - intros b i. case_decide; [subst; rewrite elem_of_cons; intros [->|Hi]|intros Hi].
    + rewrite rd_insert_eq. split_and!; try done; lia.
    + apply He in Hi as (? & ? & ?). rewrite rd_insert_ne by lia. split_and!; try done; lia.
    + apply He in Hi as (? & ? & ?). rewrite rd_insert_ne by lia. split_and!; try done; lia.
  - intros b. case_decide; [constructor|]; auto.
  - intros i. rewrite rd_insert. case_decide; subst.
    + intros _. exists a. rewrite decide_True by done. left.
    + intros [b Hb]%Ham. exists b. case_decide; subst; [by right|done].
  - intros i. rewrite rd_insert. case_decide; [lia|apply Hnn].
  - rewrite msum_insert, Hzero. lia.
Qed.

Lemma enqueue_frame s a amount ct :
  let s' := enqueue_unbonding s a amount ct in
  stake_amount s' = stake_amount s /\ total_staked s' = total_staked s /\
  unbonding_count s' = (if amount =? 0 then unbonding_count s else wadd 32 (unbonding_count s) 1).
Proof. unfold enqueue_unbonding. by destruct (amount =? 0). Qed.

Lemma has_pending_loop_spec fuel s cur l :
  chain (unbonding_next s) cur l -> (length l < fuel)%nat ->
  has_pending_loop fuel s cur = Ok (existsb (fun i => negb (rd (unbonding_amount s) i =? 0)) l).
Proof.
  intros Hc. revert fuel. induction Hc as [|i l Hi Hc IH]; intros fuel Hf; (destruct fuel; simpl in Hf; [lia|]); [done|].
  cbn [has_pending_loop existsb]. rewrite (proj2 (Z.eqb_neq _ _)) by lia.
  replace (i + 1 - 1) with i by lia. destruct (negb (rd (unbonding_amount s) i =? 0)); [done|].
  apply IH. lia.
Qed.

(** *** Claiming *)

Lemma chain_ext next next' h l :
  (forall i, i ∈ l -> rd next' i = rd next i) -> chain next h l -> chain next' h l.
Proof.
  intros He Hc. induction Hc as [|i l Hi Hc IH]; [constructor|].
  constructor; [done|]. rewrite He by left. apply IH. intros. apply He. by right.
Qed.

Definition matured (ts : u64) (s : Staking) (l : list Z) : list Z :=
  filter (fun i => rd (unbonding_complete_time s) i <= ts) l.
Definition immature (ts : u64) (s : Staking) (l : list Z) : list Z :=
  filter (fun i => ts < rd (unbonding_complete_time s) i) l.

(** What the claim loop does to the entries [l] when [K] are those it has kept
    so far. *)
Record claim_post (ts : u64) (K l : list Z) (c c' : ClaimLoop) : Prop := {
  cp_linked : linked (unbonding_next (cl_state c')) (K ++ immature ts (cl_state c) l);
  cp_head : new_head_stored c' = stored_head (K ++ immature ts (cl_state c) l);
  cp_tail : pending_tail_stored c' = stored_last (K ++ immature ts (cl_state c) l);
  cp_next : forall j, j ∉ K ++ l ->
    rd (unbonding_next (cl_state c')) j = rd (unbonding_next (cl_state c)) j;
  cp_total : total_claimable c' =
    total_claimable c + lsum (rd (unbonding_amount (cl_state c)) <$> matured ts (cl_state c) l);
  cp_validator : forall j, rd (unbonding_validator (cl_state c')) j =
    if decide (j ∈ matured ts (cl_state c) l) then 0 else rd (unbonding_validator (cl_state c)) j;
  cp_amount : forall j, rd (unbonding_amount (cl_state c')) j =
    if decide (j ∈ matured ts (cl_state c) l) then 0 else rd (unbonding_amount (cl_state c)) j;
  cp_sum : msum (unbonding_amount (cl_state c')) = msum (unbonding_amount (cl_state c))
    - lsum (rd (unbonding_amount (cl_state c)) <$> matured ts (cl_state c) l);
  cp_stake : stake_amount (cl_state c') = stake_amount (cl_state c);
  cp_staked : total_staked (cl_state c') = total_staked (cl_state c);
  cp_count : unbonding_count (cl_state c') = unbonding_count (cl_state c);
  cp_heads : per_val_unbonding_head (cl_state c') = per_val_unbonding_head (cl_state c)
}.

(** Entries other than the current one read the same after its turn. *)
Lemma claim_entry_other ts c i j :
  j <> i ->
  rd (unbonding_complete_time (cl_state (claim_entry ts c (i + 1)))) j =
    rd (unbonding_complete_time (cl_state c)) j /\
  rd (unbonding_amount (cl_state (claim_entry ts c (i + 1)))) j = rd (unbonding_amount (cl_state c)) j /\
  rd (unbonding_validator (cl_state (claim_entry ts c (i + 1)))) j = rd (unbonding_validator (cl_state c)) j.
Proof.
  intros Hj. unfold claim_entry. cbv zeta. replace (i + 1 - 1) with i by lia.
  destruct (_ <=? ts); [|destruct (_ =? 0); done]. simpl. rewrite !rd_insert_ne by done. done.
Qed.

Lemma filter_ext_elem {A} (P Q : A -> Prop) `{HP : forall x, Decision (P x)} `{HQ : forall x, Decision (Q x)} (l : list A) :
  (forall x, x ∈ l -> P x <-> Q x) -> filter P l = filter Q l.
Proof.
  induction l as [|x l IH]; intros He; [done|]. rewrite !filter_cons, IH by (intros; apply He; by right).
  pose proof (He x ltac:(left)). repeat case_decide; tauto.
Qed.

Lemma stored_last_snoc l i : stored_last (l ++ [i]) = i + 1.
Proof. unfold stored_last. by rewrite last_snoc. Qed.

Lemma stored_head_snoc l i : l <> [] -> stored_head (l ++ [i]) = stored_head l.
Proof. by destruct l. Qed.

Lemma stored_head_zero l : Forall (fun i => 0 <= i) l -> stored_head l = 0 <-> l = [].
Proof. destruct l; [done|]. inversion 1; subst. simpl. split; [lia|done]. Qed.

(** The state of the loop: [K] kept so far, [l] still ahead. *)
Record claim_inv (K : list Z) (cur : u32) (l : list Z) (c : ClaimLoop) : Prop := {
  ci_chain : chain (unbonding_next (cl_state c)) cur l;
  ci_linked : linked (unbonding_next (cl_state c)) K;
  ci_nodup : NoDup (K ++ l);
  ci_pos : Forall (fun i => 0 <= i) K;
  ci_head : new_head_stored c = stored_head K;
  ci_tail : pending_tail_stored c = stored_last K
}.

(** The kept list after the turn on [i]. *)
Definition keep (ts : u64) (c : ClaimLoop) (K : list Z) (i : Z) : list Z :=
  if decide (rd (unbonding_complete_time (cl_state c)) i <= ts) then K else K ++ [i].

Lemma claim_step ts c K i l :
  claim_inv K (i + 1) (i :: l) c ->
  claim_inv (keep ts c K i) (rd (unbonding_next (cl_state c)) i) l (claim_entry ts c (i + 1)) /\
  forall j, j ∉ K ++ i :: l ->
    rd (unbonding_next (cl_state (claim_entry ts c (i + 1)))) j = rd (unbonding_next (cl_state c)) j.
Proof.
  intros [Hc Hl Hnd Hp Hh Ht]. apply chain_cons_inv in Hc as [Hi Hc'].
  apply NoDup_app in Hnd as (HndK & HKl & Hndl). inversion Hndl as [|? ? Hil Hndl']; subst.
  assert (HiK : i ∉ K) by (intros HiK; apply (HKl i HiK); left).
  assert (Hlast : K <> [] -> stored_last K - 1 ∈ K).
  { intros HK. unfold stored_last. destruct (last K) eqn:E; [|by apply last_None in E].
    apply last_Some in E as [K' ->]. replace (z + 1 - 1) with z by lia. set_solver. }
  unfold keep, claim_entry. cbv zeta. replace (i + 1 - 1) with i by lia.
  case_decide as Hm; [rewrite (proj2 (Z.leb_le _ _)) by done|rewrite (proj2 (Z.leb_gt _ _)) by lia].
  - split; [split; simpl; try done|].
    + by apply chain_insert.
    + by apply linked_insert.
    + apply NoDup_app. split_and!; [done| |done]. set_solver.
    + intros j Hj. simpl. apply rd_insert_ne. set_solver.
  - rewrite Hh. destruct (decide (K = [])) as [->|HK].
    + simpl. split; [split; try done; simpl|done]. by constructor.
    + rewrite (proj2 (Z.eqb_neq _ _)) by (rewrite stored_head_zero; done).
      split; [split|]; cbn [cl_state new_head_stored pending_tail_stored unbonding_next wr_unbonding_next].
      * apply chain_insert; [done|]. rewrite Ht. set_solver.
      * rewrite Ht. apply linked_snoc; [done|]. apply NoDup_app.
        split_and!; [done|by intros x Hx ->%list_elem_of_singleton|apply NoDup_singleton].
      * rewrite <- app_assoc. apply NoDup_app. by split_and!.
      * apply Forall_app. split; [done|]. by constructor.
      * by rewrite stored_head_snoc.
      * by rewrite stored_last_snoc.
      * intros j Hj. rewrite Ht. apply rd_insert_ne. set_solver.
Qed.

Lemma matured_cons ts c i l :
  i ∉ l -> let s := cl_state c in let s1 := cl_state (claim_entry ts c (i + 1)) in
  matured ts s (i :: l) = (if decide (rd (unbonding_complete_time s) i <= ts) then [i] else []) ++ matured ts s1 l /\
  immature ts s (i :: l) = (if decide (rd (unbonding_complete_time s) i <= ts) then [] else [i]) ++ immature ts s1 l.
Proof.
  intros Hi. cbv zeta. unfold matured, immature. rewrite !filter_cons.
  assert (Hct : forall j, j ∈ l -> rd (unbonding_complete_time (cl_state (claim_entry ts c (i + 1)))) j =
                                   rd (unbonding_complete_time (cl_state c)) j)
    by (intros j Hj; apply claim_entry_other; intros ->; done).
  rewrite (filter_ext_elem (fun j => rd (unbonding_complete_time (cl_state c)) j <= ts)
            (fun j => rd (unbonding_complete_time (cl_state (claim_entry ts c (i + 1)))) j <= ts) l)
    by (intros j Hj; by rewrite Hct).
  rewrite (filter_ext_elem (fun j => ts < rd (unbonding_complete_time (cl_state c)) j)
            (fun j => ts < rd (unbonding_complete_time (cl_state (claim_entry ts c (i + 1)))) j) l)
    by (intros j Hj; by rewrite Hct).
  repeat case_decide; try lia; done.
Qed.

(** The effect of one turn on the amounts. *)
Lemma claim_entry_effect ts c i :
  let s := cl_state c in let c1 := claim_entry ts c (i + 1) in let s1 := cl_state c1 in
  let hit := decide (rd (unbonding_complete_time s) i <= ts) in
  total_claimable c1 = (if hit then wadd 256 (total_claimable c) (rd (unbonding_amount s) i)
                        else total_claimable c) /\
  unbonding_amount s1 = (if hit then <[i := 0]> (unbonding_amount s) else unbonding_amount s) /\
  unbonding_validator s1 = (if hit then <[i := 0]> (unbonding_validator s) else unbonding_validator s) /\
  stake_amount s1 = stake_amount s /\ total_staked s1 = total_staked s /\
  unbonding_count s1 = unbonding_count s /\ per_val_unbonding_head s1 = per_val_unbonding_head s.
Proof.
  cbv zeta. unfold claim_entry. replace (i + 1 - 1) with i by lia.
  destruct (decide (rd (unbonding_complete_time (cl_state c)) i <= ts)).
  - rewrite (proj2 (Z.leb_le _ _)) by done. done.
  - rewrite (proj2 (Z.leb_gt _ _)) by lia. by destruct (_ =? 0).
Qed.

Lemma elem_matured ts s l j : j ∈ matured ts s l -> j ∈ l.
Proof. unfold matured. rewrite list_elem_of_filter. tauto. Qed.

Lemma lsum_ext m m' (l : list Z) :
  (forall j, j ∈ l -> rd m' j = rd m j) -> lsum (rd m' <$> l) = lsum (rd m <$> l).
Proof.
  intros He. f_equal. apply list_fmap_ext. intros k j Hj. apply He. by eapply list_elem_of_lookup_2.
Qed.

Lemma lsum_rd_nonneg (m : gmap Z Z) l : (forall j, 0 <= rd m j) -> 0 <= lsum (rd m <$> l).
Proof.
  intros Hm. induction l as [|x l IH]; [done|]. rewrite fmap_cons. unfold lsum in *. cbn.
  specialize (Hm x). lia.
Qed.

(** The turn on [i] followed by the turns on [l]. *)
Lemma claim_post_cons ts K i l c c' :
  claim_inv K (i + 1) (i :: l) c ->
  0 <= total_claimable c + rd (unbonding_amount (cl_state c)) i < 2 ^ 256 ->
  claim_post ts (keep ts c K i) l (claim_entry ts c (i + 1)) c' -> claim_post ts K (i :: l) c c'.
Proof.
  intros Hinv Hov Hpost. destruct (claim_step ts c K i l Hinv) as [_ Hnx].
  assert (Hil : i ∉ l) by (pose proof (ci_nodup _ _ _ _ Hinv) as Hn;
    apply NoDup_app in Hn as (_ & _ & Hn); by inversion Hn).
  destruct (claim_entry_effect ts c i) as (Et & Ea & Ev & Es1 & Es2 & Es3 & Es4).
  destruct (matured_cons ts c i l Hil) as [Em Ei]. cbv zeta in *.
  set (c1 := claim_entry ts c (i + 1)) in *.
  assert (Hsum : lsum (rd (unbonding_amount (cl_state c1)) <$> matured ts (cl_state c1) l) =
                 lsum (rd (unbonding_amount (cl_state c)) <$> matured ts (cl_state c1) l)).
  { apply lsum_ext. intros j Hj%elem_matured. apply claim_entry_other. by intros ->. }
  assert (Hkeep : keep ts c K i ++ immature ts (cl_state c1) l = K ++ immature ts (cl_state c) (i :: l)).
  { rewrite Ei. unfold keep. case_decide; [done|]. by rewrite <- app_assoc. }
  destruct Hpost as [P1 P2 P3 P4 P5 P6 P7 P8 P9 P10 P11 P12].
  rewrite Hkeep in P1, P2, P3.
  split; try congruence; rewrite ?Em, ?fmap_app, ?lsum_app.
  - intros j Hj. rewrite P4, Hnx; [done|done|]. unfold keep. case_decide; set_solver.
  - rewrite P5, Hsum, Et. case_decide; [rewrite wadd_small by lia|]; cbn; lia.
  - intros j. rewrite P6, Ev. case_decide as Hd; [rewrite rd_insert|]; repeat case_decide; subst; set_solver.
  - intros j. rewrite P7, Ea. case_decide as Hd; [rewrite rd_insert|]; repeat case_decide; subst; set_solver.
  - rewrite P8, Hsum, Ea. case_decide; [rewrite msum_insert|]; cbn; lia.
Qed.

Lemma claim_loop_spec ts l : forall fuel c cur K,
  (length l < fuel)%nat -> claim_inv K cur l c ->
  (forall i, 0 <= rd (unbonding_amount (cl_state c)) i) -> 0 <= total_claimable c ->
  total_claimable c + lsum (rd (unbonding_amount (cl_state c)) <$> l) < 2 ^ 256 ->
  exists c', claim_loop fuel ts c cur = Ok c' /\ claim_post ts K l c c'.
Proof.
  induction l as [|i l IH]; intros fuel c cur K Hf Hinv Hnn Htot Hov; (destruct fuel as [|fuel]; [cbn in Hf; lia|]);
    pose proof (chain_head _ _ _ (ci_chain _ _ _ _ Hinv)) as ->; cbn [stored_head] in *.
  { exists c. split; [done|].
    destruct Hinv. split; cbn; rewrite ?app_nil_r; try done; try lia; intros; by rewrite decide_False by set_solver. }
  cbn [claim_loop]. rewrite (proj2 (Z.eqb_neq _ _))
    by (destruct (chain_cons_inv _ _ _ _ (ci_chain _ _ _ _ Hinv)); lia).
  replace (i + 1 - 1) with i by lia. destruct (claim_step ts c K i l Hinv) as [Hinv1 _].
  assert (Hil : i ∉ l) by (pose proof (ci_nodup _ _ _ _ Hinv) as Hn;
    apply NoDup_app in Hn as (_ & _ & Hn); by inversion Hn).
  destruct (claim_entry_effect ts c i) as (Et & Ea & _). cbv zeta in *.
  set (c1 := claim_entry ts c (i + 1)) in *.
  assert (Hsum : lsum (rd (unbonding_amount (cl_state c1)) <$> l) = lsum (rd (unbonding_amount (cl_state c)) <$> l))
    by (apply lsum_ext; intros j Hj; apply claim_entry_other; by intros ->).
  rewrite fmap_cons in Hov. change (lsum (?x :: ?y)) with (x + lsum y) in Hov.
  pose proof (Hnn i) as Hi. pose proof (lsum_rd_nonneg (unbonding_amount (cl_state c)) l Hnn) as Hlnn.
  edestruct (IH fuel c1 _ _ ltac:(cbn in Hf; lia) Hinv1) as (c' & Ec & Hpost).
  - intros j. rewrite Ea. case_decide; [|apply Hnn]. rewrite rd_insert. case_decide; [lia|apply Hnn].
  - rewrite Et. case_decide; [rewrite wadd_small|]; lia.
  - rewrite Hsum, Et. case_decide; [rewrite wadd_small|]; lia.
  - exists c'. split; [done|]. apply claim_post_cons; [done|lia|done].
Qed.

(** The list a validator is left with after a claim. *)
Lemma claim_queue_ok ts s L a c :
  queue_ok s L -> claim_post ts [] (L a) (mkClaim s 0 0 0) c ->
  let s' := cl_state c in
  let s' := if negb (pending_tail_stored c =? 0)
            then wr_unbonding_next s' (pending_tail_stored c - 1) 0 else s' in
  queue_ok (wr_per_val_unbonding_head s' a (new_head_stored c)) (upd L a (immature ts s (L a))).
Proof.
  intros Hq [P1 P2 P3 P4 _ P6 P7 _ _ _ P11 P12]. cbn [cl_state] in *. rewrite !app_nil_l in *.
  set (l := immature ts s (L a)) in *.
  assert (Hsub : forall i, i ∈ l -> i ∈ L a) by (intros i; unfold l, immature; rewrite list_elem_of_filter; tauto).
  assert (Hm : forall i, i ∈ matured ts s (L a) -> i ∈ L a) by (intros i; apply elem_matured).
  assert (Hml : forall i, i ∈ L a -> i ∉ l -> i ∈ matured ts s (L a)).
  { intros i. unfold l, immature, matured. rewrite !list_elem_of_filter. intros Hi Hn. split; [|done].
    destruct (decide (rd (unbonding_complete_time s) i <= ts)); [done|]. destruct Hn. split; [lia|done]. }
  assert (Hlm : forall i, i ∈ l -> i ∉ matured ts s (L a)).
  { intros i. unfold l, immature, matured. rewrite !list_elem_of_filter. lia. }
  assert (Hnd : NoDup l) by (unfold l, immature; apply NoDup_filter, Hq).
  assert (Hlast : l <> [] -> stored_last l - 1 ∈ l).
  { intros HK. unfold stored_last. destruct (last l) eqn:E; [|by apply last_None in E].
    apply last_Some in E as [K' ->]. replace (z + 1 - 1) with z by lia. set_solver. }
  assert (Hpos : Forall (fun i => 0 <= i) l).
  { apply Forall_forall. intros i Hi%Hsub. apply (q_entry _ _ Hq) in Hi. lia. }
  set (s1 := if negb (pending_tail_stored c =? 0) then _ else _).
  assert (En : unbonding_next s1 = if stored_last l =? 0 then unbonding_next (cl_state c)
               else <[stored_last l - 1 := 0]> (unbonding_next (cl_state c))).
  { unfold s1. rewrite P3. by destruct (stored_last l =? 0). }
  assert (Eo : unbonding_count s1 = unbonding_count s /\ per_val_unbonding_head s1 = per_val_unbonding_head s /\
    unbonding_validator s1 = unbonding_validator (cl_state c) /\ unbonding_amount s1 = unbonding_amount (cl_state c)).
  { unfold s1. rewrite <- P11, <- P12. by destruct (negb _). }
  destruct Eo as (E1 & E2 & E3 & E4).
  split; cbn [unbonding_next unbonding_count per_val_unbonding_head unbonding_validator unbonding_amount
              wr_per_val_unbonding_head]; rewrite ?E1, ?E2, ?E3, ?E4; unfold upd.
  - apply Hq.
  - intros b. rewrite rd_insert, En. destruct (decide (a = b)) as [<-|Hab].
    + rewrite decide_True by done. rewrite P2. by apply linked_chain.
    + rewrite decide_False by done. eapply chain_ext; [|apply Hq].
      intros i Hi. assert (Hia : i ∉ L a) by (intros Hia; apply Hab; eapply queue_disjoint; eauto).
      rewrite <- (P4 i Hia). destruct (stored_last l =? 0) eqn:E0; [done|]. apply rd_insert_ne.
      intros <-. apply Hia, Hsub, Hlast. intros ->. done.
  - intros b i Hi. assert (Hib : i ∈ L b) by (destruct (decide (b = a)) as [->|]; auto).
    rewrite P6. destruct (q_entry _ _ Hq _ _ Hib) as (Hr & Hv & Hb). split; [done|]. split; [|done].
    rewrite decide_False; [done|]. intros Him. case_decide as Hba; [by apply (Hlm i)|].
    apply Hba. eapply queue_disjoint; eauto.
  - intros b. case_decide; [done|apply Hq].
  - intros i. rewrite P7. case_decide as Hd; [done|]. intros [b Hb]%(q_amount _ _ Hq). exists b.
    case_decide as Hba; [subst b|done]. destruct (decide (i ∈ l)); [done|]. by destruct Hd; apply Hml.
  - intros i. rewrite P7. case_decide; [done|apply Hq].
Qed.

(** The drain is finished: no stake and no pending entry. *)
Definition drained (s : Staking) (L : Address -> list Z) (a : Address) : bool :=
  (rd (stake_amount s) a =? 0) && forallb (fun i => rd (unbonding_amount s) i =? 0) (L a).

Lemma existsb_negb {A} (f : A -> bool) l : existsb (fun x => negb (f x)) l = negb (forallb f l).
Proof. induction l as [|x l IH]; [done|]. cbn. rewrite IH. by destruct (f x). Qed.

Lemma finalize_inactive_spec s L vs a :
  queue_ok s L ->
  finalize_inactive_if_complete s vs a =
  Ok (if is_validator vs a && (rd (val_status vs) a =? status.UNBONDING) && drained s L a
      then wr_val_has_bls_share (wr_val_unbonding_end (wr_val_status vs a status.INACTIVE) a 0) a false
      else vs).
Proof.
  intros Hq. unfold finalize_inactive_if_complete, has_pending_unbonding, drained.
  rewrite (has_pending_loop_spec _ _ _ _ (q_chain _ _ Hq a) (queue_fuel _ _ a Hq)), existsb_negb.
  destruct (is_validator vs a), (rd (val_status vs) a =? status.UNBONDING), (rd (stake_amount s) a =? 0);
    try done; cbn [negb andb]; by destruct (forallb _ _).
Qed.

(** *** Slashing *)

Lemma percent_of_bounds x p : 0 <= x -> 0 <= p <= 100 -> 0 <= percent_of x p <= x.
Proof.
  intros Hx Hp. unfold percent_of, wmul.
  assert (0 <= x * p) by nia. pose proof (Z.mod_pos_bound (x * p) (2 ^ 256) ltac:(lia)).
  pose proof (Z.mod_le (x * p) (2 ^ 256) ltac:(lia) ltac:(lia)).
  split; [apply Z.div_pos; lia|]. apply Z.div_le_upper_bound; [lia|]. nia.
Qed.

(** Below the overflow threshold it is the exact percentage, rounded down. *)
Lemma percent_of_exact x p : 0 <= x -> 0 <= p -> x * p < 2 ^ 256 -> percent_of x p = x * p / 100.
Proof. intros. unfold percent_of. rewrite wmul_small; [done|nia]. Qed.

(** What the entries [l] lose. *)
Definition slashes (p : Z) (m : gmap u32 U256) (l : list Z) : list Z :=
  (fun i => percent_of (rd m i) p) <$> l.

Lemma slashes_cons p m i l : lsum (slashes p m (i :: l)) = percent_of (rd m i) p + lsum (slashes p m l).
Proof. done. Qed.

Lemma slashes_ext p m m' l :
  (forall j, j ∈ l -> rd m' j = rd m j) -> slashes p m' l = slashes p m l.
Proof.
  intros He. apply list_fmap_ext. intros k j Hj. rewrite He; [done|]. by eapply list_elem_of_lookup_2.
Qed.

Record slash_post (p ct : Z) (l : list Z) (s s' : Staking) : Prop := {
  sp_amount : forall j, rd (unbonding_amount s') j =
    rd (unbonding_amount s) j - if decide (j ∈ l) then percent_of (rd (unbonding_amount s) j) p else 0;
  sp_sum : msum (unbonding_amount s') = msum (unbonding_amount s) - lsum (slashes p (unbonding_amount s) l);
  sp_time : forall j, rd (unbonding_complete_time s') j =
    if decide (j ∈ l /\ rd (unbonding_amount s) j <> 0)
    then Z.max (rd (unbonding_complete_time s) j) ct else rd (unbonding_complete_time s) j;
  sp_frame : s' = {| s with unbonding_amount := unbonding_amount s';
                            unbonding_complete_time := unbonding_complete_time s' |}
}.

Lemma slash_entry_spec p ct s total i :
  0 <= p <= 100 -> 0 <= rd (unbonding_amount s) i ->
  0 <= total -> total + rd (unbonding_amount s) i < 2 ^ 256 ->
  exists s', slash_entry p ct s total i = (s', total + percent_of (rd (unbonding_amount s) i) p) /\
    slash_post p ct [i] s s'.
Proof.
  intros Hp Hnn Ht Hov. unfold slash_entry. pose proof (percent_of_bounds _ p Hnn Hp) as Hb.
  destruct (rd (unbonding_amount s) i =? 0) eqn:E0; bools; cbn [negb].
  { assert (Hz : percent_of (rd (unbonding_amount s) i) p = 0) by lia. exists s. rewrite Hz, Z.add_0_r.
    split; [done|]. split.
    - intros j. case_decide as Hj; [apply list_elem_of_singleton in Hj as ->; lia|lia].
    - cbn. lia.
    - intros j. case_decide as Hj; [destruct Hj as [->%list_elem_of_singleton Hj]; done|done].
    - by destruct s. }
  set (x := percent_of (rd (unbonding_amount s) i) p) in *.
  set (s1 := if negb (x =? 0) then wr_unbonding_amount s i (wsub 256 (rd (unbonding_amount s) i) x) else s).
  assert (E1 : (if negb (x =? 0) then (wr_unbonding_amount s i (wsub 256 (rd (unbonding_amount s) i) x), wadd 256 total x)
               else (s, total)) = (s1, total + x)).
  { unfold s1. destruct (x =? 0) eqn:Ex; bools; cbn [negb]; [by rewrite Ex, Z.add_0_r|]. rewrite wadd_small by lia. done. }
  rewrite E1.
  assert (Ha : forall j, rd (unbonding_amount s1) j = rd (unbonding_amount s) j -
             if decide (j ∈ [i]) then percent_of (rd (unbonding_amount s) j) p else 0).
  { intros j. unfold s1. destruct (x =? 0) eqn:Ex; bools; cbn [negb unbonding_amount wr_unbonding_amount].
    - case_decide as Hj; [apply list_elem_of_singleton in Hj as ->|]; fold x; lia.
    - rewrite rd_insert, wsub_small by lia.
      destruct (decide (i = j)) as [<-|]; [rewrite decide_True by left; fold x; lia|].
      rewrite decide_False by (intros ?%list_elem_of_singleton; congruence). lia. }
  assert (Hs : msum (unbonding_amount s1) = msum (unbonding_amount s) - lsum (slashes p (unbonding_amount s) [i])).
  { unfold s1. change (lsum (slashes p (unbonding_amount s) [i])) with (x + 0).
    destruct (x =? 0) eqn:Ex; bools; cbn [negb unbonding_amount wr_unbonding_amount]; [lia|].
    rewrite msum_insert, wsub_small by lia. lia. }
  assert (Et : unbonding_complete_time s1 = unbonding_complete_time s) by (unfold s1; by destruct (negb _)).
  assert (Ef : s1 = {| s with unbonding_amount := unbonding_amount s1 |})
    by (unfold s1; destruct (negb _); [done|by destruct s]).
  destruct (rd (unbonding_complete_time s1) i <? ct) eqn:Ec; bools; (eexists; split; [done|]; split;
    [exact Ha|exact Hs| |rewrite Ef; done]); intros j; cbn [unbonding_complete_time wr_unbonding_complete_time];
    rewrite ?Et, ?rd_insert in *; destruct (decide (i = j)) as [<-|Hne];
    [rewrite decide_True by (split; [by left|done]); lia
    |rewrite decide_False by (intros [?%list_elem_of_singleton _]; congruence); done
    |rewrite decide_True by (split; [by left|done]); lia
    |rewrite decide_False by (intros [?%list_elem_of_singleton _]; congruence); done].
Qed.

Lemma slash_post_cons p ct i l s s1 s2 :
  i ∉ l -> slash_post p ct [i] s s1 -> slash_post p ct l s1 s2 -> slash_post p ct (i :: l) s s2.
Proof.
  intros Hil [A1 S1 T1 F1] [A2 S2 T2 F2].
  assert (Hother : forall j, j <> i -> rd (unbonding_amount s1) j = rd (unbonding_amount s) j).
  { intros j Hj. rewrite A1, decide_False by (intros ?%list_elem_of_singleton; done). lia. }
  split.
  - intros j. rewrite A2, A1. destruct (decide (j = i)) as [->|Hne].
    + rewrite (decide_False (P := i ∈ l)) by done. rewrite !decide_True by (by left). lia.
    + rewrite (decide_False (P := j ∈ [i])) by (intros ?%list_elem_of_singleton; done). rewrite Z.sub_0_r.
      destruct (decide (j ∈ l)); [rewrite decide_True by (by right)|rewrite decide_False by (intros [|]%elem_of_cons; done)]; lia.
  - rewrite S2, S1, !slashes_cons, (slashes_ext p (unbonding_amount s) (unbonding_amount s1)); [cbn; lia|].
    intros j Hj. apply Hother. intros ->. done.
  - intros j. rewrite T2, T1. destruct (decide (j = i)) as [->|Hne].
    + rewrite (decide_False (P := i ∈ l /\ _)) by (intros [? _]; done).
      destruct (decide (rd (unbonding_amount s) i = 0)).
      * rewrite !decide_False by (intros [_ ?]; done). done.
      * rewrite !decide_True by (split; [by left|done]). done.
    + rewrite (decide_False (P := j ∈ [i] /\ _)) by (intros [?%list_elem_of_singleton _]; done).
      rewrite Hother by done. destruct (decide (j ∈ l /\ rd (unbonding_amount s) j <> 0)) as [[Hj ?]|Hn].
      * rewrite decide_True by (split; [by right|done]). done.
      * rewrite decide_False; [done|]. intros [[->|?]%elem_of_cons ?]; [done|]. by apply Hn.
  - rewrite F2, F1. done.
Qed.

Lemma slash_loop_spec p ct l : forall fuel s total cur,
  chain (unbonding_next s) cur l -> (length l < fuel)%nat -> NoDup l -> 0 <= p <= 100 ->
  (forall i, 0 <= rd (unbonding_amount s) i) -> 0 <= total ->
  total + lsum (rd (unbonding_amount s) <$> l) < 2 ^ 256 ->
  exists s', slash_loop fuel p ct s total cur = Ok (s', total + lsum (slashes p (unbonding_amount s) l)) /\
    slash_post p ct l s s'.
Proof.
  induction l as [|i l IH]; intros fuel s total cur Hc Hf Hnd Hp Hnn Ht Hov; (destruct fuel as [|fuel]; [cbn in Hf; lia|]);
    pose proof (chain_head _ _ _ Hc) as ->; cbn [stored_head slash_loop] in *.
  { exists s. cbn. rewrite Z.add_0_r. split; [done|]. split; [..|by destruct s]; intros; cbn; try lia;
      rewrite decide_False by set_solver; lia. }
  apply chain_cons_inv in Hc as [Hi Hc]. inversion Hnd as [|? ? Hil Hnd']; subst.
  rewrite (proj2 (Z.eqb_neq _ _)) by lia. replace (i + 1 - 1) with i by lia.
  rewrite fmap_cons in Hov. change (lsum (?x :: ?y)) with (x + lsum y) in Hov.
  pose proof (Hnn i) as Hni. pose proof (lsum_rd_nonneg (unbonding_amount s) l Hnn) as Hlnn.
  destruct (slash_entry_spec p ct s total i) as (s1 & -> & H1); try done; try lia.
  pose proof (percent_of_bounds _ p Hni Hp) as Hb.
  assert (Hother : forall j, j ∈ l -> rd (unbonding_amount s1) j = rd (unbonding_amount s) j).
  { intros j Hj. rewrite (sp_amount _ _ _ _ _ H1), decide_False; [lia|].
    intros ->%list_elem_of_singleton. done. }
  assert (En : unbonding_next s1 = unbonding_next s) by (rewrite (sp_frame _ _ _ _ _ H1); done).
  destruct (IH fuel s1 (total + percent_of (rd (unbonding_amount s) i) p) (rd (unbonding_next s1) i))
    as (s2 & E2 & H2); try done; rewrite ?En; try done; try (cbn in Hf; lia).
  - intros j. rewrite (sp_amount _ _ _ _ _ H1). specialize (Hnn j). pose proof (percent_of_bounds _ p Hnn Hp).
    case_decide; lia.
  - rewrite (lsum_ext _ _ _ Hother). lia.
  - exists s2. rewrite En in E2. rewrite E2. split; [|by eapply slash_post_cons].
    do 2 f_equal. rewrite slashes_cons, (slashes_ext p (unbonding_amount s) (unbonding_amount s1)) by done. lia.
Qed.

Lemma slash_queue_ok p ct L a s s' :
  0 <= p <= 100 -> queue_ok s L -> slash_post p ct (L a) s s' -> queue_ok s' L.
Proof.
  intros Hp Hq [A1 _ _ F]. assert (Hnn : forall j, 0 <= rd (unbonding_amount s') j).
  { intros j. rewrite A1. pose proof (q_nonneg _ _ Hq j) as Hn. pose proof (percent_of_bounds _ p Hn Hp). case_decide; lia. }
  assert (E : unbonding_next s' = unbonding_next s /\ per_val_unbonding_head s' = per_val_unbonding_head s /\
    unbonding_validator s' = unbonding_validator s /\ unbonding_count s' = unbonding_count s) by (rewrite F; done).
  destruct E as (E1 & E2 & E3 & E4).
  split; rewrite ?E1, ?E2, ?E3, ?E4; try apply Hq; [|done].
  intros i Hi. apply (q_amount _ _ Hq). intros E. rewrite A1, E in Hi.
  pose proof (percent_of_bounds 0 p ltac:(lia) Hp). case_decide; lia.
Qed.

(** *** The registry is not touched *)

Lemma registry_sync_stake s vs a x vs' : sync_stake s vs a x = Ok vs' -> registry vs' = registry vs.
Proof.
  unfold sync_stake. intros E. inv_oks; try done.
  match goal with H : mark_pending _ _ = Ok _ |- _ => apply mark_pending_status in H as (_ & _ & H); exact H end.
Qed.

Lemma registry_demote_on_unstake env vs a x m : registry (demote_on_unstake env vs a x m) = registry vs.
Proof. unfold demote_on_unstake. repeat case_match; done. Qed.

Lemma registry_demote_on_slash env vs a x m : registry (demote_on_slash env vs a x m) = registry vs.
Proof. unfold demote_on_slash. repeat case_match; done. Qed.

Lemma registry_finalize s vs a vs' :
  finalize_inactive_if_complete s vs a = Ok vs' -> registry vs' = registry vs.
Proof. unfold finalize_inactive_if_complete. intros E. inv_oks; done. Qed.

(** A registry call after a stake never fails. *)
Lemma sync_stake_total s vs a x : exists vs', sync_stake s vs a x = Ok vs'.
Proof.
  unfold sync_stake, mark_pending, is_validator. cbv zeta.
  destruct (0 <? rd (address_to_index (wr_val_stake vs a x)) a) eqn:E; [|by eexists]. bools.
  destruct (_ && _); [|by eexists].
  rewrite (proj2 (Z.eqb_neq _ _)) by lia. cbn [negb]. destruct (negb _); by eexists.
Qed.

(** ** The world invariant *)

Definition world_ok `{Crypto} (w : World) (L : Address -> list Z) : Prop :=
  queue_ok (staking w) L /\ ledger_ok (staking w) (balance w) /\ registry_ok (valset w).

(** What the contract holds beyond the stakes and the pending withdrawals. *)
Definition surplus (w : World) : Z :=
  rd (balance w) STAKING_ADDRESS - (total_staked (staking w) + msum (unbonding_amount (staking w))).

(** The ledger after a change of one stake, the unbonding amounts and the
    contract's balance that is covered. *)
Lemma ledger_update s s' b b' a x :
  ledger_ok s b -> 0 <= x ->
  stake_amount s' = <[a := x]> (stake_amount s) ->
  total_staked s' = total_staked s - rd (stake_amount s) a + x ->
  (forall i, 0 <= rd (unbonding_amount s') i) -> balances_ok b' ->
  total_staked s' + msum (unbonding_amount s') <= rd b' STAKING_ADDRESS -> ledger_ok s' b'.
Proof.
  intros [Hs Ht Ha Hb Hv] Hx Es Et Ha' Hb' Hv'. split; try done.
  - intros y. rewrite Es, rd_insert. case_decide; [done|apply Hs].
  - rewrite Es, msum_insert. lia.
Qed.

Lemma queue_ext s s' L :
  unbonding_count s' = unbonding_count s -> unbonding_next s' = unbonding_next s ->
  per_val_unbonding_head s' = per_val_unbonding_head s ->
  unbonding_validator s' = unbonding_validator s -> unbonding_amount s' = unbonding_amount s ->
  queue_ok s L -> queue_ok s' L.
Proof. intros E1 E2 E3 E4 E5 []. by split; rewrite ?E1, ?E2, ?E3, ?E4, ?E5. Qed.

Lemma stake_ok `{Crypto} w L caller a amount w' d :
  queue_ok (staking w) L -> registry_ok (valset w) -> 0 <= amount ->
  ledger_ok (staking w) d -> balances_ok (balance w) ->
  rd (balance w) STAKING_ADDRESS = rd d STAKING_ADDRESS + amount ->
  stake w caller a amount = Ok w' ->
  caller = a /\ 0 < amount /\ world_ok w' L /\ balance w' = balance w /\
  stake_amount (staking w') = <[a := rd (stake_amount (staking w)) a + amount]> (stake_amount (staking w)) /\
  total_staked (staking w') = total_staked (staking w) + amount /\
  unbonding_amount (staking w') = unbonding_amount (staking w).
Proof.
  intros Hq Hr Hamt Hl Hbal Hb E. unfold stake in E. cbv zeta in E.
  do 2 inv_ok_step E. bools. subst caller.
  pose proof (ledger_bounds _ _ a Hl) as (? & ? & ?). pose proof (balances_fits _ STAKING_ADDRESS Hbal) as [_ ?].
  rewrite (wadd_small 256 (rd _ _)) in E by lia. rewrite (wadd_small 256 (total_staked _)) in E by lia.
  set (s' := set_total_staked (wr_stake_amount (staking w) a (rd (stake_amount (staking w)) a + amount))
                              (total_staked (staking w) + amount)).
  assert (E' : exists vs', sync_stake s' (valset w) a (rd (stake_amount (staking w)) a + amount) = Ok vs' /\
                           w' = mkWorld s' vs' (balance w)).
  { inv_ok_step E.
    - bools. assert (Hz : total_staked (staking w) + amount = amount) by lia. unfold s'. rewrite Hz. inv_oks. eauto.
    - inv_oks. eauto. }
  destruct E' as (vs' & Es & ->). split; [done|]. split; [lia|]. split; [|by split_and!].
  split; [|split]; cbn [staking valset balance].
  - by eapply (queue_ext (staking w)).
  - eapply (ledger_update (staking w)); [exact Hl| |done|..]; try done; cbn; try lia. apply Hl.
  - eapply registry_ok_ext; [by eapply registry_sync_stake|done].
Qed.

(** An unstake moves the amount from the stake to a new queue entry. *)
Lemma unstake_ok `{Crypto} env w L caller amount w' :
  world_ok w L -> caller <> 0 -> 0 <= amount -> unbonding_count (staking w) < MAX_U32 ->
  unstake env w caller amount = Ok w' ->
  let s := staking w in let s' := staking w' in
  0 < amount <= rd (stake_amount s) caller /\
  timestamp env + config_unbonding_period s < 2 ^ 64 /\
  world_ok w' (upd L caller (unbonding_count s :: L caller)) /\ surplus w' = surplus w /\ balance w' = balance w /\
  stake_amount s' = <[caller := rd (stake_amount s) caller - amount]> (stake_amount s) /\
  total_staked s' = total_staked s - amount /\
  unbonding_amount s' = <[unbonding_count s := amount]> (unbonding_amount s) /\
  unbonding_complete_time s' =
    <[unbonding_count s := timestamp env + config_unbonding_period s]> (unbonding_complete_time s) /\
  unbonding_count s' = unbonding_count s + 1.
Proof.
  intros (Hq & Hl & Hr) Hc Hamt Hmax E. unfold unstake in E. cbv zeta in E.
  do 2 inv_ok_step E. bools. inv_ok_step E. apply Ok_inj in E.
  unfold checked_complete_time in E2. apply ok_or_Ok, checked_add_Some in E2 as [-> Hov].
  cbn [config_unbonding_period set_total_staked wr_stake_amount total_staked config_min_stake] in *.
  pose proof (ledger_bounds _ _ caller Hl) as (? & ? & ?).
  rewrite (wsub_small 256 (rd _ _)) in E by lia. rewrite (wsub_small 256 (total_staked _)) in E by lia.
  set (s1 := set_total_staked (wr_stake_amount (staking w) caller (rd (stake_amount (staking w)) caller - amount))
                              (total_staked (staking w) - amount)) in E.
  assert (Hq1 : queue_ok s1 L) by (by eapply (queue_ext (staking w))).
  destruct (enqueue_queue_ok s1 L caller amount (timestamp env + config_unbonding_period (staking w)))
    as [Hq2 Hsum]; [done|done|lia|done|].
  pose proof (q_count _ _ Hq) as [? ?]. unfold MAX_U32 in *.
  assert (Ee : forall ct, let s2 := enqueue_unbonding s1 caller amount ct in
    unbonding_amount s2 = <[unbonding_count (staking w) := amount]> (unbonding_amount (staking w)) /\
    unbonding_complete_time s2 = <[unbonding_count (staking w) := ct]> (unbonding_complete_time (staking w)) /\
    unbonding_count s2 = unbonding_count (staking w) + 1 /\
    stake_amount s2 = stake_amount s1 /\ total_staked s2 = total_staked s1).
  { intros ct. unfold enqueue_unbonding. rewrite (proj2 (Z.eqb_neq _ _)) by lia. cbn.
    rewrite wadd_small by lia. done. }
  destruct (Ee (timestamp env + config_unbonding_period (staking w))) as (Ea & Et & Ec & Es & Ets).
  rewrite <- E. unfold surplus. cbn [staking balance]. split_and!; try done; try lia.
  2:{ rewrite Hsum, Ets. cbn. lia. }
  split; [exact Hq2|split]; cbn [staking balance valset].
  - eapply (ledger_update (staking w)); [exact Hl| |rewrite Es; reflexivity|rewrite Ets; cbn; lia|apply Hq2|apply Hl|].
    + lia.
    + rewrite Hsum, Ets. cbn. lia.
  - eapply registry_ok_ext; [|exact Hr]. unfold registry in *. cbn.
    pose proof (registry_demote_on_unstake env (wr_val_stake (valset w) caller
      (rd (stake_amount (staking w)) caller - amount)) caller (rd (stake_amount (staking w)) caller - amount)
      (config_min_stake (staking w))) as Hd. exact Hd.
Qed.

Lemma STAKING_nonzero : STAKING_ADDRESS <> 0.
Proof. done. Qed.

(** A claim never fails on a well-formed world: it pays out exactly the matured
    entries and keeps the others in order. *)
Lemma claim_ok `{Crypto} env w L caller :
  world_ok w L -> caller <> STAKING_ADDRESS ->
  let s := staking w in let ts := timestamp env in
  let paid := lsum (rd (unbonding_amount s) <$> matured ts s (L caller)) in
  exists w', claim_unbonded env w caller = Ok w' /\
  world_ok w' (upd L caller (immature ts s (L caller))) /\ surplus w' = surplus w /\
  stake_amount (staking w') = stake_amount s /\ total_staked (staking w') = total_staked s /\
  unbonding_count (staking w') = unbonding_count s /\
  (forall i, rd (unbonding_amount (staking w')) i =
     if decide (i ∈ matured ts s (L caller)) then 0 else rd (unbonding_amount s) i) /\
  (forall a, rd (balance w') a = rd (balance w) a + (if decide (a = caller) then paid else 0)
                                 - (if decide (a = STAKING_ADDRESS) then paid else 0)).
Proof.
  intros (Hq & Hl & Hr) Hne. cbv zeta.
  assert (Hnd : NoDup (matured (timestamp env) (staking w) (L caller))) by (apply NoDup_filter, Hq).
  pose proof (lsum_le_msum _ _ (q_nonneg _ _ Hq) Hnd) as Hpaid.
  pose proof (lsum_rd_nonneg _ (matured (timestamp env) (staking w) (L caller)) (q_nonneg _ _ Hq)) as Hpn.
  pose proof (lsum_le_msum _ _ (q_nonneg _ _ Hq) (q_nodup _ _ Hq caller)) as Hall.
  pose proof (ledger_bounds _ _ caller Hl) as (? & ? & ?).
  destruct (claim_loop_spec (timestamp env) (L caller) (list_fuel (staking w)) (mkClaim (staking w) 0 0 0)
    (rd (per_val_unbonding_head (staking w)) caller) []) as (c & Ec & Hpost).
  { by apply queue_fuel. }
  { split; cbn; try done; apply Hq. }
  { apply Hq. } { cbn. lia. } { cbn [total_claimable cl_state]. lia. }
  pose proof (claim_queue_ok _ _ _ _ _ Hq Hpost) as Hq'. cbv zeta in Hq'.
  unfold claim_unbonded. cbv zeta. rewrite Ec.
  set (s' := wr_per_val_unbonding_head _ caller (new_head_stored c)) in *.
  assert (Es : stake_amount s' = stake_amount (staking w) /\ total_staked s' = total_staked (staking w) /\
               unbonding_count s' = unbonding_count (staking w) /\
               unbonding_amount s' = unbonding_amount (cl_state c)).
  { pose proof (cp_stake _ _ _ _ _ Hpost). pose proof (cp_staked _ _ _ _ _ Hpost). pose proof (cp_count _ _ _ _ _ Hpost).
    unfold s'. destruct (negb _); done. }
  destruct Es as (E1 & E2 & E3 & E4).
  pose proof (cp_total _ _ _ _ _ Hpost) as Ht. cbn [total_claimable cl_state] in Ht. rewrite Z.add_0_l in Ht.
  pose proof (cp_sum _ _ _ _ _ Hpost) as Hs. cbn [cl_state] in Hs.
  set (paid := lsum _) in *. rewrite Ht.
  assert (Hb : exists b', (if negb (paid =? 0) then transfer_balance (balance w) STAKING_ADDRESS caller paid
                           else Ok (balance w)) = Ok b' /\ balances_ok b' /\
     forall a, rd b' a = rd (balance w) a - (if decide (a = STAKING_ADDRESS) then paid else 0)
                         + (if decide (a = caller) then paid else 0)).
  { destruct (paid =? 0) eqn:E0; bools; cbn [negb].
    - exists (balance w). split_and!; [done|apply Hl|]. intros. repeat case_decide; lia.
    - pose proof (transfer_balance_spec (balance w) STAKING_ADDRESS caller paid ltac:(apply Hl) Hpn) as Hb.
      rewrite (proj2 (Z.leb_le _ _)) in Hb by lia. destruct Hb as (b' & ? & ? & _ & ?). eauto. }
  destruct Hb as (b' & -> & Hbok & Hbr).
  rewrite (finalize_inactive_spec s' _ (valset w) caller Hq').
  eexists. split; [done|]. cbn [staking balance]. split; [split; [done|split]|].
  - cbn [staking balance]. split; rewrite ?E1, ?E2, ?E4; try apply Hl; try done.
    + intros i. rewrite <- E4. apply Hq'.
    + rewrite Hs, Hbr, decide_True, decide_False by done. lia.
  - cbn [valset]. eapply registry_ok_ext; [|exact Hr]. destruct (_ && _); done.
  - unfold surplus. cbn [staking balance]. rewrite E2, E4, Hs, (Hbr STAKING_ADDRESS), decide_True, decide_False by done.
    split_and!; try done; [lia|apply Hpost|]. intros a. rewrite Hbr. lia.
Qed.

(** What a slash takes from a validator. *)
Definition slashed_total (percent : Z) (s : Staking) (l : list Z) (a : Address) : Z :=
  percent_of (rd (stake_amount s) a) percent + lsum (slashes percent (unbonding_amount s) l).

Lemma slashes_bounds p (m : gmap Z Z) l :
  0 <= p <= 100 -> (forall i, 0 <= rd m i) -> 0 <= lsum (slashes p m l) <= lsum (rd m <$> l).
Proof.
  intros Hp Hm. induction l as [|i l IH]; [done|]. rewrite slashes_cons, fmap_cons.
  change (lsum (?x :: ?y)) with (x + lsum y). pose proof (percent_of_bounds _ p (Hm i) Hp). lia.
Qed.

Lemma slash_active_spec s b a p :
  ledger_ok s b -> 0 <= p <= 100 ->
  let x := percent_of (rd (stake_amount s) a) p in
  exists s', slash_active s a p = (s', x) /\
  (forall y, rd (stake_amount s') y = rd (stake_amount s) y - if decide (y = a) then x else 0) /\
  msum (stake_amount s') = msum (stake_amount s) - x /\ total_staked s' = total_staked s - x /\
  s' = {| s with stake_amount := stake_amount s'; total_staked := total_staked s' |}.
Proof.
  intros Hl Hp. cbv zeta. pose proof (ledger_bounds _ _ a Hl) as (? & ? & ?).
  pose proof (percent_of_bounds _ p (l_stake _ _ Hl a) Hp) as Hx. unfold slash_active. cbv zeta.
  destruct (rd (stake_amount s) a =? 0) eqn:E0; bools; cbn [negb].
  - assert (Hz : percent_of (rd (stake_amount s) a) p = 0) by lia. rewrite Hz. exists s.
    split_and!; try done; try lia; [|by destruct s]. intros. case_decide; lia.
  - cbn [total_staked wr_stake_amount]. rewrite !wsub_small, (wadd_small 256 0) by lia. eexists. split; [done|].
    split_and!; try done; cbn [stake_amount set_total_staked wr_stake_amount].
    + intros y. rewrite rd_insert. repeat case_decide; subst; congruence || lia.
    + rewrite msum_insert. lia.
Qed.

Lemma slash_ok `{Crypto} env w L a percent delay :
  world_ok w L -> 0 <= percent <= 100 -> slashed_withdrawal_delay (staking w) = Ok delay ->
  timestamp env + delay < 2 ^ 64 ->
  let s := staking w in let x := slashed_total percent s (L a) a in
  exists w', slash_stake env w a percent = Ok (w', x) /\ world_ok w' L /\ surplus w' = surplus w /\
  (forall b, rd (stake_amount (staking w')) b =
     rd (stake_amount s) b - if decide (b = a) then percent_of (rd (stake_amount s) a) percent else 0) /\
  (forall i, rd (unbonding_amount (staking w')) i = rd (unbonding_amount s) i -
     if decide (i ∈ L a) then percent_of (rd (unbonding_amount s) i) percent else 0) /\
  (forall i, rd (unbonding_complete_time (staking w')) i =
     if decide (i ∈ L a /\ rd (unbonding_amount s) i <> 0)
     then Z.max (rd (unbonding_complete_time s) i) (timestamp env + delay)
     else rd (unbonding_complete_time s) i) /\
  unbonding_count (staking w') = unbonding_count s /\
  (forall b, rd (balance w') b = rd (balance w) b - if decide (b = STAKING_ADDRESS) then x else 0).
Proof.
  intros (Hq & Hl & Hr) Hp Hd Hov. cbv zeta. unfold slash_stake. cbv zeta.
  rewrite (proj2 (Z.leb_le _ _)) by lia.
  destruct (slash_active_spec _ _ a percent Hl Hp) as (s1 & -> & R1 & M1 & T1 & F1). cbv zeta in *.
  pose proof (ledger_bounds _ _ a Hl) as (? & ? & ?).
  pose proof (percent_of_bounds _ percent (l_stake _ _ Hl a) Hp) as Hx.
  assert (E1 : unbonding_count s1 = unbonding_count (staking w) /\ unbonding_next s1 = unbonding_next (staking w) /\
    per_val_unbonding_head s1 = per_val_unbonding_head (staking w) /\
    unbonding_validator s1 = unbonding_validator (staking w) /\ unbonding_amount s1 = unbonding_amount (staking w) /\
    slashed_withdrawal_delay s1 = slashed_withdrawal_delay (staking w)) by (rewrite F1; done).
  destruct E1 as (C1 & N1 & P1 & V1 & A1 & D1).
  assert (Hq1 : queue_ok s1 L) by (by eapply (queue_ext (staking w))).
  rewrite D1, Hd. unfold checked_complete_time, checked_add. rewrite (proj2 (Z.ltb_lt _ _)) by done. cbn [ok_or].
  pose proof (lsum_le_msum _ _ (q_nonneg _ _ Hq) (q_nodup _ _ Hq a)) as Hall.
  pose proof (slashes_bounds percent _ (L a) Hp (q_nonneg _ _ Hq)) as Hsl.
  destruct (slash_loop_spec percent (timestamp env + delay) (L a) (list_fuel s1) s1
    (percent_of (rd (stake_amount (staking w)) a) percent) (rd (per_val_unbonding_head s1) a)) as (s2 & -> & Hs2).
  { apply Hq1. } { by apply queue_fuel. } { apply Hq. } { done. } { apply Hq1. } { lia. } { rewrite A1. lia. }
  set (x := slashed_total percent (staking w) (L a) a).
  assert (Ex : percent_of (rd (stake_amount (staking w)) a) percent +
               lsum (slashes percent (unbonding_amount s1) (L a)) = x) by (by rewrite A1).
  rewrite Ex. assert (Hx0 : 0 <= x <= rd (balance w) STAKING_ADDRESS) by (unfold x, slashed_total; lia).
  assert (Hb : exists b', (if negb (x =? 0) then decrease_balance (balance w) STAKING_ADDRESS x
                           else Ok (balance w)) = Ok b' /\ balances_ok b' /\
     forall b, rd b' b = rd (balance w) b - (if decide (b = STAKING_ADDRESS) then x else 0)).
  { destruct (x =? 0) eqn:E0; bools; cbn [negb].
    - exists (balance w). split_and!; [done|apply Hl|]. intros. case_decide; lia.
    - pose proof (decrease_balance_spec (balance w) STAKING_ADDRESS x (l_balances _ _ Hl) (proj1 Hx0)) as Hb.
      rewrite (proj2 (Z.leb_le _ _)) in Hb by lia. destruct Hb as (b' & ? & ? & _ & ?). eauto. }
  destruct Hb as (b' & -> & Hbok & Hbr). eexists. split; [done|]. cbn [staking balance].
  assert (E2 : stake_amount s2 = stake_amount s1 /\ total_staked s2 = total_staked s1)
    by (rewrite (sp_frame _ _ _ _ _ Hs2); done).
  destruct E2 as [S2 T2]. pose proof (sp_sum _ _ _ _ _ Hs2) as Hs. rewrite A1 in Hs.
  split; [split; [|split]|]; cbn [staking balance valset].
  - by eapply slash_queue_ok.
  - pose proof (slash_queue_ok _ _ _ _ _ _ Hp Hq1 Hs2) as Hq2. split; rewrite ?S2, ?T2; try done.
    + intros y. rewrite R1. pose proof (l_stake _ _ Hl y). case_decide; subst; lia.
    + rewrite M1, T1. pose proof (l_total _ _ Hl). lia.
    + apply Hq2.
    + rewrite Hbr, decide_True, T1 by done. unfold x, slashed_total. lia.
  - eapply registry_ok_ext; [|exact Hr]. rewrite registry_demote_on_slash. done.
  - assert (Et : unbonding_complete_time s1 = unbonding_complete_time (staking w)) by (rewrite F1; done).
    assert (Ec : unbonding_count s2 = unbonding_count s1) by (rewrite (sp_frame _ _ _ _ _ Hs2); done).
    destruct Hs2 as [PA _ PT _]. rewrite A1 in PA, PT. rewrite Et in PT.
    rewrite S2, Ec. unfold surplus. cbn [staking balance]. rewrite (Hbr STAKING_ADDRESS), decide_True, T2, T1, Hs by done.
    split_and!; try done. unfold x, slashed_total. lia.
Qed.

(** *** The per-block hook *)

Definition withdrawal_config (s : Staking) : u64 * u64 :=
  (config_unbonding_period s, config_slashed_withdrawal_delay s).

(** Both withdrawal delays can be added to the time without overflow. *)
Definition delays_fit (s : Staking) (ts : u64) : Prop :=
  ts + config_unbonding_period s < 2 ^ 64 /\
  exists d, slashed_withdrawal_delay s = Ok d /\ ts + d < 2 ^ 64.

Lemma delays_fit_ext s s' ts :
  withdrawal_config s' = withdrawal_config s -> delays_fit s ts -> delays_fit s' ts.
Proof. unfold withdrawal_config, delays_fit, slashed_withdrawal_delay. by intros [= -> ->]. Qed.

(** What one turn of the drain achieves. *)
Record drain_post (v : ValidatorRecord) (b : Balances) (sv sv' : Staking * ValidatorSet) : Prop := {
  dp_queue : exists L, queue_ok (fst sv') L;
  dp_ledger : ledger_ok (fst sv') b;
  dp_registry : registry (snd sv') = registry (snd sv);
  dp_count : unbonding_count (fst sv') <= unbonding_count (fst sv) + 1;
  dp_config : withdrawal_config (fst sv') = withdrawal_config (fst sv);
  dp_drained : vstatus v = status.UNBONDING -> rd (stake_amount (fst sv')) (validator_address v) = 0;
  dp_stake : forall a, rd (stake_amount (fst sv')) a = rd (stake_amount (fst sv)) a \/
                       rd (stake_amount (fst sv')) a = 0;
  dp_owed : total_staked (fst sv') + msum (unbonding_amount (fst sv')) =
            total_staked (fst sv) + msum (unbonding_amount (fst sv))
}.

Lemma drain_ok ts b L s vs v :
  queue_ok s L -> ledger_ok s b -> delays_fit s ts -> unbonding_count s < MAX_U32 ->
  validator_address v <> 0 ->
  exists sv', drain_validator ts (s, vs) v = Ok sv' /\ drain_post v b (s, vs) sv'.
Proof.
  intros Hq Hl [Hp (d & Hd & Hdt)] Hmax Ha. unfold drain_validator.
  destruct (vstatus v =? status.UNBONDING) eqn:Est; bools; cbn [negb].
  2:{ exists (s, vs). split; [done|]. split; cbn; eauto; try done; lia. }
  destruct (rd (stake_amount s) (validator_address v) =? 0) eqn:E0; bools; cbn [negb].
  { rewrite (finalize_inactive_spec s L vs _ Hq). eexists. split; [done|].
    split; cbn; eauto; try lia. destruct (_ && _); done. }
  pose proof (ledger_bounds _ _ (validator_address v) Hl) as (? & ? & ?).
  rewrite (proj2 (Z.leb_le _ _)) by lia. cbv zeta. rewrite wsub_small by lia.
  set (a := validator_address v) in *. set (x := rd (stake_amount s) a) in *.
  set (s1 := set_total_staked (wr_stake_amount s a 0) (total_staked s - x)).
  assert (Hq1 : queue_ok s1 L) by (by eapply (queue_ext s)).
  assert (Hct : exists period ct,
    (if 0 <? slash_count v then slashed_withdrawal_delay s1 else Ok (config_unbonding_period s1)) = Ok period /\
    checked_complete_time ts period = Ok ct).
  { unfold checked_complete_time, checked_add. destruct (0 <? slash_count v).
    - exists d. rewrite (proj2 (Z.ltb_lt _ _)) by done. by eexists.
    - exists (config_unbonding_period s). rewrite (proj2 (Z.ltb_lt _ _)) by done. by eexists. }
  destruct Hct as (period & ct & -> & ->). eexists. split; [done|].
  destruct (enqueue_queue_ok s1 L a x ct) as [Hq2 Hsum]; [done|done|lia|done|].
  destruct (enqueue_frame s1 a x ct) as (F1 & F2 & F3). cbv zeta in *.
  change (unbonding_amount s1) with (unbonding_amount s) in Hsum.
  pose proof (q_count _ _ Hq) as [? ?]. unfold MAX_U32 in *.
  split; cbn [fst snd]; rewrite ?F1, ?F2.
  - by eexists.
  - eapply (ledger_update s _ b b a 0); [done|lia|done|rewrite F2; cbn; fold x; lia|apply Hq2|apply Hl|].
    rewrite F2, Hsum. cbn. lia.
  - done.
  - rewrite F3, (proj2 (Z.eqb_neq _ _)) by lia. cbn. rewrite wadd_small; lia.
  - unfold enqueue_unbonding. by destruct (x =? 0).
  - intros _. cbn. apply rd_insert_eq.
  - intros y. cbn. rewrite rd_insert. case_decide; auto.
  - rewrite Hsum. cbn. lia.
Qed.

(** The whole loop over the validators [l]. *)
Record drain_all_post (l : list ValidatorRecord) (b : Balances) (sv sv' : Staking * ValidatorSet) : Prop := {
  da_queue : exists L, queue_ok (fst sv') L;
  da_ledger : ledger_ok (fst sv') b;
  da_registry : registry (snd sv') = registry (snd sv);
  da_drained : forall v, v ∈ l -> vstatus v = status.UNBONDING ->
    rd (stake_amount (fst sv')) (validator_address v) = 0;
  da_stake : forall a, rd (stake_amount (fst sv')) a = rd (stake_amount (fst sv)) a \/
                       rd (stake_amount (fst sv')) a = 0;
  da_owed : total_staked (fst sv') + msum (unbonding_amount (fst sv')) =
            total_staked (fst sv) + msum (unbonding_amount (fst sv))
}.

Lemma drain_all_ok ts b l : forall s vs L,
  queue_ok s L -> ledger_ok s b -> delays_fit s ts ->
  unbonding_count s + Z.of_nat (length l) <= MAX_U32 ->
  (forall v, v ∈ l -> validator_address v <> 0) ->
  exists sv', foldM (drain_validator ts) (s, vs) l = Ok sv' /\ drain_all_post l b (s, vs) sv'.
Proof.
  induction l as [|v l IH]; intros s vs L Hq Hl Hd Hc Ha; cbn [foldM].
  { exists (s, vs). split; [done|]. split; eauto; set_solver. }
  cbn [length] in Hc.
  destruct (drain_ok ts b L s vs v) as ([s1 vs1] & -> & [[L1 Q1] P2 P3 P4 P5 P6 P7 P8]); [done|done|done|lia|apply Ha; left|].
  cbn [fst snd] in *.
  destruct (IH s1 vs1 L1) as ([s2 vs2] & -> & [R1 R2 R3 R4 R5 R6]); [done|done|by eapply delays_fit_ext|lia| |].
  { intros w Hw. apply Ha. by right. }
  eexists. split; [done|]. cbn [fst snd] in *. split; cbn [fst snd]; try done; try congruence.
  - intros w [->|Hw]%elem_of_cons Hst; [|by apply R4]. destruct (R5 (validator_address v)) as [->|]; auto.
  - intros a. destruct (R5 a) as [->|]; auto.
Qed.

Lemma trim_loop_spec n s count :
  0 <= count -> 0 <= trim_loop n s count <= count /\
  forall i, trim_loop n s count <= i < count -> rd (unbonding_validator s) i = 0.
Proof.
  revert count. induction n as [|n IH]; intros count Hc; cbn [trim_loop]; [split; lia|].
  destruct (0 <? count) eqn:E; bools; [|split; lia].
  destruct (rd (unbonding_validator s) (count - 1) =? 0) eqn:Ev; bools; cbn [negb]; [|split; lia].
  destruct (IH (count - 1)) as [H1 H2]; [lia|]. split; [lia|]. intros i Hi.
  destruct (decide (i = count - 1)) as [->|]; [done|]. apply H2. lia.
Qed.

Lemma trim_queue_ok s L n :
  queue_ok s L -> queue_ok (set_unbonding_count s (trim_loop n s (unbonding_count s))) L.
Proof.
  intros Hq. pose proof (q_count _ _ Hq) as [Hc1 Hc2].
  destruct (trim_loop_spec n s (unbonding_count s) Hc1) as [Hr Hz].
  split; cbn [unbonding_count unbonding_next per_val_unbonding_head unbonding_validator unbonding_amount
              set_unbonding_count]; try apply Hq.
  - unfold fits. lia.
  - intros a i Hi. destruct (q_entry _ _ Hq _ _ Hi) as (Hb & Hv & Ha). split; [|done].
    destruct (decide (i < trim_loop n s (unbonding_count s))); [lia|].
    rewrite Hz in Hv by lia. congruence.
Qed.

Lemma process_ok `{Crypto} w L ts :
  world_ok w L -> delays_fit (staking w) ts ->
  unbonding_count (staking w) + validator_count (valset w) <= MAX_U32 ->
  exists w' L', process_unbonding w ts = Ok w' /\ world_ok w' L' /\ balance w' = balance w /\
  (forall a, rd (stake_amount (staking w')) a = rd (stake_amount (staking w)) a \/
             rd (stake_amount (staking w')) a = 0) /\
  (forall a, rd (address_to_index (valset w)) a <> 0 -> rd (val_status (valset w)) a = status.UNBONDING ->
             rd (stake_amount (staking w')) a = 0) /\
  total_staked (staking w') + msum (unbonding_amount (staking w')) =
  total_staked (staking w) + msum (unbonding_amount (staking w)).
Proof.
  intros (Hq & Hl & Hr) Hd Hc. unfold process_unbonding. cbv zeta.
  assert (Hlen : Z.of_nat (length (get_all_validators (valset w))) = validator_count (valset w)).
  { rewrite <- (length_fmap validator_address), get_all_validators_map by done.
    pose proof (ro_count _ Hr) as [? ?]. rewrite length_fmap, length_seqZ. lia. }
  destruct (drain_all_ok ts (balance w) (get_all_validators (valset w)) (staking w) (valset w) L)
    as ([s vs] & -> & [[L' Q] P2 P3 P4 P5 P6]); [done|done|done|lia| |].
  { intros v Hv E. apply elem_of_get_all in Hv; [|done]. rewrite E in Hv.
    apply get_validator_pubkey in Hv as [Hv _]. by rewrite (ro_zero _ Hr) in Hv. }
  cbn [fst snd] in *. eexists _, L'. split; [done|]. cbn [staking balance valset].
  split_and!; try done.
  - split; [by apply trim_queue_ok|]. split; [|by eapply registry_ok_ext].
    destruct P2. by split.
  - intros a Hi Hst. destruct (get_validator_Some _ _ Hi) as [v Hv].
    pose proof (get_validator_address _ _ _ Hv) as Ea. rewrite <- Ea. apply P4.
    + apply elem_of_get_all; [done|]. by rewrite Ea.
    + by rewrite (get_validator_status _ _ _ Hv).
Qed.

(** *** The payable call *)

Lemma dispatch_stake_ok `{Crypto} w L sender value validator amount w' :
  world_ok w L -> sender <> STAKING_ADDRESS -> 0 <= value ->
  dispatch_stake w sender value validator amount = Ok w' ->
  world_ok w' L /\ surplus w' = surplus w /\ sender = validator /\ value = amount /\ 0 < amount <= rd (balance w) sender /\
  (forall a, rd (stake_amount (staking w')) a =
     rd (stake_amount (staking w)) a + if decide (a = sender) then amount else 0) /\
  total_staked (staking w') = total_staked (staking w) + amount /\
  (forall a, rd (balance w') a = rd (balance w) a - (if decide (a = sender) then amount else 0)
                                 + (if decide (a = STAKING_ADDRESS) then amount else 0)).
Proof.
  intros (Hq & Hl & Hr) Hne Hv E. unfold dispatch_stake in E. inv_ok_step E.
  pose proof (transfer_balance_spec (balance w) sender STAKING_ADDRESS value (l_balances _ _ Hl) Hv) as Ht.
  destruct (value <=? rd (balance w) sender) eqn:Eb; [|congruence]. destruct Ht as (b' & Et & Hbok & _ & Hb).
  rewrite Et in E0. injection E0 as <-. inv_ok_step E. bools. subst amount.
  eapply (stake_ok _ L _ _ _ _ (balance w)) in E; try done.
  - destruct E as (-> & ? & Hw & Eb' & Es & Et' & Eu). unfold surplus. rewrite Eb', Es, Et', Eu. cbn [staking balance] in *.
    rewrite (Hb STAKING_ADDRESS), decide_False, decide_True by done. split_and!; try done; try lia. intros a. rewrite rd_insert. repeat case_decide; subst; congruence || lia.
  - cbn [balance]. rewrite Hb, decide_False, decide_True by done. lia.
Qed.

(** ** A concrete world *)

Lemma status_write_world_ok `{Crypto} s vs b L a x :
  queue_ok s L -> ledger_ok s b -> registry_ok vs -> world_ok (mkWorld s (wr_val_status vs a x) b) L.
Proof. intros Hq Hl Hr. split; [done|]. split; [done|]. by apply (registry_ok_ext vs). Qed.

Definition genesis_staking (min_stake : U256) (period : u64) (max_pct : u64) (delay : u64) : Staking :=
  mkStaking min_stake period max_pct ∅ 0 0 ∅ ∅ ∅ ∅ ∅ delay.

Lemma genesis_world_ok `{Crypto} vs b min period pct delay :
  registry_ok vs -> balances_ok b -> world_ok (mkWorld (genesis_staking min period pct delay) vs b) (fun _ => []).
Proof.
  intros Hr Hb. split; [|split]; [split|split|done]; cbn; intros; rewrite ?rd_empty, ?msum_empty in *; try done; try set_solver.
  - constructor.
  - constructor.
  - apply Hb.
Qed.

(** Validator 5 stakes 5000 and unstakes 2000 at time 1000. *)
Definition sample_run_staking : res World :=
  let w := mkWorld (genesis_staking 1000 100 0 0) sample_validators (<[5 := 9000]> ∅) in
  let? w := dispatch_stake w 5 5000 5 5000 in
  unstake sample_env w 5 2000.

Definition sample_world : World :=
  match sample_run_staking with
  | Ok w => w
  | Err _ => mkWorld (genesis_staking 1000 100 0 0) sample_validators ∅
  end.

Lemma sample_run_staking_ok : sample_run_staking = Ok sample_world.
Proof. vm_compute. reflexivity. Qed.

Definition sample_entries (a : Address) : list Z := if decide (a = 5) then [0] else [].

Lemma sample_balances_ok : balances_ok (<[5 := 9000]> ∅).
Proof.
  split; [|vm_compute; reflexivity]. intros a. rewrite rd_insert. case_decide; [lia|]. by rewrite rd_empty.
Qed.

Lemma sample_world_ok : @world_ok sample_crypto sample_world sample_entries.
Proof.
  pose proof sample_run_staking_ok as E. unfold sample_run_staking in E. cbv zeta in E. inv_ok_step E.
  assert (C : unbonding_count (staking a) = 0).
  { unfold dispatch_stake, stake in E0. cbv zeta in E0. do 4 inv_ok_step E0.
    inv_ok_step E0; repeat inv_ok_step E0; reflexivity. }
  eapply (dispatch_stake_ok (H := sample_crypto) _ (fun _ => [])) in E0 as (Hw & _);
    [|apply genesis_world_ok; [exact sample_registry_ok|exact sample_balances_ok]|discriminate|lia].
  eapply (unstake_ok (H := sample_crypto)) in E as (_ & _ & Hw' & _); [|exact Hw|lia|lia|rewrite C; reflexivity].
  rewrite C in Hw'. exact Hw'.
Qed.

#[local] Opaque sample_world.

(** The status an unstake or a slash leaves a registered validator in. *)
Definition status_after_unstake (st : u8) (below_min : bool) : u8 :=
  if below_min then
    if (st =? status.ACTIVE) || (st =? status.JAILED) then status.EXITING
    else if st =? status.PENDING then status.REGISTERED else st
  else st.

Lemma demote_on_unstake_status env vs a x m b :
  rd (val_status (demote_on_unstake env vs a x m)) b =
  if decide (b = a) then
    if is_validator vs a then status_after_unstake (rd (val_status vs) a) (x <? m) else rd (val_status vs) a
  else rd (val_status vs) b.
Proof.
  unfold demote_on_unstake, status_after_unstake. cbv zeta.
  destruct (is_validator vs a), (x <? m); cbn [andb];
    destruct (rd (val_status vs) a =? status.ACTIVE) eqn:E1, (rd (val_status vs) a =? status.PENDING) eqn:E2,
             (rd (val_status vs) a =? status.JAILED) eqn:E3; bools;
    try congruence; cbn [orb val_status set_pending_set_change wr_val_deactivated_at_height wr_val_jailed_at_height wr_val_status];
    rewrite ?rd_insert; repeat case_decide; subst; done || congruence || (unfold status.JAILED, status.PENDING in *; lia).
Qed.

(** A payable stake call on a well-formed world succeeds only for the
    validator itself, with the value sent equal to a positive amount the sender
    holds; it moves exactly that amount from the sender to the contract, adds it
    to the sender's stake and to the total and to no one else's, and keeps the
    world well formed. *)
Theorem stake_exact `{Crypto} w L sender value validator amount w' :
  world_ok w L -> sender <> STAKING_ADDRESS -> 0 <= value ->
  dispatch_stake w sender value validator amount = Ok w' ->
  world_ok w' L /\ surplus w' = surplus w /\ sender = validator /\ value = amount /\ 0 < amount <= rd (balance w) sender /\
  (forall a, rd (stake_amount (staking w')) a =
     rd (stake_amount (staking w)) a + if decide (a = sender) then amount else 0) /\
  total_staked (staking w') = total_staked (staking w) + amount /\
  (forall a, rd (balance w') a = rd (balance w) a - (if decide (a = sender) then amount else 0)
                                 + (if decide (a = STAKING_ADDRESS) then amount else 0)).
Proof. apply dispatch_stake_ok. Qed.

Lemma stake_exact_witness :
  exists w', dispatch_stake sample_world 5 500 5 500 = Ok w' /\
    total_staked (staking w') = total_staked (staking sample_world) + 500.
Proof.
  assert (Hx : is_ok (dispatch_stake sample_world 5 500 5 500) = true) by (vm_compute; reflexivity).
  destruct (dispatch_stake sample_world 5 500 5 500) as [w'|] eqn:E; [|discriminate Hx].
  exists w'. split; [reflexivity|].
  apply (@stake_exact sample_crypto sample_world sample_entries 5 500 5 500 w' sample_world_ok
           ltac:(discriminate) ltac:(lia) E).
Defined.

(** An unstake succeeds exactly when the amount is positive, covered by the
    caller's stake and its completion time fits a [u64]. It then moves the
    amount from the stake to a new queue entry that completes one unbonding
    period later, in front of the caller's list, pays nothing out yet, keeps the
    ledger solvent, and demotes the validator when its stake falls below the
    minimum (ACTIVE and JAILED leave through EXITING, PENDING goes back to
    REGISTERED). *)
Theorem unstake_exact `{Crypto} env w L caller amount :
  world_ok w L -> caller <> 0 -> 0 <= amount -> unbonding_count (staking w) < MAX_U32 ->
  let s := staking w in let i := unbonding_count s in
  let left := rd (stake_amount s) caller - amount in
  if (0 <? amount) && (amount <=? rd (stake_amount s) caller)
     && (timestamp env + config_unbonding_period s <? 2 ^ 64) then
    exists w', unstake env w caller amount = Ok w' /\
      world_ok w' (upd L caller (i :: L caller)) /\ balance w' = balance w /\
      rd (stake_amount (staking w')) caller = left /\
      total_staked (staking w') = total_staked s - amount /\
      rd (unbonding_amount (staking w')) i = amount /\
      rd (unbonding_complete_time (staking w')) i = timestamp env + config_unbonding_period s /\
      rd (val_status (valset w')) caller =
        if is_validator (valset w) caller
        then status_after_unstake (rd (val_status (valset w)) caller) (left <? config_min_stake s)
        else rd (val_status (valset w)) caller
  else exists e, unstake env w caller amount = Err e.
Proof.
  intros Hw Hc Hamt Hmax. cbv zeta. destruct (unstake env w caller amount) as [w'|e] eqn:E.
  - destruct (unstake_ok env w L caller amount w' Hw Hc Hamt Hmax E) as (Ha & Ht & Hw' & _ & Hb & Es & Ets & Ea & Ect & _).
    rewrite !(proj2 (Z.ltb_lt _ _)), (proj2 (Z.leb_le _ _)) by lia. exists w'.
    rewrite Es, Ets, Ea, Ect, !rd_insert_eq. split_and!; try done.
    pose proof (ledger_bounds _ _ caller (proj1 (proj2 Hw))) as (? & ? & ?).
    unfold unstake in E. cbv zeta in E. do 3 inv_ok_step E. apply Ok_inj in E as <-.
    cbn [valset val_status wr_val_unbonding_end]. rewrite demote_on_unstake_status, decide_True by done.
    rewrite wsub_small by lia. done.
  - destruct (_ && _) eqn:Eg; [|by eexists]. exfalso. bools.
    unfold unstake in E. cbv zeta in E. rewrite (proj2 (Z.eqb_neq _ _)) in E by lia.
    rewrite (proj2 (Z.leb_le _ _)) in E by done. unfold checked_complete_time, checked_add in E.
    cbn [config_unbonding_period set_total_staked wr_stake_amount negb] in E.
    rewrite (proj2 (Z.ltb_lt _ _)) in E by done. done.
Qed.

Lemma unstake_exact_witness :
  exists w', unstake sample_env sample_world 5 3000 = Ok w' /\ rd (stake_amount (staking w')) 5 = 0 /\
    rd (val_status (valset w')) 5 = status.EXITING.
Proof.
  assert (Hs : rd (stake_amount (staking sample_world)) 5 = 3000) by (vm_compute; reflexivity).
  assert (Hc : unbonding_count (staking sample_world) < MAX_U32) by (vm_compute; reflexivity).
  assert (Hp : config_unbonding_period (staking sample_world) = 100) by (vm_compute; reflexivity).
  assert (Hm : config_min_stake (staking sample_world) = 1000) by (vm_compute; reflexivity).
  assert (Hv : is_validator (valset sample_world) 5 = true) by (vm_compute; reflexivity).
  assert (Ha : rd (val_status (valset sample_world)) 5 = status.ACTIVE) by (vm_compute; reflexivity).
  pose proof (@unstake_exact sample_crypto sample_env sample_world sample_entries 5 3000 sample_world_ok
    ltac:(lia) ltac:(lia) Hc) as Hu. cbv zeta in Hu. rewrite Hs, Hp, Hm, Hv, Ha in Hu.
  destruct Hu as (w' & E & _ & _ & E1 & _ & _ & _ & E2). exists w'. exact (conj E (conj E1 E2)).
Defined.

(** A claim never fails: it pays the caller, from the contract's balance,
    exactly the sum of the entries whose completion time has come, zeroes those
    entries, keeps the others of the caller in their order and everyone else's
    list and stake as they were, and leaves the contract solvent. *)
Theorem claim_unbonded_pays `{Crypto} env w L caller :
  world_ok w L -> caller <> STAKING_ADDRESS ->
  let s := staking w in let ts := timestamp env in
  let paid := lsum (rd (unbonding_amount s) <$> matured ts s (L caller)) in
  exists w', claim_unbonded env w caller = Ok w' /\
  world_ok w' (upd L caller (immature ts s (L caller))) /\
  stake_amount (staking w') = stake_amount s /\
  (forall i, rd (unbonding_amount (staking w')) i =
     if decide (i ∈ matured ts s (L caller)) then 0 else rd (unbonding_amount s) i) /\
  (forall a, rd (balance w') a = rd (balance w) a + (if decide (a = caller) then paid else 0)
                                 - (if decide (a = STAKING_ADDRESS) then paid else 0)).
Proof.
  intros Hw Hc. destruct (claim_ok env w L caller Hw Hc) as (w' & ? & ? & _ & ? & _ & _ & ? & ?).
  exists w'. by split_and!.
Qed.

Lemma claim_unbonded_pays_witness :
  exists w', claim_unbonded (mkEnv 20 1100) sample_world 5 = Ok w' /\ rd (balance w') 5 = 6000.
Proof.
  assert (Hb : rd (balance sample_world) 5 = 4000) by (vm_compute; reflexivity).
  assert (Hm : lsum (rd (unbonding_amount (staking sample_world)) <$>
    matured 1100 (staking sample_world) (sample_entries 5)) = 2000) by (vm_compute; reflexivity).
  destruct (@claim_unbonded_pays sample_crypto (mkEnv 20 1100) sample_world sample_entries 5 sample_world_ok
    ltac:(discriminate)) as (w' & E & _ & _ & _ & Hr). exists w'. split; [exact E|].
  rewrite Hr, Hb. cbn [timestamp]. rewrite Hm, decide_True, decide_False by done. reflexivity.
Defined.

(** A slash of [percent] on a well-formed world removes that share, rounded
    down, from the stake and from every unbonding entry of the validator, pushes
    the completion of its non-empty entries to at least the slashed delay from
    now, burns from the contract exactly what it reports, never more than stake
    and entries together, and leaves the contract solvent. *)
Theorem slash_stake_exact `{Crypto} env w L a percent delay :
  world_ok w L -> 0 <= percent <= 100 -> slashed_withdrawal_delay (staking w) = Ok delay ->
  timestamp env + delay < 2 ^ 64 -> rd (balance w) STAKING_ADDRESS * 100 < 2 ^ 256 ->
  let s := staking w in
  exists w' x, slash_stake env w a percent = Ok (w', x) /\ world_ok w' L /\
  0 <= x <= rd (stake_amount s) a + lsum (rd (unbonding_amount s) <$> L a) /\
  rd (stake_amount (staking w')) a = rd (stake_amount s) a - rd (stake_amount s) a * percent / 100 /\
  (forall b, b <> a -> rd (stake_amount (staking w')) b = rd (stake_amount s) b) /\
  (forall i, rd (unbonding_amount (staking w')) i = rd (unbonding_amount s) i -
     if decide (i ∈ L a) then rd (unbonding_amount s) i * percent / 100 else 0) /\
  (forall i, i ∈ L a -> rd (unbonding_amount s) i <> 0 ->
     timestamp env + delay <= rd (unbonding_complete_time (staking w')) i) /\
  (forall b, rd (balance w') b = rd (balance w) b - if decide (b = STAKING_ADDRESS) then x else 0).
Proof.
  intros Hw Hp Hd Ht Hsup. cbv zeta. pose proof Hw as (Hq & Hl & _).
  destruct (slash_ok env w L a percent delay Hw Hp Hd Ht) as (w' & E & Hw' & _ & Hs & Hu & Hct & _ & Hb).
  pose proof (ledger_bounds _ _ a Hl) as (? & ? & ?).
  assert (Hex : forall x, 0 <= x <= rd (balance w) STAKING_ADDRESS -> percent_of x percent = x * percent / 100)
    by (intros; apply percent_of_exact; nia).
  assert (Hent : forall i, 0 <= rd (unbonding_amount (staking w)) i <= rd (balance w) STAKING_ADDRESS).
  { intros i. pose proof (q_nonneg _ _ Hq i). pose proof (rd_le_msum _ i (q_nonneg _ _ Hq)). lia. }
  exists w', (slashed_total percent (staking w) (L a) a). split; [done|]. split; [done|]. split_and!.
  - pose proof (percent_of_bounds _ percent (l_stake _ _ Hl a) Hp).
    pose proof (slashes_bounds percent _ (L a) Hp (q_nonneg _ _ Hq)). unfold slashed_total. lia.
  - pose proof (percent_of_bounds _ percent (l_stake _ _ Hl a) Hp).
    pose proof (slashes_bounds percent _ (L a) Hp (q_nonneg _ _ Hq)). unfold slashed_total. lia.
  - rewrite Hs, decide_True, Hex by (done || lia). lia.
  - intros b Hne. rewrite Hs, decide_False by done. lia.
  - intros i. rewrite Hu. case_decide; [|done]. by rewrite Hex.
  - intros i Hi Hn. rewrite Hct, decide_True by done. lia.
  - done.
Qed.

Lemma slash_stake_exact_witness :
  exists w' x, slash_stake sample_env sample_world 5 10 = Ok (w', x) /\
    rd (stake_amount (staking w')) 5 = 2700 /\ rd (unbonding_amount (staking w')) 0 = 1800.
Proof.
  assert (Hd : slashed_withdrawal_delay (staking sample_world) = Ok 200) by (vm_compute; reflexivity).
  assert (Hb : rd (balance sample_world) STAKING_ADDRESS = 5000) by (vm_compute; reflexivity).
  assert (Hs : rd (stake_amount (staking sample_world)) 5 = 3000) by (vm_compute; reflexivity).
  assert (Hu : rd (unbonding_amount (staking sample_world)) 0 = 2000) by (vm_compute; reflexivity).
  destruct (@slash_stake_exact sample_crypto sample_env sample_world sample_entries 5 10 200 sample_world_ok
    ltac:(lia) Hd ltac:(reflexivity) ltac:(rewrite Hb; reflexivity)) as (w' & x & E & _ & _ & E1 & _ & E2 & _).
  exists w', x. split; [exact E|]. rewrite E1, E2, Hs, Hu. split; [reflexivity|].
  rewrite decide_True by (apply list_elem_of_singleton; reflexivity). reflexivity.
Defined.

(** The per-block hook never fails on a well-formed world whose withdrawal
    delays fit: every UNBONDING validator's stake is moved to the unbonding
    queue, no other stake changes, no coin moves, what the contract owes in
    total is unchanged, and the tail trim keeps every live entry. *)
Theorem process_unbonding_drains `{Crypto} w L ts :
  world_ok w L -> delays_fit (staking w) ts ->
  unbonding_count (staking w) + validator_count (valset w) <= MAX_U32 ->
  exists w' L', process_unbonding w ts = Ok w' /\ world_ok w' L' /\ balance w' = balance w /\
  (forall a, rd (stake_amount (staking w')) a = rd (stake_amount (staking w)) a \/
             rd (stake_amount (staking w')) a = 0) /\
  (forall a, rd (address_to_index (valset w)) a <> 0 -> rd (val_status (valset w)) a = status.UNBONDING ->
             rd (stake_amount (staking w')) a = 0) /\
  total_staked (staking w') + msum (unbonding_amount (staking w')) =
  total_staked (staking w) + msum (unbonding_amount (staking w)).
Proof. apply process_ok. Qed.

(** The sample world with validator 5 on its way out. *)
Definition sample_leaving : World :=
  mkWorld (staking sample_world) (wr_val_status (valset sample_world) 5 status.UNBONDING) (balance sample_world).

Lemma sample_leaving_ok : @world_ok sample_crypto sample_leaving sample_entries.
Proof.
  pose proof sample_world_ok as (Hq & Hl & Hr).
  exact (status_write_world_ok (H := sample_crypto) _ _ _ _ 5 status.UNBONDING Hq Hl Hr).
Qed.

Lemma process_unbonding_drains_witness :
  exists w', process_unbonding sample_leaving 1000 = Ok w' /\ rd (stake_amount (staking w')) 5 = 0.
Proof.
  assert (Hd0 : delays_fit (staking sample_leaving) 1000).
  { split; [vm_compute; reflexivity|]. exists 200. split; vm_compute; reflexivity. }
  assert (Hc : unbonding_count (staking sample_leaving) + validator_count (valset sample_leaving) <= MAX_U32)
    by (vm_compute; discriminate).
  assert (Hi : rd (address_to_index (valset sample_leaving)) 5 <> 0) by (vm_compute; discriminate).
  assert (Hs : rd (val_status (valset sample_leaving)) 5 = status.UNBONDING) by (vm_compute; reflexivity).
  destruct (@process_unbonding_drains sample_crypto sample_leaving sample_entries 1000 sample_leaving_ok Hd0 Hc)
    as (w' & L' & E & _ & _ & _ & Hd & _).
  exists w'. split; [exact E|]. exact (Hd 5 Hi Hs).
Defined.
