(* ===== verification/Protocol.v ===== *)
(** * Protocol: the validator lifecycle across components

    The operations of [ValidatorSet.v] and [Staking.v] as one transition system
    on the [World], the way the precompiles and the block hooks interleave them,
    with the invariant every reachable world satisfies and the lifecycle every
    validator follows. *)

From S2P Require Import Prelude Native P2pAddress ValidatorSet Staking.

(** The state-changing entry points. *)
Inductive call : Type :=
| CRegister (caller addr : Address) (pubkey : list Z) (sig : option (list Z))
| CSetP2p (caller addr : Address) (version : u8) (encoded : list Z)
| CConfirmReady (caller : Address)
| CActivate (addr : Address)
| CDeactivate (caller addr : Address)
| CForceExit (addr : Address)
| CJail (addr : Address)
| CReshare (new_active_set : list Address) (active_set_hash : B256)
| CUpdateEpoch (ts bn : u64)
| CCleanup (max_removals : u32)
| CProposer (addr : Address)
| CParticipation (voters absent : list Address)
| CFinalized (fb_hash : B256) (voters absent : list Address)
| CStake (sender : Address) (value : U256) (validator : Address) (amount : U256)
| CUnstake (sender : Address) (amount : U256)
| CClaim (sender : Address)
| CUnjail (sender : Address)
| CSlash (validator : Address) (percent : u64)
| CProcessUnbonding (ts : u64).

Section Protocol.
Context `{Crypto}.

Definition on_valset (w : World) (r : res ValidatorSet) : res World :=
  let? vs := r in Ok (mkWorld (staking w) vs (balance w)).

Definition exec (env : BlockEnv) (w : World) (c : call) : res World :=
  let vs := valset w in
  match c with
  | CRegister caller addr pk sig => on_valset w (register_validator_with_sig env vs caller addr pk sig)
  | CSetP2p caller addr version encoded => on_valset w (set_p2p_address vs caller addr version encoded)
  | CConfirmReady caller => on_valset w (confirm_validator_ready vs caller)
  | CActivate addr => on_valset w (activate_validator vs addr)
  | CDeactivate caller addr => on_valset w (deactivate_validator env vs caller addr)
  | CForceExit addr => on_valset w (force_exit_validator env vs addr)
  | CJail addr => on_valset w (jail_validator env vs addr)
  | CReshare l h => on_valset w (activate_reshared_set vs l h)
  | CUpdateEpoch ts bn => on_valset w (update_epoch vs ts bn)
  | CCleanup max => on_valset w (Ok (fst (cleanup_inactive_validators vs max)))
  | CProposer addr => on_valset w (hook_record_proposer vs addr)
  | CParticipation voters absent => on_valset w (hook_record_participation vs voters absent)
  | CFinalized h voters absent => on_valset w (hook_record_finalized_participation vs h voters absent)
  | CStake sender value validator amount => dispatch_stake w sender value validator amount
  | CUnstake sender amount => unstake env w sender amount
  | CClaim sender => claim_unbonded env w sender
  | CUnjail sender => unjail_validator env w sender
  | CSlash a percent => let? (w', _) := slash_stake env w a percent in Ok w'
  | CProcessUnbonding ts => process_unbonding w ts
  end.

(** What callers and the chain configuration provide: no call comes from the
    zero address or the staking contract itself, keys are 48 bytes, integers are
    unsigned, withdrawal times fit a [u64], and the two counters are not
    exhausted. *)
Definition admissible (env : BlockEnv) (w : World) (c : call) : Prop :=
  match c with
  | CRegister _ addr pk _ => addr <> 0 /\ length pk = 48%nat /\ validator_count (valset w) < MAX_U32
  | CStake sender value _ _ => sender <> STAKING_ADDRESS /\ 0 <= value
  | CUnstake sender amount => sender <> 0 /\ 0 <= amount /\ unbonding_count (staking w) < MAX_U32
  | CClaim sender => sender <> STAKING_ADDRESS
  | CSlash _ percent => 0 <= percent /\ delays_fit (staking w) (timestamp env)
  | CProcessUnbonding ts => delays_fit (staking w) ts /\
      unbonding_count (staking w) + validator_count (valset w) <= MAX_U32
  | _ => True
  end.

#[local] Strategy expand [exec admissible].

Inductive step (w w' : World) : Prop :=
| step_call env c : admissible env w c -> exec env w c = Ok w' -> step w w'.

Inductive reachable (w : World) : World -> Prop :=
| reach_refl : reachable w w
| reach_step w1 w2 : reachable w w1 -> step w1 w2 -> reachable w w2.

(** ** The registry under every call *)

Lemma registry_on_valset w r w' :
  on_valset w r = Ok w' -> exists vs, r = Ok vs /\ w' = mkWorld (staking w) vs (balance w).
Proof. unfold on_valset. intros E. inv_oks. eauto. Qed.

Lemma registry_activate vs a vs' : activate_validator vs a = Ok vs' -> registry vs' = registry vs.
Proof. unfold activate_validator. intros E. inv_oks; done. Qed.

Lemma registry_set_p2p vs c a v e vs' : set_p2p_address vs c a v e = Ok vs' -> registry vs' = registry vs.
Proof.
  unfold set_p2p_address. intros E. cbv zeta in E. inv_oks. by destruct (validate_versioned v e); inv_oks.
Qed.

Lemma registry_hook_proposer vs a vs' : hook_record_proposer vs a = Ok vs' -> registry vs' = registry vs.
Proof. unfold hook_record_proposer, record_proposer. intros E. inv_oks; done. Qed.

Lemma registry_hook_participation vs v a vs' :
  hook_record_participation vs v a = Ok vs' -> registry vs' = registry vs.
Proof.
  unfold hook_record_participation. destruct a; [by intros [= ->]|]. apply registry_record_participation.
Qed.

(** A call on the registry alone keeps the staking side. *)
Lemma valset_world_ok w L vs :
  world_ok w L -> registry_ok vs -> world_ok (mkWorld (staking w) vs (balance w)) L.
Proof. intros (? & ? & _) ?. by split. Qed.

Lemma valset_ext_ok w L vs :
  world_ok w L -> registry vs = registry (valset w) -> world_ok (mkWorld (staking w) vs (balance w)) L.
Proof. intros Hw E. apply valset_world_ok; [done|]. eapply registry_ok_ext; [exact E|apply Hw]. Qed.

Lemma slash_percent env w a p r : slash_stake env w a p = Ok r -> p <= 100.
Proof. unfold slash_stake. cbv zeta. destruct (p <=? 100) eqn:Ep; bools; done. Qed.

Lemma unjail_validator_valset env w a w' :
  unjail_validator env w a = Ok w' ->
  exists vs, unjail_to_pending env (valset w) a = Ok vs /\ w' = mkWorld (staking w) vs (balance w).
Proof. unfold unjail_validator. intros E. cbv zeta in E. do 2 inv_ok_step E. apply Ok_inj in E as <-. eauto. Qed.

(** Every admissible call keeps the world well formed and what the staking
    contract holds beyond what it owes. *)
Lemma exec_world_ok env w L c w' :
  world_ok w L -> admissible env w c -> exec env w c = Ok w' ->
  exists L', world_ok w' L' /\ surplus w' = surplus w.
Proof.
  intros Hw Ha E. destruct c; cbn [exec admissible] in *;
    try (apply registry_on_valset in E as (vs & E & ->); exists L; split; [|done]).
  - destruct Ha as (? & ? & ?). apply valset_world_ok; [done|].
    eapply register_registry_ok; [apply Hw|..|exact E]; done.
  - eapply valset_ext_ok, registry_set_p2p; eauto.
  - eapply valset_ext_ok; [done|]. by apply confirm_status in E as (_ & _ & ? & _).
  - eapply valset_ext_ok, registry_activate; eauto.
  - eapply valset_ext_ok; [done|]. by apply deactivate_status in E as (_ & _ & _ & ?).
  - eapply valset_ext_ok; [done|]. exact (registry_punish _ _ _ _ _ E).
  - eapply valset_ext_ok; [done|]. exact (registry_punish _ _ _ _ _ E).
  - eapply valset_ext_ok, registry_activate_reshared_set; eauto.
  - eapply valset_ext_ok, registry_update_epoch; eauto.
  - apply Ok_inj in E as <-. apply valset_world_ok; [done|].
    destruct (cleanup_inactive_validators (valset w) max_removals) as [vs' r] eqn:Ec. cbn [fst].
    by eapply cleanup_spec in Ec as [? _]; [|apply Hw].
  - eapply valset_ext_ok, registry_hook_proposer; eauto.
  - eapply valset_ext_ok, registry_hook_participation; eauto.
  - eapply valset_ext_ok, registry_finalized_hook; eauto.
  - destruct Ha. exists L. eapply dispatch_stake_ok in E as (? & ? & _); done.
  - destruct Ha as (? & ? & ?). eexists. eapply unstake_ok in E as (_ & _ & Hw' & ? & _); done.
  - destruct (claim_ok env w L sender Hw Ha) as (w1 & E1 & Hw1 & Hs1 & _).
    rewrite E1 in E. apply Ok_inj in E as <-. by eexists.
  - apply unjail_validator_valset in E as (vs & E & ->). exists L. split; [|done]. eapply valset_ext_ok; [done|].
    by apply unjail_status in E as (_ & _ & _ & ? & _).
  - destruct Ha as [Hp (_ & d & Hd & Hdt)]. exists L.
    destruct (slash_stake env w validator percent) as [[w0 x]|] eqn:Es; [|done].
    pose proof (slash_percent _ _ _ _ _ Es) as Hpc.
    destruct (slash_ok env w L validator percent d) as (w1 & E1 & Hw1 & Hs1 & _); [done|lia|done|done|].
    apply Ok_inj in E as <-. rewrite Es in E1. by injection E1 as <- _.
  - destruct Ha as [Hd Hc]. destruct (process_ok w L ts Hw Hd Hc) as (w1 & L1 & E1 & Hw1 & Hb1 & _ & _ & Ho1).
    rewrite E1 in E. apply Ok_inj in E as <-. exists L1. split; [done|]. unfold surplus. by rewrite Hb1, Ho1.
Qed.

Lemma reachable_world_ok w w' L :
  world_ok w L -> reachable w w' -> exists L', world_ok w' L' /\ surplus w' = surplus w.
Proof.
  intros Hw Hr. induction Hr as [|w1 w2 Hr (L1 & H1 & E1) [env c Ha E]]; [eauto|].
  destruct (exec_world_ok env w1 L1 c w2 H1 Ha E) as (L2 & H2 & E2). exists L2. split; [done|congruence].
Qed.

(** ** The lifecycle *)

(** Where a validator is in its lifecycle; [None] when not registered. *)
Definition phase (vs : ValidatorSet) (a : Address) : option u8 := vstatus <$> get_validator vs a.

(** The transitions of the documented state machine. *)
Definition edge (x y : option u8) : bool :=
  match x, y with
  | None, Some t => t =? status.REGISTERED
  | Some f, None => f =? status.INACTIVE
  | Some f, Some t =>
      ((f =? status.REGISTERED) && ((t =? status.PENDING) || (t =? status.ACTIVE)))
      || ((f =? status.PENDING) && ((t =? status.ACTIVE) || (t =? status.REGISTERED)))
      || ((f =? status.ACTIVE) && ((t =? status.EXITING) || (t =? status.JAILED)))
      || ((f =? status.JAILED) && ((t =? status.PENDING) || (t =? status.EXITING)))
      || ((f =? status.EXITING) && (t =? status.UNBONDING))
      || ((f =? status.UNBONDING) && (t =? status.INACTIVE))
      || ((f =? status.INACTIVE) && (t =? status.REGISTERED))
  | None, None => false
  end.

Definition follows (vs vs' : ValidatorSet) : Prop :=
  forall a, phase vs' a = phase vs a \/ edge (phase vs a) (phase vs' a) = true.

Lemma phase_eq vs a :
  phase vs a = if rd (address_to_index vs) a =? 0 then None else Some (rd (val_status vs) a).
Proof. unfold phase, get_validator. cbv zeta. by destruct (_ =? 0). Qed.

(** With the registry unchanged only the statuses matter. *)
Lemma follows_status vs vs' :
  registry vs' = registry vs ->
  (forall a, rd (address_to_index vs) a <> 0 -> rd (val_status vs') a = rd (val_status vs) a \/
     edge (Some (rd (val_status vs) a)) (Some (rd (val_status vs') a)) = true) ->
  follows vs vs'.
Proof.
  intros [= Ei _ _ _ _ _] Hs a. rewrite !phase_eq, Ei. destruct (_ =? 0) eqn:E; bools; [by left|].
  destruct (Hs a E) as [->|]; auto.
Qed.

Lemma follows_same vs vs' :
  registry vs' = registry vs -> val_status vs' = val_status vs -> follows vs vs'.
Proof. intros Er Es. apply follows_status; [done|]. intros. left. by rewrite Es. Qed.

Lemma follows_insert vs vs' a x :
  registry vs' = registry vs -> val_status vs' = <[a := x]> (val_status vs) ->
  edge (Some (rd (val_status vs) a)) (Some x) = true -> follows vs vs'.
Proof.
  intros Er Es He. apply follows_status; [done|]. intros b _. rewrite Es, rd_insert. case_decide; subst; auto.
Qed.

Lemma status_foldl {A} (f : ValidatorSet -> A -> ValidatorSet) l s :
  (forall s a, val_status (f s a) = val_status s) -> val_status (foldl f s l) = val_status s.
Proof. intros Hf. revert s. induction l; intros s; simpl; [done|]. by rewrite IHl, Hf. Qed.

Lemma status_foldM {A} (f : ValidatorSet -> A -> res ValidatorSet) l s s' :
  (forall s a s', f s a = Ok s' -> val_status s' = val_status s) ->
  foldM f s l = Ok s' -> val_status s' = val_status s.
Proof.
  intros Hf. apply (foldM_inv (fun s' => val_status s' = val_status s)); [|done].
  intros s1 a s2 _ <- E. eauto.
Qed.

Lemma status_update_epoch vs ts bn vs' : update_epoch vs ts bn = Ok vs' -> val_status vs' = val_status vs.
Proof.
  unfold update_epoch. intros E. cbv zeta in E. inv_ok_step E. apply Ok_inj in E as <-.
  cbn [val_status emit set_logs set_epoch_start_block set_epoch_start_timestamp set_epoch_number].
  apply status_foldl. intros s v. unfold reset_epoch_counters. by destruct (_ && _).
Qed.

Lemma status_record_participation vs v a vs' :
  record_participation vs v a = Ok vs' -> val_status vs' = val_status vs.
Proof.
  unfold record_participation. intros E. inv_ok_step E.
  eapply status_foldM; [|exact E]. intros. simpl in *. by inv_oks.
Qed.

Lemma status_record_finalized vs v a vs' :
  record_finalized_participation vs v a = Ok vs' -> val_status vs' = val_status vs.
Proof.
  unfold record_finalized_participation. intros E. inv_ok_step E.
  eapply status_foldM; [|exact E]. intros. simpl in *. by inv_oks.
Qed.

Lemma status_finalized_hook vs h v a vs' :
  hook_record_finalized_participation vs h v a = Ok vs' -> val_status vs' = val_status vs.
Proof.
  intros E. destruct (decide (v ++ a = [])) as [Hn|Hn].
  { apply app_eq_nil in Hn as [-> ->]. by injection E as ->. }
  rewrite hook_finalized_unfold in E by done. inv_ok_step E; [by injection E as ->|].
  inv_ok_step E. apply Ok_inj in E as <-.
  rewrite <- (status_record_finalized vs v a _ E1). unfold guard_push. by destruct (_ && _).
Qed.

Lemma follows_trans_same vs1 vs2 vs3 :
  registry vs2 = registry vs1 -> val_status vs2 = val_status vs1 -> follows vs2 vs3 -> follows vs1 vs3.
Proof.
  intros [= Ei _ _ _ _ _] Es Hf a. specialize (Hf a). rewrite !(phase_eq vs1), !(phase_eq vs2), Ei, Es in *. done.
Qed.

Lemma follows_ext vs1 vs2 vs3 :
  registry vs3 = registry vs2 -> val_status vs3 = val_status vs2 -> follows vs1 vs2 -> follows vs1 vs3.
Proof.
  intros [= Ei _ _ _ _ _] Es Hf a. specialize (Hf a). rewrite !(phase_eq vs2), !(phase_eq vs3), Ei, Es in *. done.
Qed.

Lemma mark_pending_follows vs a vs' : mark_pending vs a = Ok vs' -> follows vs vs'.
Proof.
  intros E. apply mark_pending_status in E as ([?|[Ha ?]] & _ & ?); [by apply follows_same|].
  eapply follows_insert; eauto. by rewrite Ha.
Qed.

Lemma sync_stake_follows s vs a x vs' : sync_stake s vs a x = Ok vs' -> follows vs vs'.
Proof.
  unfold sync_stake. intros E. cbv zeta in E.
  apply (follows_trans_same vs (wr_val_stake vs a x)); [done|done|].
  inv_ok_step E; [|apply Ok_inj in E as <-; by apply follows_same].
  inv_ok_step E; [|apply Ok_inj in E as <-; by apply follows_same]. by eapply mark_pending_follows.
Qed.

(** A branch that writes one status along an edge. *)
Ltac along_edge :=
  bools; eapply follows_insert; [done|reflexivity|];
  match goal with E : rd (val_status _) _ = _ |- _ => rewrite E; reflexivity end.

Lemma demote_on_unstake_follows env vs a x m : follows vs (demote_on_unstake env vs a x m).
Proof.
  unfold demote_on_unstake. cbv zeta. destruct (is_validator vs a); [|by apply follows_same].
  destruct (_ && _) eqn:E1; [along_edge|]. destruct ((_ <? _) && (_ =? status.PENDING)) eqn:E2; [along_edge|].
  destruct ((_ <? _) && (_ =? status.JAILED)) eqn:E3; [along_edge|]. by apply follows_same.
Qed.

Lemma demote_on_slash_follows env vs a x m : follows vs (demote_on_slash env vs a x m).
Proof.
  unfold demote_on_slash. cbv zeta. destruct (_ && _ && _); [|by apply follows_same].
  destruct (_ =? status.ACTIVE) eqn:E2; [along_edge|].
  destruct (_ =? status.PENDING) eqn:E3; [along_edge|]. by apply follows_same.
Qed.

(** The drain only ever finishes UNBONDING validators. *)
Definition finishes (vs vs' : ValidatorSet) : Prop :=
  registry vs' = registry vs /\
  forall a, rd (val_status vs') a = rd (val_status vs) a \/
    rd (val_status vs) a = status.UNBONDING /\ rd (val_status vs') a = status.INACTIVE.

Lemma finishes_follows vs vs' : finishes vs vs' -> follows vs vs'.
Proof.
  intros [Hr Hs]. apply follows_status; [done|]. intros a _. destruct (Hs a) as [|[E1 E2]]; [auto|].
  right. by rewrite E1, E2.
Qed.

Lemma finalize_finishes s vs a vs' : finalize_inactive_if_complete s vs a = Ok vs' -> finishes vs vs'.
Proof.
  intros E. split; [by eapply registry_finalize|]. unfold finalize_inactive_if_complete in E. intros b.
  inv_ok_step E; [left; by apply Ok_inj in E as <-|]. cbv zeta in E.
  inv_ok_step E; [|left; by apply Ok_inj in E as <-]. bools. inv_ok_step E.
  inv_ok_step E; [|left; by apply Ok_inj in E as <-]. apply Ok_inj in E as <-.
  cbn [val_status wr_val_has_bls_share wr_val_unbonding_end wr_val_status]. rewrite rd_insert.
  case_decide; subst; auto.
Qed.

Lemma finishes_trans vs1 vs2 vs3 : finishes vs1 vs2 -> finishes vs2 vs3 -> finishes vs1 vs3.
Proof.
  intros [R1 S1] [R2 S2]. split; [congruence|]. intros a.
  destruct (S1 a) as [E1|[E1 E1']], (S2 a) as [E2|[E2 E2']]; rewrite ?E1, ?E1' in *; auto; congruence.
Qed.

Lemma drain_finishes ts sv v sv' : drain_validator ts sv v = Ok sv' -> finishes (snd sv) (snd sv').
Proof.
  destruct sv as [s vs]. unfold drain_validator. intros E. cbv zeta in E.
  inv_ok_step E; [apply Ok_inj in E as <-; split; auto|]. inv_ok_step E.
  - inv_ok_step E. inv_ok_step E. inv_ok_step E. apply Ok_inj in E as <-. cbn [snd]. split; [done|]. intros. by left.
  - inv_ok_step E. apply Ok_inj in E as <-. cbn [snd]. by eapply finalize_finishes.
Qed.

Lemma drain_all_finishes ts l sv sv' :
  foldM (drain_validator ts) sv l = Ok sv' -> finishes (snd sv) (snd sv').
Proof.
  apply (foldM_inv (fun x => finishes (snd sv) (snd x))); [|split; auto].
  intros sv1 v sv2 _ H1 E. eapply finishes_trans; [exact H1|by eapply drain_finishes].
Qed.

Lemma register_follows env vs c a pk sig vs' :
  register_validator_with_sig env vs c a pk sig = Ok vs' -> a <> 0 -> follows vs vs'.
Proof.
  intros E Ha b. pose proof (register_status _ _ _ _ _ _ _ E) as Es. rewrite !phase_eq, Es, rd_insert.
  apply registry_register in E as [_ [[H0 [= Ei _ _ _ _ _]]|(H0 & Hin & [= Ei _ _ _ _ _])]]; rewrite Ei.
  - cbn [address_to_index append_entry set_validator_count wr_consensus_pubkey_hash_to_address
         write_consensus_pubkey wr_val_consensus_pubkey_lo wr_val_consensus_pubkey_hi wr_index_to_address
         wr_address_to_index]. rewrite rd_insert. case_decide; subst; [|by left].
    destruct (_ =? 0); [by left; rewrite H0|]. right. by rewrite H0.
  - cbn [address_to_index rekey_entry wr_consensus_pubkey_hash_to_address
         write_consensus_pubkey wr_val_consensus_pubkey_lo wr_val_consensus_pubkey_hi].
    case_decide; subst; [|by left]. rewrite (proj2 (Z.eqb_neq _ _)) by done. right. by rewrite Hin.
Qed.

Lemma reshare_follows vs l h vs' :
  registry_ok vs -> activate_reshared_set vs l h = Ok vs' -> follows vs vs'.
Proof.
  intros Hok E. pose proof (reshare_spec vs l h Hok) as Hs.
  destruct (forallb (eligible vs) l && (Z.of_nat (length l) <? 2 ^ 32)) eqn:Eg;
    [|destruct Hs as [e He]; congruence].
  destruct Hs as (s1 & E1 & Hr & _ & Ha & _). rewrite E1 in E. apply Ok_inj in E as <-.
  apply andb_prop in Eg as [Eg _]. apply follows_status; [done|]. intros a Hi.
  destruct (Ha a Hi) as [_ ->]. destruct (in_set l a) eqn:El.
  - apply in_set_true, list_elem_of_In in El. rewrite forallb_forall in Eg. specialize (Eg a El).
    unfold eligible in Eg. bools. apply orb_prop in H1 as [[H1|H1]%orb_prop|H1]; bools; rewrite H1; auto.
  - destruct (_ =? status.EXITING) eqn:Ee; bools; [rewrite Ee|]; auto.
Qed.

Lemma cleanup_follows vs max : registry_ok vs -> follows vs (fst (cleanup_inactive_validators vs max)).
Proof.
  intros Hok. destruct (cleanup_inactive_validators vs max) as [vs' r] eqn:E.
  apply cleanup_spec in E as (_ & _ & _ & _ & Hk & _); [|done]. intros a. unfold phase. cbn [fst].
  destruct (Hk a) as [->|(-> & v & -> & Hv)]; [by left|]. right. cbn. by rewrite Hv.
Qed.

Lemma punish_follows env vs a j vs' : punish_validator env vs a j = Ok vs' -> follows vs vs'.
Proof.
  intros E. pose proof (registry_punish _ _ _ _ _ E) as Hr. apply punish_status in E as ([?|[Ha ?]] & _).
  - by apply follows_same.
  - eapply follows_insert; [done|done|]. rewrite Ha. by destruct j.
Qed.

Lemma activate_follows vs a vs' : activate_validator vs a = Ok vs' -> follows vs vs'.
Proof.
  intros E. pose proof (registry_activate _ _ _ E) as Hr. unfold activate_validator in E. cbv zeta in E.
  inv_ok_step E. inv_ok_step E; [apply Ok_inj in E as <-; by apply follows_same|].
  inv_ok_step E. apply Ok_inj in E as <-. apply negb_true_iff, andb_false_iff in E2.
  destruct E2; along_edge.
Qed.

Lemma slash_follows env w a p w' x : slash_stake env w a p = Ok (w', x) -> follows (valset w) (valset w').
Proof.
  unfold slash_stake. intros E. cbv zeta in E. inv_ok_step E.
  destruct (slash_active (staking w) a p) as [s1 x1]. do 3 inv_ok_step E.
  match goal with q : (Staking * Z)%type |- _ => destruct q end. inv_ok_step E.
  injection E as <- _. cbn [valset].
  eapply follows_trans_same; [| |apply demote_on_slash_follows]; done.
Qed.

Lemma stake_follows w sender value a x w' :
  dispatch_stake w sender value a x = Ok w' -> follows (valset w) (valset w').
Proof.
  unfold dispatch_stake, stake. intros E. cbv zeta in E. cbn [staking valset] in E. do 4 inv_ok_step E.
  inv_ok_step E.
  - inv_ok_step E. apply Ok_inj in E as <-. by eapply sync_stake_follows.
  - do 2 inv_ok_step E. apply Ok_inj in E as <-. by eapply sync_stake_follows.
Qed.

Lemma unstake_follows env w a x w' : unstake env w a x = Ok w' -> follows (valset w) (valset w').
Proof.
  unfold unstake. intros E. cbv zeta in E. do 3 inv_ok_step E. apply Ok_inj in E as <-. cbn [valset].
  eapply follows_ext; [| |eapply follows_trans_same; [| |apply demote_on_unstake_follows]]; done.
Qed.

Lemma claim_follows env w a w' : claim_unbonded env w a = Ok w' -> follows (valset w) (valset w').
Proof.
  unfold claim_unbonded. intros E. cbv zeta in E. do 3 inv_ok_step E. apply Ok_inj in E as <-. cbn [valset].
  by eapply finishes_follows, finalize_finishes.
Qed.

Lemma process_follows w ts w' : process_unbonding w ts = Ok w' -> follows (valset w) (valset w').
Proof.
  unfold process_unbonding. intros E. cbv zeta in E. inv_ok_step E. destruct a as [s vs]. apply Ok_inj in E as <-.
  apply drain_all_finishes in E0. by apply finishes_follows.
Qed.

Lemma exec_follows env w L c w' :
  world_ok w L -> admissible env w c -> exec env w c = Ok w' -> follows (valset w) (valset w').
Proof.
  intros (Hq & Hl & Hr) Ha E. destruct c; cbn [exec admissible] in *;
    try (apply registry_on_valset in E as (vs & E & ->); cbn [valset]).
  - eapply register_follows; [done|apply Ha].
  - apply follows_same; [by eapply registry_set_p2p|]. unfold set_p2p_address in E. cbv zeta in E. inv_oks.
    by destruct (validate_versioned version encoded); inv_oks.
  - apply confirm_status in E as (? & _ & ? & _). by apply follows_same.
  - by eapply activate_follows.
  - apply deactivate_status in E as (Hs & Es & _ & Er). eapply follows_insert; [exact Er|exact Es|]. by rewrite Hs.
  - exact (punish_follows _ _ _ _ _ E).
  - exact (punish_follows _ _ _ _ _ E).
  - by eapply reshare_follows.
  - apply follows_same; [by eapply registry_update_epoch|by eapply status_update_epoch].
  - apply Ok_inj in E as <-. by apply cleanup_follows.
  - apply follows_same; [by eapply registry_hook_proposer|].
    unfold hook_record_proposer, record_proposer in E. inv_oks; done.
  - apply follows_same; [by eapply registry_hook_participation|]. unfold hook_record_participation in E.
    destruct absent; [by injection E as ->|]. by eapply status_record_participation.
  - apply follows_same; [by eapply registry_finalized_hook|by eapply status_finalized_hook].
  - by eapply stake_follows.
  - by eapply unstake_follows.
  - by eapply claim_follows.
  - apply unjail_validator_valset in E as (vs & E & ->). cbn [valset].
    apply unjail_status in E as (Hs & Es & _ & Er & _). eapply follows_insert; [exact Er|exact Es|]. by rewrite Hs.
  - destruct (slash_stake env w validator percent) as [[w1 x]|] eqn:E1; [|done]. injection E as <-.
    by eapply slash_follows.
  - by eapply process_follows.
Qed.
End Protocol.

(** ** Properties *)

(** C1. Safety of the whole validator economy: whatever admissible calls the
    precompiles and hooks interleave, starting from a well-formed world, the
    registry stays a bijection between indices and validators with unique keys,
    the stakes add up to the recorded total, each pending amount is on exactly
    one validator's list, and the staking contract holds exactly the stakes and
    the pending withdrawals plus the surplus it started with: every coin a call
    stakes, pays out or burns is moved on both sides. A contract that starts
    with nothing beyond what it owes, as at genesis, therefore always holds
    exactly what it owes. *)
Theorem reachable_solvent `{Crypto} w L w' :
  world_ok w L -> reachable w w' ->
  registry_ok (valset w') /\
  msum (stake_amount (staking w')) = total_staked (staking w') /\
  rd (balance w') STAKING_ADDRESS =
    total_staked (staking w') + msum (unbonding_amount (staking w')) + surplus w /\
  0 <= surplus w /\
  exists L', queue_ok (staking w') L'.
Proof.
  intros Hw Hr. destruct (reachable_world_ok w w' L Hw Hr) as (L' & (Hq & Hl & Hreg) & Hs).
  pose proof (l_solvent _ _ Hl). unfold surplus in *.
  split_and!; [done|apply Hl|lia|lia|by eexists].
Qed.

(** C19. The lifecycle: from a well-formed world, every admissible call moves
    every validator along an edge of the documented state machine or leaves it
    where it is; new validators appear as REGISTERED and only INACTIVE ones
    disappear. *)
Theorem lifecycle_edges `{Crypto} w L w1 w2 :
  world_ok w L -> reachable w w1 -> step w1 w2 ->
  forall a, phase (valset w2) a = phase (valset w1) a \/
            edge (phase (valset w1) a) (phase (valset w2) a) = true.
Proof.
  intros Hw Hr [env c Ha E] a. destruct (reachable_world_ok w w1 L Hw Hr) as (L1 & H1 & _).
  exact (exec_follows env w1 L1 c w2 H1 Ha E a).
Qed.

(** *** Witnesses *)

(** A later block at which the sample entry has matured. *)
Definition later : BlockEnv := mkEnv 20 1100.

Lemma sample_claim_step :
  exists w', exec (H := sample_crypto) later sample_world (CClaim 5) = Ok w' /\
    rd (balance w') STAKING_ADDRESS = 3000.
Proof.
  assert (Hx : match exec (H := sample_crypto) later sample_world (CClaim 5) with
               | Ok w' => rd (balance w') STAKING_ADDRESS | Err _ => 0 end = 3000) by (vm_compute; reflexivity).
  destruct (exec (H := sample_crypto) later sample_world (CClaim 5)) as [w'|]; [|discriminate Hx].
  exists w'. exact (conj eq_refl Hx).
Qed.

Lemma reachable_solvent_witness :
  exists w', @reachable sample_crypto sample_world w' /\
    rd (balance w') STAKING_ADDRESS = 3000 /\ surplus sample_world = 0 /\
    rd (balance w') STAKING_ADDRESS =
      total_staked (staking w') + msum (unbonding_amount (staking w')) + surplus sample_world.
Proof.
  destruct sample_claim_step as (w' & E & Hb). exists w'.
  assert (Hr : @reachable sample_crypto sample_world w').
  { apply (@reach_step sample_crypto sample_world sample_world w'); [constructor|].
    apply (@step_call sample_crypto sample_world w' later (CClaim 5)); [cbn; discriminate|exact E]. }
  split; [exact Hr|]. split; [exact Hb|]. split; [vm_compute; reflexivity|].
  exact (proj1 (proj2 (proj2 (@reachable_solvent sample_crypto sample_world sample_entries w' sample_world_ok Hr)))).
Defined.

Lemma sample_exit_step :
  exists w', exec (H := sample_crypto) later sample_world (CUnstake 5 3000) = Ok w' /\
    phase (valset w') 5 = Some status.EXITING.
Proof.
  assert (Hx : match exec (H := sample_crypto) later sample_world (CUnstake 5 3000) with
               | Ok w' => phase (valset w') 5 | Err _ => None end = Some status.EXITING) by (vm_compute; reflexivity).
  destruct (exec (H := sample_crypto) later sample_world (CUnstake 5 3000)) as [w'|]; [|discriminate Hx].
  exists w'. exact (conj eq_refl Hx).
Qed.

Lemma lifecycle_edges_witness :
  exists w', @step sample_crypto sample_world w' /\ phase (valset w') 5 = Some status.EXITING /\
    (phase (valset w') 5 = phase (valset sample_world) 5 \/
     edge (phase (valset sample_world) 5) (phase (valset w') 5) = true).
Proof.
  destruct sample_exit_step as (w' & E & Hp). exists w'.
  assert (Hs : @step sample_crypto sample_world w').
  { apply (@step_call sample_crypto sample_world w' later (CUnstake 5 3000)); [|exact E].
    split; [discriminate|]. split; [discriminate|]. vm_compute. reflexivity. }
  split; [exact Hs|]. split; [exact Hp|].
  exact (@lifecycle_edges sample_crypto sample_world sample_entries sample_world w' sample_world_ok
           (@reach_refl sample_crypto sample_world) Hs 5).
Defined.
