(* ===== verification/Tokens.v ===== *)
(** * Tokens: Promis, Gratis and the Promis limit

    [crates/core/promis], [crates/core/gratis] and [crates/core/promislimit]. The
    two synthetic tokens share the same supply accounting ([mine], [burn],
    [mine_coen]), written once against the interface [Fungible] and instantiated
    for each contract; [Gratis] adds the credis escrow with its per-account
    pledge ledger. *)

From S2P Require Import Prelude Native.

Definition CREDIS_ADDRESS : Address := 0x100A.

Inductive TokenEvent : Type :=
| Mined (account : Address) (amount newTotalSupply : U256)
| Burned (account : Address) (amount remainingSupply : U256)
| MineCoen (sender : Address) (amount unitAmount : U256)
| Pledged (account : Address) (amount totalPledged : U256)
| Unpledged (account : Address) (amount remainingPledged : U256).

(** ** The interface of a supply-accounted token *)

Class Fungible (T : Type) := {
  total_supply : T -> U256;
  balances : T -> gmap Address U256;
  write_supply : T -> U256 -> T;
  write_balance : T -> Address -> U256 -> T;
  token_emit : T -> TokenEvent -> T;
  token_name : string
}.

(** What the accounting relies on: the two slots are independent and an event
    touches neither. *)
Class FungibleLaws (T : Type) `{Fungible T} := {
  supply_write_supply (t : T) v : total_supply (write_supply t v) = v;
  balances_write_supply (t : T) v : balances (write_supply t v) = balances t;
  supply_write_balance (t : T) a v : total_supply (write_balance t a v) = total_supply t;
  balances_write_balance (t : T) a v : balances (write_balance t a v) = <[a := v]> (balances t);
  supply_emit (t : T) e : total_supply (token_emit t e) = total_supply t;
  balances_emit (t : T) e : balances (token_emit t e) = balances t
}.

Section Fungible.
Context {T : Type} `{FungibleLaws T}.
Implicit Types t : T.

Definition balance_of (t : T) (account : Address) : U256 := rd (balances t) account.

(** [checked_add] of both runtimes. *)
Definition token_add (left right : U256) (context : string) : res U256 :=
  ok_or (checked_add 256 left right) (Revert context).

Definition mine (t : T) (account : Address) (amount : U256) : res (T * U256) :=
  ensure negb (amount =? 0) else Revert "amount must be positive" in
  ensure negb (account =? 0) else Revert "invalid address" in
  let? new_balance := token_add (rd (balances t) account) amount (token_name ++ " balance overflow") in
  let? new_supply := token_add (total_supply t) amount (token_name ++ " total_supply overflow") in
  let t := write_balance t account new_balance in
  let t := write_supply t new_supply in
  let t := token_emit t (Mined account amount new_supply) in
  Ok (t, new_supply).

Definition burn (t : T) (account : Address) (amount : U256) : res (T * U256) :=
  ensure negb (amount =? 0) else Revert "amount must be positive" in
  let balance := rd (balances t) account in
  ensure amount <=? balance else Revert "insufficient balance" in
  let t := write_balance t account (wsub 256 balance amount) in
  let supply := total_supply t in
  let remaining := wsub 256 supply amount in
  let t := write_supply t remaining in
  let t := token_emit t (Burned account amount remaining) in
  Ok (t, remaining).

Definition mine_coen (t : T) (account : Address) (amount : U256) : res (T * U256) :=
  ensure negb (amount =? 0) else Revert "amount must be positive" in
  let balance := rd (balances t) account in
  ensure amount <=? balance else Revert "insufficient balance" in
  let t := write_balance t account (wsub 256 balance amount) in
  let supply := total_supply t in
  let t := write_supply t (wsub 256 supply amount) in
  let t := token_emit t (MineCoen account amount amount) in
  Ok (t, amount).

(** The [mineCoen] call of both precompiles: burn, then mint the native coin. *)
Definition dispatch_mine_coen (tb : T * Balances) (sender : Address) (amount : U256) :
    res (T * Balances * U256) :=
  let? (t, amount) := mine_coen (fst tb) sender amount in
  let b := if negb (amount =? 0) then increase_balance (snd tb) sender amount else snd tb in
  Ok (t, b, amount).

(** Balances are unsigned and add up to the supply, which is a [U256]. *)
Definition supply_ok (t : T) : Prop :=
  (forall a, 0 <= rd (balances t) a) /\ msum (balances t) = total_supply t /\ total_supply t < 2 ^ 256.

Lemma supply_bounds t a : supply_ok t -> 0 <= rd (balances t) a <= total_supply t.
Proof. intros (Hn & Hs & _). pose proof (Hn a). pose proof (rd_le_msum _ a Hn). lia. Qed.

(** Any update of one balance that the supply follows. *)
Lemma supply_ok_update t t' a x :
  supply_ok t -> 0 <= x -> balances t' = <[a := x]> (balances t) ->
  total_supply t' = total_supply t - rd (balances t) a + x -> total_supply t' < 2 ^ 256 -> supply_ok t'.
Proof.
  intros (Hn & Hs & Hf) Hx Eb Es Hov. split; [|split]; [|rewrite Eb, msum_insert; lia|done].
  intros b. rewrite Eb, rd_insert. case_decide; [done|apply Hn].
Qed.

Lemma mine_spec t account amount :
  supply_ok t -> 0 <= amount ->
  if negb (amount =? 0) && negb (account =? 0) && (total_supply t + amount <? 2 ^ 256) then
    exists t', mine t account amount = Ok (t', total_supply t + amount) /\ supply_ok t' /\
      balances t' = <[account := rd (balances t) account + amount]> (balances t) /\
      total_supply t' = total_supply t + amount
  else exists e, mine t account amount = Err e.
Proof.
  intros Hok Ha. pose proof (supply_bounds t account Hok) as Hb. unfold mine, token_add, checked_add.
  destruct (negb (amount =? 0)); [|by eexists]. destruct (negb (account =? 0)); [|by eexists]. cbn [andb].
  destruct (total_supply t + amount <? 2 ^ 256) eqn:E; bools.
  - rewrite (proj2 (Z.ltb_lt _ _)) by lia. cbn [ok_or]. eexists. split; [done|].
    assert (E1 : forall t, balances (token_emit (write_supply (write_balance t account (rd (balances t) account + amount))
      (total_supply t + amount)) (Mined account amount (total_supply t + amount))) =
      <[account := rd (balances t) account + amount]> (balances t))
      by (intros; by rewrite balances_emit, balances_write_supply, balances_write_balance).
    rewrite E1, supply_emit, supply_write_supply. split; [|done].
    eapply supply_ok_update; [exact Hok| |apply E1|..]; rewrite ?supply_emit, ?supply_write_supply; lia.
  - destruct (rd (balances t) account + amount <? 2 ^ 256); by eexists.
Qed.

(** The shape shared by [burn] and [mine_coen]. *)
Lemma debit_ok t account amount e :
  supply_ok t -> 0 <= amount <= rd (balances t) account ->
  let t1 := write_balance t account (wsub 256 (rd (balances t) account) amount) in
  let t' := token_emit (write_supply t1 (wsub 256 (total_supply t1) amount)) e in
  supply_ok t' /\ balances t' = <[account := rd (balances t) account - amount]> (balances t) /\
  total_supply t' = total_supply t - amount /\ wsub 256 (total_supply t1) amount = total_supply t - amount.
Proof.
  intros Hok Ha. cbv zeta. pose proof (supply_bounds t account Hok) as Hb. pose proof Hok as (_ & _ & Hf).
  rewrite supply_write_balance, !wsub_small by lia.
  rewrite balances_emit, balances_write_supply, balances_write_balance, supply_emit, supply_write_supply.
  split; [|done]. eapply supply_ok_update; [exact Hok| |..];
    rewrite ?balances_emit, ?balances_write_supply, ?balances_write_balance, ?supply_emit, ?supply_write_supply;
    [|reflexivity|lia..]. lia.
Qed.

Lemma burn_spec t account amount :
  supply_ok t -> 0 <= amount ->
  if negb (amount =? 0) && (amount <=? rd (balances t) account) then
    exists t', burn t account amount = Ok (t', total_supply t - amount) /\ supply_ok t' /\
      balances t' = <[account := rd (balances t) account - amount]> (balances t) /\
      total_supply t' = total_supply t - amount
  else exists e, burn t account amount = Err e.
Proof.
  intros Hok Ha. unfold burn. destruct (negb (amount =? 0)); [|by eexists]. cbn [andb].
  destruct (amount <=? rd (balances t) account) eqn:E; bools; [|by eexists].
  destruct (debit_ok t account amount (Burned account amount (total_supply t - amount)) Hok ltac:(lia)) as (H1 & H2 & H3 & H4).
  rewrite H4 in *. by eexists.
Qed.

Lemma mine_coen_spec t account amount :
  supply_ok t -> 0 <= amount ->
  if negb (amount =? 0) && (amount <=? rd (balances t) account) then
    exists t', mine_coen t account amount = Ok (t', amount) /\ supply_ok t' /\
      balances t' = <[account := rd (balances t) account - amount]> (balances t) /\
      total_supply t' = total_supply t - amount
  else exists e, mine_coen t account amount = Err e.
Proof.
  intros Hok Ha. unfold mine_coen. destruct (negb (amount =? 0)); [|by eexists]. cbn [andb].
  destruct (amount <=? rd (balances t) account) eqn:E; bools; [|by eexists].
  destruct (debit_ok t account amount (MineCoen account amount amount) Hok ltac:(lia)) as (H1 & H2 & H3 & H4).
  by eexists.
Qed.
End Fungible.

(** ** Promis *)

Module Promis.
Record Promis := mkPromis {
  supply : U256;
  balance : gmap Address U256;
  logs : list TokenEvent
}.

#[global] Instance fungible : Fungible Promis := {|
  total_supply := supply;
  balances := balance;
  write_supply t v := {| t with supply := v |};
  write_balance t a v := {| t with balance := <[a := v]> (balance t) |};
  token_emit t e := {| t with logs := logs t ++ [e] |};
  token_name := "promis"
|}.

#[global] Instance laws : FungibleLaws Promis.
Proof. split; done. Qed.

Definition mine (t : Promis) (account : Address) (amount : U256) : res (Promis * U256) :=
  Tokens.mine t account amount.
Definition burn (t : Promis) (account : Address) (amount : U256) : res (Promis * U256) :=
  Tokens.burn t account amount.
Definition mine_coen (t : Promis) (account : Address) (amount : U256) : res (Promis * U256) :=
  Tokens.mine_coen t account amount.
End Promis.

(** ** The Promis limit *)

Module PromisLimit.
Record PromisLimitContract := mkLimit { total_unallocated : U256 }.

Definition get_total_unallocated (c : PromisLimitContract) : U256 := total_unallocated c.

Definition set_total_unallocated (c : PromisLimitContract) (total : U256) : PromisLimitContract :=
  {| total_unallocated := total |}.

Definition add_to_total_unallocated (c : PromisLimitContract) (amount : U256) : res PromisLimitContract :=
  let current := get_total_unallocated c in
  let? next := ok_or (checked_add 256 current amount) (Revert "promislimit total_unallocated overflow") in
  Ok (set_total_unallocated c next).
End PromisLimit.

(** ** Gratis *)

Module Gratis.
Record Gratis := mkGratis {
  supply : U256;
  balance : gmap Address U256;
  pledged_balances : gmap Address U256;
  logs : list TokenEvent
}.

#[global] Instance fungible : Fungible Gratis := {|
  total_supply := supply;
  balances := balance;
  write_supply t v := {| t with supply := v |};
  write_balance t a v := {| t with balance := <[a := v]> (balance t) |};
  token_emit t e := {| t with logs := logs t ++ [e] |};
  token_name := "gratis"
|}.

#[global] Instance laws : FungibleLaws Gratis.
Proof. split; done. Qed.

Definition mine (t : Gratis) (account : Address) (amount : U256) : res (Gratis * U256) :=
  Tokens.mine t account amount.
Definition burn (t : Gratis) (account : Address) (amount : U256) : res (Gratis * U256) :=
  Tokens.burn t account amount.
Definition mine_coen (t : Gratis) (account : Address) (amount : U256) : res (Gratis * U256) :=
  Tokens.mine_coen t account amount.

Definition pledged_total_supply (t : Gratis) : U256 := rd (balance t) CREDIS_ADDRESS.
Definition pledged_of (t : Gratis) (account : Address) : U256 := rd (pledged_balances t) account.

Definition transfer_gratis (t : Gratis) (from to : Address) (amount : U256) : res Gratis :=
  ensure negb (amount =? 0) else Revert "amount must be positive" in
  ensure negb ((from =? 0) || (to =? 0)) else Revert "invalid address" in
  let from_balance := rd (balance t) from in
  ensure amount <=? from_balance else Revert "insufficient balance" in
  let to_balance := rd (balance t) to in
  let? new_to_balance := token_add to_balance amount "gratis balance overflow" in
  let t := write_balance t from (wsub 256 from_balance amount) in
  Ok (write_balance t to new_to_balance).

Definition pledge (t : Gratis) (account : Address) (amount : U256) : res (Gratis * U256) :=
  ensure negb (amount =? 0) else Revert "amount must be positive" in
  let account_pledged := rd (pledged_balances t) account in
  let? new_account_pledged := token_add account_pledged amount "gratis pledged_balances overflow" in
  let? t := transfer_gratis t account CREDIS_ADDRESS amount in
  let t := {| t with pledged_balances := <[account := new_account_pledged]> (pledged_balances t) |} in
  let total_pledged := rd (balance t) CREDIS_ADDRESS in
  let t := token_emit t (Pledged account amount total_pledged) in
  Ok (t, total_pledged).

Definition unpledge (t : Gratis) (account : Address) (amount : U256) : res (Gratis * U256) :=
  ensure negb (amount =? 0) else Revert "amount must be positive" in
  let account_pledged := rd (pledged_balances t) account in
  ensure amount <=? account_pledged else Revert "insufficient pledged balance" in
  let? t := transfer_gratis t CREDIS_ADDRESS account amount in
  let t := {| t with pledged_balances :=
                <[account := wsub 256 account_pledged amount]> (pledged_balances t) |} in
  let remaining_pledged := rd (balance t) CREDIS_ADDRESS in
  let t := token_emit t (Unpledged account amount remaining_pledged) in
  Ok (t, remaining_pledged).

(** The escrow holds exactly what the accounts have pledged. *)
Definition escrow_ok (t : Gratis) : Prop :=
  supply_ok t /\ (forall a, 0 <= rd (pledged_balances t) a) /\
  msum (pledged_balances t) = rd (balance t) CREDIS_ADDRESS.

Lemma escrow_bounds t a :
  escrow_ok t -> 0 <= rd (pledged_balances t) a <= rd (balance t) CREDIS_ADDRESS.
Proof. intros (_ & Hn & Hs). pose proof (Hn a). pose proof (rd_le_msum _ a Hn). lia. Qed.

(** A transfer between two different accounts keeps the supply. *)
Lemma transfer_spec t from to amount :
  supply_ok t -> from <> to -> 0 <= amount ->
  if negb (amount =? 0) && negb ((from =? 0) || (to =? 0)) && (amount <=? rd (balance t) from) then
    exists t', transfer_gratis t from to amount = Ok t' /\ supply_ok t' /\
      supply t' = supply t /\ pledged_balances t' = pledged_balances t /\
      (forall a, rd (balance t') a = rd (balance t) a - (if decide (a = from) then amount else 0)
                                     + (if decide (a = to) then amount else 0))
  else exists e, transfer_gratis t from to amount = Err e.
Proof.
  intros Hok Hne Ha. unfold transfer_gratis. destruct (negb (amount =? 0)); [|by eexists].
  destruct (negb ((from =? 0) || (to =? 0))); [|by eexists]. cbn [andb].
  destruct (amount <=? rd (balance t) from) eqn:E; bools; [|by eexists].
  pose proof (supply_bounds t from Hok) as Hf. pose proof (supply_bounds t to Hok) as Ht.
  cbn [balances total_supply fungible] in Hf, Ht. pose proof Hok as (Hn & Hs & Hov).
  assert (Hsum : rd (balance t) from + rd (balance t) to <= supply t).
  { cbn [balances total_supply fungible] in Hn, Hs. rewrite <- Hs. by apply rd2_le_msum. }
  cbn [balances total_supply fungible] in *.
  unfold token_add, checked_add. rewrite (proj2 (Z.ltb_lt _ _)) by lia. cbn [ok_or]. eexists. split; [done|].
  rewrite wsub_small by lia. cbn [write_balance fungible balance supply pledged_balances].
  assert (Hr : forall a, rd (<[to := rd (balance t) to + amount]> (<[from := rd (balance t) from - amount]> (balance t))) a =
    rd (balance t) a - (if decide (a = from) then amount else 0) + (if decide (a = to) then amount else 0)).
  { intros a. rewrite !rd_insert. repeat case_decide; subst; congruence || lia. }
  split_and!; try done. split; [|split]; cbn [balances total_supply fungible balance supply].
  - intros a. rewrite Hr. pose proof (Hn a). repeat case_decide; subst; lia.
  - rewrite !msum_insert, rd_insert_ne by done. lia.
  - done.
Qed.

Lemma pledge_spec t account amount :
  escrow_ok t -> account <> CREDIS_ADDRESS -> 0 <= amount ->
  if negb (amount =? 0) && negb (account =? 0) && (amount <=? rd (balance t) account) then
    exists t', pledge t account amount = Ok (t', pledged_total_supply t + amount) /\ escrow_ok t' /\
      supply t' = supply t /\
      rd (pledged_balances t') account = rd (pledged_balances t) account + amount /\
      rd (balance t') account = rd (balance t) account - amount /\
      pledged_total_supply t' = pledged_total_supply t + amount
  else exists e, pledge t account amount = Err e.
Proof.
  intros Hok Hne Ha. pose proof Hok as (Hs & Hn & Hsum). pose proof (escrow_bounds t account Hok) as Hb.
  pose proof (transfer_spec t account CREDIS_ADDRESS amount Hs Hne Ha) as Ht.
  rewrite (proj2 (Z.eqb_neq CREDIS_ADDRESS 0)), orb_false_r in Ht by done.
  unfold pledge. destruct (negb (amount =? 0)); [|by eexists].
  assert (Hp : amount <= rd (balance t) account -> rd (pledged_balances t) account + amount < 2 ^ 256).
  { intros. assert (rd (balance t) CREDIS_ADDRESS + rd (balance t) account <= supply t).
    { destruct Hs as (Hbn & Hbs & _). cbn [balances total_supply fungible] in *. rewrite <- Hbs. apply rd2_le_msum; congruence. }
    destruct Hs as (_ & _ & ?). cbn [total_supply fungible] in *. lia. }
  unfold token_add, checked_add. cbn [andb] in *.
  destruct (negb (account =? 0) && (amount <=? rd (balance t) account)) eqn:E.
  - bools.
    rewrite (proj2 (Z.ltb_lt _ _)) by auto. cbn [ok_or]. destruct Ht as (t' & -> & Hok' & Es & Ep & Hr).
    assert (Ec : rd (balance t') CREDIS_ADDRESS = rd (balance t) CREDIS_ADDRESS + amount)
      by (rewrite Hr, decide_False, decide_True by congruence; lia).
    assert (Eac : rd (balance t') account = rd (balance t) account - amount)
      by (rewrite Hr, decide_True, decide_False by done; lia).
    eexists. cbn [balance]. rewrite Ec. split; [done|]. unfold pledged_total_supply. cbn.
    rewrite Ep, rd_insert_eq. split_and!; try done. split; [done|]. cbn. split.
    + intros b. rewrite rd_insert. case_decide; [lia|apply Hn].
    + rewrite msum_insert. lia.
  - destruct (rd (pledged_balances t) account + amount <? 2 ^ 256); [|by eexists]. cbn [ok_or].
    destruct Ht as [e ->]. by eexists.
Qed.

Lemma unpledge_spec t account amount :
  escrow_ok t -> account <> CREDIS_ADDRESS -> 0 <= amount ->
  if negb (amount =? 0) && negb (account =? 0) && (amount <=? rd (pledged_balances t) account) then
    exists t', unpledge t account amount = Ok (t', pledged_total_supply t - amount) /\ escrow_ok t' /\
      supply t' = supply t /\
      rd (pledged_balances t') account = rd (pledged_balances t) account - amount /\
      rd (balance t') account = rd (balance t) account + amount /\
      pledged_total_supply t' = pledged_total_supply t - amount
  else exists e, unpledge t account amount = Err e.
Proof.
  intros Hok Hne Ha. pose proof Hok as (Hs & Hn & Hsum). pose proof (escrow_bounds t account Hok) as Hb.
  pose proof (transfer_spec t CREDIS_ADDRESS account amount Hs ltac:(congruence) Ha) as Ht.
  rewrite (proj2 (Z.eqb_neq CREDIS_ADDRESS 0)), orb_false_l in Ht by done.
  unfold unpledge. destruct (negb (amount =? 0)); [|by eexists]. cbn [andb] in *.
  destruct (amount <=? rd (pledged_balances t) account) eqn:E; bools; [|rewrite andb_false_r; by eexists].
  rewrite (proj2 (Z.leb_le _ _)), andb_true_r in Ht by lia. rewrite andb_true_r.
  destruct (negb (account =? 0)); [|destruct Ht as [e ->]; by eexists].
  destruct Ht as (t' & -> & Hok' & Es & Ep & Hr).
  assert (Ec : rd (balance t') CREDIS_ADDRESS = rd (balance t) CREDIS_ADDRESS - amount)
    by (rewrite Hr, decide_True, decide_False by congruence; lia).
  assert (Eac : rd (balance t') account = rd (balance t) account + amount)
    by (rewrite Hr, decide_False, decide_True by done; lia).
  pose proof Hs as (_ & _ & Hov). pose proof (supply_bounds t CREDIS_ADDRESS Hs).
  cbn [balances total_supply fungible] in *. rewrite wsub_small by lia.
  eexists. cbn [balance]. rewrite Ec. split; [done|]. unfold pledged_total_supply. cbn.
  rewrite Ep, rd_insert_eq. split_and!; try done. split; [done|]. cbn. split.
  - intros b. rewrite rd_insert. case_decide; [lia|apply Hn].
  - rewrite msum_insert. lia.
Qed.

(** *** Sequences of calls *)

Inductive call : Type :=
| Mine (account : Address) (amount : U256)
| Burn (account : Address) (amount : U256)
| Coen (account : Address) (amount : U256)
| Pledge (account : Address) (amount : U256)
| Unpledge (account : Address) (amount : U256).

Definition exec (t : Gratis) (c : call) : res (Gratis * U256) :=
  match c with
  | Mine a x => mine t a x
  | Burn a x => burn t a x
  | Coen a x => mine_coen t a x
  | Pledge a x => pledge t a x
  | Unpledge a x => unpledge t a x
  end.

(** A failed call leaves the state unchanged. *)
Definition run (t : Gratis) (l : list call) : Gratis :=
  foldl (fun t c => match exec t c with Ok (t', _) => t' | Err _ => t end) t l.

Definition from_user (c : call) : Prop :=
  match c with
  | Mine a x | Burn a x | Coen a x | Pledge a x | Unpledge a x => a <> CREDIS_ADDRESS /\ 0 <= x
  end.

(** A supply operation on a user account does not reach the escrow. *)
Lemma escrow_ok_supply t t' a x :
  escrow_ok t -> supply_ok t' -> a <> CREDIS_ADDRESS ->
  balance t' = <[a := x]> (balance t) -> pledged_balances t' = pledged_balances t -> escrow_ok t'.
Proof. intros (_ & Hn & Hs) Hok Ha Eb Ep. split; [done|]. by rewrite Eb, Ep, rd_insert_ne. Qed.

Lemma pledged_mine t a x t' y : mine t a x = Ok (t', y) -> pledged_balances t' = pledged_balances t.
Proof. unfold mine, Tokens.mine. intros E. cbv zeta in E. do 4 inv_ok_step E. by injection E as <- _. Qed.

Lemma pledged_burn t a x t' y : burn t a x = Ok (t', y) -> pledged_balances t' = pledged_balances t.
Proof. unfold burn, Tokens.burn. intros E. cbv zeta in E. do 2 inv_ok_step E. by injection E as <- _. Qed.

Lemma pledged_mine_coen t a x t' y : mine_coen t a x = Ok (t', y) -> pledged_balances t' = pledged_balances t.
Proof. unfold mine_coen, Tokens.mine_coen. intros E. cbv zeta in E. do 2 inv_ok_step E. by injection E as <- _. Qed.

Lemma exec_escrow_ok t c t' x : escrow_ok t -> from_user c -> exec t c = Ok (t', x) -> escrow_ok t'.
Proof.
  intros Hok Hu E. pose proof Hok as (Hs & _). destruct c; destruct Hu as [Hne Ha]; cbn [exec] in E.
  - pose proof (mine_spec t account amount Hs Ha) as Hm. pose proof (pledged_mine _ _ _ _ _ E) as Ep.
    unfold mine in E. destruct (_ && _); [|destruct Hm; congruence].
    destruct Hm as (t1 & E1 & ? & Eb & _). rewrite E1 in E. injection E as -> _. by eapply escrow_ok_supply.
  - pose proof (burn_spec t account amount Hs Ha) as Hm. pose proof (pledged_burn _ _ _ _ _ E) as Ep.
    unfold burn in E. destruct (_ && _); [|destruct Hm; congruence].
    destruct Hm as (t1 & E1 & ? & Eb & _). rewrite E1 in E. injection E as -> _. by eapply escrow_ok_supply.
  - pose proof (mine_coen_spec t account amount Hs Ha) as Hm. pose proof (pledged_mine_coen _ _ _ _ _ E) as Ep.
    unfold mine_coen in E. destruct (_ && _); [|destruct Hm; congruence].
    destruct Hm as (t1 & E1 & ? & Eb & _). rewrite E1 in E. injection E as -> _. by eapply escrow_ok_supply.
  - pose proof (pledge_spec t account amount Hok Hne Ha) as Hm. destruct (_ && _); [|destruct Hm; congruence].
    destruct Hm as (t1 & E1 & ? & _). rewrite E1 in E. by injection E as -> _.
  - pose proof (unpledge_spec t account amount Hok Hne Ha) as Hm. destruct (_ && _); [|destruct Hm; congruence].
    destruct Hm as (t1 & E1 & ? & _). rewrite E1 in E. by injection E as -> _.
Qed.
End Gratis.

(** ** Properties *)

(** C36. Gratis is conserved: whatever calls user accounts make, failed ones
    included, the balances add up to the total supply, the pledge ledger adds up
    to what the credis escrow holds, and so every account can always withdraw
    exactly what it has pledged, no more. *)
Theorem gratis_conserved t l :
  Gratis.escrow_ok t -> Forall Gratis.from_user l ->
  let t' := Gratis.run t l in
  msum (Gratis.balance t') = Gratis.supply t' /\
  msum (Gratis.pledged_balances t') = Gratis.pledged_total_supply t' /\
  forall a x, a <> CREDIS_ADDRESS -> a <> 0 -> 0 < x ->
    if x <=? Gratis.pledged_of t' a
    then exists t'', Gratis.unpledge t' a x = Ok (t'', Gratis.pledged_total_supply t' - x)
    else exists e, Gratis.unpledge t' a x = Err e.
Proof.
  intros Hok Hl. cbv zeta. assert (Hr : Gratis.escrow_ok (Gratis.run t l)).
  { revert t Hok. induction Hl as [|c l Hc Hl IH]; intros t Hok; [done|]. apply IH.
    destruct (Gratis.exec t c) as [[t1 x]|] eqn:E; [by eapply Gratis.exec_escrow_ok|done]. }
  pose proof Hr as ((_ & Hs & _) & _ & Hp). split_and!; [done|done|]. intros a x Hne Ha Hx.
  pose proof (Gratis.unpledge_spec (Gratis.run t l) a x Hr Hne ltac:(lia)) as Hu.
  rewrite !(proj2 (Z.eqb_neq _ _)) in Hu by lia. cbn [negb andb] in Hu. unfold Gratis.pledged_of.
  destruct (_ <=? _); [|done]. destruct Hu as (t1 & E & _). by eexists.
Qed.

Lemma gratis_conserved_witness :
  let t := Gratis.run (Gratis.mkGratis 0 ∅ ∅ []) [Gratis.Mine 7 100; Gratis.Pledge 7 60; Gratis.Pledge 7 60] in
  msum (Gratis.pledged_balances t) = Gratis.pledged_total_supply t /\ Gratis.pledged_total_supply t = 60.
Proof.
  cbv zeta. split; [|vm_compute; reflexivity].
  apply (gratis_conserved (Gratis.mkGratis 0 ∅ ∅ [])).
  - split; [split; [|split]|split]; try reflexivity; intros a; cbn; rewrite rd_empty; discriminate.
  - repeat constructor; discriminate.
Defined.

(** The [mineCoen] call converts at par: it burns exactly the amount of the
    synthetic token it mints as native coin for the sender, so the token supply
    and the native supply together are unchanged; without the balance it fails
    and changes nothing. *)
Theorem mine_coen_conserves {T} `{FungibleLaws T} (t : T) b sender amount :
  supply_ok t -> balances_ok b -> 0 <= amount -> msum b + amount < 2 ^ 256 ->
  if negb (amount =? 0) && (amount <=? rd (balances t) sender) then
    exists t' b', dispatch_mine_coen (t, b) sender amount = Ok (t', b', amount) /\
      supply_ok t' /\ balances_ok b' /\ total_supply t' + msum b' = total_supply t + msum b /\
      rd (balances t') sender = rd (balances t) sender - amount /\
      (forall a, rd b' a = rd b a + if decide (a = sender) then amount else 0)
  else exists e, dispatch_mine_coen (t, b) sender amount = Err e.
Proof.
  intros Hok Hb Ha Hov. unfold dispatch_mine_coen. cbn [fst snd].
  pose proof (mine_coen_spec t sender amount Hok Ha) as Hm.
  destruct (negb (amount =? 0)) eqn:E0; cbn [andb] in *; [|destruct Hm as [e ->]; by eexists].
  destruct (amount <=? rd (balances t) sender); [|destruct Hm as [e ->]; by eexists].
  destruct Hm as (t' & -> & Hok' & Eb & Es). rewrite E0.
  destruct (increase_balance_spec b sender amount Hb Ha Hov) as (Hb' & Hs' & Hr').
  eexists _, _. split; [done|]. rewrite Eb, rd_insert_eq. split_and!; try done. lia.
Qed.

Lemma mine_coen_conserves_witness :
  exists t' b', dispatch_mine_coen (Promis.mkPromis 50 (<[7 := 50]> ∅) [], ∅) 7 20 = Ok (t', b', 20) /\
    total_supply t' + msum b' = 50.
Proof.
  destruct (@mine_coen_conserves Promis.Promis Promis.fungible Promis.laws
    (Promis.mkPromis 50 (<[7 := 50]> ∅) []) ∅ 7 20) as (t' & b' & E & _ & _ & Hs & _).
  - split; [|split]; [|reflexivity..]. intros a. cbn. rewrite rd_insert. case_decide; [lia|]. by rewrite rd_empty.
  - split; [intros a; by rewrite rd_empty|reflexivity].
  - lia.
  - reflexivity.
  - exists t', b'. split; [exact E|]. rewrite Hs. reflexivity.
Defined.

(** The escrow account itself is the exception: a pledge on its behalf
    credits it without debiting anyone, so its balance grows while the supply
    stays. *)
Theorem escrow_self_pledge_inflates t amount :
  Gratis.escrow_ok t -> 0 < amount <= rd (Gratis.balance t) CREDIS_ADDRESS ->
  Gratis.supply t + amount < 2 ^ 256 ->
  exists t', Gratis.pledge t CREDIS_ADDRESS amount = Ok (t', Gratis.pledged_total_supply t + amount) /\
    Gratis.supply t' = Gratis.supply t /\ msum (Gratis.balance t') = Gratis.supply t + amount.
Proof.
  intros Hok Ha Hov. pose proof (Gratis.escrow_bounds t CREDIS_ADDRESS Hok) as Hp. pose proof Hok as (Hs & _).
  pose proof (supply_bounds t CREDIS_ADDRESS Hs) as Hb. pose proof Hs as (_ & Hm & _).
  cbn [balances total_supply Gratis.fungible] in *.
  unfold Gratis.pledge, Gratis.transfer_gratis, token_add, checked_add.
  rewrite !(proj2 (Z.eqb_neq _ _)) by (done || lia). cbn [negb].
  rewrite !(proj2 (Z.ltb_lt _ _)), (proj2 (Z.leb_le _ _)) by lia. cbn [ok_or orb negb].
  rewrite wsub_small by lia. eexists. split.
  - cbn [write_balance Gratis.fungible Gratis.balance]. rewrite insert_insert_eq, rd_insert_eq. reflexivity.
  - cbn. split; [done|]. rewrite msum_insert. lia.
Qed.

Lemma escrow_self_pledge_inflates_witness :
  let t := Gratis.mkGratis 100 (<[CREDIS_ADDRESS := 60]> (<[7 := 40]> ∅)) (<[7 := 60]> ∅) [] in
  exists t', Gratis.pledge t CREDIS_ADDRESS 60 = Ok (t', 120) /\ msum (Gratis.balance t') = 160.
Proof.
  cbv zeta. set (t := Gratis.mkGratis _ _ _ _).
  assert (Hok : Gratis.escrow_ok t).
  { split; [split; [|split]|split]; try reflexivity; intros a; cbn; rewrite !rd_insert, rd_empty;
      repeat case_decide; discriminate. }
  destruct (escrow_self_pledge_inflates t 60 Hok) as (t' & E & _ & Hm).
  - split; [reflexivity|discriminate].
  - reflexivity.
  - exists t'. split; [exact E|exact Hm].
Defined.
