(* ===== verification/Emission.v ===== *)
(** * Emission: the daily emission limit and its allocation

    [crates/system/emissionlimit/src/daily_emission.rs], [allocation.rs] and
    [block.rs]. [day_emission_limit] is the fixed-point decay formula with its
    [U256] wrap-around written out; [allocate_emission_with_specs] splits a cap
    over a table of sinks; [dispatch_allocations] applies them, where the sinks
    are code of other crates and stand as a parameter. *)

From S2P Require Import Prelude.

(** ** The daily cap *)

Definition SCALE : U256 := 1000000000000000000.
Definition INITIAL_DAILY : U256 := 1073741824000000000000000000.
Definition FLOOR_DAILY : U256 := 67108864000000000000000000.
Definition K_NUM : U256 := 94952.
Definition K_DEN : U256 := 100000000.
Definition FLOOR_DAY_THRESHOLD : u32 := 2920.
Definition TAYLOR_TERMS : nat := 32.

(** The loop [for k in 1..TAYLOR_TERMS]; [n] counts the turns left. *)
Fixpoint taylor_loop (n : nat) (k x_fp term pos_sum neg_sum : U256) : U256 * U256 :=
  match n with
  | O => (pos_sum, neg_sum)
  | S n =>
      let term := wmul 256 term x_fp / wmul 256 k SCALE in
      if term =? 0 then (pos_sum, neg_sum)
      else if k mod 2 =? 1
      then taylor_loop n (k + 1) x_fp term pos_sum (wadd 256 neg_sum term)
      else taylor_loop n (k + 1) x_fp term (wadd 256 pos_sum term) neg_sum
  end.

Definition day_emission_limit (day_number : u32) : U256 :=
  if FLOOR_DAY_THRESHOLD <=? day_number then FLOOR_DAILY
  else
    let n := day_number in
    let x_fp := wmul 256 (wmul 256 K_NUM n) SCALE / K_DEN in
    let '(pos_sum, neg_sum) := taylor_loop (TAYLOR_TERMS - 1) 1 x_fp SCALE SCALE 0 in
    let exp_fp := saturating_sub pos_sum neg_sum in
    let reward := wmul 256 INITIAL_DAILY exp_fp / SCALE in
    if reward <? FLOOR_DAILY then FLOOR_DAILY else reward.

(** ** Allocation *)

Definition VALIDATOR_REWARD_PCT : u64 := 4.
Definition WAA_REWARD_PCT : u64 := 4.
Definition SRA_REWARD_PCT : u64 := 4.
Definition CCA_REWARD_PCT : u64 := 4.
Definition MERCHANT_REWARD_PCT : u64 := 4.
Definition PERCENT_DENOMINATOR : u64 := 100.

Inductive EmissionSinkId : Type :=
| Validator | Waa | Sra | Cca | Merchant | Metadosis.

Record EmissionSinkSpec := mkSpec { spec_id : EmissionSinkId; pct : option u64 }.

Record EmissionAllocation := mkAllocation { id : EmissionSinkId; amount : U256 }.

Definition ACTIVE_EMISSION_SINKS : list EmissionSinkSpec :=
  [mkSpec Validator (Some VALIDATOR_REWARD_PCT); mkSpec Waa (Some WAA_REWARD_PCT);
   mkSpec Sra (Some SRA_REWARD_PCT); mkSpec Cca (Some CCA_REWARD_PCT);
   mkSpec Merchant (Some MERCHANT_REWARD_PCT); mkSpec Metadosis None].

Definition active_emission_sinks : list EmissionSinkSpec := ACTIVE_EMISSION_SINKS.

(** One turn of the validation loop on the spec at index [idx]. *)
Definition validate_spec (acc : u64 * option nat * nat) (spec : EmissionSinkSpec) :
    res (u64 * option nat * nat) :=
  let '(fixed_pct_sum, terminal_index, idx) := acc in
  match pct spec with
  | Some p =>
      let? fixed_pct_sum := ok_or (checked_add 64 fixed_pct_sum p)
                                  (Revert "emission fixed percentage overflow") in
      Ok (fixed_pct_sum, terminal_index, S idx)
  | None =>
      match terminal_index with
      | Some _ => Err (Revert "emission sink table must have one terminal sink")
      | None => Ok (fixed_pct_sum, Some idx, S idx)
      end
  end.

Definition validate_sink_specs (specs : list EmissionSinkSpec) : res unit :=
  match specs with
  | [] => Ok tt
  | _ =>
      let? (fixed_pct_sum, terminal_index, _) := foldM validate_spec (0, None, O) specs in
      ensure bool_decide (terminal_index = Some (length specs - 1)%nat)
        else Revert "emission terminal sink must be the final sink" in
      ensure fixed_pct_sum <=? PERCENT_DENOMINATOR
        else Revert "emission fixed percentages exceed 100" in
      Ok tt
  end.

(** The allocation loop, [fixed_total] so far. *)
Fixpoint allocate_loop (total fixed_total : U256) (specs : list EmissionSinkSpec) :
    list EmissionAllocation :=
  match specs with
  | [] => []
  | spec :: specs =>
      match pct spec with
      | Some p =>
          let a := wmul 256 total p / PERCENT_DENOMINATOR in
          mkAllocation (spec_id spec) a :: allocate_loop total (wadd 256 fixed_total a) specs
      | None =>
          mkAllocation (spec_id spec) (wsub 256 total fixed_total) :: allocate_loop total fixed_total specs
      end
  end.

Definition allocate_emission_with_specs (total : U256) (specs : list EmissionSinkSpec) :
    res (list EmissionAllocation) :=
  let? _ := validate_sink_specs specs in
  Ok (allocate_loop total 0 specs).

Definition allocate_emission (total : U256) : res (list EmissionAllocation) :=
  allocate_emission_with_specs total active_emission_sinks.

(** ** Dispatch *)

Section Dispatch.
Context {St : Type}.
(** A sink credits what it can and reports the unused rest, or fails. *)
Context (apply : St -> EmissionSinkId -> U256 -> res (St * U256)).

(** The closure run under [with_checkpoint]: an error discards its writes. *)
Definition apply_checkpointed (st : St) (a : EmissionAllocation) : res (St * U256) :=
  let? (st, unused_amount) := apply st (id a) (amount a) in
  ensure unused_amount <=? amount a
    else Revert "emission sink returned more unused amount than it received" in
  Ok (st, unused_amount).

(** One turn of the loop over the non-terminal sinks. *)
Definition dispatch_one (acc : St * U256) (a : EmissionAllocation) : St * U256 :=
  let '(st, terminal_extra) := acc in
  if amount a =? 0 then (st, terminal_extra)
  else
    match apply_checkpointed st a with
    | Ok (st, unused_amount) => (st, wadd 256 terminal_extra unused_amount)
    | Err _ => (st, wadd 256 terminal_extra (amount a))
    end.

Definition dispatch_allocations (st : St) (allocations : list EmissionAllocation) : res St :=
  match last allocations with
  | None => Ok st
  | Some terminal =>
      let non_terminal := take (length allocations - 1) allocations in
      let '(st, terminal_extra) := foldl dispatch_one (st, 0) non_terminal in
      let terminal_amount := wadd 256 (amount terminal) terminal_extra in
      if terminal_amount =? 0 then Ok st
      else
        let? (st, terminal_unused) := apply st (id terminal) terminal_amount in
        ensure terminal_unused =? 0 else Revert "terminal emission sink returned unused amount" in
        Ok st
  end.

(** [dispatch_terminal_remainder_at] of [block.rs], for a sink anchored at the
    given timestamp. *)
Definition dispatch_terminal_remainder_at (metadosis : St -> u64 -> U256 -> res (St * U256))
    (st : St) (x : U256) (ts : u64) : res St :=
  if x =? 0 then Ok st
  else
    let? (st, unused) := metadosis st ts x in
    ensure unused =? 0 else Revert "terminal emission sink returned unused amount" in
    Ok st.
End Dispatch.

(** ** The daily cap: proofs *)

(** The same formula over unbounded integers. *)
Fixpoint taylor_ref (n : nat) (k x term acc : Z) : Z :=
  match n with
  | O => acc
  | S n =>
      let term := term * x / (k * SCALE) in
      if term =? 0 then acc
      else taylor_ref n (k + 1) x term (if Z.odd k then acc - term else acc + term)
  end.

Definition day_emission_ref (day : Z) : Z :=
  if FLOOR_DAY_THRESHOLD <=? day then FLOOR_DAILY
  else
    let x := K_NUM * day * SCALE / K_DEN in
    Z.max FLOOR_DAILY (INITIAL_DAILY * Z.max 0 (taylor_ref 31 1 x SCALE SCALE) / SCALE).

(** A bound on every term: [SCALE * 3^31]. *)
Definition TERM_MAX : Z := SCALE * 3 ^ 31.

Lemma term_step k x term n :
  1 <= k -> 0 <= x <= 3 * SCALE -> 0 <= term -> term * 3 ^ Z.of_nat (S n) <= TERM_MAX ->
  let t := term * x / (k * SCALE) in
  0 <= t /\ t * 3 ^ Z.of_nat n <= TERM_MAX /\ term <= TERM_MAX.
Proof.
  intros Hk Hx Ht Hb. cbv zeta. assert (HS : 0 < SCALE) by done.
  rewrite Nat2Z.inj_succ, Z.pow_succ_r in Hb by lia.
  assert (H3 : 1 <= 3 ^ Z.of_nat n) by (pose proof (Z.pow_pos_nonneg 3 (Z.of_nat n)); lia).
  assert (Hq : term * x / (k * SCALE) <= 3 * term).
  { apply Z.div_le_upper_bound; [nia|]. transitivity (term * (3 * SCALE)); [nia|].
    replace (k * SCALE * (3 * term)) with (k * (term * (3 * SCALE))) by ring.
    assert (0 <= term * (3 * SCALE)) by nia. nia. }
  split; [apply Z.div_pos; nia|]. split; nia.
Qed.

Lemma odd_mod k : (k mod 2 =? 1) = Z.odd k.
Proof. rewrite Zmod_odd. by destruct (Z.odd k). Qed.

(** The loop never wraps, so it is the unbounded one. *)
Lemma taylor_loop_ref n : forall k x term p q,
  1 <= k -> k + Z.of_nat n <= 32 -> 0 <= x <= 3 * SCALE ->
  0 <= term -> term * 3 ^ Z.of_nat n <= TERM_MAX ->
  0 <= p <= k * TERM_MAX -> 0 <= q <= k * TERM_MAX ->
  exists p' q', taylor_loop n k x term p q = (p', q') /\
    0 <= p' <= 32 * TERM_MAX /\ 0 <= q' <= 32 * TERM_MAX /\ p' - q' = taylor_ref n k x term (p - q).
Proof.
  assert (HM : 0 < TERM_MAX /\ TERM_MAX * (3 * SCALE) < 2 ^ 256 /\ 33 * TERM_MAX < 2 ^ 256 /\ 32 * SCALE < 2 ^ 256)
    by (vm_compute; done).
  assert (HS : 0 < SCALE) by done.
  induction n as [|n IH]; intros k x term p q Hk Hkn Hx Ht Hb Hp Hq; cbn [taylor_loop taylor_ref].
  { exists p, q. split_and!; try done; nia. }
  destruct (term_step k x term n Hk Hx Ht Hb) as (H1 & H2 & H3).
  rewrite (wmul_small 256 term), (wmul_small 256 k) by nia.
  set (t := term * x / (k * SCALE)) in *.
  destruct (t =? 0); [exists p, q; split_and!; try done; nia|].
  assert (Ht1 : t <= TERM_MAX).
  { pose proof (Z.pow_pos_nonneg 3 (Z.of_nat n) ltac:(lia) ltac:(lia)). nia. }
  rewrite odd_mod. destruct (Z.odd k).
  - rewrite wadd_small by nia.
    destruct (IH (k + 1) x t p (q + t)) as (p' & q' & E & ? & ? & Er); [lia..|nia|nia|].
    exists p', q'. split_and!; try done; try lia. rewrite Er. f_equal. lia.
  - rewrite wadd_small by nia.
    destruct (IH (k + 1) x t (p + t) q) as (p' & q' & E & ? & ? & Er); [lia..|nia|nia|].
    exists p', q'. split_and!; try done; try lia. rewrite Er. f_equal. lia.
Qed.

(** ** Allocation: proofs *)

Definition allocation_sum (l : list EmissionAllocation) : Z := lsum (amount <$> l).

(** The specs of fixed sinks. *)
Definition fixed_specs (l : list (EmissionSinkId * Z)) : list EmissionSinkSpec :=
  (fun x => mkSpec (fst x) (Some (snd x))) <$> l.

(** A well-formed table: fixed percentages summing to at most 100, then the one
    terminal sink. *)
Definition table_ok (specs : list EmissionSinkSpec) (fixed : list (EmissionSinkId * Z))
    (terminal : EmissionSinkId) : Prop :=
  specs = fixed_specs fixed ++ [mkSpec terminal None] /\ lsum (snd <$> fixed) <= 100.

Lemma validate_fixed fixed : forall acc ti idx,
  0 <= acc -> Forall (fun x => 0 <= snd x) fixed -> acc + lsum (snd <$> fixed) < 2 ^ 64 ->
  foldM validate_spec (acc, ti, idx) (fixed_specs fixed) =
  Ok (acc + lsum (snd <$> fixed), ti, (idx + length fixed)%nat).
Proof.
  induction fixed as [|[i p] l IH]; intros acc ti idx Ha Hp Hov; [cbn; by rewrite Z.add_0_r, Nat.add_0_r|].
  inversion Hp as [|? ? Hp1 Hp2]; subst. cbn [snd fst] in *.
  rewrite fmap_cons in Hov |- *. cbn [lsum foldr snd] in Hov |- *. fold (lsum (snd <$> l)) in *.
  assert (0 <= lsum (snd <$> l)).
  { clear -Hp2. induction Hp2; [done|]. rewrite fmap_cons. cbn. fold (lsum (snd <$> l)). lia. }
  change (fixed_specs ((i, p) :: l)) with (mkSpec i (Some p) :: fixed_specs l). cbn [foldM validate_spec pct].
  unfold checked_add. rewrite (proj2 (Z.ltb_lt _ _)) by lia. cbn [ok_or].
  rewrite IH by (done || lia). cbn [length]. rewrite Z.add_assoc.
  by replace (idx + S (length l))%nat with (S idx + length l)%nat by lia.
Qed.

Lemma validate_fold specs : forall acc ti idx acc' ti' idx',
  foldM validate_spec (acc, ti, idx) specs = Ok (acc', ti', idx') ->
  match ti with
  | Some j => ti' = Some j /\ exists f, specs = fixed_specs f /\ acc' = acc + lsum (snd <$> f)
  | None =>
      (ti' = None /\ exists f, specs = fixed_specs f) \/
      exists f1 t f2, specs = fixed_specs f1 ++ mkSpec t None :: fixed_specs f2 /\
        ti' = Some (idx + length f1)%nat /\ acc' = acc + lsum (snd <$> f1) + lsum (snd <$> f2)
  end.
Proof.
  induction specs as [|[i p] specs IH]; intros acc ti idx acc' ti' idx' E; cbn [foldM] in E.
  { injection E as <- <- <-. destruct ti; [split; [done|]|left; split; [done|]]; exists []; cbn; split_and?; done || lia. }
  inv_ok_step E. destruct a as [[acc1 ti1] idx1]. cbn [validate_spec pct] in E0. destruct p as [p|].
  - inv_ok_step E0. apply ok_or_Ok, checked_add_Some in E1 as [-> Hov]. injection E0 as <- <- <-.
    apply IH in E. destruct ti as [j|].
    + destruct E as (-> & f & -> & ->). split; [done|]. exists ((i, p) :: f). split; [done|]. cbn. unfold lsum. lia.
    + destruct E as [(-> & f & ->)|(f1 & t & f2 & -> & -> & ->)].
      * left. split; [done|]. by exists ((i, p) :: f).
      * right. exists ((i, p) :: f1), t, f2. split; [done|]. split; [f_equal; cbn; lia|cbn; unfold lsum; lia].
  - destruct ti; [done|]. injection E0 as <- <- <-. apply IH in E as (-> & f & -> & ->).
    right. exists [], i, f. split; [done|]. split; [f_equal; cbn; lia|cbn; lia].
Qed.

(** Exactly the well-formed tables, and the empty one, validate. *)
Lemma validate_sink_specs_iff specs :
  Forall (fun s => match pct s with Some p => 0 <= p | None => True end) specs ->
  validate_sink_specs specs = Ok tt <-> specs = [] \/ exists fixed t, table_ok specs fixed t.
Proof.
  intros Hp. split.
  - destruct specs as [|s0 specs]; [by left|]. intros E. right. cbn [validate_sink_specs] in E.
    set (l := s0 :: specs) in *. inv_ok_step E. destruct a as [[acc ti] idx]. do 2 inv_ok_step E.
    apply bool_decide_eq_true in E1. bools.
    apply validate_fold in E0 as [[-> _]|(f1 & t & f2 & El & Et & Ea)]; [done|].
    assert (f2 = []) as ->.
    { rewrite E1 in Et. apply (inj Some) in Et. rewrite El in Et. unfold fixed_specs in Et.
      rewrite length_app, length_fmap in Et. cbn [length] in Et. rewrite length_fmap in Et.
      destruct f2; [done|]. cbn [length] in Et. lia. }
    exists f1, t. split; [exact El|]. unfold PERCENT_DENOMINATOR in *. cbn in Ea. lia.
  - intros [->|(fixed & t & -> & Hs)]; [done|].
    assert (Hf : Forall (fun x => 0 <= snd x) fixed).
    { apply Forall_app in Hp as [Hp _]. unfold fixed_specs in Hp. rewrite Forall_fmap in Hp. exact Hp. }
    destruct (fixed_specs fixed ++ [mkSpec t None]) as [|s0 l] eqn:El; [by destruct (fixed_specs fixed)|].
    unfold validate_sink_specs. rewrite <- El, foldM_app, validate_fixed by (done || lia).
    cbn [foldM validate_spec pct]. rewrite bool_decide_eq_true_2.
    + rewrite (proj2 (Z.leb_le _ _)); [done|]. unfold PERCENT_DENOMINATOR. lia.
    + f_equal. unfold fixed_specs. rewrite length_app, length_fmap. cbn [length]. lia.
Qed.

(** What the fixed sinks get. *)
Definition fixed_amounts (total : Z) (fixed : list (EmissionSinkId * Z)) : list EmissionAllocation :=
  (fun x => mkAllocation (fst x) (total * snd x / 100)) <$> fixed.

Lemma allocate_loop_spec total fixed t : forall ft,
  0 <= total -> total * 100 < 2 ^ 256 -> Forall (fun x => 0 <= snd x) fixed ->
  lsum (snd <$> fixed) <= 100 -> 0 <= ft -> ft * 100 + total * lsum (snd <$> fixed) <= total * 100 ->
  allocate_loop total ft (fixed_specs fixed ++ [mkSpec t None]) =
    fixed_amounts total fixed ++ [mkAllocation t (total - ft - allocation_sum (fixed_amounts total fixed))] /\
  0 <= ft + allocation_sum (fixed_amounts total fixed) <= total.
Proof.
  induction fixed as [|[i p] l IH]; intros ft Ht Hov Hp Hs Hf Hb.
  { cbn in *. rewrite wsub_small by lia. split; [do 2 f_equal|]; lia. }
  inversion Hp as [|? ? Hp1 Hp2]; subst. cbn [snd] in Hp1.
  rewrite fmap_cons in Hs, Hb. cbn [lsum foldr snd] in Hs, Hb. fold (lsum (snd <$> l)) in *.
  assert (Hl : 0 <= lsum (snd <$> l)).
  { clear -Hp2. induction Hp2; [done|]. rewrite fmap_cons. cbn. fold (lsum (snd <$> l)). lia. }
  change (fixed_specs ((i, p) :: l) ++ [mkSpec t None]) with (mkSpec i (Some p) :: (fixed_specs l ++ [mkSpec t None])).
  cbn [allocate_loop pct spec_id]. unfold PERCENT_DENOMINATOR. rewrite wmul_small by nia.
  set (x := total * p / 100).
  assert (Hx : 0 <= x /\ x * 100 <= total * p).
  { unfold x. split; [apply Z.div_pos; nia|]. pose proof (Z.mul_div_le (total * p) 100). lia. }
  rewrite wadd_small by nia.
  destruct (IH (ft + x)) as [-> Hr]; [done|done|done|lia|lia|nia|].
  change (fixed_amounts total ((i, p) :: l)) with (mkAllocation i x :: fixed_amounts total l).
  unfold allocation_sum in *. rewrite fmap_cons. cbn [lsum foldr amount]. fold (lsum (amount <$> fixed_amounts total l)).
  split; [|lia]. cbn [app]. do 4 f_equal. lia.
Qed.

Lemma allocate_spec total specs fixed t :
  table_ok specs fixed t -> Forall (fun x => 0 <= snd x) fixed -> 0 <= total -> total * 100 < 2 ^ 256 ->
  allocate_emission_with_specs total specs =
    Ok (fixed_amounts total fixed ++ [mkAllocation t (total - allocation_sum (fixed_amounts total fixed))]) /\
  0 <= allocation_sum (fixed_amounts total fixed) <= total.
Proof.
  intros Htab Hf Ht Hov. pose proof Htab as [Hs H100]. unfold allocate_emission_with_specs.
  assert (Hv : validate_sink_specs specs = Ok tt).
  { apply validate_sink_specs_iff; [|right; by eexists _, _]. rewrite Hs. apply Forall_app.
    split; [|by constructor]. unfold fixed_specs. rewrite Forall_fmap. exact Hf. }
  rewrite Hv, Hs. destruct (allocate_loop_spec total fixed t 0) as [-> Hr]; try done; try lia; [nia|].
  by rewrite Z.sub_0_r.
Qed.

(** ** Dispatch: proofs *)

Section Conservation.
Context {St : Type} (apply : St -> EmissionSinkId -> U256 -> res (St * U256)).
(** How much the sinks have taken so far, and the contract of a sink: it takes
    what it was given except what it reports as unused. *)
Context (taken : St -> Z).
Hypothesis apply_takes : forall st i x st' u,
  0 <= x -> apply st i x = Ok (st', u) -> 0 <= u /\ taken st' = taken st + (x - u).

Lemma dispatch_one_takes st extra a st' extra' :
  0 <= amount a -> 0 <= extra -> extra + amount a < 2 ^ 256 ->
  dispatch_one apply (st, extra) a = (st', extra') ->
  0 <= extra' <= extra + amount a /\ taken st' + extra' = taken st + extra + amount a.
Proof.
  intros Ha He Hov. unfold dispatch_one. destruct (amount a =? 0) eqn:E0; bools; [intros [= <- <-]; lia|].
  destruct (apply_checkpointed apply st a) as [[st1 u]|e] eqn:E.
  - unfold apply_checkpointed in E. inv_ok_step E. destruct a0 as [st2 u2]. inv_ok_step E. bools.
    injection E as <- <-. destruct (apply_takes _ _ _ _ _ Ha E1) as [Hu Ht].
    rewrite wadd_small by lia. intros [= <- <-]. lia.
  - rewrite wadd_small by lia. intros [= <- <-]. lia.
Qed.

Lemma dispatch_fold_takes l : forall st extra st' extra',
  Forall (fun a => 0 <= amount a) l -> 0 <= extra -> extra + allocation_sum l < 2 ^ 256 ->
  foldl (dispatch_one apply) (st, extra) l = (st', extra') ->
  0 <= extra' <= extra + allocation_sum l /\ taken st' + extra' = taken st + extra + allocation_sum l.
Proof.
  induction l as [|a l IH]; intros st extra st' extra' Hl He Hov; cbn [foldl].
  { intros [= <- <-]. cbn in *. lia. }
  inversion Hl as [|? ? Ha Hl']; subst. unfold allocation_sum in *. rewrite fmap_cons in *.
  cbn [lsum foldr] in *. fold (lsum (amount <$> l)) in *.
  assert (0 <= lsum (amount <$> l)).
  { clear -Hl'. induction Hl'; [done|]. rewrite fmap_cons. cbn. fold (lsum (amount <$> l)). lia. }
  destruct (dispatch_one apply (st, extra) a) as [st1 e1] eqn:E. intros E'.
  apply dispatch_one_takes in E as [? ?]; [|done|done|lia]. apply IH in E'; [|done|lia|lia]. lia.
Qed.

Lemma dispatch_takes st l st' :
  Forall (fun a => 0 <= amount a) l -> allocation_sum l < 2 ^ 256 ->
  dispatch_allocations apply st l = Ok st' -> taken st' = taken st + allocation_sum l.
Proof.
  intros Hl Hov. unfold dispatch_allocations. destruct (last l) as [t|] eqn:El.
  2:{ apply last_None in El as ->. intros [= ->]. cbn. lia. }
  apply last_Some in El as [l' ->]. rewrite length_app, take_app_le by (cbn; lia). cbn [length].
  rewrite take_ge by lia. apply Forall_app in Hl as [Hl' Ht]. inversion Ht; subst.
  assert (Es : allocation_sum (l' ++ [t]) = allocation_sum l' + amount t).
  { unfold allocation_sum. rewrite fmap_app, lsum_app. cbn. lia. }
  rewrite Es in *. assert (0 <= allocation_sum l').
  { clear -Hl'. unfold allocation_sum. induction Hl'; [done|]. rewrite fmap_cons. cbn. fold (lsum (amount <$> l)). lia. }
  destruct (foldl (dispatch_one apply) (st, 0) l') as [st1 extra] eqn:E.
  apply dispatch_fold_takes in E as [? ?]; [|done|lia|lia]. intros E'.
  rewrite wadd_small in E' by lia. inv_ok_step E'.
  - bools. apply Ok_inj in E' as <-. lia.
  - inv_ok_step E'. destruct a as [st2 u]. inv_ok_step E'. apply Ok_inj in E' as <-. bools.
    match goal with Ha : apply _ _ _ = Ok _ |- _ => apply apply_takes in Ha as [? ?]; lia end.
Qed.
End Conservation.

(** ** Properties *)

(** Allocation is exact: a table validates exactly when its fixed
    percentages come first, sum to at most 100 and are followed by the one
    terminal sink; then each fixed sink gets its percentage of the total rounded
    down, the terminal sink gets all the rest, and the amounts add up to the
    total. The active table is such a table. *)
Theorem allocation_exact total specs :
  specs <> [] -> Forall (fun s => match pct s with Some p => 0 <= p | None => True end) specs ->
  0 <= total -> total * 100 < 2 ^ 256 ->
  ((exists l, allocate_emission_with_specs total specs = Ok l) <->
   exists fixed t, table_ok specs fixed t) /\
  (forall fixed t, table_ok specs fixed t ->
     exists rest, allocate_emission_with_specs total specs =
                    Ok (fixed_amounts total fixed ++ [mkAllocation t rest]) /\ 0 <= rest /\
       allocation_sum (fixed_amounts total fixed ++ [mkAllocation t rest]) = total) /\
  table_ok active_emission_sinks [(Validator, 4); (Waa, 4); (Sra, 4); (Cca, 4); (Merchant, 4)] Metadosis.
Proof.
  intros Hne Hp Ht Hov. split; [|split]; [| |split; [reflexivity|cbn; lia]].
  - pose proof (validate_sink_specs_iff specs Hp) as Hv. unfold allocate_emission_with_specs.
    destruct (validate_sink_specs specs) as [[]|]; split.
    + intros _. by destruct (proj1 Hv eq_refl).
    + intros _. by eexists.
    + by intros [l ?].
    + intros Hx. discriminate (proj2 Hv (or_intror Hx)).
  - intros fixed t Htab.
    assert (Hf : Forall (fun x => 0 <= snd x) fixed).
    { destruct Htab as [-> _]. apply Forall_app in Hp as [Hp _]. unfold fixed_specs in Hp. by rewrite Forall_fmap in Hp. }
    destruct (allocate_spec total specs fixed t Htab Hf Ht Hov) as [E Hr].
    eexists. split; [exact E|]. split; [lia|]. unfold allocation_sum in *. rewrite fmap_app, lsum_app. cbn. lia.
Qed.

Lemma allocation_exact_witness :
  exists l, allocate_emission 10001 = Ok l /\ allocation_sum l = 10001.
Proof.
  destruct (allocation_exact 10001 active_emission_sinks) as (_ & Ha & Htab).
  - discriminate.
  - unfold active_emission_sinks, ACTIVE_EMISSION_SINKS. repeat (apply Forall_cons_2; [first [exact I|vm_compute; discriminate]|]). by apply Forall_nil_2.
  - lia.
  - reflexivity.
  - destruct (Ha _ _ Htab) as (rest & E & _ & Hs). eexists. split; [exact E|exact Hs].
Defined.

(** Dispatch loses nothing: whatever the sinks accept, refuse or fail on,
    when [dispatch_allocations] succeeds the sinks have together taken exactly
    the sum of the allocations; a failing or partial non-terminal sink's share
    goes to the terminal one. *)
Theorem dispatch_conserves {St} (apply : St -> EmissionSinkId -> U256 -> res (St * U256)) (taken : St -> Z) st l st' :
  (forall st i x st' u, 0 <= x -> apply st i x = Ok (st', u) -> 0 <= u /\ taken st' = taken st + (x - u)) ->
  Forall (fun a => 0 <= amount a) l -> allocation_sum l < 2 ^ 256 ->
  dispatch_allocations apply st l = Ok st' -> taken st' = taken st + allocation_sum l.
Proof. intros Ha. by apply dispatch_takes. Qed.

(** A sink that keeps half of what it is offered, except the terminal one. *)
Definition sample_sink (st : Z) (i : EmissionSinkId) (x : U256) : res (Z * U256) :=
  match i with
  | Metadosis => Ok (st + x, 0)
  | Waa => Err (Revert "closed")
  | _ => Ok (st + (x - x / 2), x / 2)
  end.

Lemma dispatch_conserves_witness :
  exists st', dispatch_allocations sample_sink 0 (fixed_amounts 1000 [(Validator, 4); (Waa, 4)] ++ [mkAllocation Metadosis 920])
              = Ok st' /\ st' = 0 + 1000.
Proof.
  eexists. split; [vm_compute; reflexivity|].
  apply (dispatch_conserves sample_sink (fun st => st) 0
    (fixed_amounts 1000 [(Validator, 4); (Waa, 4)] ++ [mkAllocation Metadosis 920])).
  - intros st i x st' u Hx. destruct i; cbn; intros [= <- <-]; pose proof (Z.div_pos x 2); lia.
  - repeat constructor; cbn; discriminate.
  - reflexivity.
  - reflexivity.
Defined.

(** The computation on words is the one over unbounded integers. *)
Lemma day_emission_limit_ref day : 0 <= day -> day_emission_limit day = day_emission_ref day.
Proof.
  intros Hd. unfold day_emission_limit, day_emission_ref. destruct (FLOOR_DAY_THRESHOLD <=? day) eqn:E; [done|]. bools.
  unfold FLOOR_DAY_THRESHOLD in E. cbv zeta.
  assert (Hs : K_NUM = 94952 /\ SCALE = 1000000000000000000 /\ K_DEN = 100000000) by done. destruct Hs as (H1 & H2 & H3).
  rewrite (wmul_small 256 K_NUM) by (rewrite H1; lia).
  rewrite (wmul_small 256 _ SCALE) by (rewrite H1, H2; lia).
  assert (Hx : 0 <= K_NUM * day * SCALE / K_DEN <= 3 * SCALE).
  { rewrite H1, H2, H3. split; [apply Z.div_pos; lia|]. apply Z.div_le_upper_bound; lia. }
  destruct (taylor_loop_ref 31 1 _ SCALE SCALE 0 ltac:(lia) ltac:(lia) Hx) as (p & q & Eq & Hp & Hq & Er);
    [vm_compute; done..|].
  change (TAYLOR_TERMS - 1)%nat with 31%nat. rewrite Eq. rewrite Z.sub_0_r in Er.
  unfold saturating_sub. rewrite Er, (Z.max_comm _ 0).
  assert (HT : INITIAL_DAILY * (32 * TERM_MAX) < 2 ^ 256) by (vm_compute; done).
  assert (HI : 0 < INITIAL_DAILY) by done.
  rewrite wmul_small by (assert (taylor_ref 31 1 (K_NUM * day * SCALE / K_DEN) SCALE SCALE <= 32 * TERM_MAX) by lia; nia).
  destruct (_ <? FLOOR_DAILY) eqn:El; bools; lia.
Qed.

(** Every term of the series is at most four and a half. *)
Lemma taylor_ref_bound n : forall k x term acc, 0 <= x <= 3 * SCALE -> 0 <= term -> 1 <= k ->
  (k = 1 -> term <= SCALE) -> (k = 2 -> term <= 3 * SCALE) -> (3 <= k -> 2 * term <= 9 * SCALE) ->
  taylor_ref n k x term acc <= acc + Z.of_nat n * (5 * SCALE).
Proof.
  assert (HS : 0 < SCALE) by done. induction n as [|n IH]; intros k x term acc Hx Ht Hk H1 H2 H3; cbn [taylor_ref]; [lia|]. cbv zeta.
  assert (Hq : term * x / (k * SCALE) * k <= 3 * term).
  { assert (Hm : k * SCALE * (term * x / (k * SCALE)) <= term * x) by (apply Z.mul_div_le; nia). assert (term * x <= term * (3 * SCALE)) by nia. nia. }
  assert (H0 : 0 <= term * x / (k * SCALE)) by (apply Z.div_pos; nia). set (t := term * x / (k * SCALE)) in *.
  destruct (t =? 0); [lia|]. assert (Hb : 2 * t <= 9 * SCALE).
  { destruct (decide (k = 1)) as [->|]; [specialize (H1 eq_refl); nia|]. destruct (decide (k = 2)) as [->|]; [specialize (H2 eq_refl); nia|]. specialize (H3 ltac:(lia)). nia. }
  transitivity ((if Z.odd k then acc - t else acc + t) + Z.of_nat n * (5 * SCALE)); [|destruct (Z.odd k); nia].
  apply IH; try done; try lia.
Qed.

Lemma day_emission_limit_bound day : 0 <= day -> 0 < day_emission_limit day < 2 ^ 100.
Proof.
  intros Hd. rewrite day_emission_limit_ref by done. unfold day_emission_ref. destruct (_ <=? day) eqn:E; [done|]. bools. unfold FLOOR_DAY_THRESHOLD in E. cbv zeta.
  assert (Hs : K_NUM = 94952 /\ SCALE = 1000000000000000000 /\ K_DEN = 100000000) by done. destruct Hs as (H1 & H2 & H3).
  assert (Hx : 0 <= K_NUM * day * SCALE / K_DEN <= 3 * SCALE).
  { rewrite H1, H2, H3. split; [apply Z.div_pos; lia|]. apply Z.div_le_upper_bound; lia. }
  pose proof (taylor_ref_bound 31 1 _ SCALE SCALE Hx ltac:(done) ltac:(done)) as Hb. specialize (Hb ltac:(done) ltac:(done) ltac:(lia)).
  set (s := taylor_ref 31 1 (K_NUM * day * SCALE / K_DEN) SCALE SCALE) in *. clearbody s.
  assert (Hc : 0 < FLOOR_DAILY < 2 ^ 100 /\ 0 < INITIAL_DAILY < 2 ^ 90) by (vm_compute; done). destruct Hc as [? HI].
  split; [lia|]. apply Z.max_lub_lt; [lia|]. apply Z.div_lt_upper_bound; [rewrite H2; lia|]. rewrite H2 in *. nia.
Qed.

(** The daily cap never overflows: for every day number the fixed-point
    computation on 256-bit words is the formula over unbounded integers, so the
    cap is at least the floor, is the floor from day 2920 on, and starts at the
    initial reward. *)
Theorem day_emission_limit_exact (day : u32) :
  0 <= day -> day_emission_limit day = day_emission_ref day /\ FLOOR_DAILY <= day_emission_limit day /\
  (FLOOR_DAY_THRESHOLD <= day -> day_emission_limit day = FLOOR_DAILY) /\
  day_emission_limit 0 = INITIAL_DAILY.
Proof.
  intros Hd. pose proof (day_emission_limit_ref day Hd) as E.
  split; [done|]. rewrite E. unfold day_emission_ref. split_and!.
  - destruct (FLOOR_DAY_THRESHOLD <=? day); [done|]. cbv zeta. lia.
  - intros Hge. by rewrite (proj2 (Z.leb_le _ _)).
  - vm_compute. reflexivity.
Qed.

Lemma day_emission_limit_exact_witness :
  day_emission_limit 365 = day_emission_ref 365 /\ day_emission_limit 365 = 759249206514486004915634176.
Proof. split; [apply (day_emission_limit_exact 365); lia|vm_compute; reflexivity]. Defined.
