(* ===== verification/LbMath.v ===== *)
(** * LbMath: the fixed-point price ladder

    [crates/blockchain/primitives/src/math]: [bit_math.rs], [uint256x256_math.rs],
    [uint128x128_math.rs], [price_helper.rs] and [constants.rs]. Words are 256-bit
    integers; limbs, carries, wrapping products and the signed results of [log2]
    are written out at their width. The lemmas show that the bit scans are the
    logarithm and the lowest set bit, that the 512-bit product and the division by
    modular inverse are exact, and that [log2] and the bin index are monotone in
    the price. *)

From S2P Require Import Prelude.

(** ** Constants *)

Definition SCALE_OFFSET : u32 := 128.
Definition SCALE_1_128_128 : U256 := 2 ^ 128.
Definition PRECISION : U256 := 1000000000000000000.
Definition BASIS_POINT_MAX : Z := 10000.
Definition REAL_ID_SHIFT : Z := 2 ^ 23.
Definition MAX_BIN_ID : u32 := 2 ^ 24 - 1.
Definition LOG_SCALE_OFFSET : u32 := 127.
Definition LOG_SCALE : U256 := 2 ^ 127.
Definition LOG_SCALE_SQUARED : U256 := 2 ^ 254.

(** [x << n] on a 256-bit word. *)
Definition shl256 (x n : Z) : U256 := Z.shiftl x n mod 2 ^ 256.

(** The signed word a 256-bit pattern stands for. *)
Definition i256 (x : Z) : Z := (x + 2 ^ 255) mod 2 ^ 256 - 2 ^ 255.
Definition i256_saturating_add (x y : Z) : Z := Z.max (- 2 ^ 255) (Z.min (x + y) (2 ^ 255 - 1)).

(** ** [bit_math.rs] *)

Definition most_significant_bit (x : U256) : u8 :=
  let msb := 0 in
  let '(x, msb) := if x >? 2 ^ 128 - 1 then (Z.shiftr x 128, 128) else (x, msb) in
  let '(x, msb) := if x >? 2 ^ 64 - 1 then (Z.shiftr x 64, wadd 8 msb 64) else (x, msb) in
  let '(x, msb) := if x >? 0xFFFFFFFF then (Z.shiftr x 32, wadd 8 msb 32) else (x, msb) in
  let '(x, msb) := if x >? 0xFFFF then (Z.shiftr x 16, wadd 8 msb 16) else (x, msb) in
  let '(x, msb) := if x >? 0xFF then (Z.shiftr x 8, wadd 8 msb 8) else (x, msb) in
  let '(x, msb) := if x >? 0xF then (Z.shiftr x 4, wadd 8 msb 4) else (x, msb) in
  let '(x, msb) := if x >? 0x3 then (Z.shiftr x 2, wadd 8 msb 2) else (x, msb) in
  if x >? 0x1 then wadd 8 msb 1 else msb.

(** The four little-endian 64-bit limbs of a word. *)
Definition as_limbs (x : U256) : list u64 :=
  (fun i => Z.shiftr x (64 * i) mod 2 ^ 64) <$> [0; 1; 2; 3].
Definition from_limbs (l : list u64) : Z := foldr (fun x acc => x + 2 ^ 64 * acc) 0 l.

(** [u64::trailing_zeros]: counts up from bit [i], [n] bits left. *)
Fixpoint trailing_zeros_from (n : nat) (i x : Z) : Z :=
  match n with
  | O => i
  | S n => if Z.testbit x i then i else trailing_zeros_from n (i + 1) x
  end.
Definition trailing_zeros (x : u64) : u32 := trailing_zeros_from 64 0 x.

Fixpoint lsb_limbs (i : u32) (limbs : list u64) : u32 :=
  match limbs with
  | [] => 255
  | limb :: limbs =>
      if negb (limb =? 0) then wadd 32 (trailing_zeros limb) (wmul 32 i 64)
      else lsb_limbs (i + 1) limbs
  end.
Definition least_significant_bit (word : U256) : u32 := lsb_limbs 0 (as_limbs word).

Definition mask_from (word : U256) (from_bit : u8) : U256 :=
  if from_bit =? 0 then word else Z.land word (shl256 MAX_U256 from_bit).

(** ** [uint256x256_math.rs] *)

(** One row of the schoolbook product: the inner loop over the limbs of [y]. *)
Fixpoint mul_row (xi : u64) (k : nat) (ys : list u64) (carry : Z) (product : list u64) :
    list u64 * Z :=
  match ys with
  | [] => (product, carry)
  | yj :: ys =>
      let cur := product !!! k in
      let p := wadd 128 (wadd 128 (wmul 128 xi yj) cur) carry in
      let product := <[k := p mod 2 ^ 64]> product in
      mul_row xi (S k) ys (Z.shiftr p 64) product
  end.

Fixpoint mul_rows (i : nat) (xs ys : list u64) (product : list u64) : list u64 :=
  match xs with
  | [] => product
  | xi :: xs =>
      let '(product, carry) := mul_row xi i ys 0 product in
      mul_rows (S i) xs ys (<[(i + 4)%nat := carry mod 2 ^ 64]> product)
  end.

Definition get_mul_prods (x y : U256) : U256 * U256 :=
  let product := mul_rows 0 (as_limbs x) (as_limbs y) (replicate 8 0) in
  (from_limbs (take 4 product), from_limbs (drop 4 product)).

(** The bits [n - 1 .. 0] of [word], most significant first. *)
Fixpoint mul_mod_word (n : nat) (denom word rem : U256) : U256 :=
  match n with
  | O => rem
  | S bit =>
      let rem := shl256 rem 1 in
      let rem := if negb (Z.land word (shl256 1 (Z.of_nat bit)) =? 0) then Z.lor rem 1 else rem in
      let rem := if rem >=? denom then wsub 256 rem denom else rem in
      mul_mod_word bit denom word rem
  end.

Definition mul_mod_512 (x y denom : U256) : U256 :=
  let '(prod0, prod1) := get_mul_prods x y in
  mul_mod_word 256 denom prod0 (mul_mod_word 256 denom prod1 0).

Fixpoint newton (n : nat) (denom_odd inverse : U256) : U256 :=
  match n with
  | O => inverse
  | S n =>
      let term := wsub 256 2 (wmul 256 denom_odd inverse) in
      newton n denom_odd (wmul 256 inverse term)
  end.

Definition get_end_of_div_round_down (x y denom prod0_in prod1 : U256) : res U256 :=
  if prod1 =? 0 then
    ensure negb (denom =? 0) else Revert "lb_math: mul_div by zero" in
    Ok (prod0_in / denom)
  else
  ensure negb (prod1 >=? denom) else Revert "lb_math: mul_div overflow" in
  let remainder := mul_mod_512 x y denom in
  let prod1_adj := if remainder >? prod0_in then wsub 256 prod1 1 else prod1 in
  let prod0_adj := wsub 256 prod0_in remainder in
  let lpotdod := Z.land denom (wsub 256 0 denom) in
  let denom_odd := denom / lpotdod in
  let prod0_shifted := prod0_adj / lpotdod in
  let lpotdod_inv :=
    if lpotdod =? 0 then 1 else wadd 256 (wsub 256 0 lpotdod / lpotdod) 1 in
  let combined := Z.lor prod0_shifted (wmul 256 prod1_adj lpotdod_inv) in
  let inverse := newton 6 denom_odd (Z.lxor (wmul 256 3 denom_odd) 2) in
  Ok (wmul 256 combined inverse).

Definition mul_shift_round_down (x y : U256) (offset : u8) : res U256 :=
  let '(prod0, prod1) := get_mul_prods x y in
  let result := if negb (prod0 =? 0) then Z.shiftr prod0 offset else 0 in
  if negb (prod1 =? 0) then
    ensure negb (prod1 >=? shl256 1 offset) else Revert "lb_math: mul_shift overflow" in
    Ok (if offset >? 0 then wadd 256 result (shl256 prod1 (256 - offset)) else result)
  else Ok result.

Definition shift_div_round_down (x : U256) (offset : u8) (denom : U256) : res U256 :=
  let prod0 := shl256 x offset in
  let prod1 := if offset =? 0 then 0 else Z.shiftr x (256 - offset) in
  let y := if offset >=? 256 then 0 else shl256 1 offset in
  get_end_of_div_round_down x y denom prod0 prod1.

(** ** [uint128x128_math.rs] *)

(** The [while delta > 0] loop; [delta] starts at [2^126] and halves. *)
Fixpoint log2_loop (fuel : nat) (y : U256) (delta result : Z) : Z :=
  match fuel with
  | O => result
  | S fuel =>
      if delta >? 0 then
        let y := Z.shiftr (wmul 256 y y) LOG_SCALE_OFFSET in
        let two_threshold := shl256 1 (LOG_SCALE_OFFSET + 1) in
        let '(result, y) :=
          if y >=? two_threshold then (i256_saturating_add result delta, Z.shiftr y 1) else (result, y) in
        log2_loop fuel y (Z.shiftr delta 1) result
      else result
  end.

Definition log2 (x : U256) : res Z :=
  if x =? 1 then Ok (-128) else
  ensure negb (x =? 0) else Revert "lb_math: log2 underflow (x == 0)" in
  let x_inner := Z.shiftr x 1 in
  let '(sign, x_inner) :=
    if x_inner >=? LOG_SCALE then (1, x_inner) else (-1, LOG_SCALE_SQUARED / x_inner) in
  let n := most_significant_bit (Z.shiftr x_inner LOG_SCALE_OFFSET) in
  let result := i256 (Z.shiftl n LOG_SCALE_OFFSET) in
  let y := Z.shiftr x_inner n in
  let result :=
    if negb (y =? LOG_SCALE) then log2_loop 128 y (Z.shiftl 1 (LOG_SCALE_OFFSET - 1)) result
    else result in
  Ok (i256 (Z.shiftl (i256 (result * sign)) 1)).

(** The 20 rounds of square-and-multiply, [bit] rounds done. *)
Fixpoint pow_loop (rounds : nat) (bit abs_y squared result : Z) : U256 :=
  match rounds with
  | O => result
  | S rounds =>
      let result := if Z.land (Z.shiftr abs_y bit) 1 =? 1
                    then Z.shiftr (wmul 256 result squared) 128 else result in
      pow_loop rounds (bit + 1) abs_y (Z.shiftr (wmul 256 squared squared) 128) result
  end.

Definition pow (x : U256) (y : Z) : res U256 :=
  if y =? 0 then Ok SCALE_1_128_128 else
  let '(invert, abs_y) := if y <? 0 then (true, - y) else (false, y) in
  ensure negb (abs_y >=? 0x100000) else Revert "lb_math: pow exponent out of LB range" in
  let '(squared, invert) :=
    if x >? 2 ^ 128 - 1 then (MAX_U256 / x, negb invert) else (x, invert) in
  let result := pow_loop 20 0 abs_y squared SCALE_1_128_128 in
  ensure negb (result =? 0) else Revert "lb_math: pow underflow" in
  Ok (if invert then MAX_U256 / result else result).

(** ** [price_helper.rs] *)

Definition get_base (bin_step : Z) : U256 :=
  wadd 256 SCALE_1_128_128 (shl256 bin_step SCALE_OFFSET / BASIS_POINT_MAX).

Definition get_exponent (id : u32) : Z := id - REAL_ID_SHIFT.

Definition get_price_from_id (id : u32) (bin_step : Z) : res U256 :=
  pow (get_base bin_step) (get_exponent id).

Definition get_id_from_price (price_128x128 : U256) (bin_step : Z) : res u32 :=
  let base := get_base bin_step in
  let? log2_price := log2 price_128x128 in
  let? log2_base := log2 base in
  ensure negb (log2_base =? 0) else Revert "lb_math: log2(base) == 0" in
  let real_id := Z.quot log2_price log2_base in
  let id_signed := i256_saturating_add real_id REAL_ID_SHIFT in
  if id_signed <? 0 then Ok 0 else
  Ok (if id_signed >? MAX_BIN_ID then MAX_BIN_ID else id_signed).

Definition convert_decimal_price_to_128x128 (price_18dec : U256) : res U256 :=
  shift_div_round_down price_18dec SCALE_OFFSET PRECISION.

Definition convert_128x128_price_to_decimal (price_128x128 : U256) : res U256 :=
  mul_shift_round_down price_128x128 PRECISION SCALE_OFFSET.

(** ** Bit scans *)

Lemma msb_step k x m :
  0 < k -> 0 < x < 2 ^ (2 * k) -> 0 <= m -> m + k < 256 ->
  exists x' m', (if x >? 2 ^ k - 1 then (Z.shiftr x k, wadd 8 m k) else (x, m)) = (x', m') /\
    0 < x' < 2 ^ k /\ m' + Z.log2 x' = m + Z.log2 x /\ m <= m' <= m + k.
Proof.
  intros Hk Hx Hm Hf. assert (Hp : 0 < 2 ^ k) by lia.
  assert (Hs : 2 ^ (2 * k) = 2 ^ k * 2 ^ k) by (rewrite <- Z.pow_add_r by lia; f_equal; lia).
  destruct (x >? 2 ^ k - 1) eqn:E; bools; do 2 eexists; (split; [done|]).
  - rewrite (wadd_small 8) by lia. rewrite Z.log2_shiftr by lia.
    assert (k <= Z.log2 x) by (apply Z.log2_le_pow2; lia).
    rewrite Z.shiftr_div_pow2 by lia. split_and!; [|apply Z.div_lt_upper_bound; lia|lia..].
    apply Z.div_str_pos. lia.
  - lia.
Qed.

Lemma most_significant_bit_spec x : 0 < x < 2 ^ 256 -> most_significant_bit x = Z.log2 x.
Proof.
  intros Hx. unfold most_significant_bit. cbv zeta.
  assert (H128 : exists x' m', (if x >? 2 ^ 128 - 1 then (Z.shiftr x 128, 128) else (x, 0)) = (x', m') /\
    0 < x' < 2 ^ 128 /\ m' + Z.log2 x' = 0 + Z.log2 x /\ 0 <= m' <= 0 + 128)
    by (apply (msb_step 128 x 0); lia).
  destruct H128 as (x1 & m1 & -> & H1 & E1 & B1).
  destruct (msb_step 64 x1 m1) as (x2 & m2 & -> & H2 & E2 & B2); [lia..|].
  destruct (msb_step 32 x2 m2) as (x3 & m3 & E & H3 & E3 & B3); [lia..|]. change 0xFFFFFFFF with (2 ^ 32 - 1). rewrite E. clear E.
  destruct (msb_step 16 x3 m3) as (x4 & m4 & E & H4 & E4 & B4); [lia..|]. change 0xFFFF with (2 ^ 16 - 1). rewrite E. clear E.
  destruct (msb_step 8 x4 m4) as (x5 & m5 & E & H5 & E5 & B5); [lia..|]. change 0xFF with (2 ^ 8 - 1). rewrite E. clear E.
  destruct (msb_step 4 x5 m5) as (x6 & m6 & E & H6 & E6 & B6); [lia..|]. change 0xF with (2 ^ 4 - 1). rewrite E. clear E.
  destruct (msb_step 2 x6 m6) as (x7 & m7 & E & H7 & E7 & B7); [lia..|]. change 0x3 with (2 ^ 2 - 1). rewrite E. clear E.
  destruct (x7 >? 1) eqn:E; bools.
  - rewrite wadd_small by lia. assert (Z.log2 x7 = 1) by (apply Z.log2_unique; lia). lia.
  - assert (x7 = 1) as -> by lia. change (Z.log2 1) with 0 in *. lia.
Qed.

(** [b] is the lowest set bit of [x]. *)
Definition lowest_bit (x b : Z) : Prop :=
  0 <= b /\ Z.testbit x b = true /\ forall j, 0 <= j < b -> Z.testbit x j = false.

Lemma testbit_range x w j : 0 <= x < 2 ^ w -> 0 <= w <= j -> Z.testbit x j = false.
Proof. intros Hx Hj. rewrite <- (Z.mod_small x (2 ^ w)) by lia. apply Z.mod_pow2_bits_high. lia. Qed.

Lemma testbit_exists x : 0 < x -> exists j, 0 <= j /\ Z.testbit x j = true.
Proof. intros Hx. exists (Z.log2 x). split; [apply Z.log2_nonneg|by apply Z.bit_log2]. Qed.

Lemma trailing_zeros_from_spec n i x :
  (forall j, 0 <= j < i -> Z.testbit x j = false) -> 0 <= i -> 0 < x < 2 ^ (i + Z.of_nat n) ->
  lowest_bit x (trailing_zeros_from n i x) /\ trailing_zeros_from n i x < i + Z.of_nat n.
Proof.
  revert i. induction n as [|n IH]; intros i Hlow Hi Hx; cbn [trailing_zeros_from].
  - destruct (testbit_exists x) as (j & Hj & Hb); [lia|].
    destruct (decide (j < i)); [rewrite Hlow in Hb by lia; discriminate|].
    rewrite (testbit_range x i) in Hb; [discriminate| |lia]. rewrite Z.add_0_r in Hx. lia.
  - destruct (Z.testbit x i) eqn:E; [split; [by split_and!|lia]|].
    destruct (IH (i + 1)) as (H1 & H2); [|lia| |split; [done|lia]].
    + intros j Hj. destruct (decide (j = i)) as [->|]; [done|apply Hlow; lia].
    + replace (i + 1 + Z.of_nat n) with (i + Z.of_nat (S n)) by lia. done.
Qed.

Lemma lsb_limbs_spec x i (n : nat) :
  0 < x < 2 ^ 256 -> 0 <= i -> i + Z.of_nat n = 4 -> (forall j, 0 <= j < 64 * i -> Z.testbit x j = false) ->
  lowest_bit x (lsb_limbs i ((fun i => Z.shiftr x (64 * i) mod 2 ^ 64) <$> seqZ i (Z.of_nat n))) /\
  lsb_limbs i ((fun i => Z.shiftr x (64 * i) mod 2 ^ 64) <$> seqZ i (Z.of_nat n)) < 256.
Proof.
  intros Hx. revert i. induction n as [|n IH]; intros i Hi Hn Hlow.
  - destruct (testbit_exists x) as (j & Hj & Hb); [lia|]. destruct (decide (j < 256)).
    + rewrite Hlow in Hb by lia. discriminate.
    + rewrite (testbit_range x 256) in Hb; [discriminate|lia..].
  - rewrite seqZ_cons by lia. cbn [fmap list_fmap lsb_limbs]. replace (Z.pred (Z.of_nat (S n))) with (Z.of_nat n) by lia.
    set (l := Z.shiftr x (64 * i) mod 2 ^ 64).
    assert (Hl : 0 <= l < 2 ^ 64) by (apply Z.mod_pos_bound; lia).
    assert (Hb : forall j, 0 <= j < 64 -> Z.testbit l j = Z.testbit x (64 * i + j)).
    { intros j Hj. unfold l. rewrite Z.mod_pow2_bits_low, Z.shiftr_spec by lia. f_equal. lia. }
    destruct (negb (l =? 0)) eqn:E; bools.
    + destruct (trailing_zeros_from_spec 64 0 l) as ((H1 & H2 & H3) & H4); [lia|lia|cbn; lia|].
      change (trailing_zeros_from 64 0 l) with (trailing_zeros l) in *.
      rewrite wmul_small, wadd_small by lia. split; [|lia]. split_and!; [lia| |].
      * rewrite <- H2, Hb by lia. f_equal. lia.
      * intros j Hj. destruct (decide (j < 64 * i)); [apply Hlow; lia|].
        replace j with (64 * i + (j - 64 * i)) by lia. rewrite <- Hb by lia. apply H3. lia.
    + replace (Z.succ i) with (i + 1) by lia. apply IH; [lia|lia|]. intros j Hj. destruct (decide (j < 64 * i)); [apply Hlow; lia|].
      replace j with (64 * i + (j - 64 * i)) by lia. rewrite <- Hb by lia. rewrite E. apply Z.testbit_0_l.
Qed.

Lemma least_significant_bit_spec x :
  0 < x < 2 ^ 256 -> lowest_bit x (least_significant_bit x) /\ least_significant_bit x < 256.
Proof. intros Hx. apply (lsb_limbs_spec x 0 4); [done|lia|lia|lia]. Qed.

Lemma mask_from_spec w b j :
  0 <= w < 2 ^ 256 -> 0 <= b < 256 -> 0 <= j ->
  Z.testbit (mask_from w b) j = Z.testbit w j && (b <=? j).
Proof.
  intros Hw Hb Hj. unfold mask_from. destruct (b =? 0) eqn:E; bools.
  - subst b. by rewrite (proj2 (Z.leb_le 0 j)), andb_true_r by lia.
  - rewrite Z.land_spec. destruct (decide (j < 256)) as [Hlt|Hge].
    + unfold shl256. rewrite Z.mod_pow2_bits_low by lia. f_equal. rewrite Z.shiftl_spec by lia.
      unfold MAX_U256. change (2 ^ 256 - 1) with (Z.ones 256).
      destruct (b <=? j) eqn:E2; bools; [apply Z.ones_spec_low; lia|apply Z.testbit_neg_r; lia].
    + rewrite (testbit_range w 256) by lia. done.
Qed.

Lemma mask_from_range w b : 0 <= w < 2 ^ 256 -> 0 <= b < 256 -> 0 <= mask_from w b < 2 ^ 256.
Proof.
  intros Hw Hb. unfold mask_from. destruct (b =? 0); [done|].
  assert (0 <= Z.land w (shl256 MAX_U256 b)) by (apply Z.land_nonneg; lia).
  split; [done|]. destruct (decide (Z.land w (shl256 MAX_U256 b) = 0)) as [->|]; [lia|].
  apply Z.log2_lt_pow2; [lia|]. assert (0 < w).
  { destruct (decide (w = 0)) as [->|]; [|lia]. by rewrite Z.land_0_l in *. }
  eapply Z.le_lt_trans; [apply Z.log2_land; [lia|apply Z.mod_pos_bound; lia]|].
  assert (Z.log2 w < 256) by (apply Z.log2_lt_pow2; lia). lia.
Qed.

(** ** The 512-bit product *)

Definition limb_ok (x : Z) : Prop := 0 <= x < 2 ^ 64.

Lemma from_limbs_insert l k v :
  (k < length l)%nat -> from_limbs (<[k := v]> l) = from_limbs l + (v - l !!! k) * 2 ^ (64 * Z.of_nat k).
Proof.
  revert k. induction l as [|a l IH]; intros k Hk; [cbn in Hk; lia|]. destruct k as [|k].
  - cbn. lia.
  - cbn in Hk. cbn [insert list_insert from_limbs foldr]. fold (from_limbs (<[k := v]> l)). fold (from_limbs l).
    rewrite IH by lia. change ((a :: l) !!! S k) with (l !!! k).
    replace (64 * Z.of_nat (S k)) with (64 + 64 * Z.of_nat k) by lia. rewrite Z.pow_add_r by lia. lia.
Qed.

Lemma from_limbs_range l : Forall limb_ok l -> 0 <= from_limbs l < 2 ^ (64 * Z.of_nat (length l)).
Proof.
  induction l as [|a l IH]; intros Hl; [cbn; lia|]. inversion Hl as [|? ? Ha Hl']; subst.
  specialize (IH Hl'). cbn [from_limbs foldr length]. fold (from_limbs l). unfold limb_ok in Ha.
  replace (64 * Z.of_nat (S (length l))) with (64 + 64 * Z.of_nat (length l)) by lia. rewrite Z.pow_add_r by lia. nia.
Qed.

Lemma from_limbs_app l1 l2 :
  from_limbs (l1 ++ l2) = from_limbs l1 + 2 ^ (64 * Z.of_nat (length l1)) * from_limbs l2.
Proof.
  induction l1 as [|a l1 IH].
  { change (from_limbs []) with 0. change (2 ^ (64 * Z.of_nat (length (@nil Z)))) with 1. cbn [app]. lia. }
  cbn [app from_limbs foldr length].
  fold (from_limbs (l1 ++ l2)). fold (from_limbs l1). rewrite IH.
  replace (64 * Z.of_nat (S (length l1))) with (64 + 64 * Z.of_nat (length l1)) by lia. rewrite Z.pow_add_r by lia. lia.
Qed.

Lemma as_limbs_spec x : 0 <= x < 2 ^ 256 -> from_limbs (as_limbs x) = x /\ Forall limb_ok (as_limbs x).
Proof.
  intros Hx. unfold as_limbs. split.
  - cbn [fmap list_fmap from_limbs foldr]. rewrite !Z.shiftr_div_pow2 by lia.
    assert (E2 : x / 2 ^ (64 * 2) = x / 2 ^ 64 / 2 ^ 64) by (rewrite Z.div_div by lia; done).
    assert (E3 : x / 2 ^ (64 * 3) = x / 2 ^ 64 / 2 ^ 64 / 2 ^ 64) by (rewrite !Z.div_div by lia; done).
    rewrite E2, E3.
    change (2 ^ (64 * 0)) with 1. change (64 * 1) with 64. rewrite Z.div_1_r.
    assert (x / 2 ^ 64 / 2 ^ 64 / 2 ^ 64 < 2 ^ 64)
      by (rewrite !Z.div_div by lia; apply Z.div_lt_upper_bound; lia).
    assert (0 <= x / 2 ^ 64 / 2 ^ 64 / 2 ^ 64) by (repeat apply Z.div_pos; lia).
    rewrite (Z.mod_small (x / 2 ^ 64 / 2 ^ 64 / 2 ^ 64)) by lia.
    pose proof (Z.div_mod x (2 ^ 64)). pose proof (Z.div_mod (x / 2 ^ 64) (2 ^ 64)).
    pose proof (Z.div_mod (x / 2 ^ 64 / 2 ^ 64) (2 ^ 64)). lia.
  - repeat constructor; apply Z.mod_pos_bound; lia.
Qed.

Lemma limb_lookup l k : Forall limb_ok l -> limb_ok (l !!! k).
Proof.
  intros Hl. destruct (decide (k < length l)%nat).
  - by apply Forall_lookup_total_1.
  - rewrite list_lookup_total_alt, lookup_ge_None_2 by lia. unfold limb_ok. cbn. lia.
Qed.

(** What a row of the product computes. *)
Record row_post (xi : Z) (k : nat) (ys : list Z) (carry : Z) (product : list Z) (r : list Z * Z) : Prop := {
  row_value : from_limbs r.1 + r.2 * 2 ^ (64 * Z.of_nat (k + length ys)) =
    from_limbs product + (xi * from_limbs ys + carry) * 2 ^ (64 * Z.of_nat k);
  row_length : length r.1 = length product;
  row_limbs : Forall limb_ok r.1;
  row_carry : limb_ok r.2;
  row_above : forall j, (k + length ys <= j)%nat -> r.1 !!! j = product !!! j
}.

Lemma mul_row_spec xi k ys carry product :
  limb_ok xi -> Forall limb_ok ys -> limb_ok carry -> Forall limb_ok product ->
  (k + length ys <= length product)%nat -> row_post xi k ys carry product (mul_row xi k ys carry product).
Proof.
  intros Hxi. revert k carry product.
  induction ys as [|y ys IH]; intros k carry product Hys Hc Hp Hlen.
  - cbn [mul_row]. split; cbn [fst snd length]; try done. change (from_limbs []) with 0.
    replace (k + 0)%nat with k by lia. lia.
  - inversion Hys as [|? ? Hy Hys']; subst. cbn in Hlen. cbn [mul_row]. cbv zeta.
    pose proof (limb_lookup _ k Hp) as Hcur. set (cur := product !!! k) in *.
    unfold limb_ok in Hxi, Hy, Hc, Hcur.
    assert (Hm : 0 <= xi * y <= (2 ^ 64 - 1) * (2 ^ 64 - 1)) by nia.
    rewrite wmul_small, (wadd_small 128 (xi * y) cur), wadd_small by lia.
    set (p := xi * y + cur + carry). rewrite Z.shiftr_div_pow2 by lia.
    pose proof (Z.div_mod p (2 ^ 64)) as Hdm.
    assert (Hlow : limb_ok (p mod 2 ^ 64)) by (apply Z.mod_pos_bound; lia).
    assert (Hhigh : limb_ok (p / 2 ^ 64)) by (split; [apply Z.div_pos|apply Z.div_lt_upper_bound]; unfold p; lia).
    destruct (IH (S k) (p / 2 ^ 64) (<[k := p mod 2 ^ 64]> product)) as [H1 H2 H3 H4 H5];
      [done|done|by apply Forall_insert|rewrite length_insert; lia|]. split; [|..].
    + cbn [length]. replace (k + S (length ys))%nat with (S k + length ys)%nat by lia. rewrite H1.
      rewrite from_limbs_insert by lia. fold cur. cbn [from_limbs foldr]. fold (from_limbs ys).
      replace (64 * Z.of_nat (S k)) with (64 + 64 * Z.of_nat k) by lia. rewrite Z.pow_add_r by lia.
      replace (p mod 2 ^ 64) with (p - 2 ^ 64 * (p / 2 ^ 64)) by lia. unfold p. lia.
    + rewrite H2. apply length_insert.
    + done.
    + done.
    + intros j Hj. cbn [length] in Hj. rewrite H5 by lia. apply list_lookup_total_insert_ne. lia.
Qed.

Lemma mul_rows_spec i xs ys product :
  Forall limb_ok xs -> Forall limb_ok ys -> Forall limb_ok product -> length ys = 4%nat ->
  (i + length xs <= 4)%nat -> length product = 8%nat ->
  (forall j, (i + 4 <= j < 8)%nat -> product !!! j = 0) ->
  from_limbs (mul_rows i xs ys product) = from_limbs product + from_limbs xs * from_limbs ys * 2 ^ (64 * Z.of_nat i) /\
  length (mul_rows i xs ys product) = 8%nat /\ Forall limb_ok (mul_rows i xs ys product).
Proof.
  intros Hxs Hys. revert i product Hxs. induction xs as [|x xs IH]; intros i product Hxs Hp Hly Hi Hlp Hz.
  - cbn [mul_rows]. change (from_limbs []) with 0. split_and!; [lia|done..].
  - inversion Hxs as [|? ? Hx Hxs']; subst. cbn in Hi. cbn [mul_rows].
    destruct (mul_row_spec x i ys 0 product) as [H1 H2 H3 H4 H5]; [done|done|unfold limb_ok; lia|done|lia|].
    destruct (mul_row x i ys 0 product) as [p c]. cbn [fst snd] in *. unfold limb_ok in H4.
    rewrite (Z.mod_small c) by lia. rewrite Hly in *.
    destruct (IH (S i) (<[(i + 4)%nat := c]> p)) as (V & L & F); [done|by apply Forall_insert|done|lia| | |].
    + rewrite length_insert. lia.
    + intros j Hj. rewrite list_lookup_total_insert_ne by lia. rewrite H5 by lia. apply Hz. lia.
    + split_and!; [|done|done]. rewrite V, from_limbs_insert by lia. rewrite H5, Hz by lia.
      cbn [from_limbs foldr]. fold (from_limbs xs).
      replace (64 * Z.of_nat (S i)) with (64 + 64 * Z.of_nat i) by lia. rewrite Z.pow_add_r by lia. lia.
Qed.

Lemma split_limbs p v :
  length p = 8%nat -> Forall limb_ok p -> from_limbs p = v ->
  (from_limbs (take 4 p), from_limbs (drop 4 p)) = (v mod 2 ^ 256, v / 2 ^ 256).
Proof.
  intros L F V. assert (Lt : length (take 4 p) = 4%nat) by (rewrite length_take, L; done).
  rewrite <- (take_drop 4 p), from_limbs_app, Lt in V.
  pose proof (from_limbs_range (take 4 p) ltac:(by apply Forall_take)) as R. rewrite Lt in R.
  change (64 * Z.of_nat 4) with 256 in *.
  replace v with (from_limbs (take 4 p) + from_limbs (drop 4 p) * 2 ^ 256) by lia.
  rewrite Z_mod_plus_full, Z.div_add, Z.mod_small, Z.div_small by lia. f_equal; lia.
Qed.

Lemma zero_limb j : (j < 8)%nat -> replicate 8 0 !!! j = 0.
Proof. intros Hj. by rewrite list_lookup_total_alt, lookup_replicate_2. Qed.

Lemma get_mul_prods_spec x y :
  0 <= x < 2 ^ 256 -> 0 <= y < 2 ^ 256 ->
  get_mul_prods x y = ((x * y) mod 2 ^ 256, x * y / 2 ^ 256).
Proof.
  intros Hx Hy. destruct (as_limbs_spec x Hx) as (Ex & Fx). destruct (as_limbs_spec y Hy) as (Ey & Fy).
  assert (Lx : length (as_limbs x) = 4%nat) by done. assert (Ly : length (as_limbs y) = 4%nat) by done.
  destruct (mul_rows_spec 0 (as_limbs x) (as_limbs y) (replicate 8 0)) as (V & L & F).
  - exact Fx.
  - exact Fy.
  - apply Forall_replicate. unfold limb_ok. lia.
  - exact Ly.
  - rewrite Lx. lia.
  - apply length_replicate.
  - intros j Hj. apply zero_limb. lia.
  - apply split_limbs; [exact L|exact F|]. rewrite V, Ex, Ey.
    assert (E0 : from_limbs (replicate 8 0) = 0) by reflexivity. rewrite E0, Z.pow_0_r. lia.
Qed.

(** ** Long division and the modular inverse *)

Lemma testbit_mask w b : 0 <= b < 256 -> negb (Z.land w (shl256 1 b) =? 0) = Z.testbit w b.
Proof.
  intros Hb. unfold shl256. rewrite Z.shiftl_1_l, Z.mod_small by (split; [lia|apply Z.pow_lt_mono_r; lia]).
  destruct (Z.testbit w b) eqn:E.
  - apply negb_true_iff, Z.eqb_neq. intros Hz. assert (Hf : Z.testbit (Z.land w (2 ^ b)) b = false) by (rewrite Hz; apply Z.testbit_0_l).
    rewrite Z.land_spec, E, Z.pow2_bits_true in Hf by lia. discriminate.
  - apply negb_false_iff, Z.eqb_eq. apply Z.bits_inj'. intros j Hj. rewrite Z.land_spec, Z.testbit_0_l, Z.pow2_bits_eqb by lia.
    destruct (Z.eqb_spec b j); [subst; by rewrite E|apply andb_false_r].
Qed.

Lemma low_bits_step w n : 0 <= n -> w mod 2 ^ (n + 1) = Z.b2z (Z.testbit w n) * 2 ^ n + w mod 2 ^ n.
Proof.
  intros Hn. rewrite Z.testbit_spec' by lia. rewrite Z.pow_add_r, Z.pow_1_r by lia.
  rewrite Z.rem_mul_r by lia. lia.
Qed.

Lemma lor_1_even a : Z.lor (2 * a) 1 = 2 * a + 1.
Proof.
  rewrite <- (Z.lxor_lor (2 * a) 1), <- Z.add_nocarry_lxor; [done|..];
    (apply Z.bits_inj'; intros j Hj; rewrite Z.land_spec, Z.testbit_0_l;
     destruct (decide (j = 0)) as [->|]; [by rewrite Z.testbit_even_0|];
     rewrite (testbit_range 1 1 j), andb_false_r by lia; done).
Qed.

Lemma mul_mod_word_spec n d w r :
  (n <= 256)%nat -> 0 < d <= 2 ^ 255 -> 0 <= r < d ->
  mul_mod_word n d w r = (r * 2 ^ Z.of_nat n + w mod 2 ^ Z.of_nat n) mod d.
Proof.
  revert r. induction n as [|n IH]; intros r Hn Hd Hr; cbn [mul_mod_word].
  - rewrite Z.pow_0_r, Z.mod_1_r, Z.mul_1_r, Z.add_0_r. by rewrite Z.mod_small by lia.
  - cbv zeta. rewrite testbit_mask by lia.
    assert (Es : shl256 r 1 = 2 * r) by (unfold shl256; rewrite Z.shiftl_mul_pow2, Z.mod_small by lia; lia). rewrite Es.
    set (b := Z.b2z (Z.testbit w (Z.of_nat n))).
    assert (Eb : (if Z.testbit w (Z.of_nat n) then Z.lor (2 * r) 1 else 2 * r) = 2 * r + b)
      by (unfold b; destruct (Z.testbit w (Z.of_nat n)); cbn [Z.b2z]; rewrite ?lor_1_even; lia).
    rewrite Eb. assert (Hb : 0 <= b <= 1) by (unfold b; destruct (Z.testbit w (Z.of_nat n)); cbn; lia).
    assert (Em : (if 2 * r + b >=? d then wsub 256 (2 * r + b) d else 2 * r + b) = (2 * r + b) mod d).
    { destruct (2 * r + b >=? d) eqn:E; bools.
      - rewrite wsub_small by lia. symmetry. rewrite <- (Z_mod_plus_full _ (-1)). apply Z.mod_small. lia.
      - by rewrite Z.mod_small by lia. }
    rewrite Em, IH; [|lia|lia|apply Z.mod_pos_bound; lia].
    replace (Z.of_nat (S n)) with (Z.of_nat n + 1) by lia. rewrite low_bits_step by lia. fold b.
    rewrite Z.pow_add_r, Z.pow_1_r by lia. rewrite <- Z.add_mod_idemp_l, Z.mul_mod_idemp_l, Z.add_mod_idemp_l by lia.
    f_equal. lia.
Qed.

(** The remainder is exact as long as the denominator leaves the shift room. *)
Lemma mul_mod_512_spec x y d :
  0 <= x < 2 ^ 256 -> 0 <= y < 2 ^ 256 -> 0 < d <= 2 ^ 255 -> mul_mod_512 x y d = (x * y) mod d.
Proof.
  intros Hx Hy Hd. unfold mul_mod_512. rewrite get_mul_prods_spec by done.
  rewrite (mul_mod_word_spec 256 d _ 0) by lia.
  rewrite mul_mod_word_spec; [|lia|lia|apply Z.mod_pos_bound; lia]. change (Z.of_nat 256) with 256.
  assert (0 <= x * y / 2 ^ 256 < 2 ^ 256) by (split; [apply Z.div_pos; lia|apply Z.div_lt_upper_bound; nia]).
  rewrite (Z.mod_small (x * y / 2 ^ 256)), Zmod_mod by lia. rewrite Z.mul_0_l, Z.add_0_l.
  rewrite <- Z.add_mod_idemp_l, Z.mul_mod_idemp_l, Z.add_mod_idemp_l by lia. f_equal.
  pose proof (Z.div_mod (x * y) (2 ^ 256)). lia.
Qed.

Lemma newton_step d inv k :
  0 <= k -> 2 * k <= 256 -> (2 ^ k | d * inv - 1) ->
  (2 ^ (2 * k) | d * wmul 256 inv (wsub 256 2 (wmul 256 d inv)) - 1).
Proof.
  intros Hk Hk2 [c Hc]. unfold wmul, wsub.
  assert (Hd : (2 ^ (2 * k) | 2 ^ 256)) by (exists (2 ^ (256 - 2 * k)); rewrite <- Z.pow_add_r by lia; f_equal; lia).
  assert (E : forall a, exists q, a mod 2 ^ 256 = a - q * 2 ^ (2 * k)).
  { intros a. destruct Hd as [e He]. exists (a / 2 ^ 256 * e). pose proof (Z.div_mod a (2 ^ 256)). rewrite <- Z.mul_assoc, <- He. lia. }
  destruct (E (d * inv)) as [q1 ->]. destruct (E (2 - (d * inv - q1 * 2 ^ (2 * k)))) as [q2 ->].
  destruct (E (inv * (2 - (d * inv - q1 * 2 ^ (2 * k)) - q2 * 2 ^ (2 * k)))) as [q3 ->].
  assert (Hp : 2 ^ (2 * k) = 2 ^ k * 2 ^ k) by (rewrite <- Z.pow_add_r by lia; f_equal; lia). rewrite Hp in *.
  set (P := 2 ^ k) in *. clearbody P. exists (- (c * c) + d * inv * (q1 - q2) - d * q3).
  assert (E1 : d * inv = c * P + 1) by lia.
  transitivity (d * inv * (2 - d * inv) - 1 + (d * inv * (q1 - q2) - d * q3) * (P * P)); [lia|].
  rewrite E1. lia.
Qed.

Lemma land_lxor_distr a b m : Z.land (Z.lxor a b) m = Z.lxor (Z.land a m) (Z.land b m).
Proof.
  apply Z.bits_inj'. intros j Hj. rewrite !Z.land_spec, !Z.lxor_spec, !Z.land_spec.
  by destruct (Z.testbit a j), (Z.testbit b j), (Z.testbit m j).
Qed.

Lemma newton_seed d : 0 <= d < 2 ^ 256 -> d mod 2 = 1 -> (2 ^ 4 | d * Z.lxor (wmul 256 3 d) 2 - 1).
Proof.
  intros Hd Ho. apply Z.mod_divide; [done|]. rewrite <- Zminus_mod_idemp_l, <- Z.mul_mod_idemp_r, <- Z.mul_mod_idemp_l by done.
  rewrite <- !(Z.land_ones _ 4), land_lxor_distr, !Z.land_ones by lia. unfold wmul.
  assert (E : ((3 * d) mod 2 ^ 256) mod 2 ^ 4 = (3 * (d mod 2 ^ 4)) mod 2 ^ 4).
  { rewrite Z.mul_mod_idemp_r by done. apply Z.mod_mod_divide. by exists (2 ^ 252). }
  rewrite E. assert (Hr : 0 <= d mod 2 ^ 4 < 2 ^ 4) by (apply Z.mod_pos_bound; lia).
  assert (Hr2 : (d mod 2 ^ 4) mod 2 = 1) by (rewrite <- Ho; apply Z.mod_mod_divide; by exists (2 ^ 3)).
  set (r := d mod 2 ^ 4) in *. clearbody r. change (2 ^ 4) with 16 in *.
  assert (Hc : forall r, 0 <= r < 0 + 16 -> (negb (r mod 2 =? 1) || (((r * Z.lxor ((3 * r) mod 16) (2 mod 16)) mod 16 - 1) mod 16 =? 0)) = true)
    by (apply range_forall; vm_compute; reflexivity).
  specialize (Hc r ltac:(lia)). rewrite Hr2 in Hc. cbn [Z.eqb Pos.eqb negb orb] in Hc. by apply Z.eqb_eq in Hc.
Qed.

Lemma newton_spec d : 0 <= d < 2 ^ 256 -> d mod 2 = 1 -> (2 ^ 256 | d * newton 6 d (Z.lxor (wmul 256 3 d) 2) - 1).
Proof.
  intros Hd Ho. pose proof (newton_seed d Hd Ho) as H. cbn [newton]. cbv zeta.
  do 6 (apply newton_step in H; [|lia..]). exact H.
Qed.

(** ** Division by the odd part *)

Lemma odd_part d : 0 < d -> exists t o, 0 <= t /\ d = 2 ^ t * o /\ o mod 2 = 1 /\ 0 < o.
Proof.
  destruct d as [|p|p]; [lia| |lia]. intros _. induction p as [p IH|p IH|].
  - exists 0, (Z.pos p~1). split_and!; [lia|lia| |lia]. rewrite Pos2Z.inj_xI, Z.add_comm, Z.mul_comm, Z_mod_plus_full. done.
  - destruct IH as (t & o & Ht & E & Ho & Hp). exists (t + 1), o. split_and!; [lia| |done|done].
    rewrite Z.pow_add_r, Z.pow_1_r by lia. lia.
  - exists 0, 1. done.
Qed.

Lemma ldiff_pred_odd o : o mod 2 = 1 -> Z.land o (- o) = 1.
Proof.
  intros Ho. assert (E : o = 2 * (o / 2) + 1) by (pose proof (Z.div_mod o 2); lia). set (m := o / 2) in E. clearbody m. subst o.
  replace (- (2 * m + 1)) with (Z.lnot (2 * m)) by (unfold Z.lnot; lia).
  apply Z.bits_inj'. intros j Hj. rewrite Z.land_spec, Z.lnot_spec by lia. destruct (decide (j = 0)) as [->|Hne].
  - rewrite Z.testbit_odd_0, Z.testbit_even_0. done.
  - replace j with (Z.succ (j - 1)) by lia. rewrite Z.testbit_odd_succ, Z.testbit_even_succ by lia.
    rewrite (testbit_range 1 1) by lia. apply andb_negb_r.
Qed.

Lemma lowest_power d t o :
  0 <= t -> d = 2 ^ t * o -> o mod 2 = 1 -> 0 < d < 2 ^ 256 -> Z.land d (wsub 256 0 d) = 2 ^ t.
Proof.
  intros Ht E Ho Hd. unfold wsub. rewrite Z.sub_0_l, <- Z.land_ones by lia.
  rewrite Z.land_assoc, Z.land_ones by lia.
  assert (El : Z.land d (- d) = 2 ^ t).
  { rewrite E. replace (- (2 ^ t * o)) with (2 ^ t * - o) by lia. rewrite <- !(Z.mul_comm _ (2 ^ t)), <- !Z.shiftl_mul_pow2 by lia.
    rewrite <- Z.shiftl_land, ldiff_pred_odd, Z.shiftl_1_l by done. done. }
  rewrite El. apply Z.mod_small. assert (Hp : 0 < 2 ^ t) by lia. set (P := 2 ^ t) in *. clearbody P.
  assert (0 < o) by nia. nia.
Qed.

Lemma lor_disjoint a b n : 0 <= n -> 0 <= a < 2 ^ n -> Z.lor a (b * 2 ^ n) = a + b * 2 ^ n.
Proof.
  intros Hn Ha. assert (Hl : Z.land a (b * 2 ^ n) = 0).
  { apply Z.bits_inj'. intros j Hj. rewrite Z.land_spec, Z.testbit_0_l. destruct (decide (j < n)).
    - by rewrite Z.mul_pow2_bits_low, andb_false_r by lia.
    - by rewrite (testbit_range a n) by lia. }
  by rewrite <- Z.lxor_lor, <- Z.add_nocarry_lxor.
Qed.

(** The two words of [N / 2^t], joined as the code joins them. *)
Lemma combine_spec n0 n1 t :
  0 <= t < 256 -> 0 <= n0 < 2 ^ 256 -> 0 <= n1 -> (2 ^ t | n0) ->
  Z.lor (n0 / 2 ^ t) (wmul 256 n1 (wadd 256 (wsub 256 0 (2 ^ t) / 2 ^ t) 1)) mod 2 ^ 256 =
  ((n1 * 2 ^ 256 + n0) / 2 ^ t) mod 2 ^ 256.
Proof.
  intros Ht H0 H1 [c Hc]. assert (Hp : 0 < 2 ^ t) by lia.
  assert (HM : 2 ^ 256 = 2 ^ (256 - t) * 2 ^ t) by (rewrite <- Z.pow_add_r by lia; f_equal; lia).
  assert (Hq : 0 < 2 ^ (256 - t)) by lia.
  assert (Ei : wsub 256 0 (2 ^ t) / 2 ^ t = 2 ^ (256 - t) - 1).
  { unfold wsub. rewrite <- (Z_mod_plus_full _ 1), Z.mod_small by lia.
    replace (0 - 2 ^ t + 1 * 2 ^ 256) with ((2 ^ (256 - t) - 1) * 2 ^ t) by lia. apply Z.div_mul. lia. }
  assert (En : n0 / 2 ^ t = c) by (rewrite Hc; apply Z.div_mul; lia).
  assert (EN : (n1 * 2 ^ 256 + n0) / 2 ^ t = c + n1 * 2 ^ (256 - t)).
  { rewrite Hc, HM. replace (n1 * (2 ^ (256 - t) * 2 ^ t) + c * 2 ^ t) with ((c + n1 * 2 ^ (256 - t)) * 2 ^ t) by lia. apply Z.div_mul. lia. }
  rewrite Ei, En, EN. destruct (decide (t = 0)) as [->|Hne].
  - unfold wadd, wmul. change (2 ^ (256 - 0) - 1 + 1) with (2 ^ 256). rewrite Z_mod_same_full, Z.mul_0_r, Z.mod_0_l, Z.lor_0_r by lia.
    change (256 - 0) with 256. by rewrite Z_mod_plus_full.
  - rewrite wadd_small by (split; [lia|]; assert (2 ^ (256 - t) < 2 ^ 256) by (apply Z.pow_lt_mono_r; lia); lia).
    replace (2 ^ (256 - t) - 1 + 1) with (2 ^ (256 - t)) by lia. unfold wmul.
    assert (Em : (n1 * 2 ^ (256 - t)) mod 2 ^ 256 = (n1 mod 2 ^ t) * 2 ^ (256 - t)).
    { rewrite HM, (Z.mul_comm (2 ^ (256 - t)) (2 ^ t)). apply Z.mul_mod_distr_r; lia. }
    rewrite Em, lor_disjoint by nia. rewrite <- Em. by rewrite Z.add_mod_idemp_r by lia.
Qed.

(** Multiplying the exact numerator by the inverse of the odd part divides it. *)
Lemma inverse_divides q o inv N M :
  0 < M -> 0 <= q < M -> N = q * o -> (M | o * inv - 1) -> ((N mod M) * inv) mod M = q.
Proof.
  intros HM Hq -> [c Hc]. rewrite Z.mul_mod_idemp_l by lia.
  rewrite <- Z.mul_assoc. replace (o * inv) with (c * M + 1) by lia.
  replace (q * (c * M + 1)) with (q + q * c * M) by lia. rewrite Z_mod_plus_full. apply Z.mod_small. lia.
Qed.

Lemma end_of_div_spec x y d :
  0 <= x < 2 ^ 256 -> 0 <= y < 2 ^ 256 -> 0 < d <= 2 ^ 255 ->
  get_end_of_div_round_down x y d ((x * y) mod 2 ^ 256) (x * y / 2 ^ 256) =
  if x * y / d <? 2 ^ 256 then Ok (x * y / d) else Err (Revert "lb_math: mul_div overflow").
Proof.
  intros Hx Hy Hd. unfold get_end_of_div_round_down. set (P := x * y). assert (HP : 0 <= P) by (unfold P; lia).
  pose proof (Z.div_mod P (2 ^ 256) ltac:(lia)) as HPd. pose proof (Z.mod_pos_bound P (2 ^ 256) ltac:(lia)) as HPm.
  set (n1 := P / 2 ^ 256) in *. set (n0 := P mod 2 ^ 256) in *.
  destruct (n1 =? 0) eqn:E0; bools.
  - rewrite (proj2 (Z.eqb_neq d 0)) by lia. cbn [negb]. replace P with n0 by lia.
    rewrite (proj2 (Z.ltb_lt _ _)); [done|]. apply Z.div_lt_upper_bound; nia.
  - pose proof (Z.div_mod P d ltac:(lia)) as Hq. pose proof (Z.mod_pos_bound P d ltac:(lia)) as Hr.
    destruct (n1 >=? d) eqn:E1; bools; cbn [negb].
    + destruct (P / d <? 2 ^ 256) eqn:E2; bools; [nia|done].
    + assert (Hqb : 0 <= P / d < 2 ^ 256) by (split; [apply Z.div_pos; lia|apply Z.div_lt_upper_bound; nia]).
      rewrite (proj2 (Z.ltb_lt (P / d) _)) by lia. rewrite mul_mod_512_spec by (lia || done). fold P.
      set (q := P / d) in *. set (r := P mod d) in *. cbv zeta.
      destruct (odd_part d ltac:(lia)) as (t & o & Ht & Ed & Ho & Hop).
      rewrite (lowest_power d t o) by (done || lia). assert (Hp : 0 < 2 ^ t) by lia.
      assert (Ht256 : t < 256) by (apply (Z.pow_lt_mono_r_iff 2); [lia|lia|nia]).
      rewrite (proj2 (Z.eqb_neq (2 ^ t) 0)) by lia.
      assert (Eo : d / 2 ^ t = o) by (rewrite Ed, Z.mul_comm; apply Z.div_mul; lia). rewrite Eo.
      set (m1 := if r >? n0 then wsub 256 n1 1 else n1). set (m0 := wsub 256 n0 r).
      assert (Hm : m1 * 2 ^ 256 + m0 = q * d /\ 0 <= m0 < 2 ^ 256 /\ 0 <= m1).
      { unfold m1, m0. destruct (r >? n0) eqn:E2; bools.
        - rewrite (wsub_small 256 n1 1) by nia. unfold wsub. rewrite <- (Z_mod_plus_full _ 1), Z.mod_small by lia. lia.
        - rewrite wsub_small by lia. lia. }
      destruct Hm as (Em & Hm0 & Hm1).
      assert (Hdiv : (2 ^ t | m0)).
      { exists (q * o - m1 * 2 ^ (256 - t)). assert (2 ^ 256 = 2 ^ (256 - t) * 2 ^ t) by (rewrite <- Z.pow_add_r by lia; f_equal; lia). nia. }
      f_equal. unfold wmul at 1. rewrite <- Z.mul_mod_idemp_l by lia. rewrite combine_spec by (lia || done).
      apply (inverse_divides q o); [lia|lia| |apply newton_spec; [nia|done]].
      rewrite Em, Ed. replace (q * (2 ^ t * o)) with (q * o * 2 ^ t) by lia. apply Z.div_mul. lia.
Qed.

(** [shift_div_round_down] is the floor of [x * 2^offset / denom]. *)
Lemma shift_div_spec x offset d :
  0 <= x < 2 ^ 256 -> 0 <= offset < 256 -> 0 < d <= 2 ^ 255 ->
  shift_div_round_down x offset d =
  if x * 2 ^ offset / d <? 2 ^ 256 then Ok (x * 2 ^ offset / d) else Err (Revert "lb_math: mul_div overflow").
Proof.
  intros Hx Ho Hd. unfold shift_div_round_down. cbv zeta.
  destruct (offset >=? 256) eqn:E; bools; [lia|].
  assert (Hp : 0 < 2 ^ offset < 2 ^ 256) by (split; [lia|apply Z.pow_lt_mono_r; lia]).
  assert (E1 : shl256 1 offset = 2 ^ offset) by (unfold shl256; rewrite Z.shiftl_1_l; apply Z.mod_small; lia).
  assert (E2 : shl256 x offset = (x * 2 ^ offset) mod 2 ^ 256) by (unfold shl256; rewrite Z.shiftl_mul_pow2 by lia; done).
  assert (E3 : (if offset =? 0 then 0 else Z.shiftr x (256 - offset)) = x * 2 ^ offset / 2 ^ 256).
  { destruct (offset =? 0) eqn:E0; bools.
    - subst. rewrite Z.pow_0_r, Z.mul_1_r. symmetry. apply Z.div_small. lia.
    - rewrite Z.shiftr_div_pow2 by lia.
      replace (2 ^ 256) with (2 ^ (256 - offset) * 2 ^ offset) by (rewrite <- Z.pow_add_r by lia; f_equal; lia).
      rewrite Z.div_mul_cancel_r by lia. done. }
  rewrite E1, E2, E3. apply end_of_div_spec; lia.
Qed.

Lemma mul_shift_spec x y offset :
  0 <= x < 2 ^ 256 -> 0 <= y < 2 ^ 256 -> 0 <= offset < 256 ->
  mul_shift_round_down x y offset =
  if x * y / 2 ^ offset <? 2 ^ 256 then Ok (x * y / 2 ^ offset) else Err (Revert "lb_math: mul_shift overflow").
Proof.
  intros Hx Hy Ho. unfold mul_shift_round_down. rewrite get_mul_prods_spec by done. set (P := x * y).
  assert (HP : 0 <= P) by (unfold P; lia).
  pose proof (Z.div_mod P (2 ^ 256) ltac:(lia)) as HPd. pose proof (Z.mod_pos_bound P (2 ^ 256) ltac:(lia)) as HPm.
  set (n1 := P / 2 ^ 256) in *. set (n0 := P mod 2 ^ 256) in *. assert (Hn1 : 0 <= n1) by (apply Z.div_pos; lia).
  assert (Hp : 0 < 2 ^ offset < 2 ^ 256) by (split; [lia|apply Z.pow_lt_mono_r; lia]).
  assert (HM : 2 ^ 256 = 2 ^ (256 - offset) * 2 ^ offset) by (rewrite <- Z.pow_add_r by lia; f_equal; lia).
  assert (Eq : P / 2 ^ offset = n1 * 2 ^ (256 - offset) + n0 / 2 ^ offset).
  { rewrite HPd, HM. replace (2 ^ (256 - offset) * 2 ^ offset * n1 + n0) with (n1 * 2 ^ (256 - offset) * 2 ^ offset + n0) by lia.
    rewrite Z.div_add_l by lia. done. }
  assert (E0 : (if negb (n0 =? 0) then Z.shiftr n0 offset else 0) = n0 / 2 ^ offset).
  { rewrite Z.shiftr_div_pow2 by lia. destruct (n0 =? 0) eqn:E; bools; cbn [negb]; [rewrite E; symmetry; apply Z.div_0_l; lia|done]. }
  assert (Hlow : 0 <= n0 / 2 ^ offset < 2 ^ (256 - offset)) by (split; [apply Z.div_pos; lia|apply Z.div_lt_upper_bound; lia]).
  rewrite E0, Eq. destruct (n1 =? 0) eqn:E1; bools; cbn [negb].
  { rewrite E1, Z.mul_0_l, Z.add_0_l, (proj2 (Z.ltb_lt _ _)); [done|]. nia. }
  unfold shl256 at 1. rewrite Z.shiftl_1_l, (Z.mod_small (2 ^ offset)) by lia.
  destruct (n1 >=? 2 ^ offset) eqn:E2; bools; cbn [negb].
  - rewrite (proj2 (Z.ltb_ge _ _)) by nia. done.
  - rewrite (proj2 (Z.ltb_lt _ _)) by nia. assert (0 < offset) by (destruct (decide (offset = 0)) as [->|]; lia).
    rewrite (proj2 (Z.gtb_lt offset 0)) by lia. f_equal. unfold shl256. rewrite Z.shiftl_mul_pow2 by lia.
    rewrite (Z.mod_small (n1 * _)) by nia. rewrite wadd_small by nia. lia.
Qed.

(** With a denominator above [2^255] the shifted remainder loses its top bit. *)
Lemma shift_div_wide_denominator :
  shift_div_round_down (3 * 2 ^ 254) 1 MAX_U256 = Ok 0 /\ 3 * 2 ^ 254 * 2 ^ 1 / MAX_U256 = 1.
Proof. split; vm_compute; reflexivity. Qed.

(** ** The binary logarithm *)

(** The [k] fraction bits the loop extracts from [y], without the machine widths. *)
Fixpoint frac_bits (k : nat) (y : Z) : Z :=
  match k with
  | O => 0
  | S k => let y := y * y / 2 ^ 127 in
      if 2 ^ 128 <=? y then 2 ^ Z.of_nat k + frac_bits k (y / 2) else frac_bits k y
  end.

Lemma square_range y : 2 ^ 127 <= y < 2 ^ 128 -> 2 ^ 127 <= y * y / 2 ^ 127 < 2 ^ 129.
Proof.
  intros Hy. split; [apply Z.div_le_lower_bound; nia|apply Z.div_lt_upper_bound; nia].
Qed.

Lemma halve_range y : 2 ^ 128 <= y < 2 ^ 129 -> 2 ^ 127 <= y / 2 < 2 ^ 128.
Proof. intros Hy. split; [apply Z.div_le_lower_bound; lia|apply Z.div_lt_upper_bound; lia]. Qed.

Lemma frac_bits_range k y : 0 <= frac_bits k y < 2 ^ Z.of_nat k.
Proof.
  revert y. induction k as [|k IH]; intros y; cbn [frac_bits]; [lia|]. cbv zeta.
  replace (Z.of_nat (S k)) with (Z.of_nat k + 1) by lia. rewrite Z.pow_add_r, Z.pow_1_r by lia.
  destruct (2 ^ 128 <=? y * y / 2 ^ 127); [pose proof (IH (y * y / 2 ^ 127 / 2))|pose proof (IH (y * y / 2 ^ 127))]; lia.
Qed.

(** A larger mantissa has a larger fraction. *)
Lemma frac_bits_mono k y1 y2 : 0 <= y1 <= y2 -> frac_bits k y1 <= frac_bits k y2.
Proof.
  revert y1 y2. induction k as [|k IH]; intros y1 y2 Hy; cbn [frac_bits]; [lia|]. cbv zeta.
  assert (Hs : 0 <= y1 * y1 / 2 ^ 127 <= y2 * y2 / 2 ^ 127)
    by (split; [apply Z.div_pos; nia|apply Z.div_le_mono; nia]).
  set (a := y1 * y1 / 2 ^ 127) in *. set (b := y2 * y2 / 2 ^ 127) in *.
  destruct (2 ^ 128 <=? a) eqn:E1, (2 ^ 128 <=? b) eqn:E2; bools.
  - assert (frac_bits k (a / 2) <= frac_bits k (b / 2)); [|lia].
    apply IH. split; [apply Z.div_pos; lia|apply Z.div_le_mono; lia].
  - lia.
  - pose proof (frac_bits_range k a). pose proof (frac_bits_range k (b / 2)). lia.
  - apply IH. lia.
Qed.

Lemma i256_small x : - 2 ^ 255 <= x < 2 ^ 255 -> i256 x = x.
Proof. intros Hx. unfold i256. rewrite Z.mod_small by lia. lia. Qed.

Lemma log2_loop_spec k fuel y result :
  (k < fuel)%nat -> (k <= 127)%nat -> 2 ^ 127 <= y < 2 ^ 128 ->
  0 <= result -> result + 2 ^ Z.of_nat k < 2 ^ 200 ->
  log2_loop fuel y (2 ^ (Z.of_nat k - 1)) result = result + frac_bits k y.
Proof.
  revert fuel y result. induction k as [|k IH]; intros fuel y result Hf Hk Hy Hr Hr2.
  - destruct fuel as [|fuel]; [lia|]. cbn [log2_loop frac_bits]. change (2 ^ (Z.of_nat 0 - 1)) with 0.
    cbn [Z.gtb Z.compare]. lia.
  - destruct fuel as [|fuel]; [lia|]. cbn [log2_loop frac_bits].
    replace (Z.of_nat (S k) - 1) with (Z.of_nat k) by lia.
    rewrite (proj2 (Z.gtb_lt (2 ^ Z.of_nat k) 0)) by lia. cbv zeta. change LOG_SCALE_OFFSET with 127.
    rewrite wmul_small by nia. rewrite (Z.shiftr_div_pow2 (y * y)) by lia.
    assert (Et : shl256 1 (127 + 1) = 2 ^ 128) by reflexivity. rewrite Et.
    assert (Hd : Z.shiftr (2 ^ Z.of_nat k) 1 = 2 ^ (Z.of_nat k - 1)) by (rewrite Z.shiftr_div_pow2 by lia; destruct k; [done|];
      replace (Z.of_nat (S k)) with (Z.of_nat k + 1) by lia; rewrite Z.pow_add_r, Z.pow_1_r, Z.div_mul by lia; f_equal; lia).
    pose proof (square_range y Hy) as Hs. set (s := y * y / 2 ^ 127) in *. clearbody s.
    assert (Hp : 2 ^ Z.of_nat (S k) = 2 * 2 ^ Z.of_nat k) by (rewrite <- Z.pow_succ_r by lia; f_equal; lia).
    rewrite Hp in Hr2. set (d := 2 ^ Z.of_nat k) in *. assert (0 < d) by (unfold d; lia).
    rewrite Z.geb_leb. destruct (2 ^ 128 <=? s) eqn:E; bools; rewrite Hd.
    + unfold i256_saturating_add. rewrite Z.min_l, Z.max_r by lia. rewrite Z.shiftr_div_pow2, Z.pow_1_r by lia.
      rewrite IH; [lia|lia|lia|apply halve_range; lia|lia|lia].
    + apply IH; lia.
Qed.

Lemma frac_bits_one k : frac_bits k (2 ^ 127) = 0.
Proof. induction k as [|k IH]; cbn [frac_bits]; [done|]. by change (2 ^ 127 * 2 ^ 127 / 2 ^ 127) with (2 ^ 127). Qed.

(** The logarithm of [x / 2^127], in 129.127 fixed point, for [x >= 2^127]. *)
Definition log_mag (x : Z) : Z :=
  (Z.log2 x - 127) * 2 ^ 127 + frac_bits 127 (x / 2 ^ (Z.log2 x - 127)).

(** The argument of [log_mag] and the sign, as [log2] picks them. *)
Definition log_arg (x : Z) : Z := if 2 ^ 127 <=? x / 2 then x / 2 else 2 ^ 254 / (x / 2).
Definition log_sign (x : Z) : Z := if 2 ^ 127 <=? x / 2 then 1 else -1.

Lemma mantissa_range x : 2 ^ 127 <= x -> 2 ^ 127 <= x / 2 ^ (Z.log2 x - 127) < 2 ^ 128.
Proof.
  intros Hx. pose proof (Z.log2_spec x ltac:(lia)) as Hl. assert (127 <= Z.log2 x) by (apply Z.log2_le_pow2; lia).
  assert (E : 2 ^ Z.log2 x = 2 ^ (Z.log2 x - 127) * 2 ^ 127) by (rewrite <- Z.pow_add_r by lia; f_equal; lia).
  rewrite Z.pow_succ_r in Hl by lia. set (P := 2 ^ (Z.log2 x - 127)) in *. assert (0 < P) by (unfold P; lia).
  split; [apply Z.div_le_lower_bound; lia|apply Z.div_lt_upper_bound; lia].
Qed.

Lemma log_mag_range x : 2 ^ 127 <= x < 2 ^ 255 -> 0 <= log_mag x < 2 ^ 136.
Proof.
  intros Hx. unfold log_mag. pose proof (frac_bits_range 127 (x / 2 ^ (Z.log2 x - 127))) as Hf.
  assert (127 <= Z.log2 x) by (apply Z.log2_le_pow2; lia). assert (Z.log2 x < 255) by (apply Z.log2_lt_pow2; lia).
  change (Z.of_nat 127) with 127 in Hf. lia.
Qed.

Lemma log_mag_mono x y : 2 ^ 127 <= x <= y -> log_mag x <= log_mag y.
Proof.
  intros Hx. unfold log_mag. pose proof (Z.log2_le_mono x y ltac:(lia)).
  pose proof (frac_bits_range 127 (x / 2 ^ (Z.log2 x - 127))) as Hf.
  pose proof (frac_bits_range 127 (y / 2 ^ (Z.log2 y - 127))) as Hg. change (Z.of_nat 127) with 127 in *.
  destruct (decide (Z.log2 x = Z.log2 y)) as [E|]; [|lia]. rewrite E.
  assert (127 <= Z.log2 y) by (apply Z.log2_le_pow2; lia). assert (0 < 2 ^ (Z.log2 y - 127)) by lia.
  assert (frac_bits 127 (x / 2 ^ (Z.log2 y - 127)) <= frac_bits 127 (y / 2 ^ (Z.log2 y - 127))); [|lia].
  apply frac_bits_mono. split; [apply Z.div_pos; lia|apply Z.div_le_mono; lia].
Qed.

Lemma log_arg_range x : 2 <= x < 2 ^ 256 -> 2 ^ 127 <= log_arg x < 2 ^ 255.
Proof.
  intros Hx. assert (Hh : 1 <= x / 2 < 2 ^ 255) by (split; [apply Z.div_le_lower_bound; lia|apply Z.div_lt_upper_bound; lia]).
  unfold log_arg. destruct (2 ^ 127 <=? x / 2) eqn:E; bools; [lia|].
  split; [apply Z.div_le_lower_bound; lia|apply Z.div_lt_upper_bound; nia].
Qed.

(** The code's magnitude computation, for the chosen argument. *)
Lemma log2_magnitude x :
  2 ^ 127 <= x < 2 ^ 255 ->
  let n := most_significant_bit (Z.shiftr x LOG_SCALE_OFFSET) in
  let y := Z.shiftr x n in
  (if negb (y =? LOG_SCALE)
   then log2_loop 128 y (Z.shiftl 1 (LOG_SCALE_OFFSET - 1)) (i256 (Z.shiftl n LOG_SCALE_OFFSET))
   else i256 (Z.shiftl n LOG_SCALE_OFFSET)) = log_mag x.
Proof.
  intros Hx n y. pose proof (log_mag_range x Hx) as Hm. pose proof (mantissa_range x ltac:(lia)) as Hy.
  assert (H127 : 127 <= Z.log2 x) by (apply Z.log2_le_pow2; lia). assert (H255 : Z.log2 x < 255) by (apply Z.log2_lt_pow2; lia).
  assert (En : n = Z.log2 x - 127).
  { unfold n. rewrite most_significant_bit_spec.
    - rewrite Z.log2_shiftr by lia. change LOG_SCALE_OFFSET with 127. lia.
    - rewrite Z.shiftr_div_pow2 by (unfold LOG_SCALE_OFFSET; lia). change LOG_SCALE_OFFSET with 127.
      split; [apply Z.div_str_pos; lia|apply Z.div_lt_upper_bound; lia]. }
  assert (Ey : y = x / 2 ^ (Z.log2 x - 127)) by (unfold y; rewrite En, Z.shiftr_div_pow2 by lia; done).
  assert (Er : i256 (Z.shiftl n LOG_SCALE_OFFSET) = (Z.log2 x - 127) * 2 ^ 127).
  { rewrite En. change LOG_SCALE_OFFSET with 127. rewrite Z.shiftl_mul_pow2 by lia. apply i256_small. lia. }
  rewrite Er. clearbody n y. subst n. unfold log_mag. rewrite <- Ey in *. change LOG_SCALE with (2 ^ 127).
  destruct (y =? 2 ^ 127) eqn:E; bools; cbn [negb].
  - rewrite E, frac_bits_one. lia.
  - change (Z.shiftl 1 (LOG_SCALE_OFFSET - 1)) with (2 ^ (Z.of_nat 127 - 1)). apply log2_loop_spec; [lia..|].
    change (Z.of_nat 127) with 127. lia.
Qed.

Lemma log2_spec x : 2 <= x < 2 ^ 256 -> log2 x = Ok (2 * (log_sign x * log_mag (log_arg x))).
Proof.
  intros Hx. unfold log2. rewrite (proj2 (Z.eqb_neq x 1)), (proj2 (Z.eqb_neq x 0)) by lia. cbn [negb].
  pose proof (log_arg_range x Hx) as Ha. pose proof (log_mag_range _ Ha) as Hm. pose proof (log2_magnitude _ Ha) as E.
  rewrite Z.shiftr_div_pow2, Z.pow_1_r by lia. unfold log_arg, log_sign in *. rewrite Z.geb_leb.
  change LOG_SCALE_SQUARED with (2 ^ 254). change (LOG_SCALE <=? x / 2) with (2 ^ 127 <=? x / 2).
  destruct (2 ^ 127 <=? x / 2); cbv zeta; cbv zeta in E; rewrite E; f_equal.
  all: rewrite Z.shiftl_mul_pow2, Z.pow_1_r by lia; rewrite !i256_small by (rewrite ?i256_small; lia); lia.
Qed.

(** The logarithm is monotone on its whole range above the special case [x = 1]. *)
Lemma log2_mono x y a b : 2 <= x <= y -> y < 2 ^ 256 -> log2 x = Ok a -> log2 y = Ok b -> a <= b.
Proof.
  intros Hx Hy. rewrite !log2_spec by lia. intros [= <-] [= <-].
  pose proof (log_mag_range _ (log_arg_range x ltac:(lia))). pose proof (log_mag_range _ (log_arg_range y ltac:(lia))).
  assert (Hh : 1 <= x / 2 <= y / 2) by (split; [apply Z.div_le_lower_bound; lia|apply Z.div_le_mono; lia]).
  unfold log_sign, log_arg in *.
  destruct (2 ^ 127 <=? x / 2) eqn:E1, (2 ^ 127 <=? y / 2) eqn:E2; bools; [|lia|lia|].
  - pose proof (log_mag_mono (x / 2) (y / 2) ltac:(lia)). lia.
  - assert (2 ^ 254 / (y / 2) <= 2 ^ 254 / (x / 2)) by (apply Z.div_le_compat_l; lia).
    assert (2 ^ 127 <= 2 ^ 254 / (y / 2)) by (apply Z.div_le_lower_bound; lia).
    pose proof (log_mag_mono (2 ^ 254 / (y / 2)) (2 ^ 254 / (x / 2)) ltac:(lia)). lia.
Qed.

Lemma quot_small m lb B : 0 < lb -> - B < m < B -> - B < Z.quot m lb < B.
Proof.
  intros Hlb Hm. pose proof (Z.quot_abs m lb ltac:(lia)) as Ha. rewrite (Z.abs_eq lb) in Ha by lia.
  assert (Z.quot (Z.abs m) lb <= Z.abs m) by (apply Z.quot_le_upper_bound; nia). lia.
Qed.

Lemma get_id_total p step lb :
  2 <= p < 2 ^ 256 -> log2 (get_base step) = Ok lb -> 0 < lb ->
  exists m, log2 p = Ok m /\ - 2 ^ 137 < m < 2 ^ 137 /\
  get_id_from_price p step = Ok (Z.max 0 (Z.min MAX_BIN_ID (Z.quot m lb + REAL_ID_SHIFT))).
Proof.
  intros Hp Hb Hlb. unfold get_id_from_price. rewrite Hb, log2_spec by done. cbv zeta.
  pose proof (log_mag_range _ (log_arg_range p Hp)) as Hm.
  set (m := 2 * (log_sign p * log_mag (log_arg p))).
  assert (Hs : - 2 ^ 137 < m < 2 ^ 137) by (unfold m, log_sign; destruct (2 ^ 127 <=? p / 2); lia).
  exists m. split_and!; [done|lia|lia|]. rewrite (proj2 (Z.eqb_neq lb 0)) by lia. cbn [negb].
  assert (Hq : - 2 ^ 137 < Z.quot m lb < 2 ^ 137) by (apply quot_small; lia).
  unfold i256_saturating_add. change REAL_ID_SHIFT with (2 ^ 23). change MAX_BIN_ID with (2 ^ 24 - 1).
  rewrite Z.min_l, Z.max_r by lia. destruct (_ <? 0) eqn:E; bools; [f_equal; lia|].
  destruct (_ >? 2 ^ 24 - 1) eqn:E2; bools; f_equal; lia.
Qed.

(** Bins are ordered as prices are. *)
Lemma get_id_mono p q step lb a b :
  2 <= p <= q -> q < 2 ^ 256 -> log2 (get_base step) = Ok lb -> 0 < lb ->
  get_id_from_price p step = Ok a -> get_id_from_price q step = Ok b -> a <= b.
Proof.
  intros Hp Hq Hb Hlb. destruct (get_id_total p step lb) as (m & Em & _ & ->); [lia|done|done|].
  destruct (get_id_total q step lb) as (n & En & _ & ->); [lia|done|done|]. intros [= <-] [= <-].
  pose proof (log2_mono p q m n Hp Hq Em En). pose proof (Z.quot_le_mono m n lb Hlb ltac:(lia)). lia.
Qed.

(** ** Powers *)

(** The square-and-multiply of [pow] without the 256-bit wrap. *)
Fixpoint pow_ref (rounds : nat) (bit y squared result : Z) : Z :=
  match rounds with
  | O => result
  | S rounds =>
      pow_ref rounds (bit + 1) y (squared * squared / 2 ^ 128)
        (if Z.testbit y bit then result * squared / 2 ^ 128 else result)
  end.

Lemma pow_loop_ref rounds bit y squared result :
  0 <= bit -> 0 <= squared < 2 ^ 128 -> 0 <= result <= 2 ^ 128 ->
  pow_loop rounds bit y squared result = pow_ref rounds bit y squared result /\
  0 <= pow_loop rounds bit y squared result <= 2 ^ 128.
Proof.
  revert bit squared result. induction rounds as [|n IH]; intros bit squared result Hb Hs Hr; cbn [pow_loop pow_ref]; [done|].
  cbv zeta. rewrite !wmul_small by nia. rewrite !Z.shiftr_div_pow2 by lia.
  assert (Et : (Z.land (y / 2 ^ bit) 1 =? 1) = Z.testbit y bit).
  { change 1 with (Z.ones 1) at 1. rewrite Z.land_ones by lia. rewrite <- Z.shiftr_div_pow2 by lia.
    change (2 ^ 1) with 2. rewrite <- Z.bit0_mod, Z.shiftr_spec, Z.add_0_l by lia. by destruct (Z.testbit y bit). }
  rewrite Et. apply IH; [lia|split; [apply Z.div_pos; nia|apply Z.div_lt_upper_bound; nia]|].
  destruct (Z.testbit y bit); [split; [apply Z.div_pos; nia|apply Z.div_le_upper_bound; nia]|lia].
Qed.

Lemma pow_total x y :
  0 < x < 2 ^ 256 -> - 2 ^ 20 < y < 2 ^ 20 ->
  (exists r, pow x y = Ok r /\ 0 < r < 2 ^ 256) \/ pow x y = Err (Revert "lb_math: pow underflow").
Proof.
  intros Hx Hy. unfold pow. destruct (y =? 0) eqn:E0; bools; [left; eexists; done|].
  assert (Ey : (if y <? 0 then (true, - y) else (false, y)) = (y <? 0, Z.abs y)) by (destruct (y <? 0) eqn:E; bools; f_equal; lia).
  rewrite Ey. rewrite Z.geb_leb, (proj2 (Z.leb_gt 0x100000 _)) by lia. cbn [negb].
  assert (Hs : exists squared invert, (if x >? 2 ^ 128 - 1 then (MAX_U256 / x, negb (y <? 0)) else (x, y <? 0)) = (squared, invert)
    /\ 0 <= squared < 2 ^ 128).
  { destruct (x >? 2 ^ 128 - 1) eqn:E; bools; do 2 eexists; (split; [done|]); [|lia].
    unfold MAX_U256. split; [apply Z.div_pos; lia|apply Z.div_lt_upper_bound; nia]. }
  destruct Hs as (squared & invert & -> & Hs).
  destruct (pow_loop_ref 20 0 (Z.abs y) squared SCALE_1_128_128) as (_ & Hr); [lia|done|unfold SCALE_1_128_128; lia|].
  set (r := pow_loop _ _ _ _ _) in *. clearbody r. cbv zeta. destruct (r =? 0) eqn:E; bools; cbn [negb]; [by right|].
  left. eexists. split; [done|]. unfold MAX_U256. destruct invert; [|lia].
  split; [apply Z.div_str_pos; lia|apply Z.div_lt_upper_bound; nia].
Qed.

(** ** Fixed-point conversion *)

(** C35. The 512-bit routines are exact. [shift_div_round_down], which divides a
    512-bit product through the modular inverse of the odd part of the
    denominator, is the floor of the quotient for every denominator up to
    [2^255], and [mul_shift_round_down] the floor of the shifted product for any
    factors; both report an overflow exactly when that floor does not fit 256 bits.
    The bound on the denominator is needed: above it the remainder loses a bit, and
    [3 * 2^254 * 2] divided by [2^256 - 1] comes out as 0 instead of 1. *)
Theorem fixed_point_exact x y offset d :
  0 <= x < 2 ^ 256 -> 0 <= y < 2 ^ 256 -> 0 <= offset < 256 -> 0 < d <= 2 ^ 255 ->
  shift_div_round_down x offset d =
    (if x * 2 ^ offset / d <? 2 ^ 256 then Ok (x * 2 ^ offset / d) else Err (Revert "lb_math: mul_div overflow")) /\
  mul_shift_round_down x y offset =
    (if x * y / 2 ^ offset <? 2 ^ 256 then Ok (x * y / 2 ^ offset) else Err (Revert "lb_math: mul_shift overflow")) /\
  (shift_div_round_down (3 * 2 ^ 254) 1 (2 ^ 256 - 1) = Ok 0 /\ 3 * 2 ^ 254 * 2 ^ 1 / (2 ^ 256 - 1) = 1).
Proof. intros Hx Hy Ho Hd. split; [by apply shift_div_spec|]. split; [by apply mul_shift_spec|]. vm_compute. done. Qed.

Lemma fixed_point_exact_witness :
  shift_div_round_down (5 * 10 ^ 17) 128 (10 ^ 18) = Ok (2 ^ 127) /\
  mul_shift_round_down (2 ^ 200) (2 ^ 200) 128 = Err (Revert "lb_math: mul_shift overflow").
Proof.
  split.
  - rewrite (proj1 (fixed_point_exact (5 * 10 ^ 17) 0 128 (10 ^ 18) ltac:(lia) ltac:(lia) ltac:(lia) ltac:(lia))). vm_compute. reflexivity.
  - rewrite (proj1 (proj2 (fixed_point_exact (2 ^ 200) (2 ^ 200) 128 1 ltac:(lia) ltac:(lia) ltac:(lia) ltac:(lia)))). vm_compute. reflexivity.
Defined.

(** A decimal price that fits the fixed-point format survives the conversion to
    128.128 and back up to one unit in the last place, and never grows; one that
    does not fit is refused. *)
Theorem price_round_trip p :
  0 <= p < 2 ^ 256 ->
  if p * 2 ^ 128 / PRECISION <? 2 ^ 256 then
    exists q r, convert_decimal_price_to_128x128 p = Ok q /\ convert_128x128_price_to_decimal q = Ok r /\ p - 1 <= r <= p
  else convert_decimal_price_to_128x128 p = Err (Revert "lb_math: mul_div overflow").
Proof.
  intros Hp. unfold convert_decimal_price_to_128x128, convert_128x128_price_to_decimal.
  rewrite (shift_div_spec p SCALE_OFFSET PRECISION) by (unfold SCALE_OFFSET, PRECISION; lia). change (2 ^ SCALE_OFFSET) with (2 ^ 128).
  destruct (_ <? 2 ^ 256) eqn:E; bools; [|done]. set (q := p * 2 ^ 128 / PRECISION) in *. exists q.
  assert (Hq : 0 <= q) by (apply Z.div_pos; unfold PRECISION; lia).
  pose proof (Z.div_mod (p * 2 ^ 128) PRECISION ltac:(done)) as Hd. pose proof (Z.mod_pos_bound (p * 2 ^ 128) PRECISION ltac:(done)) as Hm.
  fold q in Hd. clearbody q. rewrite (mul_shift_spec q PRECISION SCALE_OFFSET) by (unfold SCALE_OFFSET, PRECISION; lia). change (2 ^ SCALE_OFFSET) with (2 ^ 128).
  assert (Hr : p - 1 <= q * PRECISION / 2 ^ 128 <= p).
  { split; [apply Z.div_le_lower_bound|apply Z.div_le_upper_bound]; unfold PRECISION in *; lia. }
  rewrite (proj2 (Z.ltb_lt _ _)) by lia. by eauto.
Qed.

Lemma price_round_trip_witness :
  exists q r, convert_decimal_price_to_128x128 (3 * 10 ^ 17) = Ok q /\ convert_128x128_price_to_decimal q = Ok r /\ 3 * 10 ^ 17 - 1 <= r <= 3 * 10 ^ 17.
Proof. exact (price_round_trip (3 * 10 ^ 17) ltac:(lia)). Defined.
