(* ===== verification/BinTree.v ===== *)
(** * BinTree: the three-level bitmap trie of bin ids

    [crates/blockchain/primitives/src/math/tree_math.rs]. The trait
    [BinTreeStorage] is a class with the laws of independent words; the traversal
    is written once against it. A well-formed trie represents a finite set of
    24-bit ids ([tree_rep]); [add] and [remove] are insertion and deletion in
    that set, and [find_first_left_inclusive] is its least element from a start
    id on. *)

From S2P Require Import Prelude LbMath.

(** ** Addresses *)

Definition split (id : u32) : u8 * u8 * u8 :=
  let top := Z.land (Z.shiftr id 16) 0xFF in
  let mid := Z.land (Z.shiftr id 8) 0xFF in
  let lo := Z.land id 0xFF in
  (top, mid, lo).

Definition leaf_key (top mid : u8) : u32 := Z.lor (Z.shiftl top 8) mid.
Definition mid_key (top : u8) : u32 := top.
Definition assemble (top mid lo : u8) : u32 := Z.lor (Z.lor (Z.shiftl top 16) (Z.shiftl mid 8)) lo.

(** ** Storage *)

Class BinTreeStorage (S : Type) := {
  read_root : S -> U256;
  write_root : S -> U256 -> S;
  read_mid : S -> u32 -> U256;
  write_mid : S -> u32 -> U256 -> S;
  read_leaf : S -> u32 -> U256;
  write_leaf : S -> u32 -> U256 -> S
}.

(** Every word is independent of the others. *)
Class BinTreeLaws (S : Type) `{BinTreeStorage S} := {
  root_write_root (s : S) v : read_root (write_root s v) = v;
  mid_write_root (s : S) v k : read_mid (write_root s v) k = read_mid s k;
  leaf_write_root (s : S) v k : read_leaf (write_root s v) k = read_leaf s k;
  root_write_mid (s : S) k v : read_root (write_mid s k v) = read_root s;
  mid_write_mid (s : S) k v j : read_mid (write_mid s k v) j = if decide (k = j) then v else read_mid s j;
  leaf_write_mid (s : S) k v j : read_leaf (write_mid s k v) j = read_leaf s j;
  root_write_leaf (s : S) k v : read_root (write_leaf s k v) = read_root s;
  mid_write_leaf (s : S) k v j : read_mid (write_leaf s k v) j = read_mid s j;
  leaf_write_leaf (s : S) k v j : read_leaf (write_leaf s k v) j = if decide (k = j) then v else read_leaf s j
}.

(** [!x] on a 256-bit word. *)
Definition not256 (x : U256) : U256 := 2 ^ 256 - 1 - x.

Section Tree.
Context {S : Type} `{BinTreeLaws S}.
Implicit Types s : S.

Definition contains (s : S) (id : u32) : bool :=
  let '(top, mid, lo) := split id in
  let leaf := read_leaf s (leaf_key top mid) in
  negb (Z.land leaf (shl256 1 lo) =? 0).

Definition add (s : S) (id : u32) : S * bool :=
  let '(top, mid, lo) := split id in
  let leaf_k := leaf_key top mid in
  let leaves := read_leaf s leaf_k in
  let new_leaves := Z.lor leaves (shl256 1 lo) in
  if leaves =? new_leaves then (s, false) else
  let s := write_leaf s leaf_k new_leaves in
  let s :=
    if leaves =? 0 then
      let mid_k := mid_key top in
      let mid_word := read_mid s mid_k in
      let new_mid := Z.lor mid_word (shl256 1 mid) in
      let s := write_mid s mid_k new_mid in
      if mid_word =? 0 then
        let root := read_root s in
        let new_root := Z.lor root (shl256 1 top) in
        write_root s new_root
      else s
    else s in
  (s, true).

Definition remove (s : S) (id : u32) : S * bool :=
  let '(top, mid, lo) := split id in
  let leaf_k := leaf_key top mid in
  let leaves := read_leaf s leaf_k in
  let new_leaves := Z.land leaves (not256 (shl256 1 lo)) in
  if leaves =? new_leaves then (s, false) else
  let s := write_leaf s leaf_k new_leaves in
  if negb (new_leaves =? 0) then (s, true) else
  let mid_k := mid_key top in
  let mid_word := read_mid s mid_k in
  let new_mid := Z.land mid_word (not256 (shl256 1 mid)) in
  let s := write_mid s mid_k new_mid in
  if negb (new_mid =? 0) then (s, true) else
  let root := read_root s in
  let new_root := Z.land root (not256 (shl256 1 top)) in
  (write_root s new_root, true).

Definition find_first_left_inclusive (s : S) (start_id : u32) : option u32 :=
  if start_id >? MAX_BIN_ID then None else
  let '(top0, mid0, lo0) := split start_id in
  let leaf := read_leaf s (leaf_key top0 mid0) in
  let leaf_masked := mask_from leaf lo0 in
  if negb (leaf_masked =? 0) then Some (assemble top0 mid0 (least_significant_bit leaf_masked)) else
  let mid_word := read_mid s (mid_key top0) in
  let mid_threshold := saturating_add 8 mid0 1 in
  let mid_masked := mask_from mid_word mid_threshold in
  if negb (mid0 =? 255) && negb (mid_masked =? 0) then
    let mid_bit := least_significant_bit mid_masked in
    let leaf2 := read_leaf s (leaf_key top0 mid_bit) in
    Some (assemble top0 mid_bit (least_significant_bit leaf2))
  else
  if top0 =? 255 then None else
  let top_threshold := saturating_add 8 top0 1 in
  let root := read_root s in
  let root_masked := mask_from root top_threshold in
  if root_masked =? 0 then None else
  let top_bit := least_significant_bit root_masked in
  let mid2 := read_mid s (mid_key top_bit) in
  let mid_bit := least_significant_bit mid2 in
  let leaf3 := read_leaf s (leaf_key top_bit mid_bit) in
  Some (assemble top_bit mid_bit (least_significant_bit leaf3)).
End Tree.

(** ** Words as bit sets *)

Definition word (x : Z) : Prop := 0 <= x < 2 ^ 256.
Definition byte (x : Z) : Prop := 0 <= x < 256.

Lemma shl_bit b : byte b -> shl256 1 b = 2 ^ b /\ word (2 ^ b).
Proof.
  intros Hb. unfold byte in Hb. assert (Hp : 0 < 2 ^ b < 2 ^ 256) by (split; [lia|apply Z.pow_lt_mono_r; lia]).
  unfold shl256. rewrite Z.shiftl_1_l, Z.mod_small by lia. unfold word. lia.
Qed.

Lemma word_bits x : 0 <= x -> (forall j, 256 <= j -> Z.testbit x j = false) -> word x.
Proof.
  intros Hx Hh. split; [done|]. destruct (decide (x < 2 ^ 256)) as [|Hge]; [done|].
  exfalso. assert (256 <= Z.log2 x) by (apply Z.log2_le_pow2; lia).
  specialize (Hh (Z.log2 x) ltac:(lia)). rewrite Z.bit_log2 in Hh by lia. discriminate.
Qed.

Lemma set_bit_spec w b :
  word w -> byte b ->
  word (Z.lor w (shl256 1 b)) /\ Z.lor w (shl256 1 b) <> 0 /\
  (forall j, 0 <= j -> Z.testbit (Z.lor w (shl256 1 b)) j = (j =? b) || Z.testbit w j) /\
  (w =? Z.lor w (shl256 1 b)) = Z.testbit w b.
Proof.
  intros Hw Hb. destruct (shl_bit b Hb) as (-> & Hp). unfold byte in Hb.
  assert (Hbits : forall j, 0 <= j -> Z.testbit (Z.lor w (2 ^ b)) j = (j =? b) || Z.testbit w j).
  { intros j Hj. rewrite Z.lor_spec, Z.pow2_bits_eqb by lia. rewrite orb_comm, (Z.eqb_sym b j). done. }
  split_and!.
  - apply word_bits; [apply Z.lor_nonneg; unfold word in *; lia|]. intros j Hj. rewrite Hbits by lia.
    rewrite (testbit_range w 256) by (unfold word in *; lia). rewrite (proj2 (Z.eqb_neq j b)) by lia. done.
  - intros Hz. specialize (Hbits b ltac:(lia)). rewrite Hz, Z.testbit_0_l, Z.eqb_refl in Hbits. discriminate.
  - done.
  - destruct (Z.eqb_spec w (Z.lor w (2 ^ b))) as [E|E].
    + rewrite E, Hbits, Z.eqb_refl by lia. done.
    + destruct (Z.testbit w b) eqn:Eb; [|done]. exfalso. apply E. apply Z.bits_inj'. intros j Hj.
      rewrite Hbits by lia. destruct (Z.eqb_spec j b) as [->|]; [by rewrite Eb|done].
Qed.

Lemma clear_bit_spec w b :
  word w -> byte b ->
  word (Z.land w (not256 (shl256 1 b))) /\
  (forall j, 0 <= j -> Z.testbit (Z.land w (not256 (shl256 1 b))) j = negb (j =? b) && Z.testbit w j) /\
  (w =? Z.land w (not256 (shl256 1 b))) = negb (Z.testbit w b).
Proof.
  intros Hw Hb. destruct (shl_bit b Hb) as (-> & Hp). unfold byte in Hb.
  assert (En : not256 (2 ^ b) = Z.ldiff (Z.ones 256) (2 ^ b)).
  { unfold not256. change (2 ^ 256 - 1) with (Z.ones 256). apply Z.sub_nocarry_ldiff. apply Z.bits_inj'. intros j Hj.
    rewrite Z.ldiff_spec, Z.testbit_0_l, Z.pow2_bits_eqb by lia. destruct (Z.eqb_spec b j) as [->|]; [|done].
    rewrite Z.ones_spec_low by lia. done. }
  assert (Hbits : forall j, 0 <= j -> Z.testbit (Z.land w (not256 (2 ^ b))) j = negb (j =? b) && Z.testbit w j).
  { intros j Hj. rewrite Z.land_spec, En, Z.ldiff_spec, Z.pow2_bits_eqb, (Z.eqb_sym b j) by lia.
    destruct (decide (j < 256)).
    - rewrite Z.ones_spec_low by lia. cbn [andb]. apply andb_comm.
    - rewrite (testbit_range w 256) by (unfold word in *; lia). by rewrite andb_false_r. }
  split_and!.
  - apply word_bits; [apply Z.land_nonneg; unfold word in *; lia|]. intros j Hj. rewrite Hbits by lia.
    rewrite (testbit_range w 256) by (unfold word in *; lia). apply andb_false_r.
  - done.
  - destruct (Z.eqb_spec w (Z.land w (not256 (2 ^ b)))) as [E|E].
    + rewrite E, Hbits, Z.eqb_refl by lia. done.
    + destruct (Z.testbit w b) eqn:Eb; [done|]. exfalso. apply E. apply Z.bits_inj'. intros j Hj.
      rewrite Hbits by lia. destruct (Z.eqb_spec j b) as [->|]; [by rewrite Eb|done].
Qed.

Lemma word_zero w : word w -> w <> 0 <-> exists b, byte b /\ Z.testbit w b = true.
Proof.
  intros Hw. split.
  - intros Hn. destruct (testbit_exists w) as (b & Hb & Hbit); [unfold word in *; lia|]. exists b. split; [|done].
    destruct (decide (b < 256)); [by split|]. rewrite (testbit_range w 256) in Hbit by (unfold word in *; lia). discriminate.
  - intros (b & _ & Hbit) ->. rewrite Z.testbit_0_l in Hbit. discriminate.
Qed.

(** The mark of a word below that became zero, or did not. *)
Lemma cleared_mark w b v :
  word w -> byte b -> (v =? 0) = true ->
  forall j, byte j -> Z.testbit (Z.land w (not256 (shl256 1 b))) j = if decide (j = b) then negb (v =? 0) else Z.testbit w j.
Proof.
  intros Hw Hb Ev j Hj. destruct (clear_bit_spec w b Hw Hb) as (_ & B & _). rewrite B, Ev by (unfold byte in *; lia).
  case_decide as Ej; [by rewrite Ej, Z.eqb_refl|]. by rewrite (proj2 (Z.eqb_neq j b)).
Qed.

Lemma kept_mark w b v :
  Z.testbit w b = true -> (v =? 0) = false ->
  forall j, byte j -> Z.testbit w j = if decide (j = b) then negb (v =? 0) else Z.testbit w j.
Proof. intros Hb Ev j Hj. rewrite Ev. case_decide as Ej; [by rewrite Ej|done]. Qed.

(** ** Addresses as digits *)

Lemma split_spec id : 0 <= id < 2 ^ 24 -> split id = (id / 65536, (id / 256) mod 256, id mod 256).
Proof.
  intros Hid. unfold split. change 0xFF with (Z.ones 8). rewrite !Z.land_ones, !Z.shiftr_div_pow2 by lia.
  change (2 ^ 8) with 256. change (2 ^ 16) with 65536. rewrite (Z.mod_small (id / 65536)); [done|].
  split; [apply Z.div_pos; lia|apply Z.div_lt_upper_bound; lia].
Qed.

Lemma leaf_key_spec t m : byte m -> leaf_key t m = t * 256 + m.
Proof.
  intros Hm. unfold leaf_key. rewrite Z.shiftl_mul_pow2 by lia. rewrite Z.lor_comm.
  rewrite (lor_disjoint m t 8) by (unfold byte in *; lia). lia.
Qed.

Lemma assemble_spec t m l : byte m -> byte l -> assemble t m l = t * 65536 + m * 256 + l.
Proof.
  intros Hm Hl. unfold assemble. unfold byte in *. rewrite !Z.shiftl_mul_pow2 by lia.
  rewrite (Z.lor_comm (t * 2 ^ 16)).
  assert (E1 : Z.lor (m * 2 ^ 8) (t * 2 ^ 16) = m * 2 ^ 8 + t * 2 ^ 16) by (apply (lor_disjoint (m * 2 ^ 8) t 16); lia).
  rewrite E1, Z.lor_comm. replace (m * 2 ^ 8 + t * 2 ^ 16) with ((m + t * 256) * 2 ^ 8) by lia.
  rewrite lor_disjoint by lia. lia.
Qed.

(** ** The trie invariant *)

Section Invariant.
Context {S : Type} `{BinTreeLaws S}.
Implicit Types s : S.

(** A mark of a word says that the word below is not zero. *)
Record tree_ok (s : S) : Prop := {
  ok_root : word (read_root s);
  ok_mid : forall t, byte t -> word (read_mid s t);
  ok_leaf : forall t m, byte t -> byte m -> word (read_leaf s (t * 256 + m));
  mid_marks : forall t m, byte t -> byte m ->
    Z.testbit (read_mid s t) m = negb (read_leaf s (t * 256 + m) =? 0);
  root_marks : forall t, byte t -> Z.testbit (read_root s) t = negb (read_mid s t =? 0)
}.

Definition bin (id : Z) : Prop := 0 <= id < 2 ^ 24.

Definition bit (s : S) (t m l : Z) : bool := Z.testbit (read_leaf s (t * 256 + m)) l.

Lemma bin_digits id :
  bin id -> byte (id / 65536) /\ byte ((id / 256) mod 256) /\ byte (id mod 256) /\
  id = id / 65536 * 65536 + (id / 256) mod 256 * 256 + id mod 256.
Proof. unfold bin, byte. intros Hid. Z.to_euclidean_division_equations; lia. Qed.

Lemma contains_bit s id :
  bin id -> contains s id = bit s (id / 65536) ((id / 256) mod 256) (id mod 256).
Proof.
  intros Hid. destruct (bin_digits id Hid) as (Ht & Hm & Hl & _). unfold contains. rewrite split_spec by done.
  rewrite leaf_key_spec, testbit_mask by done. done.
Qed.

Lemma digits_eq id id' :
  bin id -> bin id' ->
  (id' =? id) = (id' / 65536 =? id / 65536) && ((id' / 256) mod 256 =? (id / 256) mod 256) && (id' mod 256 =? id mod 256).
Proof.
  intros H1 H2. destruct (bin_digits id H1) as (_ & _ & _ & E1). destruct (bin_digits id' H2) as (_ & _ & _ & E2).
  destruct (Z.eqb_spec id' id) as [->|Hne]; [by rewrite !Z.eqb_refl|]. symmetry. apply not_true_is_false. intros Hc. bools. apply Hne. lia.
Qed.

(** The words after a leaf is set to a non-zero value and the marks above it follow. *)
Lemma mark_leaf_ok s t m v :
  tree_ok s -> byte t -> byte m -> word v -> v <> 0 ->
  let s1 := write_leaf s (t * 256 + m) v in
  let s2 := write_mid s1 t (Z.lor (read_mid s t) (shl256 1 m)) in
  let s3 := write_root s2 (Z.lor (read_root s) (shl256 1 t)) in
  tree_ok s3.
Proof.
  intros [Hr Hm Hl Hmm Hrm] Ht Hb Hv Hnz s1 s2 s3.
  destruct (set_bit_spec (read_mid s t) m (Hm t Ht) Hb) as (W1 & N1 & B1 & _).
  destruct (set_bit_spec (read_root s) t Hr Ht) as (W2 & N2 & B2 & _).
  unfold s3, s2, s1. split.
  - by rewrite root_write_root.
  - intros t' Ht'. rewrite mid_write_root, mid_write_mid, mid_write_leaf. case_decide; [done|by apply Hm].
  - intros t' m' Ht' Hm'. rewrite leaf_write_root, leaf_write_mid, leaf_write_leaf. case_decide; [done|by apply Hl].
  - intros t' m' Ht' Hm'. rewrite mid_write_root, mid_write_mid, mid_write_leaf, leaf_write_root, leaf_write_mid, leaf_write_leaf.
    unfold byte in *. destruct (decide (t = t')) as [<-|Hne].
    + rewrite B1 by lia. destruct (Z.eqb_spec m' m) as [->|Hne2]; cbn [orb].
      * rewrite decide_True by lia. symmetry. by apply negb_true_iff, Z.eqb_neq.
      * rewrite decide_False by lia. by apply Hmm.
    + rewrite decide_False by lia. by apply Hmm.
  - intros t' Ht'. rewrite root_write_root, mid_write_root, mid_write_mid, mid_write_leaf. unfold byte in *. rewrite B2 by lia.
    destruct (Z.eqb_spec t' t) as [->|Hne]; cbn [orb].
    + rewrite decide_True by done. symmetry. by apply negb_true_iff, Z.eqb_neq.
    + rewrite decide_False by lia. by apply Hrm.
Qed.

(** The invariant only looks at the words. *)
Lemma tree_ok_ext s s' :
  tree_ok s -> read_root s' = read_root s -> (forall k, read_mid s' k = read_mid s k) ->
  (forall k, read_leaf s' k = read_leaf s k) -> tree_ok s'.
Proof.
  intros [Hr Hm Hl Hmm Hrm] Er Em El. split; [by rewrite Er|..].
  - intros. rewrite Em. auto.
  - intros. rewrite El. auto.
  - intros. rewrite Em, El. auto.
  - intros. rewrite Er, Em. auto.
Qed.

Lemma lor_marked w b : word w -> byte b -> Z.testbit w b = true -> Z.lor w (shl256 1 b) = w.
Proof. intros Hw Hb Hbit. destruct (set_bit_spec w b Hw Hb) as (_ & _ & _ & E). rewrite Hbit in E. symmetry. by apply Z.eqb_eq. Qed.

(** The key of the leaf an id lives in. *)
Definition leaf_of (id : Z) : Z := id / 65536 * 256 + (id / 256) mod 256.

Lemma contains_leaf_update s s' id v (g : bool -> bool -> bool) :
  bin id -> (forall b, g false b = b) ->
  (forall k, read_leaf s' k = if decide (leaf_of id = k) then v else read_leaf s k) ->
  (forall j, 0 <= j -> Z.testbit v j = g (j =? id mod 256) (Z.testbit (read_leaf s (leaf_of id)) j)) ->
  forall id', bin id' -> contains s' id' = g (id' =? id) (contains s id').
Proof.
  intros Hid Hg Wl B id' Hid'. rewrite !contains_bit, digits_eq by done. unfold bit. rewrite Wl.
  destruct (bin_digits id Hid) as (Ht & Hm & Hl & _). destruct (bin_digits id' Hid') as (Ht' & Hm' & Hl' & _).
  unfold leaf_of, byte in *. case_decide as Ek.
  - rewrite B by lia. rewrite (proj2 (Z.eqb_eq (id' / 65536) (id / 65536))), (proj2 (Z.eqb_eq ((id' / 256) mod 256) ((id / 256) mod 256))) by lia.
    rewrite <- Ek. done.
  - destruct (Z.eqb_spec (id' / 65536) (id / 65536)), (Z.eqb_spec ((id' / 256) mod 256) ((id / 256) mod 256)); cbn [andb]; rewrite ?Hg; try done. lia.
Qed.

Lemma add_spec s id :
  tree_ok s -> bin id ->
  exists s', add s id = (s', negb (contains s id)) /\ tree_ok s' /\
    forall id', bin id' -> contains s' id' = (id' =? id) || contains s id'.
Proof.
  intros Hok Hid. destruct (bin_digits id Hid) as (Ht & Hm & Hl & _).
  rewrite contains_bit by done. unfold add. rewrite split_spec by done. rewrite leaf_key_spec by done. unfold mid_key.
  set (t := id / 65536) in *. set (m := (id / 256) mod 256) in *. set (l := id mod 256) in *.
  destruct (set_bit_spec (read_leaf s (t * 256 + m)) l) as (W & N & B & E); [by apply ok_leaf|done|].
  rewrite E. unfold bit. destruct (Z.testbit (read_leaf s (t * 256 + m)) l) eqn:Eb; cbn [negb].
  { exists s. split_and!; [done|done|]. intros id' Hid'. destruct (Z.eqb_spec id' id) as [->|]; [|done].
    rewrite contains_bit by done. exact Eb. }
  set (v := Z.lor (read_leaf s (t * 256 + m)) (shl256 1 l)) in *. eexists. split; [reflexivity|].
  pose proof (mark_leaf_ok s t m v Hok Ht Hm W N) as Hok'. cbv zeta in Hok'.
  set (s' := if read_leaf s (t * 256 + m) =? 0 then _ else _).
  assert (Hw : read_root s' = Z.lor (read_root s) (shl256 1 t) /\
    (forall k, read_mid s' k = if decide (t = k) then Z.lor (read_mid s t) (shl256 1 m) else read_mid s k) /\
    (forall k, read_leaf s' k = if decide (t * 256 + m = k) then v else read_leaf s k)).
  { pose proof (mid_marks s Hok t m Ht Hm) as Hmm. pose proof (root_marks s Hok t Ht) as Hrm.
    pose proof (lor_marked _ _ (ok_mid s Hok t Ht) Hm) as Lm. pose proof (lor_marked _ _ (ok_root s Hok) Ht) as Lr.
    unfold s'. rewrite mid_write_leaf. destruct (read_leaf s (t * 256 + m) =? 0) eqn:E0; cbn [negb] in *.
    - destruct (read_mid s t =? 0) eqn:E1; cbn [negb] in *.
      + split_and!; intros; rewrite ?root_write_root, ?root_write_mid, ?root_write_leaf, ?mid_write_root, ?mid_write_mid, ?mid_write_leaf,
          ?leaf_write_root, ?leaf_write_mid, ?leaf_write_leaf; done.
      + split_and!; intros; rewrite ?root_write_mid, ?root_write_leaf, ?mid_write_mid, ?mid_write_leaf, ?leaf_write_mid, ?leaf_write_leaf;
          [symmetry; by apply Lr|done|done].
    - assert (Hnz : (read_mid s t =? 0) = false).
      { apply Z.eqb_neq. intros Hz. rewrite Hz, Z.testbit_0_l in Hmm. discriminate. }
      rewrite Hnz in Hrm. split_and!; intros; rewrite ?root_write_leaf, ?mid_write_leaf, ?leaf_write_leaf; [symmetry; by apply Lr| |done].
      case_decide; [subst; symmetry; by apply Lm|done]. }
  destruct Hw as (Wr & Wm & Wl). split.
  - eapply tree_ok_ext; [exact Hok'|..].
    + by rewrite root_write_root.
    + intros k. rewrite mid_write_root, mid_write_mid, mid_write_leaf. apply Wm.
    + intros k. rewrite leaf_write_root, leaf_write_mid, leaf_write_leaf. apply Wl.
  - apply (contains_leaf_update s s' id v orb); [done|done|exact Wl|exact B].
Qed.

(** The words after a leaf is overwritten and the marks above it are cleared
    where the word below became zero. *)
Lemma unmark_leaf_ok s t m v nm nr :
  tree_ok s -> byte t -> byte m -> word v -> word nm -> word nr ->
  (forall j, byte j -> Z.testbit nm j = if decide (j = m) then negb (v =? 0) else Z.testbit (read_mid s t) j) ->
  (forall j, byte j -> Z.testbit nr j = if decide (j = t) then negb (nm =? 0) else Z.testbit (read_root s) j) ->
  forall s', read_root s' = nr ->
  (forall k, read_mid s' k = if decide (t = k) then nm else read_mid s k) ->
  (forall k, read_leaf s' k = if decide (t * 256 + m = k) then v else read_leaf s k) -> tree_ok s'.
Proof.
  intros [Hr Hm Hl Hmm Hrm] Ht Hb Hv Hnm Hnr Bm Br s' Wr Wm Wl. split.
  - by rewrite Wr.
  - intros t' Ht'. rewrite Wm. case_decide; [done|by apply Hm].
  - intros t' m' Ht' Hm'. rewrite Wl. case_decide; [done|by apply Hl].
  - intros t' m' Ht' Hm'. rewrite Wm, Wl. unfold byte in *. destruct (decide (t = t')) as [<-|Hne].
    + rewrite Bm by lia. destruct (decide (m' = m)) as [->|]; [by rewrite decide_True|].
      rewrite decide_False by lia. by apply Hmm.
    + rewrite decide_False by lia. by apply Hmm.
  - intros t' Ht'. rewrite Wr, Wm, Br by done. destruct (decide (t' = t)) as [->|]; [by rewrite decide_True|].
    rewrite decide_False by congruence. by apply Hrm.
Qed.

Lemma remove_spec s id :
  tree_ok s -> bin id ->
  exists s', remove s id = (s', contains s id) /\ tree_ok s' /\
    forall id', bin id' -> contains s' id' = negb (id' =? id) && contains s id'.
Proof.
  intros Hok Hid. destruct (bin_digits id Hid) as (Ht & Hm & Hl & _).
  rewrite (contains_bit s id) by done. unfold remove. rewrite split_spec by done. rewrite leaf_key_spec by done. unfold mid_key.
  set (t := id / 65536) in *. set (m := (id / 256) mod 256) in *. set (l := id mod 256) in *.
  destruct (clear_bit_spec (read_leaf s (t * 256 + m)) l) as (W & B & E); [by apply ok_leaf|done|].
  rewrite E. unfold bit. destruct (Z.testbit (read_leaf s (t * 256 + m)) l) eqn:Eb; cbn [negb].
  2: { exists s. split_and!; [done|done|]. intros id' Hid'. destruct (Z.eqb_spec id' id) as [->|]; [|done].
       rewrite contains_bit by done. exact Eb. }
  set (v := Z.land (read_leaf s (t * 256 + m)) _) in *.
  destruct (clear_bit_spec (read_mid s t) m (ok_mid s Hok t Ht) Hm) as (Wm & _).
  destruct (clear_bit_spec (read_root s) t (ok_root s Hok) Ht) as (Wr & _).
  pose proof (mid_marks s Hok t m Ht Hm) as Hmm. pose proof (root_marks s Hok t Ht) as Hrm.
  assert (Hlnz : (read_leaf s (t * 256 + m) =? 0) = false) by (apply Z.eqb_neq; intros Hz; rewrite Hz, Z.testbit_0_l in Eb; discriminate).
  rewrite Hlnz in Hmm. cbn [negb] in Hmm.
  assert (Hmnz : (read_mid s t =? 0) = false) by (apply Z.eqb_neq; intros Hz; rewrite Hz, Z.testbit_0_l in Hmm; discriminate).
  rewrite Hmnz in Hrm. cbn [negb] in Hrm. rewrite mid_write_leaf.
  assert (Hin : forall s', (forall k, read_leaf s' k = if decide (t * 256 + m = k) then v else read_leaf s k) ->
    forall id', bin id' -> contains s' id' = negb (id' =? id) && contains s id').
  { intros s' Wl. apply (contains_leaf_update s s' id v (fun a b => negb a && b)); [done|done|exact Wl|exact B]. }
  destruct (v =? 0) eqn:Ev; cbn [negb]; [set (nm := Z.land (read_mid s t) _) in *; destruct (nm =? 0) eqn:Enm; cbn [negb]|];
    (eexists; split; [reflexivity|]); (split; [|apply Hin]).
  all: try (intros k; rewrite ?leaf_write_root, ?leaf_write_mid, ?leaf_write_leaf; done).
  - apply (unmark_leaf_ok s t m v nm (Z.land (read_root s) (not256 (shl256 1 t)))); try done.
    + apply cleared_mark; [by apply ok_mid|done|done].
    + apply cleared_mark; [apply ok_root, Hok|done|done].
    + by rewrite root_write_root, root_write_mid, root_write_leaf.
    + intros k. by rewrite mid_write_root, mid_write_mid, mid_write_leaf.
    + intros k. by rewrite leaf_write_root, leaf_write_mid, leaf_write_leaf.
  - apply (unmark_leaf_ok s t m v nm (read_root s)); try done; [apply ok_root, Hok| | | | |].
    + apply cleared_mark; [by apply ok_mid|done|done].
    + by apply kept_mark.
    + by rewrite root_write_mid, root_write_leaf.
    + intros k. by rewrite mid_write_mid, mid_write_leaf.
    + intros k. by rewrite leaf_write_mid, leaf_write_leaf.
  - apply (unmark_leaf_ok s t m v (read_mid s t) (read_root s)); try done; [by apply ok_mid|apply ok_root, Hok| | | | |].
    + by apply kept_mark.
    + by apply kept_mark.
    + by rewrite root_write_leaf.
    + intros k. rewrite mid_write_leaf. case_decide; [by subst|done].
    + intros k. by rewrite leaf_write_leaf.
Qed.

(** ** The scan *)

(** [r] is the least id from [start] on that satisfies [P]. *)
Definition least_from (P : Z -> bool) (start : Z) (r : option Z) : Prop :=
  match r with
  | Some b => start <= b /\ bin b /\ P b = true /\ forall j, start <= j < b -> P j = false
  | None => forall j, start <= j -> bin j -> P j = false
  end.

Lemma scan_spec w b :
  word w -> byte b ->
  if mask_from w b =? 0 then forall j, b <= j < 256 -> Z.testbit w j = false
  else let k := least_significant_bit (mask_from w b) in
    byte k /\ b <= k /\ Z.testbit w k = true /\ forall j, b <= j < k -> Z.testbit w j = false.
Proof.
  intros Hw Hb. unfold word, byte in *. pose proof (mask_from_range w b Hw Hb) as Hr.
  assert (Hbits : forall j, 0 <= j -> Z.testbit (mask_from w b) j = Z.testbit w j && (b <=? j)) by (intros; apply mask_from_spec; lia).
  destruct (mask_from w b =? 0) eqn:E; bools.
  - intros j Hj. specialize (Hbits j ltac:(lia)). rewrite E, Z.testbit_0_l, (proj2 (Z.leb_le b j)), andb_true_r in Hbits by lia. done.
  - destruct (least_significant_bit_spec (mask_from w b)) as ((H1 & H2 & H3) & H4); [lia|]. cbv zeta.
    set (k := least_significant_bit (mask_from w b)) in *. rewrite Hbits in H2 by lia. apply andb_prop in H2 as [H2 Hbk].
    apply Z.leb_le in Hbk. split_and!; [lia|lia|lia|done|]. intros j Hj. specialize (H3 j ltac:(lia)). rewrite Hbits in H3 by lia.
    rewrite (proj2 (Z.leb_le b j)), andb_true_r in H3 by lia. done.
Qed.

Lemma first_bit w :
  word w -> w <> 0 ->
  let k := least_significant_bit w in byte k /\ Z.testbit w k = true /\ forall j, 0 <= j < k -> Z.testbit w j = false.
Proof.
  intros Hw Hn. destruct (least_significant_bit_spec w) as ((H1 & H2 & H3) & H4); [unfold word in *; lia|]. by split_and!.
Qed.

Lemma unmarked_mid s t m l :
  tree_ok s -> byte t -> byte m -> Z.testbit (read_mid s t) m = false -> bit s t m l = false.
Proof.
  intros Hok Ht Hm Hz. rewrite mid_marks in Hz by done. apply negb_false_iff, Z.eqb_eq in Hz. unfold bit. by rewrite Hz, Z.testbit_0_l.
Qed.

Lemma unmarked_root s t m l :
  tree_ok s -> byte t -> byte m -> Z.testbit (read_root s) t = false -> bit s t m l = false.
Proof.
  intros Hok Ht Hm Hz. rewrite root_marks in Hz by done. apply negb_false_iff, Z.eqb_eq in Hz.
  apply unmarked_mid; [done..|]. by rewrite Hz, Z.testbit_0_l.
Qed.

Lemma contains_digits s t m l :
  byte t -> byte m -> byte l -> bin (t * 65536 + m * 256 + l) /\ contains s (t * 65536 + m * 256 + l) = bit s t m l.
Proof.
  unfold byte. intros Ht Hm Hl. assert (Hb : bin (t * 65536 + m * 256 + l)) by (unfold bin; lia). split; [done|].
  rewrite contains_bit by done. f_equal; Z.to_euclidean_division_equations; lia.
Qed.

(** The scan from [start], in the subtree of its top byte [t] and its leaf [(t, m)]. *)
Section Scan.
Variables (s : S) (start t m l : Z).
Hypotheses (Hok : tree_ok s) (Ht : byte t) (Hm : byte m) (Hl : byte l)
  (Estart : start = t * 65536 + m * 256 + l).

Definition none_in_leaf : Prop :=
  forall j, start <= j -> bin j -> j / 65536 = t -> (j / 256) mod 256 = m -> contains s j = false.
Definition none_in_top : Prop :=
  forall j, start <= j -> bin j -> j / 65536 = t -> contains s j = false.

Lemma scan_leaf :
  let x := mask_from (read_leaf s (t * 256 + m)) l in
  if x =? 0 then none_in_leaf else least_from (contains s) start (Some (assemble t m (least_significant_bit x))).
Proof.
  cbv zeta. pose proof (scan_spec (read_leaf s (t * 256 + m)) l (ok_leaf s Hok t m Ht Hm) Hl) as Hscan.
  destruct (mask_from (read_leaf s (t * 256 + m)) l =? 0).
  - intros j Hj Hbj Et Em. destruct (bin_digits j Hbj) as (_ & _ & Hlj & Ej). rewrite contains_bit, Et, Em by done.
    apply Hscan. unfold byte in *. lia.
  - cbv zeta in Hscan. destruct Hscan as (Hk & Hle & Hbit & Hlow). rewrite assemble_spec by done.
    destruct (contains_digits s t m _ Ht Hm Hk) as (Hbin & Hc). split_and!; [unfold byte in *; lia|done|by rewrite Hc|].
    intros j Hj. destruct (contains_digits s t m (l + (j - start)) Ht Hm) as (_ & Hc'); [unfold byte in *; lia|].
    replace j with (t * 65536 + m * 256 + (l + (j - start))) by lia. rewrite Hc'. apply Hlow. lia.
Qed.

Lemma scan_mid :
  none_in_leaf ->
  let x := mask_from (read_mid s t) (saturating_add 8 m 1) in
  let k := least_significant_bit x in
  if negb (m =? 255) && negb (x =? 0)
  then least_from (contains s) start (Some (assemble t k (least_significant_bit (read_leaf s (leaf_key t k)))))
  else none_in_top.
Proof.
  intros Hleaf. cbv zeta.
  assert (Hnone : (forall j, m < j < 256 -> Z.testbit (read_mid s t) j = false) -> none_in_top).
  { intros Hmid j Hj Hbj Et. destruct (bin_digits j Hbj) as (Htj & Hmj & Hlj & Ej).
    destruct (decide ((j / 256) mod 256 = m)) as [Em|]; [by apply Hleaf|]. rewrite contains_bit, Et by done.
    apply unmarked_mid; [done..|]. apply Hmid. unfold byte in *. lia. }
  destruct (m =? 255) eqn:E; bools; cbn [negb andb]; [apply Hnone; intros; lia|].
  assert (Hsat : saturating_add 8 m 1 = m + 1) by (unfold saturating_add, byte in *; lia). rewrite Hsat.
  pose proof (scan_spec (read_mid s t) (m + 1) (ok_mid s Hok t Ht) ltac:(unfold byte in *; lia)) as Hsc.
  destruct (mask_from (read_mid s t) (m + 1) =? 0); cbn [negb]; [apply Hnone; intros; apply Hsc; lia|].
  cbv zeta in Hsc. destruct Hsc as (Hk & Hlt & Hmark & Hlow). set (k := least_significant_bit _) in *. clearbody k.
  rewrite leaf_key_spec by done. pose proof Hmark as Hnz. rewrite mid_marks in Hnz by done. apply negb_true_iff, Z.eqb_neq in Hnz.
  destruct (first_bit _ (ok_leaf s Hok t k Ht Hk) Hnz) as (Hf & Hbit & Hfl). set (f := least_significant_bit _) in *. clearbody f.
  rewrite assemble_spec by done. destruct (contains_digits s t k f Ht Hk Hf) as (Hbin & Hc).
  split_and!; [unfold byte in *; lia|done|by rewrite Hc|]. intros j Hj. assert (Hbj : bin j) by (unfold bin, byte in *; lia).
  destruct (bin_digits j Hbj) as (Htj & Hmj & Hlj & Ej). assert (Et : j / 65536 = t) by (unfold byte in *; lia).
  destruct (decide ((j / 256) mod 256 = m)) as [Em|]; [apply Hleaf; [lia|done..]|]. rewrite contains_bit, Et by done.
  destruct (decide ((j / 256) mod 256 = k)) as [Ek|]; [rewrite Ek; apply Hfl; unfold byte in *; lia|].
  apply unmarked_mid; [done..|]. apply Hlow. unfold byte in *. lia.
Qed.

Lemma scan_root :
  none_in_top -> t <> 255 ->
  let x := mask_from (read_root s) (saturating_add 8 t 1) in
  let k := least_significant_bit x in
  let f := least_significant_bit (read_mid s k) in
  least_from (contains s) start
    (if x =? 0 then None else Some (assemble k f (least_significant_bit (read_leaf s (leaf_key k f))))).
Proof.
  intros Htop Hne. cbv zeta.
  assert (Hsat : saturating_add 8 t 1 = t + 1) by (unfold saturating_add, byte in *; lia). rewrite Hsat.
  pose proof (scan_spec (read_root s) (t + 1) (ok_root s Hok) ltac:(unfold byte in *; lia)) as Hsc.
  destruct (mask_from (read_root s) (t + 1) =? 0).
  { intros j Hj Hbj. destruct (bin_digits j Hbj) as (Htj & Hmj & Hlj & Ej).
    destruct (decide (j / 65536 = t)) as [Et|]; [by apply Htop|]. rewrite contains_bit by done.
    apply unmarked_root; [done..|]. apply Hsc. unfold byte in *. lia. }
  cbv zeta in Hsc. destruct Hsc as (Hk & Hlt & Hmark & Hlow). set (k := least_significant_bit _) in *. clearbody k.
  pose proof Hmark as Hnz. rewrite root_marks in Hnz by done. apply negb_true_iff, Z.eqb_neq in Hnz.
  destruct (first_bit _ (ok_mid s Hok k Hk) Hnz) as (Hf & Hmb & Hml). set (f := least_significant_bit (read_mid s k)) in *. clearbody f.
  rewrite leaf_key_spec by done. rewrite mid_marks in Hmb by done. apply negb_true_iff, Z.eqb_neq in Hmb.
  destruct (first_bit _ (ok_leaf s Hok k f Hk Hf) Hmb) as (Hg & Hlb & Hll). set (g := least_significant_bit _) in *. clearbody g.
  rewrite assemble_spec by done. destruct (contains_digits s k f g Hk Hf Hg) as (Hbin & Hc).
  split_and!; [unfold byte in *; lia|done|by rewrite Hc|]. intros j Hj. assert (Hbj : bin j) by (unfold bin, byte in *; lia).
  destruct (bin_digits j Hbj) as (Htj & Hmj & Hlj & Ej).
  destruct (decide (j / 65536 = t)) as [Et|]; [apply Htop; [lia|done..]|]. rewrite contains_bit by done.
  destruct (decide (j / 65536 = k)) as [Ek|]; [|apply unmarked_root; [done..|]; apply Hlow; unfold byte in *; lia]. rewrite Ek.
  destruct (decide ((j / 256) mod 256 = f)) as [Ef|]; [rewrite Ef; apply Hll; unfold byte in *; lia|].
  apply unmarked_mid; [done..|]. apply Hml. unfold byte in *. lia.
Qed.
End Scan.

Lemma find_spec s start : tree_ok s -> 0 <= start -> least_from (contains s) start (find_first_left_inclusive s start).
Proof.
  intros Hok Hs. unfold find_first_left_inclusive. change MAX_BIN_ID with (2 ^ 24 - 1).
  destruct (start >? 2 ^ 24 - 1) eqn:Emax; bools; [intros j Hj Hb; unfold bin in Hb; lia|].
  assert (Hb : bin start) by (unfold bin; lia). destruct (bin_digits start Hb) as (Ht & Hm & Hl & Estart).
  rewrite split_spec by done. rewrite leaf_key_spec by done. unfold mid_key.
  set (t := start / 65536) in *. set (m := (start / 256) mod 256) in *. set (l := start mod 256) in *. clearbody t m l.
  pose proof (scan_leaf s start t m l Hok Ht Hm Hl Estart) as Hleaf. cbv zeta in Hleaf.
  destruct (mask_from (read_leaf s (t * 256 + m)) l =? 0); cbn [negb]; [|done].
  pose proof (scan_mid s start t m l Hok Ht Hm Hl Estart Hleaf) as Hmid. cbv zeta in *.
  destruct (negb (m =? 255) && _); [done|]. destruct (t =? 255) eqn:E; bools.
  - intros j Hj Hbj. apply Hmid; [done..|]. destruct (bin_digits j Hbj) as (Htj & Hmj & Hlj & Ej). unfold byte in *. lia.
  - pose proof (scan_root s start t m l Hok Ht Hm Hl Estart Hmid E) as Hroot. cbv zeta in Hroot.
    destruct (mask_from (read_root s) (saturating_add 8 t 1) =? 0); done.
Qed.
End Invariant.

(** ** The set a trie represents *)

Section Refinement.
Context {S : Type} `{BinTreeLaws S}.
Implicit Types (s : S) (X : gset Z).

Definition tree_rep (s : S) (X : gset Z) : Prop :=
  tree_ok s /\ (forall id, bin id -> contains s id = bool_decide (id ∈ X)) /\ (forall id, id ∈ X -> bin id).

Lemma empty_tree_rep s :
  read_root s = 0 -> (forall k, read_mid s k = 0) -> (forall k, read_leaf s k = 0) -> tree_rep s ∅.
Proof.
  intros Er Em El. split_and!.
  - split; intros; rewrite ?Er, ?Em, ?El, ?Z.testbit_0_l; unfold word; done.
  - intros id Hid. rewrite contains_bit by done. unfold bit. rewrite El, Z.testbit_0_l. by rewrite bool_decide_eq_false_2.
  - set_solver.
Qed.

Lemma add_rep s X id :
  tree_rep s X -> bin id ->
  exists s', add s id = (s', bool_decide (id ∉ X)) /\ tree_rep s' ({[id]} ∪ X).
Proof.
  intros (Hok & Hc & HX) Hid. destruct (add_spec s id Hok Hid) as (s' & -> & Hok' & Hc'). exists s'. split; [|split_and!].
  - f_equal. rewrite Hc by done. by rewrite bool_decide_not.
  - done.
  - intros id' Hid'. rewrite Hc', Hc by done. destruct (Z.eqb_spec id' id) as [->|Hne]; cbn [orb].
    + symmetry. apply bool_decide_eq_true_2. set_solver.
    + apply bool_decide_ext. set_solver.
  - intros id' Hin. apply elem_of_union in Hin as [->%elem_of_singleton|Hin]; [done|by apply HX].
Qed.

Lemma remove_rep s X id :
  tree_rep s X -> bin id ->
  exists s', remove s id = (s', bool_decide (id ∈ X)) /\ tree_rep s' (X ∖ {[id]}).
Proof.
  intros (Hok & Hc & HX) Hid. destruct (remove_spec s id Hok Hid) as (s' & -> & Hok' & Hc'). exists s'. split; [|split_and!].
  - f_equal. by rewrite Hc.
  - done.
  - intros id' Hid'. rewrite Hc', Hc by done. destruct (Z.eqb_spec id' id) as [->|Hne]; cbn [negb andb].
    + symmetry. apply bool_decide_eq_false_2. set_solver.
    + apply bool_decide_ext. set_solver.
  - intros id' [Hin _]%elem_of_difference. by apply HX.
Qed.

Lemma find_rep s X start :
  tree_rep s X -> 0 <= start -> least_from (fun j => bool_decide (j ∈ X)) start (find_first_left_inclusive s start).
Proof.
  intros (Hok & Hc & HX) Hs. pose proof (find_spec s start Hok Hs) as Hf. unfold least_from in *.
  destruct (find_first_left_inclusive s start) as [b|].
  - destruct Hf as (H1 & H2 & H3 & H4). split_and!; [done|done|by rewrite <- Hc|].
    intros j Hj. rewrite <- Hc by (unfold bin in *; lia). by apply H4.
  - intros j Hj Hb. rewrite <- Hc by done. by apply Hf.
Qed.
End Refinement.

(** A store that holds nothing but the three levels. *)
Record LevelStore := mkLevels { level0 : U256; level1 : gmap u32 U256; level2 : gmap u32 U256 }.

#[global] Instance level_storage : BinTreeStorage LevelStore := {|
  read_root := level0;
  write_root s v := {| s with level0 := v |};
  read_mid s k := rd (level1 s) k;
  write_mid s k v := {| s with level1 := <[k := v]> (level1 s) |};
  read_leaf s k := rd (level2 s) k;
  write_leaf s k v := {| s with level2 := <[k := v]> (level2 s) |}
|}.

#[global] Instance level_laws : BinTreeLaws LevelStore.
Proof. split; intros; try done; apply rd_insert. Qed.

Definition empty_levels : LevelStore := mkLevels 0 ∅ ∅.

(** C34. The trie refines a finite set of bin ids: a trie that represents [X]
    answers membership in [X], [add] and [remove] insert and delete and report
    whether they changed the set, and the scan from any start id returns the
    least element of [X] that is not below it, or nothing exactly when there is
    none. *)
Theorem bintree_refines_set {S} `{BinTreeLaws S} (s : S) (X : gset Z) (id start : Z) :
  tree_rep s X -> bin id -> 0 <= start ->
  contains s id = bool_decide (id ∈ X) /\
  (exists s', add s id = (s', bool_decide (id ∉ X)) /\ tree_rep s' ({[id]} ∪ X)) /\
  (exists s', remove s id = (s', bool_decide (id ∈ X)) /\ tree_rep s' (X ∖ {[id]})) /\
  least_from (fun j => bool_decide (j ∈ X)) start (find_first_left_inclusive s start).
Proof.
  intros Hrep Hid Hs. split_and!; [by apply Hrep|by apply add_rep|by apply remove_rep|by apply find_rep].
Qed.

Lemma bintree_refines_set_witness :
  exists s, tree_rep s ({[8388608]} ∪ ∅) /\ contains s 8388608 = true /\
    least_from (fun j => bool_decide (j ∈ ({[8388608]} ∪ ∅ : gset Z))) 70000 (find_first_left_inclusive s 70000).
Proof.
  assert (H0 : tree_rep empty_levels ∅) by (apply empty_tree_rep; intros; reflexivity).
  assert (Hb : bin 8388608) by (split; lia).
  destruct (bintree_refines_set empty_levels ∅ 8388608 70000 H0 Hb ltac:(lia)) as (_ & (s' & _ & Hr) & _).
  exists s'. split; [exact Hr|].
  destruct (bintree_refines_set s' _ 8388608 70000 Hr Hb ltac:(lia)) as (Hc & _ & _ & Hf).
  split; [rewrite Hc; reflexivity|exact Hf].
Defined.
