(* ===== verification/Storage.v ===== *)
(** * Storage: the collections contracts keep in storage

    [crates/blockchain/primitives/src/storage]: the record maps of [dsl.rs] (with
    the code the [storage_record] macro generates), the dynamic array
    ([types/vec.rs]) and the enumerable set ([types/set.rs]). A collection is its
    length word and a map from index to value, with the slots of different
    collections disjoint; [u32] lengths and indices wrap. The set refines a
    duplicate-free list. *)

From S2P Require Import Prelude.

(** ** Record maps *)

(** What [#[storage_record(exists_field = f)]] derives of a struct: its key and
    whether the field that marks existence is non-zero. *)
Class StorageRecord (K V : Type) := {
  rec_key : V -> K;
  rec_exists : V -> bool;
  rec_name : string
}.

Section Records.
Context {K V : Type} `{Countable K} `{!StorageRecord K V}.
Implicit Types m : gmap K V.

(** [Map::exists] and [Map::get]. *)
Definition rexists (m : gmap K V) (k : K) : bool :=
  match m !! k with Some v => rec_exists v | None => false end.

Definition rget (m : gmap K V) (k : K) : option V :=
  match m !! k with
  | Some v => if rec_exists v then Some v else None
  | None => None
  end.

Definition rcreate (m : gmap K V) (v : V) : res (gmap K V) :=
  ensure negb (rexists m (rec_key v)) else Revert (rec_name ++ " already exists") in
  Ok (<[rec_key v := v]> m).

Definition rupdate (m : gmap K V) (v : V) : res (gmap K V) :=
  ensure rexists m (rec_key v) else Revert (rec_name ++ " not found") in
  Ok (<[rec_key v := v]> m).

Definition rdelete (m : gmap K V) (k : K) : gmap K V := delete k m.

Lemma rexists_get m k : rexists m k = bool_decide (is_Some (rget m k)).
Proof.
  unfold rexists, rget. destruct (m !! k) as [v|]; [destruct (rec_exists v)|];
    first [by rewrite bool_decide_eq_true_2 by eauto | rewrite bool_decide_eq_false_2; [done|by intros []]].
Qed.

Lemma rget_exists m k v : rget m k = Some v -> rec_exists v = true.
Proof. unfold rget. destruct (m !! k) as [w|]; [|done]. destruct (rec_exists w) eqn:E; [|done]. by intros [= <-]. Qed.

Lemma rget_insert_eq m k v : rget (<[k := v]> m) k = if rec_exists v then Some v else None.
Proof. unfold rget. by rewrite lookup_insert_eq. Qed.

Lemma rget_insert_ne m k k' v : k <> k' -> rget (<[k := v]> m) k' = rget m k'.
Proof. intros. unfold rget. by rewrite lookup_insert_ne. Qed.

Lemma rget_delete_eq m k : rget (rdelete m k) k = None.
Proof. unfold rget, rdelete. by rewrite lookup_delete_eq. Qed.

Lemma rget_delete_ne m k k' : k <> k' -> rget (rdelete m k) k' = rget m k'.
Proof. intros. unfold rget, rdelete. by rewrite lookup_delete_ne. Qed.

Lemma rcreate_Ok m v : rget m (rec_key v) = None -> rcreate m v = Ok (<[rec_key v := v]> m).
Proof. intros E. unfold rcreate. rewrite rexists_get, E, bool_decide_eq_false_2; [done|by intros []]. Qed.

Lemma rupdate_Ok m v w : rget m (rec_key v) = Some w -> rupdate m v = Ok (<[rec_key v := v]> m).
Proof. intros E. unfold rupdate. rewrite rexists_get, E, bool_decide_eq_true_2 by eauto. done. Qed.
End Records.

(** ** Dynamic arrays *)

Record SVec (T : Type) := mkVec { vlen : u32; vdata : gmap u32 T }.
Arguments mkVec {T} _ _.
Arguments vlen {T} _.
Arguments vdata {T} _.

Section Vec.
Context {T : Type} `{!Zeroed T}.
Implicit Types v : SVec T.

Definition vec_is_empty (v : SVec T) : bool := vlen v =? 0.

Definition vec_get (v : SVec T) (index : u32) : option T :=
  if index >=? vlen v then None else Some (rd (vdata v) index).

Definition vec_set (v : SVec T) (index : u32) (value : T) : res (SVec T) :=
  ensure negb (index >=? vlen v) else Fatal "vec index out of bounds" in
  Ok (mkVec (vlen v) (<[index := value]> (vdata v))).

Definition vec_push (v : SVec T) (value : T) : SVec T :=
  mkVec (wadd 32 (vlen v) 1) (<[vlen v := value]> (vdata v)).

Definition vec_pop (v : SVec T) : SVec T * option T :=
  if vlen v =? 0 then (v, None) else
  let last := vlen v - 1 in
  (mkVec last (<[last := zeroed]> (vdata v)), Some (rd (vdata v) last)).

Definition vec_read_all (v : SVec T) : list T := rd (vdata v) <$> seqZ 0 (vlen v).

Definition vec_clear (v : SVec T) : SVec T :=
  mkVec 0 (foldl (fun d i => <[i := zeroed]> d) (vdata v) (seqZ 0 (vlen v))).

(** The array holds the list [l]. *)
Definition vec_rep (v : SVec T) (l : list T) : Prop :=
  vlen v = Z.of_nat (length l) /\ vlen v < 2 ^ 32 /\
  forall i, (i < length l)%nat -> l !! i = Some (rd (vdata v) (Z.of_nat i)).

Lemma vec_rep_read_all v l : vec_rep v l -> vec_read_all v = l.
Proof.
  intros (Hn & _ & Hl). unfold vec_read_all. rewrite Hn. apply list_eq. intros i. rewrite list_lookup_fmap.
  destruct (decide (i < length l)%nat).
  - rewrite Hl, lookup_seqZ_lt by lia. cbn. by rewrite Z.add_0_l.
  - rewrite (lookup_ge_None_2 l) by lia. rewrite lookup_seqZ_ge by lia. done.
Qed.

Lemma vec_rep_get v l i : vec_rep v l -> 0 <= i -> vec_get v i = l !! Z.to_nat i.
Proof.
  intros (Hn & _ & Hl) Hi. unfold vec_get. destruct (i >=? vlen v) eqn:E; bools.
  - by rewrite lookup_ge_None_2 by lia.
  - rewrite Hl by lia. by rewrite Z2Nat.id by lia.
Qed.

Lemma vec_rep_push v l x : vec_rep v l -> vlen v < 2 ^ 32 - 1 -> vec_rep (vec_push v x) (l ++ [x]).
Proof.
  intros (Hn & Hb & Hl) Hf. unfold vec_push. split_and!; cbn [vlen vdata].
  - rewrite wadd_small by lia. rewrite length_app. cbn. lia.
  - rewrite wadd_small by lia. lia.
  - intros i Hi. rewrite length_app in Hi. cbn in Hi. destruct (decide (i < length l)%nat).
    + rewrite lookup_app_l, rd_insert_ne by lia. by apply Hl.
    + rewrite lookup_app_r by lia. replace (i - length l)%nat with 0%nat by lia. cbn. f_equal.
      replace (Z.of_nat i) with (vlen v) by lia. by rewrite rd_insert_eq.
Qed.

Lemma vec_rep_set v l i x :
  vec_rep v l -> 0 <= i < vlen v ->
  exists v', vec_set v i x = Ok v' /\ vec_rep v' (<[Z.to_nat i := x]> l).
Proof.
  intros (Hn & Hb & Hl) Hi. unfold vec_set. rewrite Z.geb_leb, (proj2 (Z.leb_gt _ _)) by lia. cbn [negb]. eexists. split; [done|].
  split_and!; cbn [vlen vdata]; [by rewrite length_insert|done|]. intros j Hj. rewrite length_insert in Hj.
  destruct (decide (j = Z.to_nat i)) as [->|Hne].
  - rewrite list_lookup_insert_eq by lia. rewrite Z2Nat.id, rd_insert_eq by lia. done.
  - rewrite list_lookup_insert_ne, rd_insert_ne by lia. by apply Hl.
Qed.

Lemma vec_rep_pop v l x : vec_rep v (l ++ [x]) -> exists v', vec_pop v = (v', Some x) /\ vec_rep v' l.
Proof.
  intros (Hn & Hb & Hl). rewrite length_app in Hn, Hl. cbn in Hn, Hl. unfold vec_pop.
  rewrite (proj2 (Z.eqb_neq _ _)) by lia. exists (mkVec (vlen v - 1) (<[vlen v - 1 := zeroed]> (vdata v))).
  split; [|split_and!; cbn [vlen vdata]].
  - do 2 f_equal. specialize (Hl (length l) ltac:(lia)). rewrite lookup_app_r, Nat.sub_diag in Hl by lia. cbn in Hl.
    injection Hl as ->. f_equal. lia.
  - lia.
  - lia.
  - intros i Hi. rewrite rd_insert_ne by lia. rewrite <- Hl by lia. by rewrite lookup_app_l.
Qed.

Lemma vec_pop_empty v : vec_rep v [] -> vec_pop v = (v, None).
Proof. intros (Hn & _). unfold vec_pop. by rewrite Hn. Qed.
End Vec.

(** ** Enumerable sets *)

Record SSet (T : Type) `{Countable T} := mkSet {
  slen : u32;
  svalues : gmap u32 T;
  spos : gmap T u32
}.
Arguments mkSet {T _ _} _ _ _.
Arguments slen {T _ _} _.
Arguments svalues {T _ _} _.
Arguments spos {T _ _} _.

Section Set_.
Context {T : Type} `{Countable T} `{!Zeroed T}.
Implicit Types (s : SSet T) (l : list T) (x y : T).

Definition set_is_empty (s : SSet T) : bool := slen s =? 0.
Definition read_position (s : SSet T) (value : T) : u32 := rd (spos s) value.
Definition set_contains (s : SSet T) (value : T) : bool := negb (read_position s value =? 0).

Definition set_at (s : SSet T) (index : u32) : option T :=
  if index >=? slen s then None else Some (rd (svalues s) index).

Definition set_insert (s : SSet T) (value : T) : SSet T * bool :=
  if negb (read_position s value =? 0) then (s, false) else
  let length := slen s in
  (mkSet (wadd 32 length 1) (<[length := value]> (svalues s)) (<[value := wadd 32 length 1]> (spos s)), true).

Definition set_remove (s : SSet T) (value : T) : SSet T * bool :=
  let pos := read_position s value in
  if pos =? 0 then (s, false) else
  let length := slen s in
  let idx := wsub 32 pos 1 in
  let last := wsub 32 length 1 in
  let s :=
    if negb (idx =? last) then
      let last_val := rd (svalues s) last in
      mkSet (slen s) (<[idx := last_val]> (svalues s)) (<[last_val := pos]> (spos s))
    else s in
  (mkSet last (<[last := zeroed]> (svalues s)) (<[value := 0]> (spos s)), true).

Definition set_read_all (s : SSet T) : list T := rd (svalues s) <$> seqZ 0 (slen s).

(** The set enumerates the duplicate-free list [l]. *)
Record set_rep (s : SSet T) (l : list T) : Prop := {
  sr_nodup : NoDup l;
  sr_len : slen s = Z.of_nat (length l);
  sr_fits : slen s < 2 ^ 32;
  sr_in : forall i x, l !! i = Some x -> rd (svalues s) (Z.of_nat i) = x /\ rd (spos s) x = Z.of_nat i + 1;
  sr_out : forall x, x ∉ l -> rd (spos s) x = 0
}.

Lemma set_rep_contains s l x : set_rep s l -> set_contains s x = bool_decide (x ∈ l).
Proof.
  intros Hr. unfold set_contains, read_position. destruct (decide (x ∈ l)) as [Hin|Hout].
  - rewrite bool_decide_eq_true_2 by done. apply list_elem_of_lookup in Hin as [i Hi].
    destruct (sr_in s l Hr i x Hi) as (_ & ->). apply negb_true_iff, Z.eqb_neq. lia.
  - rewrite bool_decide_eq_false_2 by done. by rewrite (sr_out s l Hr x Hout).
Qed.

Lemma set_rep_read_all s l : set_rep s l -> set_read_all s = l.
Proof.
  intros Hr. unfold set_read_all. rewrite (sr_len s l Hr). apply list_eq. intros i. rewrite list_lookup_fmap.
  destruct (l !! i) as [x|] eqn:E.
  - pose proof (lookup_lt_Some _ _ _ E). rewrite lookup_seqZ_lt by lia. cbn. rewrite Z.add_0_l.
    by destruct (sr_in s l Hr i x E) as (-> & _).
  - apply lookup_ge_None_1 in E. by rewrite lookup_seqZ_ge by lia.
Qed.

Lemma set_rep_at s l i : set_rep s l -> 0 <= i -> set_at s i = l !! Z.to_nat i.
Proof.
  intros Hr Hi. unfold set_at. rewrite (sr_len s l Hr). destruct (i >=? Z.of_nat (length l)) eqn:E; bools.
  - by rewrite lookup_ge_None_2 by lia.
  - destruct (l !! Z.to_nat i) as [x|] eqn:El; [|apply lookup_ge_None_1 in El; lia].
    destruct (sr_in s l Hr _ x El) as (E1 & _). rewrite Z2Nat.id in E1 by lia. by rewrite E1.
Qed.

Lemma set_rep_insert s l x :
  set_rep s l -> slen s < 2 ^ 32 - 1 ->
  exists s', set_insert s x = (s', bool_decide (x ∉ l)) /\ set_rep s' (if decide (x ∈ l) then l else l ++ [x]).
Proof.
  intros Hr Hf. pose proof (set_rep_contains s l x Hr) as Hc. unfold set_contains in Hc. unfold set_insert. rewrite Hc.
  destruct (decide (x ∈ l)) as [Hin|Hout].
  - rewrite bool_decide_eq_true_2, bool_decide_eq_false_2 by naive_solver. by eexists.
  - rewrite bool_decide_eq_false_2, bool_decide_eq_true_2 by done. eexists. split; [done|].
    pose proof (sr_len s l Hr) as Hn. rewrite wadd_small by lia. split; cbn [slen svalues spos].
    + apply NoDup_app. split_and!; [apply Hr|set_solver|apply NoDup_singleton].
    + rewrite length_app. cbn. lia.
    + lia.
    + intros i y Hi. destruct (decide (i < length l)%nat) as [Hlt|Hge].
      * rewrite lookup_app_l in Hi by lia. destruct (sr_in s l Hr i y Hi) as (E1 & E2).
        assert (x <> y) by (intros ->; apply Hout; by eapply list_elem_of_lookup_2). rewrite !rd_insert_ne by (done || lia). done.
      * rewrite lookup_app_r in Hi by lia. apply list_lookup_singleton_Some in Hi as (Hi & <-).
        assert (E : Z.of_nat i = slen s) by lia. rewrite E, !rd_insert_eq. done.
    + intros y Hy. rewrite rd_insert_ne by set_solver. apply (sr_out s l Hr). set_solver.
Qed.

Lemma set_rep_remove_absent s l x : set_rep s l -> x ∉ l -> set_remove s x = (s, false).
Proof. intros Hr Hx. unfold set_remove, read_position. by rewrite (sr_out s l Hr x Hx). Qed.

(** The list after the last element [y] overwrote the element [x] at [i]. *)
Lemma swap_remove_elem l0 y i x z :
  NoDup l0 -> l0 !! i = Some x -> z ∈ <[i := y]> l0 <-> z = y \/ (z ∈ l0 /\ z <> x).
Proof.
  intros Hnd Hi. pose proof (lookup_lt_Some _ _ _ Hi) as Hil. split.
  - intros (j & Hj)%list_elem_of_lookup. apply list_lookup_insert_Some in Hj as [(-> & -> & _)|(Hji & Hj)]; [by left|right].
    split; [by eapply list_elem_of_lookup_2|]. intros ->. apply Hji. by eapply NoDup_lookup.
  - intros [->|(Hz & Hzx)]; [by eapply list_elem_of_lookup_2, list_lookup_insert_eq|].
    apply list_elem_of_lookup in Hz as (j & Hj). eapply (list_elem_of_lookup_2 _ j). rewrite list_lookup_insert_ne; [done|].
    intros ->. congruence.
Qed.

Lemma swap_remove_nodup l0 y i : NoDup l0 -> y ∉ l0 -> NoDup (<[i := y]> l0).
Proof.
  intros Hnd Hy. apply NoDup_alt. intros a b z Ha Hb. apply list_lookup_insert_Some in Ha, Hb.
  destruct Ha as [(<- & <- & _)|(Ha1 & Ha)], Hb as [(<- & E & _)|(Hb1 & Hb)]; try done.
  - exfalso. apply Hy. by eapply list_elem_of_lookup_2.
  - subst z. exfalso. apply Hy. by eapply list_elem_of_lookup_2.
  - by eapply NoDup_lookup.
Qed.

Lemma set_rep_remove s l0 y i x :
  set_rep s (l0 ++ [y]) -> (l0 ++ [y]) !! i = Some x ->
  exists s', set_remove s x = (s', true) /\ set_rep s' (<[i := y]> l0).
Proof.
  intros Hr Hi. pose proof (sr_len s _ Hr) as Hn. rewrite length_app in Hn. cbn in Hn. pose proof (sr_fits s _ Hr) as Hf.
  pose proof (sr_nodup s _ Hr) as Hnd. apply NoDup_app in Hnd as (Hnd0 & Hdj & _).
  assert (Hyl : y ∉ l0) by (intros Hy; apply (Hdj y Hy); set_solver).
  destruct (sr_in s _ Hr i x Hi) as (Ev & Ep). destruct (sr_in s _ Hr (length l0) y) as (Evy & Epy); [by rewrite lookup_app_r, Nat.sub_diag by lia|].
  pose proof (lookup_lt_Some _ _ _ Hi) as Hlt. rewrite length_app in Hlt. cbn in Hlt.
  unfold set_remove, read_position. rewrite Ep, (proj2 (Z.eqb_neq _ _)) by lia. rewrite !wsub_small by lia.
  replace (slen s - 1) with (Z.of_nat (length l0)) by lia. replace (Z.of_nat i + 1 - 1) with (Z.of_nat i) by lia. rewrite Evy.
  eexists. split; [done|]. destruct (decide (i = length l0)) as [->|Hne].
  - assert (x = y) as -> by (rewrite lookup_app_r, Nat.sub_diag in Hi by lia; by injection Hi).
    rewrite Z.eqb_refl. cbn [negb]. rewrite list_insert_ge by lia. split; cbn [slen svalues spos]; [done|done|lia| |].
    + intros j z Hj. pose proof (lookup_lt_Some _ _ _ Hj). destruct (sr_in s _ Hr j z) as (E1 & E2); [by rewrite lookup_app_l|].
      rewrite !rd_insert_ne; [done| |lia]. intros ->. apply Hyl. by eapply list_elem_of_lookup_2.
    + intros z Hz. destruct (decide (y = z)) as [->|]; [apply rd_insert_eq|]. rewrite rd_insert_ne by done. apply (sr_out s _ Hr). set_solver.
  - assert (Hil : (i < length l0)%nat) by lia. rewrite lookup_app_l in Hi by done.
    assert (Hxy : x <> y) by (intros ->; apply Hyl; by eapply list_elem_of_lookup_2).
    rewrite (proj2 (Z.eqb_neq _ _)) by lia. cbn [negb slen svalues spos].
    pose proof (fun z => swap_remove_elem l0 y i x z Hnd0 Hi) as Hin.
    split; cbn [slen svalues spos].
    + by apply swap_remove_nodup.
    + by rewrite length_insert.
    + lia.
    + intros j z Hj. pose proof (lookup_lt_Some _ _ _ Hj) as Hjl. rewrite length_insert in Hjl.
      apply list_lookup_insert_Some in Hj as [(<- & <- & _)|(Hji & Hj)].
      * rewrite rd_insert_ne, rd_insert_eq by lia. rewrite rd_insert_ne, rd_insert_eq by done. done.
      * destruct (sr_in s _ Hr j z) as (E1 & E2); [by rewrite lookup_app_l|].
        assert (Hz : z ∈ l0) by (by eapply list_elem_of_lookup_2).
        rewrite !rd_insert_ne; [done|by intros ->|intros ->; apply Hji; by eapply NoDup_lookup|lia|lia].
    + intros z Hz. destruct (decide (x = z)) as [->|Hne']; [apply rd_insert_eq|].
      rewrite rd_insert_ne by done. assert (y <> z) by (intros ->; apply Hz, Hin; by left). rewrite rd_insert_ne by done.
      apply (sr_out s _ Hr). intros [Hzl|Hzy]%elem_of_app; [|apply list_elem_of_singleton in Hzy; congruence]. apply Hz, Hin. right. done.
Qed.

(** The order of the elements that stay is not kept: the last one fills the gap. *)
Lemma swap_remove_perm l0 y i x : (l0 ++ [y]) !! i = Some x -> l0 ++ [y] ≡ₚ x :: <[i := y]> l0.
Proof.
  intros Hi. destruct (decide (i < length l0)%nat) as [Hlt|Hge].
  - rewrite lookup_app_l in Hi by done. rewrite insert_take_drop by done.
    rewrite <- (take_drop_middle l0 i x Hi) at 1. solve_Permutation.
  - rewrite list_insert_ge by lia. rewrite lookup_app_r in Hi by lia. apply list_lookup_singleton_Some in Hi as (_ & ->).
    solve_Permutation.
Qed.

Lemma set_remove_rep s l x :
  set_rep s l ->
  exists s' l', set_remove s x = (s', bool_decide (x ∈ l)) /\ set_rep s' l' /\
    if decide (x ∈ l) then l ≡ₚ x :: l' else l' = l.
Proof.
  intros Hr. destruct (decide (x ∈ l)) as [Hin|Hout].
  - rewrite bool_decide_eq_true_2 by done. apply list_elem_of_lookup in Hin as [i Hi].
    destruct (exists_last (l := l)) as (l0 & y & ->); [by intros ->|].
    destruct (set_rep_remove s l0 y i x Hr Hi) as (s' & -> & Hr'). exists s', (<[i := y]> l0).
    split_and!; [done|done|by apply swap_remove_perm].
  - rewrite bool_decide_eq_false_2 by done. exists s, l. split_and!; [by eapply set_rep_remove_absent|done|done].
Qed.
End Set_.

(** The enumerable set refines a duplicate-free list: membership, indexing and
    enumeration read the list, [insert] appends an absent element and refuses a
    present one, [remove] deletes exactly the element asked for and reports
    whether it was there. *)
Theorem storage_set_refines {T} `{Countable T} `{!Zeroed T} (s : SSet T) (l : list T) (x : T) :
  set_rep s l -> slen s < 2 ^ 32 - 1 ->
  set_contains s x = bool_decide (x ∈ l) /\ set_read_all s = l /\
  (forall i, 0 <= i -> set_at s i = l !! Z.to_nat i) /\
  (exists s', set_insert s x = (s', bool_decide (x ∉ l)) /\ set_rep s' (if decide (x ∈ l) then l else l ++ [x])) /\
  (exists s' l', set_remove s x = (s', bool_decide (x ∈ l)) /\ set_rep s' l' /\
    if decide (x ∈ l) then l ≡ₚ x :: l' else l' = l).
Proof.
  intros Hr Hf. split_and!; [by apply set_rep_contains|by apply set_rep_read_all|intros; by apply set_rep_at|
    by apply set_rep_insert|by apply set_remove_rep].
Qed.

Lemma empty_set_rep {T} `{Countable T} `{!Zeroed T} : set_rep (mkSet 0 ∅ ∅ : SSet T) [].
Proof. split; cbn; [constructor|done|done|intros; done|done]. Qed.

Lemma storage_set_refines_witness :
  exists s s' l', set_rep s [10; 20; 30] /\ set_remove s 10 = (s', true) /\ set_rep s' l' /\ [10; 20; 30] ≡ₚ 10 :: l'.
Proof.
  set (s := (set_insert (set_insert (set_insert (mkSet 0 ∅ ∅ : SSet Z) 10).1 20).1 30).1).
  assert (Hr : set_rep s [10; 20; 30]).
  { destruct (set_rep_insert _ [] 10 empty_set_rep ltac:(reflexivity)) as (s1 & E1 & H1). 
    destruct (set_rep_insert s1 [10] 20 H1) as (s2 & E2 & H2); [rewrite (sr_len _ _ H1); reflexivity|].
    destruct (set_rep_insert s2 [10; 20] 30 H2) as (s3 & E3 & H3); [rewrite (sr_len _ _ H2); reflexivity|].
    unfold s. rewrite E1. cbn [fst]. rewrite E2. cbn [fst]. rewrite E3. exact H3. }
  destruct (storage_set_refines s [10; 20; 30] 10 Hr) as (_ & _ & _ & _ & s' & l' & E & Hr' & Hp); [rewrite (sr_len _ _ Hr); reflexivity|].
  exists s, s', l'. split; [exact Hr|]. split; [exact E|]. split; [exact Hr'|exact Hp].
Defined.
