(* ===== verification/Heap.v ===== *)
(** * Heap: the binary min-heap in storage

    [crates/blockchain/primitives/src/storage/types/binary_heap.rs]. The heap is
    its length word and a map from index to value; indices are [u32] and wrap.
    The comparator may fail. For a comparator that orders the values, every
    operation keeps the heap order and is the corresponding operation on the
    multiset of the elements. The sift loops run at most 33 rounds: the index
    halves on the way up and doubles on the way down, and a length is a [u32]. *)

From S2P Require Import Prelude.

Record Heap (T : Type) := mkHeap { hlen : u32; hdata : gmap u32 T }.
Arguments mkHeap {T} _ _.
Arguments hlen {T} _.
Arguments hdata {T} _.

Section Ops.
Context {T : Type} `{!Zeroed T} `{!EqDecision T}.
Variable cmp : T -> T -> res comparison.

Definition heap_is_empty (h : Heap T) : bool := hlen h =? 0.
Definition hread (h : Heap T) (index : u32) : T := rd (hdata h) index.
Definition hwrite (h : Heap T) (index : u32) (value : T) : Heap T :=
  mkHeap (hlen h) (<[index := value]> (hdata h)).
Definition clear_slot (h : Heap T) (index : u32) : Heap T := hwrite h index zeroed.
Definition set_len (h : Heap T) (len : u32) : Heap T := mkHeap len (hdata h).

Definition peek (h : Heap T) : option T := if hlen h =? 0 then None else Some (hread h 0).

Definition heap_read_all (h : Heap T) : list T := hread h <$> seqZ 0 (hlen h).

Definition heap_clear (h : Heap T) : Heap T :=
  set_len (foldl clear_slot h (seqZ 0 (hlen h))) 0.

Fixpoint sift_up (fuel : nat) (h : Heap T) (i : u32) : res (Heap T) :=
  match fuel with
  | O => Ok h
  | S fuel =>
      if i >? 0 then
        let parent := (i - 1) / 2 in
        let child_val := hread h i in
        let parent_val := hread h parent in
        let? c := cmp child_val parent_val in
        match c with
        | Lt => sift_up fuel (hwrite (hwrite h i parent_val) parent child_val) parent
        | _ => Ok h
        end
      else Ok h
  end.

Fixpoint sift_down (fuel : nat) (len : u32) (h : Heap T) (i : u32) : res (Heap T) :=
  match fuel with
  | O => Ok h
  | S fuel =>
      let left := wadd 32 (wmul 32 2 i) 1 in
      let right := wadd 32 (wmul 32 2 i) 2 in
      if left >=? len then Ok h else
      let? smallest :=
        if right <? len then
          let? c := cmp (hread h right) (hread h left) in
          Ok (match c with Lt => right | _ => left end)
        else Ok left in
      let current := hread h i in
      let child := hread h smallest in
      let? c := cmp child current in
      match c with
      | Lt => sift_down fuel len (hwrite (hwrite h i child) smallest current) smallest
      | _ => Ok h
      end
  end.

(** The rounds a loop over [u32] indices can take. *)
Definition rounds : nat := 33.

Definition push (h : Heap T) (value : T) : res (Heap T) :=
  let len := hlen h in
  let h := hwrite h len value in
  let h := set_len h (wadd 32 len 1) in
  sift_up rounds h len.

Definition pop_min (h : Heap T) : res (Heap T * option T) :=
  let len := hlen h in
  if len =? 0 then Ok (h, None) else
  let root := hread h 0 in
  let last_idx := len - 1 in
  let h := if last_idx >? 0 then hwrite h 0 (hread h last_idx) else h in
  let h := clear_slot h last_idx in
  let h := set_len h last_idx in
  let? h := if last_idx >? 0 then sift_down rounds (hlen h) h 0 else Ok h in
  Ok (h, Some root).

(** The search loop of [remove]: the first index from [i] on that holds [target]. *)
Fixpoint find_index (n : nat) (h : Heap T) (target : T) (i : u32) : option u32 :=
  match n with
  | O => None
  | S n => if decide (hread h i = target) then Some i else find_index n h target (i + 1)
  end.

(** The end of [remove]: the entry moved to [idx] goes up or down. *)
Definition restore (h : Heap T) (idx : u32) : res (Heap T) :=
  let parent := if idx =? 0 then None else Some ((idx - 1) / 2) in
  let? should_sift_up :=
    match parent with
    | Some p => let? c := cmp (hread h idx) (hread h p) in
                Ok (match c with Lt => true | _ => false end)
    | None => Ok false
    end in
  if should_sift_up then sift_up rounds h idx else sift_down rounds (hlen h) h idx.

Definition remove (h : Heap T) (target : T) : res (Heap T * bool) :=
  let len := hlen h in
  match find_index (Z.to_nat len) h target 0 with
  | None => Ok (h, false)
  | Some idx =>
      let last_idx := len - 1 in
      let h := if negb (idx =? last_idx) then hwrite h idx (hread h last_idx) else h in
      let h := clear_slot h last_idx in
      let h := set_len h last_idx in
      let? h :=
        if negb (idx =? last_idx) && (last_idx >? 0) then restore h idx else Ok h in
      Ok (h, true)
  end.
End Ops.

(** ** Arrays and multisets *)

Section Multiset.
Context {T : Type} `{!Zeroed T}.
Implicit Types h : Heap T.

Lemma elems_lookup h k : 0 <= k < hlen h -> heap_read_all h !! Z.to_nat k = Some (hread h k).
Proof.
  intros Hk. unfold heap_read_all. rewrite list_lookup_fmap, lookup_seqZ_lt by lia. cbn. f_equal. f_equal. lia.
Qed.

Lemma elem_of_elems h x : x ∈ heap_read_all h <-> exists k, 0 <= k < hlen h /\ hread h k = x.
Proof.
  unfold heap_read_all. rewrite list_elem_of_fmap. setoid_rewrite elem_of_seqZ. split.
  - intros (k & -> & Hk). exists k. split; [lia|done].
  - intros (k & Hk & <-). exists k. split; [done|lia].
Qed.

Lemma hread_write h i v j : hread (hwrite h i v) j = if decide (i = j) then v else hread h j.
Proof. apply rd_insert. Qed.

(** Exchanging two entries permutes the elements. *)
Lemma swap_perm h i j :
  0 <= i < hlen h -> 0 <= j < hlen h -> i <> j ->
  heap_read_all (hwrite (hwrite h i (hread h j)) j (hread h i)) ≡ₚ heap_read_all h.
Proof.
  intros Hi Hj Hne. apply Permutation_inj. unfold heap_read_all. cbn [hlen hwrite]. split; [by rewrite !length_fmap|].
  exists (fun k => if decide (k = Z.to_nat i) then Z.to_nat j else if decide (k = Z.to_nat j) then Z.to_nat i else k).
  split; [intros a b; repeat case_decide; lia|].
  intros k. rewrite !list_lookup_fmap. destruct (decide (k < Z.to_nat (hlen h))%nat) as [Hk|Hk].
  - rewrite (lookup_seqZ_lt 0 (hlen h) k), lookup_seqZ_lt by (repeat case_decide; lia). cbn [fmap option_fmap option_map]. f_equal.
    rewrite !hread_write. repeat case_decide; subst; try lia; f_equal; lia.
  - rewrite (lookup_seqZ_ge 0 (hlen h) k), lookup_seqZ_ge by (repeat case_decide; lia). done.
Qed.

Lemma push_elems h v : 0 <= hlen h < 2 ^ 32 - 1 ->
  heap_read_all (set_len (hwrite h (hlen h) v) (wadd 32 (hlen h) 1)) = heap_read_all h ++ [v].
Proof.
  intros Hn. rewrite wadd_small by lia. unfold heap_read_all. cbn [hlen set_len hwrite].
  rewrite seqZ_app by lia. rewrite fmap_app. f_equal.
  - apply list_fmap_ext. intros i k Hk%lookup_seqZ. unfold hread. cbn [hdata set_len hwrite]. apply rd_insert_ne. lia.
  - rewrite Z.add_0_l, seqZ_cons by lia. cbn [fmap list_fmap]. unfold hread. cbn [hdata set_len hwrite].
    by rewrite rd_insert_eq.
Qed.

(** Overwriting entry [i] with the last one and dropping the last removes entry [i]. *)
Lemma drop_perm h i :
  0 <= i < hlen h ->
  let last := hlen h - 1 in
  let h' := if negb (i =? last) then hwrite h i (hread h last) else h in
  heap_read_all h ≡ₚ hread h i :: heap_read_all (set_len (clear_slot h' last) last).
Proof.
  intros Hi last h'.
  assert (Hr : heap_read_all (set_len (clear_slot h' last) last) = hread h' <$> seqZ 0 last).
  { unfold heap_read_all. cbn [hlen set_len]. apply list_fmap_ext. intros a k Hk%lookup_seqZ.
    unfold hread. cbn [hdata set_len clear_slot hwrite]. apply rd_insert_ne. lia. }
  rewrite Hr. clear Hr. unfold heap_read_all.
  assert (Es : seqZ 0 (hlen h) = seqZ 0 last ++ [last]).
  { replace (hlen h) with (last + 1) by lia. rewrite seqZ_app by lia. done. }
  rewrite Es, fmap_app. cbn [fmap list_fmap]. subst h'. destruct (i =? last) eqn:E; bools; cbn [negb].
  - subst i. solve_Permutation.
  - assert (Ei : hread (hwrite h i (hread h last)) <$> seqZ 0 last = <[Z.to_nat i := hread h last]> (hread h <$> seqZ 0 last)).
    { apply list_eq. intros k. rewrite list_lookup_fmap. destruct (decide (k < Z.to_nat last)%nat).
      - rewrite lookup_seqZ_lt by lia. cbn. rewrite hread_write. destruct (decide (k = Z.to_nat i)) as [->|].
        + rewrite decide_True by lia. rewrite list_lookup_insert_eq; [done|]. rewrite length_fmap, length_seqZ. lia.
        + rewrite decide_False by lia. rewrite list_lookup_insert_ne by done. rewrite list_lookup_fmap, lookup_seqZ_lt by lia. done.
      - rewrite lookup_seqZ_ge by lia. symmetry. apply lookup_ge_None_2. rewrite length_insert, length_fmap, length_seqZ. lia. }
    rewrite Ei. assert (Hl : (hread h <$> seqZ 0 last) !! Z.to_nat i = Some (hread h i)).
    { rewrite list_lookup_fmap, lookup_seqZ_lt by lia. cbn. f_equal. f_equal. lia. }
    rewrite insert_take_drop by (by eapply lookup_lt_Some). rewrite <- (take_drop_middle _ _ _ Hl) at 1. solve_Permutation.
Qed.
End Multiset.

(** ** Heap order *)

Section Order.
Context {T : Type} `{!Zeroed T} `{!EqDecision T}.
(** A comparator that answers with a fixed total preorder. *)
Variable ord : T -> T -> comparison.
Definition le (a b : T) : Prop := ord b a <> Lt.
Hypothesis le_total : forall a b, ord a b = Lt -> le a b.
Hypothesis le_trans : forall a b c, le a b -> le b c -> le a c.
Definition cmp_of (a b : T) : res comparison := Ok (ord a b).

Implicit Types (h : Heap T) (d : Z -> T).

Definition par (i : Z) : Z := (i - 1) / 2.

Lemma par_bounds i : 0 < i -> 0 <= par i < i /\ (i = 2 * par i + 1 \/ i = 2 * par i + 2).
Proof. unfold par. intros Hi. Z.to_euclidean_division_equations; lia. Qed.

Lemma par_child i j : 0 <= i -> j = 2 * i + 1 \/ j = 2 * i + 2 -> par j = i.
Proof. unfold par. intros Hi Hj. Z.to_euclidean_division_equations; lia. Qed.

(** No entry is below its parent. *)
Definition heap_ok (h : Heap T) : Prop :=
  0 <= hlen h < 2 ^ 31 /\ forall i, 0 < i < hlen h -> le (hread h (par i)) (hread h i).

(** The order with the entry [i] possibly too small (too large). *)
Definition hole_up (h : Heap T) (i : Z) : Prop :=
  (forall j, 0 < j < hlen h -> j <> i -> le (hread h (par j)) (hread h j)) /\
  (forall j, 0 < j < hlen h -> par j = i -> 0 < i -> le (hread h (par i)) (hread h j)).
Definition hole_down (h : Heap T) (i : Z) : Prop :=
  (forall j, 0 < j < hlen h -> par j <> i -> le (hread h (par j)) (hread h j)) /\
  (forall j, 0 < j < hlen h -> par j = i -> 0 < i -> le (hread h (par i)) (hread h j)).

Lemma le_refl a : le a a.
Proof. unfold le. destruct (ord a a) eqn:E; try done. by pose proof (le_total a a E) as H. Qed.

(** The root is the minimum. *)
Lemma root_min h i : heap_ok h -> 0 <= i < hlen h -> le (hread h 0) (hread h i).
Proof.
  intros (Hn & Ho). induction i as [i IH] using (well_founded_induction (Z.lt_wf 0)). intros Hi.
  destruct (decide (i = 0)) as [->|]; [apply le_refl|]. destruct (par_bounds i ltac:(lia)) as (Hp & _).
  eapply le_trans; [apply (IH (par i)); lia|apply Ho; lia].
Qed.

Lemma sift_up_spec fuel h i :
  0 <= hlen h < 2 ^ 31 -> 0 <= i < hlen h -> i < 2 ^ Z.of_nat fuel -> hole_up h i ->
  exists h', sift_up cmp_of fuel h i = Ok h' /\ hlen h' = hlen h /\ heap_ok h' /\ heap_read_all h' ≡ₚ heap_read_all h.
Proof.
  intros Hn. revert h i Hn. induction fuel as [|fuel IH]; intros h i Hn Hi Hf (Hu & Hc); cbn [sift_up].
  - assert (i = 0) as -> by (cbn in Hf; lia). exists h. split_and!; [done|done|split; [lia|]|done]. intros j Hj. apply Hu; lia.
  - destruct (i >? 0) eqn:E; bools.
    2: { assert (i = 0) as -> by lia. exists h. split_and!; [done|done|split; [lia|]|done]. intros j Hj. apply Hu; lia. }
    destruct (par_bounds i ltac:(lia)) as (Hp & _). fold (par i). cbv zeta. unfold cmp_of at 1.
    destruct (ord (hread h i) (hread h (par i))) eqn:Ec.
    1, 3: exists h; split_and!; [done|done|split; [lia|]|done]; intros j Hj; destruct (decide (j = i)) as [->|];
      [unfold le; by rewrite Ec|apply Hu; lia].
    set (h1 := hwrite (hwrite h i (hread h (par i))) (par i) (hread h i)).
    assert (Hr : forall j, hread h1 j = if decide (par i = j) then hread h i else if decide (i = j) then hread h (par i) else hread h j)
      by (intros j; unfold h1; by rewrite !hread_write).
    apply le_total in Ec.
    destruct (IH h1 (par i)) as (h' & E1 & E2 & E3 & E4); [done|cbn [h1 hlen hwrite]; lia| | |].
    + replace (Z.of_nat (S fuel)) with (Z.of_nat fuel + 1) in Hf by lia. rewrite Z.pow_add_r, Z.pow_1_r in Hf by lia.
      unfold par in *. Z.to_euclidean_division_equations; lia.
    + split; cbn [h1 hlen hwrite]; intros j Hj Hpj.
      * destruct (par_bounds j ltac:(lia)) as (Hpb & _). rewrite !Hr. rewrite (decide_False (P := par i = j)) by lia.
        destruct (decide (i = j)) as [<-|]; [by rewrite decide_True|].
        destruct (decide (par i = par j)) as [Epp|]; [|destruct (decide (i = par j)) as [Eip|]].
        -- eapply le_trans; [exact Ec|]. rewrite Epp. by apply Hu.
        -- apply Hc; [lia|done|lia].
        -- by apply Hu.
      * intros Hpi. destruct (par_bounds (par i) Hpi) as (Hppi & _). destruct (par_bounds j ltac:(lia)) as (Hpb & _).
        rewrite !Hr. rewrite (decide_False (P := par i = par (par i))), (decide_False (P := i = par (par i))), (decide_False (P := par i = j)) by lia.
        assert (Hpp : le (hread h (par (par i))) (hread h (par i))) by (apply Hu; lia).
        destruct (decide (i = j)) as [<-|]; [done|]. eapply le_trans; [exact Hpp|]. rewrite <- Hpj. by apply Hu.
    + exists h'. split_and!; [exact E1|rewrite E2; done|done|]. rewrite E4. unfold h1. apply swap_perm; lia.
Qed.

(** The smaller child of [i], as [sift_down] chooses it. *)
Lemma smaller_child h i :
  0 <= i -> 2 * i + 1 < hlen h ->
  exists k,
    (if 2 * i + 2 <? hlen h then let? c := cmp_of (hread h (2 * i + 2)) (hread h (2 * i + 1)) in
      Ok (match c with Lt => 2 * i + 2 | _ => 2 * i + 1 end) else Ok (2 * i + 1)) = Ok k /\
  0 < k < hlen h /\ par k = i /\ forall j, 0 < j < hlen h -> par j = i -> le (hread h k) (hread h j).
Proof.
  intros Hi Hl. unfold cmp_of. assert (Hk : forall j, 0 < j -> par j = i -> j = 2 * i + 1 \/ j = 2 * i + 2)
    by (intros j Hj <-; by destruct (par_bounds j Hj)).
  destruct (2 * i + 2 <? hlen h) eqn:E; bools; [destruct (ord _ _) eqn:Ec|].
  all: eexists; split_and!; [done|lia|lia|apply par_child; lia|]; intros j Hj Hpj; destruct (Hk j ltac:(lia) Hpj) as [->| ->]; try apply le_refl; try lia.
  - unfold le. by rewrite Ec.
  - by apply le_total.
  - unfold le. by rewrite Ec.
Qed.

Lemma sift_down_spec fuel h i :
  0 <= hlen h < 2 ^ 31 -> 0 <= i < hlen h -> hlen h <= (i + 1) * 2 ^ Z.of_nat fuel -> hole_down h i ->
  exists h', sift_down cmp_of fuel (hlen h) h i = Ok h' /\ hlen h' = hlen h /\ heap_ok h' /\ heap_read_all h' ≡ₚ heap_read_all h.
Proof.
  intros Hn. revert h i Hn. induction fuel as [|fuel IH]; intros h i Hn Hi Hf (Hu & Hc); cbn [sift_down].
  - exists h. split_and!; [done|done|split; [lia|]|done]. intros j Hj. apply Hu; [done|]. intros <-.
    destruct (par_bounds j ltac:(lia)) as (Hp & _). rewrite Z.pow_0_r in Hf. lia.
  - rewrite (wmul_small 32) by lia. rewrite !(wadd_small 32) by lia. cbv zeta. destruct (2 * i + 1 >=? hlen h) eqn:E; bools.
    { exists h. split_and!; [done|done|split; [lia|]|done]. intros j Hj. apply Hu; [done|]. intros <-.
      destruct (par_bounds j ltac:(lia)) as (Hp & Hpc). lia. }
    destruct (smaller_child h i ltac:(lia) E) as (k & -> & Hk & Hpk & Hmin). unfold cmp_of at 1. destruct (par_bounds k ltac:(lia)) as (_ & Hkk). rewrite Hpk in Hkk.
    destruct (ord (hread h k) (hread h i)) eqn:Ec.
    1, 3: exists h; split_and!; [done|done|split; [lia|]|done]; intros j Hj; destruct (decide (par j = i)) as [Epj|];
      [rewrite Epj; eapply le_trans; [|by apply Hmin]; unfold le; by rewrite Ec|by apply Hu].
    apply le_total in Ec. set (h1 := hwrite (hwrite h i (hread h k)) k (hread h i)).
    assert (Hr : forall j, hread h1 j = if decide (k = j) then hread h i else if decide (i = j) then hread h k else hread h j)
      by (intros j; unfold h1; by rewrite !hread_write).
    destruct (IH h1 k) as (h' & E1 & E2 & E3 & E4); [done|cbn [h1 hlen hwrite]; lia| | |].
    + cbn [h1 hlen hwrite]. replace (Z.of_nat (S fuel)) with (Z.of_nat fuel + 1) in Hf by lia.
      rewrite Z.pow_add_r, Z.pow_1_r in Hf by lia. assert (0 < 2 ^ Z.of_nat fuel) by lia. nia.
    + split; cbn [h1 hlen hwrite]; intros j Hj Hpj; destruct (par_bounds j ltac:(lia)) as (Hpb & _); rewrite !Hr.
      * rewrite (decide_False (P := k = par j)) by done. destruct (decide (i = par j)) as [Eip|].
        -- destruct (decide (k = j)) as [<-|]; [done|]. rewrite decide_False by lia. by apply Hmin.
        -- rewrite (decide_False (P := k = j)) by (intros ->; congruence). destruct (decide (i = j)) as [<-|]; [|by apply Hu].
           apply Hc; [lia|done|lia].
      * intros _. rewrite (decide_False (P := k = par k)) by lia. rewrite (decide_True (P := i = par k)) by done.
        rewrite (decide_False (P := k = j)), (decide_False (P := i = j)) by lia. rewrite <- Hpj. apply Hu; lia.
    + exists h'. split_and!; [exact E1|rewrite E2; done|done|]. rewrite E4. unfold h1. apply swap_perm; lia.
Qed.

Lemma push_spec h v :
  heap_ok h -> hlen h < 2 ^ 31 - 1 ->
  exists h', push cmp_of h v = Ok h' /\ heap_ok h' /\ heap_read_all h' ≡ₚ v :: heap_read_all h.
Proof.
  intros (Hn & Ho) Hf. unfold push. pose proof (push_elems h v ltac:(lia)) as He. rewrite wadd_small in * by lia.
  set (h1 := set_len (hwrite h (hlen h) v) (hlen h + 1)) in *.
  assert (Hr : forall j, j < hlen h -> hread h1 j = hread h j).
  { intros j Hj. unfold hread, h1. cbn [hdata set_len hwrite]. apply rd_insert_ne. lia. }
  destruct (sift_up_spec rounds h1 (hlen h)) as (h' & E1 & _ & E3 & E4); [cbn [h1 hlen set_len]; lia..|unfold rounds; cbn; lia| |].
  - split; cbn [h1 hlen set_len]; intros j Hj Hne; destruct (par_bounds j ltac:(lia)) as (Hp & _); [|lia].
    rewrite !Hr by lia. apply Ho. lia.
  - exists h'. split_and!; [exact E1|done|]. rewrite E4, He. solve_Permutation.
Qed.

(** The heap after entry [i] was replaced by the last one. *)
Definition dropped (h : Heap T) (i : Z) : Heap T :=
  set_len (clear_slot (if negb (i =? hlen h - 1) then hwrite h i (hread h (hlen h - 1)) else h) (hlen h - 1)) (hlen h - 1).

Lemma dropped_read h i j :
  0 <= i < hlen h -> j < hlen h - 1 -> hread (dropped h i) j = if decide (i = j) then hread h (hlen h - 1) else hread h j.
Proof.
  intros Hi Hj. unfold dropped, hread, clear_slot. cbn [hdata set_len hwrite]. rewrite rd_insert_ne by lia.
  destruct (i =? hlen h - 1) eqn:E; bools; cbn [negb hdata hwrite]; [by rewrite decide_False by lia|apply rd_insert].
Qed.

Lemma dropped_hole_down h i :
  heap_ok h -> 0 <= i < hlen h - 1 -> (0 < i -> le (hread h (par i)) (hread h (hlen h - 1))) -> hole_down (dropped h i) i.
Proof.
  intros (Hn & Ho) Hi Hle. split; cbn [dropped hlen set_len]; intros j Hj Hpj; destruct (par_bounds j ltac:(lia)) as (Hp & _).
  - rewrite !dropped_read by lia. rewrite (decide_False (P := i = par j)) by done.
    case_decide; [subst; apply Hle; lia|apply Ho; lia].
  - intros Hi0. destruct (par_bounds i Hi0) as (Hpi & _). rewrite !dropped_read by lia. rewrite (decide_False (P := i = par i)), decide_False by lia.
    eapply le_trans; [apply Ho; lia|]. rewrite <- Hpj. apply Ho. lia.
Qed.

Lemma dropped_hole_up h i :
  heap_ok h -> 0 < i < hlen h - 1 -> le (hread h (hlen h - 1)) (hread h (par i)) -> hole_up (dropped h i) i.
Proof.
  intros (Hn & Ho) Hi Hle. split; cbn [dropped hlen set_len]; intros j Hj Hpj; destruct (par_bounds j ltac:(lia)) as (Hp & _).
  - rewrite !dropped_read by lia. rewrite (decide_False (P := i = j)) by done. case_decide as Eip; [|apply Ho; lia].
    eapply le_trans; [exact Hle|]. eapply le_trans; [apply Ho; lia|]. rewrite Eip. apply Ho. lia.
  - intros _. destruct (par_bounds i ltac:(lia)) as (Hpi & _). rewrite !dropped_read by lia.
    rewrite (decide_False (P := i = par i)), decide_False by lia. eapply le_trans; [apply Ho; lia|]. rewrite <- Hpj. apply Ho. lia.
Qed.

Lemma dropped_elems h i : 0 <= i < hlen h -> heap_read_all h ≡ₚ hread h i :: heap_read_all (dropped h i).
Proof. apply drop_perm. Qed.

(** Dropping the last entry of all leaves a heap. *)
Lemma dropped_last h i : heap_ok h -> 0 <= i < hlen h -> i = hlen h - 1 -> heap_ok (dropped h i).
Proof.
  intros (Hn & Ho) Hi ->. split; cbn [dropped hlen set_len]; [lia|]. intros j Hj. destruct (par_bounds j ltac:(lia)) as (Hp & _).
  rewrite !dropped_read by lia. rewrite !decide_False by lia. apply Ho. lia.
Qed.

Lemma rounds_enough h i : 0 <= hlen h < 2 ^ 31 -> 0 <= i -> hlen h <= (i + 1) * 2 ^ Z.of_nat rounds.
Proof. unfold rounds. change (2 ^ Z.of_nat 33) with (2 ^ 33). intros. nia. Qed.

Lemma pop_min_spec h :
  heap_ok h ->
  if hlen h =? 0 then pop_min cmp_of h = Ok (h, None)
  else exists h', pop_min cmp_of h = Ok (h', Some (hread h 0)) /\ heap_ok h' /\ heap_read_all h ≡ₚ hread h 0 :: heap_read_all h'.
Proof.
  intros Hok. pose proof Hok as (Hn & _). unfold pop_min. cbv zeta. destruct (hlen h =? 0) eqn:E0; bools; [done|].
  pose proof (dropped_elems h 0 ltac:(lia)) as He. unfold dropped in He. 
  assert (Es : (hlen h - 1 >? 0) = negb (0 =? hlen h - 1)) by (destruct (Z.eqb_spec 0 (hlen h - 1)), (hlen h - 1 >? 0) eqn:E; bools; try done; lia).
  rewrite Es. fold (dropped h 0) in *. cbn [hlen dropped set_len]. fold (dropped h 0).
  destruct (negb (0 =? hlen h - 1)) eqn:E1; bools.
  - assert (Hd : 0 <= hlen (dropped h 0) < 2 ^ 31) by (cbn [dropped hlen set_len]; lia).
    destruct (sift_down_spec rounds (dropped h 0) 0) as (h' & E2 & _ & E3 & E4);
      [done|cbn [dropped hlen set_len]; lia|by apply rounds_enough|apply dropped_hole_down; [done|lia|lia]|].
    cbn [hlen dropped set_len] in E2. fold (dropped h 0) in E2. rewrite E2. exists h'. split_and!; [done|done|]. by rewrite E4.
  - exists (dropped h 0). split_and!; [done|apply dropped_last; [done|lia|lia]|done].
Qed.

Lemma find_index_spec n h x i :
  0 <= i ->
  match find_index n h x i with
  | Some k => i <= k < i + Z.of_nat n /\ hread h k = x
  | None => forall k, i <= k < i + Z.of_nat n -> hread h k <> x
  end.
Proof.
  revert i. induction n as [|n IH]; intros i Hi; cbn [find_index]; [intros; lia|]. case_decide as E; [split; [lia|done]|].
  specialize (IH (i + 1) ltac:(lia)). destruct (find_index n h x (i + 1)); [split; [lia|apply IH]|]. intros k Hk.
  destruct (decide (k = i)) as [->|]; [done|apply IH; lia].
Qed.

Lemma restore_spec h i :
  heap_ok h -> 0 <= i < hlen h - 1 ->
  exists h', restore cmp_of (dropped h i) i = Ok h' /\ heap_ok h' /\ heap_read_all h' ≡ₚ heap_read_all (dropped h i).
Proof.
  intros Hok Hi. pose proof Hok as (Hn & Ho). unfold restore. cbv zeta.
  assert (Hd : 0 <= hlen (dropped h i) < 2 ^ 31) by (cbn [dropped hlen set_len]; lia).
  assert (Hih : 0 <= i < hlen (dropped h i)) by (cbn [dropped hlen set_len]; lia).
  assert (Hdown : hole_down (dropped h i) i ->
    exists h', sift_down cmp_of rounds (hlen (dropped h i)) (dropped h i) i = Ok h' /\ heap_ok h' /\ heap_read_all h' ≡ₚ heap_read_all (dropped h i)).
  { intros Hhole. destruct (sift_down_spec rounds (dropped h i) i) as (h' & E1 & _ & E3 & E4); [done|done|apply rounds_enough; lia|done|by eexists]. }
  destruct (i =? 0) eqn:E0; bools; [apply Hdown, dropped_hole_down; [done|lia|lia]|].
  destruct (par_bounds i ltac:(lia)) as (Hp & _). fold (par i). unfold cmp_of at 1.
  assert (Hx : hread (dropped h i) i = hread h (hlen h - 1)) by (rewrite dropped_read by lia; by rewrite decide_True).
  assert (Hrp : hread (dropped h i) (par i) = hread h (par i)) by (rewrite dropped_read by lia; by rewrite decide_False by lia).
  rewrite Hx, Hrp. destruct (ord _ _) eqn:Ec.
  - apply Hdown, dropped_hole_down; [done|lia|]. intros _. unfold le. by rewrite Ec.
  - destruct (sift_up_spec rounds (dropped h i) i) as (h' & E1 & _ & E3 & E4); [done|done| | |by eexists].
    + unfold rounds. change (2 ^ Z.of_nat 33) with (2 ^ 33). lia.
    + apply dropped_hole_up; [done|lia|]. by apply le_total.
  - apply Hdown, dropped_hole_down; [done|lia|]. intros _. unfold le. by rewrite Ec.
Qed.

Lemma heap_remove_spec h x :
  heap_ok h ->
  exists h' b, remove cmp_of h x = Ok (h', b) /\ heap_ok h' /\ b = bool_decide (x ∈ heap_read_all h) /\
    if b then heap_read_all h ≡ₚ x :: heap_read_all h' else h' = h.
Proof.
  intros Hok. pose proof Hok as (Hn & Ho). unfold remove. cbv zeta.
  pose proof (find_index_spec (Z.to_nat (hlen h)) h x 0 ltac:(lia)) as Hfind. rewrite Z2Nat.id in Hfind by lia.
  destruct (find_index _ h x 0) as [i|].
  2: { exists h, false. split_and!; [done|done| |done]. symmetry. apply bool_decide_eq_false_2. intros (k & Hk & Hx)%elem_of_elems.
       apply (Hfind k); [lia|done]. }
  destruct Hfind as (Hi & Ex). fold (dropped h i). pose proof (dropped_elems h i ltac:(lia)) as He. rewrite Ex in He.
  assert (Hb : true = bool_decide (x ∈ heap_read_all h)) by (symmetry; apply bool_decide_eq_true_2, elem_of_elems; exists i; split; [lia|done]).
  destruct (negb (i =? hlen h - 1) && (hlen h - 1 >? 0)) eqn:El; bools.
  - destruct (restore_spec h i Hok ltac:(lia)) as (h' & -> & H1 & H2). exists h', true. split_and!; [done|done|done|]. by rewrite H2.
  - exists (dropped h i), true. split_and!; [done| |done|done]. apply dropped_last; [done|lia|].
    apply andb_false_iff in El as [El|El]; bools; lia.
Qed.
End Order.

(** The storage heap is a priority queue: on a heap ordered by a total
    preorder, [push] adds the value to the multiset of elements, [pop_min]
    returns the root, which no element is below, and removes exactly one
    occurrence of it, [remove] deletes one occurrence of its target and reports
    whether there was one; each keeps the heap order, and none runs out of
    rounds. *)
Theorem binary_heap_correct {T} `{!Zeroed T} `{!EqDecision T} (ord : T -> T -> comparison) (h : Heap T) (x : T) :
  (forall a b, ord a b = Lt -> le ord a b) -> (forall a b c, le ord a b -> le ord b c -> le ord a c) ->
  heap_ok ord h -> hlen h < 2 ^ 31 - 1 ->
  (exists h', push (cmp_of ord) h x = Ok h' /\ heap_ok ord h' /\ heap_read_all h' ≡ₚ x :: heap_read_all h) /\
  (if hlen h =? 0 then pop_min (cmp_of ord) h = Ok (h, None) /\ peek h = None
   else exists h' m, pop_min (cmp_of ord) h = Ok (h', Some m) /\ peek h = Some m /\ heap_ok ord h' /\
     heap_read_all h ≡ₚ m :: heap_read_all h' /\ forall y, y ∈ heap_read_all h -> le ord m y) /\
  (exists h' b, remove (cmp_of ord) h x = Ok (h', b) /\ heap_ok ord h' /\ b = bool_decide (x ∈ heap_read_all h) /\
    if b then heap_read_all h ≡ₚ x :: heap_read_all h' else h' = h).
Proof.
  intros Ht Htr Hok Hf. split_and!; [by apply push_spec| |by apply heap_remove_spec].
  pose proof (pop_min_spec ord Ht Htr h Hok) as Hp. unfold peek. destruct (hlen h =? 0); [done|].
  destruct Hp as (h' & E & Hok' & He). exists h', (hread h 0). split_and!; [done|done|done|done|].
  intros y (k & Hk & <-)%elem_of_elems. by apply root_min.
Qed.

Definition sample_heap : Heap Z := mkHeap 4 (<[0 := 2]> (<[1 := 7]> (<[2 := 5]> (<[3 := 9]> ∅)))).

Lemma binary_heap_correct_witness :
  exists h', pop_min (cmp_of Z.compare) sample_heap = Ok (h', Some 2) /\ heap_ok Z.compare h' /\
    heap_read_all h' = [5; 7; 9].
Proof.
  destruct (binary_heap_correct Z.compare sample_heap 4) as (_ & Hp & _).
  - intros a b H. unfold le. rewrite Z.compare_lt_iff in *. lia.
  - intros a b c. unfold le. rewrite !Z.compare_lt_iff. lia.
  - split; [cbn; lia|]. intros i Hi. cbn in Hi. assert (Hc : i = 1 \/ i = 2 \/ i = 3) by lia.
    destruct Hc as [->|[->| ->]]; vm_compute; discriminate.
  - reflexivity.
  - destruct Hp as (h' & m & E & Hm & Hok' & _). injection Hm as <-. exists h'. split; [exact E|]. split; [exact Hok'|].
    assert (Ev : pop_min (cmp_of Z.compare) sample_heap = Ok (mkHeap 3 (<[2 := 9]> (<[0 := 5]> (<[3 := 0]> (<[0 := 9]> (hdata sample_heap))))), Some 2))
      by (vm_compute; reflexivity).
    rewrite E in Ev. injection Ev as ->. vm_compute. reflexivity.
Defined.
