(* ===== verification/Nod.v ===== *)
(** * Nod: the Nod store, its price qualifier and the Nod factory

    [crates/core/nod] and [crates/core/nodfactory], with the proof-of-work gate of
    [crates/core/common/src/pow.rs]. Nods are grouped in buckets by (worldwide
    day, floor price); an unqualified bucket is parked in the price bin of its
    floor price, and the begin-block hook walks the bins up to the bin of the
    oracle rate. Storage keys are hashes of their parts, as in the code. Calls to
    the asset and the vault are parameters; the metadata strings are left out. *)

From S2P Require Import Prelude LbMath BinTree Storage Tokens.

Definition UNLOCK_PERIOD_SECONDS : u64 := 21 * 24 * 60 * 60.
Definition BIN_STEP_BP : Z := 25.
Definition NOD_FACTORY_ADDRESS : Address := 0x1007.

(** ** Data *)

Record NodIssueParams := mkIssue {
  p_owner : Address;
  p_worldwide_day : u32;
  p_league_id : u32;
  p_floor_price_minor : U256;
  p_gratis_load_minor : U256;
  p_entry_price_minor : U256;
  p_cost_amount_minor : U256;
  p_issuance_currency : Z;
  p_reference_currency : Z
}.

Record NodItemState := mkItem {
  nod_id : U256;
  owner : Address;
  gratis_load_minor : U256;
  worldwide_day : u32;
  league_id : u32;
  floor_price_minor : U256;
  item_bucket_key : B256;
  cost_amount_minor : U256;
  issuance_currency : Z;
  unlocks_at : u64;
  reference_currency : Z;
  issued_at : u64
}.

Record NodBucketState := mkBucket {
  bucket_id : B256;
  bucket_day : u32;
  bucket_floor : U256;
  is_qualified : bool;
  total_nods : u64;
  entry_price_minor : U256
}.

#[global] Instance item_record : StorageRecord Z NodItemState :=
  {| rec_key := nod_id; rec_exists := fun i => negb (owner i =? 0); rec_name := "NodItemState" |}.
#[global] Instance bucket_record : StorageRecord Z NodBucketState :=
  {| rec_key := bucket_id; rec_exists := fun b => negb (total_nods b =? 0); rec_name := "NodBucketState" |}.

Inductive NodEvent : Type :=
| NodBucketQualified (bucketKey : B256) (worldwideDay : U256) (floorPriceMinor : U256) (isQualified : bool)
| NodIssued (owner : Address) (nodId worldwideDay leagueId floorPriceMinor gratisLoadMinor entryPriceMinor costAmountMinor : U256)
| GratisMined (owner : Address) (nodId amount : U256).

Record NodContract := mkNod {
  total_supply : u64;
  nod_items : gmap U256 NodItemState;
  nod_buckets : gmap B256 NodBucketState;
  owner_nod_counts : gmap Address u32;
  owner_nod_ids : gmap B256 U256;
  bin_tree_root : U256;
  bin_tree_mid : gmap u32 U256;
  bin_tree_leaf : gmap u32 U256;
  unqualified_bin_count : gmap u32 u32;
  unqualified_bin_buckets : gmap B256 B256;
  global_nod_ids : SVec U256;
  global_nod_index : gmap U256 u32;
  nod_logs : list NodEvent
}.

Definition set_total_supply (n : NodContract) (v : u64) : NodContract := {| n with total_supply := v |}.
Definition set_nod_items (n : NodContract) (v : gmap U256 NodItemState) : NodContract := {| n with nod_items := v |}.
Definition set_nod_buckets (n : NodContract) (v : gmap B256 NodBucketState) : NodContract := {| n with nod_buckets := v |}.
Definition wr_owner_nod_counts (n : NodContract) (k : Address) (v : u32) : NodContract :=
  {| n with owner_nod_counts := <[k := v]> (owner_nod_counts n) |}.
Definition wr_owner_nod_ids (n : NodContract) (k : B256) (v : U256) : NodContract :=
  {| n with owner_nod_ids := <[k := v]> (owner_nod_ids n) |}.
Definition set_bin_tree_root (n : NodContract) (v : U256) : NodContract := {| n with bin_tree_root := v |}.
Definition wr_bin_tree_mid (n : NodContract) (k : u32) (v : U256) : NodContract :=
  {| n with bin_tree_mid := <[k := v]> (bin_tree_mid n) |}.
Definition wr_bin_tree_leaf (n : NodContract) (k : u32) (v : U256) : NodContract :=
  {| n with bin_tree_leaf := <[k := v]> (bin_tree_leaf n) |}.
Definition wr_bin_count (n : NodContract) (k v : u32) : NodContract :=
  {| n with unqualified_bin_count := <[k := v]> (unqualified_bin_count n) |}.
Definition wr_bin_bucket (n : NodContract) (k v : B256) : NodContract :=
  {| n with unqualified_bin_buckets := <[k := v]> (unqualified_bin_buckets n) |}.
Definition set_global_nod_ids (n : NodContract) (v : SVec U256) : NodContract := {| n with global_nod_ids := v |}.
Definition wr_global_nod_index (n : NodContract) (k : U256) (v : u32) : NodContract :=
  {| n with global_nod_index := <[k := v]> (global_nod_index n) |}.
Definition nod_emit (n : NodContract) (e : NodEvent) : NodContract := {| n with nod_logs := nod_logs n ++ [e] |}.

#[global] Instance nod_tree_storage : BinTreeStorage NodContract := {|
  read_root := bin_tree_root;
  write_root := set_bin_tree_root;
  read_mid n k := rd (bin_tree_mid n) k;
  write_mid := wr_bin_tree_mid;
  read_leaf n k := rd (bin_tree_leaf n) k;
  write_leaf := wr_bin_tree_leaf
|}.

#[global] Instance nod_tree_laws : BinTreeLaws NodContract.
Proof. split; intros; try done; apply rd_insert. Qed.

(** [From<NodError>] and [From<NodFactoryError>]: the message of the error. *)
Definition NodNotFound : PrecompileError := Revert "nod not found".
Definition BucketNotFound : PrecompileError := Revert "bucket not found".
Definition IndexOutOfBounds : PrecompileError := Revert "index out of bounds".

Section Nod.
Context `{Crypto}.

(** ** Keys *)

Definition bucket_key (worldwide_day : u32) (floor_price_minor : U256) : B256 :=
  keccak256 (be_bytes 4 worldwide_day ++ be_bytes 32 floor_price_minor).

(** The ASCII bytes of [b"nod"]. *)
Definition NOD_TAG : list Z := [110; 111; 100].

Definition generate_nod_id (owner : Address) (worldwide_day : u32) : U256 :=
  keccak256 (NOD_TAG ++ be_bytes 20 owner ++ be_bytes 4 worldwide_day).

Definition owner_index_key (owner : Address) (index : u32) : B256 :=
  keccak256 (be_bytes 20 owner ++ be_bytes 4 index).

Definition bin_index_key (bin_id index : u32) : B256 :=
  keccak256 (be_bytes 4 bin_id ++ be_bytes 4 index).

(** ** Views *)

Definition get_item (n : NodContract) (id : U256) : option NodItemState := rget (nod_items n) id.
Definition get_bucket (n : NodContract) (k : B256) : option NodBucketState := rget (nod_buckets n) k.

Definition owner_of (n : NodContract) (id : U256) : res Address :=
  let? item := ok_or (get_item n id) NodNotFound in Ok (owner item).

Definition get_nods_by_owner (n : NodContract) (o : Address) : list U256 :=
  (fun i => rd (owner_nod_ids n) (owner_index_key o i)) <$> seqZ 0 (rd (owner_nod_counts n) o).

Definition get_nod_by_owner_idx (n : NodContract) (o : Address) (index : u32) : res U256 :=
  let count := rd (owner_nod_counts n) o in
  ensure negb (index >=? count) else IndexOutOfBounds in
  Ok (rd (owner_nod_ids n) (owner_index_key o index)).

Definition get_nods_count_by_owner (n : NodContract) (o : Address) : u32 := rd (owner_nod_counts n) o.

Definition get_nod_data (n : NodContract) (id : U256) : res (NodItemState * NodBucketState) :=
  let? item := ok_or (get_item n id) NodNotFound in
  let bucket_key := bucket_key (worldwide_day item) (floor_price_minor item) in
  let? bucket := ok_or (get_bucket n bucket_key) NodNotFound in
  Ok (item, bucket).

(** ** The price ladder *)

Definition price_to_bin (price_minor : U256) : res u32 :=
  if price_minor =? 0 then Ok 0 else
  let? p_128x128 := convert_decimal_price_to_128x128 price_minor in
  get_id_from_price p_128x128 BIN_STEP_BP.

Definition bin_to_price_floor (bin_id : u32) : res U256 :=
  let? p_128x128 := get_price_from_id bin_id BIN_STEP_BP in
  convert_128x128_price_to_decimal p_128x128.

Definition read_bin_buckets (n : NodContract) (bin_id : u32) : list B256 :=
  filter (fun bk => bk <> 0)
    ((fun i => rd (unqualified_bin_buckets n) (bin_index_key bin_id i)) <$> seqZ 0 (rd (unqualified_bin_count n) bin_id)).

Definition insert_unqualified (n : NodContract) (bucket_key : B256) (floor_price : U256) : res NodContract :=
  let? bin_id := price_to_bin floor_price in
  let count := rd (unqualified_bin_count n) bin_id in
  let n := wr_bin_bucket n (bin_index_key bin_id count) bucket_key in
  let n := wr_bin_count n bin_id (wadd 32 count 1) in
  Ok (fst (add n bin_id)).

(** ** Nod storage *)

(** The search loop of [compact_owner_index]. *)
Fixpoint find_owner_slot (k : nat) (n : NodContract) (o : Address) (id : U256) (i : u32) : option u32 :=
  match k with
  | O => None
  | S k => if rd (owner_nod_ids n) (owner_index_key o i) =? id then Some i else find_owner_slot k n o id (i + 1)
  end.

Definition compact_owner_index (n : NodContract) (o : Address) (id : U256) : res NodContract :=
  let count := rd (owner_nod_counts n) o in
  let? last := ok_or (checked_sub count 1) NodNotFound in
  let? idx := ok_or (find_owner_slot (Z.to_nat count) n o id 0) NodNotFound in
  let last_key := owner_index_key o last in
  let n :=
    if negb (idx =? last) then
      let last_id := rd (owner_nod_ids n) last_key in
      wr_owner_nod_ids n (owner_index_key o idx) last_id
    else n in
  let n := wr_owner_nod_ids n last_key 0 in
  Ok (wr_owner_nod_counts n o last).

Definition set_qualified (n : NodContract) (k : B256) (q : bool) : res NodContract :=
  match get_bucket n k with
  | Some state =>
      let? b := rupdate (nod_buckets n) {| state with is_qualified := q |} in
      Ok (set_nod_buckets n b)
  | None => Ok n
  end.

(** The bucket bookkeeping of [add_nod]. *)
Definition add_to_bucket (n : NodContract) (item : NodItemState) (entry_price_minor : U256) : res NodContract :=
  match get_bucket n (item_bucket_key item) with
  | Some bucket =>
      let? b := rupdate (nod_buckets n) {| bucket with total_nods := saturating_add 64 (total_nods bucket) 1 |} in
      Ok (set_nod_buckets n b)
  | None =>
      let? b := rcreate (nod_buckets n)
        (mkBucket (item_bucket_key item) (worldwide_day item) (floor_price_minor item) false 1 entry_price_minor) in
      insert_unqualified (set_nod_buckets n b) (item_bucket_key item) (floor_price_minor item)
  end.

Definition add_nod (n : NodContract) (item : NodItemState) (entry_price_minor : U256) : res NodContract :=
  let? items := rcreate (nod_items n) item in
  let n := set_nod_items n items in
  let? n := add_to_bucket n item entry_price_minor in
  let oc := rd (owner_nod_counts n) (owner item) in
  let n := wr_owner_nod_ids n (owner_index_key (owner item) oc) (nod_id item) in
  let n := wr_owner_nod_counts n (owner item) (wadd 32 oc 1) in
  let idx := vlen (global_nod_ids n) in
  let n := set_global_nod_ids n (vec_push (global_nod_ids n) (nod_id item)) in
  let n := wr_global_nod_index n (nod_id item) idx in
  let supply := total_supply n in
  Ok (set_total_supply n (wadd 64 supply 1)).

(** The bucket bookkeeping of [remove_nod]. *)
Definition remove_from_bucket (n : NodContract) (item : NodItemState) : res NodContract :=
  match get_bucket n (item_bucket_key item) with
  | Some bucket =>
      let bucket := {| bucket with total_nods := saturating_sub (total_nods bucket) 1 |} in
      if total_nods bucket =? 0 then Ok (set_nod_buckets n (rdelete (nod_buckets n) (item_bucket_key item)))
      else
        let? b := rupdate (nod_buckets n) bucket in
        Ok (set_nod_buckets n b)
  | None => Err BucketNotFound
  end.

(** The swap-and-pop of [remove_nod] on the global enumeration. *)
Definition unlist_nod (n : NodContract) (id : U256) : res NodContract :=
  let idx := rd (global_nod_index n) id in
  let? last := ok_or (checked_sub (vlen (global_nod_ids n)) 1) NodNotFound in
  let? n :=
    if negb (idx =? last) then
      let? last_id := ok_or (vec_get (global_nod_ids n) last) NodNotFound in
      let? v := vec_set (global_nod_ids n) idx last_id in
      Ok (wr_global_nod_index (set_global_nod_ids n v) last_id idx)
    else Ok n in
  let n := set_global_nod_ids n (fst (vec_pop (global_nod_ids n))) in
  Ok (wr_global_nod_index n id 0).

Definition remove_nod (n : NodContract) (item : NodItemState) : res NodContract :=
  let n := set_nod_items n (rdelete (nod_items n) (nod_id item)) in
  let? n := unlist_nod n (nod_id item) in
  let? n := compact_owner_index n (owner item) (nod_id item) in
  let? n := remove_from_bucket n item in
  let supply := total_supply n in
  Ok (if supply >? 0 then set_total_supply n (supply - 1) else n).

(** ** The price qualifier *)

Definition qualify_bucket (n : NodContract) (worldwide_day : u32) (floor_price_minor : U256) : res NodContract :=
  let k := bucket_key worldwide_day floor_price_minor in
  let? bucket := ok_or (get_bucket n k) (Revert "qualify_bucket: bucket missing") in
  let bucket := {| bucket with is_qualified := true |} in
  let? b := rupdate (nod_buckets n) bucket in
  let n := set_nod_buckets n b in
  Ok (nod_emit n (NodBucketQualified k worldwide_day floor_price_minor true)).

(** One bucket key of a bin: qualify it, keep it as a survivor or skip it. *)
Definition qualify_entry (rate : U256) (strict : bool) (bin_id : u32)
    (acc : NodContract * list B256) (i : u32) : res (NodContract * list B256) :=
  let '(n, survivors) := acc in
  let k := rd (unqualified_bin_buckets n) (bin_index_key bin_id i) in
  if k =? 0 then Ok (n, survivors) else
  match get_bucket n k with
  | Some b =>
      if is_qualified b then Ok (n, survivors)
      else if negb strict && (bucket_floor b >? rate) then Ok (n, survivors ++ [k])
      else let? n := qualify_bucket n (bucket_day b) (bucket_floor b) in Ok (n, survivors)
  | None => Ok (n, survivors)
  end.

Definition clear_entries (bin_id : u32) (n : NodContract) (l : list u32) : NodContract :=
  foldl (fun n i => wr_bin_bucket n (bin_index_key bin_id i) 0) n l.

(** Drain an exhausted bin, or compact the survivors to its front. *)
Definition settle_bin (bin_id count : u32) (n : NodContract) (survivors : list B256) : NodContract :=
  match survivors with
  | [] =>
      let n := clear_entries bin_id n (seqZ 0 count) in
      let n := wr_bin_count n bin_id 0 in
      fst (remove n bin_id)
  | _ =>
      let n := foldl (fun n '(i, k) => wr_bin_bucket n (bin_index_key bin_id i) k) n
                 (zip (seqZ 0 (Z.of_nat (length survivors))) survivors) in
      let len := Z.of_nat (length survivors) in
      let n := clear_entries bin_id n (seqZ len (count - len)) in
      wr_bin_count n bin_id len
  end.

(** One turn of the walk over the set bins. *)
Definition qualify_step (rate : U256) (r_bin : u32) (s : NodContract * u32) : (NodContract * u32) + res NodContract :=
  let '(n, cursor) := s in
  match find_first_left_inclusive n cursor with
  | Some next =>
      if next <=? r_bin then
        let strict := next <? r_bin in
        let count := rd (unqualified_bin_count n) next in
        match foldM (qualify_entry rate strict next) (n, []) (seqZ 0 count) with
        | Ok (n, survivors) =>
            let n := settle_bin next count n survivors in
            match checked_add 32 next 1 with
            | Some c => if c <=? MAX_BIN_ID then inl (n, c) else inr (Ok n)
            | None => inr (Ok n)
            end
        | Err e => inr (Err e)
        end
      else inr (Ok n)
  | None => inr (Ok n)
  end.

(** A cursor is a bin id and only grows, so [2^24] turns are enough. *)
Definition qualify_fuel : positive := 16777217.

Definition qualify_buckets_with_rate (n : NodContract) (rate : U256) : res NodContract :=
  if rate =? 0 then Ok n else
  let? r_bin := price_to_bin rate in
  match loopP qualify_fuel (qualify_step rate r_bin) (n, 0) with
  | inr r => r
  | inl _ => Err (Fatal "unreachable")
  end.
End Nod.

(** ** Proof of work *)

Definition POW_DIFFICULTY : nat := 1.

Inductive PowError : Type := NonceExceedsUint64Range | InsufficientProofOfWork.

Section Factory.
Context `{Crypto}.

Definition compute_pow_hash (id nonce : U256) : result PowError (list Z) :=
  ensure negb (nonce >? MAX_U64) else NonceExceedsUint64Range in
  let nonce_bytes := be_bytes 8 nonce in
  let id_str := hex_encode (be_bytes 32 id) in
  Ok (sha256 (id_str ++ nonce_bytes)).

Definition validate_pow (id nonce : U256) : result PowError unit :=
  let? hash := compute_pow_hash id nonce in
  foldM (fun _ byte => ensure negb (negb (byte =? 0)) else InsufficientProofOfWork in Ok tt) tt (take POW_DIFFICULTY hash).

(** ** The Nod factory *)

(** [From<PowError> for NodFactoryError], then its message. *)
Definition pow_error (e : PowError) : PrecompileError :=
  match e with
  | NonceExceedsUint64Range => Revert "nonce exceeds uint64 range"
  | InsufficientProofOfWork => Revert "insufficient proof of work"
  end.

(** The calls the factory makes to the asset and the vault. *)
Inductive ExtCall : Type :=
| TransferFrom (from to : Address) (amount : U256)
| Approve (spender : Address) (amount : U256)
| DepositLiquidity (asset : Address) (assetsAmount : U256).

Record NodWorld := mkNodWorld { nw_nod : NodContract; nw_gratis : Gratis.Gratis }.

Definition issue_nod (w : NodWorld) (now : u64) (params : NodIssueParams) : res (NodWorld * U256) :=
  ensure negb (p_owner params =? 0) else Revert "invalid owner" in
  let id := generate_nod_id (p_owner params) (p_worldwide_day params) in
  ensure negb (bool_decide (is_Some (get_item (nw_nod w) id))) else Revert "nod already exists" in
  let key := bucket_key (p_worldwide_day params) (p_floor_price_minor params) in
  let issued_at := now in
  let? unlocks_at := ok_or (checked_add 64 issued_at UNLOCK_PERIOD_SECONDS) (Revert "nod is locked until unlocks_at") in
  let item := mkItem id (p_owner params) (p_gratis_load_minor params) (p_worldwide_day params) (p_league_id params)
    (p_floor_price_minor params) key (p_cost_amount_minor params) (p_issuance_currency params) unlocks_at
    (p_reference_currency params) issued_at in
  let? n := add_nod (nw_nod w) item (p_entry_price_minor params) in
  let n := nod_emit n (NodIssued (p_owner params) id (p_worldwide_day params) (p_league_id params)
    (p_floor_price_minor params) (p_gratis_load_minor params) (p_entry_price_minor params) (p_cost_amount_minor params)) in
  Ok (mkNodWorld n (nw_gratis w), id).

Section Mine.
(** A call to another contract, which may change anything or fail. *)
Variable call : NodWorld -> Address -> ExtCall -> res NodWorld.

(** The payment of the cost amount into the vault. *)
Definition pay_cost (w : NodWorld) (caller : Address) (cost : U256) (asset vault_provider : Address) : res NodWorld :=
  if negb (cost =? 0) then
    ensure negb (asset =? 0) else Revert "invalid asset" in
    ensure negb (vault_provider =? 0) else Revert "invalid vault provider" in
    let? w := call w asset (TransferFrom caller NOD_FACTORY_ADDRESS cost) in
    let? w := call w asset (Approve vault_provider cost) in
    call w vault_provider (DepositLiquidity asset cost)
  else Ok w.

Definition mine_gratis (w : NodWorld) (now : u64) (caller : Address) (id nonce : U256)
    (asset vault_provider : Address) : res (NodWorld * U256) :=
  let? item := ok_or (get_item (nw_nod w) id) NodNotFound in
  ensure caller =? owner item else Revert "not the owner" in
  ensure negb (now <? unlocks_at item) else Revert "nod is locked until unlocks_at" in
  let? _ := match validate_pow id nonce with Ok u => Ok u | Err e => Err (pow_error e) end in
  let? bucket := ok_or (get_bucket (nw_nod w) (item_bucket_key item)) (Revert "nod is not qualified") in
  ensure is_qualified bucket else Revert "nod is not qualified" in
  let? w := pay_cost w caller (cost_amount_minor item) asset vault_provider in
  let? n := remove_nod (nw_nod w) item in
  let? (g, _) := Gratis.mine (nw_gratis w) caller (gratis_load_minor item) in
  Ok (mkNodWorld (nod_emit n (GratisMined caller id (gratis_load_minor item))) g, gratis_load_minor item).
End Mine.
End Factory.

(** ** The price ladder is monotone *)

Lemma base_log2 : log2 (get_base BIN_STEP_BP) = Ok 1225777623746383140503785546597122452.
Proof. vm_compute. reflexivity. Qed.

(** The prices the ladder represents: below [2^128] units of [10^18]. *)
Definition price_fits (p : Z) : Prop := 0 < p /\ p * 2 ^ 128 / PRECISION < 2 ^ 256.

Lemma convert_price p :
  0 < p < 2 ^ 256 ->
  convert_decimal_price_to_128x128 p =
  if p * 2 ^ 128 / PRECISION <? 2 ^ 256 then Ok (p * 2 ^ 128 / PRECISION) else Err (Revert "lb_math: mul_div overflow").
Proof. intros Hp. apply (shift_div_spec p 128 PRECISION); unfold PRECISION; lia. Qed.

Lemma price_scaled p : 0 < p -> 2 <= p * 2 ^ 128 / PRECISION.
Proof. intros Hp. unfold PRECISION. apply Z.div_le_lower_bound; lia. Qed.

Lemma price_to_bin_total p :
  price_fits p -> p < 2 ^ 256 -> exists b, price_to_bin p = Ok b /\ bin b.
Proof.
  intros (Hp & Hf) Hlt. unfold price_to_bin. rewrite (proj2 (Z.eqb_neq p 0)) by lia. rewrite convert_price by lia.
  rewrite (proj2 (Z.ltb_lt _ _)) by done. pose proof (price_scaled p Hp).
  destruct (get_id_total (p * 2 ^ 128 / PRECISION) BIN_STEP_BP _ ltac:(lia) base_log2 ltac:(lia)) as (m & _ & _ & ->).
  eexists. split; [done|]. unfold bin. change MAX_BIN_ID with (2 ^ 24 - 1). lia.
Qed.

Lemma price_to_bin_mono p q a b :
  0 <= p <= q -> q < 2 ^ 256 -> price_to_bin p = Ok a -> price_to_bin q = Ok b -> 0 <= a <= b.
Proof.
  intros Hp Hq. unfold price_to_bin. destruct (p =? 0) eqn:E0; bools.
  - intros [= <-]. destruct (q =? 0) eqn:Eq; bools; [intros [= <-]; lia|]. rewrite convert_price by lia.
    destruct (_ <? 2 ^ 256) eqn:Ef; [bools|discriminate]. pose proof (price_scaled q ltac:(lia)).
    destruct (get_id_total (q * 2 ^ 128 / PRECISION) BIN_STEP_BP _ ltac:(lia) base_log2 ltac:(lia)) as (m & _ & _ & ->).
    intros [= <-]. lia.
  - rewrite (proj2 (Z.eqb_neq q 0)) by lia. rewrite !convert_price by lia.
    destruct (p * 2 ^ 128 / PRECISION <? 2 ^ 256) eqn:Ef; [bools|discriminate].
    destruct (q * 2 ^ 128 / PRECISION <? 2 ^ 256) eqn:Eg; [bools|discriminate].
    pose proof (price_scaled p ltac:(lia)) as Hs. assert (Hm : p * 2 ^ 128 / PRECISION <= q * 2 ^ 128 / PRECISION)
      by (apply Z.div_le_mono; unfold PRECISION; lia).
    intros Ea Eb. split; [|by eapply (get_id_mono _ _ BIN_STEP_BP); [| |exact base_log2| |exact Ea|exact Eb]].
    destruct (get_id_total (p * 2 ^ 128 / PRECISION) BIN_STEP_BP _ ltac:(lia) base_log2 ltac:(lia)) as (m & _ & _ & E). rewrite E in Ea.
    injection Ea as <-. lia.
Qed.

(** ** Parked buckets *)

Section Qualifier.
Context `{KeccakLaws}.
Implicit Types (n : NodContract) (bu : NodBucketState) (B : Z -> list Z).

Lemma app_be_inj k m x y x' y' :
  0 <= x < 256 ^ Z.of_nat k -> 0 <= x' < 256 ^ Z.of_nat k -> 0 <= y < 256 ^ Z.of_nat m -> 0 <= y' < 256 ^ Z.of_nat m ->
  keccak256 (be_bytes k x ++ be_bytes m y) = keccak256 (be_bytes k x' ++ be_bytes m y') -> x = x' /\ y = y'.
Proof.
  intros Hx Hx' Hy Hy' E. apply keccak_inj in E.
  - apply app_inj_1 in E as [E1 E2]; [|by rewrite !length_be_bytes]. split; by eapply be_bytes_inj.
  - apply Forall_app; split; apply bytes_be.
  - apply Forall_app; split; apply bytes_be.
Qed.

Lemma bin_index_key_inj b i b' i' :
  0 <= b < 2 ^ 32 -> 0 <= i < 2 ^ 32 -> 0 <= b' < 2 ^ 32 -> 0 <= i' < 2 ^ 32 ->
  bin_index_key b i = bin_index_key b' i' -> b = b' /\ i = i'.
Proof. intros. eapply (app_be_inj 4 4); [..|done]; done. Qed.

(** The stored key, and whether the hook would leave the bucket parked. *)
Definition slot (n : NodContract) (b i : Z) : Z := rd (unqualified_bin_buckets n) (bin_index_key b i).

Definition promote (p : bool) (bu : NodBucketState) : NodBucketState := {| bu with is_qualified := is_qualified bu || p |}.

Definition ripe (rate : Z) (strict : bool) (bu : NodBucketState) : bool := strict || (bucket_floor bu <=? rate).

Definition survives (rate : Z) (strict : bool) (bs : gmap Z NodBucketState) (k : Z) : bool :=
  match rget bs k with
  | Some bu => negb (is_qualified bu) && negb (ripe rate strict bu)
  | None => false
  end.

(** Every bucket is stored under the hash of its day and floor price. *)
Definition keys_ok (bs : gmap Z NodBucketState) : Prop :=
  forall k bu, rget bs k = Some bu ->
    k = bucket_key (bucket_day bu) (bucket_floor bu) /\ bucket_id bu = k /\ 0 <= bucket_floor bu < 2 ^ 256.

Definition with_buckets (n : NodContract) (bs : gmap Z NodBucketState) (l : list NodEvent) : NodContract :=
  {| n with nod_buckets := bs; nod_logs := l |}.

Definition promoted (f : Z -> NodBucketState -> bool) (bs bs' : gmap Z NodBucketState) : Prop :=
  forall k, rget bs' k = (fun bu => promote (f k bu) bu) <$> rget bs k.

Lemma promote_false bu : promote false bu = bu.
Proof. unfold promote. rewrite orb_false_r. by destruct bu. Qed.

Lemma promote_qualified p bu : is_qualified bu = true -> promote p bu = bu.
Proof. intros E. unfold promote. rewrite E. cbn [orb]. rewrite <- E. by destruct bu. Qed.

Lemma promote_promote p q bu : promote p (promote q bu) = promote (q || p) bu.
Proof. unfold promote. cbn. by rewrite <- orb_assoc. Qed.

Lemma keys_ok_promoted f bs bs' : keys_ok bs -> promoted f bs bs' -> keys_ok bs'.
Proof.
  intros Hk Hp k bu E. rewrite Hp in E. destruct (rget bs k) as [bu0|] eqn:E0; [|done]. injection E as <-. exact (Hk k bu0 E0).
Qed.

Lemma keys_ok_zero bs : keys_ok bs -> rget bs 0 = None.
Proof.
  intros Hk. destruct (rget bs 0) as [bu|] eqn:E; [|done]. destruct (Hk 0 bu E) as (E0 & _). exfalso.
  symmetry in E0. revert E0. apply keccak_nonzero, Forall_app. split; apply bytes_be.
Qed.

(** A single entry of a bin. *)
Lemma qualify_entry_spec rate strict b n bs l sv i :
  keys_ok bs ->
  exists bs' l',
    qualify_entry rate strict b (with_buckets n bs l, sv) i =
      Ok (with_buckets n bs' l', sv ++ if survives rate strict bs (slot n b i) then [slot n b i] else []) /\
    promoted (fun k bu => bool_decide (k = slot n b i) && ripe rate strict bu) bs bs'.
Proof.
  intros Hk. unfold qualify_entry, survives, get_bucket. cbn [with_buckets unqualified_bin_buckets nod_buckets].
  fold (slot n b i). set (k := slot n b i). set (f := fun k' bu => bool_decide (k' = k) && ripe rate strict bu).
  assert (Hsame : (forall bu, rget bs k = Some bu -> promote (ripe rate strict bu) bu = bu) -> promoted f bs bs).
  { intros Hs k'. unfold f. destruct (rget bs k') as [bu|] eqn:E; [|done]. cbn. f_equal. case_bool_decide; cbn [andb].
    - subst k'. symmetry. by apply Hs.
    - by rewrite promote_false. }
  destruct (k =? 0) eqn:E0; bools.
  { rewrite E0, (keys_ok_zero bs Hk), app_nil_r in *. exists bs, l. split; [done|]. apply Hsame. intros bu E. congruence. }
  destruct (rget bs k) as [bu|] eqn:E.
  2: { rewrite app_nil_r. exists bs, l. split; [done|]. apply Hsame. congruence. }
  destruct (is_qualified bu) eqn:Eq; cbn [negb andb].
  { rewrite app_nil_r. exists bs, l. split; [done|]. apply Hsame. intros ? [= <-]. by apply promote_qualified. }
  assert (Er : negb strict && (bucket_floor bu >? rate) = negb (ripe rate strict bu))
    by (unfold ripe; rewrite Z.gtb_ltb, Z.ltb_antisym; by destruct strict, (bucket_floor bu <=? rate)).
  rewrite Er. destruct (ripe rate strict bu) eqn:Erp; cbn [negb].
  2: { exists bs, l. split; [done|]. apply Hsame. intros ? [= <-]. rewrite Erp. apply promote_false. }
  destruct (Hk k bu E) as (Ek & Eid & _). unfold qualify_bucket, get_bucket. cbn [with_buckets nod_buckets]. rewrite <- Ek, E. cbn [ok_or].
  assert (Eu : rupdate bs {| bu with is_qualified := true |} = Ok (<[k := {| bu with is_qualified := true |}]> bs)).
  { rewrite (rupdate_Ok bs _ bu); cbn; by rewrite Eid. }
  rewrite Eu, app_nil_r.
  exists (<[k := {| bu with is_qualified := true |}]> bs), (l ++ [NodBucketQualified k (bucket_day bu) (bucket_floor bu) true]).
  split; [reflexivity|]. intros k'. unfold f. destruct (decide (k = k')) as [<-|Hne].
  - rewrite rget_insert_eq, E. pose proof (rget_exists bs k bu E) as Hex.
    cbn in Hex |- *. rewrite Hex, bool_decide_eq_true_2 by done. rewrite Erp. unfold promote. by rewrite orb_true_r.
  - rewrite rget_insert_ne by done. destruct (rget bs k') as [bu'|]; [|done]. cbn. rewrite bool_decide_eq_false_2 by done. by rewrite promote_false.
Qed.

Lemma survives_promoted rate strict x bs bs' k :
  promoted (fun k bu => bool_decide (k = x) && ripe rate strict bu) bs bs' -> survives rate strict bs' k = survives rate strict bs k.
Proof.
  intros Hp. unfold survives. rewrite Hp. destruct (rget bs k) as [bu|]; [|done]. cbn. unfold ripe. cbn.
  destruct strict, (bucket_floor bu <=? rate), (is_qualified bu); cbn; by rewrite ?andb_false_r, ?orb_false_r, ?andb_true_r.
Qed.

(** A whole bin: the ripe buckets are qualified, the others survive in order. *)
Lemma qualify_entries_spec rate strict b n l0 bs l sv :
  keys_ok bs ->
  exists bs' l',
    foldM (qualify_entry rate strict b) (with_buckets n bs l, sv) l0 =
      Ok (with_buckets n bs' l', sv ++ filter (fun k => survives rate strict bs k) (slot n b <$> l0)) /\
    promoted (fun k bu => bool_decide (k ∈ slot n b <$> l0) && ripe rate strict bu) bs bs'.
Proof.
  revert bs l sv. induction l0 as [|i l0 IH]; intros bs l sv Hk.
  - exists bs, l. cbn. rewrite app_nil_r. split; [done|]. intros k. destruct (rget bs k); [|done]. cbn. by rewrite promote_false.
  - cbn [foldM]. destruct (qualify_entry_spec rate strict b n bs l sv i Hk) as (bs1 & l1 & -> & Hp1).
    destruct (IH bs1 l1 (sv ++ if survives rate strict bs (slot n b i) then [slot n b i] else [])) as (bs2 & l2 & -> & Hp2);
      [by eapply keys_ok_promoted|]. exists bs2, l2. split.
    + do 2 f_equal. rewrite <- app_assoc. f_equal. cbn [fmap list_fmap]. rewrite filter_cons.
      assert (Ef : filter (fun k => survives rate strict bs1 k) (slot n b <$> l0) = filter (fun k => survives rate strict bs k) (slot n b <$> l0)).
      { apply list_filter_iff. intros k. by rewrite (survives_promoted _ _ _ _ _ _ Hp1). }
      rewrite Ef. destruct (survives rate strict bs (slot n b i)) eqn:Es; [by rewrite decide_True|by rewrite decide_False by (intros [])].
    + intros k. rewrite Hp2, Hp1. destruct (rget bs k) as [bu|]; [|done]. cbn. f_equal. rewrite promote_promote. f_equal.
      unfold ripe. cbn. destruct (strict || _); rewrite ?andb_false_r, ?andb_true_r; [|done].
      destruct (decide (k = slot n b i)) as [->|].
      * rewrite bool_decide_eq_true_2 by done. cbn [orb]. symmetry. apply bool_decide_eq_true_2. left.
      * rewrite bool_decide_eq_false_2 by done. cbn [orb]. apply bool_decide_ext. rewrite elem_of_cons. naive_solver.
Qed.

(** ** Rewriting a bin *)

Definition with_slots (n : NodContract) (m : gmap Z Z) : NodContract := {| n with unqualified_bin_buckets := m |}.

Definition idx (i : Z) : Prop := 0 <= i < 2 ^ 32.

Lemma slot_write n b i k b' i' :
  idx b -> idx i -> idx b' -> idx i' ->
  slot (wr_bin_bucket n (bin_index_key b i) k) b' i' = if decide (b = b' /\ i = i') then k else slot n b' i'.
Proof.
  intros Hb Hi Hb' Hi'. unfold slot, wr_bin_bucket. cbn [unqualified_bin_buckets]. rewrite rd_insert.
  destruct (decide (bin_index_key b i = bin_index_key b' i')) as [E|E].
  - apply bin_index_key_inj in E as [-> ->]; [|done..]. by rewrite decide_True.
  - rewrite decide_False; [done|]. by intros [-> ->].
Qed.

Lemma clear_entries_spec b l n :
  idx b -> Forall idx l ->
  (exists m, clear_entries b n l = with_slots n m) /\
  forall b' i', idx b' -> idx i' -> slot (clear_entries b n l) b' i' = if decide (b = b' /\ i' ∈ l) then 0 else slot n b' i'.
Proof.
  intros Hb. revert n. induction l as [|i l IH]; intros n Hl.
  - split; [exists (unqualified_bin_buckets n); by destruct n|]. intros b' i' _ _. rewrite decide_False; [done|]. intros [_ Hin]. by apply not_elem_of_nil in Hin.
  - apply Forall_cons in Hl as [Hi Hl]. destruct (IH (wr_bin_bucket n (bin_index_key b i) 0) Hl) as ((m & E) & Hs). split.
    + exists m. exact E.
    + intros b' i' Hb' Hi'. unfold clear_entries in *. cbn [foldl]. rewrite Hs, slot_write by done.
      destruct (decide (b = b' /\ i' ∈ l)) as [[-> Hin]|Hn1].
      * rewrite decide_True; [done|]. split; [done|by right].
      * destruct (decide (b = b' /\ i = i')) as [[-> ->]|Hn2]; [rewrite decide_True; [done|]; split; [done|left]|].
        rewrite decide_False; [done|]. intros [-> [->|Hin]%elem_of_cons]; [by apply Hn2|by apply Hn1].
Qed.

Lemma write_survivors_spec b sv a n :
  idx b -> 0 <= a -> a + Z.of_nat (length sv) < 2 ^ 32 ->
  let n' := foldl (fun n '(i, k) => wr_bin_bucket n (bin_index_key b i) k) n (zip (seqZ a (Z.of_nat (length sv))) sv) in
  (exists m, n' = with_slots n m) /\
  (forall b' i', idx b' -> idx i' -> b <> b' -> slot n' b' i' = slot n b' i') /\
  (forall i, 0 <= i < a -> slot n' b i = slot n b i) /\
  forall j k, sv !! j = Some k -> slot n' b (a + Z.of_nat j) = k.
Proof.
  intros Hb. revert a n. induction sv as [|k0 sv IH]; intros a n Ha Hlen n'.
  - split_and!; [exists (unqualified_bin_buckets n); by destruct n|done|done|done].
  - cbn [length] in Hlen. assert (Ez : zip (seqZ a (Z.of_nat (length (k0 :: sv)))) (k0 :: sv) = (a, k0) :: zip (seqZ (a + 1) (Z.of_nat (length sv))) sv).
    { rewrite seqZ_cons by (cbn [length]; lia). cbn [zip_with length]. do 2 f_equal. f_equal; lia. }
    unfold n'. rewrite Ez. cbn [foldl]. clear n' Ez. destruct (IH (a + 1) (wr_bin_bucket n (bin_index_key b a) k0)) as ((m & E) & H1 & H2 & H3); [lia|lia|].
    set (n' := foldl _ _ _) in *. clearbody n'. assert (Hia : idx a) by (unfold idx; lia). split_and!.
    + exists m. exact E.
    + intros b' i' Hb' Hi' Hne. rewrite H1 by done. rewrite slot_write by done. rewrite decide_False; [done|]. by intros [-> _].
    + intros i Hi. assert (idx i) by (unfold idx; lia). rewrite H2 by lia. rewrite slot_write by done. rewrite decide_False; [done|]. lia.
    + intros j k Hj. destruct j as [|j].
      * cbn in Hj. injection Hj as <-. rewrite Z.add_0_r, H2 by lia. rewrite slot_write by done. by rewrite decide_True.
      * cbn in Hj. replace (a + Z.of_nat (S j)) with (a + 1 + Z.of_nat j) by lia. by apply H3.
Qed.

(** What the contract holds besides buckets, bins and events. *)
Definition rest (n : NodContract) :=
  (total_supply n, nod_items n, owner_nod_counts n, owner_nod_ids n, global_nod_ids n, global_nod_index n).

(** The bins after [b] was rewritten to hold [sv]. *)
Record settled (b : Z) (sv : list Z) (n n' : NodContract) : Prop := {
  st_buckets : nod_buckets n' = nod_buckets n;
  st_rest : rest n' = rest n;
  st_tree : tree_ok n';
  st_bits : forall b', bin b' -> contains n' b' = if decide (b = b') then negb (bool_decide (sv = [])) else contains n b';
  st_count : forall b', rd (unqualified_bin_count n') b' = if decide (b = b') then Z.of_nat (length sv) else rd (unqualified_bin_count n) b';
  st_other : forall b' i, idx b' -> idx i -> b <> b' -> slot n' b' i = slot n b' i;
  st_slots : forall j k, sv !! j = Some k -> slot n' b (Z.of_nat j) = k
}.

Lemma tree_frame n n' :
  bin_tree_root n' = bin_tree_root n -> bin_tree_mid n' = bin_tree_mid n -> bin_tree_leaf n' = bin_tree_leaf n ->
  (tree_ok n -> tree_ok n') /\ forall b, contains n' b = contains n b.
Proof.
  intros E1 E2 E3. split.
  - intros Hok. eapply tree_ok_ext; [exact Hok|exact E1|intros k; cbn; by rewrite E2|intros k; cbn; by rewrite E3].
  - intros b. unfold contains. cbn. by rewrite E3.
Qed.

(** [remove] on the trie writes nothing else. *)
Lemma remove_frame n b :
  let n' := fst (remove n b) in
  nod_buckets n' = nod_buckets n /\ rest n' = rest n /\ unqualified_bin_count n' = unqualified_bin_count n /\
  unqualified_bin_buckets n' = unqualified_bin_buckets n.
Proof. unfold remove. destruct (split b) as [[t m] l]. repeat case_match; done. Qed.

Lemma settle_bin_spec b count n sv :
  tree_ok n -> bin b -> 0 <= count < 2 ^ 32 -> Z.of_nat (length sv) <= count -> contains n b = true ->
  settled b sv n (settle_bin b count n sv).
Proof.
  intros Hok Hb Hc Hl Hin. assert (Hib : idx b) by (unfold idx, bin in *; lia).
  assert (Hidx : forall a k, 0 <= a -> a + k <= count -> Forall idx (seqZ a k)).
  { intros a k Ha Hk. apply Forall_forall. intros i Hi%elem_of_seqZ. unfold idx. lia. }
  destruct sv as [|k0 sv].
  - cbn [settle_bin]. destruct (clear_entries_spec b (seqZ 0 count) n Hib (Hidx 0 count ltac:(lia) ltac:(lia))) as ((m & E) & Hs).
    set (n1 := wr_bin_count (clear_entries b n (seqZ 0 count)) b 0). destruct (remove_frame n1 b) as (F1 & F2 & F3 & F4).
    assert (Hf : (tree_ok n -> tree_ok n1) /\ forall b, contains n1 b = contains n b) by (apply tree_frame; unfold n1; by rewrite E).
    destruct Hf as (Hok1 & Hc1). destruct (remove_spec n1 b (Hok1 Hok) Hb) as (n2 & E2 & Hok2 & Hbits). rewrite E2 in *. cbn [fst] in *. split.
    + rewrite F1. unfold n1. by rewrite E.
    + rewrite F2. unfold n1. by rewrite E.
    + done.
    + intros b' Hb'. rewrite Hbits, Hc1 by done. case_decide; [subst; by rewrite Z.eqb_refl|]. by rewrite (proj2 (Z.eqb_neq b' b)).
    + intros b'. rewrite F3. unfold n1. rewrite E. cbn [wr_bin_count unqualified_bin_count with_slots]. apply rd_insert.
    + intros b' i Hb' Hi Hne. unfold slot. rewrite F4. change (slot n1 b' i = slot n b' i).
      transitivity (slot (clear_entries b n (seqZ 0 count)) b' i); [done|]. rewrite Hs by done. rewrite decide_False; [done|]. by intros [-> _].
    + done.
  - cbn [settle_bin]. set (sv' := k0 :: sv) in *.
    destruct (write_survivors_spec b sv' 0 n Hib ltac:(lia) ltac:(lia)) as ((m & E) & H1 & _ & H3). set (n1 := foldl _ n _) in *. clearbody n1.
    destruct (clear_entries_spec b (seqZ (Z.of_nat (length sv')) (count - Z.of_nat (length sv'))) n1 Hib) as ((m2 & E2) & Hs); [apply Hidx; lia|].
    set (n2 := clear_entries b n1 _) in *. clearbody n2. subst n1.
    assert (Hf : (tree_ok n -> tree_ok (wr_bin_count n2 b (Z.of_nat (length sv')))) /\ forall b', contains (wr_bin_count n2 b (Z.of_nat (length sv'))) b' = contains n b')
      by (apply tree_frame; by rewrite E2).
    destruct Hf as (Hok1 & Hc1). split.
    + by rewrite E2.
    + by rewrite E2.
    + by apply Hok1.
    + intros b' Hb'. rewrite Hc1. case_decide; [by subst|done].
    + intros b'. rewrite E2. cbn [wr_bin_count unqualified_bin_count with_slots]. apply rd_insert.
    + intros b' i Hb' Hi Hne. transitivity (slot n2 b' i); [done|]. rewrite Hs by done. rewrite decide_False by (by intros [-> _]). by apply H1.
    + intros j k Hj. pose proof (lookup_lt_Some _ _ _ Hj). transitivity (slot n2 b (Z.of_nat j)); [done|]. rewrite Hs by (unfold idx; lia || done).
      rewrite decide_False by (intros [_ Hin'%elem_of_seqZ]; lia). exact (H3 j k Hj).
Qed.

(** ** The walk over the bins *)

(** The bins hold exactly the unqualified buckets, each in the bin of its floor
    price, and the trie marks exactly the bins that hold something. *)
Record parked (n : NodContract) (B : Z -> list Z) : Prop := {
  pk_tree : tree_ok n;
  pk_bits : forall b, bin b -> contains n b = negb (bool_decide (B b = []));
  pk_count : forall b, bin b -> rd (unqualified_bin_count n) b = Z.of_nat (length (B b)) /\ Z.of_nat (length (B b)) < 2 ^ 32;
  pk_nodup : forall b, bin b -> NoDup (B b);
  pk_slots : forall b i k, bin b -> B b !! i = Some k -> slot n b (Z.of_nat i) = k;
  pk_keys : keys_ok (nod_buckets n);
  pk_sound : forall b k, bin b -> k ∈ B b ->
    exists bu, get_bucket n k = Some bu /\ is_qualified bu = false /\ price_to_bin (bucket_floor bu) = Ok b;
  pk_complete : forall k bu, get_bucket n k = Some bu -> is_qualified bu = false -> exists b, bin b /\ k ∈ B b
}.

Lemma parked_entries n B b : parked n B -> bin b -> slot n b <$> seqZ 0 (rd (unqualified_bin_count n) b) = B b.
Proof.
  intros Hp Hb. destruct (pk_count n B Hp b Hb) as (-> & _). apply list_eq. intros i. rewrite list_lookup_fmap.
  destruct (B b !! i) as [k|] eqn:E.
  - pose proof (lookup_lt_Some _ _ _ E). rewrite lookup_seqZ_lt by lia. cbn. rewrite Z.add_0_l. f_equal. by apply (pk_slots n B Hp).
  - apply lookup_ge_None_1 in E. by rewrite lookup_seqZ_ge by lia.
Qed.

(** How far the walk has come: only ripe buckets are promoted, and every ripe one
    in a bin below the cursor is. *)
Definition progress (rate cursor : Z) (n0 n : NodContract) : Prop :=
  forall k, match get_bucket n0 k with
  | None => get_bucket n k = None
  | Some bu => exists p, get_bucket n k = Some (promote p bu) /\ (p = true -> bucket_floor bu <= rate) /\
      (bucket_floor bu <= rate -> forall b, price_to_bin (bucket_floor bu) = Ok b -> b < cursor -> is_qualified bu || p = true)
  end.

Definition walk_inv (rate r_bin : Z) (n0 : NodContract) (s : NodContract * Z) : Prop :=
  (exists B, parked s.1 B) /\ 0 <= s.2 <= MAX_BIN_ID /\ rest s.1 = rest n0 /\ progress rate s.2 n0 s.1.

Definition walk_post (rate : Z) (n0 : NodContract) (r : res NodContract) : Prop :=
  exists n, r = Ok n /\ (exists B, parked n B) /\ rest n = rest n0 /\
    forall k, get_bucket n k = (fun bu => promote (bucket_floor bu <=? rate) bu) <$> get_bucket n0 k.

(** The bin of an unqualified bucket, and its order against the rate. *)
Lemma parked_bin n B k bu :
  parked n B -> get_bucket n k = Some bu -> is_qualified bu = false ->
  exists b, bin b /\ k ∈ B b /\ price_to_bin (bucket_floor bu) = Ok b /\ contains n b = true /\ 0 <= bucket_floor bu < 2 ^ 256.
Proof.
  intros Hp E Eq. destruct (pk_complete n B Hp k bu E Eq) as (b & Hb & Hin). exists b. split_and!; [done|done| | |..].
  - destruct (pk_sound n B Hp b k Hb Hin) as (bu' & E' & _ & Ep). congruence.
  - rewrite (pk_bits n B Hp b Hb). apply negb_true_iff, bool_decide_eq_false_2. intros Hz. rewrite Hz in Hin. by apply not_elem_of_nil in Hin.
  - destruct (pk_keys n B Hp k bu E) as (_ & _ & Hf). lia.
  - destruct (pk_keys n B Hp k bu E) as (_ & _ & Hf). lia.
Qed.

(** The end of the walk: no set bin from the cursor to the rate's bin is left. *)
Lemma walk_done rate r_bin n0 n cursor :
  price_to_bin rate = Ok r_bin -> 0 < rate < 2 ^ 256 -> (exists B, parked n B) -> rest n = rest n0 -> progress rate cursor n0 n ->
  (forall b, cursor <= b <= r_bin -> bin b -> contains n b = false) -> walk_post rate n0 (Ok n).
Proof.
  intros Hr Hrate (B & Hp) Hrest Hprog Hnone. exists n. split_and!; [done|by exists B|done|]. intros k. specialize (Hprog k).
  destruct (get_bucket n0 k) as [bu|]; [|done]. destruct Hprog as (p & E & H1 & H2). rewrite E. cbn. f_equal.
  destruct (is_qualified bu) eqn:Eq; [by rewrite !promote_qualified|].
  destruct p; [by rewrite (proj2 (Z.leb_le _ _)) by auto|]. destruct (bucket_floor bu <=? rate) eqn:Ef; [|done]. bools. exfalso.
  destruct (parked_bin n B k _ Hp E) as (b & Hb & _ & Epb & Hbit & Hfl); [cbn; by rewrite Eq|]. cbn in Epb, Hfl.
  destruct (price_to_bin_mono _ _ _ _ (conj (proj1 Hfl) Ef) ltac:(lia) Epb Hr) as (_ & Hle).
  destruct (decide (b < cursor)) as [Hlt|Hge].
  - specialize (H2 Ef b Epb Hlt). rewrite ?Eq in H2. discriminate.
  - rewrite Hnone in Hbit by (done || lia). discriminate.
Qed.

(** One bin of the walk: [n] becomes [n2], which holds [sv] in bin [next]. *)
Section OneBin.
Variables (rate r_bin next : Z) (n : NodContract) (B : Z -> list Z).
Hypotheses (Hr : price_to_bin rate = Ok r_bin) (Hrate : 0 < rate < 2 ^ 256) (Hp : parked n B)
  (Hb : bin next) (Hle : next <= r_bin).
Let strict : bool := next <? r_bin.
Let sv : list Z := filter (fun k => survives rate strict (nod_buckets n) k) (B next).

(** In the bins the walk visits the coarse test is the exact one. *)
Lemma ripe_exact k bu :
  k ∈ B next -> get_bucket n k = Some bu -> ripe rate strict bu = (bucket_floor bu <=? rate).
Proof.
  intros Hin Eb. unfold ripe, strict. destruct (next <? r_bin) eqn:Es; [|done]. cbn [orb]. symmetry. apply Z.leb_le. bools.
  destruct (pk_sound n B Hp next k Hb Hin) as (bu' & Eb' & _ & Epb). rewrite Eb in Eb'. injection Eb' as <-. destruct (pk_keys n B Hp k bu Eb) as (_ & _ & Hf).
  destruct (decide (bucket_floor bu <= rate)); [done|].
  destruct (price_to_bin_mono rate (bucket_floor bu) r_bin next) as (_ & Hx); [lia|lia|done|done|lia].
Qed.

Variables (bs' : gmap Z NodBucketState) (l' : list NodEvent) (n2 : NodContract).
Hypotheses (Hprom : promoted (fun k bu => bool_decide (k ∈ B next) && ripe rate strict bu) (nod_buckets n) bs')
  (Hset : settled next sv (with_buckets n bs' l') n2).

Lemma bin_get k :
  get_bucket n2 k = (fun bu => promote (bool_decide (k ∈ B next) && (bucket_floor bu <=? rate)) bu) <$> get_bucket n k.
Proof.
  unfold get_bucket at 1. rewrite (st_buckets _ _ _ _ Hset). cbn [with_buckets nod_buckets]. rewrite Hprom. fold (get_bucket n k).
  destruct (get_bucket n k) as [bu|] eqn:Eb; [|done]. cbn. f_equal.
  destruct (is_qualified bu) eqn:Eq; [by rewrite !promote_qualified|].
  destruct (decide (k ∈ B next)); [|by rewrite !bool_decide_eq_false_2]. rewrite !bool_decide_eq_true_2 by done. by rewrite (ripe_exact k bu).
Qed.

Lemma bin_parked : parked n2 (fun b => if decide (b = next) then sv else B b).
Proof.
  pose proof bin_get as Hget. destruct Hset as [S1 S2 S3 S4 S5 S6 S7]. cbn [with_buckets nod_buckets] in S1. split.
  - done.
  - intros b Hbb. rewrite S4 by done. destruct (decide (next = b)) as [->|]; [by rewrite decide_True|]. rewrite decide_False by done. by apply (pk_bits n B).
  - intros b Hbb. rewrite S5. destruct (decide (next = b)) as [->|].
    + rewrite decide_True by done. split; [done|]. destruct (pk_count n B Hp b Hb) as (_ & Hc).
      assert ((length sv <= length (B b))%nat) by apply length_filter. lia.
    + rewrite decide_False by done. by apply (pk_count n B).
  - intros b Hbb. destruct (decide (b = next)); [apply NoDup_filter|]; by apply (pk_nodup n B).
  - intros b i k Hbb Hi. destruct (decide (b = next)) as [->|]; [by apply S7|]. destruct (pk_count n B Hp b Hbb) as (_ & Hcb).
    pose proof (lookup_lt_Some _ _ _ Hi). rewrite S6 by (unfold idx, bin in *; lia || done). by apply (pk_slots n B Hp).
  - rewrite S1. eapply keys_ok_promoted; [exact (pk_keys n B Hp)|exact Hprom].
  - intros b k Hbb Hin. rewrite Hget. destruct (decide (b = next)) as [->|Hne].
    + apply list_elem_of_filter in Hin as [Hsv Hin]. destruct (pk_sound n B Hp next k Hb Hin) as (bu & Eb & Eq & Epb). rewrite Eb.
      exists (promote false bu). rewrite promote_false. split_and!; [|done|done]. unfold survives in Hsv. fold (get_bucket n k) in Hsv.
      rewrite Eb, Eq, (ripe_exact k bu) in Hsv by done. cbn [negb andb] in Hsv. apply Is_true_true, negb_true_iff in Hsv.
      cbn. by rewrite Hsv, andb_false_r, promote_false.
    + destruct (pk_sound n B Hp b k Hbb Hin) as (bu & Eb & Eq & Epb). rewrite Eb. exists bu. split_and!; [|done|done].
      cbn. rewrite bool_decide_eq_false_2; [by rewrite promote_false|]. intros Hin'.
      destruct (pk_sound n B Hp next k Hb Hin') as (bu' & Eb' & _ & Epb'). congruence.
  - intros k bu Eb Eq. rewrite Hget in Eb. destruct (get_bucket n k) as [bu0|] eqn:E0; [|done]. injection Eb as <-. cbn in Eq.
    apply orb_false_iff in Eq as [Eq0 Ep]. destruct (pk_complete n B Hp k bu0 E0 Eq0) as (b & Hbb & Hin). exists b. split; [done|].
    destruct (decide (b = next)) as [->|]; [|done]. apply list_elem_of_filter. split; [|done]. unfold survives. fold (get_bucket n k).
    rewrite E0, Eq0, (ripe_exact k bu0) by done. rewrite bool_decide_eq_true_2 in Ep by done. cbn [andb] in Ep. by rewrite Ep.
Qed.

Lemma bin_progress n0 cursor :
  progress rate cursor n0 n -> cursor <= next -> (forall j, cursor <= j < next -> contains n j = false) ->
  progress rate (next + 1) n0 n2.
Proof.
  intros Hprog Hcur Hlow k. specialize (Hprog k). destruct (get_bucket n0 k) as [bu|]; [|by rewrite bin_get, Hprog].
  destruct Hprog as (p & E & H1 & H2). rewrite bin_get, E. cbn. rewrite promote_promote. eexists. split; [done|].
  set (q := bool_decide (k ∈ B next) && (bucket_floor bu <=? rate)). split.
  - intros [Hpt|Hq]%orb_prop; [by apply H1|]. unfold q in Hq. apply andb_prop in Hq as [_ Hq]. by apply Z.leb_le.
  - intros Hf b Epb Hlt. destruct (is_qualified bu) eqn:Eq; [done|]. destruct p; [done|]. cbn [orb].
    destruct (parked_bin n B k _ Hp E) as (b' & Hb' & Hin & Epb' & Hbit' & _); [cbn; by rewrite Eq|]. cbn in Epb'.
    rewrite Epb in Epb'. injection Epb' as <-. destruct (decide (b = next)) as [->|].
    + unfold q. rewrite bool_decide_eq_true_2 by done. cbn [andb]. by apply Z.leb_le.
    + exfalso. destruct (decide (b < cursor)) as [Hlc|]; [specialize (H2 Hf b Epb Hlc); cbn in H2; discriminate|].
      rewrite Hlow in Hbit' by lia. discriminate.
Qed.
End OneBin.

Lemma walk_bin rate r_bin n0 n B cursor next :
  price_to_bin rate = Ok r_bin -> 0 < rate < 2 ^ 256 -> parked n B -> rest n = rest n0 -> progress rate cursor n0 n ->
  bin next -> cursor <= next <= r_bin -> contains n next = true -> (forall j, cursor <= j < next -> contains n j = false) ->
  exists n1 sv, foldM (qualify_entry rate (next <? r_bin) next) (n, []) (seqZ 0 (rd (unqualified_bin_count n) next)) = Ok (n1, sv) /\
    let n2 := settle_bin next (rd (unqualified_bin_count n) next) n1 sv in
    (exists B', parked n2 B') /\ rest n2 = rest n0 /\ progress rate (next + 1) n0 n2.
Proof.
  intros Hr Hrate Hp Hrest Hprog Hb Hle Hbit Hlow.
  destruct (qualify_entries_spec rate (next <? r_bin) next n (seqZ 0 (rd (unqualified_bin_count n) next)) (nod_buckets n) (nod_logs n) [] (pk_keys n B Hp))
    as (bs' & l' & E & Hprom). replace (with_buckets n (nod_buckets n) (nod_logs n)) with n in E by (by destruct n).
  rewrite (parked_entries n B next Hp Hb) in E, Hprom. cbn [app] in E. do 2 eexists. split; [exact E|]. cbv zeta. clear E.
  destruct (pk_count n B Hp next Hb) as (Ec & Hc). set (sv := filter _ (B next)).
  assert (Hset : settled next sv (with_buckets n bs' l') (settle_bin next (rd (unqualified_bin_count n) next) (with_buckets n bs' l') sv)).
  { assert (Hf : (tree_ok n -> tree_ok (with_buckets n bs' l')) /\ forall b, contains (with_buckets n bs' l') b = contains n b) by (by apply tree_frame).
    destruct Hf as (Ht & Hcn). apply settle_bin_spec; [by apply Ht, (pk_tree n B)|done|rewrite Ec; lia|rewrite Ec; unfold sv; apply inj_le, length_filter|by rewrite Hcn]. }
  split_and!.
  - eexists. eapply (bin_parked rate r_bin); [exact Hr|exact Hrate|exact Hp|exact Hb|lia|exact Hprom|exact Hset].
  - by rewrite (st_rest _ _ _ _ Hset).
  - eapply (bin_progress rate r_bin); [exact Hr|exact Hrate|exact Hp|exact Hb|exact Hprom|exact Hset|exact Hprog|lia|exact Hlow].
Qed.

Lemma qualify_walk rate r_bin n B :
  price_to_bin rate = Ok r_bin -> 0 < rate < 2 ^ 256 -> parked n B ->
  exists r, loopP qualify_fuel (qualify_step rate r_bin) (n, 0) = inr r /\ walk_post rate n r.
Proof.
  intros Hr Hrate Hp. apply (loopP_total (walk_inv rate r_bin n) (walk_post rate n) (fun s => MAX_BIN_ID - s.2)).
  - intros [n1 cursor] [n2 c2] ((B1 & Hp1) & Hc & Hrest & Hprog) E. cbn [fst snd] in *. unfold qualify_step in E.
    pose proof (find_spec n1 cursor (pk_tree n1 B1 Hp1) ltac:(lia)) as Hfind. destruct (find_first_left_inclusive n1 cursor) as [next|]; [|done].
    destruct Hfind as (H1 & H2 & H3 & H4). destruct (next <=? r_bin) eqn:Enext; [bools|done].
    destruct (walk_bin rate r_bin n n1 B1 cursor next) as (n3 & sv & Ef & Hpost); [done..|lia|done|done|]. rewrite Ef in E.
    unfold checked_add in E. rewrite (proj2 (Z.ltb_lt (next + 1) (2 ^ 32))) in E by (unfold bin in H2; lia).
    destruct (next + 1 <=? MAX_BIN_ID) eqn:Em; [bools|done]. injection E as <- <-. cbv zeta in Hpost. destruct Hpost as (P1 & P2 & P3).
    unfold walk_inv. cbn [fst snd]. split; [split_and!; [done|lia|lia|done|done]|lia].
  - intros [n1 cursor] r ((B1 & Hp1) & Hc & Hrest & Hprog) E. cbn [fst snd] in *. unfold qualify_step in E.
    pose proof (find_spec n1 cursor (pk_tree n1 B1 Hp1) ltac:(lia)) as Hfind. destruct (find_first_left_inclusive n1 cursor) as [next|].
    2: { injection E as <-. eapply walk_done; [exact Hr|exact Hrate|by eauto|done|done|]. intros b Hb Hbin. apply Hfind; [lia|done]. }
    destruct Hfind as (H1 & H2 & H3 & H4). destruct (next <=? r_bin) eqn:Enext; bools.
    2: { injection E as <-. eapply walk_done; [exact Hr|exact Hrate|by eauto|done|done|]. intros b Hb Hbin. apply H4. lia. }
    destruct (walk_bin rate r_bin n n1 B1 cursor next) as (n3 & sv & Ef & Hpost); [done..|lia|done|done|]. rewrite Ef in E.
    unfold checked_add in E. rewrite (proj2 (Z.ltb_lt (next + 1) (2 ^ 32))) in E by (unfold bin in H2; lia).
    destruct (next + 1 <=? MAX_BIN_ID) eqn:Em; [done|bools]. injection E as <-. destruct Hpost as (P1 & P2 & P3).
    eapply walk_done; [exact Hr|exact Hrate|by eauto|done|done|]. intros b Hb Hbin. exfalso. unfold bin in Hbin. change MAX_BIN_ID with (2 ^ 24 - 1) in Em. lia.
  - unfold walk_inv. cbn [fst snd]. split_and!; [by exists B|lia|done|done|]. intros k. destruct (get_bucket n k) as [bu|] eqn:E; [|done].
    exists false. rewrite promote_false. split_and!; [done|done|]. intros Hf b Epb Hb. destruct (is_qualified bu) eqn:Eq; [done|].
    destruct (parked_bin n B k bu Hp E Eq) as (b' & Hb' & _ & Epb' & _). rewrite Epb in Epb'. injection Epb' as <-. unfold bin in Hb'. lia.
  - change MAX_BIN_ID with (2 ^ 24 - 1). unfold qualify_fuel. cbn [snd]. lia.
Qed.

(** The hook promotes exactly the buckets priced at or below the rate. *)
Lemma qualify_spec n B rate :
  parked n B -> 0 <= rate < 2 ^ 256 -> (rate <> 0 -> price_fits rate) ->
  exists n', qualify_buckets_with_rate n rate = Ok n' /\ (exists B', parked n' B') /\ rest n' = rest n /\
    forall k, get_bucket n' k = (fun bu => promote (negb (rate =? 0) && (bucket_floor bu <=? rate)) bu) <$> get_bucket n k.
Proof.
  intros Hp Hrate Hfit. unfold qualify_buckets_with_rate. destruct (rate =? 0) eqn:E0; bools.
  - exists n. split_and!; [done|by exists B|done|]. intros k. cbn [negb andb]. destruct (get_bucket n k); [cbn|done]. by rewrite promote_false.
  - destruct (price_to_bin_total rate (Hfit E0)) as (r & Er & _); [lia|]. rewrite Er.
    destruct (qualify_walk rate r n B Er ltac:(lia) Hp) as (x & -> & n' & -> & HB & Hrest & Hget). by exists n'.
Qed.
End Qualifier.
