(* ===== verification/NodStore.v ===== *)
(** * NodStore: the indexes of the Nod store agree

    The contract of [crates/core/nod/src/state.rs] keeps five views of the issued
    Nods: the items, the global enumeration, the owners' enumerations, the bucket
    totals and the price bins. [stored n L B] says that they all describe the list
    of items [L]; issuing, the price qualifier and mining keep it, with the calls
    mining makes to other contracts constrained only by what mining itself
    guarantees. *)

From S2P Require Import Prelude LbMath BinTree Storage Tokens Nod.

(** Read the fields of a written contract. *)
Ltac nod_fields :=
  cbn [set_total_supply set_nod_items set_nod_buckets wr_global_nod_index set_global_nod_ids wr_owner_nod_counts wr_owner_nod_ids nod_emit
    nod_items global_nod_ids global_nod_index owner_nod_counts owner_nod_ids nod_buckets total_supply].

Section Store.
Context `{KeccakLaws}.
Implicit Types (n : NodContract) (i : NodItemState) (bu : NodBucketState) (B : Z -> list Z).

Definition address (o : Z) : Prop := 0 <= o < 2 ^ 160.

Definition item_ok (i : NodItemState) : Prop :=
  address (owner i) /\ owner i <> 0 /\ 0 <= floor_price_minor i < 2 ^ 256 /\
  item_bucket_key i = bucket_key (worldwide_day i) (floor_price_minor i).

Definition items_of (o : Z) (L : list NodItemState) : list NodItemState := filter (fun i => owner i = o) L.
Definition items_in (k : Z) (L : list NodItemState) : list NodItemState := filter (fun i => item_bucket_key i = k) L.

(** ** The owners' enumerations *)

Definition owner_list (c ids : gmap Z Z) (o : Z) (O : list Z) : Prop :=
  rd c o = Z.of_nat (length O) /\ forall j x, O !! j = Some x -> rd ids (owner_index_key o (Z.of_nat j)) = x.

Definition owner_rep (c ids : gmap Z Z) (L : list NodItemState) : Prop :=
  forall o, address o -> exists O, owner_list c ids o O /\ O ≡ₚ nod_id <$> items_of o L.

Lemma owner_index_key_inj o j o' j' :
  address o -> address o' -> 0 <= j < 2 ^ 32 -> 0 <= j' < 2 ^ 32 -> owner_index_key o j = owner_index_key o' j' -> o = o' /\ j = j'.
Proof. intros. eapply (app_be_inj 20 4); [..|done]; done. Qed.

Lemma owner_list_length O o L : O ≡ₚ nod_id <$> items_of o L -> (length O <= length L)%nat.
Proof. intros E. rewrite E, length_fmap. apply length_filter. Qed.

(** Writing a slot of another owner or past the end changes no enumeration. *)
Lemma owner_list_frame c ids o O o' j x :
  owner_list c ids o O -> address o -> address o' -> 0 <= j < 2 ^ 32 -> Z.of_nat (length O) < 2 ^ 32 ->
  (o <> o' \/ Z.of_nat (length O) <= j) -> owner_list c (<[owner_index_key o' j := x]> ids) o O.
Proof.
  intros [Hc Hs] Ho Ho' Hj Hlen Hd. split; [done|]. intros a y Ha. pose proof (lookup_lt_Some _ _ _ Ha).
  rewrite rd_insert_ne; [by apply Hs|]. intros E. apply owner_index_key_inj in E as [-> E]; [|done..|lia]. destruct Hd; [done|lia].
Qed.

Lemma owner_list_count c ids o O o' v : owner_list c ids o O -> o <> o' -> owner_list (<[o' := v]> c) ids o O.
Proof. intros [Hc Hs] Hne. split; [by rewrite rd_insert_ne|done]. Qed.

Lemma owner_rep_add c ids L i :
  owner_rep c ids L -> address (owner i) -> Z.of_nat (length L) < 2 ^ 32 - 1 ->
  owner_rep (<[owner i := wadd 32 (rd c (owner i)) 1]> c) (<[owner_index_key (owner i) (rd c (owner i)) := nod_id i]> ids) (L ++ [i]).
Proof.
  intros Hr Ho Hlen. destruct (Hr (owner i) Ho) as (Oi & [Hci Hsi] & Epi). pose proof (owner_list_length _ _ _ Epi).
  intros o Haddr. destruct (Hr o Haddr) as (O & Hl & Ep). pose proof (owner_list_length _ _ _ Ep). unfold items_of. rewrite filter_app.
  rewrite wadd_small by (rewrite Hci; lia). destruct (decide (o = owner i)) as [->|Hne].
  - exists (Oi ++ [nod_id i]). split.
    + split; [rewrite rd_insert_eq, length_app, Hci; cbn; lia|]. intros j x Hj. destruct (decide (j < length Oi)%nat).
      * rewrite lookup_app_l in Hj by done. rewrite rd_insert_ne; [by apply Hsi|]. intros E.
        apply owner_index_key_inj in E as [_ E]; [lia|done|done|lia|lia].
      * rewrite lookup_app_r in Hj by lia. apply list_lookup_singleton_Some in Hj as [Hj <-].
        replace (Z.of_nat j) with (rd c (owner i)) by lia. by rewrite rd_insert_eq.
    + rewrite filter_cons_True by done. rewrite filter_nil, fmap_app, Epi. done.
  - exists O. split.
    + apply owner_list_frame; [by apply owner_list_count|done|done|lia|lia|by left].
    + rewrite filter_cons_False by done. by rewrite filter_nil, app_nil_r.
Qed.

(** The search loop. *)
Lemma find_owner_slot_spec n o O id k a :
  owner_list (owner_nod_counts n) (owner_nod_ids n) o O -> (a + k = length O)%nat ->
  match find_owner_slot k n o id (Z.of_nat a) with
  | Some j => exists m, j = Z.of_nat m /\ (a <= m)%nat /\ O !! m = Some id
  | None => forall m, (a <= m)%nat -> O !! m <> Some id
  end.
Proof.
  intros [_ Hs]. revert a. induction k as [|k IH]; intros a Ha; cbn [find_owner_slot].
  - intros m Hm E. apply lookup_lt_Some in E. lia.
  - destruct (O !! a) as [x|] eqn:E; [|apply lookup_ge_None_1 in E; lia]. rewrite (Hs a x E).
    destruct (x =? id) eqn:Ex; bools; [subst; by exists a|]. specialize (IH (S a) ltac:(lia)).
    replace (Z.of_nat a + 1) with (Z.of_nat (S a)) by lia. destruct (find_owner_slot _ _ _ _ _) as [j|].
    + destruct IH as (m & -> & Hm & Em). exists m. split_and!; [done|lia|done].
    + intros m Hm Em. destruct (decide (a = m)) as [->|]; [congruence|]. apply (IH m); [lia|done].
Qed.

Definition with_owners (n : NodContract) (c ids : gmap Z Z) : NodContract :=
  {| n with owner_nod_counts := c; owner_nod_ids := ids |}.

Lemma swap_remove_list l0 (y : Z) j m x :
  (m = length l0 \/ (m < length l0)%nat) -> <[m := y]> l0 !! j = Some x -> (j < length l0)%nat /\ (if decide (j = m) then x = y else l0 !! j = Some x).
Proof.
  intros Hm Hj. pose proof (lookup_lt_Some _ _ _ Hj) as Hl. rewrite length_insert in Hl. split; [done|].
  apply list_lookup_insert_Some in Hj as [(-> & -> & _)|(Hne & Hj)]; [by rewrite decide_True|]. by rewrite decide_False.
Qed.

Lemma compact_owner_spec n L L' i :
  owner_rep (owner_nod_counts n) (owner_nod_ids n) L -> address (owner i) -> L ≡ₚ i :: L' -> Z.of_nat (length L) < 2 ^ 32 ->
  exists c ids, compact_owner_index n (owner i) (nod_id i) = Ok (with_owners n c ids) /\ owner_rep c ids L'.
Proof.
  intros Hr Ho EL Hlen. set (o := owner i) in *. destruct (Hr o Ho) as (O & Hl & Ep). pose proof (owner_list_length _ _ _ Ep) as Hlo.
  assert (EO : O ≡ₚ nod_id i :: (nod_id <$> items_of o L')).
  { rewrite Ep. unfold items_of. rewrite EL. by rewrite filter_cons_True. }
  destruct O as [|y O0 _] using rev_ind; [by apply Permutation_nil_cons in EO|]. rewrite length_app in Hlo. cbn [length] in Hlo.
  unfold compact_owner_index. pose proof Hl as [Hc Hs]. rewrite length_app in Hc. cbn [length] in Hc.
  unfold checked_sub. rewrite Hc, (proj2 (Z.leb_le 1 _)) by lia. cbn [ok_or].
  pose proof (find_owner_slot_spec n o _ (nod_id i) (length (O0 ++ [y])) 0 Hl ltac:(lia)) as Hfind. rewrite length_app in Hfind. cbn [length] in Hfind.
  rewrite Nat2Z.id. change (Z.of_nat 0) with 0 in Hfind. destruct (find_owner_slot _ _ _ _ _) as [j|]; cbn [ok_or].
  2: { exfalso. assert (Hin : nod_id i ∈ O0 ++ [y]) by (rewrite EO; left). apply list_elem_of_lookup in Hin as (m & Hm). apply (Hfind m); [lia|done]. }
  destruct Hfind as (m & -> & _ & Hm). pose proof (lookup_lt_Some _ _ _ Hm) as Hml. rewrite length_app in Hml. cbn [length] in Hml.
  replace (Z.of_nat (length O0 + 1) - 1) with (Z.of_nat (length O0)) by lia.
  assert (Ey : rd (owner_nod_ids n) (owner_index_key o (Z.of_nat (length O0))) = y) by (apply Hs; by rewrite lookup_app_r, Nat.sub_diag by lia).
  rewrite Ey. set (ids1 := if negb (Z.of_nat m =? Z.of_nat (length O0)) then <[owner_index_key o (Z.of_nat m) := y]> (owner_nod_ids n) else owner_nod_ids n).
  exists (<[o := Z.of_nat (length O0)]> (owner_nod_counts n)), (<[owner_index_key o (Z.of_nat (length O0)) := 0]> ids1).
  split; [unfold ids1; by destruct (negb _)|].
  intros o' Ho'. destruct (decide (o' = o)) as [->|Hne].
  - exists (<[m := y]> O0). split; [split|].
    + by rewrite rd_insert_eq, length_insert.
    + intros j x Hj. apply swap_remove_list in Hj as [Hjl Hj]; [|lia].
      rewrite rd_insert_ne by (intros E; apply owner_index_key_inj in E as [_ E]; [lia|done|done|lia|lia]). unfold ids1.
      destruct (Z.of_nat m =? Z.of_nat (length O0)) eqn:Em; bools; cbn [negb].
      * rewrite decide_False in Hj by lia. apply Hs. by rewrite lookup_app_l.
      * case_decide; [subst j x; by rewrite rd_insert_eq|].
        rewrite rd_insert_ne by (intros E; apply owner_index_key_inj in E as [_ E]; [lia|done|done|lia|lia]). apply Hs. by rewrite lookup_app_l.
    + apply (Permutation_cons_inv (a := nod_id i)). rewrite <- EO. symmetry. by apply swap_remove_perm.
  - destruct (Hr o' Ho') as (O' & Hl' & Ep'). pose proof (owner_list_length _ _ _ Ep'). exists O'. split.
    + apply owner_list_count; [|done]. apply owner_list_frame; [|done|done|lia|lia|by left]. unfold ids1.
      destruct (negb _); [|done]. apply owner_list_frame; [done|done|done|lia|lia|by left].
    + rewrite Ep'. unfold items_of. rewrite EL. by rewrite filter_cons_False.
Qed.

(** A nod that the owner does not hold cannot be removed. *)
Lemma compact_owner_absent n L o id :
  owner_rep (owner_nod_counts n) (owner_nod_ids n) L -> address o -> id ∉ nod_id <$> items_of o L ->
  compact_owner_index n o id = Err NodNotFound.
Proof.
  intros Hr Ho Hout. destruct (Hr o Ho) as (O & Hl & Ep). rewrite <- Ep in Hout. pose proof Hl as [Hc _]. unfold compact_owner_index.
  destruct (checked_sub _ 1) as [last|]; [cbn [ok_or]|done]. rewrite Hc, Nat2Z.id.
  pose proof (find_owner_slot_spec n o O id (length O) 0 Hl ltac:(lia)) as Hfind. change (Z.of_nat 0) with 0 in Hfind.
  destruct (find_owner_slot _ _ _ _ _) as [j|]; [|done]. destruct Hfind as (m & _ & _ & Hm). exfalso. apply Hout. by eapply list_elem_of_lookup_2.
Qed.

(** ** The global enumeration *)

Definition global_rep (v : SVec Z) (ix : gmap Z Z) (ids : list Z) : Prop :=
  vec_rep v ids /\ NoDup ids /\ forall j id, ids !! j = Some id -> rd ix id = Z.of_nat j.

Lemma global_rep_add v ix ids id :
  global_rep v ix ids -> id ∉ ids -> Z.of_nat (length ids) < 2 ^ 32 - 1 ->
  global_rep (vec_push v id) (<[id := vlen v]> ix) (ids ++ [id]).
Proof.
  intros (Hv & Hnd & Hix) Hout Hlen. pose proof Hv as (Hn & _). split_and!.
  - apply vec_rep_push; [done|lia].
  - apply NoDup_app. split_and!; [done|set_solver|apply NoDup_singleton].
  - intros j x Hj. destruct (decide (j < length ids)%nat).
    + rewrite lookup_app_l in Hj by done. rewrite rd_insert_ne; [by apply Hix|]. intros <-. apply Hout. by eapply list_elem_of_lookup_2.
    + rewrite lookup_app_r in Hj by lia. apply list_lookup_singleton_Some in Hj as [Hj <-]. rewrite rd_insert_eq. lia.
Qed.

(** The swap-and-pop of [remove_nod]. *)
Lemma global_rep_remove v ix ids0 y m id :
  global_rep v ix (ids0 ++ [y]) -> (ids0 ++ [y]) !! m = Some id ->
  exists v1 v2, (if negb (Z.of_nat m =? Z.of_nat (length ids0)) then vec_get v (Z.of_nat (length ids0)) = Some y /\ vec_set v (Z.of_nat m) y = Ok v1 else v1 = v) /\
    fst (vec_pop v1) = v2 /\
    global_rep v2 (<[id := 0]> (if negb (Z.of_nat m =? Z.of_nat (length ids0)) then <[y := Z.of_nat m]> ix else ix)) (<[m := y]> ids0).
Proof.
  intros (Hv & Hnd & Hix) Hm. pose proof (lookup_lt_Some _ _ _ Hm) as Hml. rewrite length_app in Hml. cbn [length] in Hml.
  apply NoDup_app in Hnd as (Hnd0 & Hdj & _). assert (Hy : y ∉ ids0) by (intros Hy; apply (Hdj y Hy); set_solver).
  destruct (Z.of_nat m =? Z.of_nat (length ids0)) eqn:Em; bools; cbn [negb].
  - assert (m = length ids0) as -> by lia. rewrite lookup_app_r, Nat.sub_diag in Hm by lia. injection Hm as <-.
    destruct (vec_rep_pop v ids0 y Hv) as (v2 & Epop & Hv2). exists v, v2. rewrite Epop. split_and!; [done|done|].
    rewrite list_insert_ge by lia. split_and!; [done..|]. intros j x Hj. rewrite rd_insert_ne.
    + apply Hix. by rewrite lookup_app_l by (by eapply lookup_lt_Some).
    + intros <-. apply Hy. by eapply list_elem_of_lookup_2.
  - pose proof Hv as (Hn & _). rewrite length_app in Hn. cbn [length] in Hn. rewrite lookup_app_l in Hm by lia.
    destruct (vec_rep_set v _ (Z.of_nat m) y Hv ltac:(lia)) as (v1 & Eset & Hv1). rewrite Nat2Z.id, insert_app_l in Hv1 by lia.
    destruct (vec_rep_pop v1 _ y Hv1) as (v2 & Epop & Hv2). exists v1, v2. rewrite Epop. split_and!; [|done|done|split_and!; [done|by apply swap_remove_nodup|]].
    + rewrite (vec_rep_get v _ _ Hv) by lia. by rewrite Nat2Z.id, lookup_app_r, Nat.sub_diag by lia.
    + intros j x Hj. apply swap_remove_list in Hj as [Hjl Hj]; [|lia]. case_decide.
      * subst j x. rewrite rd_insert_ne, rd_insert_eq; [done|]. intros ->. apply Hy. by eapply list_elem_of_lookup_2.
      * rewrite !rd_insert_ne; [apply Hix; by rewrite lookup_app_l| |].
        -- intros <-. apply Hy. by eapply list_elem_of_lookup_2.
        -- intros <-. match goal with H : _ <> m |- _ => apply H end. by eapply NoDup_lookup.
Qed.

(** ** The bucket totals *)

Definition bucket_rep (bs : gmap Z NodBucketState) (L : list NodItemState) : Prop :=
  forall k, match rget bs k with
  | Some bu => total_nods bu = Z.of_nat (length (items_in k L))
  | None => items_in k L = []
  end.

Lemma bucket_rep_some bs L i : bucket_rep bs L -> i ∈ L -> exists bu, rget bs (item_bucket_key i) = Some bu.
Proof.
  intros Hb Hi. specialize (Hb (item_bucket_key i)). destruct (rget bs _) as [bu|]; [by exists bu|]. exfalso.
  assert (Hin : i ∈ items_in (item_bucket_key i) L) by (by apply list_elem_of_filter). rewrite Hb in Hin. by apply not_elem_of_nil in Hin.
Qed.

(** Rewriting the bucket of [i] for a list that differs from [L] by [i]. *)
Lemma bucket_rep_write bs bs' L L' k ob :
  bucket_rep bs L -> (forall k', k' <> k -> items_in k' L' ≡ₚ items_in k' L) ->
  (forall k', rget bs' k' = if decide (k' = k) then ob else rget bs k') ->
  match ob with Some bu => total_nods bu = Z.of_nat (length (items_in k L')) | None => items_in k L' = [] end ->
  bucket_rep bs' L'.
Proof.
  intros Hb Hother Hget Hk k'. rewrite Hget. destruct (decide (k' = k)) as [->|Hne]; [done|]. specialize (Hb k'). specialize (Hother k' Hne).
  destruct (rget bs k') as [bu|]; [by rewrite Hother|]. rewrite Hb in Hother. by apply Permutation_nil_r in Hother.
Qed.

(** ** The price bins *)

Definition bins (n : NodContract) :=
  (bin_tree_root n, bin_tree_mid n, bin_tree_leaf n, unqualified_bin_count n, unqualified_bin_buckets n).

Definition kept (bu bu' : NodBucketState) : Prop :=
  bucket_id bu' = bucket_id bu /\ bucket_day bu' = bucket_day bu /\ bucket_floor bu' = bucket_floor bu /\ is_qualified bu' = is_qualified bu.

(** Bucket totals may change and qualified buckets may go. *)
Lemma parked_kept n n' B :
  parked n B -> bins n' = bins n ->
  (forall k bu', get_bucket n' k = Some bu' -> exists bu, get_bucket n k = Some bu /\ kept bu bu') ->
  (forall k bu, get_bucket n k = Some bu -> is_qualified bu = false -> is_Some (get_bucket n' k)) -> parked n' B.
Proof.
  intros Hp Eb Hback Hfwd. injection Eb as E1 E2 E3 E4 E5. destruct (tree_frame n n' E1 E2 E3) as [Ht Hc]. split.
  - apply Ht, (pk_tree n B Hp).
  - intros b Hb. rewrite Hc. by apply (pk_bits n B).
  - intros b Hb. rewrite E4. by apply (pk_count n B).
  - apply (pk_nodup n B Hp).
  - intros b i k Hb Hi. unfold slot. rewrite E5. by apply (pk_slots n B Hp).
  - intros k bu' Ek. destruct (Hback k bu' Ek) as (bu & Ebu & K1 & K2 & K3 & _). destruct (pk_keys n B Hp k bu Ebu) as (Ek1 & Ek2 & Ek3).
    rewrite K1, K2, K3. done.
  - intros b k Hb Hk. destruct (pk_sound n B Hp b k Hb Hk) as (bu & Ebu & Eq & Epb). destruct (Hfwd k bu Ebu Eq) as (bu' & Ebu').
    destruct (Hback k bu' Ebu') as (bu2 & Ebu2 & K1 & K2 & K3 & K4). rewrite Ebu in Ebu2. injection Ebu2 as <-. exists bu'. rewrite K3, K4. done.
  - intros k bu' Ek Eq. destruct (Hback k bu' Ek) as (bu & Ebu & _ & _ & _ & K4). apply (pk_complete n B Hp k bu Ebu). congruence.
Qed.

Lemma parked_same n n' B : parked n B -> bins n' = bins n -> nod_buckets n' = nod_buckets n -> parked n' B.
Proof.
  intros Hp Eb En. apply (parked_kept n); [done|done|..]; unfold get_bucket; rewrite En; intros k bu E; exists bu; [by split_and!|done].
Qed.

Lemma add_frame n b :
  let n' := fst (add n b) in
  nod_buckets n' = nod_buckets n /\ rest n' = rest n /\ unqualified_bin_count n' = unqualified_bin_count n /\
  unqualified_bin_buckets n' = unqualified_bin_buckets n.
Proof. unfold add. destruct (split b) as [[t m] l]. repeat case_match; done. Qed.

(** The contract after the bucket [bu] with key [k] was put at the end of bin [b]. *)
Record inserted (b k : Z) (bu : NodBucketState) (n n' : NodContract) : Prop := {
  in_tree : tree_ok n';
  in_bits : forall b', bin b' -> contains n' b' = (b' =? b) || contains n b';
  in_count : forall b', rd (unqualified_bin_count n') b' = if decide (b' = b) then rd (unqualified_bin_count n) b + 1 else rd (unqualified_bin_count n) b';
  in_slots : forall b' j, idx b' -> idx j ->
    slot n' b' j = if decide (b = b' /\ rd (unqualified_bin_count n) b = j) then k else slot n b' j;
  in_buckets : nod_buckets n' = <[k := bu]> (nod_buckets n);
  in_rest : rest n' = rest n
}.

Lemma insert_unqualified_spec n bu k b :
  tree_ok n -> bin b -> price_to_bin (bucket_floor bu) = Ok b -> 0 <= rd (unqualified_bin_count n) b < 2 ^ 32 - 1 ->
  exists n', insert_unqualified (set_nod_buckets n (<[k := bu]> (nod_buckets n))) k (bucket_floor bu) = Ok n' /\ inserted b k bu n n'.
Proof.
  intros Hok Hb Epb Hc. unfold insert_unqualified. rewrite Epb. change (unqualified_bin_count (set_nod_buckets n _)) with (unqualified_bin_count n).
  rewrite wadd_small by lia. set (c := rd (unqualified_bin_count n) b) in *. set (n1 := wr_bin_count _ b (c + 1)). destruct (add_frame n1 b) as (F1 & F2 & F3 & F4).
  assert (Hf : (tree_ok n -> tree_ok n1) /\ forall b, contains n1 b = contains n b) by (by apply tree_frame). destruct Hf as (Hok1 & Hc1).
  destruct (add_spec n1 b (Hok1 Hok) Hb) as (n2 & E2 & Hok2 & Hbits). rewrite E2 in *. cbn [fst] in *. exists n2. split; [done|].
  assert (Hib : idx b) by (unfold idx, bin in *; lia). assert (Hic : idx c) by (unfold idx; lia). split; [done|..].
  - intros b' Hb'. by rewrite Hbits, Hc1.
  - intros b'. rewrite F3. cbn [n1 wr_bin_count unqualified_bin_count]. case_decide; [subst; by rewrite rd_insert_eq|by rewrite rd_insert_ne].
  - intros b' j Hb' Hj. transitivity (slot n1 b' j); [unfold slot; by rewrite F4|].
    transitivity (slot (wr_bin_bucket n (bin_index_key b c) k) b' j); [done|]. by apply slot_write.
  - done.
  - done.
Qed.

Lemma parked_inserted n n' B bu k b :
  parked n B -> inserted b k bu n n' -> get_bucket n k = None -> bin b -> price_to_bin (bucket_floor bu) = Ok b ->
  k = bucket_key (bucket_day bu) (bucket_floor bu) -> bucket_id bu = k -> 0 <= bucket_floor bu < 2 ^ 256 ->
  is_qualified bu = false -> total_nods bu <> 0 -> Z.of_nat (length (B b)) < 2 ^ 32 - 1 ->
  parked n' (fun b' => if decide (b' = b) then B b ++ [k] else B b').
Proof.
  intros Hp [Hok Hbits Hcnt Hslot Hbs _] Hnone Hb Epb Ek Eid Hfl Eq Et Hlen.
  destruct (pk_count n B Hp b Hb) as (Ec & _). rewrite Ec in *.
  assert (Hget : forall k', get_bucket n' k' = if decide (k = k') then Some bu else get_bucket n k').
  { intros k'. unfold get_bucket. rewrite Hbs. case_decide; [|by apply rget_insert_ne]. subst k'. rewrite rget_insert_eq. cbn [rec_exists bucket_record].
    by rewrite (proj2 (Z.eqb_neq _ _)) by done. }
  split.
  - done.
  - intros b' Hb'. rewrite Hbits by done. destruct (decide (b' = b)) as [->|]; [rewrite Z.eqb_refl|rewrite (proj2 (Z.eqb_neq _ _)) by done; by apply (pk_bits n B)].
    cbn [orb]. symmetry. apply negb_true_iff, bool_decide_eq_false_2. by destruct (B b).
  - intros b' Hb'. rewrite Hcnt. destruct (decide (b' = b)) as [->|]; [rewrite length_app; cbn [length]; lia|by apply (pk_count n B)].
  - intros b' Hb'. destruct (decide (b' = b)) as [->|]; [|by apply (pk_nodup n B)]. apply NoDup_app. split_and!; [by apply (pk_nodup n B)| |apply NoDup_singleton].
    intros x Hx Hxk. apply list_elem_of_singleton in Hxk as ->. destruct (pk_sound n B Hp b k Hb Hx) as (bu' & E & _). congruence.
  - intros b' j x Hb' Hj. assert (Hib : idx b') by (unfold idx, bin in *; lia). pose proof (lookup_lt_Some _ _ _ Hj) as Hjl. destruct (decide (b' = b)) as [->|Hne].
    + rewrite length_app in Hjl. cbn [length] in Hjl. rewrite Hslot by (unfold idx; lia || done). destruct (decide (j < length (B b))%nat).
      * rewrite lookup_app_l in Hj by done. rewrite decide_False by lia. by apply (pk_slots n B Hp).
      * rewrite lookup_app_r in Hj by lia. apply list_lookup_singleton_Some in Hj as [Hj <-]. by rewrite decide_True by lia.
    + destruct (pk_count n B Hp b' Hb') as (_ & Hc'). rewrite Hslot by (unfold idx; lia || done).
      rewrite decide_False by (by intros [-> _]). by apply (pk_slots n B Hp).
  - intros k' bu' E'. change (get_bucket n' k' = Some bu') in E'. rewrite Hget in E'. case_decide; [|by apply (pk_keys n B Hp)]. subst k'. injection E' as <-. done.
  - intros b' x Hb' Hx. rewrite Hget. destruct (decide (k = x)) as [<-|Hne].
    + exists bu. split_and!; [done|done|]. destruct (decide (b' = b)) as [->|]; [done|]. destruct (pk_sound n B Hp b' k Hb' Hx) as (bu' & E & _). congruence.
    + apply (pk_sound n B Hp); [done|]. destruct (decide (b' = b)) as [->|]; [set_solver|done].
  - intros k' bu' E' Eq'. rewrite Hget in E'. destruct (decide (k = k')) as [<-|Hne].
    + injection E' as <-. exists b. split; [done|]. rewrite decide_True by done. set_solver.
    + destruct (pk_complete n B Hp k' bu' E' Eq') as (b' & Hb' & Hin). exists b'. split; [done|]. destruct (decide (b' = b)) as [->|]; [set_solver|done].
Qed.

(** ** The store *)

Record stored (n : NodContract) (L : list NodItemState) (B : Z -> list Z) : Prop := {
  so_items : forall id i, get_item n id = Some i <-> i ∈ L /\ nod_id i = id;
  so_wf : Forall item_ok L;
  so_global : global_rep (global_nod_ids n) (global_nod_index n) (nod_id <$> L);
  so_owners : owner_rep (owner_nod_counts n) (owner_nod_ids n) L;
  so_buckets : bucket_rep (nod_buckets n) L;
  so_supply : total_supply n = Z.of_nat (length L);
  so_parked : parked n B
}.

Lemma stored_fits n L B : stored n L B -> Z.of_nat (length L) < 2 ^ 32.
Proof. intros Hs. destruct (so_global n L B Hs) as ((E & Hl & _) & _). rewrite length_fmap in E. lia. Qed.

(** A bin holds no more buckets than there are Nods. *)
Lemma bin_length n L B b : parked n B -> bucket_rep (nod_buckets n) L -> bin b -> (length (B b) <= length L)%nat.
Proof.
  intros Hp Hb Hbin. rewrite <- (length_fmap item_bucket_key L). apply submseteq_length, NoDup_submseteq; [by apply (pk_nodup n B)|].
  intros k Hk. destruct (pk_sound n B Hp b k Hbin Hk) as (bu & Ebu & _). pose proof (Hb k) as Hbk. unfold get_bucket in Ebu. rewrite Ebu in Hbk.
  apply rget_exists, negb_true_iff, Z.eqb_neq in Ebu. destruct (items_in k L) as [|i l] eqn:E; [by rewrite Hbk in Ebu|].
  assert (Hin : i ∈ items_in k L) by (rewrite E; left). apply list_elem_of_filter in Hin as [<- Hin]. by apply list_elem_of_fmap_2.
Qed.

Definition priced (f : Z) : Prop := 0 <= f < 2 ^ 256 /\ (f <> 0 -> price_fits f).

Lemma priced_bin f : priced f -> exists b, price_to_bin f = Ok b /\ bin b.
Proof. intros [Hf Hp]. destruct (decide (f = 0)) as [->|Hne]; [by exists 0|]. apply price_to_bin_total; [by apply Hp|lia]. Qed.

Lemma items_in_snoc k L i : items_in k (L ++ [i]) = items_in k L ++ (if decide (item_bucket_key i = k) then [i] else []).
Proof. unfold items_in. rewrite filter_app. done. Qed.

Lemma priced_inv f b : 0 <= f < 2 ^ 256 -> price_to_bin f = Ok b -> priced f.
Proof.
  intros Hf E. split; [done|]. intros Hne. unfold price_to_bin in E. rewrite (proj2 (Z.eqb_neq _ _)) in E by done.
  rewrite convert_price in E by lia. destruct (_ <? 2 ^ 256) eqn:Ef; [bools|done]. split; [lia|done].
Qed.

(** A price off the ladder is only refused when its bucket is new. *)
Definition admissible (n : NodContract) (i : NodItemState) : Prop :=
  get_bucket n (item_bucket_key i) = None -> priced (floor_price_minor i).

Lemma add_to_bucket_spec n L B i price :
  parked n B -> bucket_rep (nod_buckets n) L -> item_ok i -> admissible n i -> Z.of_nat (length L) < 2 ^ 32 - 1 ->
  exists n' B', add_to_bucket n i price = Ok n' /\ rest n' = rest n /\ parked n' B' /\ bucket_rep (nod_buckets n') (L ++ [i]).
Proof.
  intros Hp Hb (_ & _ & Hf & Ekey) Hpr Hlen. unfold add_to_bucket. set (k := item_bucket_key i) in *. pose proof (Hb k) as Hbk.
  pose proof (length_filter (fun j => item_bucket_key j = k) L) as Hfl. fold (items_in k L) in Hfl.
  assert (Hoth : forall k', k' <> k -> items_in k' (L ++ [i]) ≡ₚ items_in k' L).
  { intros k' Hne. rewrite items_in_snoc, decide_False by done. by rewrite app_nil_r. }
  unfold get_bucket. destruct (rget (nod_buckets n) k) as [bu|] eqn:Ebu.
  - destruct (pk_keys n B Hp k bu Ebu) as (_ & Eid & _). unfold saturating_add. rewrite Z.min_l by (rewrite Hbk; unfold MAX_U64; cbn; lia).
    set (bu' := {| bu with total_nods := _ |}). assert (Hget : forall k', rget (<[k := bu']> (nod_buckets n)) k' = if decide (k' = k) then Some bu' else rget (nod_buckets n) k').
    { intros k'. case_decide; [subst; rewrite rget_insert_eq; cbn; by rewrite (proj2 (Z.eqb_neq _ _)) by lia|by apply rget_insert_ne]. }
    rewrite (rupdate_Ok _ bu' bu) by (cbn; by rewrite Eid). cbn [rec_key bucket_record]. change (bucket_id bu') with (bucket_id bu). rewrite Eid.
    do 2 eexists. split_and!; [done|done| |].
    + eapply (parked_kept n); [exact Hp|done|..]; unfold get_bucket; cbn [set_nod_buckets nod_buckets]; intros k' b'; rewrite Hget; case_decide; subst; try by eauto.
      * intros [= <-]. exists bu. split; [done|]. by split_and!.
      * intros E. exists b'. by split_and!.
    + eapply bucket_rep_write; [exact Hb|exact Hoth|exact Hget|]. cbn. rewrite Hbk, items_in_snoc, decide_True, length_app by done. cbn. lia.
  - destruct (priced_bin _ (Hpr Ebu)) as (b & Epb & Hbin). set (bu := mkBucket k (worldwide_day i) (floor_price_minor i) false 1 price).
    rewrite rcreate_Ok by done. cbn [rec_key bucket_record]. change (bucket_id bu) with k.
    pose proof (bin_length n L B b Hp Hb Hbin). destruct (pk_count n B Hp b Hbin) as (Ec & _).
    destruct (insert_unqualified_spec n bu k b (pk_tree n B Hp) Hbin Epb ltac:(lia)) as (n' & E & Hins). change (bucket_floor bu) with (floor_price_minor i) in E.
    do 2 eexists. split_and!; [exact E|by apply (in_rest b k bu)|eapply parked_inserted; try done; lia|].
    rewrite (in_buckets _ _ _ _ _ Hins). eapply (bucket_rep_write _ _ _ _ k (Some bu)); [exact Hb|exact Hoth| |].
    + intros k'. case_decide; [subst; by rewrite rget_insert_eq|by apply rget_insert_ne].
    + rewrite items_in_snoc, decide_True, Hbk by done. done.
Qed.

Lemma add_nod_spec n L B i price :
  stored n L B -> item_ok i -> admissible n i -> nod_id i ∉ nod_id <$> L -> Z.of_nat (length L) < 2 ^ 32 - 1 ->
  exists n' B', add_nod n i price = Ok n' /\ stored n' (L ++ [i]) B'.
Proof.
  intros Hs Hi Hpr Hout Hlen. pose proof Hi as (Ho & Ho0 & _). unfold add_nod.
  assert (Hnone : rget (nod_items n) (nod_id i) = None).
  { destruct (rget (nod_items n) (nod_id i)) as [i'|] eqn:E; [|done]. apply (so_items n L B Hs) in E as [Hin E]. exfalso. apply Hout. rewrite <- E. by apply list_elem_of_fmap_2. }
  rewrite rcreate_Ok by done. cbn [rec_key item_record]. set (n1 := set_nod_items n _).
  destruct (add_to_bucket_spec n1 L B i price) as (n2 & B2 & E2 & R2 & P2 & K2); [|apply Hs|done|done|done|].
  { by apply (parked_same n); [apply Hs|..]. }
  rewrite E2. injection R2 as R1 R2 R3 R4 R5 R6. do 2 eexists. split; [done|]. split; nod_fields.
  - intros id i'. unfold get_item. nod_fields. rewrite R2. unfold n1. nod_fields. destruct (decide (nod_id i = id)) as [<-|Hne].
    + rewrite rget_insert_eq. cbn [rec_exists item_record]. rewrite (proj2 (Z.eqb_neq _ _)) by done. cbn [negb]. split.
      * intros [= <-]. split; [set_solver|done].
      * intros [[Hin|Hin]%elem_of_app E]; [exfalso; apply Hout; rewrite <- E; by apply list_elem_of_fmap_2|]. apply list_elem_of_singleton in Hin as ->. done.
    + rewrite rget_insert_ne by done. fold (get_item n id). rewrite (so_items n L B Hs). split; [set_solver|].
      intros [[Hin|Hin]%elem_of_app E]; [done|]. apply list_elem_of_singleton in Hin as ->. done.
  - apply Forall_app. split; [apply Hs|by apply Forall_singleton].
  - rewrite fmap_app. cbn. rewrite R5, R6. apply global_rep_add; [apply Hs|done|by rewrite length_fmap].
  - rewrite R3, R4. unfold n1. nod_fields. apply owner_rep_add; [apply Hs|done|done].
  - done.
  - rewrite R1. unfold n1. nod_fields. rewrite (so_supply n L B Hs), wadd_small, length_app by lia. cbn. lia.
  - by apply (parked_same n2).
Qed.

(** ** Removal *)

Lemma remove_from_bucket_spec n L L' B i bu :
  parked n B -> bucket_rep (nod_buckets n) L -> L ≡ₚ i :: L' -> get_bucket n (item_bucket_key i) = Some bu -> is_qualified bu = true ->
  exists bs, remove_from_bucket n i = Ok (set_nod_buckets n bs) /\ bucket_rep bs L' /\ parked (set_nod_buckets n bs) B /\
    forall k bu', rget bs k = Some bu' -> exists bu, get_bucket n k = Some bu /\ kept bu bu'.
Proof.
  intros Hp Hb EL Ebu Eq. unfold remove_from_bucket. rewrite Ebu. set (k := item_bucket_key i) in *.
  pose proof (Hb k) as Hbk. unfold get_bucket in Ebu. rewrite Ebu in Hbk. destruct (pk_keys n B Hp k bu Ebu) as (_ & Eid & _).
  assert (Hin : items_in k L ≡ₚ i :: items_in k L') by (unfold items_in; rewrite EL; by rewrite filter_cons_True).
  assert (Hoth : forall k', k' <> k -> items_in k' L' ≡ₚ items_in k' L) by (intros k' Hne; unfold items_in; rewrite EL; by rewrite filter_cons_False by done).
  rewrite Hin in Hbk. cbn [length] in Hbk. unfold saturating_sub. rewrite Z.max_l by lia. set (bu' := {| bu with total_nods := _ |}).
  set (ob := if total_nods bu' =? 0 then None else Some bu').
  assert (Hcore : forall bs, (forall k', rget bs k' = if decide (k' = k) then ob else rget (nod_buckets n) k') ->
    bucket_rep bs L' /\ parked (set_nod_buckets n bs) B /\ forall k bu', rget bs k = Some bu' -> exists bu, get_bucket n k = Some bu /\ kept bu bu').
  { intros bs Hget. assert (Hback : forall k bu', rget bs k = Some bu' -> exists bu, get_bucket n k = Some bu /\ kept bu bu').
    { intros k1 b1. rewrite Hget. case_decide; [|intros E; exists b1; by split_and!]. subst k1. unfold ob. case_match; [done|]. intros [= <-]. exists bu. by split_and!. }
    split_and!; [|apply (parked_kept n); [done|done|exact Hback|]|exact Hback].
    - eapply bucket_rep_write; [exact Hb|exact Hoth|exact Hget|]. unfold ob. destruct (total_nods bu' =? 0) eqn:E0; bools; cbn in *; [|lia].
      apply nil_length_inv. lia.
    - intros k1 b1 E1 Eq1. unfold get_bucket in *. nod_fields. rewrite Hget. case_decide; [|by eauto]. subst k1. congruence. }
  destruct (total_nods bu' =? 0) eqn:E0; bools.
  - eexists. split; [done|]. apply Hcore. intros k'. case_decide; [subst; apply rget_delete_eq|by apply rget_delete_ne].
  - rewrite (rupdate_Ok _ bu' bu) by (cbn; by rewrite Eid). cbn [rec_key bucket_record]. change (bucket_id bu') with (bucket_id bu). rewrite Eid.
    eexists. split; [done|]. apply Hcore. intros k'. case_decide; [|by apply rget_insert_ne]. subst. rewrite rget_insert_eq. cbn [rec_exists bucket_record].
    by rewrite (proj2 (Z.eqb_neq _ _)) by done.
Qed.

Definition qualified_in (n : NodContract) (k : Z) : Prop := exists bu, get_bucket n k = Some bu /\ is_qualified bu = true.

(** No bucket of [n'] is new or has changed its latch. *)
Definition latched (n n' : NodContract) : Prop :=
  forall k bu', get_bucket n' k = Some bu' -> exists bu, get_bucket n k = Some bu /\ kept bu bu'.

Definition with_global (n : NodContract) (v : SVec Z) (ix : gmap Z Z) : NodContract :=
  {| n with global_nod_ids := v; global_nod_index := ix |}.

Lemma unlist_nod_spec n L0 y m i :
  global_rep (global_nod_ids n) (global_nod_index n) (nod_id <$> L0 ++ [y]) -> (L0 ++ [y]) !! m = Some i ->
  exists v ix, unlist_nod n (nod_id i) = Ok (with_global n v ix) /\ global_rep v ix (nod_id <$> <[m := y]> L0).
Proof.
  intros Hg Hm. pose proof Hg as (Hv & Hnd & Hix). rewrite fmap_app in Hg. cbn [fmap list_fmap] in Hg.
  assert (Hmid : (nod_id <$> L0 ++ [y]) !! m = Some (nod_id i)) by (by rewrite list_lookup_fmap, Hm).
  pose proof (Hix m _ Hmid) as Eidx. rewrite fmap_app in Hmid. cbn [fmap list_fmap] in Hmid.
  destruct (global_rep_remove _ _ _ _ m _ Hg Hmid) as (v1 & v2 & Hset & Epop & Hg'). rewrite length_fmap in Hset, Hg'.
  destruct Hv as (Hvl & _). rewrite length_fmap, length_app in Hvl. cbn [length] in Hvl.
  unfold unlist_nod. rewrite Eidx. unfold checked_sub. rewrite (proj2 (Z.leb_le 1 _)) by lia. cbn [ok_or].
  replace (vlen (global_nod_ids n) - 1) with (Z.of_nat (length L0)) by lia. rewrite list_fmap_insert.
  eexists v2, _. split; [|exact Hg']. destruct (negb (Z.of_nat m =? Z.of_nat (length L0))).
  - destruct Hset as (-> & E). cbn [ok_or]. rewrite E. nod_fields. by rewrite Epop.
  - subst v1. by rewrite Epop.
Qed.

Lemma remove_nod_spec n L B i :
  stored n L B -> i ∈ L -> qualified_in n (item_bucket_key i) ->
  exists n' L', remove_nod n i = Ok n' /\ L ≡ₚ i :: L' /\ stored n' L' B /\ latched n n'.
Proof.
  intros Hs Hi (bu & Ebu & Eq). pose proof (stored_fits n L B Hs) as Hfit. pose proof (so_wf n L B Hs) as Hwf. rewrite Forall_forall in Hwf.
  destruct (Hwf i Hi) as (Ho & _). apply list_elem_of_lookup in Hi as (m & Hm). destruct L as [|y L0 _] using rev_ind; [done|].
  pose proof (swap_remove_perm L0 y m i Hm) as EL. unfold remove_nod. set (n0 := set_nod_items n _).
  destruct (unlist_nod_spec n0 L0 y m i) as (v & ix & -> & Hg); [apply Hs|done|]. set (n1 := with_global n0 v ix).
  destruct (compact_owner_spec n1 _ _ i (so_owners n _ B Hs) Ho EL Hfit) as (c & ids & -> & Hown). set (n2 := with_owners n1 c ids).
  destruct (remove_from_bucket_spec n2 _ _ B i bu (parked_same n n2 B (so_parked n _ B Hs) eq_refl eq_refl) (so_buckets n _ B Hs) EL Ebu Eq)
    as (bs & -> & Hb & Hp & Hlatch).
  pose proof (so_supply n _ B Hs) as Hsup. rewrite length_app in Hsup. cbn [length] in Hsup.
  change (total_supply (set_nod_buckets n2 bs)) with (total_supply n). rewrite Z.gtb_ltb, (proj2 (Z.ltb_lt 0 _)) by lia.
  eexists _, _. split_and!; [done|exact EL| |].
  2: { intros k bu' E. exact (Hlatch k bu' E). }
  pose proof (proj1 (proj2 (so_global n _ B Hs))) as Hnd. rewrite EL in Hnd. apply NoDup_cons in Hnd as [Hnid Hnd].
  split; nod_fields; cbn [n2 with_owners n1 with_global n0]; nod_fields.
  - intros id i'. change (rget (rdelete (nod_items n) (nod_id i)) id = Some i' <-> i' ∈ <[m := y]> L0 /\ nod_id i' = id). destruct (decide (nod_id i = id)) as [<-|Hne].
    + rewrite rget_delete_eq. split; [done|]. intros [Hin E]. exfalso. apply Hnid. rewrite <- E. by apply list_elem_of_fmap_2.
    + rewrite rget_delete_ne by done. fold (get_item n id). rewrite (so_items n _ B Hs), EL. set_solver.
  - apply Forall_forall. intros x Hx. apply Hwf. rewrite EL. by right.
  - done.
  - done.
  - done.
  - change (total_supply n - 1 = Z.of_nat (length (<[m := y]> L0))). rewrite length_insert. lia.
  - by apply (parked_same (set_nod_buckets n2 bs)).
Qed.

(** Removing a Nod that is not stored fails, whatever the caller remembers of it. *)
Lemma remove_nod_absent n L B i :
  stored n L B -> address (owner i) -> nod_id i ∉ nod_id <$> L -> exists e, remove_nod n i = Err e.
Proof.
  intros Hs Ho Hout. unfold remove_nod. set (n0 := set_nod_items n _). destruct (unlist_nod n0 (nod_id i)) as [n1|e] eqn:E; [|by eauto].
  assert (Hown : owner_rep (owner_nod_counts n1) (owner_nod_ids n1) L).
  { unfold unlist_nod in E. destruct (ok_or _ _) as [last|]; [|done]. destruct (negb _); [|injection E as <-; apply Hs].
    destruct (ok_or _ _) as [x|]; [|done]. destruct (vec_set _ _ _) as [v|]; [|done]. injection E as <-. apply Hs. }
  rewrite (compact_owner_absent n1 L); [by eauto|done|done|]. intros Hin. apply Hout. apply list_elem_of_fmap in Hin as (j & -> & Hj).
  apply list_elem_of_fmap_2. by apply list_elem_of_filter in Hj as [_ Hj].
Qed.

(** ** The operations of the factory and the hook *)

Lemma stored_same n n' L B :
  stored n L B -> bins n' = bins n -> rest n' = rest n -> nod_buckets n' = nod_buckets n -> stored n' L B.
Proof.
  intros Hs Eb Er En. injection Er as R1 R2 R3 R4 R5 R6. split; rewrite ?R1, ?R3, ?R4, ?R5, ?R6, ?En; try apply Hs.
  - intros id i. unfold get_item. rewrite R2. apply Hs.
  - apply (parked_same n); [apply Hs|done|done].
Qed.

Definition issued_item (now : Z) (p : NodIssueParams) : NodItemState :=
  mkItem (generate_nod_id (p_owner p) (p_worldwide_day p)) (p_owner p) (p_gratis_load_minor p) (p_worldwide_day p) (p_league_id p)
    (p_floor_price_minor p) (bucket_key (p_worldwide_day p) (p_floor_price_minor p)) (p_cost_amount_minor p) (p_issuance_currency p)
    (now + UNLOCK_PERIOD_SECONDS) (p_reference_currency p) now.

Lemma stored_get n L B id : stored n L B -> bool_decide (is_Some (get_item n id)) = bool_decide (id ∈ nod_id <$> L).
Proof.
  intros Hs. apply bool_decide_ext. split.
  - intros (i & E). apply (so_items n L B Hs) in E as [Hi <-]. by apply list_elem_of_fmap_2.
  - intros (i & -> & Hi)%list_elem_of_fmap. exists i. by apply (so_items n L B Hs).
Qed.

Lemma issue_spec w L B now p :
  stored (nw_nod w) L B -> address (p_owner p) -> p_owner p <> 0 -> 0 <= p_floor_price_minor p < 2 ^ 256 ->
  admissible (nw_nod w) (issued_item now p) -> now + UNLOCK_PERIOD_SECONDS < 2 ^ 64 ->
  Z.of_nat (length L) < 2 ^ 32 - 1 -> generate_nod_id (p_owner p) (p_worldwide_day p) ∉ nod_id <$> L ->
  exists n' B', issue_nod w now p = Ok (mkNodWorld n' (nw_gratis w), generate_nod_id (p_owner p) (p_worldwide_day p)) /\
    stored n' (L ++ [issued_item now p]) B'.
Proof.
  intros Hs Ho Ho0 Hfl Hpr Hun Hlen Hout. unfold issue_nod. rewrite (proj2 (Z.eqb_neq _ _)) by done. cbn [negb].
  rewrite (stored_get _ L B) by done. rewrite bool_decide_eq_false_2 by done. cbn [negb]. unfold checked_add. rewrite (proj2 (Z.ltb_lt _ _)) by done. cbn [ok_or].
  destruct (add_nod_spec (nw_nod w) L B (issued_item now p) (p_entry_price_minor p) Hs) as (n' & B' & E & Hs'); [|done..|].
  { split; [exact Ho|]. split_and!; [done|apply Hfl|apply Hfl|done]. }
  unfold issued_item in E at 1. rewrite E. do 2 eexists. split; [done|]. by apply (stored_same n').
Qed.

Lemma issue_inv w L B now p w' id :
  stored (nw_nod w) L B -> 0 <= p_floor_price_minor p < 2 ^ 256 -> issue_nod w now p = Ok (w', id) ->
  p_owner p <> 0 /\ admissible (nw_nod w) (issued_item now p) /\ now + UNLOCK_PERIOD_SECONDS < 2 ^ 64 /\
  generate_nod_id (p_owner p) (p_worldwide_day p) ∉ nod_id <$> L.
Proof.
  intros Hs Hfl. unfold issue_nod. destruct (p_owner p =? 0) eqn:E0; [done|bools; cbn [negb]]. rewrite (stored_get _ L B) by done.
  case_bool_decide as Hin; [done|cbn [negb]]. unfold checked_add. destruct (_ <? 2 ^ 64) eqn:Eu; [bools; cbn [ok_or]|done].
  fold (issued_item now p). destruct (add_nod _ _ _) as [n'|] eqn:E; [|done]. intros _. split_and!; [done| |done|done].
  intros Hnone. unfold add_nod in E. destruct (rcreate _ _) as [items|]; [|done]. unfold add_to_bucket in E.
  change (get_bucket (set_nod_items (nw_nod w) items)) with (get_bucket (nw_nod w)) in E. rewrite Hnone in E. destruct (rcreate _ _) as [bs|]; [|done].
  unfold insert_unqualified in E. destruct (price_to_bin _) as [b|] eqn:Eb; [|done]. by eapply priced_inv.
Qed.

Lemma qualify_stored n L B rate :
  stored n L B -> priced rate ->
  exists n' B', qualify_buckets_with_rate n rate = Ok n' /\ stored n' L B' /\ rest n' = rest n /\
    forall k, get_bucket n' k = (fun bu => promote (negb (rate =? 0) && (bucket_floor bu <=? rate)) bu) <$> get_bucket n k.
Proof.
  intros Hs [Hr Hf]. destruct (qualify_spec n B rate (so_parked n L B Hs) Hr Hf) as (n' & E & (B' & Hp) & Er & Hget). exists n', B'.
  split_and!; [done| |done|done]. injection Er as R1 R2 R3 R4 R5 R6. split; rewrite ?R1, ?R3, ?R4, ?R5, ?R6; try apply Hs; [|..|done].
  - intros id i. unfold get_item. rewrite R2. apply Hs.
  - intros k. change (rget (nod_buckets n') k) with (get_bucket n' k). rewrite Hget. pose proof (so_buckets n L B Hs k) as Hk.
    change (rget (nod_buckets n) k) with (get_bucket n k) in Hk. by destruct (get_bucket n k).
Qed.

(** ** Mining, with calls to other contracts in between *)

(** What a call may do to the store: remove Nods, and nothing to a bucket but
    lower its total or drop it. *)
Definition shrinks (n n' : NodContract) : Prop :=
  forall L B, stored n L B -> exists gone L' B', stored n' L' B' /\ L ≡ₚ gone ++ L' /\ latched n n'.

Lemma latched_refl n : latched n n.
Proof. intros k bu E. exists bu. by split_and!. Qed.

Lemma latched_trans n1 n2 n3 : latched n1 n2 -> latched n2 n3 -> latched n1 n3.
Proof.
  intros H1 H2 k bu3 E3. destruct (H2 k bu3 E3) as (bu2 & E2 & K1 & K2 & K3 & K4). destruct (H1 k bu2 E2) as (bu1 & E1 & K5 & K6 & K7 & K8).
  exists bu1. split; [done|]. split_and!; congruence.
Qed.

#[global] Instance shrinks_preorder : PreOrder shrinks.
Proof.
  split.
  - intros n L B Hs. exists [], L, B. split_and!; [done|done|apply latched_refl].
  - intros n1 n2 n3 H12 H23 L B Hs. destruct (H12 L B Hs) as (g1 & L1 & B1 & S1 & E1 & T1). destruct (H23 L1 B1 S1) as (g2 & L2 & B2 & S2 & E2 & T2).
    exists (g1 ++ g2), L2, B2. split_and!; [done|by rewrite E1, E2, app_assoc|by eapply latched_trans].
Qed.

Section Mining.
Variable call : NodWorld -> Address -> ExtCall -> res NodWorld.
Hypothesis call_shrinks : forall w a c w', call w a c = Ok w' -> shrinks (nw_nod w) (nw_nod w').

Lemma pay_cost_shrinks w caller cost asset vp w' :
  pay_cost call w caller cost asset vp = Ok w' -> shrinks (nw_nod w) (nw_nod w').
Proof.
  unfold pay_cost. destruct (negb (cost =? 0)); [|intros [= <-]; reflexivity]. destruct (negb (asset =? 0)); [|done]. destruct (negb (vp =? 0)); [|done].
  destruct (call w asset _) as [w1|] eqn:E1; [|done]. destruct (call w1 asset _) as [w2|] eqn:E2; [|done]. intros E3.
  transitivity (nw_nod w1); [by eapply call_shrinks|]. transitivity (nw_nod w2); by eapply call_shrinks.
Qed.

(** After the calls the Nod is either gone, and removal fails, or still there
    with its bucket qualified. *)
Lemma remove_after n n1 L B i n2 :
  stored n L B -> shrinks n n1 -> i ∈ L -> qualified_in n (item_bucket_key i) -> remove_nod n1 i = Ok n2 ->
  exists gone L1 B1 L', stored n1 L1 B1 /\ L ≡ₚ gone ++ L1 /\ stored n2 L' B1 /\ L1 ≡ₚ i :: L' /\ latched n n2.
Proof.
  intros Hs Hsh Hi (bu & Ebu & Eq) E. destruct (Hsh L B Hs) as (gone & L1 & B1 & S1 & EL & T1). destruct (decide (nod_id i ∈ nod_id <$> L1)) as [(j & Ej & Hin)%list_elem_of_fmap|Hout].
  - assert (j = i) as ->.
    { assert (HjL : j ∈ L) by (rewrite EL; set_solver). assert (G1 : get_item n (nod_id i) = Some i) by (by apply (so_items n L B Hs)).
      assert (G2 : get_item n (nod_id i) = Some j) by (by apply (so_items n L B Hs)). congruence. }
    destruct (bucket_rep_some _ _ _ (so_buckets n1 L1 B1 S1) Hin) as (bu1 & Ebu1). destruct (T1 _ _ Ebu1) as (bu0 & Ebu0 & _ & _ & _ & K).
    destruct (remove_nod_spec n1 L1 B1 i S1 Hin) as (n2' & L2 & E' & EL2 & S2 & T2); [exists bu1; split; [done|congruence]|].
    rewrite E in E'. injection E' as <-. exists gone, L1, B1, L2. split_and!; [done|done|done|done|by eapply latched_trans].
  - exfalso. pose proof (so_wf n L B Hs) as Hwf. rewrite Forall_forall in Hwf. destruct (Hwf i Hi) as (Ho & _).
    destruct (remove_nod_absent n1 L1 B1 i S1 Ho Hout) as (e & Ee). congruence.
Qed.

(** The path of a successful call. *)
Lemma mine_gratis_inv w now caller id nonce asset vp w' amount :
  mine_gratis call w now caller id nonce asset vp = Ok (w', amount) ->
  exists i w1 n2 total, get_item (nw_nod w) id = Some i /\ owner i = caller /\ unlocks_at i <= now /\ validate_pow id nonce = Ok tt /\
    qualified_in (nw_nod w) (item_bucket_key i) /\ amount = gratis_load_minor i /\
    pay_cost call w caller (cost_amount_minor i) asset vp = Ok w1 /\ remove_nod (nw_nod w1) i = Ok n2 /\
    Gratis.mine (nw_gratis w1) caller amount = Ok (nw_gratis w', total) /\ nw_nod w' = nod_emit n2 (GratisMined caller id amount).
Proof.
  unfold mine_gratis. destruct (get_item (nw_nod w) id) as [i|] eqn:Ei; [cbn [ok_or]|done].
  destruct (caller =? owner i) eqn:Eo; [bools|done]. destruct (now <? unlocks_at i) eqn:Eu; [done|bools; cbn [negb]].
  destruct (validate_pow id nonce) as [[]|] eqn:Ep; [|done]. destruct (get_bucket _ (item_bucket_key i)) as [bu|] eqn:Eb; [cbn [ok_or]|done].
  destruct (is_qualified bu) eqn:Eq; [|done]. destruct (pay_cost _ _ _ _ _ _) as [w1|] eqn:Epay; [|done].
  destruct (remove_nod (nw_nod w1) i) as [n2|] eqn:Er; [|done]. destruct (Gratis.mine _ _ _) as [[g total]|] eqn:Eg; [|done]. intros [= <- <-].
  exists i, w1, n2, total. split_and!; try done. by exists bu.
Qed.

Lemma mine_shrinks w now caller id nonce asset vp w' amount :
  mine_gratis call w now caller id nonce asset vp = Ok (w', amount) -> shrinks (nw_nod w) (nw_nod w').
Proof.
  intros (i & w1 & n2 & total & Ei & _ & _ & _ & Hq & _ & Epay & Er & _ & ->)%mine_gratis_inv L B Hs.
  pose proof (proj1 (so_items _ L B Hs id i) Ei) as [Hi _].
  destruct (remove_after _ _ L B i n2 Hs (pay_cost_shrinks _ _ _ _ _ _ Epay) Hi Hq Er) as (gone & L1 & B1 & L' & _ & EL & S' & EL1 & T).
  exists (i :: gone), L', B1. split_and!; [by apply (stored_same n2)|rewrite EL, EL1; solve_Permutation|exact T].
Qed.

(** C20. Mining is safe under re-entrancy. Whatever the asset and vault contracts do
    in between, as long as their own effect on the store is to remove Nods, a
    successful [mine_gratis] was called by the owner of a stored Nod, after its
    unlock time, with a valid proof of work and a qualified bucket. The payment
    calls leave a store of the Nods [L1], all from before; the Nod is still among
    them, and it is the only one [mine_gratis] itself removes: afterwards the store
    holds exactly the other Nods of [L1] and all five indexes agree on them. The
    call returns the load of the Nod and mints exactly it, and as a whole it again
    only removes Nods. *)
Theorem mine_gratis_safe w L B now caller id nonce asset vp w' amount :
  stored (nw_nod w) L B -> mine_gratis call w now caller id nonce asset vp = Ok (w', amount) ->
  shrinks (nw_nod w) (nw_nod w') /\
  exists i, i ∈ L /\ nod_id i = id /\ owner i = caller /\ unlocks_at i <= now /\ validate_pow id nonce = Ok tt /\
    qualified_in (nw_nod w) (item_bucket_key i) /\ amount = gratis_load_minor i /\
    exists w1 gone L1 B1 L' total,
      pay_cost call w caller (cost_amount_minor i) asset vp = Ok w1 /\ stored (nw_nod w1) L1 B1 /\ L ≡ₚ gone ++ L1 /\
      stored (nw_nod w') L' B1 /\ L1 ≡ₚ i :: L' /\
      Gratis.mine (nw_gratis w1) caller amount = Ok (nw_gratis w', total).
Proof.
  intros Hs E. split; [by eapply mine_shrinks|]. destruct (mine_gratis_inv _ _ _ _ _ _ _ _ _ E) as (i & w1 & n2 & total & Ei & E1 & E2 & E3 & Hq & E4 & Epay & Er & Eg & ->).
  pose proof (proj1 (so_items _ L B Hs id i) Ei) as [Hi Eid].
  destruct (remove_after _ _ L B i n2 Hs (pay_cost_shrinks _ _ _ _ _ _ Epay) Hi Hq Er) as (gone & L1 & B1 & L' & S1 & EL & S' & EL1 & T).
  exists i. split_and!; try done. exists w1, gone, L1, B1, L', total. split_and!; try done. by apply (stored_same n2).
Qed.

(** ** Reachable stores *)

(** The worlds the chain can be in after [k] Nods were issued. *)
Inductive nod_run : nat -> NodWorld -> Prop :=
| run_empty g : nod_run 0 (mkNodWorld (mkNod 0 ∅ ∅ ∅ ∅ 0 ∅ ∅ ∅ ∅ (mkVec 0 ∅) ∅ []) g)
| run_issue k w now p w' id :
    nod_run k w -> address (p_owner p) -> 0 <= p_floor_price_minor p < 2 ^ 256 -> issue_nod w now p = Ok (w', id) -> nod_run (S k) w'
| run_qualify k w rate n' :
    nod_run k w -> 0 <= rate < 2 ^ 256 -> qualify_buckets_with_rate (nw_nod w) rate = Ok n' -> nod_run k (mkNodWorld n' (nw_gratis w))
| run_mine k w now caller id nonce asset vp w' amount :
    nod_run k w -> mine_gratis call w now caller id nonce asset vp = Ok (w', amount) -> nod_run k w'.

Lemma empty_stored : stored (mkNod 0 ∅ ∅ ∅ ∅ 0 ∅ ∅ ∅ ∅ (mkVec 0 ∅) ∅ []) [] (fun _ => []).
Proof.
  split.
  - intros id i. split; [done|]. intros [Hi _]. by apply not_elem_of_nil in Hi.
  - constructor.
  - split_and!; [split_and!; [done|done|intros i Hi; cbn in Hi; lia]|constructor|done].
  - intros o _. exists []. by split_and!.
  - intros k. done.
  - done.
  - destruct (empty_tree_rep (mkNod 0 ∅ ∅ ∅ ∅ 0 ∅ ∅ ∅ ∅ (mkVec 0 ∅) ∅ [])) as (Hok & Hc & _); [done..|]. split; try done.
    + intros b Hb. constructor.
    + intros b k Hb Hk. by apply not_elem_of_nil in Hk.
Qed.

Lemma qualify_inv n n' rate : 0 <= rate < 2 ^ 256 -> qualify_buckets_with_rate n rate = Ok n' -> priced rate.
Proof.
  intros Hr. unfold qualify_buckets_with_rate. destruct (rate =? 0) eqn:E0; bools; [intros _; split; [done|done]|].
  destruct (price_to_bin rate) as [b|] eqn:E; [|done]. intros _. by eapply priced_inv.
Qed.

Lemma run_stored k w :
  nod_run k w -> Z.of_nat k < 2 ^ 32 -> exists L B, stored (nw_nod w) L B /\ (length L <= k)%nat.
Proof.
  induction 1 as [g|k w now p w' id _ IH Ho Hfl E|k w rate n' _ IH Hr E|k w now caller id nonce asset vp w' amount _ IH E]; intros Hk.
  - exists [], (fun _ => []). split; [exact empty_stored|done].
  - destruct IH as (L & B & Hs & Hlen); [lia|]. destruct (issue_inv w L B now p w' id Hs Hfl E) as (Ho0 & Had & Hun & Hout).
    destruct (issue_spec w L B now p) as (n' & B' & E' & Hs'); [done..|lia|done|]. rewrite E' in E. injection E as <- _.
    exists (L ++ [issued_item now p]), B'. split; [done|]. rewrite length_app. cbn. lia.
  - destruct IH as (L & B & Hs & Hlen); [done|]. destruct (qualify_stored (nw_nod w) L B rate Hs (qualify_inv _ _ _ Hr E)) as (n2 & B2 & E2 & S2 & _ & _).
    rewrite E2 in E. injection E as <-. by exists L, B2.
  - destruct IH as (L & B & Hs & Hlen); [done|]. pose proof (mine_shrinks _ _ _ _ _ _ _ _ _ E L B Hs) as (gone & L' & B' & Hs' & EL & _).
    exists L', B'. split; [done|]. rewrite EL, length_app in Hlen. lia.
Qed.

Lemma owner_list_read n o O : owner_list (owner_nod_counts n) (owner_nod_ids n) o O -> get_nods_by_owner n o = O.
Proof.
  intros [Hc Hs]. unfold get_nods_by_owner. rewrite Hc. apply list_eq. intros j. rewrite list_lookup_fmap. destruct (O !! j) as [x|] eqn:E.
  - pose proof (lookup_lt_Some _ _ _ E). rewrite lookup_seqZ_lt by lia. cbn. rewrite Z.add_0_l. f_equal. by apply Hs.
  - apply lookup_ge_None_1 in E. by rewrite lookup_seqZ_ge by lia.
Qed.

Lemma stored_data n L B i :
  stored n L B -> i ∈ L ->
  exists bu, get_nod_data n (nod_id i) = Ok (i, bu) /\ total_nods bu = Z.of_nat (length (items_in (item_bucket_key i) L)).
Proof.
  intros Hs Hi. unfold get_nod_data. rewrite (proj2 (so_items n L B Hs (nod_id i) i)) by done. cbn [ok_or].
  pose proof (so_wf n L B Hs) as Hwf. rewrite Forall_forall in Hwf. destruct (Hwf i Hi) as (_ & _ & _ & <-).
  destruct (bucket_rep_some _ _ _ (so_buckets n L B Hs) Hi) as (bu & Eb). unfold get_bucket. rewrite Eb. exists bu. split; [done|].
  pose proof (so_buckets n L B Hs (item_bucket_key i)) as Hk. by rewrite Eb in Hk.
Qed.

(** C21. In every state the chain can reach by issuing, qualifying and mining Nods,
    the five indexes of the store describe one list of Nods: the items, the
    global enumeration and its positions, every owner's enumeration, the bucket
    totals and the supply agree, and the price bins hold exactly the unqualified
    buckets. *)
Theorem nod_indexes_agree k w :
  nod_run k w -> Z.of_nat k < 2 ^ 32 ->
  exists L B, stored (nw_nod w) L B /\ (length L <= k)%nat /\
    vec_read_all (global_nod_ids (nw_nod w)) = nod_id <$> L /\
    (forall o, address o -> get_nods_by_owner (nw_nod w) o ≡ₚ nod_id <$> items_of o L) /\
    forall i, i ∈ L -> exists bu, get_nod_data (nw_nod w) (nod_id i) = Ok (i, bu) /\ total_nods bu = Z.of_nat (length (items_in (item_bucket_key i) L)).
Proof.
  intros Hrun Hk. destruct (run_stored k w Hrun Hk) as (L & B & Hs & Hlen). exists L, B. split_and!; [done|done| | |].
  - apply vec_rep_read_all, Hs.
  - intros o Ho. destruct (so_owners _ L B Hs o Ho) as (O & Hl & <-). by rewrite (owner_list_read _ _ _ Hl).
  - intros i Hi. by apply (stored_data _ L B).
Qed.

(** C22. The begin-block hook qualifies exactly the buckets it should. In every
    reachable state and for every rate on the price ladder the walk over the
    bins ends without an error, and each bucket is qualified afterwards iff it
    already was or its exact floor price is at most the rate, although the walk
    only tests exact prices in the last bin; nothing else changes and the
    indexes still agree. *)
Theorem qualify_exact k w rate :
  nod_run k w -> Z.of_nat k < 2 ^ 32 -> priced rate ->
  exists n', qualify_buckets_with_rate (nw_nod w) rate = Ok n' /\ (exists L B, stored n' L B) /\ rest n' = rest (nw_nod w) /\
    (forall key, get_bucket n' key = None <-> get_bucket (nw_nod w) key = None) /\
    forall key bu, get_bucket (nw_nod w) key = Some bu ->
      exists bu', get_bucket n' key = Some bu' /\ bucket_floor bu' = bucket_floor bu /\ total_nods bu' = total_nods bu /\
        (is_qualified bu' = true <-> is_qualified bu = true \/ (rate <> 0 /\ bucket_floor bu <= rate)).
Proof.
  intros Hrun Hk Hr. destruct (run_stored k w Hrun Hk) as (L & B & Hs & _).
  destruct (qualify_stored (nw_nod w) L B rate Hs Hr) as (n' & B' & E & S' & R' & Hget). exists n'. split_and!; [done|by eauto|done| |].
  - intros key. rewrite Hget. by destruct (get_bucket (nw_nod w) key).
  - intros key bu Eb. rewrite Hget, Eb. eexists. split; [done|]. cbn. split_and!; [done|done|].
    destruct (is_qualified bu); cbn [orb]; [naive_solver|]. rewrite andb_true_iff, negb_true_iff, Z.eqb_neq, Z.leb_le. naive_solver.
Qed.
End Mining.
End Store.

(** ** A sample run *)

#[local] Existing Instance sample_crypto.
#[local] Existing Instance sample_keccak.

Definition sample_call (w : NodWorld) (a : Address) (c : ExtCall) : res NodWorld := Ok w.
Definition sample_issue : NodIssueParams := mkIssue 7 20250101 1 0 100 1 50 840 840.
Definition sample_empty : NodWorld := mkNodWorld (mkNod 0 ∅ ∅ ∅ ∅ 0 ∅ ∅ ∅ ∅ (mkVec 0 ∅) ∅ []) (Gratis.mkGratis 0 ∅ ∅ []).
Definition sample_issued : NodWorld := match issue_nod sample_empty 1000 sample_issue with Ok (w, _) => w | Err _ => sample_empty end.
Definition sample_ripe : NodContract :=
  match qualify_buckets_with_rate (nw_nod sample_issued) (10 ^ 18) with Ok n => n | Err _ => nw_nod sample_empty end.
Definition sample_qualified : NodWorld := mkNodWorld sample_ripe (nw_gratis sample_issued).
Definition sample_id : Z := generate_nod_id 7 20250101.

Lemma sample_call_shrinks w a c w' : sample_call w a c = Ok w' -> shrinks (nw_nod w) (nw_nod w').
Proof. intros [= <-]. reflexivity. Qed.

Lemma sample_run_issued : nod_run sample_call 1 sample_issued.
Proof. eapply (run_issue _ 0 sample_empty 1000 sample_issue _ sample_id); [constructor|done|done|vm_compute; reflexivity]. Qed.

Lemma sample_run : nod_run sample_call 1 sample_qualified.
Proof. apply (run_qualify sample_call 1 sample_issued (10 ^ 18) sample_ripe sample_run_issued); [done|vm_compute; reflexivity]. Qed.

Lemma nod_indexes_agree_witness :
  nod_run sample_call 1 sample_qualified /\ Z.of_nat 1 < 2 ^ 32 /\
  exists L B, stored (nw_nod sample_qualified) L B /\ (length L <= 1)%nat /\ vec_read_all (global_nod_ids (nw_nod sample_qualified)) = nod_id <$> L.
Proof.
  split; [exact sample_run|]. split; [reflexivity|].
  destruct (nod_indexes_agree sample_call sample_call_shrinks 1 sample_qualified sample_run eq_refl) as (L & B & Hs & Hl & Hv & _).
  exists L, B. split; [exact Hs|]. split; [exact Hl|exact Hv].
Defined.

Lemma qualify_exact_witness :
  nod_run sample_call 1 sample_issued /\ priced (10 ^ 18) /\
  exists n', qualify_buckets_with_rate (nw_nod sample_issued) (10 ^ 18) = Ok n' /\ rest n' = rest (nw_nod sample_issued).
Proof.
  assert (Hp : priced (10 ^ 18)) by (split; [split; [discriminate|reflexivity]|intros _; split; vm_compute; reflexivity]).
  split; [exact sample_run_issued|]. split; [exact Hp|].
  destruct (qualify_exact sample_call sample_call_shrinks 1 sample_issued (10 ^ 18) sample_run_issued eq_refl Hp) as (n' & E & _ & Er & _).
  exists n'. split; [exact E|exact Er].
Defined.

Lemma mine_gratis_safe_witness :
  exists L B w' i, stored (nw_nod sample_qualified) L B /\ mine_gratis sample_call sample_qualified 2000000 7 sample_id 3 5 6 = Ok (w', 100) /\
    nod_id i = sample_id /\ L ≡ₚ [i].
Proof.
  destruct (run_stored sample_call sample_call_shrinks 1 sample_qualified sample_run eq_refl) as (L & B & Hs & Hl).
  assert (E : exists w', mine_gratis sample_call sample_qualified 2000000 7 sample_id 3 5 6 = Ok (w', 100)) by (eexists; vm_compute; reflexivity).
  destruct E as (w' & E). exists L, B, w'.
  destruct (mine_gratis_safe sample_call sample_call_shrinks sample_qualified L B 2000000 7 sample_id 3 5 6 w' 100 Hs E) as (_ & i & _ & Hid & _ & _ & _ & _ & _ & w1 & gone & L1 & B1 & L' & total & _ & _ & EL & _ & EL1 & _).
  exists i. split; [exact Hs|]. split; [exact E|]. split; [exact Hid|]. rewrite EL1 in EL.
  pose proof (Permutation_length EL) as Hlen. rewrite length_app in Hlen. cbn [length] in Hlen.
  destruct gone; [|cbn [length] in Hlen; lia]. destruct L'; [exact EL|cbn [length] in Hlen; lia].
Defined.
