(* ===== verification/Metadata.v ===== *)
(** * Metadata: the certified-parent accounting codec

    [crates/blockchain/primitives/src/consensus_metadata.rs]: the metadata every
    block carries about its certified parent and its wire format, written with the
    mutable offset of the code threaded through the readers. Byte strings are
    lists of values below 256; hashes and addresses are the integers of their
    big-endian bytes. The RLP wrapper is third-party code and left out. *)

From S2P Require Import Prelude.

(** ** Data *)

Inductive ParentParticipationProof : Type := Finalization | CertifiedNotarization.

Definition tag (p : ParentParticipationProof) : u8 :=
  match p with
  | Finalization => 0
  | CertifiedNotarization => 1
  end.

Definition from_tag (t : u8) : res ParentParticipationProof :=
  if t =? 0 then Ok Finalization
  else if t =? 1 then Ok CertifiedNotarization
  else Err (Fatal "invalid ParentParticipationProof tag").

Record MissedProposerEvent := mkMissed { view : u64; validator : Address }.

Record CertifiedParentAccountingMetadata := mkMetadata {
  finalized_block_number : u64;
  finalized_block_hash : B256;
  finalized_epoch : u64;
  finalized_view : u64;
  parent_view : u64;
  ordered_committee : list Address;
  signer_bitmap : list Z;
  proof : list Z;
  committee_set_hash : B256;
  vrf_material_version : u64;
  vrf_group_public_key_hash : B256;
  proof_kind : ParentParticipationProof;
  missed_proposers : list MissedProposerEvent
}.

(** ** Encoding *)

(** The ASCII bytes of ["OAV3"]. *)
Definition CERTIFIED_PARENT_ACCOUNTING_MAGIC : list Z := [79; 65; 86; 51].
Definition CERTIFIED_PARENT_ACCOUNTING_VERSION : u8 := 1.

Definition ensure_count_fits_u16 (count : Z) : res unit :=
  ensure negb (count >? 2 ^ 16 - 1) else Fatal "list exceeds u16 count limit" in Ok tt.

Definition ensure_len_fits_u32 (length : Z) : res unit :=
  ensure negb (length >? 2 ^ 32 - 1) else Fatal "exceeds u32 length limit" in Ok tt.

Definition encode_addresses (buf : list Z) (addrs : list Address) : list Z :=
  foldl (fun buf addr => buf ++ be_bytes 20 addr) (buf ++ be_bytes 2 (len addrs mod 2 ^ 16)) addrs.

Definition encode_bytes_u16 (buf data : list Z) : res (list Z) :=
  let? _ := ensure_count_fits_u16 (len data) in
  Ok (buf ++ be_bytes 2 (len data mod 2 ^ 16) ++ data).

Definition encode_bytes_u32 (buf data : list Z) : list Z :=
  buf ++ be_bytes 4 (len data mod 2 ^ 32) ++ data.

Definition encode (m : CertifiedParentAccountingMetadata) : res (list Z) :=
  let? _ := ensure_count_fits_u16 (len (ordered_committee m)) in
  let? _ := ensure_count_fits_u16 (len (signer_bitmap m)) in
  let? _ := ensure_count_fits_u16 (len (missed_proposers m)) in
  let? _ := ensure_len_fits_u32 (len (proof m)) in
  let buf := CERTIFIED_PARENT_ACCOUNTING_MAGIC in
  let buf := buf ++ [CERTIFIED_PARENT_ACCOUNTING_VERSION] in
  let buf := buf ++ be_bytes 8 (finalized_block_number m) in
  let buf := buf ++ be_bytes 32 (finalized_block_hash m) in
  let buf := buf ++ be_bytes 8 (finalized_epoch m) in
  let buf := buf ++ be_bytes 8 (finalized_view m) in
  let buf := buf ++ be_bytes 8 (parent_view m) in
  let buf := encode_addresses buf (ordered_committee m) in
  let? buf := encode_bytes_u16 buf (signer_bitmap m) in
  let buf := encode_bytes_u32 buf (proof m) in
  let buf := buf ++ be_bytes 32 (committee_set_hash m) in
  let buf := buf ++ be_bytes 8 (vrf_material_version m) in
  let buf := buf ++ be_bytes 32 (vrf_group_public_key_hash m) in
  let buf := buf ++ [tag (proof_kind m)] in
  let buf := buf ++ be_bytes 2 (len (missed_proposers m) mod 2 ^ 16) in
  Ok (foldl (fun buf ev => (buf ++ be_bytes 8 (view ev)) ++ be_bytes 20 (validator ev)) buf (missed_proposers m)).

(** ** Decoding *)

(** [data.get(a..b)] *)
Definition get_range (data : list Z) (a b : Z) : option (list Z) :=
  if (a <=? b) && (b <=? len data) then Some (take (Z.to_nat (b - a)) (drop (Z.to_nat a) data)) else None.

Definition read_u8 (data : list Z) (offset : Z) : res (u8 * Z) :=
  let? b := ok_or (data !! Z.to_nat offset) (Fatal "unexpected EOF reading u8") in
  Ok (b, offset + 1).

Definition read_u64 (data : list Z) (offset : Z) : res (u64 * Z) :=
  let end_ := saturating_add 64 offset 8 in
  let? bytes := ok_or (get_range data offset end_) (Fatal "unexpected EOF reading u64") in
  Ok (from_be_bytes bytes, end_).

Definition read_b256 (data : list Z) (offset : Z) : res (B256 * Z) :=
  let end_ := saturating_add 64 offset 32 in
  let? bytes := ok_or (get_range data offset end_) (Fatal "unexpected EOF reading B256") in
  Ok (from_be_bytes bytes, end_).

(** [bytes.chunks_exact(n)] *)
Fixpoint chunks_exact (fuel n : nat) (l : list Z) : list (list Z) :=
  match fuel with
  | O => []
  | S fuel => if bool_decide (n <= length l)%nat then take n l :: chunks_exact fuel n (drop n l) else []
  end.

Definition read_addresses (data : list Z) (offset : Z) : res (list Address * Z) :=
  let count_end := saturating_add 64 offset 2 in
  let? count_bytes := ok_or (get_range data offset count_end) (Fatal "unexpected EOF reading address count") in
  let offset := count_end in
  let count := from_be_bytes count_bytes in
  let? bytes_len := ok_or (checked_mul 64 count 20) (Fatal "address list length overflow") in
  let end_ := saturating_add 64 offset bytes_len in
  let? bytes := ok_or (get_range data offset end_) (Fatal "unexpected EOF reading address list") in
  Ok (from_be_bytes <$> chunks_exact (length bytes) 20 bytes, end_).

Definition read_bytes_u16 (data : list Z) (offset : Z) : res (list Z * Z) :=
  let count_end := saturating_add 64 offset 2 in
  let? count_bytes := ok_or (get_range data offset count_end) (Fatal "unexpected EOF reading byte length") in
  let offset := count_end in
  let end_ := saturating_add 64 offset (from_be_bytes count_bytes) in
  let? bytes := ok_or (get_range data offset end_) (Fatal "unexpected EOF reading bytes") in
  Ok (bytes, end_).

Definition read_bytes_u32 (data : list Z) (offset : Z) : res (list Z * Z) :=
  let count_end := saturating_add 64 offset 4 in
  let? count_bytes := ok_or (get_range data offset count_end) (Fatal "unexpected EOF reading byte length") in
  let offset := count_end in
  let end_ := saturating_add 64 offset (from_be_bytes count_bytes) in
  let? bytes := ok_or (get_range data offset end_) (Fatal "unexpected EOF reading bytes") in
  Ok (bytes, end_).

(** The loop of [read_missed_proposers]. *)
Fixpoint read_events (count : nat) (data : list Z) (offset : Z) : res (list MissedProposerEvent * Z) :=
  match count with
  | O => Ok ([], offset)
  | S count =>
      let? (view, offset) := read_u64 data offset in
      let end_ := saturating_add 64 offset 20 in
      let? bytes := ok_or (get_range data offset end_) (Fatal "unexpected EOF reading missed-proposer validator") in
      let? (events, offset) := read_events count data end_ in
      Ok (mkMissed view (from_be_bytes bytes) :: events, offset)
  end.

Definition read_missed_proposers (data : list Z) (offset : Z) : res (list MissedProposerEvent * Z) :=
  let count_end := saturating_add 64 offset 2 in
  let? count_bytes := ok_or (get_range data offset count_end) (Fatal "unexpected EOF reading missed-proposer count") in
  read_events (Z.to_nat (from_be_bytes count_bytes)) data count_end.

Definition MIN_LEN : Z := 4 + 1 + 8 + 32 + 8 + 8 + 8 + 2 + 2 + 4 + 32 + 8 + 32 + 1 + 2.

Definition decode (data : list Z) : res CertifiedParentAccountingMetadata :=
  ensure negb (len data <? MIN_LEN) else Fatal "certified-parent accounting metadata too short" in
  ensure bool_decide (take 4 data = CERTIFIED_PARENT_ACCOUNTING_MAGIC) else Fatal "invalid certified-parent accounting magic" in
  ensure bool_decide (data !! 4%nat = Some CERTIFIED_PARENT_ACCOUNTING_VERSION)
    else Fatal "unsupported certified-parent accounting version" in
  let offset := 5 in
  let? (finalized_block_number, offset) := read_u64 data offset in
  let? (finalized_block_hash, offset) := read_b256 data offset in
  let? (finalized_epoch, offset) := read_u64 data offset in
  let? (finalized_view, offset) := read_u64 data offset in
  let? (parent_view, offset) := read_u64 data offset in
  let? (ordered_committee, offset) := read_addresses data offset in
  let? (signer_bitmap, offset) := read_bytes_u16 data offset in
  let? (proof, offset) := read_bytes_u32 data offset in
  let? (committee_set_hash, offset) := read_b256 data offset in
  let? (vrf_material_version, offset) := read_u64 data offset in
  let? (vrf_group_public_key_hash, offset) := read_b256 data offset in
  let? (t, offset) := read_u8 data offset in
  let? proof_kind := from_tag t in
  let? (missed_proposers, offset) := read_missed_proposers data offset in
  ensure offset =? len data else Fatal "trailing bytes in certified-parent accounting metadata" in
  Ok (mkMetadata finalized_block_number finalized_block_hash finalized_epoch finalized_view parent_view ordered_committee
    signer_bitmap proof committee_set_hash vrf_material_version vrf_group_public_key_hash proof_kind missed_proposers).

(** ** Readers as codecs

    [reads data a s b] says that the bytes from [a] to [b] are [s]. A reader
    decodes a field of type [A] when it succeeds exactly on the encodings of
    valid values, whatever surrounds them; the statements for the fields compose
    to the one for the whole message, in both directions at once. *)

Definition reads (data : list Z) (a : Z) (s : list Z) (b : Z) : Prop :=
  0 <= a /\ b = a + len s /\ b <= len data /\ take (length s) (drop (Z.to_nat a) data) = s.

Class Codec {A} (read : list Z -> Z -> res (A * Z)) (enc : A -> list Z) (ok : A -> Prop) : Prop :=
  codec_iff data a x b :
    bytes data -> len data < 2 ^ 63 -> 0 <= a -> read data a = Ok (x, b) <-> reads data a (enc x) b /\ ok x.

Lemma reads_app data a s t c : reads data a (s ++ t) c <-> exists b, reads data a s b /\ reads data b t c.
Proof.
  unfold reads, len. rewrite length_app. split.
  - intros (Ha & -> & Hc & E). exists (a + Z.of_nat (length s)). rewrite <- take_take_drop in E.
    assert (Hl : length (take (length s) (drop (Z.to_nat a) data)) = length s) by (rewrite length_take, length_drop; lia).
    apply app_inj_1 in E as [E1 E2]; [|done]. rewrite drop_drop in E2. replace (Z.to_nat a + length s)%nat with (Z.to_nat (a + Z.of_nat (length s))) in E2 by lia.
    split_and!; first [done|lia].
  - intros (b & (Ha & -> & _ & E1) & (_ & -> & Hc & E2)). split_and!; [done|lia|lia|]. rewrite <- take_take_drop. f_equal; [done|].
    rewrite drop_drop. replace (Z.to_nat a + length s)%nat with (Z.to_nat (a + Z.of_nat (length s))) by lia. done.
Qed.

Lemma reads_all data s : reads data 0 s (len data) <-> data = s.
Proof.
  unfold reads, len. rewrite drop_0. split.
  - intros (_ & E & _ & Et). rewrite <- Et. rewrite firstn_all2 by lia. done.
  - intros ->. rewrite firstn_all. split_and!; lia || done.
Qed.

Lemma reads_length data a s b : reads data a s b -> len s = b - a.
Proof. intros (_ & -> & _). lia. Qed.

Lemma reads_nonneg data a s b : reads data a s b -> 0 <= b.
Proof. unfold reads, len. lia. Qed.

Lemma reads_end data a s b : reads data a s b -> 0 <= b <= len data.
Proof. unfold reads, len. lia. Qed.

Lemma get_range_iff data a k s :
  0 <= a -> 0 <= k -> get_range data a (a + k) = Some s <-> reads data a s (a + k).
Proof.
  intros Ha Hk. unfold get_range, reads, len. rewrite (proj2 (Z.leb_le a (a + k))) by lia. cbn [andb].
  destruct (a + k <=? Z.of_nat (length data)) eqn:E; bools; replace (a + k - a) with k by lia; split.
  - intros [= <-]. rewrite length_take, length_drop. split_and!; [done|lia|done|]. f_equal. lia.
  - intros (_ & El & _ & <-). do 2 f_equal. lia.
  - done.
  - intros (_ & _ & Hc & _). lia.
Qed.

Lemma be_bytes_from l : bytes l -> be_bytes (length l) (from_be_bytes l) = l.
Proof.
  intros Hl. apply from_be_bytes_inj; [apply length_be_bytes|apply be_bytes_range|done|]. apply from_be_bytes_be_bytes. by apply from_be_bytes_bound.
Qed.

Lemma reads_bytes data a s b : bytes data -> reads data a s b -> bytes s.
Proof. intros Hd (_ & _ & _ & <-). unfold bytes. by apply Forall_take, Forall_drop. Qed.

(** A big-endian integer of [k] bytes. *)
Lemma read_be_iff k data a x b :
  bytes data -> len data < 2 ^ 63 -> 0 <= a -> Z.of_nat k < 2 ^ 62 ->
  (exists s, get_range data a (saturating_add 64 a (Z.of_nat k)) = Some s /\ x = from_be_bytes s /\ b = saturating_add 64 a (Z.of_nat k)) <->
  reads data a (be_bytes k x) b /\ 0 <= x < 256 ^ Z.of_nat k.
Proof.
  intros Hd Hl Ha Hk. unfold saturating_add. destruct (decide (a + Z.of_nat k <= 2 ^ 64 - 1)) as [Hs|Hs].
  - rewrite Z.min_l by lia. split.
    + intros (s & E & -> & ->). apply get_range_iff in E; [|lia..]. assert (Hlen : length s = k) by (pose proof (reads_length _ _ _ _ E); unfold len in *; lia).
      pose proof (reads_bytes _ _ _ _ Hd E) as Hb. rewrite <- Hlen, be_bytes_from by done. rewrite Hlen. split; [done|]. rewrite <- Hlen. by apply from_be_bytes_bound.
    + intros [E Hx]. assert (b = a + Z.of_nat k) as -> by (pose proof (reads_length _ _ _ _ E) as Hlen; unfold len in Hlen; rewrite length_be_bytes in Hlen; lia).
      exists (be_bytes k x). rewrite get_range_iff by lia. rewrite from_be_bytes_be_bytes by done. done.
  - rewrite Z.min_r by lia. split.
    + intros (s & E & _). unfold get_range in E. rewrite (proj2 (Z.leb_gt (2 ^ 64 - 1) (len data))), andb_false_r in E by lia. done.
    + intros [(_ & -> & Hc & _) _]. unfold len in Hc. rewrite length_be_bytes in Hc. unfold len in *. lia.
Qed.

(** A byte string of a length that was read before. *)
Lemma read_range_iff n data a s b :
  len data < 2 ^ 63 -> 0 <= a -> 0 <= n < 2 ^ 62 ->
  get_range data a (saturating_add 64 a n) = Some s /\ b = saturating_add 64 a n <-> reads data a s b /\ len s = n.
Proof.
  intros Hl Ha Hn. unfold saturating_add. destruct (decide (a + n <= 2 ^ 64 - 1)) as [Hs|Hs].
  - rewrite Z.min_l by lia. rewrite get_range_iff by lia. split.
    + intros [E ->]. split; [done|]. pose proof (reads_length _ _ _ _ E). lia.
    + intros [E El]. assert (b = a + n) as -> by (pose proof (reads_length _ _ _ _ E); lia). done.
  - rewrite Z.min_r by lia. split.
    + intros [E _]. unfold get_range in E. rewrite (proj2 (Z.leb_gt (2 ^ 64 - 1) (len data))), andb_false_r in E by lia. done.
    + intros [(_ & -> & Hc & _) El]. lia.
Qed.

Lemma ok_or_bind {A R} (o : option A) e (k : A -> res R) r :
  (let? x := ok_or o e in k x) = Ok r <-> exists x, o = Some x /\ k x = Ok r.
Proof. destruct o as [x|]; cbn; split; [by eauto|by intros (y & [= <-] & E)|done|by intros (y & ? & _)]. Qed.

#[global] Instance u64_codec : Codec read_u64 (be_bytes 8) (fits 64).
Proof.
  intros data a x b Hd Hl Ha. unfold read_u64. rewrite ok_or_bind. change (fits 64 x) with (0 <= x < 256 ^ Z.of_nat 8). rewrite <- read_be_iff by done.
  split; intros (s & E & E'); exists s; [injection E' as <- <-; done|destruct E' as [-> ->]; done].
Qed.

#[global] Instance b256_codec : Codec read_b256 (be_bytes 32) (fits 256).
Proof.
  intros data a x b Hd Hl Ha. unfold read_b256. rewrite ok_or_bind. change (fits 256 x) with (0 <= x < 256 ^ Z.of_nat 32). rewrite <- read_be_iff by done.
  split; intros (s & E & E'); exists s; [injection E' as <- <-; done|destruct E' as [-> ->]; done].
Qed.

#[global] Instance u8_codec : Codec read_u8 (fun x => [x]) (fits 8).
Proof.
  intros data a x b Hd Hl Ha. unfold read_u8. rewrite ok_or_bind. unfold reads. change (len [x]) with 1. split.
  - intros (y & E & [= <- <-]). pose proof (lookup_lt_Some _ _ _ E). split; [split_and!; [done|done|unfold len; lia|]|].
    + cbn [length]. by rewrite (drop_S _ _ _ E).
    + exact (proj1 (Forall_lookup _ _) Hd _ _ E).
  - intros [(_ & -> & _ & E) _]. exists x. split; [|done]. replace (Z.to_nat a) with (Z.to_nat a + 0)%nat by lia. rewrite <- lookup_drop.
    cbn [length] in E. destruct (drop (Z.to_nat a) data); [done|]. cbn in E. by injection E as <-.
Qed.

(** Two length bytes, then the string. *)
Definition counted (k : nat) (s : list Z) : list Z := be_bytes k (len s) ++ s.

Lemma counted_iff k data a s c :
  bytes data -> len data < 2 ^ 63 -> 0 <= a -> (k <= 4)%nat ->
  (exists cb, get_range data a (saturating_add 64 a (Z.of_nat k)) = Some cb /\
    get_range data (saturating_add 64 a (Z.of_nat k)) (saturating_add 64 (saturating_add 64 a (Z.of_nat k)) (from_be_bytes cb)) = Some s /\
    c = saturating_add 64 (saturating_add 64 a (Z.of_nat k)) (from_be_bytes cb)) <->
  reads data a (counted k s) c /\ bytes s /\ len s < 256 ^ Z.of_nat k.
Proof.
  intros Hd Hl Ha Hk. assert (Hp : 256 ^ Z.of_nat k <= 2 ^ 32) by (change (2 ^ 32) with (256 ^ 4); apply Z.pow_le_mono_r; lia). unfold counted. rewrite reads_app. split.
  - intros (cb & E1 & E2 & ->). destruct (proj1 (read_be_iff k data a (from_be_bytes cb) _ Hd Hl Ha ltac:(lia)) (ex_intro _ cb (conj E1 (conj eq_refl eq_refl)))) as [R Hx].
    set (b := saturating_add 64 a (Z.of_nat k)) in *. pose proof (reads_nonneg _ _ _ _ R).
    destruct (proj1 (read_range_iff (from_be_bytes cb) data b s _ Hl ltac:(lia) ltac:(lia)) (conj E2 eq_refl)) as [R2 En].
    rewrite En. split; [exists b; split; [exact R|exact R2]|]. split; [by eapply reads_bytes|lia].
  - intros ((b & R1 & R2) & Hs & Hn). destruct (proj2 (read_be_iff k data a (len s) b Hd Hl Ha ltac:(lia))) as (cb & E1 & Ec & ->); [split; [done|unfold len in *; lia]|].
    exists cb. split; [done|]. rewrite <- Ec. pose proof (reads_nonneg _ _ _ _ R1). apply read_range_iff; [done|lia|unfold len in *; lia|done].
Qed.

#[global] Instance bytes_u16_codec : Codec read_bytes_u16 (counted 2) (fun s => bytes s /\ len s < 2 ^ 16).
Proof.
  intros data a s c Hd Hl Ha. unfold read_bytes_u16. rewrite ok_or_bind. setoid_rewrite ok_or_bind. change (2 ^ 16) with (256 ^ Z.of_nat 2). rewrite <- counted_iff by (done || lia).
  split; [intros (cb & E1 & s' & E2 & [= -> <-]); by eauto|intros (cb & E1 & E2 & ->); by eauto 6].
Qed.

#[global] Instance bytes_u32_codec : Codec read_bytes_u32 (counted 4) (fun s => bytes s /\ len s < 2 ^ 32).
Proof.
  intros data a s c Hd Hl Ha. unfold read_bytes_u32. rewrite ok_or_bind. setoid_rewrite ok_or_bind. change (2 ^ 32) with (256 ^ Z.of_nat 4). rewrite <- counted_iff by (done || lia).
  split; [intros (cb & E1 & s' & E2 & [= -> <-]); by eauto|intros (cb & E1 & E2 & ->); by eauto 6].
Qed.

(** ** Lists of addresses and events *)

Definition address_bytes (l : list Z) : list Z := concat (be_bytes 20 <$> l).

Lemma length_address_bytes l : length (address_bytes l) = (20 * length l)%nat.
Proof. induction l as [|x l IH]; [done|]. cbn [address_bytes fmap list_fmap concat]. rewrite length_app, length_be_bytes. fold (address_bytes l). rewrite IH. cbn [length]. lia. Qed.

Lemma chunks_address_bytes l fuel :
  Forall (fits 160) l -> (length l <= fuel)%nat -> from_be_bytes <$> chunks_exact fuel 20 (address_bytes l) = l.
Proof.
  intros Hl. revert fuel. induction Hl as [|x l Hx Hl IH]; intros fuel Hf; [by destruct fuel|]. destruct fuel as [|fuel]; [cbn [length] in Hf; lia|].
  cbn [address_bytes fmap list_fmap concat chunks_exact]. fold (address_bytes l). cbn [length] in Hf.
  rewrite length_app, length_be_bytes, bool_decide_eq_true_2 by lia. rewrite take_app_length', drop_app_length' by (by rewrite length_be_bytes).
  cbn [fmap list_fmap]. f_equal; [by apply from_be_bytes_be_bytes|]. apply IH. lia.
Qed.

Lemma address_bytes_chunks n s fuel :
  bytes s -> length s = (20 * n)%nat -> (n <= fuel)%nat ->
  let l := from_be_bytes <$> chunks_exact fuel 20 s in s = address_bytes l /\ length l = n /\ Forall (fits 160) l.
Proof.
  revert s fuel. induction n as [|n IH]; intros s fuel Hs Hl Hf.
  - apply nil_length_inv in Hl as ->. destruct fuel as [|fuel]; cbn; [done|]. rewrite bool_decide_eq_false_2 by (cbn; lia). done.
  - destruct fuel as [|fuel]; [lia|]. cbn [chunks_exact]. rewrite bool_decide_eq_true_2 by lia.
    destruct (IH (drop 20 s) fuel) as (E1 & E2 & E3); [by apply Forall_drop|rewrite length_drop; lia|lia|]. cbn [fmap list_fmap].
    assert (Ht : length (take 20 s) = 20%nat) by (rewrite length_take; lia). assert (Hb : bytes (take 20 s)) by (by apply Forall_take).
    split_and!; [|cbn [length]; by rewrite E2|].
    + cbn [address_bytes fmap list_fmap concat]. pose proof (be_bytes_from _ Hb) as Hbb. rewrite Ht in Hbb. rewrite Hbb. fold (address_bytes (from_be_bytes <$> chunks_exact fuel 20 (drop 20 s))).
      rewrite <- E1. by rewrite take_drop.
    + constructor; [|done]. pose proof (from_be_bytes_bound _ Hb) as Hx. rewrite Ht in Hx. exact Hx.
Qed.

Definition counted_addresses (l : list Z) : list Z := be_bytes 2 (len l) ++ address_bytes l.

#[global] Instance addresses_codec : Codec read_addresses counted_addresses (fun l => Forall (fits 160) l /\ len l < 2 ^ 16).
Proof.
  intros data a l c Hd Hl Ha. unfold read_addresses, counted_addresses. rewrite ok_or_bind, reads_app. change (2 ^ 16) with (256 ^ Z.of_nat 2). split.
  - intros (cb & E1 & E). cbv zeta in E. apply ok_or_bind in E as (n & En & E). apply ok_or_bind in E as (s & E2 & [= <- <-]).
    destruct (proj1 (read_be_iff 2 data a (from_be_bytes cb) _ Hd Hl Ha ltac:(lia)) (ex_intro _ cb (conj E1 (conj eq_refl eq_refl)))) as [R Hx].
    change (saturating_add 64 a 2) with (saturating_add 64 a (Z.of_nat 2)) in *. set (b := saturating_add 64 a (Z.of_nat 2)) in *. pose proof (reads_nonneg _ _ _ _ R).
    apply checked_mul_Some in En as [-> _]. destruct (proj1 (read_range_iff (from_be_bytes cb * 20) data b s _ Hl ltac:(lia) ltac:(lia)) (conj E2 eq_refl)) as [R2 Hs].
    destruct (address_bytes_chunks (Z.to_nat (from_be_bytes cb)) s (length s)) as (K1 & K2 & K3); [by eapply reads_bytes|unfold len in Hs; lia|unfold len in Hs; lia|].
    cbv zeta in *. assert (Hn : len (from_be_bytes <$> chunks_exact (length s) 20 s) = from_be_bytes cb) by (unfold len; lia).
    rewrite Hn, <- K1. split; [exists b; split; [exact R|exact R2]|]. split; [done|lia].
  - intros ((b & R1 & R2) & Hv & Hn). destruct (proj2 (read_be_iff 2 data a (len l) b Hd Hl Ha ltac:(lia))) as (cb & E1 & Ec & ->); [split; [done|unfold len in *; lia]|].
    exists cb. split; [done|]. cbv zeta. rewrite <- Ec. pose proof (reads_nonneg _ _ _ _ R1). apply ok_or_bind. exists (len l * 20).
    assert (0 <= len l) by (unfold len; lia). split; [unfold checked_mul; by rewrite (proj2 (Z.ltb_lt _ _)) by lia|].
    destruct (proj2 (read_range_iff (len l * 20) data (saturating_add 64 a (Z.of_nat 2)) (address_bytes l) c Hl ltac:(done) ltac:(lia))) as [E2 ->]; [split; [done|unfold len; rewrite length_address_bytes; lia]|].
    apply ok_or_bind. exists (address_bytes l). split; [done|]. by rewrite chunks_address_bytes by (done || (rewrite length_address_bytes; lia)).
Qed.

Definition event_ok (ev : MissedProposerEvent) : Prop := fits 64 (view ev) /\ fits 160 (validator ev).
Definition event_bytes (l : list MissedProposerEvent) : list Z := concat ((fun ev => be_bytes 8 (view ev) ++ be_bytes 20 (validator ev)) <$> l).
Definition counted_events (l : list MissedProposerEvent) : list Z := be_bytes 2 (len l) ++ event_bytes l.

Lemma reads_nil data a b : 0 <= a <= len data -> reads data a [] b <-> b = a.
Proof. intros Ha. unfold reads. cbn [length]. rewrite take_0. change (len (@nil Z)) with 0. split; [intros (_ & -> & _); lia|intros ->; split_and!; lia || done]. Qed.

Lemma read_events_iff n data a l c :
  bytes data -> len data < 2 ^ 63 -> 0 <= a <= len data ->
  read_events n data a = Ok (l, c) <-> reads data a (event_bytes l) c /\ Forall event_ok l /\ length l = n.
Proof.
  intros Hd Hl. revert a l. induction n as [|n IH]; intros a l Ha; cbn [read_events].
  - split; [intros [= <- <-]; split; [by apply reads_nil|done]|]. intros (R & _ & ->%nil_length_inv). cbn in R. apply reads_nil in R as ->; done.
  - split.
    + destruct (read_u64 data a) as [[v b]|] eqn:E1; [|done]. intros (s & E2 & E3)%ok_or_bind. destruct (read_events n data _) as [[evs d]|] eqn:E4; [|done]. injection E3 as <- <-.
      apply (codec_iff (Codec := u64_codec)) in E1 as [R1 Hv]; [|done|done|lia]. pose proof (reads_nonneg _ _ _ _ R1).
      destruct (proj1 (read_be_iff 20 data b (from_be_bytes s) _ Hd Hl ltac:(done) ltac:(lia)) (ex_intro _ s (conj E2 (conj eq_refl eq_refl)))) as [R2 Hx].
      apply IH in E4 as (R3 & Hev & <-); [|exact (reads_end _ _ _ _ R2)].
      split; [|split; [constructor; [split; done|done]|done]]. cbn [event_bytes fmap list_fmap concat]. fold (event_bytes evs). apply reads_app. eexists. split; [apply reads_app; by eauto|exact R3].
    + destruct l as [|[v x] evs]; [by intros (_ & _ & ?)|]. intros (R & Hev & Hn). apply Forall_cons in Hev as [[Hv Hx] Hev]. cbn [view validator] in *.
      cbn [event_bytes fmap list_fmap concat] in R. fold (event_bytes evs) in R. apply reads_app in R as (b2 & (b1 & R1 & R2)%reads_app & R3).
      pose proof (reads_nonneg _ _ _ _ R1). rewrite (proj2 (codec_iff (Codec := u64_codec) data a v b1 Hd Hl ltac:(lia)) (conj R1 Hv)).
      destruct (proj2 (read_be_iff 20 data b1 x b2 Hd Hl ltac:(done) ltac:(lia)) (conj R2 Hx)) as (s & E2 & -> & ->).
      change (Z.of_nat 20) with 20 in *. rewrite E2. cbn [ok_or].
      rewrite (proj2 (IH _ evs (reads_end _ _ _ _ R2))); [done|]. split_and!; [done|done|by injection Hn].
Qed.

#[global] Instance events_codec : Codec read_missed_proposers counted_events (fun l => Forall event_ok l /\ len l < 2 ^ 16).
Proof.
  intros data a l c Hd Hl Ha. unfold read_missed_proposers, counted_events. rewrite ok_or_bind, reads_app. change (2 ^ 16) with (256 ^ Z.of_nat 2). split.
  - intros (cb & E1 & E). destruct (proj1 (read_be_iff 2 data a (from_be_bytes cb) _ Hd Hl Ha ltac:(lia)) (ex_intro _ cb (conj E1 (conj eq_refl eq_refl)))) as [R Hx].
    apply read_events_iff in E as (R2 & Hev & Hn); [|done|done|exact (reads_end _ _ _ _ R)].
    assert (En : len l = from_be_bytes cb) by (unfold len; lia). rewrite En. split; [eauto|]. split; [done|lia].
  - intros ((b & R1 & R2) & Hv & Hn). destruct (proj2 (read_be_iff 2 data a (len l) b Hd Hl Ha ltac:(lia))) as (cb & E1 & Ec & ->); [split; [done|unfold len in *; lia]|].
    exists cb. split; [done|]. apply read_events_iff; [done|done|exact (reads_end _ _ _ _ R1)|].
    split_and!; [done|done|]. rewrite <- Ec. unfold len. lia.
Qed.

(** ** The whole message *)

Lemma bind_codec {A R} read enc ok `{!@Codec A read enc ok} data a (k : A -> Z -> res R) r :
  bytes data -> len data < 2 ^ 63 -> 0 <= a ->
  (let? (x, b) := read data a in k x b) = Ok r <-> exists x b, reads data a (enc x) b /\ ok x /\ 0 <= b /\ k x b = Ok r.
Proof.
  intros Hd Hl Ha. split.
  - destruct (read data a) as [[x b]|] eqn:E; [|done]. intros Ek. apply codec_iff in E as [R' Hx]; [|done..]. exists x, b.
    split_and!; [done|done|by eapply reads_nonneg|done].
  - intros (x & b & R' & Hx & _ & Ek). by rewrite (proj2 (codec_iff data a x b Hd Hl Ha) (conj R' Hx)).
Qed.

Lemma from_tag_iff t p : from_tag t = Ok p <-> t = tag p.
Proof.
  unfold from_tag. destruct (t =? 0) eqn:E0; bools; [|destruct (t =? 1) eqn:E1; bools]; subst; destruct p; cbn; split; try done.
  all: intros ->; done.
Qed.

Record metadata_ok (m : CertifiedParentAccountingMetadata) : Prop := {
  ok_number : fits 64 (finalized_block_number m);
  ok_hash : fits 256 (finalized_block_hash m);
  ok_epoch : fits 64 (finalized_epoch m);
  ok_view : fits 64 (finalized_view m);
  ok_parent_view : fits 64 (parent_view m);
  ok_committee : Forall (fits 160) (ordered_committee m) /\ len (ordered_committee m) < 2 ^ 16;
  ok_bitmap : bytes (signer_bitmap m) /\ len (signer_bitmap m) < 2 ^ 16;
  ok_proof : bytes (proof m) /\ len (proof m) < 2 ^ 32;
  ok_set_hash : fits 256 (committee_set_hash m);
  ok_vrf_version : fits 64 (vrf_material_version m);
  ok_vrf_key : fits 256 (vrf_group_public_key_hash m);
  ok_missed : Forall event_ok (missed_proposers m) /\ len (missed_proposers m) < 2 ^ 16
}.

Definition body (m : CertifiedParentAccountingMetadata) : list Z :=
  be_bytes 8 (finalized_block_number m) ++ be_bytes 32 (finalized_block_hash m) ++ be_bytes 8 (finalized_epoch m) ++
  be_bytes 8 (finalized_view m) ++ be_bytes 8 (parent_view m) ++ counted_addresses (ordered_committee m) ++
  counted 2 (signer_bitmap m) ++ counted 4 (proof m) ++ be_bytes 32 (committee_set_hash m) ++ be_bytes 8 (vrf_material_version m) ++
  be_bytes 32 (vrf_group_public_key_hash m) ++ [tag (proof_kind m)] ++ counted_events (missed_proposers m).

Definition head_bytes : list Z := CERTIFIED_PARENT_ACCOUNTING_MAGIC ++ [CERTIFIED_PARENT_ACCOUNTING_VERSION].

Lemma foldl_bytes {A} (f : A -> list Z) l buf : foldl (fun buf x => buf ++ f x) buf l = buf ++ concat (f <$> l).
Proof. revert buf. induction l as [|x l IH]; intros buf; cbn; [by rewrite app_nil_r|]. by rewrite IH, <- app_assoc. Qed.

Lemma foldl_bytes2 {A} (f g : A -> list Z) l buf :
  foldl (fun buf x => (buf ++ f x) ++ g x) buf l = buf ++ concat ((fun x => f x ++ g x) <$> l).
Proof. revert buf. induction l as [|x l IH]; intros buf; cbn; [by rewrite app_nil_r|]. by rewrite IH, <- !app_assoc. Qed.

Lemma encode_spec m : metadata_ok m -> encode m = Ok (head_bytes ++ body m).
Proof.
  intros [_ _ _ _ _ [_ H1] [_ H2] [_ H3] _ _ _ [_ H4]]. unfold encode, encode_bytes_u16, ensure_count_fits_u16, ensure_len_fits_u32.
  rewrite !Z.gtb_ltb, !(proj2 (Z.ltb_ge _ _)) by lia. cbn [negb]. unfold encode_addresses, encode_bytes_u32.
  assert (Hm : forall {A} (l : list A) w, len l < 2 ^ w -> len l mod 2 ^ w = len l) by (intros A l w Hl; apply Z.mod_small; unfold len in *; lia).
  rewrite !Hm by done. f_equal. rewrite foldl_bytes2, foldl_bytes. unfold body, counted_addresses, counted, counted_events, address_bytes, event_bytes, head_bytes. by rewrite <- !app_assoc.
Qed.

(** [decode] after the magic and the version, on [data]. *)
Lemma decode_body data m :
  bytes data -> len data < 2 ^ 63 -> len data >= MIN_LEN -> take 5 data = head_bytes ->
  decode data = Ok m <-> reads data 5 (body m) (len data) /\ metadata_ok m.
Proof.
  intros Hd Hl Hmin Hh. unfold decode. rewrite (proj2 (Z.ltb_ge _ _)) by lia. cbn [negb].
  assert (E4 : take 4 data = CERTIFIED_PARENT_ACCOUNTING_MAGIC /\ data !! 4%nat = Some CERTIFIED_PARENT_ACCOUNTING_VERSION).
  { destruct data as [|b0 [|b1 [|b2 [|b3 [|b4 rest]]]]]; cbn in Hh; try done. injection Hh as -> -> -> -> ->. done. }
  destruct E4 as [E4 E5]. rewrite !bool_decide_eq_true_2 by done. cbv zeta. split.
  - intros E. do 11 (let x := fresh "x" in let b := fresh "b" in let R := fresh "R" in let O := fresh "O" in let P := fresh "P" in
      apply (bind_codec _ _ _) in E as (x & b & R & O & P & E); [|done|done|lia]).
    apply (bind_codec _ _ _) in E as (t & c1 & R' & O' & P' & E); [|done|done|done].
    destruct (from_tag t) as [pk|] eqn:Et; [|done]. apply from_tag_iff in Et as ->.
    apply (bind_codec _ _ _) in E as (evs & c2 & Rl & Ol & Pl & E); [|done|done|done].
    destruct (c2 =? len data) eqn:Eb; [bools|done]. injection E as <-. subst c2. split; [|by split].
    unfold body. cbn [finalized_block_number finalized_block_hash finalized_epoch finalized_view parent_view ordered_committee signer_bitmap proof
      committee_set_hash vrf_material_version vrf_group_public_key_hash proof_kind missed_proposers].
    repeat (apply reads_app; eexists; split; [eassumption|]). exact Rl.
  - intros [R [O1 O2 O3 O4 O5 O6 O7 O8 O9 O10 O11 O12]]. unfold body in R.
    do 12 (apply reads_app in R as (? & ? & R)).
    do 11 (apply (bind_codec _ _ _); [done|done|first [lia|by eapply reads_nonneg]|]; do 2 eexists;
      split; [eassumption|]; split; [assumption|]; split; [by eapply reads_nonneg|]).
    apply (bind_codec _ _ _); [done|done|by eapply reads_nonneg|]. do 2 eexists. split; [eassumption|]. split; [by destruct (proof_kind m)|].
    split; [by eapply reads_nonneg|]. rewrite (proj2 (from_tag_iff _ (proof_kind m)) eq_refl).
    apply (bind_codec _ _ _); [done|done|by eapply reads_nonneg|]. do 2 eexists. split; [exact R|]. split; [done|].
    split; [by eapply reads_nonneg|]. rewrite Z.eqb_refl. by destruct m.
Qed.

(** The codec is exact: [decode] accepts a byte string iff it is the encoding of
    a well-formed metadata record, and then returns that record. So decoding
    inverts encoding, every accepted string is canonical, and nothing is read
    past the end or left over. *)
Theorem metadata_codec_exact data m :
  bytes data -> len data < 2 ^ 63 -> decode data = Ok m <-> metadata_ok m /\ encode m = Ok data.
Proof.
  intros Hd Hl. assert (Hbody : forall m, MIN_LEN <= len (head_bytes ++ body m)).
  { intros m'. unfold body, counted_addresses, counted, counted_events, len, MIN_LEN, head_bytes, CERTIFIED_PARENT_ACCOUNTING_MAGIC.
    rewrite !length_app, !length_be_bytes. cbn [length]. lia. }
  split.
  - intros E. assert (Hh : take 5 data = head_bytes /\ len data >= MIN_LEN).
    { unfold decode in E. destruct (len data <? MIN_LEN) eqn:E0; [done|bools]. cbn [negb] in E. case_bool_decide as E1; [|done]. case_bool_decide as E2; [|done].
      split; [|lia]. rewrite (take_S_r _ _ _ E2), E1. done. }
    destruct Hh as [Hh Hmin]. apply decode_body in E as [R Hok]; [|done..]. split; [done|]. rewrite encode_spec by done. f_equal.
    symmetry. apply reads_all. apply reads_app. exists 5. split; [|done]. split_and!; [lia|done|unfold MIN_LEN in Hmin; lia|]. rewrite drop_0. exact Hh.
  - intros [Hok E]. rewrite encode_spec in E by done. apply Ok_inj in E. pose proof (Hbody m) as Hmin. rewrite E in Hmin.
    apply decode_body; [done|done|lia|by rewrite <- E|]. split; [|done]. symmetry in E. apply reads_all in E. apply reads_app in E as (b & R1 & R2).
    apply reads_length in R1. replace b with 5 in R2; [done|]. change (len head_bytes) with 5 in R1. lia.
Qed.

Definition sample_metadata : CertifiedParentAccountingMetadata :=
  mkMetadata 12 77 3 40 39 [5; 6; 7] [1; 0; 1] [9; 9; 9] 88 2 99 CertifiedNotarization [mkMissed 38 6].
Lemma sample_metadata_ok : metadata_ok sample_metadata.
Proof. split; try (split; [discriminate|reflexivity]); split; first [reflexivity|repeat constructor; discriminate]. Qed.

Definition sample_bytes : list Z := match encode sample_metadata with Ok d => d | Err _ => [] end.

Lemma metadata_codec_exact_witness : bytes sample_bytes /\ len sample_bytes < 2 ^ 63 /\ decode sample_bytes = Ok sample_metadata.
Proof.
  assert (Hb : bytes sample_bytes) by (apply (bool_decide_unpack _); vm_compute; exact I).
  split; [exact Hb|]. split; [reflexivity|]. apply (metadata_codec_exact sample_bytes sample_metadata Hb eq_refl). split; [exact sample_metadata_ok|reflexivity].
Defined.
