(* ===== verification/Rewards.v ===== *)
(** * Rewards: fee escrow, inclusion-window settlement and daily participation

    [crates/system/rewards]: the fees of a finalized block are escrowed under its
    hash, voters are credited by inclusion distance while the window is open, and
    the window closes with a payout of decayed weight over a fixed denominator;
    the residue is burned and handed to the terminal emission sink. The module
    also keeps the per-day fee and participation totals, the fingerprint guard of
    consensus metadata and the daily top-up. Nested mappings are maps keyed by
    pairs. The state of the other contracts is a parameter [St], reached only
    through the sink and the gem mint. *)

From S2P Require Import Prelude Time Native Emission Metadata.

Definition REWARDS_ADDRESS : Address := 0xEE03.

(** ** [constants.rs] *)

Definition LATE_FINALIZE_WINDOW_K : u64 := 3.
Definition LATE_FINALIZE_DECAY : list U256 := [100; 100; 100; 0].
Definition LATE_FINALIZE_W_MAX : U256 := 100.

Definition decay_weight (k : u64) : U256 := default 0 (LATE_FINALIZE_DECAY !! Z.to_nat k).

Definition fixed_denominator (committee_size : u64) : U256 :=
  saturating_mul 256 committee_size LATE_FINALIZE_W_MAX.

(** ** [schema.rs] *)

Record Rewards := mkRewards {
  genesis_utc_day : u32;
  participation_counted_for_block : gmap (B256 * Address) bool;
  daily_fee_sum_raw : gmap u32 U256;
  daily_fees_paid : gmap u32 U256;  (** never written *)
  daily_fee_dust : gmap u32 U256;  (** never written *)
  daily_participation : gmap (u32 * Address) u64;
  daily_total_participation : gmap u32 u64;
  daily_voter_count : gmap u32 u32;
  daily_voter_at : gmap (u32 * u32) Address;
  daily_settled : gmap u32 bool;
  max_observed_finalized_day : u32;
  last_settled_utc_day : u32;
  block_metadata_counted : gmap B256 bool;
  metadata_fingerprint_for_block : gmap B256 B256;
  fee_dust_counted_for_block : gmap B256 bool;
  daily_topup_settled : gmap u32 bool;
  pending_fees : gmap B256 U256;
  fee_settled : gmap B256 bool;
  late_voter_k_plus1 : gmap (B256 * Address) u8;
  late_voter_count : gmap B256 u32;
  late_voter_at : gmap (B256 * u32) Address;
  pending_fb_hash_at : gmap u64 B256;
  pending_committee_size_at : gmap u64 u32;
  pending_epoch_at : gmap u64 u64;
  pending_committee_set_hash_at : gmap u64 B256;
  pending_view_at : gmap u64 u64;
  pending_parent_view_at : gmap u64 u64;
  block_guard_ring : gmap u64 B256;
  block_guard_ring_seq : u64
}.

Definition set_genesis_utc_day (r : Rewards) (v : u32) : Rewards := {| r with genesis_utc_day := v |}.
Definition wr_participation_counted (r : Rewards) (h : B256) (a : Address) (v : bool) : Rewards :=
  {| r with participation_counted_for_block := <[(h, a) := v]> (participation_counted_for_block r) |}.
Definition wr_daily_fee_sum_raw (r : Rewards) (d : u32) (v : U256) : Rewards :=
  {| r with daily_fee_sum_raw := <[d := v]> (daily_fee_sum_raw r) |}.
Definition wr_daily_participation (r : Rewards) (d : u32) (a : Address) (v : u64) : Rewards :=
  {| r with daily_participation := <[(d, a) := v]> (daily_participation r) |}.
Definition wr_daily_total_participation (r : Rewards) (d : u32) (v : u64) : Rewards :=
  {| r with daily_total_participation := <[d := v]> (daily_total_participation r) |}.
Definition wr_daily_voter_count (r : Rewards) (d v : u32) : Rewards :=
  {| r with daily_voter_count := <[d := v]> (daily_voter_count r) |}.
Definition wr_daily_voter_at (r : Rewards) (d i : u32) (a : Address) : Rewards :=
  {| r with daily_voter_at := <[(d, i) := a]> (daily_voter_at r) |}.
Definition wr_daily_settled (r : Rewards) (d : u32) (v : bool) : Rewards :=
  {| r with daily_settled := <[d := v]> (daily_settled r) |}.
Definition set_max_observed_finalized_day (r : Rewards) (v : u32) : Rewards := {| r with max_observed_finalized_day := v |}.
Definition set_last_settled_utc_day (r : Rewards) (v : u32) : Rewards := {| r with last_settled_utc_day := v |}.
Definition wr_block_metadata_counted (r : Rewards) (h : B256) (v : bool) : Rewards :=
  {| r with block_metadata_counted := <[h := v]> (block_metadata_counted r) |}.
Definition wr_metadata_fingerprint (r : Rewards) (h v : B256) : Rewards :=
  {| r with metadata_fingerprint_for_block := <[h := v]> (metadata_fingerprint_for_block r) |}.
Definition wr_fee_dust_counted (r : Rewards) (h : B256) (v : bool) : Rewards :=
  {| r with fee_dust_counted_for_block := <[h := v]> (fee_dust_counted_for_block r) |}.
Definition wr_daily_topup_settled (r : Rewards) (d : u32) (v : bool) : Rewards :=
  {| r with daily_topup_settled := <[d := v]> (daily_topup_settled r) |}.
Definition wr_pending_fees (r : Rewards) (h : B256) (v : U256) : Rewards :=
  {| r with pending_fees := <[h := v]> (pending_fees r) |}.
Definition wr_fee_settled (r : Rewards) (h : B256) (v : bool) : Rewards :=
  {| r with fee_settled := <[h := v]> (fee_settled r) |}.
Definition wr_late_voter_k_plus1 (r : Rewards) (h : B256) (a : Address) (v : u8) : Rewards :=
  {| r with late_voter_k_plus1 := <[(h, a) := v]> (late_voter_k_plus1 r) |}.
Definition wr_late_voter_count (r : Rewards) (h : B256) (v : u32) : Rewards :=
  {| r with late_voter_count := <[h := v]> (late_voter_count r) |}.
Definition wr_late_voter_at (r : Rewards) (h : B256) (i : u32) (a : Address) : Rewards :=
  {| r with late_voter_at := <[(h, i) := a]> (late_voter_at r) |}.
Definition wr_pending_fb_hash_at (r : Rewards) (n : u64) (v : B256) : Rewards :=
  {| r with pending_fb_hash_at := <[n := v]> (pending_fb_hash_at r) |}.
Definition wr_pending_committee_size_at (r : Rewards) (n : u64) (v : u32) : Rewards :=
  {| r with pending_committee_size_at := <[n := v]> (pending_committee_size_at r) |}.
Definition wr_pending_epoch_at (r : Rewards) (n v : u64) : Rewards :=
  {| r with pending_epoch_at := <[n := v]> (pending_epoch_at r) |}.
Definition wr_pending_committee_set_hash_at (r : Rewards) (n : u64) (v : B256) : Rewards :=
  {| r with pending_committee_set_hash_at := <[n := v]> (pending_committee_set_hash_at r) |}.
Definition wr_pending_view_at (r : Rewards) (n v : u64) : Rewards :=
  {| r with pending_view_at := <[n := v]> (pending_view_at r) |}.
Definition wr_pending_parent_view_at (r : Rewards) (n v : u64) : Rewards :=
  {| r with pending_parent_view_at := <[n := v]> (pending_parent_view_at r) |}.
Definition wr_block_guard_ring (r : Rewards) (i : u64) (v : B256) : Rewards :=
  {| r with block_guard_ring := <[i := v]> (block_guard_ring r) |}.
Definition set_block_guard_ring_seq (r : Rewards) (v : u64) : Rewards := {| r with block_guard_ring_seq := v |}.

(** ** [late_settlement.rs] *)

Definition record_late_credit (r : Rewards) (fb_hash : B256) (voter : Address) (k : u8) : res Rewards :=
  if rd (fee_settled r) fb_hash then Ok r else
  let stored := rd (late_voter_k_plus1 r) (fb_hash, voter) in
  if stored =? 0 then
    let idx := rd (late_voter_count r) fb_hash in
    let r := wr_late_voter_at r fb_hash idx voter in
    let? next := ok_or (checked_add 32 idx 1) (Revert "late_voter_count overflow") in
    let r := wr_late_voter_count r fb_hash next in
    Ok (wr_late_voter_k_plus1 r fb_hash voter (wadd 8 k 1))
  else
    let current_k := stored - 1 in
    Ok (if k <? current_k then wr_late_voter_k_plus1 r fb_hash voter (wadd 8 k 1) else r).

Definition escrow_block_fee (r : Rewards) (fb_number : u64) (fb_hash : B256) (fee_sum : U256) (committee_size : u32)
    (canonical_epoch canonical_view canonical_parent_view : u64) (canonical_committee_set_hash : B256)
    (base_voters : list Address) : res Rewards :=
  if rd (fee_settled r) fb_hash then Ok r else
  let r := wr_pending_fees r fb_hash fee_sum in
  let r := wr_pending_fb_hash_at r fb_number fb_hash in
  let r := wr_pending_committee_size_at r fb_number committee_size in
  let r := wr_pending_epoch_at r fb_number canonical_epoch in
  let r := wr_pending_view_at r fb_number canonical_view in
  let r := wr_pending_parent_view_at r fb_number canonical_parent_view in
  let r := wr_pending_committee_set_hash_at r fb_number canonical_committee_set_hash in
  foldM (fun r voter => record_late_credit r fb_hash voter 0) r base_voters.

(** The state a settlement touches: this module, the native balances and, through
    the terminal sink, the other contracts. *)
Record SettleWorld (St : Type) := mkSettle { sw_rewards : Rewards; sw_balance : Balances; sw_rest : St }.
Arguments mkSettle {St} _ _ _.
Arguments sw_rewards {St} _.
Arguments sw_balance {St} _.
Arguments sw_rest {St} _.

Section Settle.
Context {St : Type}.
(** [outbe_metadosis::emission_sink::apply] at a timestamp. *)
Variable metadosis : St -> u64 -> U256 -> res (St * U256).
Variable timestamp : u64.

(** One credited voter of the payout loop. *)
Definition pay_voter (r : Rewards) (fb_hash : B256) (pending denominator : U256) (acc : Balances * U256) (idx : u32) :
    res (Balances * U256) :=
  let '(b, distributed) := acc in
  let voter := rd (late_voter_at r) (fb_hash, idx) in
  let stored := rd (late_voter_k_plus1 r) (fb_hash, voter) in
  if stored =? 0 then Ok (b, distributed) else
  let weight := decay_weight (stored - 1) in
  if weight =? 0 then Ok (b, distributed) else
  let? num := ok_or (checked_mul 256 pending weight) (Revert "late payout multiply overflow") in
  let payout := num / denominator in
  if payout =? 0 then Ok (b, distributed) else
  let? b := transfer_balance b REWARDS_ADDRESS voter payout in
  let? distributed := ok_or (checked_add 256 distributed payout) (Revert "late distributed overflow") in
  Ok (b, distributed).

(** The window state is freed for each credited voter. *)
Definition free_voter (fb_hash : B256) (r : Rewards) (idx : u32) : Rewards :=
  let voter := rd (late_voter_at r) (fb_hash, idx) in
  let r := wr_late_voter_k_plus1 r fb_hash voter 0 in
  let r := wr_late_voter_at r fb_hash idx 0 in
  wr_participation_counted r fb_hash voter false.

Definition settle_window (w : SettleWorld St) (fb_hash : B256) (committee_size : u64) : res (SettleWorld St * (U256 * U256)) :=
  let r := sw_rewards w in
  if rd (fee_settled r) fb_hash then Ok (w, (0, 0)) else
  let pending := rd (pending_fees r) fb_hash in
  let denominator := fixed_denominator committee_size in
  ensure negb (denominator =? 0) else Revert "late settle denominator is zero (empty committee)" in
  let count := rd (late_voter_count r) fb_hash in
  let? (b, distributed) := foldM (pay_voter r fb_hash pending denominator) (sw_balance w, 0) (seqZ 0 count) in
  let? residue := ok_or (checked_sub pending distributed) (Revert "late settle insolvent: distributed exceeds escrow") in
  let? (b, st) :=
    if negb (residue =? 0) then
      let? b := decrease_balance b REWARDS_ADDRESS residue in
      let? st := dispatch_terminal_remainder_at metadosis (sw_rest w) residue timestamp in
      Ok (b, st)
    else Ok (b, sw_rest w) in
  let? total := ok_or (checked_add 256 distributed residue) (Revert "late parity overflow") in
  ensure total =? pending else Revert "late settle parity violated" in
  let r := wr_fee_settled r fb_hash true in
  let r := foldl (free_voter fb_hash) r (seqZ 0 count) in
  let r := wr_late_voter_count r fb_hash 0 in
  let r := wr_pending_fees r fb_hash 0 in
  Ok (mkSettle r b st, (distributed, residue)).

Definition settle_matured (w : SettleWorld St) (current_block window_k : u64) : res (SettleWorld St * (U256 * U256)) :=
  match checked_sub current_block window_k with
  | None => Ok (w, (0, 0))
  | Some fb_number =>
      if fb_number =? 0 then Ok (w, (0, 0)) else
      let fb_hash := rd (pending_fb_hash_at (sw_rewards w)) fb_number in
      if fb_hash =? 0 then Ok (w, (0, 0)) else
      let committee_size := rd (pending_committee_size_at (sw_rewards w)) fb_number in
      let? (w, result) := settle_window w fb_hash committee_size in
      let r := sw_rewards w in
      let r := wr_pending_fb_hash_at r fb_number 0 in
      let r := wr_pending_committee_size_at r fb_number 0 in
      let r := wr_pending_epoch_at r fb_number 0 in
      let r := wr_pending_view_at r fb_number 0 in
      let r := wr_pending_parent_view_at r fb_number 0 in
      let r := wr_pending_committee_set_hash_at r fb_number 0 in
      Ok (mkSettle r (sw_balance w) (sw_rest w), result)
  end.
End Settle.

Record WindowCloseInfo := mkClose { wc_fb_hash : B256; wc_epoch : u64; wc_committee_set_hash : B256; wc_credited : list Address }.

Definition window_close_credited (r : Rewards) (fb_number : u64) : option WindowCloseInfo :=
  let fb_hash := rd (pending_fb_hash_at r) fb_number in
  if fb_hash =? 0 then None else
  let epoch := rd (pending_epoch_at r) fb_number in
  let committee_set_hash := rd (pending_committee_set_hash_at r) fb_number in
  let count := rd (late_voter_count r) fb_hash in
  let credited := (fun idx => rd (late_voter_at r) (fb_hash, idx)) <$> seqZ 0 count in
  Some (mkClose fb_hash epoch committee_set_hash credited).

(** ** [finalized_metadata_hook.rs] *)

Definition BLOCK_GUARD_RETAIN : u64 := 64.

Definition prune_block_guards (r : Rewards) (fb_hash : B256) : res Rewards :=
  let seq := block_guard_ring_seq r in
  let idx := seq mod BLOCK_GUARD_RETAIN in
  let evicted := rd (block_guard_ring r) idx in
  let r :=
    if negb (evicted =? 0) && negb (evicted =? fb_hash) then
      let r := wr_block_metadata_counted r evicted false in
      let r := wr_metadata_fingerprint r evicted 0 in
      let r := wr_fee_dust_counted r evicted false in
      wr_fee_settled r evicted false
    else r in
  let r := wr_block_guard_ring r idx fb_hash in
  let? next := ok_or (checked_add 64 seq 1) (Revert "block_guard_ring_seq overflow") in
  Ok (set_block_guard_ring_seq r next).

(** The body of the participation loop. *)
Definition count_participation (fb_hash : B256) (fb_day : u32) (r : Rewards) (voter : Address) : res Rewards :=
  if rd (participation_counted_for_block r) (fb_hash, voter) then Ok r else
  let prev_count := rd (daily_participation r) (fb_day, voter) in
  let? r :=
    if prev_count =? 0 then
      let idx := rd (daily_voter_count r) fb_day in
      let r := wr_daily_voter_at r fb_day idx voter in
      let? next_idx := ok_or (checked_add 32 idx 1) (Revert "daily_voter_count overflow") in
      Ok (wr_daily_voter_count r fb_day next_idx)
    else Ok r in
  let? next_count := ok_or (checked_add 64 prev_count 1) (Revert "daily_participation overflow") in
  let r := wr_daily_participation r fb_day voter next_count in
  let prev_total := rd (daily_total_participation r) fb_day in
  let? next_total := ok_or (checked_add 64 prev_total 1) (Revert "daily_total_participation overflow") in
  let r := wr_daily_total_participation r fb_day next_total in
  Ok (wr_participation_counted r fb_hash voter true).

Definition on_finalized_metadata (r : Rewards) (m : CertifiedParentAccountingMetadata) (validator_fee_sum : U256)
    (finalized_block_timestamp : u64) (voters : list Address) : res Rewards :=
  let fb_hash := finalized_block_hash m in
  let fb_day := timestamp_to_date_key finalized_block_timestamp in
  let first_seen := negb (rd (block_metadata_counted r) fb_hash) in
  let r := if last_settled_utc_day r =? 0 then set_last_settled_utc_day r (previous_date_key fb_day) else r in
  let? r :=
    if first_seen then
      let prev_raw := rd (daily_fee_sum_raw r) fb_day in
      let? next_raw := ok_or (checked_add 256 prev_raw validator_fee_sum) (Revert "daily_fee_sum_raw overflow") in
      let r := wr_daily_fee_sum_raw r fb_day next_raw in
      Ok (wr_block_metadata_counted r fb_hash true)
    else Ok r in
  let committee_size := clamp 32 (len (ordered_committee m)) in
  let? r := escrow_block_fee r (finalized_block_number m) fb_hash validator_fee_sum committee_size (finalized_epoch m)
    (finalized_view m) (parent_view m) (committee_set_hash m) voters in
  let? r := foldM (count_participation fb_hash fb_day) r voters in
  let prev_max := max_observed_finalized_day r in
  let r := if fb_day >? prev_max then set_max_observed_finalized_day r fb_day else r in
  if first_seen then prune_block_guards r fb_hash else Ok r.

(** ** [runtime.rs] *)

Inductive MetadataFingerprintOutcome : Type := Fresh | IdenticalReplay.

Definition ensure_genesis_anchor (r : Rewards) (timestamp : u64) : Rewards * u32 :=
  let day := genesis_utc_day r in
  if negb (day =? 0) then (r, day) else
  let init_day := timestamp_to_date_key timestamp in
  (set_genesis_utc_day r init_day, init_day).

(** [RewardsLifecycle::begin_block] of [lifecycle.rs]. *)
Definition begin_block (r : Rewards) (timestamp : u64) : Rewards := fst (ensure_genesis_anchor r timestamp).

Definition read_genesis_utc_day (r : Rewards) : res u32 :=
  let day := genesis_utc_day r in
  ensure negb (day =? 0) else Revert "Rewards.genesis_utc_day not initialized" in
  Ok day.

Definition day_number_since_genesis (r : Rewards) (utc_day : u32) : res u32 :=
  let? genesis := read_genesis_utc_day r in
  match day_number_between genesis utc_day with
  | Ok n => Ok n
  | Err (PreGenesis _ _) => Err (Revert "finalized block predates genesis")
  end.

Section Fingerprint.
Context `{Crypto}.

Definition canonical_signer_set_hash (signer_bitmap : list Z) : B256 :=
  keccak256 (be_bytes 4 (len signer_bitmap mod 2 ^ 32) ++ signer_bitmap).

(** The ASCII bytes of ["OUTBE_METADATA_FINGERPRINT_V3"]. *)
Definition FINGERPRINT_DOMAIN : list Z :=
  [79; 85; 84; 66; 69; 95; 77; 69; 84; 65; 68; 65; 84; 65; 95; 70; 73; 78; 71; 69; 82; 80; 82; 73; 78; 84; 95; 86; 51].

Definition write_addr_list (buf : list Z) (list_ : list Address) : list Z :=
  foldl (fun buf a => buf ++ be_bytes 20 a) (buf ++ be_bytes 8 (len list_ mod 2 ^ 64)) list_.

Definition compute_metadata_fingerprint (m : CertifiedParentAccountingMetadata) (validator_fee_sum : U256)
    (canonical_vrf_proof_hash : B256) : B256 :=
  let buf := FINGERPRINT_DOMAIN in
  let buf := buf ++ be_bytes 32 (finalized_block_hash m) in
  let buf := buf ++ be_bytes 8 (finalized_block_number m) in
  let buf := buf ++ be_bytes 8 (finalized_epoch m) in
  let buf := buf ++ be_bytes 8 (finalized_view m) in
  let buf := write_addr_list buf (ordered_committee m) in
  let buf := buf ++ be_bytes 32 (canonical_signer_set_hash (signer_bitmap m)) in
  let buf := buf ++ be_bytes 32 (committee_set_hash m) in
  let buf := buf ++ be_bytes 8 (vrf_material_version m) in
  let buf := buf ++ be_bytes 32 (vrf_group_public_key_hash m) in
  let buf := buf ++ be_bytes 32 canonical_vrf_proof_hash in
  let buf := buf ++ [tag (proof_kind m)] in
  let buf := buf ++ be_bytes 8 (len (missed_proposers m) mod 2 ^ 64) in
  let buf := foldl (fun buf ev => buf ++ be_bytes 20 (validator ev)) buf (missed_proposers m) in
  let buf := buf ++ be_bytes 32 validator_fee_sum in
  keccak256 buf.

Definition check_and_record_metadata_fingerprint (r : Rewards) (m : CertifiedParentAccountingMetadata)
    (validator_fee_sum : U256) (canonical_vrf_proof_hash : B256) : res (Rewards * MetadataFingerprintOutcome) :=
  let fb_hash := finalized_block_hash m in
  let fp := compute_metadata_fingerprint m validator_fee_sum canonical_vrf_proof_hash in
  let prev := rd (metadata_fingerprint_for_block r) fb_hash in
  if prev =? 0 then Ok (wr_metadata_fingerprint r fb_hash fp, Fresh)
  else if prev =? fp then Ok (r, IdenticalReplay)
  else Err (Revert "contradictory consensus metadata").
End Fingerprint.

(** ** [api.rs] *)

Definition read_daily_fee_sum_raw (r : Rewards) (day : u32) : U256 := rd (daily_fee_sum_raw r) day.

Definition read_voters_for_day (r : Rewards) (day : u32) : list (Address * u64) :=
  let count := rd (daily_voter_count r) day in
  (fun i => let voter := rd (daily_voter_at r) (day, i) in (voter, rd (daily_participation r) (day, voter))) <$> seqZ 0 count.

Inductive GemTypes : Type := Genesis | Validator | Sra | Wallet | Cca | Merchant.

Section Topup.
Context {St : Type}.
(** [outbe_gemfactory::api::mint_gem], with its fixed currency codes. *)
Variable mint_gem : St -> Address -> GemTypes -> U256 -> res St.

(** One voter of the top-up loop. *)
Definition topup_voter (gem_type : GemTypes) (topup_total total_count : U256) (acc : St * U256) (v : Address * u64) : res (St * U256) :=
  let '(st, distributed) := acc in
  let '(voter, count) := v in
  if count =? 0 then Ok (st, distributed) else
  let? share_num := ok_or (checked_mul 256 topup_total count) (Revert "topup share multiply overflow") in
  let share := share_num / total_count in
  if share =? 0 then Ok (st, distributed) else
  let? st := mint_gem st voter gem_type share in
  let? distributed := ok_or (checked_add 256 distributed share) (Revert "topup distributed overflow") in
  Ok (st, distributed).

Definition add_topup_for_voters (r : Rewards) (st : St) (day : u32) (topup_total : U256) (voters : list (Address * u64)) :
    res (Rewards * St * U256) :=
  if rd (daily_topup_settled r) day then Ok (r, st, 0) else
  if (topup_total =? 0) || bool_decide (voters = []) then Ok (wr_daily_topup_settled r day true, st, 0) else
  let total_count := foldl (fun acc v => wadd 64 acc (snd v)) 0 voters in
  if total_count =? 0 then Ok (wr_daily_topup_settled r day true, st, 0) else
  let? day_number := day_number_since_genesis r day in
  let gem_type := if day_number <? 21 then Genesis else Validator in
  let? (st, distributed) := foldM (topup_voter gem_type topup_total total_count) (st, 0) voters in
  Ok (wr_daily_topup_settled r day true, st, distributed).
End Topup.

Definition mark_day_settled (r : Rewards) (day : u32) : Rewards := wr_daily_settled r day true.
Definition is_day_settled (r : Rewards) (day : u32) : bool := rd (daily_settled r) day.

(** ** Credits

    [window r h vs] says that the credited voters of block [h] are [vs], in the
    order of their first credit. *)

Record window (r : Rewards) (h : B256) (vs : list Address) : Prop := {
  wi_nodup : NoDup vs;
  wi_count : rd (late_voter_count r) h = len vs;
  wi_at : forall i v, vs !! i = Some v -> rd (late_voter_at r) (h, Z.of_nat i) = v;
  wi_in : forall v, v ∈ vs -> 1 <= rd (late_voter_k_plus1 r) (h, v) < 256;
  wi_out : forall v, v ∉ vs -> rd (late_voter_k_plus1 r) (h, v) = 0
}.

(** The distance stored for a credited voter. *)
Definition distance (r : Rewards) (h : B256) (v : Address) : Z := rd (late_voter_k_plus1 r) (h, v) - 1.

(** The state outside the credited voters, in two groups: the escrow and the rest. *)
Definition escrow (r : Rewards) :=
  (pending_fees r, fee_settled r, pending_fb_hash_at r, pending_committee_size_at r, pending_epoch_at r,
   pending_committee_set_hash_at r, pending_view_at r, pending_parent_view_at r).

Definition outside (r : Rewards) :=
  (genesis_utc_day r, participation_counted_for_block r, daily_fee_sum_raw r, daily_participation r, daily_total_participation r,
   daily_voter_count r, daily_voter_at r, daily_settled r, max_observed_finalized_day r, last_settled_utc_day r,
   block_metadata_counted r, metadata_fingerprint_for_block r, fee_dust_counted_for_block r, daily_topup_settled r,
   block_guard_ring r, block_guard_ring_seq r).

(** What a credit does not touch. *)
Record credit_frame (h : B256) (r r' : Rewards) : Prop := {
  cf_at : forall h' i, h' <> h -> rd (late_voter_at r') (h', i) = rd (late_voter_at r) (h', i);
  cf_count : forall h', h' <> h -> rd (late_voter_count r') h' = rd (late_voter_count r) h';
  cf_k : forall h' v, h' <> h -> rd (late_voter_k_plus1 r') (h', v) = rd (late_voter_k_plus1 r) (h', v);
  cf_escrow : escrow r' = escrow r;
  cf_outside : outside r' = outside r
}.

Lemma credit_frame_refl h r : credit_frame h r r.
Proof. by split. Qed.

Lemma credit_frame_trans h r1 r2 r3 : credit_frame h r1 r2 -> credit_frame h r2 r3 -> credit_frame h r1 r3.
Proof.
  intros [A1 A2 A3 A4 A5] [B1 B2 B3 B4 B5]. split.
  - intros h' i Hne. rewrite B1, A1 by done. done.
  - intros h' Hne. rewrite B2, A2 by done. done.
  - intros h' v Hne. rewrite B3, A3 by done. done.
  - by rewrite B4, A4.
  - by rewrite B5, A5.
Qed.

(** A credit keeps the smallest distance and appends a new voter once. *)
Lemma record_late_credit_spec r h vs v k :
  window r h vs -> rd (fee_settled r) h = false -> 0 <= k < 255 -> len vs < 2 ^ 32 - 1 ->
  exists r', record_late_credit r h v k = Ok r' /\ window r' h (add_once vs v) /\ credit_frame h r r' /\
    distance r' h v = (if decide (v ∈ vs) then Z.min k (distance r h v) else k) /\
    forall v', v' <> v -> distance r' h v' = distance r h v'.
Proof.
  intros [Hnd Hc Hat Hin Hout] Hf Hk Hl. unfold record_late_credit, distance, add_once. rewrite Hf.
  rewrite (wadd_small 8) by lia. destruct (decide (v ∈ vs)) as [Hv|Hv].
  - pose proof (Hin v Hv) as Hr. rewrite (proj2 (Z.eqb_neq _ _)) by lia. destruct (k <? _) eqn:E; bools.
    + eexists. split; [done|]. cbn [wr_late_voter_k_plus1 late_voter_k_plus1]. rewrite rd_insert_eq. split_and!; [split; try done| |lia|].
      * intros v' Hv'. cbn [wr_late_voter_k_plus1 late_voter_k_plus1]. destruct (decide (v' = v)) as [->|]; [rewrite rd_insert_eq; lia|].
        rewrite rd_insert_ne by congruence. by apply Hin.
      * intros v' Hv'. cbn [wr_late_voter_k_plus1 late_voter_k_plus1]. rewrite rd_insert_ne by congruence. by apply Hout.
      * split; try done. intros h' v' Hne. cbn [wr_late_voter_k_plus1 late_voter_k_plus1]. by rewrite rd_insert_ne by congruence.
      * intros v' Hne. by rewrite rd_insert_ne by congruence.
    + exists r. split_and!; [done|by split|apply credit_frame_refl|lia|done].
  - rewrite (Hout v Hv), Z.eqb_refl, Hc. unfold checked_add. rewrite (proj2 (Z.ltb_lt _ _)) by lia. cbn [ok_or]. eexists. split; [done|].
    unfold wr_late_voter_k_plus1, wr_late_voter_count, wr_late_voter_at. cbn [late_voter_k_plus1 late_voter_at late_voter_count]. rewrite rd_insert_eq.
    split_and!; [|split|lia|]; cbn [late_voter_k_plus1 late_voter_at late_voter_count].
    + split; cbn [late_voter_k_plus1 late_voter_at late_voter_count].
      * apply NoDup_app. split_and!; [done|set_solver|apply NoDup_singleton].
      * rewrite rd_insert_eq. unfold len. rewrite length_app. cbn. lia.
      * intros i v' Hi. destruct (decide (i < length vs)%nat).
        -- rewrite lookup_app_l in Hi by done. rewrite rd_insert_ne by (intros [=]; unfold len in *; lia). by apply Hat.
        -- rewrite lookup_app_r in Hi by lia. apply list_lookup_singleton_Some in Hi as [Hi <-]. replace (Z.of_nat i) with (len vs) by (unfold len; lia). by rewrite rd_insert_eq.
      * intros v' Hv'. destruct (decide (v' = v)) as [->|]; [rewrite rd_insert_eq; lia|]. rewrite rd_insert_ne by congruence. apply Hin. set_solver.
      * intros v' Hv'. rewrite rd_insert_ne by set_solver. apply Hout. set_solver.
    + intros h' i Hne. by rewrite rd_insert_ne by congruence.
    + intros h' Hne. by rewrite rd_insert_ne by congruence.
    + intros h' v' Hne. by rewrite rd_insert_ne by congruence.
    + done.
    + done.
    + intros v' Hne. by rewrite rd_insert_ne by congruence.
Qed.

Definition credit_all (r : Rewards) (h : B256) (cs : list (Address * u8)) : res Rewards :=
  foldM (fun r '(v, k) => record_late_credit r h v k) r cs.

(** The smallest distance at which [v] appears. *)
Fixpoint min_distance (cs : list (Address * u8)) (v : Address) : option Z :=
  match cs with
  | [] => None
  | (v', k) :: cs =>
      if decide (v' = v) then Some (match min_distance cs v with Some m => Z.min k m | None => k end)
      else min_distance cs v
  end.

Lemma elem_of_add_once v w vs : w ∈ add_once vs v <-> w = v \/ w ∈ vs.
Proof. unfold add_once. case_decide; set_solver. Qed.

Lemma length_add_once v vs : len vs <= len (add_once vs v) <= len vs + 1.
Proof. unfold add_once, len. case_decide; rewrite ?length_app; cbn; lia. Qed.

Lemma credit_all_spec r h vs cs :
  window r h vs -> rd (fee_settled r) h = false -> Forall (fun c => 0 <= snd c < 255) cs -> len vs + len cs < 2 ^ 32 ->
  exists r', credit_all r h cs = Ok r' /\ window r' h (foldl add_once vs (fst <$> cs)) /\ credit_frame h r r' /\
    forall v, distance r' h v = match min_distance cs v with
                                | Some m => if decide (v ∈ vs) then Z.min m (distance r h v) else m
                                | None => distance r h v
                                end.
Proof.
  revert r vs. induction cs as [|[v k] cs IH]; intros r vs Hw Hf Hk Hl.
  - exists r. split_and!; [done|done|apply credit_frame_refl|done].
  - apply Forall_cons in Hk as [Hk0 Hk]. cbn [snd] in Hk0. unfold len in Hl. cbn [length] in Hl. fold (len vs) in Hl.
    destruct (record_late_credit_spec r h vs v k Hw Hf Hk0) as (r1 & E1 & W1 & F1 & D1 & D1'); [unfold len in *; lia|].
    assert (Hf1 : rd (fee_settled r1) h = false) by (pose proof (cf_escrow _ _ _ F1) as E; by injection E as _ -> _ _ _ _ _ _).
    pose proof (length_add_once v vs). destruct (IH r1 (add_once vs v) W1 Hf1 Hk) as (r2 & E2 & W2 & F2 & D2); [unfold len in *; lia|].
    exists r2. split_and!; [|done|by eapply credit_frame_trans|].
    + unfold credit_all in *. cbn [foldM]. by rewrite E1.
    + intros w. rewrite D2. cbn [min_distance]. destruct (decide (v = w)) as [->|Hne].
      * rewrite D1. pose proof (elem_of_add_once w w vs). destruct (min_distance cs w); repeat case_decide; first [lia|naive_solver].
      * rewrite D1' by done. destruct (min_distance cs w); [|done]. pose proof (elem_of_add_once v w vs). repeat case_decide; naive_solver.
Qed.

(** ** The payout *)

Definition payout (r : Rewards) (h : B256) (pending committee_size : Z) (v : Address) : Z :=
  pending * decay_weight (distance r h v) / (committee_size * LATE_FINALIZE_W_MAX).

Lemma decay_weight_bounds k : 0 <= decay_weight k <= LATE_FINALIZE_W_MAX.
Proof. unfold decay_weight, LATE_FINALIZE_W_MAX. destruct (Z.to_nat k) as [|[|[|[|n]]]]; vm_compute; split; discriminate. Qed.

(** No voter gets more than an equal share of the committee. *)
Lemma payout_bounds r h p n v : 0 <= p -> 0 < n -> 0 <= payout r h p n v /\ payout r h p n v * n <= p.
Proof.
  intros Hp Hn. unfold payout. pose proof (decay_weight_bounds (distance r h v)) as Hw. unfold LATE_FINALIZE_W_MAX in *. split; [apply Z.div_pos; nia|].
  pose proof (Z.mul_div_le (p * decay_weight (distance r h v)) (n * 100) ltac:(lia)) as Hd. nia.
Qed.

Lemma payouts_bound r h p n vs : 0 <= p -> 0 < n -> 0 <= lsum (payout r h p n <$> vs) /\ lsum (payout r h p n <$> vs) * n <= p * len vs.
Proof.
  intros Hp Hn. induction vs as [|v vs IH]; [unfold len; cbn; lia|]. pose proof (payout_bounds r h p n v Hp Hn). unfold len in *.
  cbn [fmap list_fmap length]. change (lsum (payout r h p n v :: (payout r h p n <$> vs))) with (payout r h p n v + lsum (payout r h p n <$> vs)). lia.
Qed.

Lemma payouts_solvent r h p n vs : 0 <= p -> 0 < n -> len vs <= n -> lsum (payout r h p n <$> vs) <= p.
Proof. intros Hp Hn Hl. pose proof (payouts_bound r h p n vs Hp Hn). nia. Qed.

Lemma fixed_denominator_exact n : 0 <= n < 2 ^ 64 -> fixed_denominator n = n * LATE_FINALIZE_W_MAX.
Proof. intros Hn. unfold fixed_denominator, saturating_mul, LATE_FINALIZE_W_MAX. lia. Qed.

(** The effect of the payout loop on the balances. *)
Definition paid (r : Rewards) (h : B256) (p n : Z) (vs : list Address) (b b' : Balances) : Prop :=
  balances_ok b' /\ msum b' = msum b /\
  forall a, rd b' a = rd b a + (if decide (a ∈ vs) then payout r h p n a else 0) - (if decide (a = REWARDS_ADDRESS) then lsum (payout r h p n <$> vs) else 0).

Lemma pay_voter_spec r h p n b d idx v :
  0 <= p -> p * LATE_FINALIZE_W_MAX < 2 ^ 256 -> 0 < n < 2 ^ 64 -> balances_ok b -> v <> REWARDS_ADDRESS ->
  rd (late_voter_at r) (h, idx) = v -> 1 <= rd (late_voter_k_plus1 r) (h, v) -> payout r h p n v <= rd b REWARDS_ADDRESS -> 0 <= d -> d + payout r h p n v < 2 ^ 256 ->
  exists b', pay_voter r h p (fixed_denominator n) (b, d) idx = Ok (b', d + payout r h p n v) /\ paid r h p n [v] b b'.
Proof.
  intros Hp Hov Hn Hb Hv Eat Hk Hpay Hd Hdp. unfold pay_voter. rewrite Eat, (proj2 (Z.eqb_neq _ _)) by lia. fold (distance r h v). rewrite fixed_denominator_exact by lia.
  pose proof (decay_weight_bounds (distance r h v)) as Hw. pose proof (payout_bounds r h p n v Hp ltac:(lia)) as [Hpos _].
  assert (Hzero : payout r h p n v = 0 -> paid r h p n [v] b b).
  { intros E. split_and!; [done|done|]. intros a. cbn. rewrite E. repeat case_decide; try lia; match goal with H : a ∈ [v] |- _ => apply list_elem_of_singleton in H as -> end; lia. }
  destruct (decay_weight (distance r h v) =? 0) eqn:E0; bools.
  { assert (E : payout r h p n v = 0) by (unfold payout; by rewrite E0, Z.mul_0_r). exists b. rewrite E, Z.add_0_r. split; [done|]. by apply Hzero. }
  unfold checked_mul. rewrite (proj2 (Z.ltb_lt _ _)) by nia. cbn [ok_or]. fold (payout r h p n v). destruct (payout r h p n v =? 0) eqn:E1; bools.
  { exists b. rewrite E1, Z.add_0_r. split; [done|]. by apply Hzero. }
  pose proof (transfer_balance_spec b REWARDS_ADDRESS v (payout r h p n v) Hb Hpos) as Ht. rewrite (proj2 (Z.leb_le _ _)) in Ht by lia.
  destruct Ht as (b' & -> & Hb' & Hm & Hr). unfold checked_add. rewrite (proj2 (Z.ltb_lt _ _)) by lia. cbn [ok_or]. exists b'. split; [done|].
  split_and!; [done|done|]. intros a. rewrite Hr. cbn [fmap list_fmap]. change (lsum [payout r h p n v]) with (payout r h p n v + 0).
  pose proof (list_elem_of_singleton a v) as Hin. repeat case_decide; first [subst a; lia|lia|exfalso; naive_solver].
Qed.

Lemma paid_cons r h p n v vs b b1 b2 : v ∉ vs -> paid r h p n [v] b b1 -> paid r h p n vs b1 b2 -> paid r h p n (v :: vs) b b2.
Proof.
  intros Hv (_ & M1 & R1) (B2 & M2 & R2). split_and!; [done|lia|]. intros a. rewrite R2, R1. cbn [fmap list_fmap].
  change (lsum [payout r h p n v]) with (payout r h p n v + 0). change (lsum (payout r h p n v :: (payout r h p n <$> vs))) with (payout r h p n v + lsum (payout r h p n <$> vs)).
  pose proof (list_elem_of_singleton a v) as H1. pose proof (elem_of_cons vs a v) as H2. repeat case_decide; first [lia|exfalso; naive_solver].
Qed.

Lemma pay_all_spec r h p n vs a b d :
  0 <= p -> p * LATE_FINALIZE_W_MAX < 2 ^ 256 -> 0 < n < 2 ^ 64 -> balances_ok b -> NoDup vs -> REWARDS_ADDRESS ∉ vs ->
  (forall i v, vs !! i = Some v -> rd (late_voter_at r) (h, a + Z.of_nat i) = v /\ 1 <= rd (late_voter_k_plus1 r) (h, v)) ->
  lsum (payout r h p n <$> vs) <= rd b REWARDS_ADDRESS -> 0 <= d -> d + lsum (payout r h p n <$> vs) < 2 ^ 256 ->
  exists b', foldM (pay_voter r h p (fixed_denominator n)) (b, d) (seqZ a (len vs)) = Ok (b', d + lsum (payout r h p n <$> vs)) /\ paid r h p n vs b b'.
Proof.
  intros Hp Hov Hn. revert a b d. induction vs as [|v vs IH]; intros a b d Hb Hnd Hrew Hat Hpay Hd Hdp.
  - exists b. cbn. rewrite Z.add_0_r. split; [done|]. split_and!; [done|done|]. intros x. rewrite decide_False by apply not_elem_of_nil. cbn. case_decide; lia.
  - apply NoDup_cons in Hnd as [Hv Hnd]. cbn [fmap list_fmap] in *.
    change (lsum (payout r h p n v :: (payout r h p n <$> vs))) with (payout r h p n v + lsum (payout r h p n <$> vs)) in *.
    destruct (payouts_bound r h p n vs Hp ltac:(lia)) as [Hs _]. destruct (payout_bounds r h p n v Hp ltac:(lia)) as [Hpv _].
    destruct (Hat 0%nat v eq_refl) as [Eat Hk]. rewrite Z.add_0_r in Eat.
    destruct (pay_voter_spec r h p n b d a v Hp Hov Hn Hb) as (b1 & E1 & P1); [set_solver|done|done|lia|done|lia|]. pose proof P1 as (B1 & _ & R1).
    assert (Erew : rd b1 REWARDS_ADDRESS = rd b REWARDS_ADDRESS - payout r h p n v).
    { rewrite R1. cbn [fmap list_fmap]. change (lsum [payout r h p n v]) with (payout r h p n v + 0). rewrite decide_False by set_solver. rewrite decide_True by done. lia. }
    destruct (IH (a + 1) b1 (d + payout r h p n v)) as (b2 & E2 & P2); [done|done|set_solver| |lia|lia|lia|].
    { intros i v' Hi. replace (a + 1 + Z.of_nat i) with (a + Z.of_nat (S i)) by lia. by apply Hat. }
    exists b2. split; [|by eapply paid_cons]. unfold len in *. rewrite seqZ_cons by (cbn [length]; lia). cbn [foldM]. rewrite E1.
    replace (Z.pred (Z.of_nat (length (v :: vs)))) with (Z.of_nat (length vs)) by (cbn [length]; lia). unfold Z.succ. rewrite E2. do 2 f_equal. lia.
Qed.

(** ** Freeing the window *)

Record freed (h : B256) (r r' : Rewards) : Prop := {
  fr_k : forall h' v, h' <> h -> rd (late_voter_k_plus1 r') (h', v) = rd (late_voter_k_plus1 r) (h', v);
  fr_at : forall h' i, h' <> h -> rd (late_voter_at r') (h', i) = rd (late_voter_at r) (h', i);
  fr_part : forall h' v, h' <> h -> rd (participation_counted_for_block r') (h', v) = rd (participation_counted_for_block r) (h', v);
  fr_escrow : escrow r' = escrow r;
  fr_count : late_voter_count r' = late_voter_count r;
  fr_days : (daily_participation r', daily_total_participation r', daily_voter_count r', daily_voter_at r', daily_fee_sum_raw r') =
            (daily_participation r, daily_total_participation r, daily_voter_count r, daily_voter_at r, daily_fee_sum_raw r)
}.

Lemma free_all_spec h vs a r :
  0 <= a -> NoDup vs -> (forall i v, vs !! i = Some v -> rd (late_voter_at r) (h, a + Z.of_nat i) = v) ->
  let r' := foldl (free_voter h) r (seqZ a (len vs)) in
  freed h r r' /\ forall v, rd (late_voter_k_plus1 r') (h, v) = if decide (v ∈ vs) then 0 else rd (late_voter_k_plus1 r) (h, v).
Proof.
  intros Ha Hnd. revert a r Ha. induction vs as [|v vs IH]; intros a r Ha Hat r'.
  - split; [by split|]. intros v. by rewrite decide_False by apply not_elem_of_nil.
  - apply NoDup_cons in Hnd as [Hv Hnd]. pose proof (Hat 0%nat v eq_refl) as Eat. rewrite Z.add_0_r in Eat.
    set (r1 := free_voter h r a) in *. assert (Er : r' = foldl (free_voter h) r1 (seqZ (a + 1) (len vs))).
    { unfold r', len. rewrite seqZ_cons by (cbn [length]; lia). cbn [foldl]. unfold r1, Z.succ. do 2 f_equal. cbn [length]. lia. }
    assert (Hk1 : forall h' w, rd (late_voter_k_plus1 r1) (h', w) = if decide ((h, v) = (h', w)) then 0 else rd (late_voter_k_plus1 r) (h', w)).
    { intros h' w. unfold r1, free_voter. rewrite Eat. cbn [wr_late_voter_k_plus1 wr_late_voter_at wr_participation_counted late_voter_k_plus1]. apply rd_insert. }
    assert (Hat1 : forall h' j, rd (late_voter_at r1) (h', j) = if decide ((h, a) = (h', j)) then 0 else rd (late_voter_at r) (h', j)).
    { intros h' j. unfold r1, free_voter. cbn [wr_late_voter_k_plus1 wr_late_voter_at wr_participation_counted late_voter_at]. apply rd_insert. }
    rewrite Er. destruct (IH Hnd (a + 1) r1 ltac:(lia)) as ([F1 F2 F3 F4 F5 F6] & Hz).
    { intros i w Hi. rewrite Hat1. rewrite decide_False by (intros [=]; lia). replace (a + 1 + Z.of_nat i) with (a + Z.of_nat (S i)) by lia. by apply Hat. }
    split.
    + split; [..|by rewrite F4|by rewrite F5|by rewrite F6].
      * intros h' w Hne. rewrite F1, Hk1 by done. by rewrite decide_False by congruence.
      * intros h' j Hne. rewrite F2, Hat1 by done. by rewrite decide_False by congruence.
      * intros h' w Hne. rewrite F3 by done. unfold r1, free_voter. cbn [wr_late_voter_k_plus1 wr_late_voter_at wr_participation_counted participation_counted_for_block].
        by rewrite rd_insert_ne by congruence.
    + intros w. rewrite Hz, Hk1. pose proof (elem_of_cons vs w v). repeat case_decide; first [done|exfalso; naive_solver].
Qed.

(** ** Settlement *)

(** What settling block [h] leaves alone. *)
Record settle_frame (h : B256) (r r' : Rewards) : Prop := {
  sf_window : forall h' vs, h' <> h -> window r h' vs -> window r' h' vs /\ forall v, distance r' h' v = distance r h' v;
  sf_pending : forall h', h' <> h -> rd (pending_fees r') h' = rd (pending_fees r) h';
  sf_settled : forall h', h' <> h -> rd (fee_settled r') h' = rd (fee_settled r) h';
  sf_numbers : (pending_fb_hash_at r', pending_committee_size_at r', pending_epoch_at r', pending_committee_set_hash_at r', pending_view_at r', pending_parent_view_at r') =
               (pending_fb_hash_at r, pending_committee_size_at r, pending_epoch_at r, pending_committee_set_hash_at r, pending_view_at r, pending_parent_view_at r);
  sf_days : (daily_participation r', daily_total_participation r', daily_voter_count r', daily_voter_at r', daily_fee_sum_raw r') =
            (daily_participation r, daily_total_participation r, daily_voter_count r, daily_voter_at r, daily_fee_sum_raw r)
}.

Section SettleProofs.
Context {St : Type}.
Variable metadosis : St -> u64 -> U256 -> res (St * U256).
Variable timestamp : u64.

(** The record after a settlement. *)
Definition settled_rewards (r : Rewards) (h : B256) : Rewards :=
  wr_pending_fees (wr_late_voter_count (foldl (free_voter h) (wr_fee_settled r h true) (seqZ 0 (rd (late_voter_count r) h))) h 0) h 0.

Lemma settled_rewards_spec r h vs :
  window r h vs ->
  let r' := settled_rewards r h in
  rd (fee_settled r') h = true /\ rd (pending_fees r') h = 0 /\ window r' h [] /\ settle_frame h r r'.
Proof.
  intros [Hnd Hc Hat Hin Hout]. unfold settled_rewards. rewrite Hc. set (r1 := wr_fee_settled r h true).
  destruct (free_all_spec h vs 0 r1 ltac:(lia) Hnd Hat) as ([F1 F2 F3 F4 F5 F6] & Hz). set (r2 := foldl _ r1 _) in *. clearbody r2.
  injection F4 as F41 F42 F43 F44 F45 F46 F47 F48. injection F6 as F61 F62 F63 F64 F65.
  unfold wr_pending_fees, wr_late_voter_count. cbn [fee_settled pending_fees]. rewrite F42, F41. cbn [r1 wr_fee_settled fee_settled pending_fees]. rewrite !rd_insert_eq.
  split_and!; [done|done|split|split]; cbn [late_voter_count late_voter_at late_voter_k_plus1 pending_fees fee_settled pending_fb_hash_at pending_committee_size_at pending_epoch_at
    pending_committee_set_hash_at pending_view_at pending_parent_view_at daily_participation daily_total_participation daily_voter_count daily_voter_at daily_fee_sum_raw].
  - constructor.
  - by rewrite rd_insert_eq.
  - done.
  - intros v Hv. by apply not_elem_of_nil in Hv.
  - intros v _. rewrite Hz. case_decide; [done|]. by apply Hout.
  - intros h' vs' Hne [Hnd' Hc' Hat' Hin' Hout']. split.
    + split; cbn [late_voter_count late_voter_at late_voter_k_plus1].
      * done.
      * rewrite rd_insert_ne by done. by rewrite F5.
      * intros i v Hi. rewrite F2 by done. by apply Hat'.
      * intros v Hv. rewrite F1 by done. by apply Hin'.
      * intros v Hv. rewrite F1 by done. by apply Hout'.
    + intros v. unfold distance. cbn [late_voter_k_plus1]. by rewrite F1.
  - intros h' Hne. by rewrite rd_insert_ne.
  - intros h' Hne. rewrite ?F42. cbn [r1 wr_fee_settled fee_settled]. by rewrite rd_insert_ne.
  - by rewrite F43, F44, F45, F46, F47, F48.
  - by rewrite F61, F62, F63, F64, F65.
Qed.

(** The terminal sink takes everything. *)
Definition sink_ok (st : St) : Prop := forall x, 0 < x -> exists st', metadosis st timestamp x = Ok (st', 0).

Record open_window (w : SettleWorld St) (h : B256) (n : Z) (vs : list Address) : Prop := {
  ow_window : window (sw_rewards w) h vs;
  ow_open : rd (fee_settled (sw_rewards w)) h = false;
  ow_pending : 0 <= rd (pending_fees (sw_rewards w)) h;
  ow_fits : rd (pending_fees (sw_rewards w)) h * LATE_FINALIZE_W_MAX < 2 ^ 256;
  ow_committee : 0 < n < 2 ^ 64 /\ len vs <= n;
  ow_stranger : REWARDS_ADDRESS ∉ vs
}.

Lemma settle_window_spec w h n vs :
  open_window w h n vs -> balances_ok (sw_balance w) -> sink_ok (sw_rest w) ->
  let p := rd (pending_fees (sw_rewards w)) h in
  let total := lsum (payout (sw_rewards w) h p n <$> vs) in
  p <= rd (sw_balance w) REWARDS_ADDRESS ->
  exists b st, settle_window metadosis timestamp w h n = Ok (mkSettle (settled_rewards (sw_rewards w) h) b st, (total, p - total)) /\
    0 <= total <= p /\ balances_ok b /\ msum b = msum (sw_balance w) - (p - total) /\
    forall a, rd b a = rd (sw_balance w) a + (if decide (a ∈ vs) then payout (sw_rewards w) h p n a else 0) - (if decide (a = REWARDS_ADDRESS) then p else 0).
Proof.
  intros [Hw Hop Hp0 Hfit [Hn Hl] Hrew] Hb Hsink p total Hpay. unfold settle_window. set (r := sw_rewards w) in *. fold p. rewrite Hop.
  rewrite (proj2 (Z.eqb_neq (fixed_denominator n) 0)) by (rewrite fixed_denominator_exact by lia; unfold LATE_FINALIZE_W_MAX; lia). cbn [negb].
  assert (Ht : 0 <= total <= p) by (split; [apply payouts_bound; lia|apply payouts_solvent; lia]). assert (Hp256 : p < 2 ^ 256) by (unfold LATE_FINALIZE_W_MAX in *; lia).
  rewrite (wi_count r h vs Hw). destruct (pay_all_spec r h p n vs 0 (sw_balance w) 0 Hp0 Hfit Hn Hb (wi_nodup r h vs Hw) Hrew) as (b1 & E1 & B1 & M1 & R1); [|fold total; lia|lia|fold total; lia|].
  { intros i v Hi. split; [by apply (wi_at r h vs Hw)|]. destruct (wi_in r h vs Hw v) as [Hk _]; [by eapply list_elem_of_lookup_2|done]. }
  rewrite E1, Z.add_0_l. fold total. unfold checked_sub. rewrite (proj2 (Z.leb_le total p)) by lia. cbn [ok_or].
  assert (Hpar : checked_add 256 total (p - total) = Some p).
  { unfold checked_add. replace (total + (p - total)) with p by lia. by rewrite (proj2 (Z.ltb_lt _ _)) by lia. }
  assert (Er : rd b1 REWARDS_ADDRESS = rd (sw_balance w) REWARDS_ADDRESS - total).
  { rewrite R1. rewrite decide_False by done. rewrite decide_True by done. fold total. lia. }
  unfold settled_rewards in *. rewrite (wi_count r h vs Hw) in *. destruct (p - total =? 0) eqn:Ez; bools; cbn [negb].
  - exists b1, (sw_rest w). split_and!; [by rewrite Hpar; cbn [ok_or]; rewrite Z.eqb_refl|lia|lia|done|lia|]. intros a. rewrite R1. fold total. repeat case_decide; lia.
  - pose proof (decrease_balance_spec b1 REWARDS_ADDRESS (p - total) B1 ltac:(lia)) as Hd. rewrite (proj2 (Z.leb_le _ _)) in Hd by lia.
    destruct Hd as (b2 & -> & B2 & M2 & R2). destruct (Hsink (p - total) ltac:(lia)) as (st' & Es). unfold dispatch_terminal_remainder_at.
    rewrite (proj2 (Z.eqb_neq _ _)), Es by done. cbn [Z.eqb]. exists b2, st'. split_and!; [by rewrite Hpar; cbn [ok_or]; rewrite Z.eqb_refl|lia|lia|done|lia|].
    intros a. rewrite R2, R1. fold total. repeat case_decide; lia.
Qed.
End SettleProofs.

(** ** The life of a fee window *)

(** The base voters are credited at distance zero. *)
Definition base_credits (base : list Address) : list (Address * u8) := (fun v => (v, 0)) <$> base.

Lemma credit_base r h base : foldM (fun r v => record_late_credit r h v 0) r base = credit_all r h (base_credits base).
Proof. revert r. induction base as [|v base IH]; intros r; [done|]. unfold credit_all, base_credits in *. cbn [foldM fmap list_fmap]. destruct (record_late_credit r h v 0); [apply IH|done]. Qed.

Definition credited (cs : list (Address * u8)) : list Address := foldl add_once [] (fst <$> cs).

(** What a voter of the window is owed. *)
Definition reward (cs : list (Address * u8)) (fee n : Z) (v : Address) : Z :=
  match min_distance cs v with Some k => fee * decay_weight k / (n * LATE_FINALIZE_W_MAX) | None => 0 end.

Lemma elem_of_foldl_add vs l v : v ∈ foldl add_once vs l <-> v ∈ vs \/ v ∈ l.
Proof.
  revert vs. induction l as [|x l IH]; intros vs; cbn [foldl]; [set_solver|]. rewrite IH, elem_of_add_once. set_solver.
Qed.

Lemma min_distance_Some cs v : v ∈ fst <$> cs <-> is_Some (min_distance cs v).
Proof.
  induction cs as [|[w k] cs IH]; cbn [min_distance fmap list_fmap fst].
  - split; [intros H; by apply not_elem_of_nil in H|by intros [? [=]]].
  - rewrite elem_of_cons, IH. case_decide; [|naive_solver]. split; [done|]. intros _. by left.
Qed.

Lemma escrow_block_fee_spec r nr h fee n ep vw pv csh base late :
  window r h [] -> rd (fee_settled r) h = false -> Forall (fun c => 0 <= snd c < 255) late -> len base + len late < 2 ^ 32 ->
  let cs := base_credits base ++ late in
  exists r1 r2, escrow_block_fee r nr h fee n ep vw pv csh base = Ok r1 /\ credit_all r1 h late = Ok r2 /\
    window r2 h (credited cs) /\ rd (fee_settled r2) h = false /\ rd (pending_fees r2) h = fee /\
    rd (pending_fb_hash_at r2) nr = h /\ rd (pending_committee_size_at r2) nr = n /\
    (forall p v, v ∈ credited cs -> payout r2 h p n v = reward cs p n v) /\
    (forall h' vs, h' <> h -> window r h' vs -> window r2 h' vs /\ rd (pending_fees r2) h' = rd (pending_fees r) h').
Proof.
  intros Hw Hf Hlate Hlen cs. unfold escrow_block_fee. rewrite Hf, credit_base. match goal with |- context [credit_all ?x h (base_credits base)] => set (r0 := x) end.
  assert (Hw0 : window r0 h []) by (destruct Hw; by split). assert (Hf0 : rd (fee_settled r0) h = false) by done.
  assert (Hcs : Forall (fun c : Address * Z => 0 <= snd c < 255) cs).
  { apply Forall_app. split; [|done]. apply Forall_fmap, Forall_true. intros v. cbn. lia. }
  destruct (credit_all_spec r0 h [] cs Hw0 Hf0 Hcs) as (r2 & E2 & W2 & F2 & D2).
  { unfold cs, base_credits, len in *. rewrite length_app, length_fmap. cbn [length]. lia. }
  pose proof E2 as E2'. unfold credit_all, cs in E2'. rewrite foldM_app in E2'. fold (credit_all r0 h (base_credits base)) in E2'.
  destruct (credit_all r0 h (base_credits base)) as [r1|e] eqn:E1; [|done]. exists r1, r2. split; [done|]. split; [done|].
  pose proof (cf_escrow _ _ _ F2) as E. unfold escrow in E. injection E as G1 G2 G3 G4 _ _ _ _. split; [done|]. rewrite G2, G1, G3, G4.
  unfold r0, wr_pending_fees, wr_pending_fb_hash_at, wr_pending_committee_size_at, wr_pending_committee_set_hash_at, wr_pending_epoch_at, wr_pending_view_at, wr_pending_parent_view_at.
  cbn [pending_fees fee_settled pending_fb_hash_at pending_committee_size_at]. rewrite !rd_insert_eq. split_and!; try done.
  - intros p v Hv. unfold payout, reward. rewrite D2. unfold credited in Hv. apply elem_of_foldl_add in Hv as [Hv|Hv]; [by apply not_elem_of_nil in Hv|].
    apply min_distance_Some in Hv as [m ->]. by rewrite decide_False by apply not_elem_of_nil.
  - intros h' vs Hne [X1 X2 X3 X4 X5]. split; [split|by rewrite rd_insert_ne by done]; first [done|intros *].
    + by rewrite (cf_count _ _ _ F2).
    + rewrite (cf_at _ _ _ F2) by done. apply X3.
    + rewrite (cf_k _ _ _ F2) by done. apply X4.
    + rewrite (cf_k _ _ _ F2) by done. apply X5.
Qed.

Lemma settle_matured_done {St} metadosis ts (w : SettleWorld St) nr k :
  rd (pending_fb_hash_at (sw_rewards w)) nr = 0 -> 0 <= nr -> settle_matured metadosis ts w (nr + k) k = Ok (w, (0, 0)).
Proof.
  intros Hz Hnr. unfold settle_matured, checked_sub. rewrite (proj2 (Z.leb_le _ _)) by lia. replace (nr + k - k) with nr by lia.
  case_match; [done|]. by rewrite Hz.
Qed.

(** The slots cleared by block number when a window matures. *)
Lemma settle_matured_spec {St} metadosis ts (w : SettleWorld St) h nr n vs :
  0 < nr -> h <> 0 -> rd (pending_fb_hash_at (sw_rewards w)) nr = h -> rd (pending_committee_size_at (sw_rewards w)) nr = n ->
  open_window w h n vs -> balances_ok (sw_balance w) -> sink_ok metadosis ts (sw_rest w) ->
  let p := rd (pending_fees (sw_rewards w)) h in
  let total := lsum (payout (sw_rewards w) h p n <$> vs) in
  p <= rd (sw_balance w) REWARDS_ADDRESS ->
  exists w', settle_matured metadosis ts w (nr + LATE_FINALIZE_WINDOW_K) LATE_FINALIZE_WINDOW_K = Ok (w', (total, p - total)) /\
    0 <= total <= p /\ balances_ok (sw_balance w') /\ msum (sw_balance w') = msum (sw_balance w) - (p - total) /\
    (forall a, rd (sw_balance w') a = rd (sw_balance w) a + (if decide (a ∈ vs) then payout (sw_rewards w) h p n a else 0) - (if decide (a = REWARDS_ADDRESS) then p else 0)) /\
    window (sw_rewards w') h [] /\ rd (fee_settled (sw_rewards w')) h = true /\ rd (pending_fees (sw_rewards w')) h = 0 /\ rd (pending_fb_hash_at (sw_rewards w')) nr = 0 /\
    (forall h' vs', h' <> h -> window (sw_rewards w) h' vs' -> window (sw_rewards w') h' vs' /\ rd (pending_fees (sw_rewards w')) h' = rd (pending_fees (sw_rewards w)) h').
Proof.
  intros Hnr Hh Eh En Hopen Hb Hsink p total Hpay. unfold settle_matured, checked_sub. rewrite (proj2 (Z.leb_le _ _)) by (unfold LATE_FINALIZE_WINDOW_K; lia).
  replace (nr + _ - _) with nr by lia. rewrite (proj2 (Z.eqb_neq nr 0)) by lia. rewrite Eh, En, (proj2 (Z.eqb_neq h 0)) by done.
  destruct (settle_window_spec metadosis ts w h n vs Hopen Hb Hsink Hpay) as (b & st & -> & Ht & B & M & R).
  destruct (settled_rewards_spec (sw_rewards w) h vs (ow_window _ _ _ _ Hopen)) as (S1 & S2 & [N1 N2 N3 N4 N5] & [F1 F2 _ _ _]).
  cbn [sw_rewards sw_balance sw_rest]. set (r := settled_rewards _ _) in *. clearbody r. match goal with |- context [Ok (mkSettle ?x b st, _)] => set (r3 := x) end.
  assert (G1 : pending_fees r3 = pending_fees r) by reflexivity. assert (G2 : fee_settled r3 = fee_settled r) by reflexivity.
  assert (G3 : late_voter_count r3 = late_voter_count r) by reflexivity. assert (G4 : late_voter_at r3 = late_voter_at r) by reflexivity.
  assert (G5 : late_voter_k_plus1 r3 = late_voter_k_plus1 r) by reflexivity.
  assert (G6 : pending_fb_hash_at r3 = <[nr := 0]> (pending_fb_hash_at r)) by reflexivity. clearbody r3.
  assert (Hwin : forall h' vs', window r h' vs' -> window r3 h' vs') by (intros h' vs' []; split; rewrite ?G3, ?G4, ?G5; done).
  exists (mkSettle r3 b st). cbn [sw_rewards sw_balance sw_rest]. rewrite G1, G2, G6, rd_insert_eq. split_and!; try done; try apply Ht.
  - apply Hwin. by split.
  - intros h' vs' Hne Hw'. destruct (F1 h' vs' Hne Hw') as [? _]. auto.
Qed.

Section Lifecycle.
Context {St : Type}.
Variable metadosis : St -> u64 -> U256 -> res (St * U256).
Variable timestamp : u64.

(** C23. A fee window lives exactly as documented. For a fresh non-zero block hash
    whose fee is escrowed with its base voters, and any late credits recorded
    before the window closes, the settlement at distance [LATE_FINALIZE_WINDOW_K]
    succeeds; every credited voter receives [fee * weight / (committee * W_MAX)]
    for the smallest distance at which it was credited, once, however often it
    was credited; the escrow account loses exactly the fee; what is not paid out
    leaves the native supply and goes to the terminal sink; the window's state is
    freed, other windows and their escrow are untouched, and settling again does
    nothing. *)
Theorem fee_window_exact r b st nr h fee n ep vw pv csh base late :
  let cs := base_credits base ++ late in
  let total := lsum (reward cs fee n <$> credited cs) in
  window r h [] -> rd (fee_settled r) h = false -> 0 < nr -> h <> 0 ->
  0 <= fee -> fee * LATE_FINALIZE_W_MAX < 2 ^ 256 -> 0 < n < 2 ^ 32 -> len (credited cs) <= n ->
  Forall (fun c => 0 <= snd c < 255) late -> len base + len late < 2 ^ 32 -> REWARDS_ADDRESS ∉ credited cs ->
  balances_ok b -> fee <= rd b REWARDS_ADDRESS -> sink_ok metadosis timestamp st ->
  exists r1 r2 w, escrow_block_fee r nr h fee n ep vw pv csh base = Ok r1 /\ credit_all r1 h late = Ok r2 /\
    settle_matured metadosis timestamp (mkSettle r2 b st) (nr + LATE_FINALIZE_WINDOW_K) LATE_FINALIZE_WINDOW_K = Ok (w, (total, fee - total)) /\
    0 <= total <= fee /\ balances_ok (sw_balance w) /\ msum (sw_balance w) = msum b - (fee - total) /\
    (forall a, rd (sw_balance w) a = rd b a + reward cs fee n a - (if decide (a = REWARDS_ADDRESS) then fee else 0)) /\
    window (sw_rewards w) h [] /\ rd (fee_settled (sw_rewards w)) h = true /\ rd (pending_fees (sw_rewards w)) h = 0 /\
    (forall h' vs, h' <> h -> window r h' vs -> window (sw_rewards w) h' vs /\ rd (pending_fees (sw_rewards w)) h' = rd (pending_fees r) h') /\
    settle_matured metadosis timestamp w (nr + LATE_FINALIZE_WINDOW_K) LATE_FINALIZE_WINDOW_K = Ok (w, (0, 0)).
Proof.
  intros cs total Hw Hf Hnr Hh Hfee Hfit Hn Hl Hlate Hlen Hrew Hb Hpay Hsink.
  destruct (escrow_block_fee_spec r nr h fee n ep vw pv csh base late Hw Hf Hlate Hlen) as (r1 & r2 & E1 & E2 & W2 & F2 & P2 & H2 & N2 & Hpo & Hoth). fold cs in W2, Hpo.
  assert (Hopen : open_window (mkSettle r2 b st) h n (credited cs)).
  { split; cbn [sw_rewards]; rewrite ?P2; try done. split; [lia|done]. }
  destruct (settle_matured_spec metadosis timestamp (mkSettle r2 b st) h nr n (credited cs) Hnr Hh H2 N2 Hopen Hb Hsink) as (w & E & Ht & B & M & R & W & S & P & Z0 & Ho);
    cbn [sw_rewards sw_balance sw_rest] in *; rewrite ?P2 in *; [done|].
  assert (Et : lsum (payout r2 h fee n <$> credited cs) = total).
  { unfold total. f_equal. apply list_fmap_ext. intros i v Hv. apply Hpo. by eapply list_elem_of_lookup_2. }
  rewrite Et in *. exists r1, r2, w. split_and!; try done; try lia.
  - intros a. rewrite R. f_equal. f_equal. case_decide as Ha; [by apply Hpo|]. unfold reward. destruct (min_distance cs a) eqn:E0; [|done].
    destruct Ha. apply elem_of_foldl_add. right. apply min_distance_Some. by rewrite E0.
  - intros h' vs Hne Hw'. destruct (Hoth h' vs Hne Hw') as [Hw2 Hp2]. destruct (Ho h' vs Hne Hw2) as [Hw3 Hp3]. by rewrite Hp3.
  - apply settle_matured_done; [done|lia].
Qed.
End Lifecycle.

(** ** A concrete window *)

Definition no_rewards : Rewards :=
  mkRewards 0 ∅ ∅ ∅ ∅ ∅ ∅ ∅ ∅ ∅ 0 0 ∅ ∅ ∅ ∅ ∅ ∅ ∅ ∅ ∅ ∅ ∅ ∅ ∅ ∅ ∅ ∅ 0.

Lemma no_rewards_window h : window no_rewards h [].
Proof.
  split; [constructor|done|done| |]; intros v Hv; [by apply not_elem_of_nil in Hv|]. apply rd_empty.
Qed.

Definition sample_sink (st : unit) (ts : u64) (x : U256) : res (unit * U256) := Ok (st, 0).

Lemma sample_escrow_ok : balances_ok (<[REWARDS_ADDRESS := 1000]> ∅).
Proof. split; [|vm_compute; reflexivity]. intros a. rewrite rd_insert. case_decide; [lia|]. by rewrite rd_empty. Qed.

Lemma fee_window_exact_witness : exists r1 r2 w,
  escrow_block_fee no_rewards 7 99 1000 4 1 7 6 5 [1; 2] = Ok r1 /\ credit_all r1 99 [(3, 2); (2, 1); (4, 3)] = Ok r2 /\
  settle_matured sample_sink 0 (mkSettle r2 (<[REWARDS_ADDRESS := 1000]> ∅) tt) 10 3 = Ok (w, (750, 250)) /\
  rd (sw_balance w) 2 = 250 /\ rd (sw_balance w) 4 = 0 /\ rd (sw_balance w) REWARDS_ADDRESS = 0.
Proof.
  destruct (fee_window_exact sample_sink 0 no_rewards (<[REWARDS_ADDRESS := 1000]> ∅) tt 7 99 1000 4 1 7 6 5 [1; 2] [(3, 2); (2, 1); (4, 3)])
    as (r1 & r2 & w & E1 & E2 & E3 & _ & _ & _ & R & _).
  - apply no_rewards_window.
  - reflexivity.
  - lia.
  - discriminate.
  - lia.
  - reflexivity.
  - lia.
  - vm_compute. discriminate.
  - repeat constructor; vm_compute; first [discriminate|reflexivity].
  - reflexivity.
  - vm_compute. intros H. repeat (apply elem_of_cons in H as [H|H]; [discriminate|]). by apply not_elem_of_nil in H.
  - apply sample_escrow_ok.
  - by rewrite rd_insert_eq.
  - intros x _. by exists tt.
  - exists r1, r2, w. split_and!; [exact E1|exact E2|exact E3|..]; rewrite R; reflexivity.
Defined.

(** ** Daily participation

    The ledger of a day is the list of its voters in first-seen order with the
    number of finalized blocks each of them voted for. *)

Fixpoint first_occurrences (seen voters : list Address) : list Address :=
  match voters with
  | [] => []
  | v :: voters => if decide (v ∈ seen) then first_occurrences seen voters else v :: first_occurrences (v :: seen) voters
  end.

Record day_rep (r : Rewards) (d : u32) (l : list (Address * u64)) (fees : U256) : Prop := {
  dr_nodup : NoDup (fst <$> l);
  dr_pos : Forall (fun c => 1 <= snd c) l;
  dr_count : rd (daily_voter_count r) d = len l;
  dr_at : forall i v, (fst <$> l) !! i = Some v -> rd (daily_voter_at r) (d, Z.of_nat i) = v;
  dr_part : forall v, rd (daily_participation r) (d, v) = count_of l v;
  dr_total : rd (daily_total_participation r) d = lsum (snd <$> l);
  dr_fees : rd (daily_fee_sum_raw r) d = fees
}.

Definition days (r : Rewards) :=
  (daily_fee_sum_raw r, daily_participation r, daily_total_participation r, daily_voter_count r, daily_voter_at r).

Lemma day_rep_days r r' d l f : days r' = days r -> day_rep r d l f -> day_rep r' d l f.
Proof. unfold days. intros [= E1 E2 E3 E4 E5] []. split; rewrite ?E1, ?E2, ?E3, ?E4, ?E5; done. Qed.

(** The state the participation loop leaves alone. *)
Definition beside_days (r : Rewards) :=
  (escrow r, (late_voter_count r, late_voter_at r, late_voter_k_plus1 r),
   (daily_fee_sum_raw r, block_metadata_counted r, last_settled_utc_day r, block_guard_ring r, block_guard_ring_seq r)).

(** Which writes count a vote of [v] in the ledger [l] of day [d]. *)
Record vote_written (r r' : Rewards) (d : u32) (l : list (Address * u64)) (v : Address) : Prop := {
  vw_fees : daily_fee_sum_raw r' = daily_fee_sum_raw r;
  vw_part : daily_participation r' = <[(d, v) := count_of l v + 1]> (daily_participation r);
  vw_total : daily_total_participation r' = <[d := lsum (snd <$> l) + 1]> (daily_total_participation r);
  vw_old : v ∈ fst <$> l -> (daily_voter_count r', daily_voter_at r') = (daily_voter_count r, daily_voter_at r);
  vw_new : v ∉ fst <$> l -> (daily_voter_count r', daily_voter_at r') =
                            (<[d := len l + 1]> (daily_voter_count r), <[(d, len l) := v]> (daily_voter_at r))
}.

Lemma vote_written_other r r' d l v d' l' f' : vote_written r r' d l v -> d' <> d -> day_rep r d' l' f' -> day_rep r' d' l' f'.
Proof.
  intros [W1 W2 W3 W4 W5] Hne [Hnd Hpos Hc Hat Hp Ht Hf].
  assert (H : rd (daily_voter_count r') d' = len l' /\ forall i w, (fst <$> l') !! i = Some w -> rd (daily_voter_at r') (d', Z.of_nat i) = w).
  { destruct (decide (v ∈ fst <$> l)) as [Hv|Hv]; [injection (W4 Hv) as -> ->; done|]. injection (W5 Hv) as -> ->.
    rewrite rd_insert_ne by done. split; [done|]. intros i w Hi. rewrite rd_insert_ne by congruence. auto. }
  destruct H as [H1 H2]. split; rewrite ?W1, ?W2, ?W3; try done.
  - intros w. rewrite rd_insert_ne by congruence. auto.
  - by rewrite rd_insert_ne by done.
Qed.

Lemma vote_written_same r r' d l f v : vote_written r r' d l v -> day_rep r d l f -> day_rep r' d (bump l v) f.
Proof.
  intros [W1 W2 W3 W4 W5] [Hnd Hpos Hc Hat Hp Ht Hf]. pose proof (bump_fst l v) as Hbf. unfold add_once in Hbf.
  assert (Hlen : len (bump l v) = len (fst <$> bump l v)) by (unfold len; by rewrite length_fmap).
  assert (Hp' : forall w, rd (daily_participation r') (d, w) = count_of (bump l v) w).
  { intros w. rewrite W2, rd_insert, bump_count, Hp. destruct (decide (w = v)) as [->|]; [rewrite decide_True by done; lia|]. rewrite decide_False by congruence. lia. }
  assert (Ht' : rd (daily_total_participation r') d = lsum (snd <$> bump l v)) by (by rewrite W3, rd_insert_eq, bump_sum).
  destruct (decide (v ∈ fst <$> l)) as [Hv|Hv].
  - injection (W4 Hv) as E1 E2. split; rewrite ?W1, ?E1, ?E2, ?Hlen, ?Hbf; try done; [by apply bump_pos|]. rewrite Hc. unfold len. by rewrite length_fmap.
  - injection (W5 Hv) as E1 E2. split; rewrite ?W1, ?E1, ?E2, ?Hlen, ?Hbf; try done.
    + apply NoDup_app. split_and!; [done|set_solver|apply NoDup_singleton].
    + by apply bump_pos.
    + rewrite rd_insert_eq. unfold len. rewrite length_app, length_fmap. cbn. lia.
    + intros i w Hi. destruct (decide (i < length (fst <$> l))%nat) as [Hlt'|].
      * rewrite lookup_app_l in Hi by done. rewrite length_fmap in Hlt'. rewrite rd_insert_ne by (intros [=]; unfold len in *; lia). by apply Hat.
      * rewrite lookup_app_r in Hi by lia. apply list_lookup_singleton_Some in Hi as [Hi <-]. rewrite length_fmap in *. replace (Z.of_nat i) with (len l) by (unfold len; lia). by rewrite rd_insert_eq.
Qed.

Lemma count_participation_spec r h d l f v :
  day_rep r d l f -> rd (participation_counted_for_block r) (h, v) = false -> lsum (snd <$> l) < 2 ^ 32 - 1 ->
  exists r', count_participation h d r v = Ok r' /\ vote_written r r' d l v /\
    participation_counted_for_block r' = <[(h, v) := true]> (participation_counted_for_block r) /\ beside_days r' = beside_days r.
Proof.
  intros [Hnd Hpos Hc Hat Hp Ht Hf] Hun Hlt. unfold count_participation. rewrite Hun, Hp. pose proof (count_bounds l v Hpos) as [Hb Hl]. pose proof (count_of_zero l v Hpos) as Hz.
  destruct (count_of l v =? 0) eqn:E; bools.
  - pose proof (proj1 Hz E) as Hv. rewrite Hc. unfold checked_add. rewrite (proj2 (Z.ltb_lt _ _)) by lia. cbn [ok_or]. rewrite (proj2 (Z.ltb_lt (count_of l v + 1) _)) by lia. cbn [ok_or].
    set (r1 := wr_daily_participation _ _ _ _). assert (E1 : daily_total_participation r1 = daily_total_participation r) by reflexivity.
    rewrite E1, Ht, (proj2 (Z.ltb_lt _ _)) by lia. cbn [ok_or]. eexists. split; [reflexivity|]. split; [split; try reflexivity; done|split; reflexivity].
  - assert (Hv : v ∈ fst <$> l) by (destruct (decide (v ∈ fst <$> l)); [done|naive_solver]).
    unfold checked_add. rewrite (proj2 (Z.ltb_lt _ _)) by lia. cbn [ok_or].
    set (r1 := wr_daily_participation _ _ _ _). assert (E1 : daily_total_participation r1 = daily_total_participation r) by reflexivity.
    rewrite E1, Ht, (proj2 (Z.ltb_lt _ _)) by lia. cbn [ok_or]. eexists. split; [reflexivity|]. split; [split; try reflexivity; done|split; reflexivity].
Qed.

Lemma count_all_spec h d voters : forall r l f seen,
  day_rep r d l f -> (forall v, rd (participation_counted_for_block r) (h, v) = bool_decide (v ∈ seen)) -> lsum (snd <$> l) + len voters < 2 ^ 32 ->
  exists r', foldM (count_participation h d) r voters = Ok r' /\ day_rep r' d (foldl bump l (first_occurrences seen voters)) f /\
    (forall d' l' f', d' <> d -> day_rep r d' l' f' -> day_rep r' d' l' f') /\
    (forall h' v, h' <> h -> rd (participation_counted_for_block r') (h', v) = rd (participation_counted_for_block r) (h', v)) /\
    beside_days r' = beside_days r.
Proof.
  induction voters as [|v voters IH]; intros r l f seen Hd Hs Hl; [by exists r|]. unfold len in Hl. cbn [length] in Hl. cbn [foldM first_occurrences].
  destruct (decide (v ∈ seen)) as [Hv|Hv].
  - unfold count_participation at 1. rewrite Hs, bool_decide_true by done. apply (IH r l f seen Hd Hs). unfold len. lia.
  - destruct (count_participation_spec r h d l f v Hd) as (r1 & E1 & W1 & P1 & B1); [rewrite Hs; by apply bool_decide_false|lia|]. rewrite E1.
    destruct (IH r1 (bump l v) f (v :: seen)) as (r2 & E2 & D2 & O2 & P2 & B2).
    + by eapply vote_written_same.
    + intros w. rewrite P1, rd_insert, Hs. pose proof (elem_of_cons seen w v) as Hc. destruct (decide ((h, v) = (h, w))) as [[= <-]|Hne].
      * symmetry. apply bool_decide_true. apply Hc. by left.
      * apply bool_decide_ext. rewrite Hc. naive_solver.
    + rewrite bump_sum. unfold len. lia.
    + exists r2. split_and!; [done|done| | |by rewrite B2].
      * intros d' l' f' Hne Hd'. apply O2; [done|]. by eapply vote_written_other.
      * intros h' w Hne. rewrite P2, P1 by done. by rewrite rd_insert_ne by congruence.
Qed.

(** A block no phase has touched yet. *)
Record fresh_block (r : Rewards) (h : B256) : Prop := {
  fb_window : window r h [];
  fb_open : rd (fee_settled r) h = false;
  fb_uncounted : rd (block_metadata_counted r) h = false;
  fb_unseen : forall v, rd (participation_counted_for_block r) (h, v) = false
}.

Lemma prune_block_guards_spec r h :
  block_guard_ring_seq r < 2 ^ 64 - 1 ->
  exists r', prune_block_guards r h = Ok r' /\ days r' = days r /\ block_guard_ring_seq r' = block_guard_ring_seq r + 1 /\
    forall h', fresh_block r h' -> fresh_block r' h'.
Proof.
  intros Hs. unfold prune_block_guards. set (e := rd (block_guard_ring r) _). set (r1 := if _ && _ then _ else r).
  assert (H1 : days r1 = days r /\ participation_counted_for_block r1 = participation_counted_for_block r /\
               late_voter_count r1 = late_voter_count r /\ late_voter_at r1 = late_voter_at r /\ late_voter_k_plus1 r1 = late_voter_k_plus1 r).
  { unfold r1. destruct (_ && _); split_and!; reflexivity. }
  assert (H2 : forall h', rd (fee_settled r) h' = false -> rd (fee_settled r1) h' = false).
  { intros h' Hh. unfold r1. destruct (_ && _); [|done]. change (rd (<[e := false]> (fee_settled r)) h' = false). rewrite rd_insert. by case_decide. }
  assert (H3 : forall h', rd (block_metadata_counted r) h' = false -> rd (block_metadata_counted r1) h' = false).
  { intros h' Hh. unfold r1. destruct (_ && _); [|done]. change (rd (<[e := false]> (block_metadata_counted r)) h' = false). rewrite rd_insert. by case_decide. }
  clearbody r1. destruct H1 as (D1 & P1 & C1 & A1 & K1). unfold checked_add. rewrite (proj2 (Z.ltb_lt _ _)) by lia. cbn [ok_or]. eexists. split; [reflexivity|].
  split; [done|]. split; [done|]. intros h' [[W1 W2 W3 W4 W5] Ho Hu Hn]. split.
  - split; cbn [set_block_guard_ring_seq wr_block_guard_ring late_voter_count late_voter_at late_voter_k_plus1]; rewrite ?C1, ?A1, ?K1; done.
  - by apply H2.
  - by apply H3.
  - intros v. cbn [set_block_guard_ring_seq wr_block_guard_ring participation_counted_for_block]. by rewrite P1.
Qed.

(** Two states agree on what is stored for block [h]. *)
Record same_block (h : B256) (r r' : Rewards) : Prop := {
  sb_count : rd (late_voter_count r') h = rd (late_voter_count r) h;
  sb_at : forall i, rd (late_voter_at r') (h, i) = rd (late_voter_at r) (h, i);
  sb_k : forall v, rd (late_voter_k_plus1 r') (h, v) = rd (late_voter_k_plus1 r) (h, v);
  sb_settled : rd (fee_settled r') h = rd (fee_settled r) h;
  sb_counted : rd (block_metadata_counted r') h = rd (block_metadata_counted r) h;
  sb_part : forall v, rd (participation_counted_for_block r') (h, v) = rd (participation_counted_for_block r) (h, v)
}.

#[export] Instance same_block_preorder h : PreOrder (same_block h).
Proof.
  split; [by split|]. intros r1 r2 r3 [A1 A2 A3 A4 A5 A6] [B1 B2 B3 B4 B5 B6].
  split; intros; rewrite ?B1, ?B2, ?B3, ?B4, ?B5, ?B6, ?A1, ?A2, ?A3, ?A4, ?A5, ?A6; done.
Qed.

Lemma fresh_same h r r' : same_block h r r' -> fresh_block r h -> fresh_block r' h.
Proof.
  intros [A1 A2 A3 A4 A5 A6] [[W1 W2 W3 W4 W5] Ho Hc Hp].
  split; [split|..]; intros; rewrite ?A1, ?A2, ?A3, ?A4, ?A5, ?A6; auto.
Qed.

Lemma escrow_base_spec r nr h fee n ep vw pv csh base :
  window r h [] -> rd (fee_settled r) h = false -> len base < 2 ^ 32 ->
  exists r', escrow_block_fee r nr h fee n ep vw pv csh base = Ok r' /\ outside r' = outside r /\ forall h', h' <> h -> same_block h' r r'.
Proof.
  intros Hw Hf Hl. unfold escrow_block_fee. rewrite Hf, credit_base. match goal with |- context [credit_all ?x h _] => set (r0 := x) end.
  assert (Hw0 : window r0 h []) by (destruct Hw; by split).
  destruct (credit_all_spec r0 h [] (base_credits base) Hw0 Hf) as (r' & E & _ & [F1 F2 F3 F4 F5] & _).
  { apply Forall_fmap, Forall_true. intros v. cbn. lia. }
  { unfold base_credits, len in *. rewrite length_fmap. cbn [length]. lia. }
  exists r'. split; [done|]. split; [by rewrite F5|]. intros h' Hne. injection F4 as _ G2 _ _ _ _ _ _.
  injection F5 as _ G3 _ _ _ _ _ _ _ _ G4 _ _ _ _ _. split; intros; rewrite ?F1, ?F2, ?F3, ?G2, ?G3, ?G4 by done; done.
Qed.

(** The effect of one finalized block on the ledger of day [d]. *)
Definition block_day (m : CertifiedParentAccountingMetadata) (ts : u64) (fee : U256) (voters : list Address) (d : u32)
    (s : list (Address * u64) * U256) : list (Address * u64) * U256 :=
  if decide (timestamp_to_date_key ts = d) then (foldl bump (fst s) (first_occurrences [] voters), snd s + fee) else s.

Lemma on_finalized_metadata_spec r m fee ts voters (s : u32 -> list (Address * u64) * U256) :
  fresh_block r (finalized_block_hash m) -> (forall d, day_rep r d (fst (s d)) (snd (s d))) ->
  block_guard_ring_seq r < 2 ^ 64 - 1 -> (forall d, snd (s d) + fee < 2 ^ 256) -> (forall d, lsum (snd <$> fst (s d)) + len voters < 2 ^ 32) ->
  exists r', on_finalized_metadata r m fee ts voters = Ok r' /\ block_guard_ring_seq r' = block_guard_ring_seq r + 1 /\
    (forall d, day_rep r' d (fst (block_day m ts fee voters d (s d))) (snd (block_day m ts fee voters d (s d)))) /\
    forall h, h <> finalized_block_hash m -> fresh_block r h -> fresh_block r' h.
Proof.
  intros Hfresh Hday Hseq Hfee Hlen. unfold on_finalized_metadata. set (h := finalized_block_hash m) in *. set (day := timestamp_to_date_key ts).
  rewrite (fb_uncounted _ _ Hfresh). cbn [negb]. set (r0 := if last_settled_utc_day r =? 0 then _ else r).
  assert (H0 : days r0 = days r /\ block_guard_ring_seq r0 = block_guard_ring_seq r /\ forall h', same_block h' r r0).
  { unfold r0. destruct (_ =? 0); split_and!; try reflexivity; intros h'; by split. }
  destruct H0 as (D0 & Q0 & S0). clearbody r0. assert (Hday0 : forall d, day_rep r0 d (fst (s d)) (snd (s d))) by (intros d; by eapply day_rep_days).
  rewrite (dr_fees _ _ _ _ (Hday0 day)). unfold checked_add at 1. rewrite (proj2 (Z.ltb_lt _ _)) by apply Hfee. cbn [ok_or].
  set (r1 := wr_block_metadata_counted _ h true).
  assert (Hday1 : forall d, day_rep r1 d (fst (s d)) (if decide (day = d) then snd (s d) + fee else snd (s d))).
  { intros d. destruct (Hday0 d) as [? ? ? ? ? ? Hf]. split; try done. change (rd (<[day := snd (s day) + fee]> (daily_fee_sum_raw r0)) d = if decide (day = d) then snd (s d) + fee else snd (s d)).
    rewrite rd_insert. case_decide; [by subst|done]. }
  assert (S1 : forall h', h' <> h -> same_block h' r0 r1).
  { intros h' Hne. split; try done. change (rd (<[h := true]> (block_metadata_counted r0)) h' = rd (block_metadata_counted r0) h'). by rewrite rd_insert_ne. }
  assert (Hf1 : window r1 h [] /\ rd (fee_settled r1) h = false /\ forall v, rd (participation_counted_for_block r1) (h, v) = false).
  { destruct (fresh_same h r r0 (S0 h) Hfresh) as [[W1 W2 W3 W4 W5] Ho _ Hp]. split_and!; [by split|done|done]. }
  assert (Q1 : block_guard_ring_seq r1 = block_guard_ring_seq r) by done. clearbody r1. destruct Hf1 as (W1 & O1 & P1). pose proof (Hlen day) as Hlv. pose proof (count_bounds (fst (s day)) 0 (dr_pos _ _ _ _ (Hday day))) as [Hcb Hlb].
  destruct (escrow_base_spec r1 (finalized_block_number m) h fee (clamp 32 (len (ordered_committee m))) (finalized_epoch m) (finalized_view m) (parent_view m) (committee_set_hash m) voters W1 O1)
    as (r2 & -> & X2 & S2); [lia|]. unfold outside in X2. injection X2 as _ X2p X2f X2a X2b X2c X2d _ _ _ _ _ _ _ _ X2q.
  assert (Hday2 : forall d, day_rep r2 d (fst (s d)) (if decide (day = d) then snd (s d) + fee else snd (s d))) by (intros d; eapply day_rep_days, Hday1; unfold days; congruence).
  destruct (count_all_spec h day voters r2 _ _ [] (Hday2 day)) as (r3 & -> & D3 & O3 & P3 & B3); [intros v; by rewrite X2p, P1|lia|].
  unfold beside_days, escrow in B3. injection B3 as _ B3s _ _ _ _ _ _ B3c B3a B3k _ B3m _ _ B3q.
  assert (S3 : forall h', h' <> h -> same_block h' r2 r3) by (intros h' Hne; split; intros; rewrite ?B3c, ?B3a, ?B3k, ?B3s, ?B3m, ?P3 by done; done).
  set (r4 := if day >? _ then _ else r3). assert (H4 : days r4 = days r3 /\ block_guard_ring_seq r4 = block_guard_ring_seq r3 /\ forall h', same_block h' r3 r4).
  { unfold r4. destruct (_ >? _); split_and!; try reflexivity; intros h'; by split. }
  destruct H4 as (D4 & Q4 & S4). clearbody r4. destruct (prune_block_guards_spec r4 h) as (r5 & -> & D5 & Q5 & F5); [lia|]. exists r5. split; [done|]. split; [lia|]. split.
  - intros d. apply (day_rep_days r3); [congruence|]. unfold block_day. fold day. destruct (decide (day = d)) as [<-|Hne]; cbn [fst snd].
    + by rewrite decide_True in D3 by done.
    + pose proof (Hday2 d) as Hd2. rewrite decide_False in Hd2 by done. by apply O3.
  - intros h' Hne Hfr. apply F5. eapply fresh_same, Hfr. etrans; [apply S0|]. etrans; [by apply S1|]. etrans; [by apply S2|]. etrans; [by apply S3|]. apply S4.
Qed.

(** ** A run of finalized blocks *)

Record FinalizedBlock := mkFinalized { fbk_meta : CertifiedParentAccountingMetadata; fbk_fee : U256; fbk_time : u64; fbk_voters : list Address }.

Definition fbk_hash (k : FinalizedBlock) : B256 := finalized_block_hash (fbk_meta k).
Definition account_block (r : Rewards) (k : FinalizedBlock) : res Rewards :=
  on_finalized_metadata r (fbk_meta k) (fbk_fee k) (fbk_time k) (fbk_voters k).

Definition on_day (d : u32) (blocks : list FinalizedBlock) : list FinalizedBlock :=
  filter (fun k => timestamp_to_date_key (fbk_time k) = d) blocks.

(** The blocks of day [d] that [v] voted for. *)
Definition votes (d : u32) (v : Address) (blocks : list FinalizedBlock) : Z := len (filter (fun k => v ∈ fbk_voters k) (on_day d blocks)).

Definition fees_of (blocks : list FinalizedBlock) : Z := lsum (fbk_fee <$> blocks).
Definition ballots (blocks : list FinalizedBlock) : Z := lsum ((fun k => len (fbk_voters k)) <$> blocks).

Definition block_effect (d : u32) (s : list (Address * u64) * U256) (k : FinalizedBlock) : list (Address * u64) * U256 :=
  block_day (fbk_meta k) (fbk_time k) (fbk_fee k) (fbk_voters k) d s.

Lemma bump_all_count l vs v : NoDup vs -> count_of (foldl bump l vs) v = count_of l v + (if decide (v ∈ vs) then 1 else 0).
Proof.
  intros Hnd. revert l. induction Hnd as [|w vs Hw Hnd IH]; intros l; cbn [foldl]; [rewrite decide_False by apply not_elem_of_nil; lia|].
  rewrite IH, bump_count. pose proof (elem_of_cons vs v w) as Hc. repeat case_decide; first [lia|exfalso; naive_solver].
Qed.

Lemma bump_all_sum l vs : lsum (snd <$> foldl bump l vs) = lsum (snd <$> l) + len vs.
Proof. revert l. induction vs as [|v vs IH]; intros l; unfold len in *; cbn [foldl length]; [lia|]. rewrite IH, bump_sum. lia. Qed.

Lemma elem_of_first_occurrences seen vs v : v ∈ first_occurrences seen vs <-> v ∈ vs /\ v ∉ seen.
Proof.
  revert seen. induction vs as [|w vs IH]; intros seen; cbn [first_occurrences]; [set_solver|].
  destruct (decide (v = w)); case_decide; rewrite ?elem_of_cons, ?IH, ?not_elem_of_cons; naive_solver.
Qed.

Lemma NoDup_first_occurrences seen vs : NoDup (first_occurrences seen vs).
Proof.
  revert seen. induction vs as [|w vs IH]; intros seen; cbn [first_occurrences]; [constructor|]. case_decide; [apply IH|].
  constructor; [|apply IH]. rewrite elem_of_first_occurrences, not_elem_of_cons. naive_solver.
Qed.

Lemma length_first_occurrences seen vs : len (first_occurrences seen vs) <= len vs.
Proof.
  unfold len. revert seen. induction vs as [|w vs IH]; intros seen; cbn [first_occurrences length]; [lia|].
  case_decide; cbn [length]; [specialize (IH seen)|specialize (IH (w :: seen))]; lia.
Qed.

Lemma votes_cons d v k ks :
  votes d v (k :: ks) = (if decide (timestamp_to_date_key (fbk_time k) = d /\ v ∈ fbk_voters k) then 1 else 0) + votes d v ks.
Proof.
  unfold votes, on_day, len. rewrite (filter_cons _ k). repeat case_decide; rewrite ?filter_cons; repeat case_decide; cbn [length]; first [lia|exfalso; naive_solver].
Qed.

(** The ledger a run of blocks builds, read off the blocks. *)
Lemma ledger_exact d blocks : forall l f,
  let s := foldl (block_effect d) (l, f) blocks in
  (forall v, count_of (fst s) v = count_of l v + votes d v blocks) /\ snd s = f + fees_of (on_day d blocks) /\
  lsum (snd <$> fst s) <= lsum (snd <$> l) + ballots blocks.
Proof.
  induction blocks as [|k ks IH]; intros l f; cbn [foldl].
  { cbn [fst snd]. unfold votes, fees_of, ballots, on_day, len. cbn [fmap list_fmap filter list_filter length lsum foldr]. split_and!; [intros v; lia|lia..]. }
  unfold block_effect at 2 4 6. unfold block_day. pose proof (length_first_occurrences [] (fbk_voters k)) as Hl.
  change (ballots (k :: ks)) with (len (fbk_voters k) + ballots ks). unfold fees_of, on_day. rewrite filter_cons. cbn [fst snd].
  case_decide as Hd.
  - destruct (IH (foldl bump l (first_occurrences [] (fbk_voters k))) (f + fbk_fee k)) as (I1 & I2 & I3). split_and!.
    + intros v. rewrite I1, votes_cons, bump_all_count by apply NoDup_first_occurrences. pose proof (elem_of_first_occurrences [] (fbk_voters k) v) as He.
      pose proof (not_elem_of_nil v). repeat case_decide; first [lia|exfalso; naive_solver].
    + rewrite I2. unfold fees_of, on_day. cbn [fmap list_fmap]. change (lsum (fbk_fee k :: ?x)) with (fbk_fee k + lsum x). lia.
    + rewrite bump_all_sum in I3. lia.
  - destruct (IH l f) as (I1 & I2 & I3). split_and!; [|exact I2|unfold len in *; lia]. intros v. rewrite I1, votes_cons. rewrite decide_False by naive_solver. lia.
Qed.

Lemma block_effect_bounds d s k : 0 <= fbk_fee k ->
  snd (block_effect d s k) <= snd s + fbk_fee k /\ lsum (snd <$> fst (block_effect d s k)) <= lsum (snd <$> fst s) + len (fbk_voters k).
Proof.
  intros Hf. unfold block_effect, block_day. pose proof (length_first_occurrences [] (fbk_voters k)) as Hl.
  case_decide; cbn [fst snd]; rewrite ?bump_all_sum; unfold len in *; lia.
Qed.

Lemma run_spec blocks : forall r (s : u32 -> list (Address * u64) * U256),
  Forall (fun k => fresh_block r (fbk_hash k) /\ 0 <= fbk_fee k) blocks -> NoDup (fbk_hash <$> blocks) ->
  (forall d, day_rep r d (fst (s d)) (snd (s d))) -> block_guard_ring_seq r + len blocks < 2 ^ 64 ->
  (forall d, snd (s d) + fees_of blocks < 2 ^ 256) -> (forall d, lsum (snd <$> fst (s d)) + ballots blocks < 2 ^ 32) ->
  exists r', foldM account_block r blocks = Ok r' /\ forall d, let s' := foldl (block_effect d) (s d) blocks in day_rep r' d (fst s') (snd s').
Proof.
  induction blocks as [|k ks IH]; intros r s Hfr Hnd Hd Hseq Hfee Hbal; [by exists r|]. apply Forall_cons in Hfr as [[Hk Hf0] Hfr]. apply NoDup_cons in Hnd as [Hh Hnd].
  unfold len in Hseq. cbn [length] in Hseq. change (fees_of (k :: ks)) with (fbk_fee k + fees_of ks) in Hfee. change (ballots (k :: ks)) with (len (fbk_voters k) + ballots ks) in Hbal.
  assert (Hpos : 0 <= fees_of ks /\ 0 <= ballots ks).
  { split; apply lsum_nonneg, Forall_fmap; [eapply Forall_impl; [exact Hfr|]; by intros ? [_ ?]|apply Forall_true]. intros k'. unfold compose, len. lia. }
  destruct (on_finalized_metadata_spec r (fbk_meta k) (fbk_fee k) (fbk_time k) (fbk_voters k) s Hk Hd) as (r1 & E1 & Q1 & D1 & F1);
    [lia|intros d; specialize (Hfee d); lia|intros d; specialize (Hbal d); lia|]. cbn [foldM]. unfold account_block at 1. rewrite E1.
  apply (IH r1 (fun d => block_effect d (s d) k)); [|done|exact D1|unfold len in *; lia|..].
  - apply Forall_forall. intros k' Hk'. rewrite Forall_forall in Hfr. destruct (Hfr k' Hk') as [Hf' ?]. split; [|done]. apply F1; [|done].
    intros E. apply Hh. change (finalized_block_hash (fbk_meta k)) with (fbk_hash k) in E. rewrite <- E. by apply list_elem_of_fmap_2.
  - intros d. pose proof (block_effect_bounds d (s d) k Hf0). specialize (Hfee d). lia.
  - intros d. pose proof (block_effect_bounds d (s d) k Hf0). specialize (Hbal d). lia.
Qed.

Lemma count_of_elem l v c : NoDup (fst <$> l) -> (v, c) ∈ l -> count_of l v = c.
Proof.
  induction l as [|[w k] l IH]; intros Hnd Hin; [by apply not_elem_of_nil in Hin|]. cbn [fmap list_fmap fst] in Hnd. apply NoDup_cons in Hnd as [Hw Hnd]. cbn [count_of].
  apply elem_of_cons in Hin as [[= -> ->]|Hin]; [by rewrite decide_True by done|]. rewrite decide_False; [by apply IH|]. intros ->. apply Hw. by apply (list_elem_of_fmap_2 fst l (v, c)).
Qed.

Lemma read_voters_for_day_rep r d l f : day_rep r d l f -> read_voters_for_day r d = l.
Proof.
  intros [Hnd Hpos Hc Hat Hp _ _]. unfold read_voters_for_day. rewrite Hc. apply list_eq. intros i. rewrite list_lookup_fmap.
  destruct (l !! i) as [[v c]|] eqn:E.
  - rewrite lookup_seqZ_lt by (apply lookup_lt_Some in E; unfold len; lia). cbn [fmap option_fmap option_map]. rewrite Z.add_0_l, (Hat i v) by (by rewrite list_lookup_fmap, E).
    rewrite Hp. do 2 f_equal. apply count_of_elem; [done|]. by eapply list_elem_of_lookup_2.
  - rewrite lookup_seqZ_ge; [done|]. apply lookup_ge_None in E. unfold len. lia.
Qed.

Lemma elem_of_count l v c : NoDup (fst <$> l) -> Forall (fun p => 1 <= snd p) l -> (v, c) ∈ l <-> c = count_of l v /\ 0 < c.
Proof.
  intros Hnd Hpos. split.
  - intros Hin. rewrite (count_of_elem l v c Hnd Hin). split; [done|]. rewrite Forall_forall in Hpos. specialize (Hpos _ Hin). cbn in Hpos. lia.
  - intros [-> Hlt]. destruct (decide (v ∈ fst <$> l)) as [Hv|Hv]; [|apply (count_of_zero l v Hpos) in Hv; lia].
    apply list_elem_of_fmap in Hv as ([v' c] & -> & Hin). cbn [fst]. by rewrite (count_of_elem l v' c Hnd Hin).
Qed.

(** C24. Daily accounting is the true count of the finalized blocks. From a state
    with empty days, accounting any run of fresh, distinct finalized blocks
    succeeds; afterwards, for every day, the enumeration of voters lists exactly
    the addresses that voted for some block of that day, each once and with the
    number of those blocks, repetitions within a block counting once; the stored
    total is the sum of the counts and the stored fee total is the sum of the
    fees of the day's blocks. *)
Theorem daily_ledger_exact r blocks :
  Forall (fun k => fresh_block r (fbk_hash k) /\ 0 <= fbk_fee k) blocks -> NoDup (fbk_hash <$> blocks) ->
  (forall d, day_rep r d [] 0) -> block_guard_ring_seq r + len blocks < 2 ^ 64 -> fees_of blocks < 2 ^ 256 -> ballots blocks < 2 ^ 32 ->
  exists r', foldM account_block r blocks = Ok r' /\ forall d, let l := read_voters_for_day r' d in
    NoDup (fst <$> l) /\ (forall v c, (v, c) ∈ l <-> c = votes d v blocks /\ 0 < c) /\
    rd (daily_total_participation r') d = lsum (snd <$> l) /\ read_daily_fee_sum_raw r' d = fees_of (on_day d blocks).
Proof.
  intros Hfr Hnd Hd Hseq Hfee Hbal. destruct (run_spec blocks r (fun _ => ([], 0)) Hfr Hnd Hd Hseq) as (r' & E & D); [intros d; apply Hfee|intros d; apply Hbal|].
  exists r'. split; [done|]. intros d. pose proof (D d) as Dd. cbv zeta in Dd. destruct (ledger_exact d blocks [] 0) as (L1 & L2 & _).
  rewrite (read_voters_for_day_rep r' d _ _ Dd). destruct Dd as [N P _ _ _ T F]. split_and!; [done| |done|].
  - intros v c. rewrite (elem_of_count _ v c N P), L1. done.
  - unfold read_daily_fee_sum_raw. rewrite F, L2. lia.
Qed.

(** ** The fingerprint guard *)

Section FingerprintProofs.
Context `{KeccakLaws}.

Definition counted_addr_list (l : list Address) : list Z := be_bytes 8 (len l) ++ address_bytes l.

(** The bytes that are hashed. *)
Definition preimage (m : CertifiedParentAccountingMetadata) (fee : U256) (vrf : B256) : list Z :=
  FINGERPRINT_DOMAIN ++ be_bytes 32 (finalized_block_hash m) ++ be_bytes 8 (finalized_block_number m) ++ be_bytes 8 (finalized_epoch m) ++
  be_bytes 8 (finalized_view m) ++ counted_addr_list (ordered_committee m) ++ be_bytes 32 (canonical_signer_set_hash (signer_bitmap m)) ++
  be_bytes 32 (committee_set_hash m) ++ be_bytes 8 (vrf_material_version m) ++ be_bytes 32 (vrf_group_public_key_hash m) ++ be_bytes 32 vrf ++
  [tag (proof_kind m)] ++ counted_addr_list (validator <$> missed_proposers m) ++ be_bytes 32 fee.

(** What the fingerprint commits to: not the parent view, the proof bytes or the
    views of the missed proposers. *)
Definition committed (m : CertifiedParentAccountingMetadata) (fee : U256) (vrf : B256) :=
  (finalized_block_hash m, finalized_block_number m, finalized_epoch m, finalized_view m, ordered_committee m,
   be_bytes 32 (canonical_signer_set_hash (signer_bitmap m)), committee_set_hash m, vrf_material_version m, vrf_group_public_key_hash m,
   vrf, proof_kind m, validator <$> missed_proposers m, fee).

Lemma compute_metadata_fingerprint_preimage m fee vrf : metadata_ok m -> compute_metadata_fingerprint m fee vrf = keccak256 (preimage m fee vrf).
Proof.
  intros [_ _ _ _ _ [_ H1] _ _ _ _ _ [_ H2]]. unfold compute_metadata_fingerprint, write_addr_list, preimage, counted_addr_list, address_bytes. f_equal.
  rewrite !foldl_bytes, !Z.mod_small by (unfold len in *; lia). rewrite <- !app_assoc. unfold len. rewrite length_fmap, <- list_fmap_compose. done.
Qed.

Lemma bytes_addresses l : bytes (counted_addr_list l).
Proof.
  apply Forall_app. split; [apply bytes_be|]. unfold address_bytes. induction l as [|x l IH]; cbn [fmap list_fmap concat]; [constructor|].
  apply Forall_app. split; [apply bytes_be|exact IH].
Qed.

Lemma bytes_preimage m fee vrf : bytes (preimage m fee vrf).
Proof.
  unfold preimage. apply bytes_app; [apply (bool_decide_unpack _); vm_compute; exact I|].
  do 4 (apply bytes_app; [apply bytes_be|]). apply bytes_app; [apply bytes_addresses|]. do 5 (apply bytes_app; [apply bytes_be|]).
  apply bytes_app; [apply Forall_singleton; destruct (proof_kind m); cbn; lia|]. apply bytes_app; [apply bytes_addresses|apply bytes_be].
Qed.

Lemma address_bytes_inj l1 l2 : Forall (fits 160) l1 -> Forall (fits 160) l2 -> length l1 = length l2 -> address_bytes l1 = address_bytes l2 -> l1 = l2.
Proof.
  intros F1 F2 Hl E. rewrite <- (chunks_address_bytes l1 (length l1) F1), <- (chunks_address_bytes l2 (length l1) F2) by lia. by rewrite E.
Qed.

(** A counted address list is self-delimiting. *)
Lemma counted_addr_list_inj l1 l2 k1 k2 :
  Forall (fits 160) l1 -> Forall (fits 160) l2 -> len l1 < 2 ^ 16 -> len l2 < 2 ^ 16 ->
  counted_addr_list l1 ++ k1 = counted_addr_list l2 ++ k2 -> l1 = l2 /\ k1 = k2.
Proof.
  intros F1 F2 H1 H2 E. unfold counted_addr_list in E. rewrite <- !app_assoc in E. apply app_inj_1 in E as [En E]; [|by rewrite !length_be_bytes].
  apply be_bytes_inj in En; [|change (256 ^ Z.of_nat 8) with (2 ^ 64); unfold len in *; lia..]. unfold len in En.
  apply app_inj_1 in E as [Ea Ek]; [|rewrite !length_address_bytes; lia]. split; [|done]. apply address_bytes_inj; [done|done|lia|done].
Qed.

Lemma missed_validators_ok m : metadata_ok m -> Forall (fits 160) (validator <$> missed_proposers m) /\ len (validator <$> missed_proposers m) < 2 ^ 16.
Proof.
  intros Hm. destruct (ok_missed m Hm) as [Hf Hl]. unfold len in *. rewrite length_fmap. split; [|done]. apply Forall_fmap. eapply Forall_impl; [exact Hf|]. by intros ? [_ ?].
Qed.

Lemma tag_inj k1 k2 : tag k1 = tag k2 -> k1 = k2.
Proof. destruct k1, k2; cbn; congruence. Qed.

Lemma fits32 x : fits 256 x -> 0 <= x < 256 ^ Z.of_nat 32.
Proof. unfold fits. change (256 ^ Z.of_nat 32) with (2 ^ 256). done. Qed.

Lemma fits8 x : fits 64 x -> 0 <= x < 256 ^ Z.of_nat 8.
Proof. unfold fits. change (256 ^ Z.of_nat 8) with (2 ^ 64). done. Qed.

Lemma committed_preimage m1 m2 fee1 fee2 vrf1 vrf2 :
  committed m2 fee2 vrf2 = committed m1 fee1 vrf1 -> preimage m2 fee2 vrf2 = preimage m1 fee1 vrf1.
Proof.
  unfold committed. intros E. repeat (let e := fresh "e" in apply pair_equal_spec in E as [E e]; rewrite ?e in *). unfold preimage. congruence.
Qed.

Lemma preimage_inj m1 m2 fee1 fee2 vrf1 vrf2 :
  metadata_ok m1 -> metadata_ok m2 -> fits 256 fee1 -> fits 256 fee2 -> fits 256 vrf1 -> fits 256 vrf2 ->
  preimage m1 fee1 vrf1 = preimage m2 fee2 vrf2 -> committed m1 fee1 vrf1 = committed m2 fee2 vrf2.
Proof.
  intros M1 M2 F1 F2 V1 V2 E. unfold preimage in E. apply app_inv_head in E.
  do 4 (let e := fresh "e" in apply app_inj_1 in E as [e E]; [|by rewrite !length_be_bytes]).
  apply counted_addr_list_inj in E as [e3 E]; [|apply (ok_committee m1 M1)|apply (ok_committee m2 M2)|apply (ok_committee m1 M1)|apply (ok_committee m2 M2)].
  do 5 (let e := fresh "e" in apply app_inj_1 in E as [e E]; [|by rewrite !length_be_bytes]). apply app_inj_1 in E as [e9 E]; [|done].
  apply counted_addr_list_inj in E as [e10 E]; [|by apply missed_validators_ok..].
  destruct M1, M2. apply be_bytes_inj in e, e0, e1, e2, e5, e6, e7, e8, E; try (by apply fits32); try (by apply fits8).
  injection e9 as e9. apply tag_inj in e9. unfold committed. congruence.
Qed.

(** The fingerprint guard accepts one account of a finalized block. The first
    metadata for a block is recorded as fresh; any later metadata for the same
    block is an identical replay, leaving the state alone, exactly when it agrees
    with the first on every committed field, and otherwise reverts as
    contradictory; the guards of other blocks do not change. *)
Theorem fingerprint_guard_exact r m1 m2 fee1 fee2 vrf1 vrf2 :
  metadata_ok m1 -> metadata_ok m2 -> fits 256 fee1 -> fits 256 fee2 -> fits 256 vrf1 -> fits 256 vrf2 ->
  finalized_block_hash m2 = finalized_block_hash m1 -> rd (metadata_fingerprint_for_block r) (finalized_block_hash m1) = 0 ->
  exists r1, check_and_record_metadata_fingerprint r m1 fee1 vrf1 = Ok (r1, Fresh) /\
    (forall h, h <> finalized_block_hash m1 -> rd (metadata_fingerprint_for_block r1) h = rd (metadata_fingerprint_for_block r) h) /\
    (committed m2 fee2 vrf2 = committed m1 fee1 vrf1 -> check_and_record_metadata_fingerprint r1 m2 fee2 vrf2 = Ok (r1, IdenticalReplay)) /\
    (committed m2 fee2 vrf2 <> committed m1 fee1 vrf1 ->
     check_and_record_metadata_fingerprint r1 m2 fee2 vrf2 = Err (Revert "contradictory consensus metadata")).
Proof.
  intros M1 M2 F1 F2 V1 V2 Eh Hz. unfold check_and_record_metadata_fingerprint. rewrite Hz, Z.eqb_refl, Eh. eexists. split; [reflexivity|].
  change (metadata_fingerprint_for_block (wr_metadata_fingerprint ?r ?h ?v)) with (<[h := v]> (metadata_fingerprint_for_block r)). rewrite rd_insert_eq.
  rewrite (compute_metadata_fingerprint_preimage m1) by done. rewrite (compute_metadata_fingerprint_preimage m2) by done.
  rewrite (proj2 (Z.eqb_neq _ 0)) by apply keccak_nonzero, bytes_preimage. split_and!.
  - intros h Hne. by rewrite rd_insert_ne.
  - intros E. rewrite (committed_preimage m1 m2 fee1 fee2 vrf1 vrf2) by done. by rewrite Z.eqb_refl.
  - intros Hne. destruct (_ =? _) eqn:E; [|done]. bools. destruct Hne. apply keccak_inj in E; [|apply bytes_preimage..]. symmetry. by apply preimage_inj.
Qed.
End FingerprintProofs.

Lemma fingerprint_guard_exact_witness : exists r1,
  @check_and_record_metadata_fingerprint sample_crypto no_rewards sample_metadata 500 9 = Ok (r1, Fresh) /\
  @check_and_record_metadata_fingerprint sample_crypto r1 sample_metadata 501 9 = Err (Revert "contradictory consensus metadata").
Proof.
  destruct (@fingerprint_guard_exact sample_crypto sample_keccak no_rewards sample_metadata sample_metadata 500 501 9 9) as (r1 & E1 & _ & _ & E2).
  1,2: exact sample_metadata_ok.
  1-4: split; [discriminate|reflexivity].
  1,2: reflexivity.
  exists r1. split; [exact E1|]. apply E2. intros E. apply (f_equal snd) in E. discriminate E.
Defined.

(** ** The daily top-up *)

Section TopupProofs.
Context {St : Type}.
Variable mint_gem : St -> Address -> GemTypes -> U256 -> res St.

(** The gems of a top-up: pro rata by participation, rounded down, empty shares left out. *)
Definition shares (topup total : Z) (voters : list (Address * u64)) : list (Address * U256) :=
  filter (fun p => 0 < snd p) ((fun v => (fst v, topup * snd v / total)) <$> voters).

Definition mint_all (g : GemTypes) (st : St) (l : list (Address * U256)) : res St :=
  foldM (fun st p => mint_gem st (fst p) g (snd p)) st l.

Lemma wadd_counts voters : forall acc, 0 <= acc -> Forall (fun v => 0 <= snd v) voters -> acc + lsum (snd <$> voters) < 2 ^ 64 ->
  foldl (fun acc (v : Address * u64) => wadd 64 acc (snd v)) acc voters = acc + lsum (snd <$> voters).
Proof.
  induction voters as [|[v c] voters IH]; intros acc Hacc Hpos Hl; [cbn; lia|]. apply Forall_cons in Hpos as [Hc Hpos]. cbn [foldl snd fmap list_fmap] in *.
  change (lsum (c :: (snd <$> voters))) with (c + lsum (snd <$> voters)) in *. pose proof (lsum_nonneg (snd <$> voters) ltac:(by apply Forall_fmap)) as Hn.
  rewrite (wadd_small 64) by lia. rewrite IH by (lia || done). lia.
Qed.

Lemma shares_cons topup total v c voters :
  shares topup total ((v, c) :: voters) = (if decide (0 < topup * c / total) then [(v, topup * c / total)] else []) ++ shares topup total voters.
Proof. unfold shares. cbn [fmap list_fmap fst snd]. rewrite filter_cons. cbn [snd]; repeat case_decide; done. Qed.

(** Rounding loses less than one unit per voter. *)
Lemma shares_sum topup total voters : 0 <= topup -> 0 < total -> Forall (fun v => 0 <= snd v) voters ->
  let d := lsum (snd <$> shares topup total voters) in
  0 <= d /\ total * d <= topup * lsum (snd <$> voters) <= total * d + len voters * (total - 1).
Proof.
  intros Ht Htot Hpos. cbv zeta. induction Hpos as [|[v c] voters Hc Hpos IH]; [unfold len; cbn; lia|]. cbn [snd] in Hc. rewrite shares_cons, fmap_app, lsum_app.
  cbn [fmap list_fmap snd]. change (lsum (c :: (snd <$> voters))) with (c + lsum (snd <$> voters)). unfold len in *. cbn [length].
  pose proof (Z.div_mod (topup * c) total ltac:(lia)). pose proof (Z.mod_pos_bound (topup * c) total Htot). pose proof (Z.div_pos (topup * c) total ltac:(nia) Htot) as Hq.
  set (q := topup * c / total) in *. assert (Eq : lsum (snd <$> (if decide (0 < q) then [(v, q)] else [])) = q) by (case_decide; cbn; lia). rewrite Eq. nia.
Qed.

Lemma topup_loop g topup total voters : forall st d,
  0 <= topup -> 0 < total -> Forall (fun v => 0 <= snd v /\ topup * snd v < 2 ^ 256) voters -> 0 <= d -> d + lsum (snd <$> shares topup total voters) < 2 ^ 256 ->
  foldM (topup_voter mint_gem g topup total) (st, d) voters =
    (let? st' := mint_all g st (shares topup total voters) in Ok (st', d + lsum (snd <$> shares topup total voters))).
Proof.
  induction voters as [|[v c] voters IH]; intros st d Ht Htot Hpos Hd Hfit; [cbn; by rewrite Z.add_0_r|].
  apply Forall_cons in Hpos as [[Hc Hov] Hpos]. cbn [snd] in Hc, Hov. rewrite shares_cons in *. rewrite fmap_app, lsum_app in *. cbn [foldM]. unfold topup_voter at 1.
  assert (Hq : 0 <= topup * c / total) by (apply Z.div_pos; nia). assert (Hn : 0 <= lsum (snd <$> shares topup total voters)).
  { apply (shares_sum topup total voters Ht Htot). eapply Forall_impl; [exact Hpos|]. by intros ? [? _]. }
  destruct (c =? 0) eqn:Ec; bools; [subst c; rewrite Z.mul_0_r in *; by apply IH|]. unfold checked_mul. rewrite (proj2 (Z.ltb_lt _ _)) by done. cbn [ok_or].
  destruct (topup * c / total =? 0) eqn:Eq; bools; [rewrite Eq in *; by apply IH|]. rewrite decide_True in Hfit |- * by lia. cbn [fmap list_fmap snd app] in *.
  change (lsum [?x]) with (x + 0) in *. unfold mint_all. cbn [foldM fst snd]. destruct (mint_gem st v g (topup * c / total)) as [st1|]; [|done].
  unfold checked_add. rewrite (proj2 (Z.ltb_lt _ _)) by lia. cbn [ok_or]. rewrite IH by (lia || done). unfold mint_all. destruct (foldM _ st1 _); [|done]. do 2 f_equal. lia.
Qed.

(** The top-up of a day that has not had one. *)
Lemma topup_spec r st day topup voters n :
  rd (daily_topup_settled r) day = false -> day_number_since_genesis r day = Ok n -> 0 < topup ->
  let total := lsum (snd <$> voters) in
  Forall (fun v => 0 <= snd v) voters -> 0 < total < 2 ^ 64 -> topup * total < 2 ^ 256 ->
  let l := shares topup total voters in
  let distributed := lsum (snd <$> l) in
  exists r', add_topup_for_voters mint_gem r st day topup voters = (let? st' := mint_all (if n <? 21 then Genesis else Validator) st l in Ok (r', st', distributed)) /\
    distributed <= topup < distributed + len voters /\
    (forall d, rd (daily_topup_settled r') d = if decide (d = day) then true else rd (daily_topup_settled r) d) /\
    (forall st2 topup2 voters2, add_topup_for_voters mint_gem r' st2 day topup2 voters2 = Ok (r', st2, 0)).
Proof.
  intros Hset Hday Ht total Hpos Htot Hfit l distributed. unfold add_topup_for_voters. rewrite Hset, Hday. destruct (shares_sum topup total voters ltac:(lia) ltac:(lia) Hpos) as [Hd Hs].
  fold l in Hd, Hs. fold distributed in Hd, Hs. fold total in Hs. rewrite (proj2 (Z.eqb_neq topup 0)) by lia. destruct (bool_decide (voters = [])) eqn:Ev.
  { apply bool_decide_eq_true_1 in Ev. subst voters. cbn in total. lia. }
  assert (Hlen : 0 < len voters) by (destruct voters; [done|unfold len; cbn [length]; lia]).
  cbn [orb]. rewrite (wadd_counts voters 0) by (done || (fold total; lia)). rewrite Z.add_0_l. fold total. rewrite (proj2 (Z.eqb_neq total 0)) by lia.
  pose proof (topup_loop (if n <? 21 then Genesis else Validator) topup total voters st 0) as E. fold l distributed in E. rewrite E; [| lia|lia| |lia|nia]; clear E.
  2: { apply Forall_forall. intros v Hv. rewrite Forall_forall in Hpos. split; [by apply Hpos|]. assert (Hle : snd v <= total); [|nia].
    unfold total. clear -Hv Hpos. induction voters as [|w voters IH]; [by apply not_elem_of_nil in Hv|]. cbn [fmap list_fmap]. change (lsum (?x :: ?y)) with (x + lsum y).
    assert (Hn : 0 <= lsum (snd <$> voters)) by (apply lsum_nonneg, Forall_fmap, Forall_forall; intros u Hu; apply Hpos; by right).
    apply elem_of_cons in Hv as [->|Hv]; [lia|]. specialize (IH (fun u Hu => Hpos u ltac:(by right)) Hv). pose proof (Hpos w ltac:(by left)). lia. }
  exists (wr_daily_topup_settled r day true). rewrite Z.add_0_l. unfold wr_daily_topup_settled. cbn [daily_topup_settled].
  split_and!; [by destruct (mint_all _ _ _)|nia|apply (Z.mul_lt_mono_pos_l total); lia| |].
  - intros d. rewrite rd_insert. repeat case_decide; congruence.
  - intros st2 t2 vs2. by rewrite rd_insert_eq.
Qed.

(** The daily top-up is pro rata and paid once. When a day's voters have a
    positive participation total, the top-up mints, or fails as the mint does, to each
    voter, in enumeration order, [topup * count / total] gems of the day's type
    (genesis gems for the first 21 days, validator gems after), skipping empty
    shares; the reported amount is their sum, never above the top-up and below it
    by less than one unit per voter; the day is marked, and a second top-up of the
    day mints nothing. *)
Theorem topup_exact r st day topup voters n :
  rd (daily_topup_settled r) day = false -> day_number_since_genesis r day = Ok n -> 0 < topup ->
  let total := lsum (snd <$> voters) in
  Forall (fun v => 0 <= snd v) voters -> 0 < total < 2 ^ 64 -> topup * total < 2 ^ 256 ->
  let l := shares topup total voters in
  let distributed := lsum (snd <$> l) in
  exists r', add_topup_for_voters mint_gem r st day topup voters = (let? st' := mint_all (if n <? 21 then Genesis else Validator) st l in Ok (r', st', distributed)) /\
    distributed <= topup < distributed + len voters /\
    (forall d, rd (daily_topup_settled r') d = if decide (d = day) then true else rd (daily_topup_settled r) d) /\
    (forall st2 topup2 voters2, add_topup_for_voters mint_gem r' st2 day topup2 voters2 = Ok (r', st2, 0)).
Proof. exact (topup_spec r st day topup voters n). Qed.
End TopupProofs.

Definition sample_mint (st : list (Address * U256)) (v : Address) (g : GemTypes) (x : U256) : res (list (Address * U256)) := Ok (st ++ [(v, x)]).

Lemma topup_exact_witness : exists r st,
  add_topup_for_voters sample_mint (set_genesis_utc_day no_rewards 20240101) [] 20240103 100 [(5, 1); (6, 2)] = Ok (r, st, 99) /\ st = [(5, 33); (6, 66)].
Proof.
  destruct (topup_exact sample_mint (set_genesis_utc_day no_rewards 20240101) [] 20240103 100 [(5, 1); (6, 2)] 2) as (r & E & _).
  - reflexivity.
  - reflexivity.
  - reflexivity.
  - repeat constructor; discriminate.
  - split; reflexivity.
  - reflexivity.
  - exists r. eexists. split; [exact E|reflexivity].
Defined.

Definition sample_block (h : B256) (fee : U256) (ts : u64) (voters : list Address) : FinalizedBlock :=
  mkFinalized (mkMetadata h h 1 h h [5; 6; 7] [1; 1; 1] [] 8 2 9 CertifiedNotarization []) fee ts voters.
Definition sample_run : list FinalizedBlock :=
  [sample_block 31 100 1704067200 [5; 6; 5]; sample_block 32 7 1704067260 [6; 7]; sample_block 33 50 1704153600 [5]].

Lemma no_rewards_fresh h : fresh_block no_rewards h.
Proof. split; [apply no_rewards_window|done|done|done]. Qed.

Lemma no_rewards_day d : day_rep no_rewards d [] 0.
Proof. split; try done. constructor. Qed.

Lemma daily_ledger_exact_witness : exists r', foldM account_block no_rewards sample_run = Ok r' /\
  (6, 2) ∈ read_voters_for_day r' 20240101 /\ read_daily_fee_sum_raw r' 20240101 = 107.
Proof.
  destruct (daily_ledger_exact no_rewards sample_run) as (r' & E & D).
  - apply Forall_forall. intros k Hk. split; [apply no_rewards_fresh|]. revert k Hk. apply Forall_forall. repeat constructor; discriminate.
  - apply (bool_decide_unpack _). vm_compute. exact I.
  - apply no_rewards_day.
  - reflexivity.
  - reflexivity.
  - reflexivity.
  - exists r'. split; [exact E|]. destruct (D 20240101) as (_ & V & _ & F). split; [apply V; split; reflexivity|rewrite F; reflexivity].
Defined.
