(* ===== verification/Snapshots.v ===== *)
(** * The committee-snapshot store

    [crates/system/validatorset/src/state.rs] over the schema slots 31..40, 44 and
    47, and the hashes of [crates/blockchain/consensus/src/proof/committee.rs].
    Historical committees are kept field by field under a key derived from the
    epoch and the committee hash; a ring of eight keys, indexed by the epoch,
    evicts old committees. Nested mappings are maps keyed by pairs. *)

From S2P Require Import Prelude.

(** ** [proof/committee.rs] *)

Record CommitteeEntry := mkEntry { ce_address : Address; ce_consensus_pubkey : list Z }.

Record CommitteeSnapshot := mkSnapshot {
  cs_committee : list CommitteeEntry;
  cs_vrf_material_version : u64;
  cs_vrf_group_public_key_bytes : list Z;
  cs_vrf_public_polynomial_hash : B256
}.

(** The ASCII bytes of ["OUTBE_COMMITTEE_SNAPSHOT_V2"]. *)
Definition OUTBE_COMMITTEE_SET_HASH_V2_DOMAIN : list Z :=
  [79; 85; 84; 66; 69; 95; 67; 79; 77; 77; 73; 84; 84; 69; 69; 95; 83; 78; 65; 80; 83; 72; 79; 84; 95; 86; 50].
(** The ASCII bytes of ["OUTBE_COMMITTEE_SNAPSHOT_KEY_V2"]. *)
Definition OUTBE_COMMITTEE_SNAPSHOT_KEY_V2_DOMAIN : list Z :=
  [79; 85; 84; 66; 69; 95; 67; 79; 77; 77; 73; 84; 84; 69; 69; 95; 83; 78; 65; 80; 83; 72; 79; 84; 95; 75; 69; 89; 95; 86; 50].

Inductive SnapshotBuildError : Type :=
| CountMismatch (addresses pubkeys : Z)
| PubkeyLength (index got : Z).

(** The entry loop, from [index] on. *)
Fixpoint build_entries (index : Z) (l : list (Address * list Z)) : result SnapshotBuildError (list CommitteeEntry) :=
  match l with
  | [] => Ok []
  | (address, bytes) :: l =>
      if len bytes =? 48 then
        let? rest := build_entries (index + 1) l in
        Ok (mkEntry address bytes :: rest)
      else Err (PubkeyLength index (len bytes))
  end.

Definition build_committee_snapshot (addresses : list Address) (encoded_pubkeys : list (list Z)) (vrf_material_version : u64)
    (vrf_group_public_key_bytes : list Z) (vrf_public_polynomial_hash : B256) : result SnapshotBuildError CommitteeSnapshot :=
  if negb (len addresses =? len encoded_pubkeys) then Err (CountMismatch (len addresses) (len encoded_pubkeys)) else
  let? committee := build_entries 0 (zip addresses encoded_pubkeys) in
  Ok (mkSnapshot committee vrf_material_version vrf_group_public_key_bytes vrf_public_polynomial_hash).

Section Hashes.
Context `{Crypto}.

Definition committee_set_hash_v2 (epoch : u64) (snapshot : CommitteeSnapshot) : B256 :=
  let buf := OUTBE_COMMITTEE_SET_HASH_V2_DOMAIN in
  let buf := buf ++ be_bytes 8 epoch in
  let buf := buf ++ be_bytes 8 (len (cs_committee snapshot) mod 2 ^ 64) in
  let buf := foldl (fun buf e => (buf ++ be_bytes 20 (ce_address e)) ++ ce_consensus_pubkey e) buf (cs_committee snapshot) in
  let buf := buf ++ be_bytes 8 (cs_vrf_material_version snapshot) in
  let buf := buf ++ be_bytes 8 (len (cs_vrf_group_public_key_bytes snapshot) mod 2 ^ 64) in
  let buf := buf ++ cs_vrf_group_public_key_bytes snapshot in
  keccak256 buf.

Definition committee_snapshot_key (epoch : u64) (committee_set_hash : B256) : B256 :=
  keccak256 ((OUTBE_COMMITTEE_SNAPSHOT_KEY_V2_DOMAIN ++ be_bytes 8 epoch) ++ be_bytes 32 committee_set_hash).

Definition snapshot_identity (epoch : u64) (snapshot : CommitteeSnapshot) : B256 * B256 :=
  let hash := committee_set_hash_v2 epoch snapshot in
  let key := committee_snapshot_key epoch hash in
  (hash, key).
End Hashes.

(** ** The slots *)

Record SnapshotStore := mkStore {
  committee_snapshot_exists : gmap B256 bool;
  committee_snapshot_len : gmap B256 u64;
  committee_snapshot_address_at : gmap (B256 * u64) Address;
  committee_snapshot_pubkey_lo_at : gmap (B256 * u64) bytes32;
  committee_snapshot_pubkey_hi_at : gmap (B256 * u64) bytes32;
  committee_snapshot_vrf_material_version : gmap B256 u64;
  committee_snapshot_vrf_group_public_key_hash : gmap B256 B256;
  committee_snapshot_vrf_group_public_key_len : gmap B256 u64;
  committee_snapshot_vrf_group_public_key_chunk_at : gmap (B256 * u64) bytes32;
  committee_snapshot_vrf_public_polynomial_hash : gmap B256 B256;
  committee_snapshot_key_ring : gmap u64 B256
}.

Definition wr_snapshot_exists (s : SnapshotStore) (k : B256) (v : bool) : SnapshotStore :=
  {| s with committee_snapshot_exists := <[k := v]> (committee_snapshot_exists s) |}.
Definition wr_snapshot_len (s : SnapshotStore) (k : B256) (v : u64) : SnapshotStore :=
  {| s with committee_snapshot_len := <[k := v]> (committee_snapshot_len s) |}.
Definition wr_snapshot_address_at (s : SnapshotStore) (k : B256) (i : u64) (v : Address) : SnapshotStore :=
  {| s with committee_snapshot_address_at := <[(k, i) := v]> (committee_snapshot_address_at s) |}.
Definition wr_snapshot_pubkey_lo_at (s : SnapshotStore) (k : B256) (i : u64) (v : bytes32) : SnapshotStore :=
  {| s with committee_snapshot_pubkey_lo_at := <[(k, i) := v]> (committee_snapshot_pubkey_lo_at s) |}.
Definition wr_snapshot_pubkey_hi_at (s : SnapshotStore) (k : B256) (i : u64) (v : bytes32) : SnapshotStore :=
  {| s with committee_snapshot_pubkey_hi_at := <[(k, i) := v]> (committee_snapshot_pubkey_hi_at s) |}.
Definition wr_snapshot_vrf_version (s : SnapshotStore) (k : B256) (v : u64) : SnapshotStore :=
  {| s with committee_snapshot_vrf_material_version := <[k := v]> (committee_snapshot_vrf_material_version s) |}.
Definition wr_snapshot_vrf_hash (s : SnapshotStore) (k v : B256) : SnapshotStore :=
  {| s with committee_snapshot_vrf_group_public_key_hash := <[k := v]> (committee_snapshot_vrf_group_public_key_hash s) |}.
Definition wr_snapshot_vrf_len (s : SnapshotStore) (k : B256) (v : u64) : SnapshotStore :=
  {| s with committee_snapshot_vrf_group_public_key_len := <[k := v]> (committee_snapshot_vrf_group_public_key_len s) |}.
Definition wr_snapshot_vrf_chunk_at (s : SnapshotStore) (k : B256) (i : u64) (v : bytes32) : SnapshotStore :=
  {| s with committee_snapshot_vrf_group_public_key_chunk_at := <[(k, i) := v]> (committee_snapshot_vrf_group_public_key_chunk_at s) |}.
Definition wr_snapshot_poly_hash (s : SnapshotStore) (k v : B256) : SnapshotStore :=
  {| s with committee_snapshot_vrf_public_polynomial_hash := <[k := v]> (committee_snapshot_vrf_public_polynomial_hash s) |}.
Definition wr_snapshot_key_ring (s : SnapshotStore) (i : u64) (v : B256) : SnapshotStore :=
  {| s with committee_snapshot_key_ring := <[i := v]> (committee_snapshot_key_ring s) |}.

(** ** [state.rs] *)

Inductive ActivationError : Type := VrfVersionOverflow.

Definition next_vrf_material_version (previous : u64) : result ActivationError u64 :=
  ok_or (checked_add 64 previous 1) VrfVersionOverflow.

Definition split_pubkey (pubkey : list Z) : bytes32 * bytes32 :=
  (B32 (take 32 pubkey), B32 (take 16 (drop 32 pubkey) ++ replicate 16 0)).

Definition join_pubkey (lo hi : bytes32) : list Z := b32 lo ++ take 16 (b32 hi).

Definition COMMITTEE_SNAPSHOT_RETAIN_EPOCHS : u64 := 8.

Definition div_ceil (x y : Z) : Z := (x + y - 1) / y.

Definition clear_entry (key : B256) (s : SnapshotStore) (i : u64) : SnapshotStore :=
  let s := wr_snapshot_address_at s key i 0 in
  let s := wr_snapshot_pubkey_lo_at s key i zeroed in
  wr_snapshot_pubkey_hi_at s key i zeroed.

Definition clear_committee_snapshot (s : SnapshotStore) (key : B256) : SnapshotStore :=
  if negb (rd (committee_snapshot_exists s) key) then s else
  let s := wr_snapshot_exists s key false in
  let committee_len := rd (committee_snapshot_len s) key in
  let s := foldl (clear_entry key) s (seqZ 0 committee_len) in
  let s := wr_snapshot_len s key 0 in
  let vrf_pk_len := rd (committee_snapshot_vrf_group_public_key_len s) key in
  let num_chunks := if vrf_pk_len >? 0 then div_ceil vrf_pk_len 32 else 0 in
  let s := foldl (fun s i => wr_snapshot_vrf_chunk_at s key i zeroed) s (seqZ 0 num_chunks) in
  let s := wr_snapshot_vrf_version s key 0 in
  let s := wr_snapshot_vrf_hash s key 0 in
  let s := wr_snapshot_vrf_len s key 0 in
  wr_snapshot_poly_hash s key 0.

(** [slice::chunks(32)]; the fuel is the length of the list. *)
Fixpoint chunks (fuel : nat) (l : list Z) : list (list Z) :=
  match fuel, l with
  | S fuel, _ :: _ => take 32 l :: chunks fuel (drop 32 l)
  | _, _ => []
  end.

Definition pad32 (chunk : list Z) : bytes32 := B32 (chunk ++ replicate (32 - length chunk) 0).

(** The body of the committee loop. *)
Definition write_entry (key : B256) (s : SnapshotStore) (p : u64 * CommitteeEntry) : SnapshotStore :=
  let '(idx, entry) := p in
  let s := wr_snapshot_address_at s key idx (ce_address entry) in
  let '(lo, hi) := split_pubkey (ce_consensus_pubkey entry) in
  let s := wr_snapshot_pubkey_lo_at s key idx lo in
  wr_snapshot_pubkey_hi_at s key idx hi.

Definition write_chunk (key : B256) (s : SnapshotStore) (p : u64 * list Z) : SnapshotStore :=
  let '(idx, chunk) := p in wr_snapshot_vrf_chunk_at s key idx (pad32 chunk).

Definition enumerate {A} (l : list A) : list (u64 * A) := zip (seqZ 0 (len l)) l.

Section Store.
Context `{Crypto}.

Definition write_committee_snapshot (s : SnapshotStore) (epoch : u64) (snapshot : CommitteeSnapshot) : SnapshotStore * (B256 * B256) :=
  let hash := committee_set_hash_v2 epoch snapshot in
  let key := committee_snapshot_key epoch hash in
  let committee_len := len (cs_committee snapshot) in
  let vrf_pk_len := len (cs_vrf_group_public_key_bytes snapshot) in
  let vrf_pk_hash := keccak256 (cs_vrf_group_public_key_bytes snapshot) in
  let s := wr_snapshot_len s key committee_len in
  let s := foldl (write_entry key) s (enumerate (cs_committee snapshot)) in
  let s := wr_snapshot_vrf_version s key (cs_vrf_material_version snapshot) in
  let s := wr_snapshot_vrf_hash s key vrf_pk_hash in
  let s := wr_snapshot_vrf_len s key vrf_pk_len in
  let s := wr_snapshot_poly_hash s key (cs_vrf_public_polynomial_hash snapshot) in
  let bytes := cs_vrf_group_public_key_bytes snapshot in
  let s := foldl (write_chunk key) s (enumerate (chunks (length bytes) bytes)) in
  let s := wr_snapshot_exists s key true in
  let ring_idx := epoch mod COMMITTEE_SNAPSHOT_RETAIN_EPOCHS in
  let evicted := rd (committee_snapshot_key_ring s) ring_idx in
  let s := if negb (evicted =? 0) && negb (evicted =? key) then clear_committee_snapshot s evicted else s in
  let s := wr_snapshot_key_ring s ring_idx key in
  (s, (hash, key)).
End Store.

(** The bytes read back from chunk [i] of [num_chunks]. *)
Definition read_chunk (s : SnapshotStore) (key : B256) (num_chunks last_chunk_take i : Z) : list Z :=
  let chunk := rd (committee_snapshot_vrf_group_public_key_chunk_at s) (key, i) in
  let take_len := if i + 1 =? num_chunks then last_chunk_take else 32 in
  take (Z.to_nat take_len) (b32 chunk).

Definition read_entry (s : SnapshotStore) (key : B256) (i : u64) : CommitteeEntry :=
  mkEntry (rd (committee_snapshot_address_at s) (key, i))
    (join_pubkey (rd (committee_snapshot_pubkey_lo_at s) (key, i)) (rd (committee_snapshot_pubkey_hi_at s) (key, i))).

Definition read_committee_snapshot (s : SnapshotStore) (key : B256) : option CommitteeSnapshot :=
  if negb (rd (committee_snapshot_exists s) key) then None else
  let committee := read_entry s key <$> seqZ 0 (rd (committee_snapshot_len s) key) in
  let vrf_pk_len := rd (committee_snapshot_vrf_group_public_key_len s) key in
  let bytes :=
    if vrf_pk_len >? 0 then
      let num_chunks := div_ceil vrf_pk_len 32 in
      let last_chunk_take := vrf_pk_len mod 32 in
      let last_chunk_take := if last_chunk_take =? 0 then 32 else last_chunk_take in
      concat (read_chunk s key num_chunks last_chunk_take <$> seqZ 0 num_chunks)
    else [] in
  Some (mkSnapshot committee (rd (committee_snapshot_vrf_material_version s) key) bytes
    (rd (committee_snapshot_vrf_public_polynomial_hash s) key)).

Definition read_committee_snapshot_for_epoch (s : SnapshotStore) (epoch : u64) : option CommitteeSnapshot :=
  let ring_idx := epoch mod COMMITTEE_SNAPSHOT_RETAIN_EPOCHS in
  let key := rd (committee_snapshot_key_ring s) ring_idx in
  if key =? 0 then None else read_committee_snapshot s key.

(** ** Chunks *)

Lemma concat_chunks fuel l : (length l <= fuel)%nat -> concat (chunks fuel l) = l.
Proof.
  revert l. induction fuel as [|fuel IH]; intros [|x l] Hl; try done; [cbn in Hl; lia|]. cbn [chunks concat].
  rewrite IH; [apply take_drop|]. rewrite length_drop. cbn [length] in *. lia.
Qed.

Lemma lookup_chunks fuel l i :
  (length l <= fuel)%nat -> chunks fuel l !! i = if decide (32 * i < length l)%nat then Some (take 32 (drop (32 * i) l)) else None.
Proof.
  revert l i. induction fuel as [|fuel IH]; intros [|x l] i Hl; [by rewrite decide_False by (cbn; lia)|cbn in Hl; lia|by rewrite decide_False by (cbn; lia)|].
  cbn [chunks]. destruct i as [|i].
  - rewrite decide_True by (cbn; lia). done.
  - cbn [lookup list_lookup]. change (list_lookup i (chunks fuel (drop 32 (x :: l)))) with (chunks fuel (drop 32 (x :: l)) !! i).
    assert (Hd : length (drop 32 (x :: l)) = (length (x :: l) - 32)%nat) by apply length_drop.
    rewrite IH by (cbn [length] in *; lia). rewrite drop_drop. replace (32 + 32 * i)%nat with (32 * S i)%nat by lia.
    repeat case_decide; first [done|lia].
Qed.

Lemma length_chunks fuel l : (length l <= fuel)%nat -> len (chunks fuel l) = div_ceil (len l) 32.
Proof.
  unfold div_ceil, len. revert l. induction fuel as [|fuel IH]; intros [|x l] Hl; [done|cbn in Hl; lia|done|]. cbn [chunks].
  assert (Hd : length (drop 32 (x :: l)) = (length (x :: l) - 32)%nat) by apply length_drop.
  change (length (take 32 (x :: l) :: ?r)) with (S (length r)). rewrite Nat2Z.inj_succ, IH by (cbn [length] in *; lia). rewrite Hd.
  destruct (decide (length (x :: l) <= 32)%nat).
  - replace (length (x :: l) - 32)%nat with 0%nat by lia. change ((Z.of_nat 0 + 32 - 1) / 32) with 0. apply (Z.div_unique _ _ _ (Z.of_nat (length (x :: l)) - 1)); cbn [length] in *; lia.
  - rewrite Nat2Z.inj_sub by lia. replace (Z.of_nat (length (x :: l)) + 32 - 1) with (Z.of_nat (length (x :: l)) - Z.of_nat 32 + 32 - 1 + 1 * 32) by lia. rewrite Z.div_add by lia. lia.
Qed.

(** Reading a padded chunk trims exactly the padding. *)
Lemma read_padded_chunk s key l i chunk :
  chunks (length l) l !! i = Some chunk -> rd (committee_snapshot_vrf_group_public_key_chunk_at s) (key, Z.of_nat i) = pad32 chunk ->
  let n := div_ceil (len l) 32 in
  read_chunk s key n (if len l mod 32 =? 0 then 32 else len l mod 32) (Z.of_nat i) = chunk.
Proof.
  intros Hc Hr n. unfold read_chunk. rewrite Hr. unfold pad32. cbn [b32]. pose proof (lookup_chunks (length l) l i ltac:(lia)) as Hl. rewrite Hc in Hl. case_decide as Hi; [|done].
  injection Hl as ->. set (c := take 32 (drop (32 * i) l)). assert (Hlen : length c = Nat.min 32 (length l - 32 * i)) by (unfold c; by rewrite length_take, length_drop).
  pose proof (Z.div_mod (len l + 31) 32 ltac:(lia)) as Hd. pose proof (Z.mod_pos_bound (len l + 31) 32 ltac:(lia)) as Hm.
  assert (En : n = (len l + 31) / 32) by (unfold n, div_ceil; f_equal; lia). unfold len in *.
  assert (Et : Z.to_nat (if Z.of_nat i + 1 =? n then if Z.of_nat (length l) mod 32 =? 0 then 32 else Z.of_nat (length l) mod 32 else 32) = length c).
  { pose proof (Z.div_mod (Z.of_nat (length l)) 32 ltac:(lia)). pose proof (Z.mod_pos_bound (Z.of_nat (length l)) 32 ltac:(lia)).
    destruct (_ + 1 =? n) eqn:E1; [destruct (_ mod 32 =? 0) eqn:E2|]; bools; lia. }
  rewrite Et, take_app_length. done.
Qed.

(** ** What a key holds *)

(** Two stores agree on everything read under [k]. *)
Record same_key (k : B256) (s s' : SnapshotStore) : Prop := {
  sk_scalars : (rd (committee_snapshot_exists s') k, rd (committee_snapshot_len s') k, rd (committee_snapshot_vrf_material_version s') k,
                rd (committee_snapshot_vrf_group_public_key_len s') k, rd (committee_snapshot_vrf_public_polynomial_hash s') k) =
               (rd (committee_snapshot_exists s) k, rd (committee_snapshot_len s) k, rd (committee_snapshot_vrf_material_version s) k,
                rd (committee_snapshot_vrf_group_public_key_len s) k, rd (committee_snapshot_vrf_public_polynomial_hash s) k);
  sk_at : forall i,
    (rd (committee_snapshot_address_at s') (k, i), rd (committee_snapshot_pubkey_lo_at s') (k, i),
     rd (committee_snapshot_pubkey_hi_at s') (k, i), rd (committee_snapshot_vrf_group_public_key_chunk_at s') (k, i)) =
    (rd (committee_snapshot_address_at s) (k, i), rd (committee_snapshot_pubkey_lo_at s) (k, i),
     rd (committee_snapshot_pubkey_hi_at s) (k, i), rd (committee_snapshot_vrf_group_public_key_chunk_at s) (k, i))
}.

#[export] Instance same_key_preorder k : PreOrder (same_key k).
Proof.
  split; [by split|]. intros s1 s2 s3 [A1 A2] [B1 B2]. split; [by rewrite B1|]. intros i. by rewrite B2.
Qed.

Lemma read_same_key k s s' : same_key k s s' -> read_committee_snapshot s' k = read_committee_snapshot s k.
Proof.
  intros [E1 E2]. injection E1 as F1 F2 F3 F4 F5. unfold read_committee_snapshot. rewrite F1, F2, F3, F4, F5.
  assert (He : forall i, read_entry s' k i = read_entry s k i) by (intros i; injection (E2 i) as G1 G2 G3 G4; unfold read_entry; by rewrite G1, G2, G3).
  assert (Hc : forall n t i, read_chunk s' k n t i = read_chunk s k n t i) by (intros n t i; injection (E2 i) as G1 G2 G3 G4; unfold read_chunk; by rewrite G4).
  case_match; [done|]. do 2 f_equal; [apply list_fmap_ext; auto|]. case_match; [|done]. f_equal. apply list_fmap_ext; auto.
Qed.

Lemma foldl_same_key {A} (f : SnapshotStore -> A -> SnapshotStore) k l :
  (forall s x, same_key k s (f s x)) -> forall s, same_key k s (foldl f s l).
Proof. intros Hf. induction l as [|x l IH]; intros s; [done|]. cbn [foldl]. etrans; [apply Hf|apply IH]. Qed.

Lemma foldl_ring {A} (f : SnapshotStore -> A -> SnapshotStore) l :
  (forall s x, committee_snapshot_key_ring (f s x) = committee_snapshot_key_ring s) -> forall s, committee_snapshot_key_ring (foldl f s l) = committee_snapshot_key_ring s.
Proof. intros Hf. induction l as [|x l IH]; intros s; [done|]. cbn [foldl]. by rewrite IH, Hf. Qed.

Ltac other_key := intros; split; [cbn; by rewrite ?rd_insert_ne by done|intros; cbn; by rewrite ?rd_insert_ne by congruence].

Lemma clear_other key k s : k <> key -> same_key k s (clear_committee_snapshot s key).
Proof.
  intros Hne. unfold clear_committee_snapshot. case_match; [done|]. cbv zeta.
  do 4 (etrans; [|other_key]).
  etrans; [|apply foldl_same_key; intros; other_key]. etrans; [|other_key].
  etrans; [|apply foldl_same_key; intros; unfold clear_entry; etrans; [|other_key]; etrans; [|other_key]; other_key]. other_key.
Qed.

Lemma clear_ring key s : committee_snapshot_key_ring (clear_committee_snapshot s key) = committee_snapshot_key_ring s.
Proof.
  unfold clear_committee_snapshot. case_match; [done|]. cbv zeta.
  change (committee_snapshot_key_ring (wr_snapshot_poly_hash ?x _ _)) with (committee_snapshot_key_ring x).
  change (committee_snapshot_key_ring (wr_snapshot_vrf_len ?x _ _)) with (committee_snapshot_key_ring x).
  change (committee_snapshot_key_ring (wr_snapshot_vrf_hash ?x _ _)) with (committee_snapshot_key_ring x).
  change (committee_snapshot_key_ring (wr_snapshot_vrf_version ?x _ _)) with (committee_snapshot_key_ring x).
  rewrite foldl_ring by done. change (committee_snapshot_key_ring (wr_snapshot_len ?x _ _)) with (committee_snapshot_key_ring x).
  by rewrite foldl_ring by done.
Qed.

Lemma foldl_exists {A} (f : SnapshotStore -> A -> SnapshotStore) l :
  (forall s x, committee_snapshot_exists (f s x) = committee_snapshot_exists s) -> forall s, committee_snapshot_exists (foldl f s l) = committee_snapshot_exists s.
Proof. intros Hf. induction l as [|x l IH]; intros s; [done|]. cbn [foldl]. by rewrite IH, Hf. Qed.

Lemma clear_read key s : read_committee_snapshot (clear_committee_snapshot s key) key = None.
Proof.
  unfold read_committee_snapshot. enough (E : rd (committee_snapshot_exists (clear_committee_snapshot s key)) key = false) by by rewrite E.
  unfold clear_committee_snapshot. destruct (rd (committee_snapshot_exists s) key) eqn:E; cbn [negb]; [|done]. cbv zeta.
  change (committee_snapshot_exists (wr_snapshot_poly_hash ?x _ _)) with (committee_snapshot_exists x).
  change (committee_snapshot_exists (wr_snapshot_vrf_len ?x _ _)) with (committee_snapshot_exists x).
  change (committee_snapshot_exists (wr_snapshot_vrf_hash ?x _ _)) with (committee_snapshot_exists x).
  change (committee_snapshot_exists (wr_snapshot_vrf_version ?x _ _)) with (committee_snapshot_exists x).
  rewrite foldl_exists by done. change (committee_snapshot_exists (wr_snapshot_len ?x _ _)) with (committee_snapshot_exists x).
  rewrite foldl_exists by done. cbn. by rewrite rd_insert_eq.
Qed.

(** ** Writing *)

Lemma enumerate_cons {A} a (x : A) l : zip (seqZ a (len (x :: l))) (x :: l) = (a, x) :: zip (seqZ (a + 1) (len l)) l.
Proof. unfold len. cbn [length]. rewrite seqZ_cons by lia. cbn [zip_with]. unfold Z.succ. do 3 f_equal. lia. Qed.

(** The slots the committee loop does not write. *)
Definition beside_entries (s : SnapshotStore) :=
  (committee_snapshot_exists s, committee_snapshot_len s, committee_snapshot_vrf_group_public_key_chunk_at s, committee_snapshot_key_ring s).

Lemma write_entries_spec key l : forall a s,
  let s' := foldl (write_entry key) s (zip (seqZ a (len l)) l) in
  (forall j e, l !! j = Some e -> rd (committee_snapshot_address_at s') (key, a + Z.of_nat j) = ce_address e /\
     (rd (committee_snapshot_pubkey_lo_at s') (key, a + Z.of_nat j), rd (committee_snapshot_pubkey_hi_at s') (key, a + Z.of_nat j)) = split_pubkey (ce_consensus_pubkey e)) /\
  (forall j, j < a -> rd (committee_snapshot_address_at s') (key, j) = rd (committee_snapshot_address_at s) (key, j) /\
     rd (committee_snapshot_pubkey_lo_at s') (key, j) = rd (committee_snapshot_pubkey_lo_at s) (key, j) /\
     rd (committee_snapshot_pubkey_hi_at s') (key, j) = rd (committee_snapshot_pubkey_hi_at s) (key, j)) /\
  beside_entries s' = beside_entries s.
Proof.
  induction l as [|e l IH]; intros a s s'; [split_and!; [done|done|done]|]. unfold s'. rewrite enumerate_cons. cbn [foldl]. set (s1 := write_entry key s (a, e)).
  destruct (IH (a + 1) s1) as (I1 & I2 & I3). set (s2 := foldl _ s1 _) in *. clearbody s2.
  assert (W : committee_snapshot_address_at s1 = <[(key, a) := ce_address e]> (committee_snapshot_address_at s) /\
              committee_snapshot_pubkey_lo_at s1 = <[(key, a) := fst (split_pubkey (ce_consensus_pubkey e))]> (committee_snapshot_pubkey_lo_at s) /\
              committee_snapshot_pubkey_hi_at s1 = <[(key, a) := snd (split_pubkey (ce_consensus_pubkey e))]> (committee_snapshot_pubkey_hi_at s) /\
              beside_entries s1 = beside_entries s) by (split_and!; reflexivity). clearbody s1. destruct W as (W1 & W2 & W3 & W4). split_and!.
  - intros [|j] e' Hj.
    + injection Hj as <-. rewrite Z.add_0_r. destruct (I2 a ltac:(lia)) as (-> & -> & ->). rewrite W1, W2, W3, !rd_insert_eq. split; [done|]. by destruct (split_pubkey _).
    + replace (a + Z.of_nat (S j)) with (a + 1 + Z.of_nat j) by lia. by apply I1.
  - intros j Hj. destruct (I2 j ltac:(lia)) as (-> & -> & ->). rewrite W1, W2, W3, !rd_insert_ne by (intros [=]; lia). done.
  - by rewrite I3.
Qed.

Definition beside_chunks (s : SnapshotStore) :=
  (committee_snapshot_exists s, committee_snapshot_len s, (committee_snapshot_address_at s, committee_snapshot_pubkey_lo_at s, committee_snapshot_pubkey_hi_at s),
   (committee_snapshot_vrf_material_version s, committee_snapshot_vrf_group_public_key_len s, committee_snapshot_vrf_public_polynomial_hash s), committee_snapshot_key_ring s).

Lemma write_chunks_spec key l : forall a s,
  let s' := foldl (write_chunk key) s (zip (seqZ a (len l)) l) in
  (forall j c, l !! j = Some c -> rd (committee_snapshot_vrf_group_public_key_chunk_at s') (key, a + Z.of_nat j) = pad32 c) /\
  (forall j, j < a -> rd (committee_snapshot_vrf_group_public_key_chunk_at s') (key, j) = rd (committee_snapshot_vrf_group_public_key_chunk_at s) (key, j)) /\
  beside_chunks s' = beside_chunks s.
Proof.
  induction l as [|e l IH]; intros a s s'; [split_and!; [done|done|done]|]. unfold s'. rewrite enumerate_cons. cbn [foldl]. set (s1 := write_chunk key s (a, e)).
  destruct (IH (a + 1) s1) as (I1 & I2 & I3). set (s2 := foldl _ s1 _) in *. clearbody s2.
  assert (W : committee_snapshot_vrf_group_public_key_chunk_at s1 = <[(key, a) := pad32 e]> (committee_snapshot_vrf_group_public_key_chunk_at s) /\
              beside_chunks s1 = beside_chunks s) by (split; reflexivity). clearbody s1. destruct W as (W1 & W2). split_and!.
  - intros [|j] e' Hj.
    + injection Hj as <-. rewrite Z.add_0_r, (I2 a) by lia. by rewrite W1, rd_insert_eq.
    + replace (a + Z.of_nat (S j)) with (a + 1 + Z.of_nat j) by lia. by apply I1.
  - intros j Hj. rewrite (I2 j), W1, rd_insert_ne by (try lia; intros [=]; lia). done.
  - by rewrite I3.
Qed.

(** The snapshot written under [key], before the ring is advanced. *)
Definition put_snapshot (s : SnapshotStore) (key : B256) (snapshot : CommitteeSnapshot) (vrf_pk_hash : B256) : SnapshotStore :=
  let s := wr_snapshot_len s key (len (cs_committee snapshot)) in
  let s := foldl (write_entry key) s (enumerate (cs_committee snapshot)) in
  let s := wr_snapshot_vrf_version s key (cs_vrf_material_version snapshot) in
  let s := wr_snapshot_vrf_hash s key vrf_pk_hash in
  let s := wr_snapshot_vrf_len s key (len (cs_vrf_group_public_key_bytes snapshot)) in
  let s := wr_snapshot_poly_hash s key (cs_vrf_public_polynomial_hash snapshot) in
  let bytes := cs_vrf_group_public_key_bytes snapshot in
  let s := foldl (write_chunk key) s (enumerate (chunks (length bytes) bytes)) in
  wr_snapshot_exists s key true.

Definition snapshot_ok (snapshot : CommitteeSnapshot) : Prop :=
  Forall (fun e => length (ce_consensus_pubkey e) = 48%nat) (cs_committee snapshot).

Lemma join_split pubkey : length pubkey = 48%nat -> join_pubkey (fst (split_pubkey pubkey)) (snd (split_pubkey pubkey)) = pubkey.
Proof.
  intros Hl. unfold join_pubkey, split_pubkey. cbn [fst snd b32]. rewrite take_app_le by (rewrite length_take, length_drop; lia).
  rewrite take_take. rewrite <- (take_drop 32 pubkey) at 3. f_equal. apply take_ge. rewrite length_drop. lia.
Qed.

Lemma put_other key k s snapshot h : k <> key -> same_key k s (put_snapshot s key snapshot h).
Proof.
  intros Hne. unfold put_snapshot. etrans; [|other_key]. etrans; [|apply foldl_same_key; intros ? []; other_key]. do 4 (etrans; [|other_key]).
  etrans; [|apply foldl_same_key; intros ? []; unfold write_entry; destruct (split_pubkey _); do 2 (etrans; [|other_key]); other_key]. other_key.
Qed.

Lemma put_ring key s snapshot h : committee_snapshot_key_ring (put_snapshot s key snapshot h) = committee_snapshot_key_ring s.
Proof.
  unfold put_snapshot. change (committee_snapshot_key_ring (wr_snapshot_exists ?x _ _)) with (committee_snapshot_key_ring x).
  rewrite foldl_ring by (by intros ? []). set (s1 := foldl (write_entry key) _ _).
  change (committee_snapshot_key_ring s1 = committee_snapshot_key_ring s). unfold s1. by rewrite foldl_ring by (by intros ? []).
Qed.

(** A snapshot written is the snapshot read. *)
Lemma put_read key s snapshot h : snapshot_ok snapshot -> read_committee_snapshot (put_snapshot s key snapshot h) key = Some snapshot.
Proof.
  intros Hok. destruct snapshot as [l ver pk poly]. unfold put_snapshot. cbn [cs_committee cs_vrf_material_version cs_vrf_group_public_key_bytes cs_vrf_public_polynomial_hash].
  set (s1 := wr_snapshot_len s key (len l)). destruct (write_entries_spec key l 0 s1) as (E1 & _ & E3). fold (enumerate l) in E1, E3. set (s2 := foldl (write_entry key) s1 _) in *.
  assert (L1 : committee_snapshot_len s1 = <[key := len l]> (committee_snapshot_len s)) by reflexivity. clearbody s1. unfold beside_entries in E3. injection E3 as F1 F2 F3 F4. clearbody s2.
  set (s3 := wr_snapshot_poly_hash _ key poly). assert (S3 : committee_snapshot_len s3 = committee_snapshot_len s2 /\ committee_snapshot_address_at s3 = committee_snapshot_address_at s2 /\
    committee_snapshot_pubkey_lo_at s3 = committee_snapshot_pubkey_lo_at s2 /\ committee_snapshot_pubkey_hi_at s3 = committee_snapshot_pubkey_hi_at s2) by (split_and!; reflexivity).
  assert (V3 : rd (committee_snapshot_vrf_material_version s3) key = ver /\ rd (committee_snapshot_vrf_group_public_key_len s3) key = len pk /\
    rd (committee_snapshot_vrf_public_polynomial_hash s3) key = poly) by (cbn; by rewrite !rd_insert_eq).
  clearbody s3. destruct S3 as (A1 & A2 & A3 & A4). destruct V3 as (B1 & B2 & B3).
  destruct (write_chunks_spec key (chunks (length pk) pk) 0 s3) as (C1 & _ & C3). fold (enumerate (chunks (length pk) pk)) in C1, C3. set (s4 := foldl (write_chunk key) s3 _) in *. clearbody s4.
  unfold beside_chunks in C3. injection C3 as G1 G2 G3 G4 G5 G6 G7 G8 G9.
  assert (Hent : forall i e, l !! i = Some e -> read_entry s4 key (Z.of_nat i) = e).
  { intros i e Hi. destruct (E1 i e Hi) as [X1 X2]. rewrite Z.add_0_l in X1, X2. unfold read_entry. rewrite G3, G4, G5, A2, A3, A4, X1. pose proof (f_equal fst X2) as Y1. pose proof (f_equal snd X2) as Y2. cbn [fst snd] in Y1, Y2.
    rewrite Y1, Y2, join_split; [by destruct e|]. unfold snapshot_ok in Hok. rewrite Forall_forall in Hok. apply Hok. by eapply list_elem_of_lookup_2. }
  unfold read_committee_snapshot. cbn [committee_snapshot_exists wr_snapshot_exists]. rewrite rd_insert_eq. cbn [negb wr_snapshot_exists committee_snapshot_len committee_snapshot_vrf_material_version committee_snapshot_vrf_group_public_key_len committee_snapshot_vrf_public_polynomial_hash].
  rewrite G2, G6, G7, G8, A1, F2, L1, B1, B2, B3, rd_insert_eq. do 2 f_equal.
  - apply list_eq. intros i. rewrite list_lookup_fmap. destruct (l !! i) as [e|] eqn:Ei.
    + rewrite lookup_seqZ_lt by (apply lookup_lt_Some in Ei; unfold len; lia). cbn [fmap option_fmap option_map]. rewrite Z.add_0_l. f_equal. exact (Hent i e Ei).
    + rewrite lookup_seqZ_ge; [done|]. apply lookup_ge_None in Ei. unfold len. lia.
  - destruct (len pk >? 0) eqn:E0; [|destruct pk; [done|bools; unfold len in *; cbn in *; lia]]. transitivity (concat (chunks (length pk) pk)); [|by apply concat_chunks]. f_equal.
    apply list_eq. intros i. rewrite list_lookup_fmap. destruct (chunks (length pk) pk !! i) as [c|] eqn:Ei.
    + rewrite lookup_seqZ_lt by (rewrite <- (length_chunks (length pk)) by lia; apply lookup_lt_Some in Ei; unfold len; lia). cbn [fmap option_fmap option_map]. rewrite Z.add_0_l. f_equal.
      apply (read_padded_chunk _ key pk i c Ei). rewrite <- (C1 i c Ei), Z.add_0_l. done.
    + rewrite lookup_seqZ_ge; [done|]. apply lookup_ge_None in Ei. rewrite <- (length_chunks (length pk)) by lia. unfold len. lia.
Qed.

(** ** The ring *)

Definition empty_store : SnapshotStore := mkStore ∅ ∅ ∅ ∅ ∅ ∅ ∅ ∅ ∅ ∅ ∅.

(** The write that ring slot [i] retains: the last one of an epoch congruent to [i]. *)
Definition retained (writes : list (u64 * CommitteeSnapshot)) (i : Z) : option (u64 * CommitteeSnapshot) :=
  last (filter (fun w => fst w mod COMMITTEE_SNAPSHOT_RETAIN_EPOCHS = i) writes).

Lemma retained_snoc writes e snap i :
  retained (writes ++ [(e, snap)]) i = if decide (e mod COMMITTEE_SNAPSHOT_RETAIN_EPOCHS = i) then Some (e, snap) else retained writes i.
Proof. unfold retained. rewrite filter_app, filter_cons, filter_nil. cbn [fst]. repeat case_decide; try done; [by rewrite last_snoc|by rewrite app_nil_r]. Qed.

Section Ring.
Context `{KeccakLaws}.

Definition write_key (w : u64 * CommitteeSnapshot) : B256 := snd (snapshot_identity (fst w) (snd w)).

Lemma bytes_key_preimage e h : bytes ((OUTBE_COMMITTEE_SNAPSHOT_KEY_V2_DOMAIN ++ be_bytes 8 e) ++ be_bytes 32 h).
Proof. apply bytes_app; [apply bytes_app; [|apply bytes_be]|apply bytes_be]. apply (bool_decide_unpack _). vm_compute. exact I. Qed.

Lemma committee_snapshot_key_inj e h e' h' :
  fits 64 e -> fits 64 e' -> committee_snapshot_key e h = committee_snapshot_key e' h' -> e = e'.
Proof.
  intros He He' E. unfold committee_snapshot_key in E.
  apply keccak_inj in E; [|apply bytes_key_preimage..]. apply app_inj_1 in E as [E _]; [|by rewrite !length_app, !length_be_bytes].
  apply app_inv_head in E. apply be_bytes_inj in E; [done|..]; unfold fits in *; change (256 ^ Z.of_nat 8) with (2 ^ 64); lia.
Qed.

Lemma committee_snapshot_key_nonzero e h : committee_snapshot_key e h <> 0.
Proof. apply keccak_nonzero, bytes_key_preimage. Qed.

Lemma write_key_nonzero w : write_key w <> 0.
Proof. exact (committee_snapshot_key_nonzero (fst w) (committee_set_hash_v2 (fst w) (snd w))). Qed.

Record ring_rep (s : SnapshotStore) (writes : list (u64 * CommitteeSnapshot)) : Prop := {
  rr_ring : forall i, rd (committee_snapshot_key_ring s) i = from_option write_key 0 (retained writes i);
  rr_read : forall i w, retained writes i = Some w -> read_committee_snapshot s (write_key w) = Some (snd w);
  rr_none : forall k, (forall i w, retained writes i = Some w -> write_key w <> k) -> read_committee_snapshot s k = None
}.

Lemma empty_rep : ring_rep empty_store [].
Proof. split; [done|done|]. intros k _. done. Qed.

Lemma retained_elem writes i w : retained writes i = Some w -> w ∈ writes /\ fst w mod COMMITTEE_SNAPSHOT_RETAIN_EPOCHS = i.
Proof. intros E. apply last_Some_elem_of in E. apply list_elem_of_filter in E as [? ?]. done. Qed.

(** Retained keys of different slots differ. *)
Lemma retained_keys writes i j w w' :
  Forall (fun w => fits 64 (fst w)) writes -> retained writes i = Some w -> retained writes j = Some w' -> write_key w = write_key w' -> i = j.
Proof.
  intros Hf Ei Ej E. apply retained_elem in Ei as [Hi <-]. apply retained_elem in Ej as [Hj <-]. rewrite Forall_forall in Hf.
  f_equal. eapply committee_snapshot_key_inj; [by apply Hf|by apply Hf|exact E].
Qed.

Lemma write_rep s writes e snap :
  Forall (fun w => fits 64 (fst w)) writes -> fits 64 e -> snapshot_ok snap -> ring_rep s writes ->
  ring_rep (fst (write_committee_snapshot s e snap)) (writes ++ [(e, snap)]) /\
  snd (write_committee_snapshot s e snap) = snapshot_identity e snap.
Proof.
  intros Hf He Hok [R1 R2 R3]. split; [|done]. assert (Hall : Forall (fun w : u64 * CommitteeSnapshot => fits 64 (fst w)) (writes ++ [(e, snap)])) by (apply Forall_app; split; [done|by apply Forall_singleton]).
  unfold write_committee_snapshot. set (key := committee_snapshot_key e _). set (i := e mod COMMITTEE_SNAPSHOT_RETAIN_EPOCHS).
  match goal with |- context [wr_snapshot_exists ?x key true] => change (wr_snapshot_exists x key true) with (put_snapshot s key snap (keccak256 (cs_vrf_group_public_key_bytes snap))) end.
  set (s1 := put_snapshot _ _ _ _). cbn [fst]. assert (Hring1 : committee_snapshot_key_ring s1 = committee_snapshot_key_ring s) by apply put_ring.
  assert (Hother : forall k, k <> key -> same_key k s s1) by (intros; by apply put_other). assert (Hkey : read_committee_snapshot s1 key = Some snap) by (by apply put_read).
  clearbody s1. rewrite Hring1, R1. set (ev := from_option write_key 0 (retained writes i)).
  set (s2 := if negb (ev =? 0) && negb (ev =? key) then clear_committee_snapshot s1 ev else s1).
  assert (Hring2 : committee_snapshot_key_ring s2 = committee_snapshot_key_ring s) by (unfold s2; case_match; rewrite ?clear_ring; done).
  assert (Hread2 : forall k, read_committee_snapshot s2 k = if decide (k = key) then Some snap else if decide (ev <> 0 /\ k = ev) then None else read_committee_snapshot s k).
  { intros k. unfold s2. destruct (Z.eqb_spec ev 0) as [E0|E0], (Z.eqb_spec ev key) as [E1|E1]; cbn [negb andb].
    4: destruct (decide (k = ev)) as [->|Hk]; [rewrite clear_read; repeat case_decide; intuition congruence|rewrite (read_same_key k s1) by (by apply clear_other)].
    all: repeat case_decide; first [by subst|exfalso; intuition congruence|by apply read_same_key, Hother]. }
  clearbody s2. assert (Hread : forall k, read_committee_snapshot (wr_snapshot_key_ring s2 i key) k = read_committee_snapshot s2 k) by (intros k; by apply read_same_key).
  assert (Hret : forall j, retained (writes ++ [(e, snap)]) j = if decide (i = j) then Some (e, snap) else retained writes j) by (intros j; apply retained_snoc). split.
  - intros j. cbn [committee_snapshot_key_ring wr_snapshot_key_ring]. rewrite Hring2, rd_insert, R1, Hret. by repeat case_decide.
  - intros j w Hw. rewrite Hread, Hread2. rewrite Hret in Hw. case_decide as Hj.
    + injection Hw as <-. by rewrite decide_True by done.
    + assert (Hne : write_key w <> key).
      { intros E. apply Hj. symmetry. eapply (retained_keys (writes ++ [(e, snap)]) j i w (e, snap) Hall); [rewrite Hret; by rewrite decide_False|rewrite Hret; by rewrite decide_True|exact E]. }
      rewrite decide_False by done. rewrite decide_False; [by apply (R2 j)|]. intros [He0 Ee]. unfold ev in Ee, He0. destruct (retained writes i) as [w'|] eqn:Ei; [|done].
      apply Hj. symmetry. exact (retained_keys writes j i w w' Hf Hw Ei Ee).
  - intros k Hk. rewrite Hread, Hread2. rewrite decide_False by (intros ->; apply (Hk i (e, snap)); [rewrite Hret; by rewrite decide_True|done]).
    destruct (decide (ev <> 0 /\ k = ev)) as [|Hev]; [done|]. apply R3. intros j w Hw E. destruct (decide (i = j)) as [<-|Hne]; [|apply (Hk j w); [by rewrite Hret, decide_False|done]].
    apply Hev. unfold ev. rewrite Hw. cbn [from_option]. split; [apply write_key_nonzero|by symmetry].
Qed.

Definition write_all (s : SnapshotStore) (writes : list (u64 * CommitteeSnapshot)) : SnapshotStore :=
  foldl (fun s w => fst (write_committee_snapshot s (fst w) (snd w))) s writes.

Lemma write_all_rep writes : Forall (fun w => fits 64 (fst w) /\ snapshot_ok (snd w)) writes -> ring_rep (write_all empty_store writes) writes.
Proof.
  induction writes as [|[e snap] writes IH] using rev_ind; intros Hf; [apply empty_rep|]. apply Forall_app in Hf as [Hf H1]. apply Forall_singleton in H1 as [He Hok].
  unfold write_all. rewrite foldl_app. cbn [foldl]. apply write_rep; [|done|done|by apply IH]. eapply Forall_impl; [exact Hf|]. by intros ? [? _].
Qed.

(** C31. The snapshot store is a ring of the eight latest epochs. After any
    sequence of writes of well-formed committees, a key reads back a committee
    exactly when it is the key of the last write among the epochs congruent to
    its own modulo [COMMITTEE_SNAPSHOT_RETAIN_EPOCHS], and the committee read is
    the one written, byte for byte; every evicted or unknown key reads as absent;
    the read by epoch returns the last committee written in that epoch's slot. *)
Theorem snapshot_store_refines writes :
  Forall (fun w => fits 64 (fst w) /\ snapshot_ok (snd w)) writes ->
  let s := write_all empty_store writes in
  (forall k snap, read_committee_snapshot s k = Some snap <-> exists i e, retained writes i = Some (e, snap) /\ k = snd (snapshot_identity e snap)) /\
  (forall epoch, read_committee_snapshot_for_epoch s epoch = snd <$> retained writes (epoch mod COMMITTEE_SNAPSHOT_RETAIN_EPOCHS)).
Proof.
  intros Hf s. destruct (write_all_rep writes Hf) as [R1 R2 R3]. fold s in R1, R2, R3. split.
  - intros k snap. split.
    + intros E. destruct (decide (Exists (fun i => write_key <$> retained writes i = Some k) (seqZ 0 8))) as [Hex|Hno].
      * apply Exists_exists in Hex as (i & _ & Hi). apply fmap_Some in Hi as ([e sn] & Hw & ->).
        exists i, e. rewrite (R2 i _ Hw) in E. injection E as <-. done.
      * rewrite R3 in E; [done|]. intros i w Hw Ek. apply Hno, Exists_exists. exists i. split; [|rewrite Hw; cbn; by f_equal]. apply retained_elem in Hw as [_ <-].
        apply elem_of_seqZ. unfold COMMITTEE_SNAPSHOT_RETAIN_EPOCHS. pose proof (Z.mod_pos_bound (fst w) 8). lia.
    + intros (i & e & Hw & ->). apply (R2 i (e, snap) Hw).
  - intros epoch. unfold read_committee_snapshot_for_epoch. rewrite R1. destruct (retained writes _) as [w|] eqn:Hw; cbn [from_option]; [|done].
    rewrite (proj2 (Z.eqb_neq _ _)) by apply write_key_nonzero. apply (R2 _ w Hw).
Qed.
End Ring.

Definition sample_snapshot (v : u64) : CommitteeSnapshot := mkSnapshot [mkEntry 5 (replicate 48 7); mkEntry 6 (replicate 48 9)] v (replicate 40 3) 11.

(** Epoch 9 takes the ring slot of epoch 1: the read by epoch returns the newer committee for both. *)
Lemma snapshot_store_refines_witness :
  let s := @write_all sample_crypto empty_store [(1, sample_snapshot 0); (2, sample_snapshot 1); (9, sample_snapshot 2)] in
  read_committee_snapshot_for_epoch s 2 = Some (sample_snapshot 1) /\ read_committee_snapshot_for_epoch s 1 = Some (sample_snapshot 2).
Proof.
  destruct (@snapshot_store_refines sample_crypto sample_keccak [(1, sample_snapshot 0); (2, sample_snapshot 1); (9, sample_snapshot 2)]) as [_ R].
  - repeat constructor; discriminate.
  - split; rewrite R; reflexivity.
Defined.
