(* ===== verification/Slash.v ===== *)
(** * SlashIndicator: miss counters, felonies and equivocation evidence

    [crates/system/slashindicator]: per-epoch miss counters of proposers and
    voters, the felony that jails and slashes a validator at every multiple of a
    threshold, the per-block guards that make the two window passes idempotent,
    and the evidence entry points that punish equivocation. The module calls the
    validator set, staking and the committee-snapshot store, so its operations act
    on the joint state [SlashWorld]. Metrics, the journal and log lines have no
    effect on the chain state and are left out; the contract's events are kept.
    The submission of invalid-VRF evidence is not modelled. *)

From S2P Require Import Prelude Native ValidatorSet Staking Snapshots.

(** ** [schema.rs] *)

Inductive SlashEvent : Type :=
| ProposerFelony (validator : Address) (missCount felonyCount : u64)
| ProposerMisdemeanor (validator : Address) (missCount : u64)
| VoterFelony (validator : Address) (missCount felonyCount : u64)
| VoterMisdemeanor (validator : Address) (missCount : u64)
| EvidenceFelonyApplied (validator submitter : Address) (slashedAmount submitterReward : U256)
| ByzantineFelony (validator : Address) (slashedAmount : U256) (felonyCount : u64)
| SeedPartialEquivocationApplied (validator submitter : Address) (roundEpoch roundView vrfVersion : u64)
| InvalidSeedPartialApplied (validator submitter : Address) (roundEpoch roundView vrfVersion : u64).

Record SlashIndicator := mkSI {
  config_proposer_misdemeanor_threshold : u64;
  config_proposer_felony_threshold : u64;
  config_voter_misdemeanor_threshold : u64;
  config_slash_amount_percent : u64;
  config_evidence_reward_percent : u64;
  proposer_miss_count : gmap Address u64;
  voter_miss_count : gmap Address u64;
  felony_count : gmap Address u64;
  evidence_processed : gmap B256 bool;
  voter_window_slashed : gmap B256 bool;
  proposer_window_slashed : gmap B256 bool;
  invalid_vrf_evidence_processed : gmap B256 bool;
  config_voter_felony_threshold : u64;
  seed_partial_equivocation_processed : gmap B256 bool;
  invalid_seed_partial_processed : gmap B256 bool;
  slash_guard_ring : gmap u64 B256;
  slash_guard_ring_seq : u64;
  si_events : list SlashEvent
}.

Definition wr_proposer_miss_count (s : SlashIndicator) (a : Address) (v : u64) : SlashIndicator :=
  {| s with proposer_miss_count := <[a := v]> (proposer_miss_count s) |}.
Definition wr_voter_miss_count (s : SlashIndicator) (a : Address) (v : u64) : SlashIndicator :=
  {| s with voter_miss_count := <[a := v]> (voter_miss_count s) |}.
Definition wr_felony_count (s : SlashIndicator) (a : Address) (v : u64) : SlashIndicator :=
  {| s with felony_count := <[a := v]> (felony_count s) |}.
Definition wr_evidence_processed (s : SlashIndicator) (h : B256) (v : bool) : SlashIndicator :=
  {| s with evidence_processed := <[h := v]> (evidence_processed s) |}.
Definition wr_voter_window_slashed (s : SlashIndicator) (h : B256) (v : bool) : SlashIndicator :=
  {| s with voter_window_slashed := <[h := v]> (voter_window_slashed s) |}.
Definition wr_proposer_window_slashed (s : SlashIndicator) (h : B256) (v : bool) : SlashIndicator :=
  {| s with proposer_window_slashed := <[h := v]> (proposer_window_slashed s) |}.
Definition wr_seed_partial_equivocation_processed (s : SlashIndicator) (h : B256) (v : bool) : SlashIndicator :=
  {| s with seed_partial_equivocation_processed := <[h := v]> (seed_partial_equivocation_processed s) |}.
Definition wr_invalid_seed_partial_processed (s : SlashIndicator) (h : B256) (v : bool) : SlashIndicator :=
  {| s with invalid_seed_partial_processed := <[h := v]> (invalid_seed_partial_processed s) |}.
Definition wr_slash_guard_ring (s : SlashIndicator) (i : u64) (v : B256) : SlashIndicator :=
  {| s with slash_guard_ring := <[i := v]> (slash_guard_ring s) |}.
Definition set_slash_guard_ring_seq (s : SlashIndicator) (v : u64) : SlashIndicator := {| s with slash_guard_ring_seq := v |}.
Definition si_emit (s : SlashIndicator) (e : SlashEvent) : SlashIndicator := {| s with si_events := si_events s ++ [e] |}.

(** The joint state the module acts on. *)
Record SlashWorld := mkSlash { indicator : SlashIndicator; chain_world : World; snapshots : SnapshotStore }.

Definition with_indicator (w : SlashWorld) (s : SlashIndicator) : SlashWorld := mkSlash s (chain_world w) (snapshots w).

(** ** [runtime.rs]: configuration *)

Definition DEFAULT_PROPOSER_MISDEMEANOR_THRESHOLD : u64 := 50.
Definition DEFAULT_PROPOSER_FELONY_THRESHOLD : u64 := 150.
Definition DEFAULT_VOTER_MISDEMEANOR_THRESHOLD : u64 := 150.
Definition DEFAULT_VOTER_FELONY_THRESHOLD : u64 := 500.
Definition DEFAULT_SLASH_AMOUNT_PERCENT : u64 := 5.
Definition DEFAULT_EVIDENCE_REWARD_PERCENT : u64 := 10.

Definition proposer_felony_threshold (s : SlashIndicator) : u64 :=
  let v := config_proposer_felony_threshold s in
  if v =? 0 then DEFAULT_PROPOSER_FELONY_THRESHOLD else v.
Definition proposer_misdemeanor_threshold (s : SlashIndicator) : u64 :=
  let v := config_proposer_misdemeanor_threshold s in
  if v =? 0 then DEFAULT_PROPOSER_MISDEMEANOR_THRESHOLD else v.
Definition voter_misdemeanor_threshold (s : SlashIndicator) : u64 :=
  let v := config_voter_misdemeanor_threshold s in
  if v =? 0 then DEFAULT_VOTER_MISDEMEANOR_THRESHOLD else v.
Definition voter_felony_threshold (s : SlashIndicator) : u64 :=
  let v := config_voter_felony_threshold s in
  if v =? 0 then DEFAULT_VOTER_FELONY_THRESHOLD else v.
Definition slash_amount_percent (s : SlashIndicator) : u64 :=
  let v := config_slash_amount_percent s in
  if v =? 0 then DEFAULT_SLASH_AMOUNT_PERCENT else v.
Definition evidence_reward_percent (s : SlashIndicator) : u64 :=
  let v := config_evidence_reward_percent s in
  if v =? 0 then DEFAULT_EVIDENCE_REWARD_PERCENT else v.

(** ** [runtime.rs]: slash actions *)

Definition status_of (w : SlashWorld) (a : Address) : u8 := rd (val_status (valset (chain_world w))) a.

Definition validator_already_penalized (w : SlashWorld) (validator : Address) : bool :=
  let st := status_of w validator in
  (st =? status.JAILED) || (st =? status.EXITING).

Section Actions.
Variable env : BlockEnv.

(** [jail_validator] followed by [slash_stake], the effect every felony has. *)
Definition jail_and_slash (w : SlashWorld) (validator : Address) : res (SlashWorld * U256) :=
  let cw := chain_world w in
  let? vs := jail_validator env (valset cw) validator in
  let slash_percent := slash_amount_percent (indicator w) in
  let? (cw, slashed_amount) := slash_stake env (mkWorld (staking cw) vs (balance cw)) validator slash_percent in
  Ok (mkSlash (indicator w) cw (snapshots w), slashed_amount).

Definition slash_proposer (w : SlashWorld) (validator : Address) : res SlashWorld :=
  let s := indicator w in
  let count := wadd 64 (rd (proposer_miss_count s) validator) 1 in
  let s := wr_proposer_miss_count s validator count in
  let felony_threshold := proposer_felony_threshold s in
  let misdemeanor_threshold := proposer_misdemeanor_threshold s in
  let w := with_indicator w s in
  if validator_already_penalized w validator then Ok w else
  if (count >? 0) && (count mod felony_threshold =? 0) then
    let fc := wadd 64 (rd (felony_count s) validator) 1 in
    let w := with_indicator w (wr_felony_count s validator fc) in
    let? (w, _) := jail_and_slash w validator in
    Ok (with_indicator w (si_emit (indicator w) (ProposerFelony validator count fc)))
  else if (count >? 0) && (count mod misdemeanor_threshold =? 0) then
    Ok (with_indicator w (si_emit s (ProposerMisdemeanor validator count)))
  else Ok w.

Definition slash_voter (w : SlashWorld) (validator : Address) : res SlashWorld :=
  let s := indicator w in
  let count := wadd 64 (rd (voter_miss_count s) validator) 1 in
  let s := wr_voter_miss_count s validator count in
  let felony_threshold := voter_felony_threshold s in
  let misdemeanor_threshold := voter_misdemeanor_threshold s in
  let w := with_indicator w s in
  if validator_already_penalized w validator then Ok w else
  if (count >? 0) && (count mod felony_threshold =? 0) then
    let fc := wadd 64 (rd (felony_count s) validator) 1 in
    let w := with_indicator w (wr_felony_count s validator fc) in
    let? (w, _) := jail_and_slash w validator in
    Ok (with_indicator w (si_emit (indicator w) (VoterFelony validator count fc)))
  else if (count >? 0) && (count mod misdemeanor_threshold =? 0) then
    Ok (with_indicator w (si_emit s (VoterMisdemeanor validator count)))
  else Ok w.

Definition apply_evidence_felony (w : SlashWorld) (validator evidence_submitter : Address) : res SlashWorld :=
  let cw := chain_world w in
  let? vs := jail_validator env (valset cw) validator in
  let s := indicator w in
  let fc := wadd 64 (rd (felony_count s) validator) 1 in
  let s := wr_felony_count s validator fc in
  let slash_percent := slash_amount_percent s in
  let? (cw, slashed_amount) := slash_stake env (mkWorld (staking cw) vs (balance cw)) validator slash_percent in
  let reward :=
    if negb (slashed_amount =? 0) then wmul 256 slashed_amount (evidence_reward_percent s) / 100 else 0 in
  let b := if negb (reward =? 0) then increase_balance (balance cw) evidence_submitter reward else balance cw in
  let cw := mkWorld (staking cw) (valset cw) b in
  Ok (mkSlash (si_emit s (EvidenceFelonyApplied validator evidence_submitter slashed_amount reward)) cw (snapshots w)).

Definition slash_byzantine (w : SlashWorld) (validator : Address) : res SlashWorld :=
  let cw := chain_world w in
  let? vs := jail_validator env (valset cw) validator in
  let s := indicator w in
  let fc := wadd 64 (rd (felony_count s) validator) 1 in
  let s := wr_felony_count s validator fc in
  let slash_percent := slash_amount_percent s in
  let? (cw, slashed_amount) := slash_stake env (mkWorld (staking cw) vs (balance cw)) validator slash_percent in
  Ok (mkSlash (si_emit s (ByzantineFelony validator slashed_amount fc)) cw (snapshots w)).

Definition reset_epoch_counters (s : SlashIndicator) (validators : list Address) : SlashIndicator :=
  foldl (fun s validator => wr_voter_miss_count (wr_proposer_miss_count s validator 0) validator 0) s validators.

Definition get_proposer_miss_count (s : SlashIndicator) (validator : Address) : u64 := rd (proposer_miss_count s) validator.
Definition get_voter_miss_count (s : SlashIndicator) (validator : Address) : u64 := rd (voter_miss_count s) validator.
Definition get_felony_count (s : SlashIndicator) (validator : Address) : u64 := rd (felony_count s) validator.
Definition is_evidence_processed (s : SlashIndicator) (evidence_hash : B256) : bool := rd (evidence_processed s) evidence_hash.

(** ** [hooks.rs] *)

Definition SLASH_GUARD_RETAIN : u64 := 64.

Definition slash_window_voters (w : SlashWorld) (fb_hash : B256) (absentees : list Address) : res SlashWorld :=
  if rd (voter_window_slashed (indicator w)) fb_hash then Ok w else
  let? w := foldM slash_voter w absentees in
  Ok (with_indicator w (wr_voter_window_slashed (indicator w) fb_hash true)).

Definition slash_window_proposers (w : SlashWorld) (fb_hash : B256) (missed : list Address) : res SlashWorld :=
  if rd (proposer_window_slashed (indicator w)) fb_hash then Ok w else
  let? w := foldM slash_proposer w missed in
  Ok (with_indicator w (wr_proposer_window_slashed (indicator w) fb_hash true)).
End Actions.

Definition prune_slash_guards (s : SlashIndicator) (fb_hash : B256) : res SlashIndicator :=
  let seq := slash_guard_ring_seq s in
  let idx := seq mod SLASH_GUARD_RETAIN in
  let evicted := rd (slash_guard_ring s) idx in
  let s :=
    if negb (evicted =? 0) && negb (evicted =? fb_hash) then
      wr_proposer_window_slashed (wr_voter_window_slashed s evicted false) evicted false
    else s in
  let s := wr_slash_guard_ring s idx fb_hash in
  let? next := ok_or (checked_add 64 seq 1) (Revert "slash_guard_ring_seq overflow") in
  Ok (set_slash_guard_ring_seq s next).

(** ** [evidence.rs] *)

(** LEB128, least significant group first. Ten groups cover 64 bits. *)
Fixpoint write_leb128 (fuel : nat) (value : u64) : list Z :=
  match fuel with
  | O => []
  | S fuel =>
      let byte := Z.land value 0x7F in
      let value := Z.shiftr value 7 in
      if value =? 0 then [byte] else Z.lor byte 0x80 :: write_leb128 fuel value
  end.

(** [data] is what follows the cursor; the returned list is what follows it
    afterwards. The shift reaches 64 within ten rounds. *)
Fixpoint read_leb128 (fuel : nat) (data : list Z) (result shift : Z) : res (u64 * list Z) :=
  match fuel with
  | O => Err (Revert "varint overflow")
  | S fuel =>
      match data with
      | [] => Err (Revert "unexpected end of data while reading varint")
      | byte :: data =>
          let result := Z.lor result (Z.shiftl (Z.land byte 0x7F) shift mod 2 ^ 64) in
          if Z.land byte 0x80 =? 0 then Ok (result, data) else
          let shift := shift + 7 in
          if shift >=? 64 then Err (Revert "varint overflow") else read_leb128 fuel data result shift
      end
  end.

Definition LEB128_GROUPS : nat := 10.

Record EvidenceBlock := mkEvidence { ev_pubkey : list Z; ev_signature : list Z; ev_proposal_bytes : list Z }.

Definition parse (data : list Z) : res EvidenceBlock :=
  ensure negb (len data <? 48 + 96 + 1) else Revert "evidence block too short: need at least 145 bytes" in
  Ok (mkEvidence (take 48 data) (take 96 (drop 48 data)) (drop 144 data)).

Definition round (ev : EvidenceBlock) : res (u64 * u64) :=
  let? (epoch, rest) := read_leb128 LEB128_GROUPS (ev_proposal_bytes ev) 0 0 in
  let? (view, _) := read_leb128 LEB128_GROUPS rest 0 0 in
  Ok (epoch, view).

Definition build_signed_payload_with_ns (namespace payload_bytes : list Z) : list Z :=
  (write_leb128 LEB128_GROUPS (len namespace) ++ namespace) ++ payload_bytes.

(** Slice order: lexicographic, a proper prefix first. *)
Fixpoint bytes_leb (l1 l2 : list Z) : bool :=
  match l1, l2 with
  | [], _ => true
  | _ :: _, [] => false
  | x :: l1, y :: l2 => if x <? y then true else if y <? x then false else bytes_leb l1 l2
  end.

(** Third-party code of the vote verifiers: what [bls12381::PublicKey::read]
    accepts, the canonical order of [Set::from_iter_dedup], [blst]'s [verify] with
    the proof-of-possession tag, [PublicKey::verify] of commonware, the encoding
    of a round, and for the threshold signatures the public share a [Sharing] of
    at most so many players gives an index, what decodes as a signature and
    [verify_message]. The chain id is installed once at start-up. *)
Class VoteCrypto := {
  consensus_chain_id : u64;
  public_key_read : list Z -> bool;
  ordered_set : list (list Z) -> list (list Z);
  blst_verify_pop : list Z -> list Z -> list Z -> bool;
  signature_decode : list Z -> bool;
  identity_verify : list Z -> list Z -> list Z -> list Z -> bool;
  round_encode : u64 -> u64 -> list Z;
  sharing_partial_public : u32 -> list Z -> u32 -> option (list Z);
  minsig_decode : list Z -> bool;
  verify_message : list Z -> list Z -> list Z -> list Z -> bool
}.

Section Evidence.
Context `{Crypto} `{VoteCrypto}.
Variable env : BlockEnv.

(** The ASCII bytes of ["outbe"], ["OUTBE_COMMITTEE_V1"], and the namespace suffixes. *)
Definition OUTBE_APP_NAMESPACE_BASE : list Z := [111; 117; 116; 98; 101].
Definition COMMITTEE_COMMITMENT_DOMAIN : list Z := [79; 85; 84; 66; 69; 95; 67; 79; 77; 77; 73; 84; 84; 69; 69; 95; 86; 49].
Definition NOTARIZE_SUFFIX : list Z := [95; 78; 79; 84; 65; 82; 73; 90; 69].
Definition NULLIFY_SUFFIX : list Z := [95; 78; 85; 76; 76; 73; 70; 89].
Definition FINALIZE_SUFFIX : list Z := [95; 70; 73; 78; 65; 76; 73; 90; 69].
Definition SEED_SUFFIX : list Z := [95; 83; 69; 69; 68].
Definition SEEDATTEST_SUFFIX : list Z := [95; 83; 69; 69; 68; 65; 84; 84; 69; 83; 84].

Definition outbe_app_namespace : list Z := OUTBE_APP_NAMESPACE_BASE ++ be_bytes 8 consensus_chain_id.

Definition participant_set_commitment (committee : list (list Z)) : list Z :=
  let buf := COMMITTEE_COMMITMENT_DOMAIN in
  let buf := buf ++ be_bytes 4 (len committee mod 2 ^ 32) in
  let buf := foldl (fun buf pk => buf ++ pk) buf committee in
  be_bytes 32 (keccak256 buf).

Definition sub_namespace (suffix : list Z) : list Z := outbe_app_namespace ++ suffix.
Definition vote_sub_namespace (suffix : list Z) (committee : list (list Z)) : list Z :=
  (outbe_app_namespace ++ suffix) ++ participant_set_commitment committee.
Definition notarize_namespace (committee : list (list Z)) : list Z := vote_sub_namespace NOTARIZE_SUFFIX committee.
Definition nullify_namespace (committee : list (list Z)) : list Z := vote_sub_namespace NULLIFY_SUFFIX committee.
Definition finalize_namespace (committee : list (list Z)) : list Z := vote_sub_namespace FINALIZE_SUFFIX committee.
Definition hybrid_seed_namespace : list Z := sub_namespace SEED_SUFFIX.
Definition seed_namespace_and_message (round_epoch round_view : u64) : list Z * list Z := (hybrid_seed_namespace, round_encode round_epoch round_view).
Definition seed_attest_namespace : list Z := sub_namespace SEEDATTEST_SUFFIX.

Definition verify_bls_signature (ev : EvidenceBlock) (namespace : list Z) : res unit :=
  ensure blst_pk_from_bytes (ev_pubkey ev) else Revert "invalid BLS public key in evidence" in
  ensure blst_sig_from_bytes (ev_signature ev) else Revert "invalid BLS signature in evidence" in
  let signed_payload := build_signed_payload_with_ns namespace (ev_proposal_bytes ev) in
  ensure blst_verify_pop (ev_signature ev) signed_payload (ev_pubkey ev) else Revert "invalid BLS signature in evidence" in
  Ok tt.

Definition verify_notarize_signature (ev : EvidenceBlock) (committee : list (list Z)) : res unit :=
  verify_bls_signature ev (notarize_namespace committee).
Definition verify_nullify_signature (ev : EvidenceBlock) (committee : list (list Z)) : res unit :=
  verify_bls_signature ev (nullify_namespace committee).
Definition verify_finalize_signature (ev : EvidenceBlock) (committee : list (list Z)) : res unit :=
  verify_bls_signature ev (finalize_namespace committee).

Definition pubkey_hash (ev : EvidenceBlock) : B256 := keccak256 (ev_pubkey ev).

Definition canonical_evidence_hash (ev1 ev2 : list Z) : B256 :=
  let '(first, second) := if bytes_leb ev1 ev2 then (ev1, ev2) else (ev2, ev1) in
  keccak256 (first ++ second).

(** ** [runtime.rs]: evidence *)

Definition require_active_submitter (w : SlashWorld) (caller : Address) : res unit :=
  ensure status_of w caller =? status.ACTIVE else Revert "submitter is not an ACTIVE validator" in
  Ok tt.

Definition committee_set_for_epoch (w : SlashWorld) (epoch : u64) : res (list (list Z)) :=
  let? snapshot := ok_or (read_committee_snapshot_for_epoch (snapshots w) epoch)
    (Revert "no committee snapshot for evidence epoch; cannot verify the committee-bound vote signature") in
  let keys := ce_consensus_pubkey <$> cs_committee snapshot in
  ensure forallb public_key_read keys else Revert "invalid committee pubkey in snapshot" in
  Ok (ordered_set keys).

(** The registered validator a key belongs to. *)
Definition lookup_signer (w : SlashWorld) (key_hash : B256) : res Address :=
  let validator_addr := lookup_by_pubkey_hash (valset (chain_world w)) key_hash in
  ensure negb (validator_addr =? 0) else Revert "signer is not a registered validator" in
  Ok validator_addr.

Definition mark_evidence (w : SlashWorld) (h : B256) : SlashWorld := with_indicator w (wr_evidence_processed (indicator w) h true).

Definition submit_double_proposal_evidence (w : SlashWorld) (caller : Address) (block1 block2 : list Z) : res SlashWorld :=
  let? _ := require_active_submitter w caller in
  let? ev1 := parse block1 in
  let? ev2 := parse block2 in
  ensure bool_decide (ev_pubkey ev1 = ev_pubkey ev2) else Revert "evidence blocks must have the same signer" in
  ensure negb (bool_decide (ev_proposal_bytes ev1 = ev_proposal_bytes ev2)) else Revert "proposals must differ for double-proposal evidence" in
  let? round1 := round ev1 in
  let? round2 := round ev2 in
  ensure bool_decide (round1 = round2) else Revert "proposals must be for the same round" in
  let evidence_hash := canonical_evidence_hash block1 block2 in
  ensure negb (rd (evidence_processed (indicator w)) evidence_hash) else Revert "evidence already processed" in
  let? committee := committee_set_for_epoch w (fst round1) in
  let? _ := verify_notarize_signature ev1 committee in
  let? _ := verify_notarize_signature ev2 committee in
  let? validator_addr := lookup_signer w (pubkey_hash ev1) in
  let w := mark_evidence w evidence_hash in
  apply_evidence_felony env w validator_addr caller.

Definition submit_conflicting_vote_evidence (w : SlashWorld) (caller : Address) (vote1 vote2 : list Z) : res SlashWorld :=
  let? _ := require_active_submitter w caller in
  let? ev1 := parse vote1 in
  let? ev2 := parse vote2 in
  ensure bool_decide (ev_pubkey ev1 = ev_pubkey ev2) else Revert "evidence blocks must have the same signer" in
  let? round1 := round ev1 in
  let? round2 := round ev2 in
  ensure bool_decide (round1 = round2) else Revert "votes must be for the same round" in
  let evidence_hash := canonical_evidence_hash vote1 vote2 in
  ensure negb (rd (evidence_processed (indicator w)) evidence_hash) else Revert "evidence already processed" in
  let? committee := committee_set_for_epoch w (fst round1) in
  let valid :=
    (is_ok (verify_notarize_signature ev1 committee) && is_ok (verify_nullify_signature ev2 committee))
    || (is_ok (verify_nullify_signature ev1 committee) && is_ok (verify_notarize_signature ev2 committee)) in
  ensure valid else Revert "evidence must contain one valid notarize and one valid nullify signature" in
  let? validator_addr := lookup_signer w (pubkey_hash ev1) in
  let w := mark_evidence w evidence_hash in
  apply_evidence_felony env w validator_addr caller.

Definition apply_equivocation_felony (w : SlashWorld) (caller : Address) (block1 block2 : list Z) (require_distinct_proposals : bool)
    (verify1 verify2 : EvidenceBlock -> list (list Z) -> res unit) : res SlashWorld :=
  let? _ := require_active_submitter w caller in
  let? ev1 := parse block1 in
  let? ev2 := parse block2 in
  ensure bool_decide (ev_pubkey ev1 = ev_pubkey ev2) else Revert "evidence blocks must have the same signer" in
  let? round1 := round ev1 in
  let? round2 := round ev2 in
  ensure bool_decide (round1 = round2) else Revert "votes must be for the same round" in
  ensure negb (require_distinct_proposals && bool_decide (ev_proposal_bytes ev1 = ev_proposal_bytes ev2))
    else Revert "conflicting votes must be for different proposals" in
  let evidence_hash := canonical_evidence_hash block1 block2 in
  ensure negb (rd (evidence_processed (indicator w)) evidence_hash) else Revert "evidence already processed" in
  let? committee := committee_set_for_epoch w (fst round1) in
  let? _ := verify1 ev1 committee in
  let? _ := verify2 ev2 committee in
  let? validator_addr := lookup_signer w (pubkey_hash ev1) in
  let w := mark_evidence w evidence_hash in
  apply_evidence_felony env w validator_addr caller.

Definition submit_conflicting_notarize_evidence (w : SlashWorld) (caller : Address) (block1 block2 : list Z) : res SlashWorld :=
  apply_equivocation_felony w caller block1 block2 true verify_notarize_signature verify_notarize_signature.
Definition submit_conflicting_finalize_evidence (w : SlashWorld) (caller : Address) (block1 block2 : list Z) : res SlashWorld :=
  apply_equivocation_felony w caller block1 block2 true verify_finalize_signature verify_finalize_signature.
Definition submit_nullify_finalize_evidence (w : SlashWorld) (caller : Address) (nullify_block finalize_block : list Z) : res SlashWorld :=
  apply_equivocation_felony w caller nullify_block finalize_block false verify_nullify_signature verify_finalize_signature.
End Evidence.

(** ** [seed_partial_evidence.rs] *)

(** [data[a..a + n]]; the callers have checked the length. *)
Definition slice (data : list Z) (a n : nat) : list Z := take n (drop a data).

(** The ASCII bytes of ["SPE1"] and ["IPE1"]. *)
Definition SPE1_MAGIC : list Z := [83; 80; 69; 49].
Definition SPE1_VERSION : u8 := 0x01.
Definition SPE1_LEN : Z := 365.
Definition IPE1_MAGIC : list Z := [73; 80; 69; 49].
Definition IPE1_VERSION : u8 := 0x01.
Definition IPE1_PREFIX_LEN : Z := 4 + 1 + 32 + 8 + 8 + 8 + 4 + 48 + 48 + 96 + 4.

Record SeedPartialEquivocationEvidence := mkSPE {
  spe_round_epoch : u64;
  spe_round_view : u64;
  spe_vrf_version : u64;
  spe_signer_pubkey : list Z;
  spe_partial_1 : list Z;
  spe_identity_sig_1 : list Z;
  spe_partial_2 : list Z;
  spe_identity_sig_2 : list Z
}.

Definition spe_decode (data : list Z) : res SeedPartialEquivocationEvidence :=
  ensure len data =? SPE1_LEN else Revert "SPE1 evidence must be exactly 365 bytes" in
  ensure bool_decide (slice data 0 4 = SPE1_MAGIC) else Revert "SPE1 evidence bad magic" in
  ensure bool_decide (slice data 4 1 = [SPE1_VERSION]) else Revert "SPE1 evidence bad version" in
  Ok (mkSPE (from_be_bytes (slice data 5 8)) (from_be_bytes (slice data 13 8)) (from_be_bytes (slice data 21 8))
        (slice data 29 48) (slice data 77 48) (slice data 125 96) (slice data 221 48) (slice data 269 96)).

Record InvalidSeedPartialEvidence := mkIPE {
  ipe_committee_set_hash : B256;
  ipe_round_epoch : u64;
  ipe_round_view : u64;
  ipe_vrf_version : u64;
  ipe_signer_index : u32;
  ipe_signer_pubkey : list Z;
  ipe_partial : list Z;
  ipe_identity_sig : list Z;
  ipe_commitment : list Z
}.

Definition ipe_decode (data : list Z) : res InvalidSeedPartialEvidence :=
  ensure negb (len data <? IPE1_PREFIX_LEN) else Revert "IPE1 evidence too short" in
  ensure bool_decide (slice data 0 4 = IPE1_MAGIC) else Revert "IPE1 evidence bad magic" in
  ensure bool_decide (slice data 4 1 = [IPE1_VERSION]) else Revert "IPE1 evidence bad version" in
  let commitment_len := from_be_bytes (slice data 257 4) in
  ensure 261 + commitment_len <=? len data else Revert "IPE1 commitment length exceeds input" in
  let commitment := slice data 261 (Z.to_nat commitment_len) in
  ensure 261 + commitment_len =? len data else Revert "IPE1 evidence has trailing bytes" in
  Ok (mkIPE (from_be_bytes (slice data 5 32)) (from_be_bytes (slice data 37 8)) (from_be_bytes (slice data 45 8))
        (from_be_bytes (slice data 53 8)) (from_be_bytes (slice data 61 4)) (slice data 65 48) (slice data 113 48)
        (slice data 161 96) commitment).

(** The evidence limits of [OutbeProtocolSchedule]. *)
Record EvidenceSchedule := mkSchedule { invalid_vrf_evidence_max_bytes : Z; invalid_vrf_evidence_max_epoch_lag : u64 }.
Definition default_schedule : EvidenceSchedule := mkSchedule (256 * 1024) 1.

Section SeedPartial.
Context `{Crypto} `{VoteCrypto}.
Variable env : BlockEnv.

Definition spe_pubkey_hash (ev : SeedPartialEquivocationEvidence) : B256 := keccak256 (spe_signer_pubkey ev).
Definition ipe_pubkey_hash (ev : InvalidSeedPartialEvidence) : B256 := keccak256 (ipe_signer_pubkey ev).

Definition spe_dedup_hash (ev : SeedPartialEquivocationEvidence) : B256 :=
  let '(lo, hi) := if bytes_leb (spe_partial_1 ev) (spe_partial_2 ev) then (spe_partial_1 ev, spe_partial_2 ev)
                   else (spe_partial_2 ev, spe_partial_1 ev) in
  keccak256 (SPE1_MAGIC ++ be_bytes 8 (spe_round_epoch ev) ++ be_bytes 8 (spe_round_view ev) ++ be_bytes 8 (spe_vrf_version ev) ++
    spe_signer_pubkey ev ++ lo ++ hi).

Definition ipe_dedup_hash (ev : InvalidSeedPartialEvidence) : B256 :=
  keccak256 (IPE1_MAGIC ++ be_bytes 8 (ipe_round_epoch ev) ++ be_bytes 8 (ipe_round_view ev) ++ be_bytes 8 (ipe_vrf_version ev) ++
    ipe_signer_pubkey ev ++ ipe_partial ev).

Definition seed_partial_attest_message (round_epoch round_view vrf_material_version : u64) (partial_bytes : list Z) : list Z :=
  (round_encode round_epoch round_view ++ be_bytes 8 vrf_material_version) ++ partial_bytes.

Definition verify_seed_partial_attest_bytes (identity_pubkey : list Z) (round_epoch round_view vrf_material_version : u64)
    (partial_bytes signature : list Z) : bool :=
  if negb (public_key_read identity_pubkey) then false else
  if negb (signature_decode signature) then false else
  identity_verify identity_pubkey seed_attest_namespace
    (seed_partial_attest_message round_epoch round_view vrf_material_version partial_bytes) signature.

Definition verify_seed_signature_plain (pk seed_message signature : list Z) : bool := verify_message pk hybrid_seed_namespace seed_message signature.

Definition MAX_VALIDATORS : u32 := 256.

Definition verify_seed_partial_against_commitment (commitment_bytes : list Z) (signer_index : u32) (round_epoch round_view : u64) (partial_bytes : list Z) :
    option bool :=
  match sharing_partial_public MAX_VALIDATORS commitment_bytes signer_index with
  | None => None
  | Some pk_i =>
      if negb (minsig_decode partial_bytes) then None else
      let '(_, seed_message) := seed_namespace_and_message round_epoch round_view in
      Some (verify_seed_signature_plain pk_i seed_message partial_bytes)
  end.

(** The shared epoch-lag check. *)
Definition check_epoch_lag (w : SlashWorld) (round_epoch : u64) (schedule : EvidenceSchedule) : res unit :=
  let current_epoch := epoch_number (valset (chain_world w)) in
  ensure current_epoch <? 2 ^ 64 else Revert "ValidatorSet.epoch_number exceeds u64" in
  let max_acceptable_epoch := saturating_add 64 round_epoch (invalid_vrf_evidence_max_epoch_lag schedule) in
  ensure negb (current_epoch >? max_acceptable_epoch) else Revert "evidence epoch-stale" in
  Ok tt.

Definition submit_seed_partial_equivocation_evidence_with_schedule (w : SlashWorld) (caller : Address) (evidence_bytes : list Z)
    (schedule : EvidenceSchedule) : res SlashWorld :=
  let? _ := require_active_submitter w caller in
  let? ev := spe_decode evidence_bytes in
  ensure negb (bool_decide (spe_partial_1 ev = spe_partial_2 ev)) else Revert "not equivocation: the two partials are identical" in
  let attest := verify_seed_partial_attest_bytes (spe_signer_pubkey ev) (spe_round_epoch ev) (spe_round_view ev) (spe_vrf_version ev) in
  let ok1 := attest (spe_partial_1 ev) (spe_identity_sig_1 ev) in
  let ok2 := attest (spe_partial_2 ev) (spe_identity_sig_2 ev) in
  ensure ok1 && ok2 else Revert "both partials must carry a valid identity signature from the accused signer" in
  let? _ := check_epoch_lag w (spe_round_epoch ev) schedule in
  let? validator_addr := lookup_signer w (spe_pubkey_hash ev) in
  let dedup := spe_dedup_hash ev in
  ensure negb (rd (seed_partial_equivocation_processed (indicator w)) dedup) else Revert "evidence already processed" in
  let w := with_indicator w (wr_seed_partial_equivocation_processed (indicator w) dedup true) in
  let? w := apply_evidence_felony env w validator_addr caller in
  Ok (with_indicator w (si_emit (indicator w)
    (SeedPartialEquivocationApplied validator_addr caller (spe_round_epoch ev) (spe_round_view ev) (spe_vrf_version ev)))).

Definition submit_seed_partial_equivocation_evidence (w : SlashWorld) (caller : Address) (evidence_bytes : list Z) : res SlashWorld :=
  submit_seed_partial_equivocation_evidence_with_schedule w caller evidence_bytes default_schedule.

Definition submit_invalid_seed_partial_evidence_with_schedule (w : SlashWorld) (caller : Address) (evidence_bytes : list Z)
    (schedule : EvidenceSchedule) : res SlashWorld :=
  let? _ := require_active_submitter w caller in
  ensure negb (len evidence_bytes >? invalid_vrf_evidence_max_bytes schedule) else Revert "evidence too large" in
  let? ev := ipe_decode evidence_bytes in
  let? _ := check_epoch_lag w (ipe_round_epoch ev) schedule in
  let? validator_addr := lookup_signer w (ipe_pubkey_hash ev) in
  let snapshot_key := committee_snapshot_key (ipe_round_epoch ev) (ipe_committee_set_hash ev) in
  let? snapshot := ok_or (read_committee_snapshot (snapshots w) snapshot_key)
    (Revert "no committee snapshot for (round_epoch, committee_set_hash)") in
  let? entry := ok_or (cs_committee snapshot !! Z.to_nat (ipe_signer_index ev)) (Revert "signer index out of committee range") in
  ensure bool_decide (ce_consensus_pubkey entry = ipe_signer_pubkey ev) else Revert "signer pubkey does not match committee entry at index" in
  ensure cs_vrf_material_version snapshot =? ipe_vrf_version ev else Revert "vrf material version does not match committee snapshot" in
  ensure negb (cs_vrf_public_polynomial_hash snapshot =? 0) else Revert "committee snapshot has no polynomial commitment" in
  ensure keccak256 (ipe_commitment ev) =? cs_vrf_public_polynomial_hash snapshot
    else Revert "commitment does not match committee snapshot polynomial hash" in
  ensure verify_seed_partial_attest_bytes (ipe_signer_pubkey ev) (ipe_round_epoch ev) (ipe_round_view ev) (ipe_vrf_version ev)
      (ipe_partial ev) (ipe_identity_sig ev)
    else Revert "partial is not identity-signed by the accused signer" in
  match verify_seed_partial_against_commitment (ipe_commitment ev) (ipe_signer_index ev) (ipe_round_epoch ev) (ipe_round_view ev) (ipe_partial ev) with
  | None => Err (Revert "malformed commitment or partial")
  | Some true => Err (Revert "seed partial is valid; nothing to slash")
  | Some false =>
      let dedup := ipe_dedup_hash ev in
      ensure negb (rd (invalid_seed_partial_processed (indicator w)) dedup) else Revert "evidence already processed" in
      let w := with_indicator w (wr_invalid_seed_partial_processed (indicator w) dedup true) in
      let? w := apply_evidence_felony env w validator_addr caller in
      Ok (with_indicator w (si_emit (indicator w)
        (InvalidSeedPartialApplied validator_addr caller (ipe_round_epoch ev) (ipe_round_view ev) (ipe_vrf_version ev))))
  end.

Definition submit_invalid_seed_partial_evidence (w : SlashWorld) (caller : Address) (evidence_bytes : list Z) : res SlashWorld :=
  submit_invalid_seed_partial_evidence_with_schedule w caller evidence_bytes default_schedule.
End SeedPartial.

(** ** [precompile.rs] *)

Inductive EvidenceCall : Type :=
| submitDoubleProposalEvidence (block1 block2 : list Z)
| submitConflictingVoteEvidence (vote1 vote2 : list Z)
| submitConflictingNotarizeEvidence (block1 block2 : list Z)
| submitConflictingFinalizeEvidence (block1 block2 : list Z)
| submitNullifyFinalizeEvidence (nullifyBlock finalizeBlock : list Z)
| submitSeedPartialEquivocationEvidence (evidence : list Z)
| submitInvalidSeedPartialEvidence (evidence : list Z).

(** The evidence arms of [dispatch]. *)
Definition dispatch_evidence `{Crypto} `{VoteCrypto} (env : BlockEnv) (w : SlashWorld) (caller : Address) (value : U256) (call : EvidenceCall) :
    res SlashWorld :=
  ensure value =? 0 else Revert "call does not accept value" in
  match call with
  | submitDoubleProposalEvidence b1 b2 => submit_double_proposal_evidence env w caller b1 b2
  | submitConflictingVoteEvidence v1 v2 => submit_conflicting_vote_evidence env w caller v1 v2
  | submitConflictingNotarizeEvidence b1 b2 => submit_conflicting_notarize_evidence env w caller b1 b2
  | submitConflictingFinalizeEvidence b1 b2 => submit_conflicting_finalize_evidence env w caller b1 b2
  | submitNullifyFinalizeEvidence b1 b2 => submit_nullify_finalize_evidence env w caller b1 b2
  | submitSeedPartialEquivocationEvidence e => submit_seed_partial_equivocation_evidence env w caller e
  | submitInvalidSeedPartialEvidence e => submit_invalid_seed_partial_evidence env w caller e
  end.

(** ** A felony *)

Lemma jail_active env vs a :
  rd (address_to_index vs) a <> 0 -> rd (val_status vs) a = status.ACTIVE ->
  exists vs', jail_validator env vs a = Ok vs' /\ val_status vs' = <[a := status.JAILED]> (val_status vs) /\ registry vs' = registry vs.
Proof.
  intros Hi Hs. unfold jail_validator, punish_validator. rewrite (proj2 (Z.eqb_neq _ _)) by done. cbn [negb]. rewrite Hs. eexists. split; [reflexivity|]. split; reflexivity.
Qed.

(** Only an ACTIVE, EXITING, JAILED, UNBONDING or INACTIVE validator can be jailed. *)
Lemma jail_refused env vs a :
  rd (address_to_index vs) a <> 0 -> rd (val_status vs) a = status.PENDING \/ rd (val_status vs) a = status.REGISTERED ->
  exists e, jail_validator env vs a = Err e.
Proof.
  intros Hi Hs. unfold jail_validator, punish_validator. rewrite (proj2 (Z.eqb_neq _ _)) by done. cbn [negb]. destruct Hs as [-> | ->]; by eexists.
Qed.

Lemma slash_keeps_status env w a p w' x :
  rd (val_status (valset w)) a <> status.ACTIVE -> rd (val_status (valset w)) a <> status.PENDING ->
  slash_stake env w a p = Ok (w', x) -> val_status (valset w') = val_status (valset w).
Proof.
  intros Ha Hp E. unfold slash_stake in E. cbv zeta in E. inv_ok_step E. inv_ok_step E. do 3 inv_ok_step E. inv_ok_step E. inv_ok_step E. apply Ok_inj in E. injection E as <- <-. cbn [valset].
  unfold demote_on_slash. destruct (_ && _ && _); [|reflexivity]. cbv zeta. change (val_status (wr_val_stake ?v _ _)) with (val_status v).
  rewrite (proj2 (Z.eqb_neq _ status.ACTIVE)), (proj2 (Z.eqb_neq _ status.PENDING)) by done. reflexivity.
Qed.

(** What a slash of [a] at [p] percent needs to go through. *)
Record slashable `{Crypto} (env : BlockEnv) (w : World) (L : Address -> list Z) (p : Z) : Prop := {
  sl_world : world_ok w L;
  sl_percent : 0 <= p <= 100;
  sl_delay : exists delay, slashed_withdrawal_delay (staking w) = Ok delay /\ timestamp env + delay < 2 ^ 64;
  sl_exact : rd (balance w) STAKING_ADDRESS * 100 < 2 ^ 256
}.

(** The effect of a felony on the chain state. *)
Record felony_effect (w w' : World) (a : Address) (p x : Z) : Prop := {
  fe_status : val_status (valset w') = <[a := status.JAILED]> (val_status (valset w));
  fe_registry : registry (valset w') = registry (valset w);
  fe_stake : forall b, rd (stake_amount (staking w')) b = rd (stake_amount (staking w)) b - if decide (b = a) then rd (stake_amount (staking w)) a * p / 100 else 0;
  fe_balance : forall b, rd (balance w') b = rd (balance w) b - if decide (b = STAKING_ADDRESS) then x else 0;
  fe_amount : 0 <= x;
  fe_config : withdrawal_config (staking w') = withdrawal_config (staking w)
}.

Lemma slash_loop_config fuel p ct s total cur s' total' : slash_loop fuel p ct s total cur = Ok (s', total') -> withdrawal_config s' = withdrawal_config s.
Proof.
  revert s total cur. induction fuel as [|fuel IH]; intros s total cur; [done|]. cbn [slash_loop]. destruct (cur =? 0); [by intros [= -> ->]|].
  destruct (slash_entry p ct s total (cur - 1)) as [s1 t1] eqn:E1. intros E. rewrite (IH _ _ _ E). unfold slash_entry in E1.
  destruct (negb _); [|by injection E1 as <- _]. destruct (negb (percent_of _ _ =? 0)); destruct (_ <? _); by injection E1 as <- _.
Qed.

Lemma slash_config env w a p w' x : slash_stake env w a p = Ok (w', x) -> withdrawal_config (staking w') = withdrawal_config (staking w).
Proof.
  intros E. unfold slash_stake in E. cbv zeta in E. inv_ok_step E. destruct (slash_active (staking w) a p) as [s1 t1] eqn:E1.
  assert (C1 : withdrawal_config s1 = withdrawal_config (staking w)) by (unfold slash_active in E1; destruct (negb _); by injection E1 as <- _).
  do 2 inv_ok_step E. destruct (slash_loop _ _ _ s1 _ _) as [[s2 t2]|e] eqn:El; [|done]. inv_ok_step E. apply Ok_inj in E. injection E as <- <-. cbn [staking]. by rewrite (slash_loop_config _ _ _ _ _ _ _ _ El).
Qed.

Section Felony.
Context `{Crypto}.

Lemma slash_registry env w a p w' x : slash_stake env w a p = Ok (w', x) -> registry (valset w') = registry (valset w).
Proof.
  intros E. unfold slash_stake in E. cbv zeta in E. do 7 inv_ok_step E. apply Ok_inj in E. injection E as <- <-. cbn [valset]. by rewrite registry_demote_on_slash.
Qed.

Lemma jail_slash_world env w L a p :
  slashable env w L p -> rd (address_to_index (valset w)) a <> 0 -> rd (val_status (valset w)) a = status.ACTIVE ->
  exists vs w' x, jail_validator env (valset w) a = Ok vs /\ slash_stake env (mkWorld (staking w) vs (balance w)) a p = Ok (w', x) /\
    world_ok w' L /\ felony_effect w w' a p x.
Proof.
  intros [Hw Hp (delay & Hd & Ht) Hx] Hi Hs. destruct (jail_active env (valset w) a Hi Hs) as (vs & Ej & Est & Er). exists vs.
  assert (Hw1 : world_ok (mkWorld (staking w) vs (balance w)) L).
  { destruct Hw as (Hq & Hl & Hr). split_and!; [done|done|]. cbn [valset]. by eapply registry_ok_ext. }
  destruct (slash_ok env (mkWorld (staking w) vs (balance w)) L a p delay Hw1 Hp Hd Ht) as (w' & E & Hw' & _ & R1 & _ & _ & _ & R2).
  exists w', (slashed_total p (staking w) (L a) a). split; [done|]. split; [done|]. split; [done|]. split.
  - rewrite <- Est. apply slash_keeps_status in E; [exact E|cbn [valset]; rewrite Est, rd_insert_eq; discriminate..].
  - rewrite (slash_registry _ _ _ _ _ _ E). exact Er.
  - intros b. rewrite R1. cbn [staking]. case_decide; [|done]. rewrite percent_of_exact; [done|..]; destruct Hw as (_ & Hl & _); pose proof (l_stake _ _ Hl a); pose proof (ledger_bounds _ _ a Hl) as (? & ? & ?); [lia|lia|nia].
  - exact R2.
  - destruct Hw as (Hq & Hl & _). pose proof (percent_of_bounds _ p (l_stake _ _ Hl a) Hp). pose proof (slashes_bounds p _ (L a) Hp (q_nonneg _ _ Hq)). unfold slashed_total. lia.
  - exact (slash_config _ _ _ _ _ _ E).
Qed.

Lemma jail_and_slash_spec env w L a :
  slashable env (chain_world w) L (slash_amount_percent (indicator w)) -> rd (address_to_index (valset (chain_world w))) a <> 0 -> status_of w a = status.ACTIVE ->
  exists cw x, jail_and_slash env w a = Ok (mkSlash (indicator w) cw (snapshots w), x) /\ world_ok cw L /\
    felony_effect (chain_world w) cw a (slash_amount_percent (indicator w)) x.
Proof.
  intros Hw Hi Hs. destruct (jail_slash_world env (chain_world w) L a _ Hw Hi Hs) as (vs & cw & x & E1 & E2 & Hcw & Hf).
  exists cw, x. unfold jail_and_slash. rewrite E1, E2. done.
Qed.
End Felony.

(** ** A continuous liveness fault *)

(** Everything of the module but the voter counters, the felony count and the events. *)
Definition si_rest (s : SlashIndicator) :=
  ((config_proposer_misdemeanor_threshold s, config_proposer_felony_threshold s, config_voter_misdemeanor_threshold s,
    config_voter_felony_threshold s, config_slash_amount_percent s, config_evidence_reward_percent s),
   (proposer_miss_count s, evidence_processed s, voter_window_slashed s, proposer_window_slashed s),
   (invalid_vrf_evidence_processed s, seed_partial_equivocation_processed s, invalid_seed_partial_processed s, slash_guard_ring s, slash_guard_ring_seq s)).

(** The module after [n] more misses of [v], [fc] of them felonies. *)
Record missed (v : Address) (n fc : Z) (s s' : SlashIndicator) : Prop := {
  ms_count : forall a, rd (voter_miss_count s') a = rd (voter_miss_count s) a + if decide (a = v) then n else 0;
  ms_felony : forall a, rd (felony_count s') a = rd (felony_count s) a + if decide (a = v) then fc else 0;
  ms_rest : si_rest s' = si_rest s
}.

Lemma missed_threshold v n fc s s' : missed v n fc s s' ->
  voter_felony_threshold s' = voter_felony_threshold s /\ slash_amount_percent s' = slash_amount_percent s.
Proof.
  intros [_ _ E]. unfold si_rest in E. injection E as _ _ _ E1 E2 _ _ _ _ _ _ _ _ _ _. unfold voter_felony_threshold, slash_amount_percent. by rewrite E1, E2.
Qed.

Section Misses.
Context `{Crypto}.
Variable env : BlockEnv.

(** A miss that is no felony only moves the counter. *)
Lemma slash_voter_quiet w v :
  0 <= rd (voter_miss_count (indicator w)) v < 2 ^ 64 - 1 ->
  validator_already_penalized w v = true \/ (rd (voter_miss_count (indicator w)) v + 1) mod voter_felony_threshold (indicator w) <> 0 ->
  exists s', slash_voter env w v = Ok (with_indicator w s') /\ missed v 1 0 (indicator w) s'.
Proof.
  intros Hc Hq. unfold slash_voter. cbv zeta. rewrite (wadd_small 64) by lia. set (c := rd (voter_miss_count (indicator w)) v + 1) in *.
  change (voter_felony_threshold (wr_voter_miss_count ?s _ _)) with (voter_felony_threshold s). change (validator_already_penalized (with_indicator w _) v) with (validator_already_penalized w v).
  assert (Hm : missed v 1 0 (indicator w) (wr_voter_miss_count (indicator w) v c)).
  { split; [|intros a; cbn; case_decide; lia|done]. intros a. cbn [wr_voter_miss_count voter_miss_count]. rewrite rd_insert. unfold c. repeat case_decide; subst; first [lia|congruence]. }
  destruct (validator_already_penalized w v); [by eexists|]. destruct Hq as [?|Hq]; [done|]. rewrite (proj2 (Z.eqb_neq _ 0)) by done. rewrite andb_false_r.
  destruct ((c >? 0) && _); [|by eexists]. eexists. split; [reflexivity|]. destruct Hm as [M1 M2 M3]. by split.
Qed.

(** The miss that reaches the threshold is a felony. *)
Lemma slash_voter_felony w L v :
  0 <= rd (voter_miss_count (indicator w)) v < 2 ^ 64 - 1 -> 0 <= rd (felony_count (indicator w)) v < 2 ^ 64 - 1 ->
  (rd (voter_miss_count (indicator w)) v + 1) mod voter_felony_threshold (indicator w) = 0 ->
  slashable env (chain_world w) L (slash_amount_percent (indicator w)) -> rd (address_to_index (valset (chain_world w))) v <> 0 -> status_of w v = status.ACTIVE ->
  exists s' cw x, slash_voter env w v = Ok (mkSlash s' cw (snapshots w)) /\ missed v 1 1 (indicator w) s' /\ world_ok cw L /\
    felony_effect (chain_world w) cw v (slash_amount_percent (indicator w)) x.
Proof.
  intros Hc Hf Hm Hsl Hi Hs. unfold slash_voter. cbv zeta. rewrite (wadd_small 64) by lia. set (c := rd (voter_miss_count (indicator w)) v + 1) in *.
  change (voter_felony_threshold (wr_voter_miss_count ?s _ _)) with (voter_felony_threshold s). unfold validator_already_penalized. change (status_of (with_indicator w _) v) with (status_of w v).
  rewrite Hs, Hm. change (felony_count (wr_voter_miss_count ?s _ _)) with (felony_count s). rewrite (wadd_small 64) by lia.
  rewrite Z.gtb_ltb, (proj2 (Z.ltb_lt 0 c)) by lia. cbn [Z.eqb status.ACTIVE status.JAILED status.EXITING Pos.eqb orb andb].
  change (with_indicator (with_indicator w ?a) ?b) with (with_indicator w b). set (s1 := wr_felony_count _ v _). destruct (jail_and_slash_spec env (with_indicator w s1) L v Hsl Hi Hs) as (cw & x & -> & Hw & Hfe). cbn [indicator].
  exists (si_emit s1 (VoterFelony v c (rd (felony_count (indicator w)) v + 1))), cw, x. split; [done|]. split; [|done]. split; [| |done].
  - intros a. cbn [s1 si_emit wr_felony_count wr_voter_miss_count voter_miss_count]. rewrite rd_insert. unfold c. repeat case_decide; subst; first [lia|congruence].
  - intros a. cbn [s1 si_emit wr_felony_count wr_voter_miss_count felony_count]. rewrite rd_insert. repeat case_decide; subst; first [lia|congruence].
Qed.

Lemma missed_refl v s : missed v 0 0 s s.
Proof. split; [intros a; case_decide; lia..|done]. Qed.

Lemma missed_trans v n1 f1 n2 f2 s1 s2 s3 : missed v n1 f1 s1 s2 -> missed v n2 f2 s2 s3 -> missed v (n1 + n2) (f1 + f2) s1 s3.
Proof.
  intros [A1 A2 A3] [B1 B2 B3]. split; [intros a; rewrite B1, A1; case_decide; lia|intros a; rewrite B2, A2; case_decide; lia|by rewrite B3].
Qed.

(** Misses of a penalised validator, or below the threshold, are only counted. *)
Lemma run_quiet v n : forall w,
  0 <= rd (voter_miss_count (indicator w)) v -> rd (voter_miss_count (indicator w)) v + Z.of_nat n < 2 ^ 64 ->
  validator_already_penalized w v = true \/ rd (voter_miss_count (indicator w)) v + Z.of_nat n < voter_felony_threshold (indicator w) ->
  exists s', foldM (slash_voter env) w (replicate n v) = Ok (with_indicator w s') /\ missed v (Z.of_nat n) 0 (indicator w) s'.
Proof.
  induction n as [|n IH]; intros w H0 Hn Hq; [exists (indicator w); split; [by destruct w|apply missed_refl]|]. cbn [replicate foldM].
  destruct (slash_voter_quiet w v) as (s1 & E1 & M1); [lia|destruct Hq as [?|Hq]; [by left|right; rewrite Z.mod_small by lia; lia]|]. rewrite E1.
  pose proof (ms_count _ _ _ _ _ M1 v) as C1. rewrite decide_True in C1 by done. destruct (missed_threshold _ _ _ _ _ M1) as [T1 _].
  destruct (IH (with_indicator w s1)) as (s2 & E2 & M2); cbn [indicator with_indicator] in *; [lia|lia|destruct Hq as [?|Hq]; [by left|right; lia]|].
  exists s2. split; [exact E2|]. replace (Z.of_nat (S n)) with (1 + Z.of_nat n) by lia. exact (missed_trans v 1 0 _ 0 _ _ _ M1 M2).
Qed.

(** C28. A continuous liveness fault is punished exactly once. However many
    consecutive finalize votes an ACTIVE validator with a clear counter misses,
    every miss is counted and the pass never fails; below the felony threshold
    nothing else changes, and from the threshold on the validator is JAILED, its
    felony count has grown by one, its stake has lost the configured percentage
    once, and the staking account has been debited once. *)
Theorem liveness_fault_punished_once w L v n :
  slashable env (chain_world w) L (slash_amount_percent (indicator w)) -> rd (address_to_index (valset (chain_world w))) v <> 0 -> status_of w v = status.ACTIVE ->
  rd (voter_miss_count (indicator w)) v = 0 -> 0 < voter_felony_threshold (indicator w) -> Z.of_nat n < 2 ^ 64 -> 0 <= rd (felony_count (indicator w)) v < 2 ^ 64 - 1 ->
  let felony := voter_felony_threshold (indicator w) <=? Z.of_nat n in
  exists w', foldM (slash_voter env) w (replicate n v) = Ok w' /\ world_ok (chain_world w') L /\
    missed v (Z.of_nat n) (if felony then 1 else 0) (indicator w) (indicator w') /\
    (if felony then exists x, felony_effect (chain_world w) (chain_world w') v (slash_amount_percent (indicator w)) x
     else chain_world w' = chain_world w).
Proof.
  intros Hsl Hi Hs Hc0 HT Hn Hf. cbv zeta. set (T := voter_felony_threshold (indicator w)) in *. destruct (Z.leb_spec T (Z.of_nat n)) as [Hle|Hlt].
  - assert (En : exists k m, n = (k + (1 + m))%nat /\ Z.of_nat k + 1 = T) by (exists (Z.to_nat (T - 1)), (n - Z.to_nat T)%nat; lia). destruct En as (k & m & -> & Ek).
    rewrite !replicate_add. cbn [replicate app]. rewrite foldM_app. destruct (run_quiet v k w) as (s1 & E1 & M1); [lia|lia|right; fold T; lia|]. rewrite E1. cbn [foldM].
    pose proof (ms_count _ _ _ _ _ M1 v) as C1. pose proof (ms_felony _ _ _ _ _ M1 v) as F1. rewrite decide_True in C1, F1 by done. destruct (missed_threshold _ _ _ _ _ M1) as [T1 P1]. fold T in T1.
    destruct (slash_voter_felony (with_indicator w s1) L v) as (s2 & cw & x & E2 & M2 & Hw & Hfe); cbn [indicator with_indicator chain_world snapshots] in *;
      [lia|lia|rewrite C1, Hc0, T1; replace (0 + Z.of_nat k + 1) with T by lia; apply Z.mod_same; lia|by rewrite P1|done|done|].
    rewrite E2. pose proof (ms_count _ _ _ _ _ M2 v) as C2. rewrite decide_True in C2 by done.
    assert (Hpen : validator_already_penalized (mkSlash s2 cw (snapshots w)) v = true).
    { unfold validator_already_penalized, status_of. cbn [chain_world]. by rewrite (fe_status _ _ _ _ _ Hfe), rd_insert_eq. }
    destruct (run_quiet v m (mkSlash s2 cw (snapshots w))) as (s3 & E3 & M3); cbn [indicator] in *; [lia|lia|by left|]. rewrite E3. eexists. split; [done|]. cbn [chain_world indicator with_indicator].
    split; [done|]. split; [|exists x; by rewrite P1 in Hfe]. replace (Z.of_nat (k + (1 + m))) with (Z.of_nat k + 1 + Z.of_nat m) by lia.
    exact (missed_trans v (Z.of_nat k + 1) 1 (Z.of_nat m) 0 _ _ _ (missed_trans v (Z.of_nat k) 0 1 1 _ _ _ M1 M2) M3).
  - destruct (run_quiet v n w) as (s1 & E1 & M1); [lia|lia|right; fold T; lia|]. eexists. split; [exact E1|]. split; [apply Hsl|]. by split.
Qed.

(** A miss at the felony threshold of a validator that is PENDING or
    REGISTERED (for instance one that was jailed, has unjailed itself and is still
    in the committee of the epoch) makes the whole window pass fail: the jailing
    is refused and the error is passed on, for every position of the validator in
    the list of absentees. *)
Theorem pending_absentee_blocks_window w w1 fb_hash before v after :
  rd (voter_window_slashed (indicator w)) fb_hash = false -> foldM (slash_voter env) w before = Ok w1 ->
  rd (address_to_index (valset (chain_world w1))) v <> 0 -> status_of w1 v = status.PENDING \/ status_of w1 v = status.REGISTERED ->
  0 <= rd (voter_miss_count (indicator w1)) v < 2 ^ 64 - 1 -> (rd (voter_miss_count (indicator w1)) v + 1) mod voter_felony_threshold (indicator w1) = 0 ->
  exists e, slash_window_voters env w fb_hash (before ++ v :: after) = Err e.
Proof.
  intros Hg Hb Hi Hs Hc Hm. unfold slash_window_voters. rewrite Hg, foldM_app, Hb. cbn [foldM].
  enough (E : exists e, slash_voter env w1 v = Err e) by (destruct E as [e ->]; by exists e). unfold slash_voter. cbv zeta. rewrite (wadd_small 64) by lia.
  set (c := rd (voter_miss_count (indicator w1)) v + 1) in *. change (voter_felony_threshold (wr_voter_miss_count ?s _ _)) with (voter_felony_threshold s). rewrite Hm.
  rewrite Z.gtb_ltb, (proj2 (Z.ltb_lt 0 c)) by lia. unfold validator_already_penalized. change (status_of (with_indicator w1 _) v) with (status_of w1 v).
  assert (Hnp : (status_of w1 v =? status.JAILED) || (status_of w1 v =? status.EXITING) = false) by (destruct Hs as [-> | ->]; reflexivity). rewrite Hnp. cbn [Z.eqb andb].
  unfold jail_and_slash. cbn [chain_world with_indicator]. destruct (jail_refused env (valset (chain_world w1)) v Hi Hs) as [e ->]. by exists e.
Qed.
End Misses.

(** ** Evidence *)

Lemma bytes_leb_total l1 l2 : bytes_leb l1 l2 = false -> bytes_leb l2 l1 = true.
Proof.
  revert l2. induction l1 as [|x l1 IH]; intros [|y l2]; try done. cbn [bytes_leb]. destruct (Z.ltb_spec x y); [done|]. destruct (Z.ltb_spec y x); [done|]. apply IH.
Qed.

Lemma bytes_leb_antisym l1 l2 : bytes_leb l1 l2 = true -> bytes_leb l2 l1 = true -> l1 = l2.
Proof.
  revert l2. induction l1 as [|x l1 IH]; intros [|y l2]; try done. cbn [bytes_leb]. destruct (Z.ltb_spec x y), (Z.ltb_spec y x); try done; [lia|].
  intros E1 E2. f_equal; [lia|by apply IH].
Qed.

Inductive EvidenceClass : Type := VotePair | SeedEquivocation | InvalidPartial.

(** The guard a class of evidence uses. *)
Definition processed (w : SlashWorld) (k : EvidenceClass * B256) : bool :=
  match fst k with
  | VotePair => rd (evidence_processed (indicator w)) (snd k)
  | SeedEquivocation => rd (seed_partial_equivocation_processed (indicator w)) (snd k)
  | InvalidPartial => rd (invalid_seed_partial_processed (indicator w)) (snd k)
  end.

Section EvidenceProofs.
Context `{Crypto} `{VoteCrypto}.

Lemma canonical_evidence_hash_comm a b : canonical_evidence_hash a b = canonical_evidence_hash b a.
Proof.
  unfold canonical_evidence_hash. destruct (bytes_leb a b) eqn:E1, (bytes_leb b a) eqn:E2; try done; [by rewrite (bytes_leb_antisym a b E1 E2)|].
  apply bytes_leb_total in E1. congruence.
Qed.

(** The guard key of a submission. *)
Definition evidence_key (call : EvidenceCall) : option (EvidenceClass * B256) :=
  match call with
  | submitDoubleProposalEvidence a b | submitConflictingVoteEvidence a b | submitConflictingNotarizeEvidence a b
  | submitConflictingFinalizeEvidence a b | submitNullifyFinalizeEvidence a b => Some (VotePair, canonical_evidence_hash a b)
  | submitSeedPartialEquivocationEvidence e => match spe_decode e with Ok ev => Some (SeedEquivocation, spe_dedup_hash ev) | Err _ => None end
  | submitInvalidSeedPartialEvidence e => match ipe_decode e with Ok ev => Some (InvalidPartial, ipe_dedup_hash ev) | Err _ => None end
  end.

(** The two votes of a vote-pair submission. *)
Definition reported_votes (call : EvidenceCall) : option (list Z * list Z) :=
  match call with
  | submitDoubleProposalEvidence a b | submitConflictingVoteEvidence a b | submitConflictingNotarizeEvidence a b
  | submitConflictingFinalizeEvidence a b | submitNullifyFinalizeEvidence a b => Some (a, b)
  | submitSeedPartialEquivocationEvidence _ | submitInvalidSeedPartialEvidence _ => None
  end.

Lemma reported_votes_key call a b : reported_votes call = Some (a, b) -> evidence_key call = Some (VotePair, canonical_evidence_hash a b).
Proof. destruct call; intros [=]; by subst. Qed.

(** Two votes of one signer for one round, checked under the committee of its epoch. *)
Definition vote_pair (w : SlashWorld) (a b : list Z) (validator : Address) (good : EvidenceBlock -> EvidenceBlock -> list (list Z) -> Prop) : Prop :=
  exists ev1 ev2 r committee, parse a = Ok ev1 /\ parse b = Ok ev2 /\ ev_pubkey ev1 = ev_pubkey ev2 /\ round ev1 = Ok r /\ round ev2 = Ok r /\
    committee_set_for_epoch w (fst r) = Ok committee /\ good ev1 ev2 committee /\ lookup_signer w (pubkey_hash ev1) = Ok validator.

(** What a submission proves about the accused. *)
Definition proves_fault (w : SlashWorld) (call : EvidenceCall) (validator : Address) : Prop :=
  match call with
  | submitDoubleProposalEvidence a b | submitConflictingNotarizeEvidence a b =>
      vote_pair w a b validator (fun ev1 ev2 c => ev_proposal_bytes ev1 <> ev_proposal_bytes ev2 /\ verify_notarize_signature ev1 c = Ok tt /\ verify_notarize_signature ev2 c = Ok tt)
  | submitConflictingFinalizeEvidence a b =>
      vote_pair w a b validator (fun ev1 ev2 c => ev_proposal_bytes ev1 <> ev_proposal_bytes ev2 /\ verify_finalize_signature ev1 c = Ok tt /\ verify_finalize_signature ev2 c = Ok tt)
  | submitNullifyFinalizeEvidence a b =>
      vote_pair w a b validator (fun ev1 ev2 c => verify_nullify_signature ev1 c = Ok tt /\ verify_finalize_signature ev2 c = Ok tt)
  | submitConflictingVoteEvidence a b =>
      vote_pair w a b validator (fun ev1 ev2 c => (verify_notarize_signature ev1 c = Ok tt /\ verify_nullify_signature ev2 c = Ok tt) \/
                                                  (verify_nullify_signature ev1 c = Ok tt /\ verify_notarize_signature ev2 c = Ok tt))
  | submitSeedPartialEquivocationEvidence e =>
      exists ev, spe_decode e = Ok ev /\ spe_partial_1 ev <> spe_partial_2 ev /\ lookup_signer w (spe_pubkey_hash ev) = Ok validator /\
        let attest := verify_seed_partial_attest_bytes (spe_signer_pubkey ev) (spe_round_epoch ev) (spe_round_view ev) (spe_vrf_version ev) in
        attest (spe_partial_1 ev) (spe_identity_sig_1 ev) = true /\ attest (spe_partial_2 ev) (spe_identity_sig_2 ev) = true
  | submitInvalidSeedPartialEvidence e =>
      exists ev snapshot entry, ipe_decode e = Ok ev /\ lookup_signer w (ipe_pubkey_hash ev) = Ok validator /\
        read_committee_snapshot (snapshots w) (committee_snapshot_key (ipe_round_epoch ev) (ipe_committee_set_hash ev)) = Some snapshot /\
        cs_committee snapshot !! Z.to_nat (ipe_signer_index ev) = Some entry /\ ce_consensus_pubkey entry = ipe_signer_pubkey ev /\
        keccak256 (ipe_commitment ev) = cs_vrf_public_polynomial_hash snapshot /\
        verify_seed_partial_attest_bytes (ipe_signer_pubkey ev) (ipe_round_epoch ev) (ipe_round_view ev) (ipe_vrf_version ev) (ipe_partial ev) (ipe_identity_sig ev) = true /\
        verify_seed_partial_against_commitment (ipe_commitment ev) (ipe_signer_index ev) (ipe_round_epoch ev) (ipe_round_view ev) (ipe_partial ev) = Some false
  end.

(** An evidence felony leaves the guards and the snapshots alone and counts one felony of the accused. *)
Lemma apply_evidence_felony_inv env w v c w' : apply_evidence_felony env w v c = Ok w' ->
  (forall k, processed w' k = processed w k) /\ felony_count (indicator w') = <[v := wadd 64 (rd (felony_count (indicator w)) v) 1]> (felony_count (indicator w)).
Proof.
  unfold apply_evidence_felony. intros E. cbv zeta in E. inv_ok_step E. inv_ok_step E. inv_ok_step E. apply Ok_inj in E. rewrite <- E. cbn [indicator]. split; [|reflexivity].
  intros [[] h]; reflexivity.
Qed.
Ltac destruct_or_unit := repeat match goal with u : unit |- _ => destruct u end.

(** What one accepted submission did: the accused, the guard before and after, the felony counted. *)
Definition felony_applied (w w' : SlashWorld) (k : EvidenceClass * B256) (validator : Address) : Prop :=
  processed w k = false /\ processed w' k = true /\ (forall k', k' <> k -> processed w' k' = processed w k') /\
  felony_count (indicator w') = <[validator := wadd 64 (rd (felony_count (indicator w)) validator) 1]> (felony_count (indicator w)).

Lemma marked_felony_applied env w w1 k v c w' :
  processed w k = false -> felony_count (indicator w1) = felony_count (indicator w) ->
  processed w1 k = true -> (forall k', k' <> k -> processed w1 k' = processed w k') -> apply_evidence_felony env w1 v c = Ok w' -> felony_applied w w' k v.
Proof.
  intros Hk Hf H1 Hne E. apply apply_evidence_felony_inv in E as [Hp Hc]. split; [done|]. rewrite Hp, Hc, Hf. split; [done|]. split; [|done].
  intros k' ?. rewrite Hp. by apply Hne.
Qed.

Ltac solve_marked w :=
  let Hk := fresh in let Hne := fresh in let Heq := fresh in
  intros Hk; apply (marked_felony_applied _ w); [done|reflexivity|apply rd_insert_eq|]; intros [[] ?] Hne; try reflexivity;
  apply rd_insert_ne; intros Heq; cbn [snd] in Heq; congruence.

Lemma mark_evidence_applied env w h v c w' :
  rd (evidence_processed (indicator w)) h = false -> apply_evidence_felony env (mark_evidence w h) v c = Ok w' -> felony_applied w w' (VotePair, h) v.
Proof. solve_marked w. Qed.

Lemma mark_seed_applied env w h v c w' :
  rd (seed_partial_equivocation_processed (indicator w)) h = false ->
  apply_evidence_felony env (with_indicator w (wr_seed_partial_equivocation_processed (indicator w) h true)) v c = Ok w' ->
  felony_applied w w' (SeedEquivocation, h) v.
Proof. solve_marked w. Qed.

Lemma mark_invalid_applied env w h v c w' :
  rd (invalid_seed_partial_processed (indicator w)) h = false ->
  apply_evidence_felony env (with_indicator w (wr_invalid_seed_partial_processed (indicator w) h true)) v c = Ok w' ->
  felony_applied w w' (InvalidPartial, h) v.
Proof. solve_marked w. Qed.

Lemma vote_pair_impl w a b v (good1 good2 : EvidenceBlock -> EvidenceBlock -> list (list Z) -> Prop) :
  (forall e1 e2 c, good1 e1 e2 c -> good2 e1 e2 c) -> vote_pair w a b v good1 -> vote_pair w a b v good2.
Proof. intros Hi (e1 & e2 & r & c & ? & ? & ? & ? & ? & ? & Hg & ?). exists e1, e2, r, c. split_and!; try done. by apply Hi. Qed.

Lemma require_active_Ok w c u : require_active_submitter w c = Ok u -> status_of w c = status.ACTIVE.
Proof. unfold require_active_submitter. destruct (Z.eqb_spec (status_of w c) status.ACTIVE); [done|discriminate]. Qed.

Lemma equivocation_sound env w c a b distinct v1 v2 w' :
  apply_equivocation_felony env w c a b distinct v1 v2 = Ok w' ->
  status_of w c = status.ACTIVE /\ exists v, felony_applied w w' (VotePair, canonical_evidence_hash a b) v /\
    vote_pair w a b v (fun ev1 ev2 cm => (distinct = true -> ev_proposal_bytes ev1 <> ev_proposal_bytes ev2) /\ v1 ev1 cm = Ok tt /\ v2 ev2 cm = Ok tt).
Proof.
  unfold apply_equivocation_felony. intros E. repeat inv_ok_step E. apply require_active_Ok in E0. split; [done|].
  apply bool_decide_eq_true in E3, E6. apply negb_true_iff in E7, E8. destruct_or_unit.
  exists a8. split; [exact (mark_evidence_applied _ _ _ _ _ _ E8 E)|]. exists a1, a2, a3, a5. subst a4. split_and!; try done.
  intros ->. by apply bool_decide_eq_false in E7.
Qed.

Lemma double_proposal_sound env w c a b w' :
  submit_double_proposal_evidence env w c a b = Ok w' ->
  status_of w c = status.ACTIVE /\ exists v, felony_applied w w' (VotePair, canonical_evidence_hash a b) v /\
    proves_fault w (submitDoubleProposalEvidence a b) v.
Proof.
  unfold submit_double_proposal_evidence. intros E. repeat inv_ok_step E. apply require_active_Ok in E0. split; [done|].
  apply bool_decide_eq_true in E3, E7. apply negb_true_iff in E4, E8. apply bool_decide_eq_false in E4. destruct_or_unit.
  exists a8. split; [exact (mark_evidence_applied _ _ _ _ _ _ E8 E)|]. exists a1, a2, a3, a5. subst a4. by split_and!.
Qed.

Lemma conflicting_vote_sound env w c a b w' :
  submit_conflicting_vote_evidence env w c a b = Ok w' ->
  status_of w c = status.ACTIVE /\ exists v, felony_applied w w' (VotePair, canonical_evidence_hash a b) v /\
    proves_fault w (submitConflictingVoteEvidence a b) v.
Proof.
  unfold submit_conflicting_vote_evidence. intros E. repeat inv_ok_step E. apply require_active_Ok in E0. split; [done|].
  apply bool_decide_eq_true in E3, E6. apply negb_true_iff in E7.
  exists a6. split; [exact (mark_evidence_applied _ _ _ _ _ _ E7 E)|]. exists a1, a2, a3, a5. subst a4. split_and!; try done.
  apply orb_true_iff in E9 as [E9|E9]; apply andb_true_iff in E9 as [? ?]; [left|right]; split; by apply is_ok_unit.
Qed.

Lemma seed_equivocation_sound env w c e w' :
  submit_seed_partial_equivocation_evidence env w c e = Ok w' ->
  status_of w c = status.ACTIVE /\ exists v k, evidence_key (submitSeedPartialEquivocationEvidence e) = Some k /\ felony_applied w w' k v /\
    proves_fault w (submitSeedPartialEquivocationEvidence e) v.
Proof.
  unfold submit_seed_partial_equivocation_evidence, submit_seed_partial_equivocation_evidence_with_schedule. intros E. repeat inv_ok_step E.
  apply require_active_Ok in E0. apply negb_true_iff in E2, E6. apply bool_decide_eq_false in E2. apply andb_true_iff in E3. split; [done|].
  exists a2, (SeedEquivocation, spe_dedup_hash a0). cbn [evidence_key]. rewrite E1. split; [done|]. split; [|by exists a0].
  exact (mark_seed_applied _ _ _ _ _ _ E6 E7).
Qed.

Lemma invalid_partial_sound env w c e w' :
  submit_invalid_seed_partial_evidence env w c e = Ok w' ->
  status_of w c = status.ACTIVE /\ exists v k, evidence_key (submitInvalidSeedPartialEvidence e) = Some k /\ felony_applied w w' k v /\
    proves_fault w (submitInvalidSeedPartialEvidence e) v.
Proof.
  unfold submit_invalid_seed_partial_evidence, submit_invalid_seed_partial_evidence_with_schedule. intros E. do 12 inv_ok_step E.
  destruct (verify_seed_partial_against_commitment _ _ _ _ _) as [[]|] eqn:Ev; [discriminate E| |discriminate E]. repeat inv_ok_step E.
  apply require_active_Ok in E0. apply ok_or_Ok in E5, E6. apply bool_decide_eq_true in E7. apply Z.eqb_eq in E10. apply negb_true_iff in E12. split; [done|].
  exists a2, (InvalidPartial, ipe_dedup_hash a0). cbn [evidence_key]. rewrite E2. split; [done|]. split; [|by exists a0, a3, a4].
  exact (mark_invalid_applied _ _ _ _ _ _ E12 E13).
Qed.

Lemma evidence_accepted env w c value call w' : dispatch_evidence env w c value call = Ok w' ->
  value = 0 /\ status_of w c = status.ACTIVE /\ exists v k, evidence_key call = Some k /\ felony_applied w w' k v /\ proves_fault w call v.
Proof.
  unfold dispatch_evidence. intros E. destruct (Z.eqb_spec value 0) as [Hv|]; [|discriminate E]. split; [done|]. destruct call.
  - apply double_proposal_sound in E as [? (v & ? & ?)]. split; [done|]. by exists v, (VotePair, canonical_evidence_hash block1 block2).
  - apply conflicting_vote_sound in E as [? (v & ? & ?)]. split; [done|]. by exists v, (VotePair, canonical_evidence_hash vote1 vote2).
  - apply equivocation_sound in E as [? (v & ? & Hp)]. split; [done|]. exists v, (VotePair, canonical_evidence_hash block1 block2).
    split_and!; [done..|]. revert Hp. apply vote_pair_impl. naive_solver.
  - apply equivocation_sound in E as [? (v & ? & Hp)]. split; [done|]. exists v, (VotePair, canonical_evidence_hash block1 block2).
    split_and!; [done..|]. revert Hp. apply vote_pair_impl. naive_solver.
  - apply equivocation_sound in E as [? (v & ? & Hp)]. split; [done|]. exists v, (VotePair, canonical_evidence_hash nullifyBlock finalizeBlock).
    split_and!; [done..|]. revert Hp. apply vote_pair_impl. naive_solver.
  - by apply seed_equivocation_sound in E.
  - by apply invalid_partial_sound in E.
Qed.

(** C27. An evidence call that is accepted carries no value, comes from an ACTIVE validator and proves the fault it reports: both votes are by
    one registered signer for one round and verify under the committee stored for that round's epoch (with different proposals where the class
    asks for it), or both seed partials are signed by the accused and differ, or the signed partial fails against the polynomial the committee snapshot
    commits to.  It counts exactly one felony, against that signer, and spends exactly one guard key: whoever submits, in whatever block, the
    same material again in the same class of evidence is refused, and for the vote pairs so is the pair in the other order or under another of
    the vote methods. *)
Theorem evidence_sound env w caller value call w' : dispatch_evidence env w caller value call = Ok w' ->
  value = 0 /\ status_of w caller = status.ACTIVE /\
  (exists validator k, evidence_key call = Some k /\ proves_fault w call validator /\ felony_applied w w' k validator) /\
  (forall env2 caller2 value2 call2, evidence_key call2 = evidence_key call -> exists e, dispatch_evidence env2 w' caller2 value2 call2 = Err e) /\
  (forall a b env2 caller2 value2 call2, reported_votes call = Some (a, b) -> reported_votes call2 = Some (b, a) ->
     exists e, dispatch_evidence env2 w' caller2 value2 call2 = Err e).
Proof.
  intros E. apply evidence_accepted in E as (Hv & Hs & v & k & Hk & Ha & Hp). split; [done|]. split; [done|]. split; [by exists v, k|].
  assert (Hrej : forall env2 caller2 value2 call2, evidence_key call2 = evidence_key call -> exists e, dispatch_evidence env2 w' caller2 value2 call2 = Err e).
  { intros env2 c2 v2 call2 Hk2. destruct (dispatch_evidence env2 w' c2 v2 call2) as [w2|e] eqn:E2; [|by exists e].
    apply evidence_accepted in E2 as (_ & _ & v' & k' & Hk' & (Hno & _) & _). destruct Ha as (_ & Hyes & _). congruence. }
  split; [exact Hrej|]. intros a b env2 c2 v2 call2 H1 H2. apply Hrej.
  rewrite (reported_votes_key _ _ _ H1), (reported_votes_key _ _ _ H2). by rewrite canonical_evidence_hash_comm.
Qed.
End EvidenceProofs.

(** ** Concrete runs *)

Definition sample_indicator : SlashIndicator := mkSI 0 0 0 10 0 ∅ ∅ ∅ ∅ ∅ ∅ ∅ 2 ∅ ∅ ∅ 0 [].
Definition sample_slash : SlashWorld := mkSlash sample_indicator sample_world empty_store.

Lemma sample_slashable : @slashable sample_crypto sample_env (chain_world sample_slash) sample_entries 10.
Proof.
  split; [exact sample_world_ok|lia| |].
  - exists 200. split; vm_compute; reflexivity.
  - assert (Hb : rd (balance sample_world) STAKING_ADDRESS = 5000) by (vm_compute; reflexivity). change (rd (balance sample_world) STAKING_ADDRESS * 100 < 2 ^ 256). rewrite Hb. reflexivity.
Qed.

Lemma liveness_fault_punished_once_witness :
  exists w', foldM (slash_voter sample_env) sample_slash (replicate 5 5) = Ok w' /\
    rd (voter_miss_count (indicator w')) 5 = 5 /\ rd (felony_count (indicator w')) 5 = 1 /\ status_of w' 5 = status.JAILED /\
    rd (stake_amount (staking (chain_world w'))) 5 = 2700.
Proof.
  assert (Hs : status_of sample_slash 5 = status.ACTIVE) by (vm_compute; reflexivity). assert (Hi : rd (address_to_index (valset (chain_world sample_slash))) 5 <> 0) by (vm_compute; discriminate).
  assert (Hst : rd (stake_amount (staking sample_world)) 5 = 3000) by (vm_compute; reflexivity).
  destruct (@liveness_fault_punished_once sample_crypto sample_env sample_slash sample_entries 5 5%nat sample_slashable Hi Hs eq_refl eq_refl eq_refl) as (w' & E & _ & M & x & F).
  { split; [discriminate|reflexivity]. }
  exists w'. split; [exact E|]. destruct M as [M1 M2 _]. rewrite M1, M2. split; [reflexivity|]. split; [reflexivity|]. destruct F as [F1 _ F3 _]. split.
  - unfold status_of. rewrite F1. apply rd_insert_eq.
  - rewrite F3. change (rd (stake_amount (staking (chain_world sample_slash))) 5) with (rd (stake_amount (staking sample_world)) 5). rewrite Hst. reflexivity.
Defined.

(** Validator 5 misses twice and is jailed, unjails itself and misses again. *)
Definition sample_unjailed_run : res SlashWorld :=
  let? w := foldM (slash_voter sample_env) sample_slash [5; 5] in
  let? cw := unjail_validator sample_env (chain_world w) 5 in
  foldM (slash_voter sample_env) (mkSlash (indicator w) cw (snapshots w)) [5].
Definition sample_unjailed : SlashWorld := match sample_unjailed_run with Ok w => w | Err _ => sample_slash end.

Lemma pending_absentee_blocks_window_witness :
  sample_unjailed_run = Ok sample_unjailed /\ exists e, slash_window_voters sample_env sample_unjailed 77 [5] = Err e.
Proof.
  split; [vm_compute; reflexivity|]. apply (pending_absentee_blocks_window sample_env sample_unjailed sample_unjailed 77 [] 5 []).
  - vm_compute. reflexivity.
  - reflexivity.
  - vm_compute. discriminate.
  - left. vm_compute. reflexivity.
  - split; vm_compute; [discriminate|reflexivity].
  - vm_compute. reflexivity.
Defined.

(** A toy signature: the byte sum of key and message. *)
Definition sample_sign (pk msg : list Z) : list Z := be_bytes 96 (lsum pk + lsum msg).
Definition sample_vote_crypto : VoteCrypto := {|
  consensus_chain_id := 9;
  public_key_read := fun _ => true;
  ordered_set := fun l => l;
  blst_verify_pop := fun sig msg pk => bool_decide (sig = sample_sign pk msg);
  signature_decode := fun _ => true;
  identity_verify := fun _ _ _ _ => false;
  round_encode := fun e v => be_bytes 8 e ++ be_bytes 8 v;
  sharing_partial_public := fun _ _ _ => None;
  minsig_decode := fun _ => true;
  verify_message := fun _ _ _ _ => false
|}.

#[local] Existing Instances sample_crypto sample_vote_crypto.

(** Epoch 2 has validators 5 and 7 as its committee; validator 5 notarizes two proposals of view 3. *)
Definition sample_committee : list (list Z) := [replicate 48 5; replicate 48 7].
Definition sample_evidence_world : SlashWorld :=
  mkSlash sample_indicator sample_world
    (fst (write_committee_snapshot empty_store 2 (mkSnapshot [mkEntry 5 (replicate 48 5); mkEntry 7 (replicate 48 7)] 0 [] 11))).
Definition sample_notarize (proposal : list Z) : list Z :=
  replicate 48 5 ++ sample_sign (replicate 48 5) (build_signed_payload_with_ns (notarize_namespace sample_committee) proposal) ++ proposal.

Lemma evidence_sound_witness :
  let a := sample_notarize [2; 3; 0; 1] in let b := sample_notarize [2; 3; 0; 2] in
  exists w' e, dispatch_evidence sample_env sample_evidence_world 5 0 (submitDoubleProposalEvidence a b) = Ok w' /\
    dispatch_evidence sample_env w' 5 0 (submitConflictingNotarizeEvidence b a) = Err e.
Proof.
  intros a b. assert (Hok : is_ok (dispatch_evidence sample_env sample_evidence_world 5 0 (submitDoubleProposalEvidence a b)) = true) by (vm_compute; reflexivity).
  destruct (dispatch_evidence sample_env sample_evidence_world 5 0 (submitDoubleProposalEvidence a b)) as [w'|] eqn:E; [|discriminate Hok].
  apply evidence_sound in E as (_ & _ & _ & _ & R). destruct (R a b sample_env 5 0 (submitConflictingNotarizeEvidence b a) eq_refl eq_refl) as [e He].
  by exists w', e.
Defined.
