(* ===== verification/AgentReward.v ===== *)
(** * AgentReward: tribute counts, the capped pools and claimable rewards

    [crates/core/agentreward]: the per-day index of agents with their tribute
    counts, the distribution of a pool under the 32 percent cap with its
    redistribution rounds, the daily entry point that mints the four pools and
    burns what is left over, and the claim of a reward. The WAA and the SRA
    fields are two copies of one index, written once as [TributeIndex]. Keys are
    hashes of their parts, as in the code. *)

From S2P Require Import Prelude Native.

Definition AGENT_REWARD_ADDRESS : Address := 0x100B.
Definition CCA_ADDRESS : Address := 0x1011.
Definition MERCHANT_ADDRESS : Address := 0x1012.

(** ** [schema.rs] *)

Record TributeIndex := mkIndex {
  tribute_counts : gmap B256 u64;
  address_count : gmap u32 u32;
  addresses : gmap B256 Address
}.

Record AgentReward := mkAgent {
  waa : TributeIndex;
  sra : TributeIndex;
  claimable_rewards : gmap Address U256
}.

Section Keys.
Context `{Crypto}.

Definition tribute_count_key (day : u32) (address : Address) : B256 := keccak256 (be_bytes 4 day ++ be_bytes 20 address).
Definition address_index_key (day : u32) (index : u32) : B256 := keccak256 (be_bytes 4 day ++ be_bytes 4 index).

(** ** [runtime.rs] *)

Definition increment_tribute (x : TributeIndex) (day : u32) (address : Address) : TributeIndex :=
  let key := tribute_count_key day address in
  let count := rd (tribute_counts x) key in
  let x :=
    if count =? 0 then
      let addr_count := rd (address_count x) day in
      mkIndex (tribute_counts x) (<[day := wadd 32 addr_count 1]> (address_count x))
        (<[address_index_key day addr_count := address]> (addresses x))
    else x in
  mkIndex (<[key := wadd 64 count 1]> (tribute_counts x)) (address_count x) (addresses x).

Definition increment_waa_tribute (c : AgentReward) (day : u32) (address : Address) : AgentReward :=
  mkAgent (increment_tribute (waa c) day address) (sra c) (claimable_rewards c).
Definition increment_sra_tribute (c : AgentReward) (day : u32) (address : Address) : AgentReward :=
  mkAgent (waa c) (increment_tribute (sra c) day address) (claimable_rewards c).

(** The entry at position [i] of the day's list, unless it is skipped. *)
Definition count_at (x : TributeIndex) (day : u32) (i : nat) : list (Address * u64) :=
  let addr := rd (addresses x) (address_index_key day (Z.of_nat i)) in
  if addr =? 0 then [] else
  let count := rd (tribute_counts x) (tribute_count_key day addr) in
  if count >? 0 then [(addr, count)] else [].

Definition get_all_counts (x : TributeIndex) (day : u32) : list (Address * u64) :=
  flat_map (count_at x day) (seq 0 (Z.to_nat (rd (address_count x) day))).

Definition clear_at (day : u32) (x : TributeIndex) (i : nat) : TributeIndex :=
  let idx_key := address_index_key day (Z.of_nat i) in
  let addr := rd (addresses x) idx_key in
  if addr =? 0 then x
  else mkIndex (<[tribute_count_key day addr := 0]> (tribute_counts x)) (address_count x) (<[idx_key := 0]> (addresses x)).

Definition clear_counts (x : TributeIndex) (day : u32) : TributeIndex :=
  let x := foldl (clear_at day) x (seq 0 (Z.to_nat (rd (address_count x) day))) in
  mkIndex (tribute_counts x) (<[day := 0]> (address_count x)) (addresses x).
End Keys.

Definition get_claimable_reward (c : AgentReward) (address : Address) : U256 := rd (claimable_rewards c) address.

Definition wr_claimable (c : AgentReward) (address : Address) (v : U256) : AgentReward :=
  mkAgent (waa c) (sra c) (<[address := v]> (claimable_rewards c)).

Definition add_claimable_reward (c : AgentReward) (address : Address) (amount : U256) : res AgentReward :=
  let current := rd (claimable_rewards c) address in
  let? v := ok_or (checked_add 256 current amount) (Revert "agentreward claimable_rewards overflow") in
  Ok (wr_claimable c address v).

(** The contract and the native balances it moves. *)
Definition claim_reward (c : AgentReward) (b : Balances) (address : Address) (amount : U256) : res (AgentReward * Balances * U256) :=
  let bal := rd (claimable_rewards c) address in
  ensure negb (amount >? bal) else Revert "insufficient claimable balance" in
  let c := wr_claimable c address (wsub 256 bal amount) in
  let? b := transfer_balance b AGENT_REWARD_ADDRESS address amount in
  Ok (c, b, amount).

(** [claimReward(uint256)] of [precompile.rs]: zero claims everything. *)
Definition abi_claim_reward (c : AgentReward) (b : Balances) (sender : Address) (amount : U256) : res (AgentReward * Balances * U256) :=
  let amount := if amount =? 0 then get_claimable_reward c sender else amount in
  if amount =? 0 then Ok (c, b, 0) else claim_reward c b sender amount.

(** ** [distribution.rs] *)

Definition MAX_ADDRESS_SHARE_PCT : u64 := 32.
Definition MAX_REDISTRIBUTION_ITERATIONS : nat := 10.

Record AddressReward := mkReward { ar_address : Address; ar_tribute_count : u64; ar_reward_amount : U256 }.

(** The working tuple [(address, count, share, capped)]. *)
Record Share := mkShare { sh_address : Address; sh_count : u64; sh_share : U256; sh_capped : bool }.

(** [sort_by_key], a stable sort. *)
Fixpoint insert_by_key (x : Address * u64) (l : list (Address * u64)) : list (Address * u64) :=
  match l with
  | [] => [x]
  | y :: l => if fst x <=? fst y then x :: y :: l else y :: insert_by_key x l
  end.
Definition sort_by_key (l : list (Address * u64)) : list (Address * u64) := foldr insert_by_key [] l.

Section Distribution.
Variable max_share : U256.

Definition initial_share (total_pool : U256) (total_tributes : u64) (p : Address * u64) : Share :=
  let share := wmul 256 total_pool (snd p) / total_tributes in
  if share >? max_share then mkShare (fst p) (snd p) max_share true else mkShare (fst p) (snd p) share false.

Definition give (e : Share) (to_give : U256) : Share :=
  let share := wadd 256 (sh_share e) to_give in
  mkShare (sh_address e) (sh_count e) share (if share >=? max_share then true else sh_capped e).

(** The room the entries that are not capped have left. *)
Definition available (shares : list Share) : U256 :=
  foldl (fun acc e => if negb (sh_capped e) && (sh_share e <? max_share) then wadd 256 acc (saturating_sub max_share (sh_share e)) else acc) 0 shares.

(** Each entry receives in proportion to its room. *)
Fixpoint proportional_pass (avail excess : U256) (shares : list Share) : list Share * U256 :=
  match shares with
  | [] => ([], excess)
  | e :: rest =>
      let continue := let '(rest, x) := proportional_pass avail excess rest in (e :: rest, x) in
      if sh_capped e || (sh_share e >=? max_share) then continue else
      let can_receive := saturating_sub max_share (sh_share e) in
      if can_receive =? 0 then continue else
      let proportional := wmul 256 excess can_receive / avail in
      let to_give := Z.min can_receive proportional in
      if to_give =? 0 then continue else
      let e := give e to_give in
      let excess := wsub 256 excess to_give in
      if excess =? 0 then (e :: rest, excess)
      else let '(rest, x) := proportional_pass avail excess rest in (e :: rest, x)
  end.

(** The rest goes to the first entries that still have room. *)
Fixpoint dust_pass (excess : U256) (shares : list Share) : list Share * U256 * bool :=
  match shares with
  | [] => ([], excess, false)
  | e :: rest =>
      let continue := let '(rest, x, d) := dust_pass excess rest in (e :: rest, x, d) in
      if sh_capped e || (sh_share e >=? max_share) then continue else
      let can_receive := saturating_sub max_share (sh_share e) in
      if can_receive =? 0 then continue else
      let to_give := Z.min can_receive excess in
      let e := give e to_give in
      let excess := wsub 256 excess to_give in
      if excess =? 0 then (e :: rest, excess, true)
      else let '(rest, x, _) := dust_pass excess rest in (e :: rest, x, true)
  end.

Fixpoint redistribute (rounds : nat) (shares : list Share) (excess : U256) : list Share * U256 :=
  match rounds with
  | O => (shares, excess)
  | S rounds =>
      if excess =? 0 then (shares, excess) else
      let avail := available shares in
      if avail =? 0 then (shares, excess) else
      let '(shares, excess) := proportional_pass avail excess shares in
      if excess =? 0 then (shares, excess) else
      let '(shares, excess, dust_distributed) := dust_pass excess shares in
      if negb dust_distributed then (shares, excess) else redistribute rounds shares excess
  end.
End Distribution.

Definition calculate_distribution_with_cap (total_pool : U256) (counts : list (Address * u64)) : list AddressReward * U256 :=
  if (len counts =? 0) || (total_pool =? 0) then ([], total_pool) else
  let total_tributes := foldl (wadd 64) 0 (snd <$> counts) in
  if total_tributes =? 0 then ([], total_pool) else
  let max_share := wmul 256 total_pool MAX_ADDRESS_SHARE_PCT / 100 in
  let shares := initial_share max_share total_pool total_tributes <$> sort_by_key counts in
  let total_distributed := foldl (wadd 256) 0 (sh_share <$> shares) in
  let excess := saturating_sub total_pool total_distributed in
  let '(shares, excess) := redistribute max_share MAX_REDISTRIBUTION_ITERATIONS shares excess in
  ((fun e => mkReward (sh_address e) (sh_count e) (sh_share e)) <$> shares, excess).

Inductive PoolKind : Type := Waa | Sra | Cca | Merchant.

Section Daily.
Context `{Crypto}.

Definition credit (c : AgentReward) (r : AddressReward) : res AgentReward :=
  if ar_reward_amount r =? 0 then Ok c else add_claimable_reward c (ar_address r) (ar_reward_amount r).

(** [kind] selects the index; it is [Waa] or [Sra] at both call sites. *)
Definition pool_index (kind : PoolKind) (c : AgentReward) : TributeIndex := match kind with Waa => waa c | _ => sra c end.
Definition with_pool_index (kind : PoolKind) (c : AgentReward) (x : TributeIndex) : AgentReward :=
  match kind with Waa => mkAgent x (sra c) (claimable_rewards c) | _ => mkAgent (waa c) x (claimable_rewards c) end.

Definition distribute_capped (c : AgentReward) (b : Balances) (prev_day : u32) (kind : PoolKind) (amount : U256) : res (AgentReward * Balances * U256) :=
  if amount =? 0 then Ok (c, b, 0) else
  let b := increase_balance b AGENT_REWARD_ADDRESS amount in
  let counts := get_all_counts (pool_index kind c) prev_day in
  if len counts =? 0 then
    let? b := decrease_balance b AGENT_REWARD_ADDRESS amount in
    Ok (c, b, amount)
  else
    let '(rewards, excess) := calculate_distribution_with_cap amount counts in
    let? c := foldM credit c rewards in
    let? b := (if excess =? 0 then Ok b else decrease_balance b AGENT_REWARD_ADDRESS excess) in
    Ok (with_pool_index kind c (clear_counts (pool_index kind c) prev_day), b, excess).

Definition accumulate_to_address (b : Balances) (target : Address) (amount : U256) : Balances :=
  if amount =? 0 then b else increase_balance b target amount.

Definition distribute_pool (prev_day : u32) (st : AgentReward * Balances * U256) (p : PoolKind * U256) : res (AgentReward * Balances * U256) :=
  let '(c, b, total_excess) := st in
  let? (c, b, excess) :=
    match fst p with
    | Waa => distribute_capped c b prev_day Waa (snd p)
    | Sra => distribute_capped c b prev_day Sra (snd p)
    | Cca => Ok (c, accumulate_to_address b CCA_ADDRESS (snd p), 0)
    | Merchant => Ok (c, accumulate_to_address b MERCHANT_ADDRESS (snd p), 0)
    end in
  let? total := ok_or (checked_add 256 total_excess excess) (Revert "agentreward distribute_daily overflow") in
  Ok (c, b, total).

Definition distribute_daily (c : AgentReward) (b : Balances) (prev_day : u32) (pools : list (PoolKind * U256)) : res (AgentReward * Balances * U256) :=
  foldM (distribute_pool prev_day) (c, b, 0) pools.
End Daily.

(** ** The capped distribution *)

Section Cap.
Variable max_share : U256.

Definition shsum (l : list Share) : Z := lsum (sh_share <$> l).
Definition at_cap (e : Share) : Prop := sh_share e = max_share.
Definition entry_ok (e : Share) : Prop := 0 <= sh_share e <= max_share /\ (sh_capped e = true -> at_cap e).
Definition grows (e e' : Share) : Prop := sh_address e' = sh_address e /\ sh_count e' = sh_count e /\ sh_share e <= sh_share e'.
Definition room (e : Share) : Z := if negb (sh_capped e) && (sh_share e <? max_share) then max_share - sh_share e else 0.

#[local] Instance grows_refl : Reflexive grows.
Proof. intros e. split_and!; done || lia. Qed.
#[local] Instance grows_trans : Transitive grows.
Proof. intros e1 e2 e3 (? & ? & ?) (? & ? & ?). split_and!; congruence || lia. Qed.

Lemma Forall2_grows_refl l : Forall2 grows l l.
Proof. induction l; constructor; done. Qed.

Lemma shsum_cons e l : shsum (e :: l) = sh_share e + shsum l.
Proof. reflexivity. Qed.

Lemma room_nonneg e : entry_ok e -> 0 <= room e.
Proof. intros [? _]. unfold room. destruct (_ && _); lia. Qed.

Lemma room_zero e : entry_ok e -> room e = 0 -> at_cap e.
Proof.
  intros [Hs Hc] Hr. unfold room in Hr. destruct (sh_capped e); [by apply Hc|]. cbn [negb andb] in Hr. unfold at_cap.
  destruct (Z.ltb_spec (sh_share e) max_share); lia.
Qed.

Lemma available_spec l : Forall entry_ok l -> lsum (room <$> l) < 2 ^ 256 -> available max_share l = lsum (room <$> l).
Proof.
  intros Hl Hs. unfold available.
  enough (G : forall acc, 0 <= acc -> acc + lsum (room <$> l) < 2 ^ 256 ->
    foldl (fun acc e => if negb (sh_capped e) && (sh_share e <? max_share) then wadd 256 acc (saturating_sub max_share (sh_share e)) else acc) acc l
      = acc + lsum (room <$> l)) by (apply G; lia).
  clear Hs. induction Hl as [|e l He Hl IH]; intros acc Ha Hs; [cbn; lia|].
  change (lsum (room <$> e :: l)) with (room e + lsum (room <$> l)) in *. cbn [foldl]. pose proof (room_nonneg e He).
  assert (0 <= lsum (room <$> l)) by (apply lsum_nonneg, Forall_fmap; eapply Forall_impl; [exact Hl|exact room_nonneg]).
  assert (Ee : (if negb (sh_capped e) && (sh_share e <? max_share) then wadd 256 acc (saturating_sub max_share (sh_share e)) else acc) = acc + room e).
  { unfold room in *. destruct (negb (sh_capped e)), (Z.ltb_spec (sh_share e) max_share); cbn [andb] in *; unfold saturating_sub; try lia.
    rewrite Z.max_l by lia. apply wadd_small. lia. }
  rewrite Ee, IH by lia. lia.
Qed.

Lemma give_spec e g : max_share < 2 ^ 128 -> entry_ok e -> 0 <= g <= max_share - sh_share e ->
  entry_ok (give max_share e g) /\ grows e (give max_share e g) /\ sh_share (give max_share e g) = sh_share e + g.
Proof.
  intros Hm [Hs Hc] Hg. unfold give. rewrite wadd_small by lia. cbn [sh_share]. split_and!; [split|split_and!|]; cbn; try lia; try done.
  unfold at_cap. cbn. rewrite Z.geb_leb. destruct (Z.leb_spec max_share (sh_share e + g)); [lia|]. intros Ht. specialize (Hc Ht). unfold at_cap in Hc. lia.
Qed.

(** What one pass over the entries does. *)
Record pass_ok (l : list Share) (excess : Z) (l' : list Share) (x : Z) : Prop := {
  po_ok : Forall entry_ok l';
  po_grows : Forall2 grows l l';
  po_sum : shsum l' + x = shsum l + excess;
  po_excess : 0 <= x <= excess
}.

Lemma pass_refl l x : Forall entry_ok l -> 0 <= x -> pass_ok l x l x.
Proof. intros Hl Hx. split; [done|apply Forall2_grows_refl|lia|lia]. Qed.

Lemma pass_trans l x l1 x1 l2 x2 : pass_ok l x l1 x1 -> pass_ok l1 x1 l2 x2 -> pass_ok l x l2 x2.
Proof. intros [O1 G1 S1 E1] [O2 G2 S2 E2]. split; [done| |lia|lia]. by transitivity l1. Qed.

Lemma pass_cons e e' l x l' y g : entry_ok e' -> grows e e' -> sh_share e' = sh_share e + g -> 0 <= g -> pass_ok l (x - g) l' y -> pass_ok (e :: l) x (e' :: l') y.
Proof. intros He Hg Hs H0 [O1 G1 S1 E1]. split; [by constructor|by constructor| |lia]. rewrite !shsum_cons. lia. Qed.

Lemma proportional_pass_spec avail excess l :
  max_share < 2 ^ 128 -> 0 <= excess < 2 ^ 128 -> 0 < avail -> Forall entry_ok l -> Forall (fun e => room e <= avail) l ->
  let '(l', x) := proportional_pass max_share avail excess l in pass_ok l excess l' x.
Proof.
  intros Hm Hx Ha Hl Hr. revert excess Hx. induction l as [|e l IH]; intros excess Hx; [apply pass_refl; [done|lia]|].
  apply Forall_cons_1 in Hl as [He Hl]. apply Forall_cons_1 in Hr as [Hre Hr]. specialize (IH Hl Hr). cbn [proportional_pass].
  assert (Hskip : let '(l', x) := (let '(rest, x) := proportional_pass max_share avail excess l in (e :: rest, x)) in pass_ok (e :: l) excess l' x).
  { specialize (IH excess Hx). destruct (proportional_pass max_share avail excess l) as [l' x]. apply (pass_cons e e l excess l' x 0); try done; [lia|].
    by rewrite Z.sub_0_r. }
  destruct (sh_capped e) eqn:Ec; [exact Hskip|]. rewrite Z.geb_leb. destruct (Z.leb_spec max_share (sh_share e)) as [|Hlt]; [exact Hskip|]. cbn [orb].
  destruct He as [Hs Hc]. assert (Erm : room e = max_share - sh_share e) by (unfold room; rewrite Ec; cbn; rewrite (proj2 (Z.ltb_lt _ _)); lia).
  unfold saturating_sub. rewrite Z.max_l by lia. set (can := max_share - sh_share e) in *. destruct (can =? 0); [exact Hskip|].
  rewrite wmul_small by (change (2 ^ 256) with (2 ^ 128 * 2 ^ 128); nia). set (g := Z.min can (excess * can / avail)).
  destruct (g =? 0) eqn:Eg; [exact Hskip|]. assert (Hpr : excess * can / avail <= excess) by (apply Z.div_le_upper_bound; nia).
  assert (0 <= excess * can / avail) by (apply Z.div_pos; nia). assert (Hg : 0 <= g <= can /\ g <= excess) by lia. clearbody g.
  destruct (give_spec e g Hm (conj Hs Hc) ltac:(lia)) as (Ho & Hgr & Hsum). rewrite wsub_small by lia.
  destruct (Z.eqb_spec (excess - g) 0).
  - apply (pass_cons _ _ _ _ _ _ g); try done; [lia|]. apply pass_refl; [done|lia].
  - specialize (IH (excess - g) ltac:(lia)). destruct (proportional_pass max_share avail (excess - g) l) as [l' x]. apply (pass_cons _ _ _ _ _ _ g); done || lia.
Qed.

Lemma dust_pass_spec excess l :
  max_share < 2 ^ 128 -> 0 <= excess < 2 ^ 128 -> Forall entry_ok l ->
  let '(l', x, d) := dust_pass max_share excess l in pass_ok l excess l' x /\ (x = 0 \/ Forall at_cap l').
Proof.
  intros Hm Hx Hl. revert excess Hx. induction l as [|e l IH]; intros excess Hx; [split; [apply pass_refl; [done|lia]|by right]|].
  apply Forall_cons_1 in Hl as [He Hl]. specialize (IH Hl). cbn [dust_pass].
  assert (Hskip : at_cap e -> let '(l', x, d) := (let '(rest, x, d) := dust_pass max_share excess l in (e :: rest, x, d)) in
            pass_ok (e :: l) excess l' x /\ (x = 0 \/ Forall at_cap l')).
  { intros Hcap. specialize (IH excess Hx). destruct (dust_pass max_share excess l) as [[l' x] d]. destruct IH as [IH1 IH2]. split.
    - apply (pass_cons e e l excess l' x 0); try done; [lia|]. by rewrite Z.sub_0_r.
    - destruct IH2; [by left|right; by constructor]. }
  pose proof He as [Hs Hc]. destruct (sh_capped e) eqn:Ec; [by apply Hskip, Hc|]. rewrite Z.geb_leb.
  destruct (Z.leb_spec max_share (sh_share e)) as [|Hlt]; [apply Hskip; unfold at_cap; lia|]. cbn [orb].
  unfold saturating_sub. rewrite Z.max_l by lia. rewrite (proj2 (Z.eqb_neq _ _)) by lia. set (g := Z.min (max_share - sh_share e) excess).
  assert (Hg : 0 <= g <= max_share - sh_share e /\ g <= excess) by lia. assert (Hor : g = excess \/ g = max_share - sh_share e) by lia. clearbody g.
  destruct (give_spec e g Hm He ltac:(lia)) as (Ho & Hgr & Hsum). rewrite wsub_small by lia.
  destruct (Z.eqb_spec (excess - g) 0) as [E0|].
  - split; [|by left]. apply (pass_cons _ _ _ _ _ _ g); try done; [lia|]. apply pass_refl; [done|lia].
  - specialize (IH (excess - g) ltac:(lia)). destruct (dust_pass max_share (excess - g) l) as [[l' x] d]. destruct IH as [IH1 IH2]. split.
    + apply (pass_cons _ _ _ _ _ _ g); done || lia.
    + destruct IH2; [by left|right]. constructor; [|done]. unfold at_cap. lia.
Qed.

Lemma available_zero l : Forall at_cap l -> available max_share l = 0.
Proof.
  intros Hl. unfold available. induction Hl as [|e l He Hl IH]; [done|]. cbn [foldl]. unfold at_cap in He.
  rewrite (proj2 (Z.ltb_ge (sh_share e) max_share)), andb_false_r by lia. exact IH.
Qed.

Lemma redistribute_stop n excess l : excess = 0 \/ Forall at_cap l -> redistribute max_share n l excess = (l, excess).
Proof.
  intros Hs. destruct n; [done|]. cbn [redistribute]. destruct (Z.eqb_spec excess 0); [done|]. destruct Hs as [?|Hc]; [done|]. by rewrite available_zero.
Qed.

Lemma room_sum_bound l : 0 <= max_share -> Forall entry_ok l -> lsum (room <$> l) <= len l * max_share.
Proof.
  intros Hm Hl. induction Hl as [|e l [He _] Hl IH]; [done|]. change (lsum (room <$> e :: l)) with (room e + lsum (room <$> l)).
  assert (len (e :: l) = len l + 1) as -> by (unfold len; cbn [length]; lia). assert (room e <= max_share) by (unfold room; destruct (_ && _); lia). lia.
Qed.

Lemma room_le_sum l : Forall entry_ok l -> Forall (fun e => room e <= lsum (room <$> l)) l.
Proof.
  induction 1 as [|e l He Hl IH]; [constructor|]. change (lsum (room <$> e :: l)) with (room e + lsum (room <$> l)). pose proof (room_nonneg e He).
  assert (0 <= lsum (room <$> l)) by (apply lsum_nonneg, Forall_fmap; eapply Forall_impl; [exact Hl|exact room_nonneg]).
  constructor; [lia|]. eapply Forall_impl; [exact IH|]. cbn. lia.
Qed.

(** After one full round nothing is left over, or everyone is at the cap. *)
Lemma redistribute_spec n excess l :
  0 <= max_share < 2 ^ 128 -> 0 <= excess < 2 ^ 128 -> len l < 2 ^ 64 -> Forall entry_ok l ->
  let '(l', x) := redistribute max_share (S n) l excess in pass_ok l excess l' x /\ (x = 0 \/ Forall at_cap l').
Proof.
  intros Hm Hx Hlen Hl. pose proof (room_sum_bound l ltac:(lia) Hl) as Hb.
  assert (len l * max_share <= 2 ^ 64 * 2 ^ 128) by (unfold len in *; nia).
  assert (Hav : available max_share l = lsum (room <$> l)) by (apply available_spec; [done|lia]).
  cbn [redistribute]. destruct (Z.eqb_spec excess 0); [split; [apply pass_refl; [done|lia]|by left]|]. rewrite Hav.
  pose proof (room_le_sum l Hl) as Hle. destruct (Z.eqb_spec (lsum (room <$> l)) 0) as [E0|E0].
  { split; [apply pass_refl; [done|lia]|right]. rewrite E0 in Hle. rewrite Forall_forall in *. intros e He. apply room_zero; [by apply Hl|].
    specialize (Hle e He). pose proof (room_nonneg e (Hl e He)). lia. }
  assert (0 <= lsum (room <$> l)) by (apply lsum_nonneg, Forall_fmap; eapply Forall_impl; [exact Hl|exact room_nonneg]).
  assert (Hpos : 0 < lsum (room <$> l)) by lia.
  pose proof (proportional_pass_spec (lsum (room <$> l)) excess l ltac:(lia) Hx Hpos Hl Hle) as P1.
  destruct (proportional_pass max_share (lsum (room <$> l)) excess l) as [l1 x1]. destruct (Z.eqb_spec x1 0); [split; [done|by left]|].
  pose proof (dust_pass_spec x1 l1 ltac:(lia) ltac:(destruct P1; lia) (po_ok _ _ _ _ P1)) as P2.
  destruct (dust_pass max_share x1 l1) as [[l2 x2] d]. destruct P2 as [P2 Hend].
  assert (P : pass_ok l excess l2 x2) by (by eapply pass_trans). destruct d; cbn [negb]; [|done]. by rewrite redistribute_stop.
Qed.
End Cap.

Lemma insert_by_key_perm x l : insert_by_key x l ≡ₚ x :: l.
Proof. induction l as [|y l IH]; [done|]. cbn [insert_by_key]. destruct (_ <=? _); [done|]. rewrite IH. constructor. Qed.

Lemma sort_by_key_perm l : sort_by_key l ≡ₚ l.
Proof. induction l as [|x l IH]; [done|]. cbn. rewrite insert_by_key_perm. by constructor. Qed.

Definition key_le (p q : Address * u64) : Prop := fst p <= fst q.

Lemma insert_by_key_sorted x l : StronglySorted key_le l -> StronglySorted key_le (insert_by_key x l).
Proof.
  induction 1 as [|y l Hl IH Hy]; [repeat constructor|]. cbn [insert_by_key]. destruct (Z.leb_spec (fst x) (fst y)).
  - constructor; [by constructor|]. constructor; [done|]. eapply Forall_impl; [exact Hy|]. unfold key_le. cbn. lia.
  - constructor; [done|]. rewrite insert_by_key_perm. constructor; [unfold key_le; lia|done].
Qed.

Lemma sort_by_key_sorted l : StronglySorted key_le (sort_by_key l).
Proof. induction l as [|x l IH]; [constructor|]. cbn. by apply insert_by_key_sorted. Qed.

Lemma lsum_floor_shares pool total l : 0 <= pool -> 0 < total -> Forall (fun x => 0 <= x) l ->
  0 <= lsum ((fun c => pool * c / total) <$> l) /\ lsum ((fun c => pool * c / total) <$> l) * total <= pool * lsum l.
Proof.
  intros Hp Ht Hl. induction Hl as [|c l Hc Hl [IH0 IH]]; [cbn; lia|].
  change (lsum ((fun c => pool * c / total) <$> c :: l)) with (pool * c / total + lsum ((fun c => pool * c / total) <$> l)).
  change (lsum (c :: l)) with (c + lsum l). assert (0 <= pool * c / total) by (apply Z.div_pos; nia).
  pose proof (Z.mul_div_le (pool * c) total Ht). split; [lia|]. nia.
Qed.

(** The entries the redistribution starts from. *)
Lemma initial_shares_ok pool total cap l :
  0 <= pool < 2 ^ 128 -> 0 < total -> 0 <= cap -> Forall (fun p => 0 < snd p < 2 ^ 64) l ->
  let l0 := initial_share cap pool total <$> l in
  Forall (entry_ok cap) l0 /\ shsum l0 <= lsum ((fun c => pool * c / total) <$> (snd <$> l)) /\ 0 <= shsum l0 /\
  (fun e => (sh_address e, sh_count e)) <$> l0 = l /\ Forall (fun e => sh_share e = Z.min cap (pool * sh_count e / total)) l0.
Proof.
  intros Hp Ht Hc Hl. cbv zeta. induction Hl as [|[a c] l Hx Hl (IH1 & IH2 & IH3 & IH4 & IH5)]; [split_and!; constructor || done|]. cbn [snd] in Hx.
  cbn [fmap list_fmap snd]. change (lsum (?x :: ?y)) with (x + lsum y). rewrite !shsum_cons.
  assert (Hs : 0 <= pool * c / total) by (apply Z.div_pos; nia).
  assert (E : initial_share cap pool total (a, c) = mkShare a c (Z.min cap (pool * c / total)) (pool * c / total >? cap)).
  { unfold initial_share. cbn [fst snd]. rewrite wmul_small by (change (2 ^ 256) with (2 ^ 128 * 2 ^ 128); nia). rewrite Z.gtb_ltb.
    destruct (Z.ltb_spec cap (pool * c / total)); f_equal; lia. }
  rewrite E. cbn [sh_share sh_address sh_count]. split_and!.
  - constructor; [|done]. split; cbn [sh_share sh_capped]; [lia|]. unfold at_cap. cbn. rewrite Z.gtb_ltb. intros ?%Z.ltb_lt. lia.
  - lia.
  - lia.
  - by rewrite IH4.
  - by constructor.
Qed.

Lemma shsum_bound cap l : Forall (entry_ok cap) l -> 0 <= shsum l <= len l * cap.
Proof. induction 1 as [|e l [He _] Hl IH]; [done|]. rewrite shsum_cons. assert (len (e :: l) = len l + 1) as -> by (unfold len; cbn [length]; lia). lia. Qed.

Lemma shsum_at_cap cap l : Forall (at_cap cap) l -> shsum l = len l * cap.
Proof. induction 1 as [|e l He Hl IH]; [done|]. rewrite shsum_cons, He. assert (len (e :: l) = len l + 1) as -> by (unfold len; cbn [length]; lia). lia. Qed.

(** What the rewards read off the final entries are. *)
Lemma pass_rewards cap pool total l0 l1 x :
  pass_ok cap l0 (pool - shsum l0) l1 x -> x = 0 \/ Forall (at_cap cap) l1 -> Forall (fun e => sh_share e = Z.min cap (pool * sh_count e / total)) l0 ->
  ((fun e => (sh_address e, sh_count e)) <$> l1) = ((fun e => (sh_address e, sh_count e)) <$> l0) /\ shsum l1 + x = pool /\
  x = Z.max 0 (pool - len l0 * cap) /\ Forall (fun e => 0 <= sh_share e /\ Z.min cap (pool * sh_count e / total) <= sh_share e <= cap) l1.
Proof.
  intros [Ho Hg Hs Hx] Hend HM. assert (Hlen : len l0 = len l1) by (unfold len; by rewrite (Forall2_length _ _ _ Hg)). split_and!.
  - clear -Hg. induction Hg as [|e e' l l' (Ha & Hc & _) _ IH]; [done|]. cbn. by rewrite Ha, Hc, IH.
  - lia.
  - pose proof (shsum_bound cap l1 Ho). rewrite Hlen. destruct Hend as [->|Hc]; [lia|]. pose proof (shsum_at_cap cap l1 Hc). lia.
  - clear -Ho Hg HM. induction Hg as [|e e' l l' (Ha & Hc & Hle) _ IH]; [constructor|]. apply Forall_cons_1 in Ho as [[? _] Ho].
    apply Forall_cons_1 in HM as [He HM]. constructor; [rewrite Hc; lia|by apply IH].
Qed.

Lemma calculate_distribution_spec pool counts :
  0 < pool < 2 ^ 128 -> counts <> [] -> Forall (fun p => 0 < snd p) counts -> lsum (snd <$> counts) < 2 ^ 64 ->
  let cap := pool * 32 / 100 in
  let total := lsum (snd <$> counts) in
  let '(rewards, excess) := calculate_distribution_with_cap pool counts in
  let paid := (fun r => (ar_address r, ar_tribute_count r)) <$> rewards in
  paid ≡ₚ counts /\ StronglySorted key_le paid /\
  lsum (ar_reward_amount <$> rewards) + excess = pool /\ excess = Z.max 0 (pool - len counts * cap) /\
  Forall (fun r => 0 <= ar_reward_amount r /\ Z.min cap (pool * ar_tribute_count r / total) <= ar_reward_amount r <= cap) rewards.
Proof.
  intros Hp Hne Hpos Ht cap total. unfold calculate_distribution_with_cap.
  assert (Hlen : len counts <= total).
  { unfold total. replace (len counts) with (len (snd <$> counts)) by (unfold len; by rewrite length_fmap). apply len_le_lsum, Forall_fmap. exact Hpos. }
  assert (Hlc : 0 < len counts) by (destruct counts; [done|unfold len; cbn [length]; lia]).
  rewrite (proj2 (Z.eqb_neq (len counts) 0)), (proj2 (Z.eqb_neq pool 0)) by lia. cbn [orb].
  assert (Hnn : Forall (fun x => 0 <= x) (snd <$> counts)) by (apply Forall_fmap; eapply Forall_impl; [exact Hpos|]; cbn; lia).
  rewrite foldl_wadd by (done || lia). rewrite Z.add_0_l. fold total. rewrite (proj2 (Z.eqb_neq total 0)) by lia.
  rewrite (wmul_small 256 pool) by (unfold MAX_ADDRESS_SHARE_PCT; lia). change MAX_ADDRESS_SHARE_PCT with 32. fold cap.
  assert (Hcap : 0 <= cap <= pool) by (unfold cap; split; [apply Z.div_pos; lia|apply Z.div_le_upper_bound; lia]).
  pose proof (sort_by_key_perm counts) as Hperm. set (l := sort_by_key counts) in *.
  assert (Hl : Forall (fun p => 0 < snd p < 2 ^ 64) l).
  { rewrite Hperm. apply Forall_forall. intros p Hin. split; [exact (proj1 (Forall_forall _ _) Hpos p Hin)|]. enough (snd p <= total) by lia.
    apply elem_le_lsum; [done|]. apply list_elem_of_fmap. by exists p. }
  destruct (initial_shares_ok pool total cap l ltac:(lia) ltac:(lia) ltac:(lia) Hl) as (O0 & S0 & N0 & A0 & M0). set (l0 := initial_share cap pool total <$> l) in *.
  assert (Hfl : lsum ((fun c => pool * c / total) <$> (snd <$> l)) <= pool).
  { destruct (lsum_floor_shares pool total (snd <$> l)) as [_ Hf]; [lia|lia|by rewrite Hperm|]. rewrite (lsum_perm (snd <$> l) (snd <$> counts)) in Hf by (by rewrite Hperm).
    fold total in Hf. nia. }
  rewrite foldl_wadd; [|lia|apply Forall_fmap; eapply Forall_impl; [exact O0|by intros e [[? _] _]]|change (lsum (sh_share <$> l0)) with (shsum l0); lia].
  change (lsum (sh_share <$> l0)) with (shsum l0). rewrite Z.add_0_l. unfold saturating_sub. rewrite Z.max_l by lia.
  assert (Hll : len l0 = len counts) by (unfold len, l0; by rewrite length_fmap, Hperm).
  pose proof (redistribute_spec cap 9 (pool - shsum l0) l0 ltac:(lia) ltac:(lia) ltac:(lia) O0) as R.
  change MAX_REDISTRIBUTION_ITERATIONS with 10%nat. destruct (redistribute cap 10 l0 (pool - shsum l0)) as [l1 x]. destruct R as [R Hend].
  destruct (pass_rewards cap pool total l0 l1 x R Hend M0) as (E1 & E2 & E3 & E4). cbv zeta. rewrite <- !list_fmap_compose. unfold compose. cbn [ar_address ar_tribute_count ar_reward_amount].
  rewrite E1, A0, <- Hll. split_and!; [done|apply sort_by_key_sorted|exact E2|done|by apply Forall_fmap].
Qed.


(** ** The tribute index of a day *)

Lemma flat_map_seq {A} (f : nat -> list A) l : (forall i p, l !! i = Some p -> f i = [p]) -> flat_map f (seq 0 (length l)) = l.
Proof.
  induction l as [|p l IH] using rev_ind; intros Hf; [done|]. rewrite length_app. cbn [length]. rewrite Nat.add_1_r, seq_S, flat_map_app. cbn [flat_map Nat.add].
  rewrite IH, (Hf (length l) p), app_nil_r; [done|by rewrite lookup_app_r, Nat.sub_diag|]. intros i q Hi. apply Hf. by apply lookup_app_l_Some.
Qed.

Lemma tally_of_elem l a c : NoDup (fst <$> l) -> (a, c) ∈ l -> count_of l a = c.
Proof.
  induction l as [|[w k] l IH]; intros Hnd Hin; [by apply not_elem_of_nil in Hin|]. cbn [fmap list_fmap fst] in Hnd. apply NoDup_cons in Hnd as [Hw Hnd].
  cbn [count_of]. apply elem_of_cons in Hin as [[= -> ->]|Hin]; [by rewrite decide_True|]. rewrite decide_False; [by apply IH|].
  intros ->. apply Hw, list_elem_of_fmap. by exists (a, c).
Qed.

(** A position of the index is skipped when its address is zero. *)
Definition is_agent (a : Z) : Prop := 0 < a < 2 ^ 160.

Section Index.
Context `{KeccakLaws}.

Lemma tribute_count_key_inj d a d' a' : is_u32 d -> is_u32 d' -> 0 <= a < 2 ^ 160 -> 0 <= a' < 2 ^ 160 ->
  tribute_count_key d a = tribute_count_key d' a' -> d = d' /\ a = a'.
Proof.
  intros Hd Hd' Ha Ha' E. apply keccak_inj in E; [|apply bytes_app; apply bytes_be..]. apply app_inj_1 in E as [E1 E2]; [|by rewrite !length_be_bytes].
  split; [apply (be_bytes_inj 4)|apply (be_bytes_inj 20)]; done.
Qed.

Lemma address_index_key_inj d i d' i' : is_u32 d -> is_u32 d' -> is_u32 i -> is_u32 i' -> address_index_key d i = address_index_key d' i' -> d = d' /\ i = i'.
Proof.
  intros Hd Hd' Hi Hi' E. apply keccak_inj in E; [|apply bytes_app; apply bytes_be..]. apply app_inj_1 in E as [E1 E2]; [|by rewrite !length_be_bytes].
  split; apply (be_bytes_inj 4); done.
Qed.

Record index_rep (x : TributeIndex) (d : u32) (l : list (Address * u64)) : Prop := {
  ir_nodup : NoDup (fst <$> l);
  ir_pos : Forall (fun c => 1 <= snd c) l;
  ir_range : Forall (fun c => is_agent (fst c)) l;
  ir_small : lsum (snd <$> l) < 2 ^ 32;
  ir_count : rd (address_count x) d = len l;
  ir_at : forall i v, (fst <$> l) !! i = Some v -> rd (addresses x) (address_index_key d (Z.of_nat i)) = v;
  ir_tally : forall a, 0 <= a < 2 ^ 160 -> rd (tribute_counts x) (tribute_count_key d a) = count_of l a
}.

Lemma index_rep_len x d l : index_rep x d l -> 0 <= len l < 2 ^ 32.
Proof. intros R. pose proof (count_bounds l 0 (ir_pos _ _ _ R)) as [_ ?]. pose proof (ir_small _ _ _ R). unfold len in *. lia. Qed.

Lemma index_rep_position x d l i v : index_rep x d l -> (fst <$> l) !! i = Some v -> is_u32 (Z.of_nat i) /\ (i < length l)%nat /\ is_agent v.
Proof.
  intros R Hi. pose proof (lookup_lt_Some _ _ _ Hi) as Hlt. rewrite length_fmap in Hlt. pose proof (index_rep_len _ _ _ R). unfold len in *.
  split; [unfold is_u32; lia|]. split; [done|]. rewrite list_lookup_fmap in Hi. destruct (l !! i) as [c|] eqn:Hc; [|done]. injection Hi as <-. eapply Forall_lookup_1 in Hc; [|apply (ir_range _ _ _ R)]. done.
Qed.

Lemma increment_rep x d l a : is_u32 d -> index_rep x d l -> is_agent a -> lsum (snd <$> l) < 2 ^ 32 - 1 -> index_rep (increment_tribute x d a) d (bump l a).
Proof.
  intros Hd R Ha Hs. pose proof R as [Hnd Hpos Hrg Hsm Hc Hat Ht]. pose proof (count_bounds l a Hpos) as [Hb Hle]. pose proof (count_of_zero l a Hpos) as Hz.
  pose proof (bump_fst l a) as Hbf. unfold add_once in Hbf. pose proof (index_rep_len _ _ _ R) as Hl.
  assert (Hr : Forall (fun c => is_agent (fst c)) (bump l a)).
  { cut (Forall is_agent (fst <$> bump l a)); [by rewrite Forall_fmap|]. rewrite Hbf. case_decide; [by apply Forall_fmap|]. apply Forall_app. split; [by apply Forall_fmap|by constructor]. }
  assert (Ha0 : 0 <= a < 2 ^ 160) by (unfold is_agent in Ha; lia). unfold increment_tribute. rewrite Ht by done. cbv zeta.
  assert (Ht' : forall b, 0 <= b < 2 ^ 160 -> rd (<[tribute_count_key d a := wadd 64 (count_of l a) 1]> (tribute_counts x)) (tribute_count_key d b) = count_of (bump l a) b).
  { intros b Hb'. rewrite bump_count, wadd_small by lia. destruct (decide (b = a)) as [->|Hne]; [by rewrite rd_insert_eq|]. rewrite rd_insert_ne, Ht by (done || intros E; apply tribute_count_key_inj in E; naive_solver). lia. }
  assert (Hlen : len (bump l a) = len (fst <$> bump l a)) by (unfold len; by rewrite length_fmap).
  destruct (Z.eqb_spec (count_of l a) 0) as [E|E].
  - pose proof (proj1 Hz E) as Hv. rewrite decide_False in Hbf by done. rewrite Hc, (wadd_small 32) by lia. split; cbn [address_count addresses tribute_counts]; rewrite ?Hbf; try done.
    + apply NoDup_app. split_and!; [done|set_solver|apply NoDup_singleton].
    + by apply bump_pos.
    + rewrite bump_sum. lia.
    + rewrite rd_insert_eq, Hlen, Hbf. unfold len. rewrite length_app, length_fmap. cbn. lia.
    + intros i v Hi. destruct (decide (i < length (fst <$> l))%nat) as [Hlt|Hge].
      * rewrite lookup_app_l in Hi by done. destruct (index_rep_position _ _ _ _ _ R Hi) as (Hiu & Hil & _).
        rewrite rd_insert_ne; [by apply Hat|]. intros Ek. apply address_index_key_inj in Ek as [_ Ek]; [unfold len in Ek; lia|done..|unfold is_u32; lia|done].
      * rewrite lookup_app_r in Hi by lia. apply list_lookup_singleton_Some in Hi as [Hi <-]. rewrite length_fmap in *.
        replace (Z.of_nat i) with (len l) by (unfold len; lia). by rewrite rd_insert_eq.
  - assert (Hv : a ∈ fst <$> l) by (destruct (decide (a ∈ fst <$> l)); [done|naive_solver]). rewrite decide_True in Hbf by done.
    split; cbn [address_count addresses tribute_counts]; rewrite ?Hbf; try done; [by apply bump_pos|rewrite bump_sum; lia|].
    rewrite Hc, Hlen, Hbf. unfold len. by rewrite length_fmap.
Qed.

(** Two indexes that agree on everything of day [d]. *)
Lemma index_rep_ext x x' d l : index_rep x d l -> rd (address_count x') d = rd (address_count x) d ->
  (forall i, is_u32 i -> rd (addresses x') (address_index_key d i) = rd (addresses x) (address_index_key d i)) ->
  (forall a, 0 <= a < 2 ^ 160 -> rd (tribute_counts x') (tribute_count_key d a) = rd (tribute_counts x) (tribute_count_key d a)) -> index_rep x' d l.
Proof.
  intros R E1 E2 E3. pose proof R as [Hnd Hpos Hrg Hsm Hc Hat Ht]. split; try done.
  - by rewrite E1.
  - intros i v Hi. rewrite E2; [by apply Hat|]. by eapply index_rep_position.
  - intros a Ha. rewrite E3 by done. by apply Ht.
Qed.

Lemma increment_other x d a d' l' : is_u32 d -> is_u32 d' -> d <> d' -> is_agent a -> is_u32 (rd (address_count x) d) ->
  index_rep x d' l' -> index_rep (increment_tribute x d a) d' l'.
Proof.
  intros Hd Hd' Hne Ha Hu R. apply (index_rep_ext x); [done| | |]; unfold increment_tribute; cbv zeta; destruct (_ =? 0); cbn [address_count addresses tribute_counts]; try done.
  - by rewrite rd_insert_ne.
  - intros i Hi. rewrite rd_insert_ne; [done|]. intros E. apply address_index_key_inj in E; naive_solver.
  - intros b Hb. rewrite rd_insert_ne; [done|]. intros E. apply tribute_count_key_inj in E; unfold is_agent in *; naive_solver lia.
  - intros b Hb. rewrite rd_insert_ne; [done|]. intros E. apply tribute_count_key_inj in E; unfold is_agent in *; naive_solver lia.
Qed.

Lemma get_all_counts_rep x d l : index_rep x d l -> get_all_counts x d = l.
Proof.
  intros R. pose proof R as [Hnd Hpos Hrg Hsm Hc Hat Ht]. unfold get_all_counts. rewrite Hc. unfold len. rewrite Nat2Z.id. apply flat_map_seq.
  intros i [a c] Hi. unfold count_at. assert (Hf : (fst <$> l) !! i = Some a) by (by rewrite list_lookup_fmap, Hi).
  rewrite (Hat _ _ Hf). destruct (index_rep_position _ _ _ _ _ R Hf) as (_ & _ & Ha). unfold is_agent in Ha. rewrite (proj2 (Z.eqb_neq a 0)) by lia.
  rewrite Ht by lia. rewrite (tally_of_elem l a c) by (done || by eapply list_elem_of_lookup_2). eapply Forall_lookup_1 in Hpos; [|exact Hi]. cbn [snd] in Hpos.
  rewrite Z.gtb_ltb, (proj2 (Z.ltb_lt 0 c)) by lia. done.
Qed.

(** What clearing the first [k] entries of day [d] leaves. *)
Record cleared (x x' : TributeIndex) (d : u32) (l : list (Address * u64)) (k : nat) : Prop := {
  cd_count : address_count x' = address_count x;
  cd_at : forall i, is_u32 i -> Z.of_nat k <= i -> rd (addresses x') (address_index_key d i) = rd (addresses x) (address_index_key d i);
  cd_tally : forall a, 0 <= a < 2 ^ 160 -> rd (tribute_counts x') (tribute_count_key d a) = if decide (a ∈ take k (fst <$> l)) then 0 else count_of l a;
  cd_other_at : forall d' i, is_u32 d' -> is_u32 i -> d' <> d -> rd (addresses x') (address_index_key d' i) = rd (addresses x) (address_index_key d' i);
  cd_other_tally : forall d' a, is_u32 d' -> 0 <= a < 2 ^ 160 -> d' <> d -> rd (tribute_counts x') (tribute_count_key d' a) = rd (tribute_counts x) (tribute_count_key d' a)
}.

Lemma clear_loop x d l k : is_u32 d -> index_rep x d l -> (k <= length l)%nat -> cleared x (foldl (clear_at d) x (seq 0 k)) d l k.
Proof.
  intros Hd R. pose proof R as [Hnd Hpos Hrg Hsm Hc Hat Ht]. induction k as [|k IH]; intros Hk.
  { by split. }
  rewrite seq_S, foldl_app. cbn [foldl Nat.add]. specialize (IH ltac:(lia)). set (x1 := foldl (clear_at d) x (seq 0 k)) in *. clearbody x1. destruct IH as [I1 I2 I3 I4 I5].
  destruct (lookup_lt_is_Some_2 (fst <$> l) k) as [a Ha]; [rewrite length_fmap; lia|]. destruct (index_rep_position _ _ _ _ _ R Ha) as (Hku & _ & Haa).
  unfold clear_at. rewrite I2, (Hat _ _ Ha) by (done || lia). assert (Ha0 : 0 <= a < 2 ^ 160) by (unfold is_agent in Haa; lia).
  rewrite (proj2 (Z.eqb_neq a 0)) by (unfold is_agent in Haa; lia). split; cbn [address_count addresses tribute_counts]; [done|..].
  - intros i Hi Hge. rewrite rd_insert_ne, I2 by (done || lia || intros E; apply address_index_key_inj in E as [_ E]; done || lia). done.
  - intros b Hb. rewrite (take_S_r _ _ _ Ha). destruct (decide (b = a)) as [->|Hne].
    + rewrite rd_insert_eq, decide_True; [done|]. apply elem_of_app. right. by apply list_elem_of_singleton.
    + rewrite rd_insert_ne, I3 by (done || intros E; apply tribute_count_key_inj in E; naive_solver).
      assert (Hiff : b ∈ take k (fst <$> l) ++ [a] <-> b ∈ take k (fst <$> l)) by (rewrite elem_of_app, list_elem_of_singleton; naive_solver).
      repeat case_decide; naive_solver.
  - intros d' i Hd' Hi Hne. rewrite rd_insert_ne, I4 by (done || intros E; apply address_index_key_inj in E; naive_solver). done.
  - intros d' b Hd' Hb Hne. rewrite rd_insert_ne, I5 by (done || intros E; apply tribute_count_key_inj in E; naive_solver). done.
Qed.

Lemma clear_counts_rep x d l : is_u32 d -> index_rep x d l ->
  index_rep (clear_counts x d) d [] /\ forall d' l', is_u32 d' -> d' <> d -> index_rep x d' l' -> index_rep (clear_counts x d) d' l'.
Proof.
  intros Hd R. pose proof (clear_loop x d l (length l) Hd R ltac:(lia)) as [C1 C2 C3 C4 C5]. pose proof R as [Hnd Hpos Hrg Hsm Hc Hat Ht]. unfold clear_counts.
  replace (Z.to_nat (rd (address_count x) d)) with (length l) by (rewrite Hc; unfold len; lia). set (x1 := foldl (clear_at d) x (seq 0 (length l))) in *. clearbody x1. split.
  - split; cbn [address_count addresses tribute_counts]; try constructor; try done; [apply rd_insert_eq|]. intros a Ha. rewrite C3, take_ge by (done || rewrite length_fmap; lia).
    case_decide as Hin; [done|]. by apply (count_of_zero l a Hpos).
  - intros d' l' Hd' Hne R'. apply (index_rep_ext x); [done|..]; cbn [address_count addresses tribute_counts].
    + by rewrite rd_insert_ne, C1.
    + intros i Hi. by apply C4.
    + intros a Ha. by apply C5.
Qed.
End Index.

(** ** Solvency *)

(** What the contract owes is covered by its native balance. *)
Record agent_ok (c : AgentReward) (b : Balances) : Prop := {
  ao_claimable : forall a, 0 <= rd (claimable_rewards c) a;
  ao_balances : balances_ok b;
  ao_solvent : msum (claimable_rewards c) <= rd b AGENT_REWARD_ADDRESS
}.

Definition amounts_at (a : Address) (rewards : list AddressReward) : Z :=
  lsum ((fun r => if decide (ar_address r = a) then ar_reward_amount r else 0) <$> rewards).

Lemma agent_credits_spec rewards : forall c,
  (forall a, 0 <= rd (claimable_rewards c) a) -> Forall (fun r => 0 <= ar_reward_amount r) rewards -> msum (claimable_rewards c) + lsum (ar_reward_amount <$> rewards) < 2 ^ 256 ->
  exists c', foldM credit c rewards = Ok c' /\ waa c' = waa c /\ sra c' = sra c /\ (forall a, 0 <= rd (claimable_rewards c') a) /\
    msum (claimable_rewards c') = msum (claimable_rewards c) + lsum (ar_reward_amount <$> rewards) /\
    forall a, rd (claimable_rewards c') a = rd (claimable_rewards c) a + amounts_at a rewards.
Proof.
  induction rewards as [|r rewards IH]; intros c Hc Hr Hs.
  { exists c. split_and!; try done; cbn; [lia|]. intros a. unfold amounts_at. cbn. lia. }
  apply Forall_cons_1 in Hr as [Hr0 Hr]. cbn [fmap list_fmap] in *. change (lsum (?x :: ?y)) with (x + lsum y) in *. cbn [foldM].
  assert (0 <= lsum (ar_reward_amount <$> rewards)) by (by apply lsum_nonneg, Forall_fmap).
  assert (Hstep : exists c1, credit c r = Ok c1 /\ waa c1 = waa c /\ sra c1 = sra c /\
    (forall a, rd (claimable_rewards c1) a = rd (claimable_rewards c) a + if decide (ar_address r = a) then ar_reward_amount r else 0) /\
    msum (claimable_rewards c1) = msum (claimable_rewards c) + ar_reward_amount r).
  { unfold credit. destruct (Z.eqb_spec (ar_reward_amount r) 0) as [E|E].
    - exists c. split_and!; try done; [|lia]. intros a. case_decide; lia.
    - pose proof (rd_le_msum _ (ar_address r) Hc). unfold add_claimable_reward, checked_add. rewrite (proj2 (Z.ltb_lt _ _)) by lia. cbn [ok_or]. eexists. split; [done|].
      split_and!; try done; cbn [claimable_rewards wr_claimable]; [|rewrite msum_insert; lia]. intros a. rewrite rd_insert. case_decide; subst; lia. }
  destruct Hstep as (c1 & E1 & W1 & S1 & R1 & M1). rewrite E1.
  destruct (IH c1) as (c' & E' & W' & S' & N' & M' & R'); [intros a; rewrite R1; pose proof (Hc a); case_decide; lia|done|lia|].
  exists c'. split_and!; try congruence; try done; [lia|]. intros a. rewrite R', R1. unfold amounts_at. cbn [fmap list_fmap]. change (lsum (?x :: ?y)) with (x + lsum y). lia.
Qed.

Section Pools.
Context `{KeccakLaws}.

(** The day's excess of a capped pool. *)
Definition pool_excess (l : list (Address * u64)) (amount : U256) : Z :=
  if decide (l = []) then amount else Z.max 0 (amount - len l * (amount * 32 / 100)).

Lemma pool_excess_bound l amount : 0 <= amount -> 0 <= pool_excess l amount <= amount.
Proof.
  intros Ha. unfold pool_excess. case_decide; [lia|]. assert (0 <= amount * 32 / 100) by (apply Z.div_pos; lia). unfold len. nia.
Qed.

(** The other index and the other days stay as they are. *)
Definition capped (kind : PoolKind) : Prop := kind = Waa \/ kind = Sra.
Definition other (kind : PoolKind) : PoolKind := match kind with Waa => Sra | _ => Waa end.

Record paid_pool (c : AgentReward) (b : Balances) (c' : AgentReward) (b' : Balances) (minted : Z) : Prop := {
  pp_ok : agent_ok c' b';
  pp_supply : msum b' = msum b + minted;
  pp_credited : msum (claimable_rewards c') = msum (claimable_rewards c) + minted;
  pp_balance : forall a, rd b' a = rd b a + if decide (a = AGENT_REWARD_ADDRESS) then minted else 0
}.

Lemma distribute_capped_spec c b d kind amount l :
  agent_ok c b -> is_u32 d -> capped kind -> index_rep (pool_index kind c) d l -> 0 <= amount < 2 ^ 128 -> msum b + amount < 2 ^ 256 ->
  exists c' b', distribute_capped c b d kind amount = Ok (c', b', pool_excess l amount) /\ paid_pool c b c' b' (amount - pool_excess l amount) /\
    pool_index (other kind) c' = pool_index (other kind) c /\
    pool_index kind c' = (if decide (amount = 0 \/ l = []) then pool_index kind c else clear_counts (pool_index kind c) d).
Proof.
  intros [Oc Ob Os] Hd Hk R Ha Hs. unfold distribute_capped. pose proof (pool_excess_bound l amount ltac:(lia)) as Hex.
  destruct (Z.eqb_spec amount 0) as [->|Hne].
  { assert (pool_excess l 0 = 0) as E0 by lia. rewrite E0. exists c, b. split_and!; [done|split; [done|lia|lia|intros; case_decide; lia]|done|rewrite decide_True by (by left); done]. }
  destruct (increase_balance_spec b AGENT_REWARD_ADDRESS amount Ob ltac:(lia) ltac:(lia)) as (Ob1 & Sb1 & Rb1).
  set (b1 := increase_balance b AGENT_REWARD_ADDRESS amount) in *. clearbody b1. rewrite (get_all_counts_rep _ _ _ R).
  assert (HA : rd b1 AGENT_REWARD_ADDRESS = rd b AGENT_REWARD_ADDRESS + amount) by (rewrite Rb1; by rewrite decide_True).
  assert (HA0 : 0 <= rd b AGENT_REWARD_ADDRESS) by apply Ob.
  pose proof (decrease_balance_spec b1 AGENT_REWARD_ADDRESS (pool_excess l amount) Ob1 ltac:(lia)) as Hdec. rewrite (proj2 (Z.leb_le _ _)) in Hdec by lia.
  destruct Hdec as (b2 & Edec & Ob2 & Sb2 & Rb2). unfold pool_excess in *. destruct (decide (l = [])) as [->|Hl].
  - cbn [len length]. change (len [] =? 0) with true. cbv iota. rewrite Edec. exists c, b2. split_and!; [done| |done|rewrite decide_True by (by right); done].
    split; [split; try done|lia|lia|]; [rewrite Rb2, HA, decide_True by done; lia|]. intros a. rewrite Rb2, Rb1. repeat case_decide; lia.
  - assert (Hlen : len l <> 0) by (destruct l; [done|unfold len; cbn [length]; lia]). rewrite (proj2 (Z.eqb_neq _ _)) by done.
    pose proof R as [Hnd Hpos Hrg Hsm _ _ _].
    pose proof (calculate_distribution_spec amount l ltac:(lia) Hl) as Hcap. cbv zeta in Hcap.
    destruct (calculate_distribution_with_cap amount l) as [rewards excess].
    destruct Hcap as (_ & _ & Hsum & Hexc & Hall); [eapply Forall_impl; [exact Hpos|]; cbn; lia|lia|].
    rewrite <- Hexc in *. assert (Hrn : Forall (fun r => 0 <= ar_reward_amount r) rewards) by (eapply Forall_impl; [exact Hall|by intros r [? _]]).
    pose proof (rd_le_msum b1 AGENT_REWARD_ADDRESS ltac:(apply Ob1)).
    destruct (agent_credits_spec rewards c Oc Hrn ltac:(lia)) as (c1 & Ec & Ew & Es & Nc & Mc & _). rewrite Ec.
    assert (Eb : (if excess =? 0 then Ok b1 else decrease_balance b1 AGENT_REWARD_ADDRESS excess) = Ok b2).
    { destruct (Z.eqb_spec excess 0) as [->|]; [|done]. exact Edec. }
    rewrite Eb. do 2 eexists. split; [reflexivity|]. rewrite decide_False by tauto.
    assert (Ecl : claimable_rewards (with_pool_index kind c1 (clear_counts (pool_index kind c1) d)) = claimable_rewards c1) by (by destruct kind).
    split_and!; [|destruct Hk as [-> | ->]; cbn; congruence..]. split; rewrite ?Ecl; [split; rewrite ?Ecl; try done|lia|lia|].
    + rewrite Rb2, HA, decide_True by done. lia.
    + intros a. rewrite Rb2, Rb1. repeat case_decide; lia.
Qed.

Definition wf_index (x : TributeIndex) : Prop := forall d, is_u32 d -> exists l, index_rep x d l.
Definition wf_agent (c : AgentReward) : Prop := wf_index (waa c) /\ wf_index (sra c).

Lemma wf_clear x d : is_u32 d -> wf_index x -> wf_index (clear_counts x d).
Proof.
  intros Hd Hx d' Hd'. destruct (Hx d Hd) as [l R]. destruct (clear_counts_rep x d l Hd R) as [R1 R2]. destruct (decide (d' = d)) as [->|Hne]; [by exists []|].
  destruct (Hx d' Hd') as [l' R']. exists l'. by apply R2.
Qed.

Lemma wf_increment x d a : is_u32 d -> is_agent a -> (forall l, index_rep x d l -> lsum (snd <$> l) < 2 ^ 32 - 1) -> wf_index x -> wf_index (increment_tribute x d a).
Proof.
  intros Hd Ha Hs Hx d' Hd'. destruct (Hx d Hd) as [l R]. destruct (decide (d' = d)) as [->|Hne]; [exists (bump l a); apply increment_rep; auto|].
  destruct (Hx d' Hd') as [l' R']. exists l'. apply increment_other; try done. rewrite (ir_count _ _ _ R). pose proof (index_rep_len _ _ _ R). unfold is_u32. lia.
Qed.

(** What a list of pools mints where. *)
Definition to_pool (kind : PoolKind) (pools : list (PoolKind * U256)) : Z :=
  lsum ((fun p => match kind, fst p with Waa, Waa | Sra, Sra | Cca, Cca | Merchant, Merchant => snd p | _, _ => 0 end) <$> pools).
Definition agent_total (pools : list (PoolKind * U256)) : Z := to_pool Waa pools + to_pool Sra pools.

Record paid_daily (c : AgentReward) (b : Balances) (c' : AgentReward) (b' : Balances) (pools : list (PoolKind * U256)) (excess : Z) : Prop := {
  pd_ok : agent_ok c' b';
  pd_wf : wf_agent c';
  pd_excess : 0 <= excess <= agent_total pools;
  pd_credited : msum (claimable_rewards c') = msum (claimable_rewards c) + agent_total pools - excess;
  pd_agent : rd b' AGENT_REWARD_ADDRESS = rd b AGENT_REWARD_ADDRESS + agent_total pools - excess;
  pd_cca : rd b' CCA_ADDRESS = rd b CCA_ADDRESS + to_pool Cca pools;
  pd_merchant : rd b' MERCHANT_ADDRESS = rd b MERCHANT_ADDRESS + to_pool Merchant pools;
  pd_rest : forall a, a <> AGENT_REWARD_ADDRESS -> a <> CCA_ADDRESS -> a <> MERCHANT_ADDRESS -> rd b' a = rd b a;
  pd_supply : msum b' = msum b + lsum (snd <$> pools) - excess
}.

Lemma to_pool_app kind p1 p2 : to_pool kind (p1 ++ p2) = to_pool kind p1 + to_pool kind p2.
Proof. unfold to_pool. by rewrite fmap_app, lsum_app. Qed.

Lemma paid_daily_trans c b c1 b1 c2 b2 p1 p2 e1 e2 :
  paid_daily c b c1 b1 p1 e1 -> paid_daily c1 b1 c2 b2 p2 e2 -> paid_daily c b c2 b2 (p1 ++ p2) (e1 + e2).
Proof.
  intros [A1 A2 A3 A4 A5 A6 A7 A8 A9] [B1 B2 B3 B4 B5 B6 B7 B8 B9]. unfold agent_total in *.
  split; unfold agent_total; rewrite ?to_pool_app, ?fmap_app, ?lsum_app; try done; try lia. intros a ? ? ?. by rewrite B8, A8.
Qed.

Ltac solve_paid P4 :=
  split; unfold agent_total, to_pool; cbn [fmap list_fmap fst snd lsum foldr]; try done; try lia; rewrite ?P4; try (intros; rewrite P4); repeat case_decide; done || lia.

Lemma distribute_pool_spec c b t d p : agent_ok c b -> wf_agent c -> is_u32 d -> 0 <= snd p < 2 ^ 128 -> msum b + snd p < 2 ^ 256 -> 0 <= t -> t + snd p < 2 ^ 256 ->
  exists c' b' ex, distribute_pool d (c, b, t) p = Ok (c', b', t + ex) /\ paid_daily c b c' b' [p] ex.
Proof.
  intros Ho [Hw Hsr] Hd Hp Hb Ht Htp. destruct p as [kind amount]. cbn [fst snd] in *. unfold distribute_pool. cbn [fst snd].
  assert (Hcapped : forall k, capped k -> k = kind -> exists c' b' ex, distribute_capped c b d k amount = Ok (c', b', ex) /\ 0 <= ex <= amount /\
    paid_pool c b c' b' (amount - ex) /\ wf_agent c').
  { intros k Hk _. assert (Hwf : wf_index (pool_index k c)) by (by destruct Hk as [-> | ->]). destruct (Hwf d Hd) as [l R].
    destruct (distribute_capped_spec c b d k amount l Ho Hd Hk R Hp Hb) as (c' & b' & E & P & I1 & I2). exists c', b', (pool_excess l amount). split_and!; try done; [apply pool_excess_bound; lia..|].
    assert (Hk' : wf_index (pool_index k c')) by (rewrite I2; case_decide; [done|by apply wf_clear]). destruct Hk as [-> | ->]; cbn in I1, Hk'; split; rewrite ?I1; done. }
  assert (Hacc : forall a, a <> AGENT_REWARD_ADDRESS -> let b' := accumulate_to_address b a amount in
    agent_ok c b' /\ msum b' = msum b + amount /\ forall x, rd b' x = rd b x + if decide (x = a) then amount else 0).
  { intros a Ha. cbv zeta. destruct Ho as [Oc Ob Os]. unfold accumulate_to_address. destruct (Z.eqb_spec amount 0) as [->|].
    - split_and!; [done|lia|]. intros x. case_decide; lia.
    - destruct (increase_balance_spec b a amount Ob ltac:(lia) Hb) as (O1 & S1 & R1). split_and!; [|done|done]. split; try done. rewrite R1, decide_False by done. lia. }
  assert (Hadd : forall x, 0 <= x <= amount -> ok_or (checked_add 256 t x) (Revert "agentreward distribute_daily overflow") = Ok (t + x)).
  { intros x Hx. unfold checked_add. by rewrite (proj2 (Z.ltb_lt _ _)) by lia. }
  destruct kind.
  - destruct (Hcapped Waa ltac:(by left) eq_refl) as (c' & b' & ex & E & Hex & [P1 P2 P3 P4] & W). rewrite E, Hadd by done. exists c', b', ex. split; [done|]. solve_paid P4.
  - destruct (Hcapped Sra ltac:(by right) eq_refl) as (c' & b' & ex & E & Hex & [P1 P2 P3 P4] & W). rewrite E, Hadd by done. exists c', b', ex. split; [done|]. solve_paid P4.
  - destruct (Hacc CCA_ADDRESS ltac:(done)) as (P1 & P2 & P4). rewrite Hadd by lia. exists c, (accumulate_to_address b CCA_ADDRESS amount), 0. split; [done|]. solve_paid P4.
  - destruct (Hacc MERCHANT_ADDRESS ltac:(done)) as (P1 & P2 & P4). rewrite Hadd by lia. exists c, (accumulate_to_address b MERCHANT_ADDRESS amount), 0. split; [done|]. solve_paid P4.
Qed.

Lemma distribute_daily_spec pools : forall c b t d,
  agent_ok c b -> wf_agent c -> is_u32 d -> Forall (fun p => 0 <= snd p < 2 ^ 128) pools -> msum b + lsum (snd <$> pools) < 2 ^ 256 ->
  0 <= t -> t + lsum (snd <$> pools) < 2 ^ 256 ->
  exists c' b' ex, foldM (distribute_pool d) (c, b, t) pools = Ok (c', b', t + ex) /\ paid_daily c b c' b' pools ex.
Proof.
  induction pools as [|p pools IH]; intros c b t d Ho Hw Hd Hp Hb Ht Htp.
  { exists c, b, 0. rewrite Z.add_0_r. split; [done|]. split; unfold agent_total, to_pool; cbn; done || lia. }
  apply Forall_cons_1 in Hp as [Hp0 Hp]. cbn [fmap list_fmap] in Hb, Htp. change (lsum (?x :: ?y)) with (x + lsum y) in *.
  assert (0 <= lsum (snd <$> pools)) by (apply lsum_nonneg, Forall_fmap; eapply Forall_impl; [exact Hp|]; cbn; lia).
  destruct (distribute_pool_spec c b t d p) as (c1 & b1 & e1 & E1 & P1); try done; try lia. cbn [foldM]. rewrite E1.
  pose proof P1 as [A1 A2 A3 A4 A5 A6 A7 A8 A9]. unfold agent_total, to_pool in A3, A9. cbn [fmap list_fmap fst snd lsum foldr] in A3, A9.
  destruct (IH c1 b1 (t + e1) d) as (c2 & b2 & e2 & E2 & P2); try done; try (destruct (fst p); lia). exists c2, b2, (e1 + e2). rewrite Z.add_assoc. split; [exact E2|].
  by apply (paid_daily_trans c b c1 b1 c2 b2 [p] pools e1 e2).
Qed.

(** ** Runs of the contract

    Tributes are counted, a day's pools are distributed, agents claim, and other
    transactions move native coins without taking any from the contract. *)
Inductive agent_step : AgentReward * Balances -> AgentReward * Balances -> Prop :=
| step_waa c b d a : is_u32 d -> is_agent a -> (forall l, index_rep (waa c) d l -> lsum (snd <$> l) < 2 ^ 32 - 1) ->
    agent_step (c, b) (increment_waa_tribute c d a, b)
| step_sra c b d a : is_u32 d -> is_agent a -> (forall l, index_rep (sra c) d l -> lsum (snd <$> l) < 2 ^ 32 - 1) ->
    agent_step (c, b) (increment_sra_tribute c d a, b)
| step_daily c b d pools c' b' ex : is_u32 d -> Forall (fun p => 0 <= snd p < 2 ^ 128) pools -> msum b + lsum (snd <$> pools) < 2 ^ 256 ->
    distribute_daily c b d pools = Ok (c', b', ex) -> agent_step (c, b) (c', b')
| step_claim c b sender amount c' b' paid : 0 <= amount -> abi_claim_reward c b sender amount = Ok (c', b', paid) -> agent_step (c, b) (c', b')
| step_native c b b' : balances_ok b' -> rd b AGENT_REWARD_ADDRESS <= rd b' AGENT_REWARD_ADDRESS -> agent_step (c, b) (c, b').

(** A claim within the claimable amount goes through and moves exactly that amount. *)
Lemma claim_reward_spec c b sender amount : agent_ok c b -> 0 <= amount <= rd (claimable_rewards c) sender ->
  exists b', claim_reward c b sender amount = Ok (wr_claimable c sender (rd (claimable_rewards c) sender - amount), b', amount) /\
    agent_ok (wr_claimable c sender (rd (claimable_rewards c) sender - amount)) b' /\ msum b' = msum b /\
    forall a, rd b' a = rd b a - (if decide (a = AGENT_REWARD_ADDRESS) then amount else 0) + (if decide (a = sender) then amount else 0).
Proof.
  intros [Oc Ob Os] Ha. unfold claim_reward. rewrite Z.gtb_ltb, (proj2 (Z.ltb_ge _ _)) by lia. cbn [negb].
  pose proof (rd_le_msum _ sender Oc) as Hle. pose proof (balances_fits b AGENT_REWARD_ADDRESS Ob) as Hf. unfold fits in Hf. rewrite wsub_small by lia.
  pose proof (transfer_balance_spec b AGENT_REWARD_ADDRESS sender amount Ob ltac:(lia)) as Ht. rewrite (proj2 (Z.leb_le _ _)) in Ht by lia.
  destruct Ht as (b' & E & Ob' & Sb & Rb). rewrite E. exists b'. split_and!; try done. split; try done; cbn [claimable_rewards wr_claimable].
  - intros a. rewrite rd_insert. case_decide; [lia|apply Oc].
  - rewrite msum_insert, Rb. rewrite (decide_True (P := AGENT_REWARD_ADDRESS = AGENT_REWARD_ADDRESS)) by done. case_decide; lia.
Qed.

Lemma agent_step_ok s s' : agent_step s s' -> agent_ok (fst s) (snd s) -> wf_agent (fst s) -> agent_ok (fst s') (snd s') /\ wf_agent (fst s').
Proof.
  intros Hs Ho Hw. pose proof Ho as [Oc Ob Os]. pose proof Hw as [Hw1 Hw2]. destruct Hs as [c b d a|c b d a|c b d pools c' b' ex Hd Hp Hsum E|c b sender amount c' b' paid Hamt E|c b b' Hb' Hle]; cbn [fst snd] in *.
  - split; [by split|]. split; [by apply wf_increment|done].
  - split; [by split|]. split; [done|by apply wf_increment].
  - assert (Hm : 0 <= msum b) by (apply msum_nonneg, Ob). assert (0 <= lsum (snd <$> pools)) by (apply lsum_nonneg, Forall_fmap; eapply Forall_impl; [eassumption|]; cbn; lia).
    destruct (distribute_daily_spec pools c b 0 d) as (c1 & b1 & e1 & E1 & P1); try done; try lia. unfold distribute_daily in E. rewrite E1 in E.
    apply Ok_inj in E. injection E as <- <- _. split; apply P1.
  - unfold abi_claim_reward in E. cbv zeta in E. set (amt := if amount =? 0 then _ else _) in *. destruct (amt =? 0) eqn:Ez.
    { apply Ok_inj in E. injection E as <- <- _. done. }
    destruct (decide (0 <= amt <= rd (claimable_rewards c) sender)) as [Hr|Hr].
    + destruct (claim_reward_spec c b sender amt Ho Hr) as (b1 & E1 & O1 & _). rewrite E1 in E. apply Ok_inj in E. injection E as <- <- _. by split.
    + assert (Hn : 0 <= amt) by (unfold amt, get_claimable_reward; destruct (amount =? 0); [apply Oc|done]). unfold claim_reward in E. cbv zeta in E.
      rewrite Z.gtb_ltb, (proj2 (Z.ltb_lt _ _)) in E by lia. discriminate E.
  - split; [|done]. split; try done. lia.
Qed.

(** In every state the agent-reward contract can reach from a solvent one, by any interleaving of tributes, daily distributions, claims and
    foreign transfers, the claimable rewards are covered by the contract's balance, and so every agent can claim all of its reward: the claim of
    any amount up to the credited one succeeds, pays the claimant exactly that amount out of the contract, and leaves the state solvent. *)
Theorem agent_rewards_claimable c b s' sender amount :
  agent_ok c b -> wf_agent c -> rtc agent_step (c, b) s' -> 0 < amount <= rd (claimable_rewards (fst s')) sender ->
  msum (claimable_rewards (fst s')) <= rd (snd s') AGENT_REWARD_ADDRESS /\
  exists c2 b2, abi_claim_reward (fst s') (snd s') sender amount = Ok (c2, b2, amount) /\ agent_ok c2 b2 /\
    rd (claimable_rewards c2) sender = rd (claimable_rewards (fst s')) sender - amount /\
    (sender <> AGENT_REWARD_ADDRESS -> rd b2 sender = rd (snd s') sender + amount).
Proof.
  intros Ho Hw Hr Ha. assert (Hs : agent_ok (fst s') (snd s') /\ wf_agent (fst s')).
  { change c with (fst (c, b)) in Ho, Hw. change b with (snd (c, b)) in Ho at 2. revert Ho Hw. induction Hr as [s|s1 s2 s3 Hstep _ IH]; intros Ho Hw; [done|].
    destruct (agent_step_ok s1 s2 Hstep Ho Hw) as [Ho2 Hw2]. by apply IH. }
  destruct Hs as [Ho' _]. split; [apply Ho'|]. destruct (claim_reward_spec (fst s') (snd s') sender amount Ho' ltac:(lia)) as (b2 & E & O2 & _ & R2).
  unfold abi_claim_reward. rewrite (proj2 (Z.eqb_neq amount 0)) by lia. cbv zeta. rewrite (proj2 (Z.eqb_neq amount 0)), E by lia. do 2 eexists. split; [reflexivity|].
  split_and!; [done|apply rd_insert_eq|]. intros Hne. rewrite R2. rewrite decide_False, decide_True by done. lia.
Qed.
End Pools.

(** The capped distribution of a pool pays, to exactly the agents with a count and in address order, at least the proportional share (or the
    cap, where that is less) and never more than the cap of 32 percent; payments and excess add up to the pool; and the excess is the least the
    cap allows: zero as soon as the caps together cover the pool, and otherwise what is left when every agent is at the cap. *)
Theorem capped_distribution_exact pool counts :
  0 < pool < 2 ^ 128 -> counts <> [] -> Forall (fun p => 0 < snd p) counts -> lsum (snd <$> counts) < 2 ^ 64 ->
  let cap := pool * 32 / 100 in
  let total := lsum (snd <$> counts) in
  let '(rewards, excess) := calculate_distribution_with_cap pool counts in
  let paid := (fun r => (ar_address r, ar_tribute_count r)) <$> rewards in
  paid ≡ₚ counts /\ StronglySorted key_le paid /\
  lsum (ar_reward_amount <$> rewards) + excess = pool /\ excess = Z.max 0 (pool - len counts * cap) /\
  Forall (fun r => 0 <= ar_reward_amount r /\ Z.min cap (pool * ar_tribute_count r / total) <= ar_reward_amount r <= cap) rewards.
Proof. apply calculate_distribution_spec. Qed.

Lemma capped_distribution_exact_witness :
  let '(rewards, excess) := calculate_distribution_with_cap 1000 [(7, 8); (3, 1); (9, 1)] in
  lsum (ar_reward_amount <$> rewards) + excess = 1000 /\ excess = 40.
Proof.
  pose proof (capped_distribution_exact 1000 [(7, 8); (3, 1); (9, 1)] ltac:(lia) ltac:(discriminate) ltac:(repeat constructor) ltac:(vm_compute; reflexivity)) as H.
  cbv zeta in H. destruct (calculate_distribution_with_cap 1000 [(7, 8); (3, 1); (9, 1)]) as [rewards excess]. destruct H as (_ & _ & H1 & H2 & _).
  split; [exact H1|]. rewrite H2. reflexivity.
Defined.

Definition empty_index : TributeIndex := mkIndex ∅ ∅ ∅.

Lemma empty_index_wf `{KeccakLaws} : wf_index empty_index.
Proof. intros d Hd. exists []. split; try constructor; cbn; done. Qed.

Lemma empty_agent_ok : agent_ok (mkAgent empty_index empty_index ∅) ∅.
Proof. split; cbn; [done|split; [done|reflexivity]|]. rewrite msum_empty. done. Qed.

(** One wallet agent with one tribute; the pool of the day is 1000. *)
Definition sample_agent : AgentReward := increment_waa_tribute (H := sample_crypto) (mkAgent empty_index empty_index ∅) 20260101 5.
Definition sample_pools : list (PoolKind * U256) := [(Waa, 1000); (Sra, 50); (Cca, 10); (Merchant, 7)].
Definition sample_daily : AgentReward * Balances :=
  match distribute_daily (H := sample_crypto) sample_agent ∅ 20260101 sample_pools with Ok (c, b, _) => (c, b) | Err _ => (sample_agent, ∅) end.

Lemma agent_rewards_claimable_witness :
  exists c2 b2, abi_claim_reward (fst sample_daily) (snd sample_daily) 5 320 = Ok (c2, b2, 320) /\ rd b2 5 = 320.
Proof.
  assert (Hr : rd (claimable_rewards (fst sample_daily)) 5 = 320) by (vm_compute; reflexivity).
  assert (Hb : rd (snd sample_daily) 5 = 0) by (vm_compute; reflexivity).
  assert (Hx : is_ok (distribute_daily (H := sample_crypto) sample_agent ∅ 20260101 sample_pools) = true) by (vm_compute; reflexivity).
  destruct (@agent_rewards_claimable sample_crypto sample_keccak (mkAgent empty_index empty_index ∅) ∅ sample_daily 5 320) as (_ & c2 & b2 & E & _ & _ & Hb2).
  - exact empty_agent_ok.
  - split; apply (@empty_index_wf sample_crypto sample_keccak).
  - apply (rtc_l _ _ (sample_agent, ∅)).
    + apply step_waa; [split; [discriminate|reflexivity]|split; reflexivity|]. intros l R. destruct l as [|[a c] l]; [done|]. pose proof (ir_count _ _ _ R) as Hc. discriminate Hc.
    + apply (rtc_l _ _ sample_daily); [|apply rtc_refl]. unfold sample_daily. destruct (distribute_daily sample_agent ∅ 20260101 sample_pools) as [[[c b] ex]|] eqn:E; [|discriminate Hx].
      apply (step_daily _ _ 20260101 sample_pools _ _ ex); [split; [discriminate|reflexivity]| |reflexivity|exact E].
      repeat constructor; cbn; lia.
  - rewrite Hr. lia.
  - exists c2, b2. split; [exact E|]. rewrite Hb2, Hb by discriminate. reflexivity.
Defined.
