(* ===== verification/Tribute.v ===== *)
(** * Tribute: the store of daily tributes

    [crates/core/tribute]: tributes by id, the per-day totals with their seal, and
    the append-only enumerations by day and by owner. A burn deletes the record
    and corrects the totals but leaves the enumerations alone; their readers skip
    the ids that no longer exist. Keys are hashes of their parts. The token URI,
    events and the ERC-721 views are left out. *)

From S2P Require Import Prelude Storage.

Record TributeData := mkTribute {
  token_id : U256;
  tr_owner : Address;
  tr_day : u32;
  issuance_amount_minor : U256;
  issuance_currency : Z;
  nominal_amount_minor : U256;
  reference_currency : Z;
  tribute_price_minor : U256
}.

Record DayTotals := mkTotals {
  dt_day : u32;
  initialized : bool;
  tribute_count : u32;
  tribute_nominal_amount : U256;
  is_sealed : bool
}.

#[global] Instance tribute_record : StorageRecord Z TributeData :=
  {| rec_key := token_id; rec_exists v := negb (tr_owner v =? 0); rec_name := "TributeData" |}.
#[global] Instance totals_record : StorageRecord Z DayTotals :=
  {| rec_key := dt_day; rec_exists := initialized; rec_name := "DayTotals" |}.

Record TributeContract := mkTributes {
  total_supply : u64;
  tributes : gmap U256 TributeData;
  day_totals : gmap u32 DayTotals;
  day_index_counts : gmap u32 u32;
  day_token_ids : gmap B256 U256;
  owner_index_counts : gmap Address u32;
  owner_tribute_ids : gmap B256 U256
}.

Definition set_total_supply (t : TributeContract) (v : u64) : TributeContract :=
  mkTributes v (tributes t) (day_totals t) (day_index_counts t) (day_token_ids t) (owner_index_counts t) (owner_tribute_ids t).
Definition set_tributes (t : TributeContract) (v : gmap U256 TributeData) : TributeContract :=
  mkTributes (total_supply t) v (day_totals t) (day_index_counts t) (day_token_ids t) (owner_index_counts t) (owner_tribute_ids t).
Definition set_day_totals (t : TributeContract) (v : gmap u32 DayTotals) : TributeContract :=
  mkTributes (total_supply t) (tributes t) v (day_index_counts t) (day_token_ids t) (owner_index_counts t) (owner_tribute_ids t).

Section Tribute.
Context `{Crypto}.

(** ** [state.rs] *)

Definition day_index_key (day index : u32) : B256 := keccak256 (be_bytes 4 day ++ be_bytes 4 index).
Definition owner_index_key (owner : Address) (index : u32) : B256 := keccak256 (be_bytes 20 owner ++ be_bytes 4 index).

Definition get_tribute (t : TributeContract) (id : U256) : option TributeData := rget (tributes t) id.

Definition owner_of (t : TributeContract) (id : U256) : res Address :=
  let? tribute := ok_or (get_tribute t id) (Revert "tribute not found") in
  Ok (tr_owner tribute).

Definition get_day_totals (t : TributeContract) (day : u32) : DayTotals :=
  match rget (day_totals t) day with Some totals => totals | None => mkTotals day false 0 0 false end.

Definition is_day_sealed (t : TributeContract) (day : u32) : bool :=
  match rget (day_totals t) day with Some totals => is_sealed totals | None => false end.

(** An id of an enumeration that is still there. *)
Definition live_id (t : TributeContract) (id : U256) : list U256 :=
  if id =? 0 then [] else if rexists (tributes t) id then [id] else [].

Definition get_tribute_ids_by_owner (t : TributeContract) (owner : Address) : list U256 :=
  flat_map (fun i => live_id t (rd (owner_tribute_ids t) (owner_index_key owner (Z.of_nat i)))) (seq 0 (Z.to_nat (rd (owner_index_counts t) owner))).

Definition balance_of (t : TributeContract) (owner : Address) : res u64 :=
  let count := len (get_tribute_ids_by_owner t owner) in
  ensure count <? 2 ^ 64 else Revert "owner balance overflow" in
  Ok count.

Definition get_day_token_id (t : TributeContract) (day index : u32) : U256 := rd (day_token_ids t) (day_index_key day index).

Definition get_tribute_ids_by_day (t : TributeContract) (day : u32) : list U256 :=
  flat_map (fun i => live_id t (get_day_token_id t day (Z.of_nat i))) (seq 0 (Z.to_nat (rd (day_index_counts t) day))).

Definition clear_day_index (t : TributeContract) (day : u32) : TributeContract :=
  let count := rd (day_index_counts t) day in
  let ids := foldl (fun ids i => <[day_index_key day (Z.of_nat i) := 0]> ids) (day_token_ids t) (seq 0 (Z.to_nat count)) in
  mkTributes (total_supply t) (tributes t) (day_totals t) (<[day := 0]> (day_index_counts t)) ids (owner_index_counts t) (owner_tribute_ids t).

Definition validate_tribute_for_issue (tribute : TributeData) : res unit :=
  ensure negb (tr_owner tribute =? 0) else Revert "invalid owner" in
  ensure negb (issuance_amount_minor tribute =? 0) else Revert "settlement amount must be positive" in
  Ok tt.

Definition ensure_day_accepts_tributes (t : TributeContract) (day : u32) : res unit :=
  let totals := get_day_totals t day in
  ensure negb (negb (initialized totals) || is_sealed totals) else Revert "worldwide day is sealed" in
  Ok tt.

Definition store_day_totals (t : TributeContract) (totals : DayTotals) : res TributeContract :=
  let? m := (if rexists (day_totals t) (dt_day totals) then rupdate (day_totals t) totals else rcreate (day_totals t) totals) in
  Ok (set_day_totals t m).

(** [delta_count] is [1] at an issue and [-1] at a burn. *)
Definition bump_day_bucket (t : TributeContract) (day : u32) (delta_count : Z) (nominal_amount : U256) : res TributeContract :=
  let totals := get_day_totals t day in
  let totals :=
    if delta_count >=? 0 then
      mkTotals (dt_day totals) true (saturating_add 32 (tribute_count totals) delta_count)
        (saturating_add 256 (tribute_nominal_amount totals) nominal_amount) (is_sealed totals)
    else
      mkTotals (dt_day totals) true (saturating_sub (tribute_count totals) (- delta_count))
        (saturating_sub (tribute_nominal_amount totals) nominal_amount) (is_sealed totals) in
  store_day_totals t totals.

Definition add_to_day_index (t : TributeContract) (day : u32) (id : U256) : TributeContract :=
  let count := rd (day_index_counts t) day in
  mkTributes (total_supply t) (tributes t) (day_totals t) (<[day := wadd 32 count 1]> (day_index_counts t))
    (<[day_index_key day count := id]> (day_token_ids t)) (owner_index_counts t) (owner_tribute_ids t).

Definition add_to_owner_index (t : TributeContract) (owner : Address) (id : U256) : TributeContract :=
  let count := rd (owner_index_counts t) owner in
  mkTributes (total_supply t) (tributes t) (day_totals t) (day_index_counts t) (day_token_ids t)
    (<[owner := wadd 32 count 1]> (owner_index_counts t)) (<[owner_index_key owner count := id]> (owner_tribute_ids t)).

(** ** [runtime.rs] *)

Definition tributes_of (t : TributeContract) (ids : list U256) : list TributeData :=
  flat_map (fun id => match get_tribute t id with Some tribute => [tribute] | None => [] end) ids.
Definition get_tributes_by_owner (t : TributeContract) (owner : Address) : list TributeData := tributes_of t (get_tribute_ids_by_owner t owner).
Definition get_all_day_tributes (t : TributeContract) (day : u32) : list TributeData := tributes_of t (get_tribute_ids_by_day t day).

Definition issue (t : TributeContract) (tribute : TributeData) : res TributeContract :=
  let? _ := validate_tribute_for_issue tribute in
  let? _ := ensure_day_accepts_tributes t (tr_day tribute) in
  let? m := rcreate (tributes t) tribute in
  let t := set_tributes t m in
  let t := add_to_day_index t (tr_day tribute) (token_id tribute) in
  let t := add_to_owner_index t (tr_owner tribute) (token_id tribute) in
  let? t := bump_day_bucket t (tr_day tribute) 1 (nominal_amount_minor tribute) in
  Ok (set_total_supply t (wadd 64 (total_supply t) 1)).

Definition burn (t : TributeContract) (id : U256) : res TributeContract :=
  let? tribute := ok_or (get_tribute t id) (Revert "tribute not found") in
  let t := set_tributes t (rdelete (tributes t) id) in
  let? t := bump_day_bucket t (tr_day tribute) (-1) (nominal_amount_minor tribute) in
  Ok (if total_supply t >? 0 then set_total_supply t (total_supply t - 1) else t).

Definition burn_all_by_wwd (t : TributeContract) (day : u32) : res TributeContract :=
  let? t := foldM burn t (get_tribute_ids_by_day t day) in
  Ok (clear_day_index t day).

Definition set_sealed (t : TributeContract) (day : u32) (v : bool) : res TributeContract :=
  let totals := get_day_totals t day in
  store_day_totals t (mkTotals (dt_day totals) true (tribute_count totals) (tribute_nominal_amount totals) v).
Definition seal_day (t : TributeContract) (day : u32) : res TributeContract := set_sealed t day true.
Definition unseal_day (t : TributeContract) (day : u32) : res TributeContract := set_sealed t day false.
End Tribute.

(** ** Enumerations

    [counts] holds the length of the list of [k], [ids] its entries under the
    hash of [k] and the position. *)

Definition snoc_at (k : Z) (x : Z) (F : Z -> list Z) : Z -> list Z := fun k' => if decide (k' = k) then F k' ++ [x] else F k'.

Section Enumeration.
Context (key : Z -> Z -> Z) (dom : Z -> Prop).
Hypothesis key_inj : forall k k' i i', dom k -> dom k' -> is_u32 i -> is_u32 i' -> key k i = key k' i' -> k = k' /\ i = i'.

Record enum_rep (counts ids : gmap Z Z) (k : Z) (l : list Z) : Prop := {
  enum_len : rd counts k = len l;
  enum_u32 : len l < 2 ^ 32;
  enum_at : forall (i : nat) x, l !! i = Some x -> rd ids (key k (Z.of_nat i)) = x
}.

Lemma enum_pos counts ids k l (i : nat) x : enum_rep counts ids k l -> l !! i = Some x -> is_u32 (Z.of_nat i).
Proof. intros [_ Hu _] Hi. apply lookup_lt_Some in Hi. unfold is_u32, len in *. lia. Qed.

Lemma enum_append counts ids k l x : dom k -> enum_rep counts ids k l -> len l < 2 ^ 32 - 1 ->
  enum_rep (<[k := wadd 32 (rd counts k) 1]> counts) (<[key k (rd counts k) := x]> ids) k (l ++ [x]).
Proof.
  intros Hk R Hl. pose proof R as [E Hu Hat]. assert (0 <= len l) by (unfold len; lia). rewrite E. constructor.
  - rewrite rd_insert_eq, wadd_small by lia. unfold len. rewrite length_app. cbn. lia.
  - unfold len in *. rewrite length_app. cbn. lia.
  - intros i y Hi. apply lookup_app_Some in Hi as [Hi|[Hge Hi]].
    + rewrite rd_insert_ne; [by apply Hat|]. pose proof (enum_pos _ _ _ _ _ _ R Hi) as Hp. apply lookup_lt_Some in Hi.
      intros Ek. apply key_inj in Ek as [_ Ek]; [|done..|done]; unfold is_u32, len in *; lia.
    + destruct (i - length l)%nat eqn:Ei; [|done]. injection Hi as <-. replace (Z.of_nat i) with (len l) by (unfold len; lia). apply rd_insert_eq.
Qed.

Lemma enum_append_ne counts ids k k' l x : dom k -> dom k' -> k <> k' -> is_u32 (rd counts k) -> enum_rep counts ids k' l ->
  enum_rep (<[k := wadd 32 (rd counts k) 1]> counts) (<[key k (rd counts k) := x]> ids) k' l.
Proof.
  intros Hk Hk' Hne Hc R. pose proof R as [E Hu Hat]. constructor; [by rewrite rd_insert_ne|done|].
  intros i y Hi. rewrite rd_insert_ne; [by apply Hat|]. intros Ek. apply key_inj in Ek as [? _]; try done. by eapply enum_pos.
Qed.

Lemma enum_snoc counts ids F k x : dom k -> (forall k', dom k' -> enum_rep counts ids k' (F k')) -> len (F k) < 2 ^ 32 - 1 ->
  forall k', dom k' -> enum_rep (<[k := wadd 32 (rd counts k) 1]> counts) (<[key k (rd counts k) := x]> ids) k' (snoc_at k x F k').
Proof.
  intros Hk R Hl k' Hk'. unfold snoc_at. case_decide as E.
  - subst k'. by apply enum_append; [|apply R|].
  - apply enum_append_ne; [done|done|congruence| |by apply R]. rewrite (enum_len _ _ _ _ (R k Hk)). unfold is_u32, len in *. lia.
Qed.

Lemma enum_erase_ne k k' i (ids : gmap Z Z) (n : nat) : dom k -> dom k' -> k <> k' -> is_u32 i -> Z.of_nat n <= 2 ^ 32 ->
  rd (foldl (fun ids j => <[key k (Z.of_nat j) := 0]> ids) ids (seq 0 n)) (key k' i) = rd ids (key k' i).
Proof.
  intros Hk Hk' Hne Hi. induction n as [|n IH]; [done|]. intros Hn. rewrite seq_S, foldl_app. cbn [foldl Nat.add].
  rewrite rd_insert_ne; [apply IH; lia|]. intros Ek. apply key_inj in Ek as [? _]; try done. unfold is_u32. lia.
Qed.

(** Reading the entries of [k] in order gives the list. *)
Lemma enum_read {A} (f : Z -> list A) counts ids k l : enum_rep counts ids k l ->
  flat_map (fun i => f (rd ids (key k (Z.of_nat i)))) (seq 0 (Z.to_nat (rd counts k))) = flat_map f l.
Proof.
  intros [E _ Hat]. rewrite E. unfold len. rewrite Nat2Z.id. clear E.
  induction l as [|x l IH] using rev_ind; [done|].
  rewrite length_app, Nat.add_comm, seq_S, !flat_map_app. cbn [flat_map Nat.add]. f_equal.
  - apply IH. intros i y Hi. apply Hat. by apply lookup_app_l_Some.
  - rewrite (Hat (length l) x) by (by apply list_lookup_middle). done.
Qed.
End Enumeration.

(** ** What the store represents *)

Section Represents.
Context `{KeccakLaws}.

Lemma day_key_inj d d' i i' : is_u32 d -> is_u32 d' -> is_u32 i -> is_u32 i' -> day_index_key d i = day_index_key d' i' -> d = d' /\ i = i'.
Proof.
  unfold is_u32. intros Hd Hd' Hi Hi' E. apply keccak_inj in E; [|apply bytes_app; apply bytes_be..].
  apply app_inj_1 in E as [E1 E2]; [|by rewrite !length_be_bytes]. by apply be_bytes_inj in E1, E2.
Qed.

Lemma owner_key_inj o o' i i' : is_address o -> is_address o' -> is_u32 i -> is_u32 i' -> owner_index_key o i = owner_index_key o' i' -> o = o' /\ i = i'.
Proof.
  unfold is_u32, is_address. intros Hd Hd' Hi Hi' E. apply keccak_inj in E; [|apply bytes_app; apply bytes_be..].
  apply app_inj_1 in E as [E1 E2]; [|by rewrite !length_be_bytes]. by apply be_bytes_inj in E1, E2.
Qed.

Definition of_day (d : u32) (L : list TributeData) : list TributeData := filter (fun tr => tr_day tr = d) L.
Definition of_owner (o : Address) (L : list TributeData) : list TributeData := filter (fun tr => tr_owner tr = o) L.
Definition but (id : U256) (L : list TributeData) : list TributeData := filter (fun tr => token_id tr <> id) L.
Definition nominal_of (L : list TributeData) : Z := lsum (nominal_amount_minor <$> L).

Record tribute_ok (tr : TributeData) : Prop := {
  ok_id : token_id tr <> 0;
  ok_owner : is_address (tr_owner tr) /\ tr_owner tr <> 0;
  ok_day : is_u32 (tr_day tr);
  ok_nominal : 0 <= nominal_amount_minor tr
}.

(** The store holds the tributes [L] in the order of their issue; [D] and [O] are
    what was enumerated, the burned tributes included. *)
Record tribute_rep (t : TributeContract) (L : list TributeData) (D O : Z -> list Z) : Prop := {
  rep_get : forall id tr, get_tribute t id = Some tr <-> tr ∈ L /\ token_id tr = id;
  rep_nodup : NoDup (token_id <$> L);
  rep_ok : Forall tribute_ok L;
  rep_days : forall d, is_u32 d -> enum_rep day_index_key (day_index_counts t) (day_token_ids t) d (D d);
  rep_owners : forall o, is_address o -> enum_rep owner_index_key (owner_index_counts t) (owner_tribute_ids t) o (O o);
  rep_day_live : forall d, filter (fun id => id ∈ token_id <$> L) (D d) = token_id <$> of_day d L;
  rep_owner_live : forall o, filter (fun id => id ∈ token_id <$> L) (O o) = token_id <$> of_owner o L;
  rep_key : forall d v, rget (day_totals t) d = Some v -> dt_day v = d;
  rep_totals : forall d, tribute_count (get_day_totals t d) = len (of_day d L) /\ tribute_nominal_amount (get_day_totals t d) = nominal_of (of_day d L);
  rep_supply : Tribute.total_supply t = len L
}.

Lemma get_some t L D O tr : tribute_rep t L D O -> tr ∈ L -> get_tribute t (token_id tr) = Some tr.
Proof. intros R Hin. by apply (rep_get _ _ _ _ R). Qed.

Lemma get_none t L D O id : tribute_rep t L D O -> id ∉ token_id <$> L -> get_tribute t id = None.
Proof.
  intros R Hin. destruct (get_tribute t id) as [tr|] eqn:E; [|done]. apply (rep_get _ _ _ _ R) in E as [? <-].
  destruct Hin. by apply list_elem_of_fmap_2.
Qed.

Lemma live_filter t L D O l : tribute_rep t L D O -> flat_map (live_id t) l = filter (fun id => id ∈ token_id <$> L) l.
Proof.
  intros R. induction l as [|id l IH]; [done|]. cbn [flat_map]. rewrite IH, filter_cons. unfold live_id.
  rewrite rexists_get. change (rget (tributes t) id) with (get_tribute t id). case_decide as Hin.
  - apply list_elem_of_fmap in Hin as (tr & -> & Htr). rewrite (get_some _ _ _ _ _ R Htr), bool_decide_eq_true_2 by eauto.
    pose proof (proj1 (Forall_forall _ _) (rep_ok _ _ _ _ R) _ Htr) as Hk. by rewrite (proj2 (Z.eqb_neq _ 0) (ok_id _ Hk)).
  - rewrite (get_none _ _ _ _ _ R Hin), bool_decide_eq_false_2 by (by intros []). by destruct (id =? 0).
Qed.

Lemma tributes_of_live t L D O l : tribute_rep t L D O -> (forall tr, tr ∈ l -> tr ∈ L) -> tributes_of t (token_id <$> l) = l.
Proof.
  intros R. induction l as [|tr l IH]; intros Hin; [done|]. cbn [fmap list_fmap]. unfold tributes_of in *. cbn [flat_map].
  rewrite (get_some _ _ _ _ _ R) by (apply Hin; left). cbn [app]. f_equal. apply IH. intros x Hx. apply Hin. by right.
Qed.

Lemma ids_by_day_spec t L D O d : tribute_rep t L D O -> is_u32 d -> get_tribute_ids_by_day t d = token_id <$> of_day d L.
Proof.
  intros R Hd. etransitivity; [exact (enum_read _ (live_id t) _ _ _ _ (rep_days _ _ _ _ R d Hd))|].
  rewrite (live_filter _ _ _ _ _ R). apply (rep_day_live _ _ _ _ R).
Qed.

Lemma day_tributes_spec t L D O d : tribute_rep t L D O -> is_u32 d -> get_all_day_tributes t d = of_day d L.
Proof.
  intros R Hd. unfold get_all_day_tributes. rewrite (ids_by_day_spec _ _ _ _ _ R Hd). apply (tributes_of_live _ _ _ _ _ R).
  intros tr Htr. by apply list_elem_of_filter in Htr as [_ ?].
Qed.

Lemma owner_tributes_spec t L D O o : tribute_rep t L D O -> is_address o -> get_tributes_by_owner t o = of_owner o L.
Proof.
  intros R Ho. unfold get_tributes_by_owner, get_tribute_ids_by_owner.
  rewrite (enum_read _ (live_id t) _ _ _ _ (rep_owners _ _ _ _ R o Ho)), (live_filter _ _ _ _ _ R), (rep_owner_live _ _ _ _ R).
  apply (tributes_of_live _ _ _ _ _ R). intros tr Htr. by apply list_elem_of_filter in Htr as [_ ?].
Qed.

(** ** Issue and burn *)

(** A tribute the store can take: a new id, and room in the enumerations and the totals. *)
Record fresh (L : list TributeData) (D O : Z -> list Z) (tr : TributeData) : Prop := {
  fr_ok : tribute_ok tr;
  fr_amount : issuance_amount_minor tr <> 0;
  fr_id : token_id tr ∉ token_id <$> L;
  fr_days : forall d, token_id tr ∉ D d;
  fr_owners : forall o, token_id tr ∉ O o;
  fr_day_room : len (D (tr_day tr)) < 2 ^ 32 - 1;
  fr_owner_room : len (O (tr_owner tr)) < 2 ^ 32 - 1;
  fr_nominal : nominal_of (of_day (tr_day tr) L) + nominal_amount_minor tr < 2 ^ 256;
  fr_supply : len L < 2 ^ 64 - 1
}.

(** Room for one more tribute in the enumerations, the totals and the supply. *)
Record room (L : list TributeData) (D O : Z -> list Z) (tr : TributeData) : Prop := {
  rm_day : len (D (tr_day tr)) < 2 ^ 32 - 1;
  rm_owner : len (O (tr_owner tr)) < 2 ^ 32 - 1;
  rm_nominal : nominal_of (of_day (tr_day tr) L) + nominal_amount_minor tr < 2 ^ 256;
  rm_supply : len L < 2 ^ 64 - 1
}.

Lemma fresh_room L D O tr : fresh L D O tr -> room L D O tr.
Proof. intros []. by split. Qed.

Definition is_open (t : TributeContract) (d : u32) : bool := initialized (get_day_totals t d) && negb (is_sealed (get_day_totals t d)).

Lemma store_day_totals_Ok t v : store_day_totals t v = Ok (set_day_totals t (<[dt_day v := v]> (day_totals t))).
Proof.
  unfold store_day_totals. rewrite rexists_get. change (rget (day_totals t) (dt_day v)) with (rget (day_totals t) (rec_key v)).
  destruct (rget (day_totals t) (rec_key v)) as [w|] eqn:E.
  - rewrite bool_decide_eq_true_2 by eauto. by rewrite (rupdate_Ok _ _ _ E).
  - rewrite bool_decide_eq_false_2 by (by intros []). by rewrite (rcreate_Ok _ _ E).
Qed.

Lemma get_day_totals_set t d v : dt_day v = d -> initialized v = true ->
  forall d', get_day_totals (set_day_totals t (<[dt_day v := v]> (day_totals t))) d' = if decide (d' = d) then v else get_day_totals t d'.
Proof.
  intros E Hi d'. unfold get_day_totals. cbn [day_totals set_day_totals]. rewrite E. case_decide as Hd.
  - subst d'. rewrite rget_insert_eq. cbn [rec_exists totals_record]. by rewrite Hi.
  - by rewrite rget_insert_ne by congruence.
Qed.

Lemma dt_day_get t d : (forall d v, rget (day_totals t) d = Some v -> dt_day v = d) -> dt_day (get_day_totals t d) = d.
Proof. intros Hk. unfold get_day_totals. destruct (rget (day_totals t) d) eqn:E; [by apply Hk|done]. Qed.

(** Writing the totals of [d] leaves everything else in place. *)
Lemma set_totals_key t v d' w : (forall d v, rget (day_totals t) d = Some v -> dt_day v = d) ->
  rget (day_totals (set_day_totals t (<[dt_day v := v]> (day_totals t)))) d' = Some w -> dt_day w = d'.
Proof.
  intros Hk. cbn [day_totals set_day_totals]. destruct (decide (dt_day v = d')) as [<-|Hne].
  - rewrite rget_insert_eq. destruct (rec_exists v); [|done]. by intros [= <-].
  - rewrite rget_insert_ne by done. apply Hk.
Qed.

Lemma live_issue (g : TributeData -> Z) F L tr : (forall k, filter (fun id => id ∈ token_id <$> L) (F k) = token_id <$> filter (fun tr => g tr = k) L) ->
  (forall k, token_id tr ∉ F k) ->
  forall k, filter (fun id => id ∈ token_id <$> (L ++ [tr])) (snoc_at (g tr) (token_id tr) F k) = token_id <$> filter (fun tr => g tr = k) (L ++ [tr]).
Proof.
  intros Hf Hfr k. set (T := token_id <$> (L ++ [tr])). rewrite filter_app, fmap_app, <- Hf.
  assert (E : filter (fun id => id ∈ T) (F k) = filter (fun id => id ∈ token_id <$> L) (F k)).
  { specialize (Hfr k). clear Hf. induction (F k) as [|x l IH]; [done|]. rewrite not_elem_of_cons in Hfr. destruct Hfr as [Hne Hl].
    rewrite !filter_cons, IH by done. subst T. rewrite fmap_app in *.
    case_decide as H1; case_decide as H2; try done; rewrite elem_of_app in H1; [|naive_solver].
    destruct H1 as [H1|H1]; [done|]. apply list_elem_of_singleton in H1. congruence. }
  unfold snoc_at. rewrite filter_cons, filter_nil. case_decide as Hk; case_decide as Hg; try congruence.
  - rewrite filter_app, E, filter_cons, filter_nil. rewrite decide_True; [done|]. subst T. rewrite fmap_app, elem_of_app. right. by left.
  - by rewrite E, app_nil_r.
Qed.

Lemma live_burn (g : TributeData -> Z) F L id : (forall k, filter (fun id => id ∈ token_id <$> L) (F k) = token_id <$> filter (fun tr => g tr = k) L) ->
  forall k, filter (fun x => x ∈ token_id <$> but id L) (F k) = token_id <$> filter (fun tr => g tr = k) (but id L).
Proof.
  intros Hf k. transitivity (filter (fun x => x <> id) (filter (fun x => x ∈ token_id <$> L) (F k))).
  - rewrite list_filter_filter. apply list_filter_iff. intros x. unfold but. rewrite !list_elem_of_fmap. setoid_rewrite list_elem_of_filter. naive_solver.
  - rewrite Hf. unfold but. clear Hf. induction L as [|tr L IH]; [done|]. rewrite !filter_cons.
    destruct (decide (g tr = k)) as [Hg|Hg]; destruct (decide (token_id tr <> id)) as [Ht|Ht]; rewrite ?fmap_cons, ?filter_cons.
    + rewrite (decide_True _ _ Ht), (decide_True _ _ Hg), fmap_cons. by f_equal.
    + by rewrite (decide_False _ _ Ht).
    + by rewrite (decide_False _ _ Hg).
    + done.
Qed.

Lemma but_absent id L : (forall tr, tr ∈ L -> token_id tr <> id) -> but id L = L.
Proof.
  unfold but. induction L as [|x L IH]; intros Hx; [done|]. rewrite filter_cons, decide_True by (apply Hx; left).
  f_equal. apply IH. intros y Hy. apply Hx. by right.
Qed.

Lemma but_perm L tr : NoDup (token_id <$> L) -> tr ∈ L -> L ≡ₚ tr :: but (token_id tr) L.
Proof.
  intros Hn Hin. induction L as [|x L IH]; [by apply not_elem_of_nil in Hin|]. rewrite fmap_cons in Hn. apply NoDup_cons in Hn as [Hx Hn].
  unfold but. rewrite filter_cons. apply elem_of_cons in Hin as [->|Hin].
  - rewrite decide_False by tauto. constructor. change (L ≡ₚ but (token_id x) L). rewrite but_absent; [done|].
    intros y Hy E. destruct Hx. rewrite <- E. by apply list_elem_of_fmap_2.
  - rewrite decide_True; [rewrite (IH Hn Hin) at 1; apply Permutation_swap|]. intros E. destruct Hx. rewrite E. by apply list_elem_of_fmap_2.
Qed.

Lemma perm_len L (L' : list TributeData) : L ≡ₚ L' -> len L = len L'.
Proof. intros E. unfold len. by rewrite E. Qed.

Lemma of_day_perm d L L' : L ≡ₚ L' -> len (of_day d L) = len (of_day d L') /\ nominal_of (of_day d L) = nominal_of (of_day d L').
Proof.
  intros E. assert (E' : of_day d L ≡ₚ of_day d L') by (unfold of_day; by rewrite E).
  split; [unfold len; by rewrite E'|]. unfold nominal_of. apply lsum_perm. by rewrite E'.
Qed.

Lemma nominal_nonneg L d : Forall tribute_ok L -> 0 <= nominal_of (of_day d L).
Proof.
  intros Hok. apply lsum_nonneg, Forall_fmap, Forall_forall. intros tr Htr. apply list_elem_of_filter in Htr as [_ Htr].
  exact (ok_nominal _ (proj1 (Forall_forall _ _) Hok _ Htr)).
Qed.

Lemma bump_issue t d amount : (forall d v, rget (day_totals t) d = Some v -> dt_day v = d) ->
  tribute_count (get_day_totals t d) < 2 ^ 32 - 1 -> tribute_nominal_amount (get_day_totals t d) + amount < 2 ^ 256 ->
  exists v, bump_day_bucket t d 1 amount = Ok (set_day_totals t (<[dt_day v := v]> (day_totals t))) /\ dt_day v = d /\ initialized v = true /\
    is_sealed v = is_sealed (get_day_totals t d) /\ tribute_count v = tribute_count (get_day_totals t d) + 1 /\
    tribute_nominal_amount v = tribute_nominal_amount (get_day_totals t d) + amount.
Proof.
  intros Hk Hc Hn. unfold bump_day_bucket. cbv zeta. change (1 >=? 0) with true. cbv iota. eexists. split; [apply store_day_totals_Ok|].
  cbn [dt_day initialized is_sealed tribute_count tribute_nominal_amount]. rewrite (dt_day_get _ _ Hk). unfold saturating_add.
  rewrite !Z.min_l by lia. done.
Qed.

Lemma bump_burn t d amount : (forall d v, rget (day_totals t) d = Some v -> dt_day v = d) ->
  1 <= tribute_count (get_day_totals t d) -> amount <= tribute_nominal_amount (get_day_totals t d) ->
  exists v, bump_day_bucket t d (-1) amount = Ok (set_day_totals t (<[dt_day v := v]> (day_totals t))) /\ dt_day v = d /\ initialized v = true /\
    is_sealed v = is_sealed (get_day_totals t d) /\ tribute_count v = tribute_count (get_day_totals t d) - 1 /\
    tribute_nominal_amount v = tribute_nominal_amount (get_day_totals t d) - amount.
Proof.
  intros Hk Hc Hn. unfold bump_day_bucket. cbv zeta. change (-1 >=? 0) with false. cbv iota. eexists. split; [apply store_day_totals_Ok|].
  cbn [dt_day initialized is_sealed tribute_count tribute_nominal_amount]. rewrite (dt_day_get _ _ Hk). unfold saturating_sub.
  rewrite !Z.max_l by lia. done.
Qed.

Lemma len_of_day_enum t L D O d : tribute_rep t L D O -> len (of_day d L) <= len (D d).
Proof.
  intros R. transitivity (len (token_id <$> of_day d L)); [unfold len; by rewrite length_fmap|].
  rewrite <- (rep_day_live _ _ _ _ R). unfold len. apply inj_le, length_filter.
Qed.

Lemma of_day_snoc d L tr : of_day d (L ++ [tr]) = of_day d L ++ (if decide (tr_day tr = d) then [tr] else []).
Proof. unfold of_day. rewrite filter_app, filter_cons, filter_nil. done. Qed.

Lemma issue_Ok t tr n : tribute_ok tr -> issuance_amount_minor tr <> 0 -> get_tribute t (token_id tr) = None ->
  is_open t (tr_day tr) = true ->
  bump_day_bucket (add_to_owner_index (add_to_day_index (set_tributes t (<[token_id tr := tr]> (tributes t))) (tr_day tr) (token_id tr)) (tr_owner tr) (token_id tr))
    (tr_day tr) 1 (nominal_amount_minor tr) = Ok n ->
  issue t tr = Ok (set_total_supply n (wadd 64 (total_supply n) 1)).
Proof.
  intros [_ [_ Ho] _ _] Ha Hg Hop Hb. unfold issue, validate_tribute_for_issue, ensure_day_accepts_tributes.
  rewrite (proj2 (Z.eqb_neq _ 0) Ho), (proj2 (Z.eqb_neq _ 0) Ha). cbn [negb]. unfold is_open in Hop. apply andb_true_iff in Hop as [Hi Hs].
  rewrite Hi. destruct (is_sealed _); [done|]. cbn [negb orb]. rewrite (rcreate_Ok (tributes t) tr Hg). cbv beta iota zeta.
  change (rec_key tr) with (token_id tr). by rewrite Hb.
Qed.

Lemma get_insert t tr : tr_owner tr <> 0 -> forall id,
  rget (<[token_id tr := tr]> (tributes t)) id = if decide (id = token_id tr) then Some tr else get_tribute t id.
Proof.
  intros Ho id. case_decide as E.
  - subst id. rewrite rget_insert_eq. cbn [rec_exists tribute_record]. by rewrite (proj2 (Z.eqb_neq _ 0) Ho).
  - by rewrite rget_insert_ne by congruence.
Qed.

(** What an accepted tribute changes, also when its id was enumerated before. *)
Record accepted (t t' : TributeContract) (D O : Z -> list Z) (tr : TributeData) : Prop := {
  ac_get : forall id, get_tribute t' id = if decide (id = token_id tr) then Some tr else get_tribute t id;
  ac_days : forall d, is_u32 d -> enum_rep day_index_key (day_index_counts t') (day_token_ids t') d (snoc_at (tr_day tr) (token_id tr) D d);
  ac_owners : forall o, is_address o -> enum_rep owner_index_key (owner_index_counts t') (owner_tribute_ids t') o (snoc_at (tr_owner tr) (token_id tr) O o);
  ac_key : forall d v, rget (day_totals t') d = Some v -> dt_day v = d;
  ac_count : forall d, tribute_count (get_day_totals t' d) = tribute_count (get_day_totals t d) + if decide (d = tr_day tr) then 1 else 0;
  ac_nominal : forall d, tribute_nominal_amount (get_day_totals t' d) = tribute_nominal_amount (get_day_totals t d) + if decide (d = tr_day tr) then nominal_amount_minor tr else 0;
  ac_supply : total_supply t' = total_supply t + 1;
  ac_open : forall d, is_open t' d = is_open t d
}.

Lemma issue_accepts t L D O tr : tribute_rep t L D O -> tribute_ok tr -> issuance_amount_minor tr <> 0 -> token_id tr ∉ token_id <$> L -> room L D O tr ->
  is_open t (tr_day tr) = true -> exists t', issue t tr = Ok t' /\ accepted t t' D O tr.
Proof.
  intros R Hok Ha Hid F Hop. pose proof Hok as [_ [Hoa Ho] Hd Hnom].
  pose proof (len_of_day_enum _ _ _ _ (tr_day tr) R) as Hlen. pose proof (rm_day _ _ _ _ F) as Hroom. destruct (rep_totals _ _ _ _ R (tr_day tr)) as [Ec En].
  set (m := add_to_owner_index (add_to_day_index (set_tributes t (<[token_id tr := tr]> (tributes t))) (tr_day tr) (token_id tr)) (tr_owner tr) (token_id tr)).
  destruct (bump_issue m (tr_day tr) (nominal_amount_minor tr)) as (v & Eb & Hv & Hi & Hs & Hc & Hn).
  { exact (rep_key _ _ _ _ R). } { change (get_day_totals m) with (get_day_totals t). lia. }
  { change (get_day_totals m) with (get_day_totals t). rewrite En. apply (rm_nominal _ _ _ _ F). }
  change (get_day_totals m) with (get_day_totals t) in *.
  exists (set_total_supply (set_day_totals m (<[dt_day v := v]> (day_totals m))) (wadd 64 (total_supply t) 1)).
  assert (Et : forall d, get_day_totals (set_total_supply (set_day_totals m (<[dt_day v := v]> (day_totals m))) (wadd 64 (total_supply t) 1)) d
    = if decide (d = tr_day tr) then v else get_day_totals t d) by exact (get_day_totals_set m (tr_day tr) v Hv Hi).
  split; [etransitivity; [eapply (issue_Ok t); [done|done|by eapply get_none|done|exact Eb]|done]|]. constructor.
  - intros id. exact (get_insert t tr Ho id).
  - apply (enum_snoc _ is_u32 day_key_inj); [done|apply (rep_days _ _ _ _ R)|done].
  - apply (enum_snoc _ is_address owner_key_inj); [done|apply (rep_owners _ _ _ _ R)|apply (rm_owner _ _ _ _ F)].
  - intros d w. apply (set_totals_key m). exact (rep_key _ _ _ _ R).
  - intros d. rewrite Et. case_decide as E; [by subst d|lia].
  - intros d. rewrite Et. case_decide as E; [by subst d|lia].
  - change (wadd 64 (total_supply t) 1 = total_supply t + 1). pose proof (rm_supply _ _ _ _ F). rewrite (rep_supply _ _ _ _ R) in *. apply wadd_small. unfold len in *. lia.
  - intros d. unfold is_open. rewrite Et. case_decide as E; [|done]. subst d. unfold is_open in Hop. apply andb_true_iff in Hop as [Hop1 Hop2]. by rewrite Hi, Hs, Hop1.
Qed.

(** With an id that was never enumerated the list grows by the tribute. *)
Lemma accepted_rep t t' L D O tr : tribute_rep t L D O -> tribute_ok tr -> token_id tr ∉ token_id <$> L -> (forall k, token_id tr ∉ D k) -> (forall k, token_id tr ∉ O k) ->
  accepted t t' D O tr -> tribute_rep t' (L ++ [tr]) (snoc_at (tr_day tr) (token_id tr) D) (snoc_at (tr_owner tr) (token_id tr) O).
Proof.
  intros R Hok Hid Hfd Hfo [A1 A2 A3 A4 A5 A6 A7 A8]. constructor; try done.
  - intros id x. rewrite A1, elem_of_app, list_elem_of_singleton. case_decide as E.
    + subst id. split; [intros [= <-]; auto|]. intros [[Hx| ->] Ex]; [|done]. destruct Hid. rewrite <- Ex. by apply list_elem_of_fmap_2.
    + rewrite (rep_get _ _ _ _ R). naive_solver.
  - rewrite fmap_app. apply NoDup_app. split_and!; [apply (rep_nodup _ _ _ _ R)| |apply NoDup_singleton].
    intros x Hx Hx'. apply list_elem_of_singleton in Hx'. by subst x.
  - apply Forall_app. split; [apply (rep_ok _ _ _ _ R)|by constructor].
  - apply (live_issue tr_day); [apply (rep_day_live _ _ _ _ R)|done].
  - apply (live_issue tr_owner); [apply (rep_owner_live _ _ _ _ R)|done].
  - intros d. rewrite A5, A6, of_day_snoc. destruct (rep_totals _ _ _ _ R d) as [Ec' En']. case_decide as E.
    + subst d. rewrite decide_True by done. unfold len, nominal_of in *. rewrite length_app, fmap_app, lsum_app. cbn. split; lia.
    + rewrite decide_False by congruence. rewrite app_nil_r. split; lia.
  - rewrite A7, (rep_supply _ _ _ _ R). unfold len. rewrite length_app. cbn. lia.
Qed.

Lemma issue_rep t L D O tr : tribute_rep t L D O -> fresh L D O tr -> is_open t (tr_day tr) = true ->
  exists t', issue t tr = Ok t' /\ tribute_rep t' (L ++ [tr]) (snoc_at (tr_day tr) (token_id tr) D) (snoc_at (tr_owner tr) (token_id tr) O) /\
    forall d, is_open t' d = is_open t d.
Proof.
  intros R F Hop. pose proof F as [Hok Ha Hid Hfd Hfo _ _ _ _]. destruct (issue_accepts _ _ _ _ _ R Hok Ha Hid (fresh_room _ _ _ _ F) Hop) as (t' & E & A).
  exists t'. split; [done|]. split; [by eapply accepted_rep|apply (ac_open _ _ _ _ _ A)].
Qed.

(** A burned id that is accepted again for its day is enumerated there twice. *)
Lemma reissued_twice t t' D O tr : tribute_ok tr -> accepted t t' D O tr -> token_id tr ∈ D (tr_day tr) -> ~ NoDup (get_tribute_ids_by_day t' (tr_day tr)).
Proof.
  intros Hok A Hin. pose proof (enum_read _ (live_id t') _ _ _ _ (ac_days _ _ _ _ _ A (tr_day tr) (ok_day _ Hok))) as E.
  unfold get_tribute_ids_by_day, get_day_token_id. rewrite E. unfold snoc_at. rewrite decide_True, flat_map_app by done.
  assert (Hl : live_id t' (token_id tr) = [token_id tr]).
  { unfold live_id. rewrite (proj2 (Z.eqb_neq _ 0) (ok_id _ Hok)), rexists_get. change (rget (tributes t') (token_id tr)) with (get_tribute t' (token_id tr)).
    rewrite (ac_get _ _ _ _ _ A), decide_True, bool_decide_eq_true_2 by eauto. done. }
  cbn [flat_map]. rewrite Hl, app_nil_r. intros Hn. apply NoDup_app in Hn as (_ & Hn & _). apply (Hn (token_id tr)); [|by left].
  apply list_elem_of_In, in_flat_map. exists (token_id tr). split; [by apply list_elem_of_In|]. rewrite Hl. by left.
Qed.

(** Why the store refuses a tribute. *)
Definition refusal (t : TributeContract) (L : list TributeData) (tr : TributeData) : option PrecompileError :=
  if tr_owner tr =? 0 then Some (Revert "invalid owner")
  else if issuance_amount_minor tr =? 0 then Some (Revert "settlement amount must be positive")
  else if negb (is_open t (tr_day tr)) then Some (Revert "worldwide day is sealed")
  else if bool_decide (token_id tr ∈ token_id <$> L) then Some (Revert "TributeData already exists")
  else None.

Lemma issue_refused t L D O tr e : tribute_rep t L D O -> refusal t L tr = Some e -> issue t tr = Err e.
Proof.
  intros R. unfold refusal, issue, validate_tribute_for_issue, ensure_day_accepts_tributes, is_open. destruct (tr_owner tr =? 0); [by intros [= <-]|].
  destruct (issuance_amount_minor tr =? 0); [by intros [= <-]|]. cbn [negb]. destruct (initialized _); [|by intros [= <-]].
  destruct (is_sealed _); [by intros [= <-]|]. cbn [negb orb andb]. case_bool_decide as Hin; [|done]. intros [= <-].
  apply list_elem_of_fmap in Hin as (x & Ex & Hx). unfold rcreate. rewrite rexists_get. change (rec_key tr) with (token_id tr). change (rget (tributes t) (token_id tr)) with (get_tribute t (token_id tr)).
  rewrite Ex, (get_some _ _ _ _ _ R Hx), bool_decide_eq_true_2 by eauto. done.
Qed.

Lemma of_day_but t L D O d tr : tribute_rep t L D O -> tr ∈ L ->
  len (of_day d L) = len (of_day d (but (token_id tr) L)) + (if decide (tr_day tr = d) then 1 else 0) /\
  nominal_of (of_day d L) = nominal_of (of_day d (but (token_id tr) L)) + (if decide (tr_day tr = d) then nominal_amount_minor tr else 0).
Proof.
  intros R Hin. destruct (of_day_perm d _ _ (but_perm _ _ (rep_nodup _ _ _ _ R) Hin)) as [-> ->].
  unfold of_day at 1 3. rewrite filter_cons. destruct (decide (tr_day tr = d)); unfold len, nominal_of, of_day; cbn [length fmap list_fmap lsum foldr]; unfold lsum; lia.
Qed.

Lemma but_ok id L : Forall tribute_ok L -> Forall tribute_ok (but id L).
Proof. intros Hok. apply Forall_forall. intros x Hx. apply list_elem_of_filter in Hx as [_ Hx]. by apply (proj1 (Forall_forall _ _) Hok). Qed.

Lemma but_nodup id L : NoDup (token_id <$> L) -> NoDup (token_id <$> but id L).
Proof. intros Hn. eapply sublist_NoDup; [exact Hn|]. apply fmap_sublist, sublist_filter. Qed.

Lemma counted_initialized t d : 0 < tribute_count (get_day_totals t d) -> initialized (get_day_totals t d) = true.
Proof. unfold get_day_totals. destruct (rget (day_totals t) d) as [v|] eqn:E; [|done]. intros _. exact (rget_exists _ _ _ E). Qed.

Lemma burn_rep t L D O tr : tribute_rep t L D O -> tr ∈ L ->
  exists t', burn t (token_id tr) = Ok t' /\ tribute_rep t' (but (token_id tr) L) D O /\
    (forall d, is_sealed (get_day_totals t' d) = is_sealed (get_day_totals t d)) /\ (forall d, is_open t' d = is_open t d) /\
    owner_index_counts t' = owner_index_counts t /\ day_index_counts t' = day_index_counts t.
Proof.
  intros R Hin. destruct (of_day_but _ _ _ _ (tr_day tr) _ R Hin) as [El En]. rewrite decide_True in El, En by done.
  pose proof (nominal_nonneg _ (tr_day tr) (but_ok (token_id tr) _ (rep_ok _ _ _ _ R))) as Hpos.
  destruct (rep_totals _ _ _ _ R (tr_day tr)) as [Tc Tn]. assert (0 <= len (of_day (tr_day tr) (but (token_id tr) L))) by (unfold len; lia).
  set (m := set_tributes t (rdelete (tributes t) (token_id tr))).
  destruct (bump_burn m (tr_day tr) (nominal_amount_minor tr)) as (v & Eb & Hv & Hi & Hs & Hc & Hn); [exact (rep_key _ _ _ _ R)|..].
  1,2: change (get_day_totals m) with (get_day_totals t); lia. change (get_day_totals m) with (get_day_totals t) in *.
  assert (Hsup : len L = len (but (token_id tr) L) + 1 /\ 0 < len L).
  { rewrite (perm_len _ _ (but_perm _ _ (rep_nodup _ _ _ _ R) Hin)). unfold len. cbn [length]. lia. }
  exists (set_total_supply (set_day_totals m (<[dt_day v := v]> (day_totals m))) (total_supply t - 1)).
  assert (Et : forall d, get_day_totals (set_total_supply (set_day_totals m (<[dt_day v := v]> (day_totals m))) (total_supply t - 1)) d
    = if decide (d = tr_day tr) then v else get_day_totals t d) by exact (get_day_totals_set m (tr_day tr) v Hv Hi).
  split; [|split; [|split; [|split; [|done]]]].
  - unfold burn. rewrite (get_some _ _ _ _ _ R Hin). cbn [ok_or]. fold m. rewrite Eb. cbv beta iota.
    change (total_supply (set_day_totals m _)) with (total_supply t). rewrite (rep_supply _ _ _ _ R). by rewrite (proj2 (Z.gtb_lt (len L) 0)) by lia.
  - constructor.
    + intros id x. change (rget (rdelete (tributes t) (token_id tr)) id = Some x <-> x ∈ but (token_id tr) L /\ token_id x = id).
      unfold but. rewrite list_elem_of_filter. destruct (decide (id = token_id tr)) as [->|Hne]; [rewrite rget_delete_eq; naive_solver|].
      rewrite rget_delete_ne by congruence. fold (get_tribute t id). rewrite (rep_get _ _ _ _ R). naive_solver.
    + apply but_nodup, (rep_nodup _ _ _ _ R).
    + apply but_ok, (rep_ok _ _ _ _ R).
    + exact (rep_days _ _ _ _ R).
    + exact (rep_owners _ _ _ _ R).
    + apply (live_burn tr_day), (rep_day_live _ _ _ _ R).
    + apply (live_burn tr_owner), (rep_owner_live _ _ _ _ R).
    + intros d w. apply (set_totals_key m). exact (rep_key _ _ _ _ R).
    + intros d. rewrite Et. destruct (rep_totals _ _ _ _ R d) as [Ec' En']. destruct (of_day_but _ _ _ _ d _ R Hin) as [El' En''].
      destruct (decide (d = tr_day tr)) as [E|E]; [subst d; rewrite Hc, Hn, Tc, Tn; lia|]. rewrite decide_False in El', En'' by congruence. lia.
    + change (total_supply t - 1 = len (but (token_id tr) L)). rewrite (rep_supply _ _ _ _ R). lia.
  - intros d. rewrite Et. case_decide as E; [|done]. by subst d.
  - intros d. unfold is_open. rewrite Et. case_decide as E; [|done]. subst d. rewrite Hi, Hs. f_equal. symmetry. apply counted_initialized. lia.
Qed.

(** ** Clearing a day, sealing and unsealing *)

Definition clear_at (k : Z) (F : Z -> list Z) : Z -> list Z := fun k' => if decide (k' = k) then [] else F k'.

Lemma clear_rep t L D O d : tribute_rep t L D O -> is_u32 d -> of_day d L = [] -> tribute_rep (clear_day_index t d) L (clear_at d D) O.
Proof.
  intros R Hd Hnil. destruct R as [Rg Rn Rok Rd Ro Rdl Rol Rk Rt Rs]. constructor; try done.
  - intros d' Hd'. unfold clear_at. cbn [clear_day_index day_index_counts day_token_ids]. case_decide as E.
    + subst d'. constructor; [by rewrite rd_insert_eq|done|]. intros i x Hi. by rewrite lookup_nil in Hi.
    + destruct (Rd d' Hd') as [El Hu Hat]. destruct (Rd d Hd) as [El0 Hu0 _]. constructor; [by rewrite rd_insert_ne by congruence|done|].
      intros i x Hi. rewrite El0. rewrite (enum_erase_ne day_index_key is_u32 day_key_inj); [by apply Hat|done|done|congruence| |unfold len in *; lia].
      exact (enum_pos _ _ _ _ _ _ _ (Rd d' Hd') Hi).
  - intros d'. unfold clear_at. case_decide as E; [|by apply Rdl]. subst d'. by rewrite Hnil.
Qed.

Lemma set_sealed_rep t L D O d b : tribute_rep t L D O ->
  exists t', set_sealed t d b = Ok t' /\ tribute_rep t' L D O /\
    forall d', is_open t' d' = if decide (d' = d) then negb b else is_open t d'.
Proof.
  intros R. unfold set_sealed. cbv zeta. rewrite store_day_totals_Ok. eexists. split; [done|].
  set (v := mkTotals _ _ _ _ _). pose proof (dt_day_get t d (rep_key _ _ _ _ R)) as Hv.
  assert (Et := get_day_totals_set t d v Hv eq_refl). split.
  - destruct R as [Rg Rn Rok Rd Ro Rdl Rol Rk Rt Rs]. constructor; try done.
    + intros d' w. by apply set_totals_key.
    + intros d'. rewrite Et. case_decide as E; [subst d'|]; apply Rt.
  - intros d'. unfold is_open. rewrite Et. by case_decide.
Qed.

Definition but_all (ids : list U256) (L : list TributeData) : list TributeData := foldl (fun L id => but id L) L ids.

Lemma burn_list_rep ids : forall t L D O, tribute_rep t L D O -> NoDup ids -> (forall id, id ∈ ids -> id ∈ token_id <$> L) ->
  exists t', foldM burn t ids = Ok t' /\ tribute_rep t' (but_all ids L) D O /\ forall d, is_sealed (get_day_totals t' d) = is_sealed (get_day_totals t d).
Proof.
  induction ids as [|id ids IH]; intros t L D O R Hn Hin; [by exists t|]. apply NoDup_cons in Hn as [Hid Hn].
  assert (Hx : id ∈ token_id <$> L) by (apply Hin; left). apply list_elem_of_fmap in Hx as (tr & -> & Htr).
  destruct (burn_rep _ _ _ _ _ R Htr) as (t1 & E1 & R1 & S1 & _). destruct (IH t1 _ D O R1 Hn) as (t2 & E2 & R2 & S2).
  { intros x Hx. assert (Hx' : x ∈ token_id <$> L) by (apply Hin; by right). apply list_elem_of_fmap in Hx' as (y & -> & Hy).
    apply list_elem_of_fmap_2, list_elem_of_filter. split; [|done]. intros E. apply Hid. by rewrite <- E. }
  exists t2. cbn [foldM]. rewrite E1. split; [done|]. split; [done|]. intros d. by rewrite S2, S1.
Qed.

Lemma but_all_spec ids L tr : tr ∈ but_all ids L <-> tr ∈ L /\ token_id tr ∉ ids.
Proof.
  revert L. induction ids as [|id ids IH]; intros L; [cbn; set_solver|]. change (but_all (id :: ids) L) with (but_all ids (but id L)).
  rewrite IH. unfold but. rewrite list_elem_of_filter, not_elem_of_cons. naive_solver.
Qed.

Lemma burn_all_rep t L D O d : tribute_rep t L D O -> is_u32 d ->
  exists t', burn_all_by_wwd t d = Ok t' /\ tribute_rep t' (but_all (token_id <$> of_day d L) L) (clear_at d D) O /\
    of_day d (but_all (token_id <$> of_day d L) L) = [].
Proof.
  intros R Hd. unfold burn_all_by_wwd. rewrite (ids_by_day_spec _ _ _ _ _ R Hd).
  destruct (burn_list_rep (token_id <$> of_day d L) t L D O R) as (t1 & E & R1 & _).
  { eapply sublist_NoDup; [exact (rep_nodup _ _ _ _ R)|]. apply fmap_sublist, sublist_filter. }
  { intros id Hid. apply list_elem_of_fmap in Hid as (x & -> & Hx). apply list_elem_of_fmap_2. by apply list_elem_of_filter in Hx as [_ ?]. }
  assert (Hnil : of_day d (but_all (token_id <$> of_day d L) L) = []).
  { apply elem_of_nil_inv. intros x Hx. apply list_elem_of_filter in Hx as [Hxd Hx]. apply but_all_spec in Hx as [Hx Hno].
    destruct Hno. apply list_elem_of_fmap_2, list_elem_of_filter. done. }
  exists (clear_day_index t1 d). rewrite E. split; [done|]. split; [by apply clear_rep|done].
Qed.

(** C33. The store of tributes is the list of the tributes issued and not burned, in
    the order of their issue: the enumerations by day and by owner return exactly
    the tributes of that day and of that owner in that order, the count and the
    nominal amount of a day and the supply are exact. While the counters have room
    a tribute is refused exactly when it has no owner or no amount, its day is not
    open, or a tribute with its id is there, and otherwise it is stored. With an id
    that was never used it is appended to the list. An id that was burned is taken
    again, since only the enumerations remember it, and when it comes back for the
    same day that day lists it twice. A burn removes the tribute and nothing else, and burning an id that is
    not there is an error. *)
Theorem tribute_store_exact t L D O d o tr id :
  tribute_rep t L D O -> is_u32 d -> is_address o ->
  token_id tr <> 0 -> is_address (tr_owner tr) -> is_u32 (tr_day tr) -> 0 <= nominal_amount_minor tr -> room L D O tr ->
  (get_all_day_tributes t d = of_day d L /\ get_tributes_by_owner t o = of_owner o L) /\
  (tribute_count (get_day_totals t d) = len (of_day d L) /\ tribute_nominal_amount (get_day_totals t d) = nominal_of (of_day d L)) /\
  total_supply t = len L /\
  match refusal t L tr with
  | Some e => issue t tr = Err e
  | None => exists t', issue t tr = Ok t' /\ get_tribute t' (token_id tr) = Some tr /\ (forall d, is_open t' d = is_open t d) /\
      ((forall k, (token_id tr ∉ D k) /\ (token_id tr ∉ O k)) ->
         tribute_rep t' (L ++ [tr]) (snoc_at (tr_day tr) (token_id tr) D) (snoc_at (tr_owner tr) (token_id tr) O)) /\
      (token_id tr ∈ D (tr_day tr) -> ~ NoDup (get_tribute_ids_by_day t' (tr_day tr)))
  end /\
  match get_tribute t id with
  | Some _ => exists t', burn t id = Ok t' /\ tribute_rep t' (but id L) D O /\ forall d, is_sealed (get_day_totals t' d) = is_sealed (get_day_totals t d)
  | None => burn t id = Err (Revert "tribute not found")
  end.
Proof.
  intros R Hd Ho Hid Hoa Hday Hnom F. split; [split; [by apply (day_tributes_spec _ _ _ _ _ R)|by apply (owner_tributes_spec _ _ _ _ _ R)]|].
  split; [apply (rep_totals _ _ _ _ R)|]. split; [apply (rep_supply _ _ _ _ R)|]. split.
  - destruct (refusal t L tr) as [e|] eqn:Er; [by eapply issue_refused|]. unfold refusal in Er.
    destruct (tr_owner tr =? 0) eqn:E1, (issuance_amount_minor tr =? 0) eqn:E2, (is_open t (tr_day tr)) eqn:E3; try done. cbn [negb] in Er. case_bool_decide as E4; [done|]. bools.
    assert (Hok : tribute_ok tr) by (by split). destruct (issue_accepts _ _ _ _ _ R Hok E2 E4 F E3) as (t' & E & A). exists t'. split; [done|].
    split; [by rewrite (ac_get _ _ _ _ _ A), decide_True|]. split; [apply (ac_open _ _ _ _ _ A)|]. split; [|by eapply reissued_twice].
    intros Hf. eapply accepted_rep; [done|done|done| | |done]; apply Hf.
  - destruct (get_tribute t id) as [x|] eqn:Eg; [|unfold burn; by rewrite Eg]. apply (rep_get _ _ _ _ R) in Eg as [Hx <-].
    destruct (burn_rep _ _ _ _ _ R Hx) as (t' & ? & ? & ? & _). by exists t'.
Qed.
End Represents.

(** ** A concrete store *)

Definition sample_tribute (id : Z) (o : Z) : TributeData := mkTribute id o 20250110 5 840 7 840 1.
Definition empty_tributes : TributeContract := mkTributes 0 ∅ ∅ ∅ ∅ ∅ ∅.
Definition no_ids : Z -> list Z := fun _ => [].

Lemma empty_tributes_rep `{KeccakLaws} : tribute_rep empty_tributes [] no_ids no_ids.
Proof.
  constructor; try done; try (intros; constructor; [apply rd_empty|done|intros ? ?; by rewrite lookup_nil]).
  - intros id x. split; [done|]. intros [Hx _]. by apply not_elem_of_nil in Hx.
  - constructor.
Qed.

Lemma sample_fresh `{KeccakLaws} : fresh [] no_ids no_ids (sample_tribute 9 3).
Proof. constructor; try done; try apply not_elem_of_nil; try (intros; apply not_elem_of_nil). Qed.

Lemma tribute_store_exact_witness :
  let C := sample_crypto in
  exists t, unseal_day empty_tributes 20250110 = Ok t /\ is_open t 20250110 = true /\
  (exists t', issue t (sample_tribute 9 3) = Ok t' /\ (forall d, is_open t' d = is_open t d) /\
     @tribute_rep sample_crypto t' [sample_tribute 9 3] (snoc_at 20250110 9 no_ids) (snoc_at 3 9 no_ids)).
Proof.
  intros C. destruct (@set_sealed_rep _ _ _ _ _ 20250110 false (@empty_tributes_rep _ sample_keccak)) as (t & Eu & R & Hop).
  exists t. split; [exact Eu|]. assert (Ho : is_open t 20250110 = true) by (rewrite Hop; by rewrite decide_True).
  split; [done|].
  pose proof (@tribute_store_exact _ sample_keccak t [] no_ids no_ids 20250110 3 (sample_tribute 9 3) 0 R) as T.
  destruct T as (_ & _ & _ & T & _); [unfold is_u32; lia|unfold is_address; lia|discriminate|vm_compute; split; [discriminate|reflexivity]|vm_compute; split; [discriminate|reflexivity]|discriminate|
    split; reflexivity|].
  unfold refusal in T. change (tr_day (sample_tribute 9 3)) with 20250110 in T. rewrite Ho in T. cbn [tr_owner issuance_amount_minor sample_tribute Z.eqb negb] in T.
  rewrite bool_decide_eq_false_2 in T by (apply not_elem_of_nil). destruct T as (t' & E & _ & Hop' & Hrep & _). exists t'. split; [exact E|]. split; [exact Hop'|].
  apply Hrep. intros k. split; apply not_elem_of_nil.
Defined.
