(* ===== verification/Lysis.v ===== *)
(** * Lysis: turning the tributes of a day into Nods

    [crates/core/lysis] and [crates/core/fidelity]: the fixed-point distribution of
    the gratis allocation over the fidelity groups, and the run that issues a Nod
    for every tribute it can cover and burns the tribute. A failing step stops the
    run but undoes nothing, so a run returns the state it leaves together with its
    result. The oracle's readings are arguments. *)

From S2P Require Import Prelude Storage LbMath BinTree Nod NodStore Tribute.

Definition SCALE : U256 := 1000000000000000000.

(** ** [constants.rs] *)

Definition FLOOR_RATE_PERCENT : u64 := 8.
Definition calc_floor_price (price : U256) : U256 := wmul 256 price (100 + FLOOR_RATE_PERCENT) / 100.

(** ** [algorithm.rs] *)

Definition POLICY_C : U256 := SCALE * 2 / 10.

(** The power loop of [fp_root]: [None] when it broke off. *)
Fixpoint bounded_pow (n : nat) (mid target pow : U256) : option U256 :=
  match n with
  | O => Some pow
  | S n =>
      let new_val := wmul 256 pow mid in
      if (2 ^ 256 <=? pow * mid) || (wmul 256 target 2 <? new_val) then None else bounded_pow n mid target new_val
  end.

(** The bisection of [fp_root]. *)
Fixpoint root_search (fuel q : nat) (target lo hi : U256) : U256 :=
  match fuel with
  | O => lo
  | S fuel =>
      if lo <? hi then
        let mid := wadd 256 lo (wadd 256 (hi - lo) 1 / 2) in
        match bounded_pow (q - 1) mid target mid with
        | Some p => if target <? p then root_search fuel q target lo (mid - 1) else root_search fuel q target mid hi
        | None => root_search fuel q target lo (mid - 1)
        end
      else lo
  end.

(** Each round halves the interval, which is shorter than [2^256]. *)
Definition root_fuel : nat := 257.

Definition fp_root (x_fp : U256) (q : nat) : U256 :=
  if x_fp =? 0 then 0 else
  if x_fp =? SCALE then SCALE else
  let target := Nat.iter (q - 1) (fun t => wmul 256 t SCALE) x_fp in
  root_search root_fuel q target 1 (Z.max x_fp SCALE).

(** The weight of the step between groups [i-1] and [i]. *)
Definition tau_at (ng nt : Z) (i pi pi_prev : Z) : U256 :=
  let fallback := wmul 256 (fp_root (wmul 256 ng SCALE) 5) (fp_root (wmul 256 nt SCALE) 10) / SCALE in
  if negb (pi =? 0) && negb (pi_prev =? 0) then
    let i_minus_half_fp := wmul 256 (2 * i - 1) SCALE / 2 in
    let numerator := fp_root i_minus_half_fp 5 in
    let min_val := Z.min (fp_root (wmul 256 pi SCALE) 10) (fp_root (wmul 256 pi_prev SCALE) 10) in
    if negb (min_val =? 0) then wmul 256 numerator SCALE / min_val else fallback
  else fallback.

Definition policy_tau_fp (p : list u64) (nt : Z) : list U256 :=
  let ng := length p in
  let middle := (fun i => tau_at (Z.of_nat ng) nt (Z.of_nat i) (nth i p 0) (nth (i - 1) p 0)) <$> seq 1 (ng - 1) in
  let sum_middle := foldl (wadd 256) 0 middle in
  [wmul 256 POLICY_C sum_middle / SCALE] ++ middle ++ [wmul 256 (SCALE - POLICY_C) sum_middle / SCALE].

Record MomentsFp := mkMoments { mo_m : list U256; mo_y_cum : list U256; mo_ey : U256; mo_var_y : U256 }.

(** Running sums of [y], the last one replaced by [SCALE]. *)
Fixpoint cumulate (cum : U256) (y : list U256) : list U256 :=
  match y with
  | [] => []
  | [_] => [SCALE]
  | v :: y => let cum := wadd 256 cum v in cum :: cumulate cum y
  end.

Definition compute_moments_fp (y_fp tau : list U256) : MomentsFp :=
  let t_total := foldl (wadd 256) 0 tau in
  let m := if negb (t_total =? 0) then (fun t => wmul 256 t SCALE / t_total) <$> tau else (fun _ => 0) <$> tau in
  let y_cum := match y_fp with [] => [SCALE] | _ => 0 :: cumulate 0 y_fp end in
  let ey := foldl (fun acc '(mi, yi) => wadd 256 acc (wmul 256 mi yi / SCALE)) 0 (combine m y_cum) in
  let ey2 := foldl (fun acc '(mi, yi) => wadd 256 acc (wmul 256 (wmul 256 mi yi) yi / (SCALE * SCALE))) 0 (combine m y_cum) in
  let ey_sq := wmul 256 ey ey / SCALE in
  mkMoments m y_cum ey (saturating_sub ey2 ey_sq).

(** Two's complement of width 256; division truncates. *)
Definition iwrap (x : Z) : Z := (x + 2 ^ 255) mod 2 ^ 256 - 2 ^ 255.

Definition u256_to_i256 (value : U256) : res Z :=
  ensure value <? 2 ^ 255 else Revert "lysis: U256 -> I256 conversion overflow" in
  Ok value.

Definition i256_to_u256_clamped (value : Z) : U256 := if value <? 0 then 0 else value.

(** The inner loop over [j]: the terms from group [i] on. *)
Definition tail_sum (beta_num beta_den ey : Z) (terms : list (U256 * U256)) : res Z :=
  foldM (fun sum_i '(mj, yj) =>
    let? y_cum_i := u256_to_i256 yj in
    let y_diff := iwrap (y_cum_i - ey) in
    let beta_term := if beta_den >? 0 then iwrap (Z.quot (iwrap (beta_num * y_diff)) beta_den) else 0 in
    let factor := iwrap (SCALE + beta_term) in
    let? mj_i := u256_to_i256 mj in
    Ok (iwrap (sum_i + iwrap (Z.quot (iwrap (mj_i * factor)) SCALE)))) 0 terms.

Definition calc_fraction_distribution_fp (y_fp : list U256) (p : list u64) (nt : Z) (f_fp fmax_fp : U256) : res (list U256) :=
  match p with
  | [] => Ok [0]
  | [_] => Ok [f_fp]
  | _ =>
      let tau := policy_tau_fp p nt in
      let moments := compute_moments_fp y_fp tau in
      let f_over_fmax := if fmax_fp =? 0 then 0 else wmul 256 f_fp SCALE / fmax_fp in
      let? ey_i := u256_to_i256 (mo_ey moments) in
      let? f_i := u256_to_i256 f_over_fmax in
      let beta_num_i := iwrap (f_i - ey_i) in
      let? beta_den_i := u256_to_i256 (mo_var_y moments) in
      let? fmax_i := u256_to_i256 fmax_fp in
      let terms := combine (mo_m moments) (mo_y_cum moments) in
      let? f1 := foldM (fun acc i =>
        let? sum_i := tail_sum beta_num_i beta_den_i ey_i (drop i terms) in
        let result := iwrap (Z.quot (iwrap (fmax_i * sum_i)) SCALE) in
        Ok (acc ++ [if result <=? 0 then 0 else i256_to_u256_clamped result])) [] (seq 1 (length y_fp)) in
      let weighted_total := foldl (wadd 256) 0 ((fun '(f, y) => wmul 256 f y / SCALE) <$> combine f1 y_fp) in
      Ok (if weighted_total >? f_fp then (fun f => wmul 256 f f_fp / weighted_total) <$> f1 else f1)
  end.

(** ** Fidelity indices *)

Definition DEFAULT_FIDELITY_INDEX : u64 := 1.

Definition get_fidelity_index (f : gmap Address u64) (a : Address) : u64 :=
  let val := rd f a in
  if val =? 0 then DEFAULT_FIDELITY_INDEX else val.

Definition set_fidelity_index (f : gmap Address u64) (a : Address) (index : u64) : res (gmap Address u64) :=
  ensure index <=? MAX_U32 else Revert "fidelity index exceeds u32::MAX" in
  Ok (<[a := index]> f).

(** ** [runtime.rs] *)

Record LysisResult := mkLysisResult { nod_ids : list U256; tribute_ids : list U256; remaining_gratis : U256 }.

(** The entry of the fidelity index in the ordered map of the groups. *)
Fixpoint group_push (fi : u64) (amount : U256) (g : list (u64 * list U256)) : list (u64 * list U256) :=
  match g with
  | [] => [(fi, [amount])]
  | (k, l) :: g' =>
      if fi <? k then (fi, [amount]) :: g
      else if fi =? k then (k, l ++ [amount]) :: g'
      else (k, l) :: group_push fi amount g'
  end.

Definition fi_groups (amounts : list U256) (fis : list u64) : list (u64 * list U256) :=
  foldl (fun g '(fi, amount) => group_push fi amount g) [] (combine fis amounts).

(** The missing part of [SCALE] goes to the last share. *)
Definition normalize_shares (y_fp : list U256) : list U256 :=
  let y_sum := foldl (wadd 256) 0 y_fp in
  match reverse y_fp with
  | last :: front => if y_sum <? SCALE then reverse (wadd 256 last (SCALE - y_sum) :: front) else y_fp
  | [] => y_fp
  end.

Definition compute_fi_fraction_map (nominal_amounts : list U256) (tribute_fis : list u64) (total_interest gratis_allocation : U256) :
    res (list (u64 * U256)) :=
  let groups := fi_groups nominal_amounts tribute_fis in
  let y_fp := (fun '(_, l) => wmul 256 (foldl (wadd 256) 0 l) SCALE / total_interest) <$> groups in
  let p := (fun '(_, l) => len l) <$> groups in
  let y_fp := normalize_shares y_fp in
  let f_fp := wmul 256 gratis_allocation SCALE / total_interest in
  let fmax_fp := wmul 256 f_fp 2 in
  let? fractions := calc_fraction_distribution_fp y_fp p (len nominal_amounts) f_fp fmax_fp in
  Ok (combine groups.*1 fractions).

Fixpoint fraction_of (m : list (u64 * U256)) (fi : u64) : U256 :=
  match m with
  | [] => 0
  | (k, f) :: m => if k =? fi then f else fraction_of m fi
  end.

(** What the oracle answers during a run. *)
Class PriceOracle := {
  get_pair_id : Z -> res Z;
  get_worldwide_day_vwap_for_pair_id : u32 -> Z -> res (option U256);
  get_max_active_scurve_value : u32 -> Z -> res U256
}.

(** A loop whose body can fail half way: what was written stays. *)
Fixpoint runM {S A} (f : S -> A -> S * res unit) (s : S) (l : list A) : S * res unit :=
  match l with
  | [] => (s, Ok tt)
  | x :: l =>
      match f s x with
      | (s, Ok _) => runM f s l
      | (s, Err e) => (s, Err e)
      end
  end.

Record Issuing := mkIssuing { st_nod : NodWorld; st_nods : list U256; st_done : list U256; st_left : U256 }.

Record LysisWorld := mkLysisWorld { lw_tribute : TributeContract; lw_nod : NodWorld; lw_fidelity : gmap Address u64 }.

Section Lysis.
Context `{Crypto} `{PriceOracle}.

Definition resolve_entry_price_minor (worldwide_day : u32) (iso_code : Z) : res U256 :=
  let? pair_id := get_pair_id iso_code in
  let? vwap := get_worldwide_day_vwap_for_pair_id worldwide_day pair_id in
  let vwap := default 0 vwap in
  let? max_scurve := get_max_active_scurve_value worldwide_day pair_id in
  let nominal := Z.max vwap max_scurve in
  ensure negb (nominal =? 0) else Revert "nominal price is zero: no VWAP or S-curve data available for this WorldwideDay" in
  Ok nominal.

(** What a failed [issue_nod] leaves: nothing when a check refuses, the item and
    its bucket when the floor price is off the ladder. *)
Definition issue_residue (w : NodWorld) (now : u64) (params : NodIssueParams) : NodWorld :=
  if p_owner params =? 0 then w else
  if bool_decide (is_Some (get_item (nw_nod w) (generate_nod_id (p_owner params) (p_worldwide_day params)))) then w else
  if 2 ^ 64 <=? now + UNLOCK_PERIOD_SECONDS then w else
  let item := issued_item now params in
  match rcreate (nod_items (nw_nod w)) item with
  | Err _ => w
  | Ok items =>
      let n := set_nod_items (nw_nod w) items in
      match get_bucket n (item_bucket_key item) with
      | Some _ => mkNodWorld n (nw_gratis w)
      | None =>
          match rcreate (nod_buckets n) (mkBucket (item_bucket_key item) (worldwide_day item) (floor_price_minor item) false 1 (p_entry_price_minor params)) with
          | Ok b => mkNodWorld (set_nod_buckets n b) (nw_gratis w)
          | Err _ => mkNodWorld n (nw_gratis w)
          end
      end
  end.

Definition gratis_load (fractions : list (u64 * U256)) (tribute : TributeData) (fi : u64) : U256 :=
  wmul 256 (nominal_amount_minor tribute) (fraction_of fractions fi) / SCALE.

Definition nod_params (wwd : u32) (tribute : TributeData) (fi : u64) (load entry_price_minor : U256) : NodIssueParams :=
  mkIssue (tr_owner tribute) wwd fi (calc_floor_price (Z.max (tribute_price_minor tribute) entry_price_minor)) load entry_price_minor
    (wmul 256 entry_price_minor load / SCALE) (issuance_currency tribute) (Tribute.reference_currency tribute).

Definition entry_price (wwd : u32) (entry_840 : U256) (tribute : TributeData) : res U256 :=
  if Tribute.reference_currency tribute =? 840 then Ok entry_840 else resolve_entry_price_minor wwd (Tribute.reference_currency tribute).

(** The body of the issuing loop. *)
Definition issue_one (now : u64) (wwd : u32) (entry_840 : U256) (fractions : list (u64 * U256)) (st : Issuing) (x : TributeData * u64) : Issuing * res unit :=
  let '(tribute, fi) := x in
  let load := gratis_load fractions tribute fi in
  if (load =? 0) || (load >? st_left st) then (st, Ok tt) else
  let remaining := st_left st - load in
  match entry_price wwd entry_840 tribute with
  | Err e => (st, Err e)
  | Ok entry_price_minor =>
      if 2 ^ 32 <=? fi then (st, Err (Revert "lysis: fidelity index exceeds u32::MAX")) else
      let params := nod_params wwd tribute fi load entry_price_minor in
      match issue_nod (st_nod st) now params with
      | Ok (w, nod_id) => (mkIssuing w (st_nods st ++ [nod_id]) (st_done st ++ [token_id tribute]) remaining, Ok tt)
      | Err e => (mkIssuing (issue_residue (st_nod st) now params) (st_nods st) (st_done st) remaining, Err e)
      end
  end.

(** A burn that fails has written nothing. *)
Definition burn_one (t : TributeContract) (id : U256) : TributeContract * res unit :=
  match burn t id with Ok t => (t, Ok tt) | Err e => (t, Err e) end.

(** After the issuing loop: the covered tributes are burned, and the index of the
    day is cleared when none is left. *)
Definition finish_lysis (w : LysisWorld) (wwd : u32) (tributes : list TributeData) (run : Issuing * res unit) : LysisWorld * res LysisResult :=
  match run with
  | (st, Err e) => (mkLysisWorld (lw_tribute w) (st_nod st) (lw_fidelity w), Err e)
  | (st, Ok _) =>
      match runM burn_one (lw_tribute w) (st_done st) with
      | (t, Err e) => (mkLysisWorld t (st_nod st) (lw_fidelity w), Err e)
      | (t, Ok _) =>
          let t := if len (st_done st) =? len tributes then clear_day_index t wwd else t in
          (mkLysisWorld t (st_nod st) (lw_fidelity w), Ok (mkLysisResult (st_nods st) (token_id <$> tributes) (st_left st)))
      end
  end.

Definition lysis (w : LysisWorld) (now : u64) (wwd : u32) (gratis_allocation : U256) : LysisWorld * res LysisResult :=
  let tributes := get_all_day_tributes (lw_tribute w) wwd in
  if bool_decide (tributes = []) then (w, Ok (mkLysisResult [] [] gratis_allocation)) else
  let tribute_fis := (fun t => get_fidelity_index (lw_fidelity w) (tr_owner t)) <$> tributes in
  let nominal_amounts := nominal_amount_minor <$> tributes in
  let total_interest := foldl (wadd 256) 0 nominal_amounts in
  if total_interest =? 0 then (w, Ok (mkLysisResult [] (token_id <$> tributes) gratis_allocation)) else
  match compute_fi_fraction_map nominal_amounts tribute_fis total_interest gratis_allocation with
  | Err e => (w, Err e)
  | Ok fractions =>
      match resolve_entry_price_minor wwd 840 with
      | Err e => (w, Err e)
      | Ok entry_840 =>
          finish_lysis w wwd tributes
            (runM (issue_one now wwd entry_840 fractions) (mkIssuing (lw_nod w) [] [] gratis_allocation) (combine tributes tribute_fis))
      end
  end.
End Lysis.

(** ** The issuing loop *)

Lemma floor_range p : 0 <= p -> 0 <= calc_floor_price p < 2 ^ 256.
Proof.
  intros Hp. unfold calc_floor_price, wmul. pose proof (Z.mod_pos_bound (p * (100 + FLOOR_RATE_PERCENT)) (2 ^ 256) eq_refl).
  split; [apply Z.div_pos; lia|apply Z.div_lt_upper_bound; lia].
Qed.

Lemma floor_priced p : 0 < p < 2 ^ 128 -> priced (calc_floor_price p).
Proof.
  intros Hp. split; [apply floor_range; lia|]. intros _. unfold price_fits, calc_floor_price, FLOOR_RATE_PERCENT.
  rewrite wmul_small by lia. assert (1 <= p * (100 + 8) / 100 < 2 ^ 129).
  { split; [apply Z.div_le_lower_bound; lia|apply Z.div_lt_upper_bound; lia]. }
  split; [lia|]. apply Z.div_lt_upper_bound; [done|]. unfold PRECISION. lia.
Qed.

(** ** The fractions of a day *)

Lemma wadd_le w x y : 0 <= x + y -> 0 < w -> 0 <= wadd w x y <= x + y.
Proof. intros H1 H2. unfold wadd. split; [apply Z.mod_pos_bound, Z.pow_pos_nonneg; lia|apply Z.mod_le; [done|apply Z.pow_pos_nonneg; lia]]. Qed.

Lemma wmul_div_range x y d : 0 < d -> 0 <= wmul 256 x y / d <= 2 ^ 256 / d.
Proof.
  intros Hd. unfold wmul. pose proof (Z.mod_pos_bound (x * y) (2 ^ 256) eq_refl). split; [apply Z.div_pos; lia|apply Z.div_le_mono; lia].
Qed.

(** A sum whose terms are small is small, whether or not its terms were exact. *)
Lemma foldl_wadd_le {A} (f : Z -> A -> Z) (g : A -> Z) b l : 0 <= b -> (forall acc x, f acc x = wadd 256 acc (g x)) -> (forall x, 0 <= g x <= b) ->
  forall acc, 0 <= acc -> 0 <= foldl f acc l <= acc + len l * b.
Proof.
  intros Hb Hf Hg. induction l as [|x l IH]; intros acc Ha; cbn [foldl]; [unfold len; cbn; lia|]. rewrite Hf. pose proof (Hg x) as Hx.
  pose proof (wadd_le 256 acc (g x) ltac:(lia) eq_refl) as Hw. destruct (IH (wadd 256 acc (g x)) ltac:(lia)) as [H1 H2]. unfold len in *. cbn [length]. lia.
Qed.

Lemma root_search_range fuel q target : forall lo hi, 1 <= lo <= hi -> hi < 2 ^ 255 -> lo <= root_search fuel q target lo hi <= hi.
Proof.
  induction fuel as [|fuel IH]; intros lo hi Hlo Hhi; cbn [root_search]; [lia|]. destruct (lo <? hi) eqn:E; bools; [|lia].
  pose proof (Z.div_mod (hi - lo + 1) 2 ltac:(lia)) as Hd. pose proof (Z.mod_pos_bound (hi - lo + 1) 2 ltac:(lia)).
  rewrite (wadd_small 256 (hi - lo) 1), (wadd_small 256 lo) by lia. set (mid := lo + (hi - lo + 1) / 2) in *. cbv zeta.
  assert (Hl : lo <= root_search fuel q target lo (mid - 1) <= hi) by (pose proof (IH lo (mid - 1) ltac:(lia) ltac:(lia)); lia).
  assert (Hr : lo <= root_search fuel q target mid hi <= hi) by (pose proof (IH mid hi ltac:(lia) ltac:(lia)); lia).
  destruct (bounded_pow _ _ _ _) as [p|]; [by destruct (target <? p)|done].
Qed.

Lemma fp_root_range n q : 0 <= n < 2 ^ 33 -> 0 <= fp_root (wmul 256 n SCALE) q < 2 ^ 93 /\ 0 <= fp_root (wmul 256 n SCALE / 2) q < 2 ^ 93.
Proof.
  intros Hn. rewrite wmul_small by (unfold SCALE; lia).
  assert (Hr : forall x, 0 <= x < 2 ^ 93 -> 0 <= fp_root x q < 2 ^ 93).
  { intros x Hx. unfold fp_root. destruct (x =? 0); [lia|]. destruct (x =? SCALE); [unfold SCALE; lia|]. cbv zeta.
    pose proof (root_search_range root_fuel q (Nat.iter (q - 1) (fun t => wmul 256 t SCALE) x) 1 (Z.max x SCALE) ltac:(unfold SCALE; lia) ltac:(unfold SCALE; lia)). unfold SCALE in *. lia. }
  split; apply Hr; unfold SCALE; [lia|]. split; [apply Z.div_pos; lia|apply Z.div_lt_upper_bound; lia].
Qed.

Lemma tau_at_range ng nt i pi pj : 0 <= ng < 2 ^ 32 -> 0 <= nt < 2 ^ 32 -> 1 <= i < 2 ^ 32 -> 0 <= pi < 2 ^ 32 -> 0 <= pj < 2 ^ 32 -> 0 <= tau_at ng nt i pi pj <= 2 ^ 186.
Proof.
  intros Hg Ht Hi Hp Hj. unfold tau_at. cbv zeta. set (a := fp_root (wmul 256 ng SCALE) 5). set (b := fp_root (wmul 256 nt SCALE) 10).
  assert (Hf : 0 <= wmul 256 a b / SCALE <= 2 ^ 186).
  { pose proof (proj1 (fp_root_range ng 5 ltac:(lia))) as Ha. fold a in Ha. pose proof (proj1 (fp_root_range nt 10 ltac:(lia))) as Hb. fold b in Hb.
    rewrite wmul_small by nia. split; [apply Z.div_pos; [nia|done]|]. transitivity (a * b); [apply Z.div_le_upper_bound; unfold SCALE; nia|nia]. }
  destruct (_ && _); [|done]. set (m := Z.min _ _). destruct (m =? 0) eqn:Em; cbn [negb]; [done|]. bools.
  pose proof (proj2 (fp_root_range (2 * i - 1) 5 ltac:(lia))) as Hn. set (n := fp_root (wmul 256 (2 * i - 1) SCALE / 2) 5) in *. clearbody a b. clearbody n.
  assert (0 <= m) by (unfold m; pose proof (proj1 (fp_root_range pi 10 ltac:(lia))); pose proof (proj1 (fp_root_range pj 10 ltac:(lia))); lia).
  rewrite wmul_small by (unfold SCALE; lia). split; [apply Z.div_pos; unfold SCALE; lia|]. transitivity (n * SCALE); [apply Z.div_le_upper_bound; unfold SCALE in *; nia|unfold SCALE; lia].
Qed.

Lemma nth_range (p : list Z) i : Forall (fun x => 0 <= x < 2 ^ 32) p -> 0 <= nth i p 0 < 2 ^ 32.
Proof. intros Hp. destruct (nth_in_or_default i p 0) as [Hin| ->]; [|lia]. by apply (proj1 (Forall_forall _ _) Hp), list_elem_of_In. Qed.

(** The weights are small, so that their sum is exact. *)
Lemma policy_tau_range p nt : len p < 2 ^ 32 -> 0 <= nt < 2 ^ 32 -> Forall (fun x => 0 <= x < 2 ^ 32) p ->
  Forall (fun t => 0 <= t <= 2 ^ 197) (policy_tau_fp p nt) /\ len (policy_tau_fp p nt) <= 2 ^ 32 + 2.
Proof.
  intros Hl Ht Hp. unfold policy_tau_fp. cbv zeta. set (mid := _ <$> seq 1 _). assert (2 ^ 256 / SCALE <= 2 ^ 197) by (vm_compute; discriminate). split.
  - apply Forall_app. split; [|apply Forall_app; split].
    + apply Forall_cons_2; [|by apply Forall_nil_2]. pose proof (wmul_div_range POLICY_C (foldl (wadd 256) 0 mid) SCALE eq_refl). lia.
    + apply Forall_fmap, Forall_forall. intros i Hi. apply elem_of_seq in Hi. cbn.
      pose proof (tau_at_range (Z.of_nat (length p)) nt (Z.of_nat i) (nth i p 0) (nth (i - 1) p 0) ltac:(unfold len in Hl; lia) Ht ltac:(unfold len in Hl; lia) (nth_range _ _ Hp) (nth_range _ _ Hp)). lia.
    + apply Forall_cons_2; [|by apply Forall_nil_2]. pose proof (wmul_div_range (SCALE - POLICY_C) (foldl (wadd 256) 0 mid) SCALE eq_refl). lia.
  - unfold len in *. rewrite !length_app. cbn [length]. unfold mid. rewrite length_fmap, length_seq. lia.
Qed.

Lemma cumulate_range y b : 0 <= b -> Forall (fun v => 0 <= v <= b) y -> forall cum, 0 <= cum -> Forall (fun v => 0 <= v <= cum + len y * b + SCALE) (cumulate cum y).
Proof.
  intros Hb Hy. induction Hy as [|v y Hv Hy IH]; intros cum Hc; [by apply Forall_nil_2|]. unfold len in *. cbn [length] in *.
  destruct y as [|u y]; [apply Forall_cons_2; [unfold SCALE; lia|by apply Forall_nil_2]|]. change (cumulate cum (v :: u :: y)) with (wadd 256 cum v :: cumulate (wadd 256 cum v) (u :: y)).
  pose proof (wadd_le 256 cum v ltac:(lia) eq_refl) as Hw. apply Forall_cons_2; [cbn [length]; unfold SCALE; lia|].
  eapply Forall_impl; [apply (IH (wadd 256 cum v)); lia|]. cbn [length]. intros x Hx. lia.
Qed.

(** The moments fit a signed word. *)
Lemma moments_fit y tau : Forall (fun v => 0 <= v <= 2 * SCALE) y -> len y < 2 ^ 32 -> Forall (fun t => 0 <= t <= 2 ^ 197) tau -> len tau <= 2 ^ 32 + 2 ->
  let m := compute_moments_fp y tau in
  mo_ey m < 2 ^ 255 /\ mo_var_y m < 2 ^ 255 /\ Forall (fun x => x < 2 ^ 255) (mo_m m) /\ Forall (fun x => x < 2 ^ 255) (mo_y_cum m).
Proof.
  intros Hy Hly Ht Hlt. unfold compute_moments_fp. cbv zeta. cbn [mo_m mo_y_cum mo_ey mo_var_y].
  set (m := if negb _ then _ else _). set (c := match y with [] => _ | _ => _ end).
  assert (Hlen : len (combine m c) <= 2 ^ 32 + 2).
  { unfold len in *. rewrite length_combine. assert (length m = length tau) as -> by (unfold m; destruct (negb _); by rewrite length_fmap). lia. }
  assert (Hs : lsum tau < 2 ^ 240).
  { assert (Hb : lsum tau <= len tau * 2 ^ 197) by (clear -Ht; induction Ht as [|t tau Hx Ht IH]; [done|]; change (lsum (t :: tau)) with (t + lsum tau); unfold len in *; cbn [length]; lia). lia. }
  assert (Hnn : Forall (fun t => 0 <= t) tau) by (eapply Forall_impl; [exact Ht|]; cbn; lia). split_and!.
  - assert (2 ^ 256 / SCALE <= 2 ^ 197) by (vm_compute; discriminate).
    destruct (foldl_wadd_le (fun acc '(mi, yi) => wadd 256 acc (wmul 256 mi yi / SCALE)) (fun p => wmul 256 p.1 p.2 / SCALE) (2 ^ 197) (combine m c) ltac:(lia)
      ltac:(by intros acc []) ltac:(intros x; pose proof (wmul_div_range x.1 x.2 SCALE eq_refl); lia) 0 ltac:(lia)) as [_ Hle]. lia.
  - assert (2 ^ 256 / (SCALE * SCALE) <= 2 ^ 197) by (vm_compute; discriminate).
    destruct (foldl_wadd_le (fun acc '(mi, yi) => wadd 256 acc (wmul 256 (wmul 256 mi yi) yi / (SCALE * SCALE))) (fun p => wmul 256 (wmul 256 p.1 p.2) p.2 / (SCALE * SCALE)) (2 ^ 197) (combine m c)
      ltac:(lia) ltac:(by intros acc []) ltac:(intros x; pose proof (wmul_div_range (wmul 256 x.1 x.2) x.2 (SCALE * SCALE) eq_refl); lia) 0 ltac:(lia)) as [_ Hle].
    match goal with |- saturating_sub _ (?e / _) < _ => set (d := e) end. assert (0 <= d / SCALE) by (apply Z.div_pos; [apply Z.mod_pos_bound; lia|done]). unfold saturating_sub. lia.
  - unfold m. rewrite foldl_wadd by (done || lia). rewrite Z.add_0_l. destruct (lsum tau =? 0) eqn:E0; cbn [negb]; bools; [apply Forall_fmap, Forall_true; cbn; lia|].
    apply Forall_fmap, Forall_forall. intros t Hin. cbn. pose proof (elem_le_lsum tau t Hnn Hin). pose proof (proj1 (Forall_forall _ _) Ht t Hin) as Ht1. cbn in Ht1.
    destruct (decide (lsum tau = 1)) as [E1|]; [rewrite E1 in *; rewrite Z.div_1_r, wmul_small by (unfold SCALE; nia); unfold SCALE; nia|].
    unfold wmul. pose proof (Z.mod_pos_bound (t * SCALE) (2 ^ 256) eq_refl). apply Z.div_lt_upper_bound; nia.
  - unfold c. destruct y as [|v y]; [apply Forall_cons_2; [done|by apply Forall_nil_2]|]. apply Forall_cons_2; [lia|].
    eapply Forall_impl; [apply (cumulate_range _ (2 * SCALE)); [done|done|lia]|]. cbn. unfold SCALE. lia.
Qed.

Lemma foldM_total {E A B} (f : B -> A -> result E B) l : (forall b x, x ∈ l -> exists b', f b x = Ok b') -> forall b, exists b', foldM f b l = Ok b'.
Proof.
  induction l as [|x l IH]; intros Hf b; [by eexists|]. cbn [foldM]. destruct (Hf b x ltac:(left)) as (b1 & ->). apply IH. intros b2 y Hy. apply Hf. by right.
Qed.

Lemma tail_sum_total bn bd ey terms : Forall (fun x => x.1 < 2 ^ 255 /\ x.2 < 2 ^ 255) terms -> exists z, tail_sum bn bd ey terms = Ok z.
Proof.
  intros Ht. apply foldM_total. intros acc [mj yj] Hin. destruct (proj1 (Forall_forall _ _) Ht _ Hin) as [Hm Hy]. cbn [fst snd] in *.
  unfold u256_to_i256. rewrite !(proj2 (Z.ltb_lt _ _)) by done. by eexists.
Qed.

Lemma Forall_combine {A B} (P : A -> Prop) (Q : B -> Prop) l k : Forall P l -> Forall Q k -> Forall (fun x => P x.1 /\ Q x.2) (combine l k).
Proof. intros Hl. revert k. induction Hl as [|a l Ha Hl IH]; intros k Hk; [by apply Forall_nil_2|]. destruct Hk as [|b k Hb Hk]; [by apply Forall_nil_2|]. cbn. apply Forall_cons_2; [done|by apply IH]. Qed.

Lemma distribution_total y p nt f : Forall (fun v => 0 <= v <= 2 * SCALE) y -> len y < 2 ^ 32 -> len p < 2 ^ 32 -> 0 <= nt < 2 ^ 32 -> Forall (fun x => 0 <= x < 2 ^ 32) p -> 0 <= f < 2 ^ 190 ->
  exists d, calc_fraction_distribution_fp y p nt f (wmul 256 f 2) = Ok d.
Proof.
  intros Hy Hly Hlp Hnt Hp Hf. unfold calc_fraction_distribution_fp. destruct (policy_tau_range p nt Hlp Hnt Hp) as [Ht Hlt].
  destruct p as [|a [|b p]]; [by eexists|by eexists|]. cbv zeta. destruct (moments_fit y _ Hy Hly Ht Hlt) as (H1 & H2 & H3 & H4). cbv zeta in *.
  set (mo := compute_moments_fp y _) in *. rewrite (wmul_small 256 f 2) by lia. set (ratio := if f * 2 =? 0 then _ else _).
  assert (Hr : ratio < 2 ^ 255).
  { unfold ratio. destruct (f * 2 =? 0) eqn:E; [lia|]. bools. rewrite wmul_small by (unfold SCALE; lia). apply Z.le_lt_trans with (f * SCALE); [apply Z.div_le_upper_bound; unfold SCALE; nia|unfold SCALE; lia]. }
  unfold u256_to_i256 at 1 2 3 4. rewrite !(proj2 (Z.ltb_lt _ _)) by (done || lia).
  match goal with |- context [foldM ?g [] ?l] => destruct (foldM_total g l) with (b := @nil Z) as (r & ->) end; [|by eexists].
  intros acc i _. destruct (tail_sum_total (iwrap (ratio - mo_ey mo)) (mo_var_y mo) (mo_ey mo) (drop i (combine (mo_m mo) (mo_y_cum mo)))) as (z & ->).
  - apply Forall_drop. by apply (Forall_combine (fun x => x < 2 ^ 255) (fun x => x < 2 ^ 255)).
  - by eexists.
Qed.

(** Grouping keeps the amounts: their sum, their number, and that they are not negative. *)
Definition group_ok (l : list U256) : Prop := 1 <= len l /\ Forall (fun x => 0 <= x) l.
Definition grouped (g : list (u64 * list U256)) (sum count : Z) : Prop :=
  lsum (lsum <$> g.*2) = sum /\ lsum (len <$> g.*2) = count /\ Forall group_ok g.*2.

Lemma grouped_cons k l g sum count : grouped ((k, l) :: g) sum count <-> group_ok l /\ grouped g (sum - lsum l) (count - len l).
Proof.
  unfold grouped. cbn [fmap list_fmap snd]. change (lsum (?x :: ?y)) with (x + lsum y). change (list_fmap _ _ snd g) with (g.*2).
  change (list_fmap _ _ lsum g.*2) with (lsum <$> g.*2). change (list_fmap _ _ len g.*2) with (len <$> g.*2).
  rewrite Forall_cons. split; intros (? & ? & ?); split_and!; (tauto || lia).
Qed.

Lemma group_push_spec fi a g : forall sum count, 0 <= a -> grouped g sum count -> grouped (group_push fi a g) (sum + a) (count + 1).
Proof.
  assert (Hone : group_ok [a] <-> 0 <= a) by (unfold group_ok; rewrite Forall_singleton; split; [tauto|done]).
  induction g as [|[k l] g IH]; intros sum count Ha Hg; cbn [group_push].
  - apply grouped_cons. split; [by apply Hone|]. destruct Hg as (H1 & H2 & _). cbn in *. subst. unfold grouped, len. cbn. split_and!; [lia|lia|constructor].
  - pose proof Hg as [Hl Hg']%grouped_cons. destruct (fi <? k); [|destruct (fi =? k)]; apply grouped_cons.
    + split; [by apply Hone|]. replace (sum + a - lsum [a]) with sum by (cbn; lia). replace (count + 1 - len [a]) with count by (unfold len; cbn; lia). done.
    + split; [split; [destruct Hl; unfold len in *; rewrite length_app; lia|apply Forall_app; split; [apply Hl|by constructor]]|].
      rewrite lsum_app. unfold len in *. rewrite length_app. replace (sum + a - (lsum l + lsum [a])) with (sum - lsum l) by (cbn; lia).
      replace (count + 1 - Z.of_nat (length l + length [a])) with (count - Z.of_nat (length l)) by (cbn; lia). done.
    + split; [done|]. replace (sum + a - lsum l) with (sum - lsum l + a) by lia. replace (count + 1 - len l) with (count - len l + 1) by lia. by apply IH.
Qed.

Lemma fi_groups_spec amounts fis : Forall (fun x => 0 <= x) amounts -> length fis = length amounts -> grouped (fi_groups amounts fis) (lsum amounts) (len amounts).
Proof.
  intros Hn Hl. unfold fi_groups.
  enough (Hg : forall g sum count, grouped g sum count -> grouped (foldl (fun g '(fi, amount) => group_push fi amount g) g (combine fis amounts)) (sum + lsum amounts) (count + len amounts)).
  { specialize (Hg [] 0 0 ltac:(split_and!; [done|done|constructor])). by rewrite !Z.add_0_l in Hg. }
  revert fis Hl. induction Hn as [|a l Ha Hn IH]; intros fis Hl g sum count Hg.
  - destruct fis; [|done]. unfold len. cbn. by rewrite !Z.add_0_r.
  - destruct fis as [|fi fis]; [done|]. injection Hl as Hl. cbn [combine foldl]. change (lsum (a :: l)) with (a + lsum l). unfold len in *. cbn [length].
    replace (sum + (a + lsum l)) with (sum + a + lsum l) by lia. replace (count + Z.of_nat (S (length l))) with (count + 1 + Z.of_nat (length l)) by lia.
    apply IH; [done|]. by apply group_push_spec.
Qed.

Lemma grouped_bounds g sum count : grouped g sum count ->
  len g <= count /\ Forall (fun l => 0 <= lsum l <= sum /\ 0 <= len l <= count /\ Forall (fun x => 0 <= x) l) g.*2.
Proof.
  intros (H1 & H2 & H3). assert (Hs : Forall (fun x => 0 <= x) (lsum <$> g.*2)) by (apply Forall_fmap; eapply Forall_impl; [exact H3|]; intros l [_ Hl]; by apply lsum_nonneg).
  assert (Hc : Forall (fun x => 0 < x) (len <$> g.*2)) by (apply Forall_fmap; eapply Forall_impl; [exact H3|]; intros l [Hl _]; cbn; lia).
  split.
  - pose proof (len_le_lsum _ Hc) as Hl. unfold len in Hl at 1. rewrite !length_fmap in Hl. rewrite H2 in Hl. exact Hl.
  - apply Forall_forall. intros l Hin. destruct (proj1 (Forall_forall _ _) H3 l Hin) as [Hl Hn]. split_and!; [by apply lsum_nonneg| | | |done].
    + rewrite <- H1. apply elem_le_lsum; [done|by apply list_elem_of_fmap_2].
    + unfold len. lia.
    + rewrite <- H2. apply elem_le_lsum; [|by apply list_elem_of_fmap_2]. eapply Forall_impl; [exact Hc|]. cbn. lia.
Qed.

Lemma normalize_range y : Forall (fun v => 0 <= v <= SCALE) y -> Forall (fun v => 0 <= v <= 2 * SCALE) (normalize_shares y) /\ length (normalize_shares y) = length y.
Proof.
  intros Hy. assert (Hy2 : Forall (fun v => 0 <= v <= 2 * SCALE) y) by (eapply Forall_impl; [exact Hy|]; unfold SCALE; cbn; lia).
  unfold normalize_shares. cbv zeta.
  destruct (reverse y) as [|v front] eqn:Er; [done|]. assert (Ey : y = reverse front ++ [v]) by (rewrite <- (reverse_involutive y), Er; by rewrite reverse_cons).
  destruct (_ <? SCALE) eqn:El; [|done]. bools. rewrite reverse_cons. rewrite Ey in Hy, Hy2. apply Forall_app in Hy as [_ Hv]. apply Forall_app in Hy2 as [Hf _]. apply Forall_cons_1 in Hv as [Hv _].
  split; [|rewrite Ey, !length_app; done]. apply Forall_app. split; [done|]. apply Forall_singleton.
  assert (H0 : 0 <= foldl (wadd 256) 0 y) by (clear; destruct y as [|u y] using rev_ind; [done|]; rewrite foldl_app; cbn; unfold wadd; apply Z.mod_pos_bound; lia).
  pose proof (wadd_le 256 v (SCALE - foldl (wadd 256) 0 y) ltac:(lia) eq_refl). lia.
Qed.

(** Where the amounts of a day and the allocation are below [2^128], the fractions exist. *)
Lemma fraction_map_total amounts fis alloc : Forall (fun x => 0 <= x) amounts -> length fis = length amounts -> len amounts < 2 ^ 32 ->
  0 < lsum amounts < 2 ^ 128 -> 0 <= alloc < 2 ^ 128 -> exists fr, compute_fi_fraction_map amounts fis (lsum amounts) alloc = Ok fr.
Proof.
  intros Hn Hl Hlen Ht Ha. unfold compute_fi_fraction_map. cbv zeta. pose proof (fi_groups_spec amounts fis Hn Hl) as Hg. destruct (grouped_bounds _ _ _ Hg) as [Hgl Hgb].
  set (g := fi_groups amounts fis) in *. set (total := lsum amounts) in *.
  assert (Hy : Forall (fun v => 0 <= v <= SCALE) ((fun '(_, l) => wmul 256 (foldl (wadd 256) 0 l) SCALE / total) <$> g)).
  { apply Forall_fmap. rewrite Forall_fmap in Hgb. eapply Forall_impl; [exact Hgb|]. intros [k l] (Hs & _ & Hnl). cbn [snd] in *. unfold compose in *. rewrite foldl_wadd by (done || lia). rewrite Z.add_0_l, wmul_small by (unfold SCALE; nia).
    split; [apply Z.div_pos; unfold SCALE; lia|apply Z.div_le_upper_bound; unfold SCALE; nia]. }
  destruct (normalize_range _ Hy) as [Hy2 Hly]. rewrite length_fmap in Hly.
  destruct (distribution_total (normalize_shares ((fun '(_, l) => wmul 256 (foldl (wadd 256) 0 l) SCALE / total) <$> g)) ((fun '(_, l) => len l) <$> g) (len amounts) (wmul 256 alloc SCALE / total)) as (d & ->).
  - done.
  - unfold len in *. lia.
  - unfold len in *. rewrite length_fmap. lia.
  - unfold len in *. lia.
  - apply Forall_fmap. rewrite Forall_fmap in Hgb. eapply Forall_impl; [exact Hgb|]. intros [k l] (_ & Hc & _). unfold compose. cbn [snd] in *. lia.
  - rewrite wmul_small by (unfold SCALE; lia). split; [apply Z.div_pos; unfold SCALE; lia|]. apply Z.le_lt_trans with (alloc * SCALE); [apply Z.div_le_upper_bound; unfold SCALE; nia|unfold SCALE; lia].
  - by eexists.
Qed.

(** ** Who is paid *)

(** What a budget covers of a list, in its order: every element whose load is
    positive and fits what the ones before it left. *)
Fixpoint covered {A} (load : A -> Z) (budget : Z) (l : list A) : list A :=
  match l with
  | [] => []
  | x :: l => if (0 <? load x) && (load x <=? budget) then x :: covered load (budget - load x) l else covered load budget l
  end.

Lemma covered_sublist {A} (load : A -> Z) l : forall b, covered load b l `sublist_of` l.
Proof. induction l as [|x l IH]; intros b; [done|]. cbn [covered]. destruct (_ && _); [by apply sublist_skip|by apply sublist_cons]. Qed.

(** No element that is left out could be paid from what is left in the end. *)
Lemma covered_maximal {A} (load : A -> Z) l : Forall (fun x => 0 <= load x) l -> forall b, 0 <= b ->
  0 <= b - lsum (load <$> covered load b l) /\ Forall (fun x => x ∈ covered load b l \/ load x = 0 \/ b - lsum (load <$> covered load b l) < load x) l.
Proof.
  induction 1 as [|x l Hx Hl IH]; intros b Hb; [cbn; split; [lia|by apply Forall_nil_2]|]. cbn [covered]. destruct (_ && _) eqn:E; bools.
  - cbn [fmap list_fmap]. change (lsum (load x :: ?y)) with (load x + lsum y). destruct (IH (b - load x) ltac:(lia)) as [H1 H2]. change (list_fmap _ _ load ?y) with (load <$> y) in *.
    rewrite Z.sub_add_distr. split; [done|]. apply Forall_cons_2; [left; left|]. eapply Forall_impl; [exact H2|]. intros y [Hy|Hy]; [left; by right|by right].
  - destruct (IH b Hb) as [H1 H2]. split; [done|]. apply Forall_cons_2; [|done]. right. apply andb_false_iff in E as [E|E]; bools; [left; lia|right].
    assert (0 <= lsum (load <$> covered load b l)); [|lia]. apply lsum_nonneg, Forall_fmap. eapply Forall_impl; [|exact (fun y Hy => Hy)].
    apply Forall_forall. intros y Hy. apply (proj1 (Forall_forall _ _) Hl). by eapply elem_of_submseteq, sublist_submseteq, covered_sublist.
Qed.

Lemma covered_fmap {A B} (g : A -> B) (load : B -> Z) l : forall b, covered load b (g <$> l) = g <$> covered (fun x => load (g x)) b l.
Proof. induction l as [|x l IH]; intros b; [done|]. cbn [fmap list_fmap covered]. change (list_fmap _ _ g l) with (g <$> l). rewrite !IH. by destruct (_ && _). Qed.

Lemma covered_none {A} (load : A -> Z) l b : Forall (fun x => load x = 0) l -> covered load b l = [].
Proof. intros Hl. revert b. induction Hl as [|x l Hx Hl IH]; intros b; [done|]. cbn [covered]. rewrite Hx. apply IH. Qed.

Section Run.
Context `{KeccakLaws} `{PriceOracle}.

Lemma nod_id_inj o o' d : is_address o -> is_address o' -> generate_nod_id o d = generate_nod_id o' d -> o = o'.
Proof.
  unfold is_address. intros Ho Ho' E. apply keccak_inj in E.
  - apply app_inv_head, app_inj_1 in E as [E _]; [|by rewrite !length_be_bytes]. by apply be_bytes_inj in E.
  - apply bytes_app; [repeat constructor; lia|apply bytes_app; apply bytes_be].
  - apply bytes_app; [repeat constructor; lia|apply bytes_app; apply bytes_be].
Qed.

Section Loop.
Context (now : u64) (wwd : u32) (entry_840 : U256) (fractions : list (u64 * U256)).
Hypothesis now_fits : now + UNLOCK_PERIOD_SECONDS < 2 ^ 64.

Definition load_of (x : TributeData * u64) : Z := gratis_load fractions x.1 x.2.
Definition price_of (x : TributeData * u64) : Z := match entry_price wwd entry_840 x.1 with Ok p => p | Err _ => 0 end.
Definition params_of (x : TributeData * u64) : NodIssueParams := nod_params wwd x.1 x.2 (load_of x) (price_of x).

(** The oracle prices the tribute and its owner can receive a Nod. *)
Record ready (x : TributeData * u64) : Prop := {
  rd_owner : is_address (tr_owner x.1) /\ tr_owner x.1 <> 0;
  rd_fi : 0 <= x.2 < 2 ^ 32;
  rd_price : entry_price wwd entry_840 x.1 = Ok (price_of x) /\ 0 < price_of x;
  rd_max : Z.max (tribute_price_minor x.1) (price_of x) < 2 ^ 128;
  rd_nominal : 0 <= nominal_amount_minor x.1
}.

Lemma load_nonneg x : ready x -> 0 <= load_of x.
Proof. intros R. unfold load_of, gratis_load, wmul. apply Z.div_pos; [apply Z.mod_pos_bound; lia|done]. Qed.

Lemma issue_one_skip st x : load_of x = 0 \/ st_left st < load_of x -> issue_one now wwd entry_840 fractions st x = (st, Ok tt).
Proof.
  destruct x as [tr fi]. unfold load_of. cbn [fst snd]. intros Hs. unfold issue_one.
  destruct (gratis_load fractions tr fi =? 0) eqn:E0; [done|]. bools. rewrite (proj2 (Z.gtb_lt _ _)) by lia. done.
Qed.

Lemma issue_one_issue st x L B : ready x -> stored (nw_nod (st_nod st)) L B -> 0 < load_of x <= st_left st ->
  Z.of_nat (length L) < 2 ^ 32 - 1 -> generate_nod_id (tr_owner x.1) wwd ∉ nod_id <$> L ->
  exists n' B' id, issue_one now wwd entry_840 fractions st x =
      (mkIssuing (mkNodWorld n' (nw_gratis (st_nod st))) (st_nods st ++ [id]) (st_done st ++ [token_id x.1]) (st_left st - load_of x), Ok tt) /\
    stored n' (L ++ [issued_item now (params_of x)]) B'.
Proof.
  intros [[Ho Hz] Hfi [Ep Hp] Hm Hn] Hs Hl Hlen Hid. destruct x as [tr fi]. cbn [fst snd] in *.
  unfold issue_one. fold (load_of (tr, fi)). change (gratis_load fractions tr fi) with (load_of (tr, fi)).
  rewrite (proj2 (Z.eqb_neq (load_of (tr, fi)) 0)) by lia. cbn [orb]. rewrite Z.gtb_ltb, (proj2 (Z.ltb_ge _ _)) by lia. cbv zeta. rewrite Ep.
  rewrite (proj2 (Z.leb_gt (2 ^ 32) fi)) by lia. fold (params_of (tr, fi)).
  destruct (issue_spec (st_nod st) L B now (params_of (tr, fi)) Hs) as (n' & B' & E & Hs'); try done.
  - apply floor_range. lia.
  - intros _. apply floor_priced. cbn [price_of fst]. lia.
  - exists n', B', (generate_nod_id (tr_owner tr) wwd). change (nod_params wwd tr fi (load_of (tr, fi)) (price_of (tr, fi))) with (params_of (tr, fi)). by rewrite E.
Qed.

Definition items_of (X : list (TributeData * u64)) : list NodItemState := (fun x => issued_item now (params_of x)) <$> X.
Definition loads (X : list (TributeData * u64)) : Z := lsum (load_of <$> X).

(** What the loop has done when it went through: [X] are the tributes it covered. *)
Record issued (st st' : Issuing) (L : list NodItemState) (l X : list (TributeData * u64)) : Prop := {
  iss_covered : X = covered load_of (st_left st) l;
  iss_done : st_done st' = st_done st ++ (token_id <$> X.*1);
  iss_left : st_left st' = st_left st - loads X;
  iss_pos : 0 <= st_left st';
  iss_loads : Forall (fun x => 0 < load_of x) X;
  iss_nods : exists B, stored (nw_nod (st_nod st')) (L ++ items_of X) B;
  iss_gratis : nw_gratis (st_nod st') = nw_gratis (st_nod st)
}.

Lemma issued_id x : nod_id (issued_item now (params_of x)) = generate_nod_id (tr_owner x.1) wwd.
Proof. done. Qed.

Lemma issue_run l : forall st L B, stored (nw_nod (st_nod st)) L B -> 0 <= st_left st -> Forall ready l -> NoDup (tr_owner <$> l.*1) ->
  Forall (fun x => generate_nod_id (tr_owner x.1) wwd ∉ nod_id <$> L) l -> Z.of_nat (length L + length l) < 2 ^ 32 - 1 ->
  exists st' X, runM (issue_one now wwd entry_840 fractions) st l = (st', Ok tt) /\ issued st st' L l X.
Proof.
  induction l as [|x l IH]; intros st L B Hs Hpos Hr Hn Hid Hlen.
  { exists st, []. split; [done|]. split; try done; [by rewrite app_nil_r|unfold loads; cbn; lia|]. exists B. by rewrite app_nil_r. }
  apply Forall_cons in Hr as [Hx Hr]. apply Forall_cons in Hid as [Hxid Hid]. cbn [fmap list_fmap length] in *. apply NoDup_cons in Hn as [Hxo Hn]. pose proof (load_nonneg x Hx).
  destruct (decide (load_of x = 0 \/ st_left st < load_of x)) as [Hskip|Htake].
  - cbn [runM]. rewrite (issue_one_skip _ _ Hskip). destruct (IH st L B Hs Hpos Hr Hn Hid) as (st' & X & E & I); [lia|].
    exists st', X. split; [done|]. destruct I as [-> ? ? ? ? ? ?]. split; try done. cbn [covered]. destruct (_ && _) eqn:Ec; [|done]. bools. lia.
  - destruct (issue_one_issue st x L B Hx Hs) as (n1 & B1 & id & E1 & S1); [lia|lia|done|]. cbn [runM]. rewrite E1.
    set (st1 := mkIssuing _ _ _ _). destruct (IH st1 _ B1 S1) as (st' & X & E & I); [cbn; lia|done|done| |rewrite length_app; cbn; lia|].
    { apply Forall_forall. intros y Hy. rewrite fmap_app, elem_of_app. intros [Hin|Hin]; [by apply (proj1 (Forall_forall _ _) Hid y)|].
      apply list_elem_of_singleton in Hin. rewrite issued_id in Hin.
      apply nod_id_inj in Hin; [|apply (rd_owner _ (proj1 (Forall_forall _ _) Hr y Hy))|apply (rd_owner _ Hx)].
      destruct Hxo. rewrite <- Hin. by apply list_elem_of_fmap_2, list_elem_of_fmap_2. }
    exists st', (x :: X). split; [done|]. destruct I as [I1 I2 I3 I4 I5 I6 I7]. split; try done.
    + cbn [covered]. rewrite (proj2 (Z.ltb_lt 0 _)), (proj2 (Z.leb_le _ _)) by lia. cbn [andb]. f_equal. exact I1.
    + rewrite I2. cbn. by rewrite <- app_assoc.
    + rewrite I3. unfold loads. cbn [fmap list_fmap lsum foldr]. unfold st1, lsum. cbn [st_left]. lia.
    + constructor; [lia|done].
    + cbn [items_of fmap list_fmap]. rewrite cons_middle, app_assoc. exact I6.
Qed.

(** A second Nod of the same owner for the day is refused, and the state stays as it was. *)
Lemma issue_one_again st x L B : ready x -> stored (nw_nod (st_nod st)) L B -> 0 < load_of x <= st_left st ->
  generate_nod_id (tr_owner x.1) wwd ∈ nod_id <$> L ->
  exists st', issue_one now wwd entry_840 fractions st x = (st', Err (Revert "nod already exists")) /\ st_nod st' = st_nod st.
Proof.
  intros [[Ho Hz] Hfi [Ep Hp] Hm Hn] Hs Hl Hid. destruct x as [tr fi]. cbn [fst snd] in *.
  unfold issue_one. change (gratis_load fractions tr fi) with (load_of (tr, fi)).
  rewrite (proj2 (Z.eqb_neq (load_of (tr, fi)) 0)) by lia. cbn [orb]. rewrite Z.gtb_ltb, (proj2 (Z.ltb_ge _ _)) by lia. cbv zeta. rewrite Ep.
  rewrite (proj2 (Z.leb_gt (2 ^ 32) fi)) by lia. unfold issue_nod, issue_residue. cbn [nod_params p_owner p_worldwide_day].
  rewrite (proj2 (Z.eqb_neq _ _) Hz). cbn [negb]. rewrite (stored_get _ _ _ _ Hs), bool_decide_eq_true_2 by done. cbn [negb].
  eexists. split; [done|]. done.
Qed.

Definition paid (l : list (TributeData * u64)) : list (TributeData * u64) := filter (fun x => 0 < load_of x) l.

(** When the budget covers every load, the loop stops only at a second Nod of the
    same owner, and what it issued before stays. *)
Lemma issue_outcome l : forall st L B, stored (nw_nod (st_nod st)) L B -> Forall ready l -> loads l <= st_left st ->
  Z.of_nat (length L + length l) < 2 ^ 32 - 1 ->
  exists st' r X B', runM (issue_one now wwd entry_840 fractions) st l = (st', r) /\ stored (nw_nod (st_nod st')) (L ++ items_of X) B' /\
    match r with
    | Ok _ => X = paid l /\ st_done st' = st_done st ++ (token_id <$> X.*1) /\ st_left st' = st_left st - loads X /\
        NoDup (tr_owner <$> X.*1) /\ Forall (fun x => generate_nod_id (tr_owner x.1) wwd ∉ nod_id <$> L) X
    | Err e => e = Revert "nod already exists" /\ exists x Y, paid l = X ++ x :: Y /\ generate_nod_id (tr_owner x.1) wwd ∈ nod_id <$> (L ++ items_of X)
    end.
Proof.
  induction l as [|x l IH]; intros st L B Hs Hr Hl Hlen.
  { exists st, (Ok tt), [], B. cbn. rewrite !app_nil_r. unfold loads. cbn. rewrite Z.sub_0_r. split_and!; try done; constructor. }
  apply Forall_cons in Hr as [Hx Hr]. pose proof (load_nonneg x Hx) as Hxl. unfold loads in Hl. cbn [fmap list_fmap lsum foldr length] in *. fold (lsum (load_of <$> l)) in Hl.
  unfold paid. rewrite filter_cons. destruct (decide (load_of x = 0)) as [Hz|Hnz].
  - cbn [runM]. rewrite (issue_one_skip _ _ (or_introl Hz)). rewrite decide_False by lia. apply (IH st L B Hs Hr); [unfold loads; lia|lia].
  - rewrite decide_True by lia. fold (paid l). assert (0 <= lsum (load_of <$> l)).
    { apply lsum_nonneg, Forall_fmap. eapply Forall_impl; [exact Hr|]. intros y Hy. by apply load_nonneg. }
    destruct (decide (generate_nod_id (tr_owner x.1) wwd ∈ nod_id <$> L)) as [Hin|Hout].
    + destruct (issue_one_again st x L B Hx Hs) as (st' & E & En); [lia|done|]. cbn [runM]. rewrite E. exists st', (Err (Revert "nod already exists")), [], B.
      rewrite En. cbn [items_of fmap list_fmap]. rewrite app_nil_r. split; [done|]. split; [done|]. split; [done|]. by exists x, (paid l).
    + destruct (issue_one_issue st x L B Hx Hs) as (n1 & B1 & id & E1 & S1); [lia|lia|done|]. cbn [runM]. rewrite E1.
      set (st1 := mkIssuing _ _ _ _). destruct (IH st1 _ B1 S1 Hr) as (st' & r & X & B' & E & S' & HP); [unfold loads, st1; cbn [st_left]; lia|rewrite length_app; cbn; lia|].
      exists st', r, (x :: X), B'. cbn [items_of fmap list_fmap]. fold (items_of X). rewrite cons_middle, app_assoc. split; [done|]. split; [done|].
      destruct r as [u|er]; [|destruct HP as (? & y & Y & Hy & ?); split; [done|]; exists y, Y; by rewrite Hy].
      destruct HP as (-> & HP1 & HP2 & HP3 & HP4). split; [done|]. cbn [fmap list_fmap]. rewrite HP1. split; [unfold st1; cbn [st_done]; by rewrite <- app_assoc|].
      split; [rewrite HP2; unfold st1, loads; cbn [st_left fmap list_fmap lsum foldr]; unfold lsum; lia|]. split; constructor; try done.
      * intros Hin. apply list_elem_of_fmap in Hin as (y1 & Ey & Hin). apply list_elem_of_fmap in Hin as (y & -> & Hy).
        apply (proj1 (Forall_forall _ _) HP4 y Hy). rewrite fmap_app, elem_of_app. right. rewrite <- Ey. by left.
      * eapply Forall_impl; [exact HP4|]. intros y Hy Hin. apply Hy. rewrite fmap_app, elem_of_app. by left.
Qed.
End Loop.

(** ** The run *)

Lemma runM_burn t ids t' : foldM burn t ids = Ok t' -> runM burn_one t ids = (t', Ok tt).
Proof.
  revert t. induction ids as [|id ids IH]; intros t E; [by injection E as ->|]. cbn [foldM runM] in *. unfold burn_one at 1.
  destruct (burn t id) as [t1|]; [by apply IH|done].
Qed.

Definition fi_of (f : gmap Address u64) (tr : TributeData) : TributeData * u64 := (tr, get_fidelity_index f (tr_owner tr)).

Lemma combine_fi f l : combine l ((fun t => get_fidelity_index f (tr_owner t)) <$> l) = fi_of f <$> l.
Proof. induction l as [|x l IH]; [done|]. cbn. by rewrite IH. Qed.

Lemma fi_of_fst f l : (fi_of f <$> l).*1 = l.
Proof. rewrite <- list_fmap_compose. cbn. apply list_fmap_id. Qed.

(** What a run needs of the stores and the oracle. *)
Record lysis_pre (w : LysisWorld) (now : u64) (wwd : u32) (alloc : U256) (L : list TributeData) (D O : Z -> list Z)
    (N : list NodItemState) (entry_840 : U256) : Prop := {
  lp_tributes : tribute_rep (lw_tribute w) L D O;
  lp_nods : exists B, stored (nw_nod (lw_nod w)) N B;
  lp_day : is_u32 wwd;
  lp_now : now + UNLOCK_PERIOD_SECONDS < 2 ^ 64;
  lp_alloc : 0 <= alloc;
  lp_entry : resolve_entry_price_minor wwd 840 = Ok entry_840;
  lp_ready : Forall (ready wwd entry_840) (fi_of (lw_fidelity w) <$> of_day wwd L);
  lp_fresh : Forall (fun tr => generate_nod_id (tr_owner tr) wwd ∉ nod_id <$> N) (of_day wwd L);
  lp_room : Z.of_nat (length N + length (of_day wwd L)) < 2 ^ 32 - 1
}.

Lemma day_nominal w now wwd alloc L D O N e : lysis_pre w now wwd alloc L D O N e -> Forall (fun tr => 0 <= nominal_amount_minor tr) (of_day wwd L).
Proof.
  intros P. apply Forall_forall. intros tr Htr. apply list_elem_of_filter in Htr as [_ Htr].
  apply (ok_nominal _ (proj1 (Forall_forall _ _) (rep_ok _ _ _ _ (lp_tributes _ _ _ _ _ _ _ _ _ P)) _ Htr)).
Qed.

Lemma sublist_full {A} (X l : list A) : X `sublist_of` l -> length X = length l -> X = l.
Proof.
  induction 1 as [|x X l HS IH|x X l HS IH]; [done|intros [= E]; f_equal; by apply IH|].
  intros E. apply sublist_length in HS. cbn in E. lia.
Qed.

Lemma runM_burn_open t L D O ids t' : tribute_rep t L D O -> runM burn_one t ids = (t', Ok tt) -> forall d, is_open t' d = is_open t d.
Proof.
  revert t L. induction ids as [|id ids IH]; intros t L R E d; cbn [runM] in E; [by injection E as <-|].
  unfold burn_one at 1 in E. destruct (burn t id) as [t1|] eqn:Eb; [|done].
  destruct (get_tribute t id) as [tr|] eqn:Eg; [|unfold burn in Eb; by rewrite Eg in Eb]. apply (rep_get _ _ _ _ R) in Eg as [Hin <-].
  destruct (burn_rep _ _ _ _ _ R Hin) as (t2 & E2 & R2 & _ & Ho & _). rewrite Eb in E2. apply Ok_inj in E2. subst t2. by rewrite (IH _ _ R2 E d), Ho.
Qed.

(** The burns and the clearing after the loop. *)
Lemma lysis_burns t L D O wwd f (X : list (TributeData * u64)) : tribute_rep t L D O -> is_u32 wwd -> X `sublist_of` (fi_of f <$> of_day wwd L) ->
  exists t1 D', runM burn_one t (token_id <$> X.*1) = (t1, Ok tt) /\
    tribute_rep (if len (token_id <$> X.*1) =? len (of_day wwd L) then clear_day_index t1 wwd else t1) (but_all (token_id <$> X.*1) L) D' O.
Proof.
  intros R Hd Hsub. assert (Hsub1 : X.*1 `sublist_of` of_day wwd L) by (rewrite <- (fi_of_fst f (of_day wwd L)); by apply fmap_sublist).
  assert (HsubL : X.*1 `sublist_of` L) by (etransitivity; [exact Hsub1|apply sublist_filter]).
  destruct (burn_list_rep (token_id <$> X.*1) t L D O R) as (t1 & E & R1 & _).
  { eapply sublist_NoDup; [exact (rep_nodup _ _ _ _ R)|by apply fmap_sublist]. }
  { intros id Hid. apply list_elem_of_fmap in Hid as (y & -> & Hy). apply list_elem_of_fmap_2. by eapply elem_of_submseteq, sublist_submseteq. }
  exists t1. destruct (_ =? _) eqn:El; [|exists D; by rewrite (runM_burn _ _ _ E)]. bools. exists (clear_at wwd D). rewrite (runM_burn _ _ _ E).
  split; [done|]. apply clear_rep; [done|done|]. apply elem_of_nil_inv. intros y Hy. apply list_elem_of_filter in Hy as [Hyd Hy].
  apply but_all_spec in Hy as [Hy Hno]. destruct Hno. apply list_elem_of_fmap_2.
  rewrite (sublist_full _ _ Hsub1); [by apply list_elem_of_filter|]. unfold len in El. rewrite length_fmap in El. lia.
Qed.

(** Whatever the outcome, the tribute store stays well formed and its seals stay. *)
Lemma issue_done now wwd e fr l : forall st st' r, runM (issue_one now wwd e fr) st l = (st', r) ->
  exists Y, Y `sublist_of` l /\ st_done st' = st_done st ++ (token_id <$> Y.*1).
Proof.
  induction l as [|x l IH]; intros st st' r E; cbn [runM] in E; [injection E as <- _; exists []; by rewrite app_nil_r|].
  assert (Hx : st_done (issue_one now wwd e fr st x).1 = st_done st \/ st_done (issue_one now wwd e fr st x).1 = st_done st ++ [token_id x.1]).
  { destruct x as [tr fi]. unfold issue_one. destruct (_ || _); [by left|]. cbv zeta. destruct (entry_price _ _ _); [|by left]. destruct (_ <=? _); [by left|].
    destruct (issue_nod _ _ _) as [[]|]; [by right|by left]. }
  destruct (issue_one now wwd e fr st x) as [st1 [u|er]]; cbn [fst] in Hx.
  - destruct (IH _ _ _ E) as (Y & HY & EY). destruct Hx as [Hx|Hx]; rewrite Hx in EY; [exists Y; split; [by apply sublist_cons|done]|].
    exists (x :: Y). split; [by apply sublist_skip|]. rewrite EY. cbn. by rewrite <- app_assoc.
  - injection E as <- _. destruct Hx as [Hx|Hx]; rewrite Hx; [exists []; split; [apply sublist_nil_l|by rewrite app_nil_r]|].
    exists [x]. split; [apply sublist_skip, sublist_nil_l|done].
Qed.

Lemma lysis_tributes w now wwd alloc L D O : tribute_rep (lw_tribute w) L D O -> is_u32 wwd ->
  exists L' D', tribute_rep (lw_tribute (lysis w now wwd alloc).1) L' D' O /\
    forall d, is_open (lw_tribute (lysis w now wwd alloc).1) d = is_open (lw_tribute w) d.
Proof.
  intros R Hd. unfold lysis. rewrite (day_tributes_spec _ _ _ _ _ R Hd). case_bool_decide; [by exists L, D|]. cbv zeta.
  destruct (_ =? 0); [by exists L, D|]. destruct (compute_fi_fraction_map _ _ _ _) as [fr|]; [|by exists L, D].
  destruct (resolve_entry_price_minor _ _) as [e|]; [|by exists L, D]. rewrite combine_fi.
  destruct (runM _ _ _) as [st r] eqn:E. destruct (issue_done _ _ _ _ _ _ _ _ E) as (Y & HY & EY). cbn [st_done app] in EY.
  unfold finish_lysis. destruct r as [u|er]; [|by exists L, D]. rewrite EY.
  destruct (lysis_burns _ _ _ _ _ _ _ R Hd HY) as (t1 & D' & Eb & Rb). rewrite Eb. cbn [fst lw_tribute]. exists (but_all (token_id <$> Y.*1) L), D'.
  split; [done|]. intros d. pose proof (runM_burn_open _ _ _ _ _ _ R Eb d) as Ho. by destruct (_ =? _).
Qed.

Definition gratis_in (N : list NodItemState) : Z := lsum (gratis_load_minor <$> N).

(** The outcome of a run that covered the tributes [X]. *)
Record lysed (w w' : LysisWorld) (now : u64) (wwd : u32) (alloc left : U256) (L : list TributeData) (O : Z -> list Z) (N : list NodItemState)
    (entry_840 : U256) (fractions : list (u64 * U256)) (X : list (TributeData * u64)) : Prop := {
  ly_covered : X = covered (load_of fractions) alloc (fi_of (lw_fidelity w) <$> of_day wwd L);
  ly_loads : Forall (fun x => 0 < load_of fractions x) X;
  ly_left : 0 <= left /\ left + loads fractions X = alloc;
  ly_nods : exists B, stored (nw_nod (lw_nod w')) (N ++ items_of now wwd entry_840 fractions X) B;
  ly_tributes : exists D', tribute_rep (lw_tribute w') (but_all (token_id <$> X.*1) L) D' O;
  ly_gratis : nw_gratis (lw_nod w') = nw_gratis (lw_nod w);
  ly_fidelity : lw_fidelity w' = lw_fidelity w
}.

Lemma lysed_none w now wwd alloc L D O N e fr : lysis_pre w now wwd alloc L D O N e -> Forall (fun tr => nominal_amount_minor tr = 0) (of_day wwd L) ->
  lysed w w now wwd alloc alloc L O N e fr [].
Proof.
  intros P Hz. destruct P as [Rt [B Hs] Hd Hnow Ha He Hr Hf Hroom]. split; try done.
  - rewrite covered_none; [done|]. apply Forall_fmap. eapply Forall_impl; [exact Hz|]. intros tr Htr. unfold load_of, gratis_load. cbn. by rewrite Htr.
  - unfold loads. cbn. lia.
  - exists B. cbn. by rewrite app_nil_r.
  - by exists D.
Qed.

Lemma nominal_zero l : Forall (fun tr => 0 <= nominal_amount_minor tr) l -> lsum (nominal_amount_minor <$> l) = 0 -> Forall (fun tr => nominal_amount_minor tr = 0) l.
Proof.
  intros Hn Hz. apply Forall_forall. intros tr Htr. pose proof (proj1 (Forall_forall _ _) Hn tr Htr).
  pose proof (elem_le_lsum (nominal_amount_minor <$> l) (nominal_amount_minor tr) ltac:(by apply Forall_fmap) ltac:(by apply list_elem_of_fmap_2)). cbn in *. lia.
Qed.

(** The fractions of the day, where it has something to share. *)
Definition day_fractions (w : LysisWorld) (wwd : u32) (alloc : U256) (L : list TributeData) (fr : list (u64 * U256)) : Prop :=
  let day := of_day wwd L in
  0 < lsum (nominal_amount_minor <$> day) ->
  compute_fi_fraction_map (nominal_amount_minor <$> day) ((fun tr => get_fidelity_index (lw_fidelity w) (tr_owner tr)) <$> day) (lsum (nominal_amount_minor <$> day)) alloc = Ok fr.

Lemma lysis_run w now wwd alloc L D O N e : lysis_pre w now wwd alloc L D O N e -> alloc < 2 ^ 128 -> lsum (nominal_amount_minor <$> of_day wwd L) < 2 ^ 128 ->
  NoDup (tr_owner <$> of_day wwd L) ->
  exists fr w' X r, day_fractions w wwd alloc L fr /\ lysis w now wwd alloc = (w', Ok r) /\ lysed w w' now wwd alloc (remaining_gratis r) L O N e fr X.
Proof.
  intros P Hal Htot Hn. pose proof P as [Rt [B Hs] Hd Hnow Ha He Hr Hf Hroom]. pose proof (day_nominal _ _ _ _ _ _ _ _ _ P) as Hnn. unfold lysis, day_fractions. rewrite (day_tributes_spec _ _ _ _ _ Rt Hd). cbv zeta.
  assert (Hge : 0 <= lsum (nominal_amount_minor <$> of_day wwd L)) by (by apply lsum_nonneg, Forall_fmap).
  rewrite foldl_wadd, Z.add_0_l by (done || lia || by apply Forall_fmap). set (total := lsum _) in *.
  case_bool_decide as Hnil; [|destruct (total =? 0) eqn:Ez; bools].
  { exists [], w, [], (mkLysisResult [] [] alloc). assert (Ht0 : total = 0) by (unfold total; by rewrite Hnil). split; [lia|]. split; [done|]. eapply lysed_none; [done|by rewrite Hnil]. }
  { eexists [], w, [], _. split; [lia|]. split; [done|]. eapply lysed_none; [done|by apply nominal_zero]. }
  destruct (fraction_map_total (nominal_amount_minor <$> of_day wwd L) ((fun t => get_fidelity_index (lw_fidelity w) (tr_owner t)) <$> of_day wwd L) alloc) as (fr & Efr).
  { by apply Forall_fmap. } { by rewrite !length_fmap. } { unfold len. rewrite length_fmap. lia. } { fold total. lia. } { lia. }
  fold total in Efr. rewrite Efr, He, combine_fi.
  destruct (issue_run now wwd e fr Hnow (fi_of (lw_fidelity w) <$> of_day wwd L) (mkIssuing (lw_nod w) [] [] alloc) N B) as (st & X & E & I);
    [done|done|done|by rewrite fi_of_fst| |by rewrite length_fmap|].
  { apply Forall_forall. intros x Hx. apply list_elem_of_fmap in Hx as (tr & -> & Htr). by apply (proj1 (Forall_forall _ _) Hf). }
  rewrite E. unfold finish_lysis. destruct I as [I1 I2 I3 I4 I5 I6 I7]. cbn [st_left] in I1.
  assert (Hsub : X `sublist_of` (fi_of (lw_fidelity w) <$> of_day wwd L)) by (rewrite I1; apply covered_sublist).
  destruct (lysis_burns _ _ _ _ _ _ _ Rt Hd Hsub) as (t1 & D' & Eb & Rb).
  cbn [st_done app] in I2. rewrite I2, Eb. exists fr. do 3 eexists. split; [done|]. split; [done|]. cbn [remaining_gratis]. split; try done; cbn [st_left st_nod] in *.
  - lia.
  - by exists D'.
Qed.

Lemma gratis_in_app N M : gratis_in (N ++ M) = gratis_in N + gratis_in M.
Proof. unfold gratis_in. by rewrite fmap_app, lsum_app. Qed.

Lemma gratis_of_items now wwd e fr X : gratis_in (items_of now wwd e fr X) = loads fr X.
Proof. unfold gratis_in, items_of, loads. rewrite <- list_fmap_compose. done. Qed.

(** C25. A run of lysis over a day whose tributes belong to different owners, whose
    prices are known and for which no Nod exists yet always goes through when the
    allocation and the day's nominal amounts are below [2^128] and the list of Nods
    has room: the fractions of the
    fidelity classes exist, and with the loads they give the run pays, in the order
    of the day, every tribute whose load is positive and fits what is left, and no
    other. A tribute that is not paid has load zero or more than the gratis
    returned. The paid tributes and only they are burned, each for one Nod of its
    owner with exactly its load, the Nods and the gratis returned add up to the
    allocation, and no gratis is minted. *)
Theorem lysis_conserves w now wwd alloc L D O N e :
  lysis_pre w now wwd alloc L D O N e -> alloc < 2 ^ 128 -> lsum (nominal_amount_minor <$> of_day wwd L) < 2 ^ 128 ->
  NoDup (tr_owner <$> of_day wwd L) ->
  exists fr w' r N' L', day_fractions w wwd alloc L fr /\
    let load tr := gratis_load fr tr (get_fidelity_index (lw_fidelity w) (tr_owner tr)) in
    let X := covered load alloc (of_day wwd L) in
    lysis w now wwd alloc = (w', Ok r) /\
    (exists B, stored (nw_nod (lw_nod w')) (N ++ N') B) /\ (exists D', tribute_rep (lw_tribute w') L' D' O) /\
    0 <= remaining_gratis r /\ gratis_in (N ++ N') + remaining_gratis r = gratis_in N + alloc /\
    (forall tr, tr ∈ of_day wwd L -> tr ∈ X \/ load tr = 0 \/ remaining_gratis r < load tr) /\
    (forall tr, tr ∈ L' <-> tr ∈ L /\ tr ∉ X) /\
    Forall2 (fun tr i => owner i = tr_owner tr /\ nod_id i = generate_nod_id (tr_owner tr) wwd /\ 0 < gratis_load_minor i /\ gratis_load_minor i = load tr) X N' /\
    nw_gratis (lw_nod w') = nw_gratis (lw_nod w).
Proof.
  intros P Hal Htot Hn. destruct (lysis_run _ _ _ _ _ _ _ _ _ P Hal Htot Hn) as (fr & w' & X & r & Efr & E & [I1 I2 [I3 I4] I5 I6 I7 I8]).
  rewrite covered_fmap in I1. set (X0 := covered _ _ _) in I1. assert (Ef : X.*1 = X0) by (by rewrite I1, fi_of_fst).
  exists fr, w', r, (items_of now wwd e fr X), (but_all (token_id <$> X.*1) L). split; [done|]. cbv zeta. split; [done|]. split; [done|]. split; [done|]. split; [done|].
  fold X0. assert (Hsub : X0 `sublist_of` of_day wwd L) by apply covered_sublist.
  pose proof (lp_tributes _ _ _ _ _ _ _ _ _ P) as Rt. split; [rewrite gratis_in_app, gratis_of_items; lia|].
  assert (Hload : loads fr X = lsum ((fun tr => load_of fr (fi_of (lw_fidelity w) tr)) <$> X0)) by (unfold loads; rewrite I1, <- list_fmap_compose; done).
  split; [|split; [|split; [|done]]].
  - destruct (covered_maximal (fun tr => load_of fr (fi_of (lw_fidelity w) tr)) (of_day wwd L)) with (b := alloc) as [_ Hmax]; [|exact (lp_alloc _ _ _ _ _ _ _ _ _ P)|].
    { apply Forall_forall. intros tr _. unfold load_of, gratis_load, wmul. apply Z.div_pos; [apply Z.mod_pos_bound; lia|done]. }
    intros tr Htr. pose proof (proj1 (Forall_forall _ _) Hmax tr Htr) as Hx. fold X0 in Hx. replace (remaining_gratis r) with (alloc - loads fr X) by lia. rewrite Hload. exact Hx.
  - intros tr. rewrite but_all_spec, Ef. split; intros [Htr Hno]; (split; [done|]); intros Hin; destruct Hno; [by apply list_elem_of_fmap_2|].
    apply list_elem_of_fmap in Hin as (y & Ey & Hy). enough (y = tr) as <- by done.
    assert (HyL : y ∈ L) by (eapply elem_of_submseteq; [exact Hy|]; eapply sublist_submseteq; etransitivity; [exact Hsub|apply sublist_filter]).
    pose proof (get_some _ _ _ _ _ Rt HyL) as G1. rewrite <- Ey, (get_some _ _ _ _ _ Rt Htr) in G1. congruence.
  - unfold items_of. rewrite I1, <- list_fmap_compose. apply Forall2_fmap_r, Forall_Forall2_diag, Forall_forall. intros tr Htr. split_and!; try done.
    apply (proj1 (Forall_forall _ _) I2 (fi_of (lw_fidelity w) tr)). rewrite I1. by apply list_elem_of_fmap_2.
Qed.

(** ** One fidelity class *)

Lemma one_group k a amounts : fi_groups (a :: amounts) (k :: ((fun _ => k) <$> amounts)) = [(k, a :: amounts)].
Proof.
  unfold fi_groups. cbn [combine foldl group_push].
  enough (forall pre, foldl (fun g '(fi, amount) => group_push fi amount g) [(k, pre)] (combine ((fun _ => k) <$> amounts) amounts) = [(k, pre ++ amounts)]) as E.
  { apply (E [a]). }
  induction amounts as [|b l IH]; intros pre; [by rewrite app_nil_r|]. cbn [fmap list_fmap combine foldl group_push].
  rewrite Z.ltb_irrefl, Z.eqb_refl, IH, <- app_assoc. done.
Qed.

Lemma fmap_const {A B} (g : A -> B) k l : Forall (fun x => g x = k) l -> g <$> l = (fun _ => k) <$> l.
Proof. induction 1; cbn; congruence. Qed.

Lemma one_class_fractions (day : list TributeData) f k total alloc : day <> [] -> Forall (fun tr => get_fidelity_index f (tr_owner tr) = k) day ->
  compute_fi_fraction_map (nominal_amount_minor <$> day) ((fun t => get_fidelity_index f (tr_owner t)) <$> day) total alloc = Ok [(k, wmul 256 alloc SCALE / total)].
Proof.
  intros Hne Hk. destruct day as [|a day]; [done|]. rewrite (fmap_const _ k _ Hk). unfold compute_fi_fraction_map.
  cbn [fmap list_fmap]. replace ((fun _ : TributeData => k) <$> day) with ((fun _ : Z => k) <$> (nominal_amount_minor <$> day)) by (by rewrite <- list_fmap_compose).
  rewrite one_group. done.
Qed.

Lemma one_class_load k f tr : gratis_load [(k, f)] tr k = wmul 256 (nominal_amount_minor tr) f / SCALE.
Proof. unfold gratis_load. cbn [fraction_of]. by rewrite Z.eqb_refl. Qed.

(** The shares of one class are covered by the allocation. *)
Lemma one_class_covered (l : list TributeData) k f total alloc : Forall (fun tr => 0 <= nominal_amount_minor tr) l -> 0 <= alloc < 2 ^ 128 -> 0 < total < 2 ^ 128 ->
  lsum (nominal_amount_minor <$> l) <= total -> f = alloc * SCALE / total ->
  lsum ((fun tr => gratis_load [(k, f)] tr k) <$> l) * total <= alloc * lsum (nominal_amount_minor <$> l).
Proof.
  intros Hn Ha Ht Hs ->. assert (Hf : 0 <= alloc * SCALE / total /\ alloc * SCALE / total * total <= alloc * SCALE).
  { split; [apply Z.div_pos; unfold SCALE; lia|]. rewrite Z.mul_comm. apply Z.mul_div_le. lia. }
  set (g := alloc * SCALE / total) in *.
  induction Hn as [|tr l Htr Hn IH]; [cbn; lia|]. cbn [fmap list_fmap lsum foldr] in *. fold (lsum (nominal_amount_minor <$> l)) in *.
  assert (0 <= lsum (nominal_amount_minor <$> l)) by (by apply lsum_nonneg, Forall_fmap). specialize (IH ltac:(lia)).
  fold (lsum ((fun tr => gratis_load [(k, g)] tr k) <$> l)). rewrite one_class_load.
  assert (nominal_amount_minor tr * g <= alloc * SCALE) by nia. rewrite wmul_small by (unfold SCALE in *; split; [nia|lia]).
  pose proof (Z.mul_div_le (nominal_amount_minor tr * g) SCALE eq_refl) as Hd. unfold SCALE in *. nia.
Qed.

Lemma one_class_loads (w : LysisWorld) (day : list TributeData) k fr total alloc : Forall (fun tr => 0 <= nominal_amount_minor tr) day ->
  Forall (fun tr => get_fidelity_index (lw_fidelity w) (tr_owner tr) = k) day -> 0 <= alloc < 2 ^ 128 -> 0 < total < 2 ^ 128 ->
  lsum (nominal_amount_minor <$> day) = total -> fr = [(k, alloc * SCALE / total)] ->
  loads fr (fi_of (lw_fidelity w) <$> day) <= alloc.
Proof.
  intros Hn Hk Ha Ht Hs ->. unfold loads. rewrite <- list_fmap_compose.
  replace ((load_of [(k, alloc * SCALE / total)] ∘ fi_of (lw_fidelity w)) <$> day) with ((fun tr => gratis_load [(k, alloc * SCALE / total)] tr k) <$> day).
  - pose proof (one_class_covered day k _ total alloc Hn Ha Ht ltac:(lia) eq_refl) as Hc. rewrite Hs in Hc. nia.
  - clear Hn Hs. induction Hk as [|tr l Htr Hk IH]; [done|]. cbn. rewrite IH. f_equal. unfold load_of. cbn. by rewrite Htr.
Qed.

(** Loads and the pro-rata shares agree. *)
Lemma one_class_share f tr k total alloc : get_fidelity_index f (tr_owner tr) = k -> 0 <= alloc < 2 ^ 128 -> 0 <= nominal_amount_minor tr <= total -> total < 2 ^ 128 ->
  load_of [(k, alloc * SCALE / total)] (fi_of f tr) = nominal_amount_minor tr * (alloc * SCALE / total) / SCALE.
Proof.
  intros Htr Ha Hle Ht. unfold load_of, fi_of. cbn [fst snd]. rewrite Htr, one_class_load, wmul_small; [done|].
  destruct (decide (total = 0)) as [->|Hz]; [rewrite Z.div_0_r; lia|]. pose proof (Z.mul_div_le (alloc * SCALE) total ltac:(lia)).
  assert (0 <= alloc * SCALE / total) by (apply Z.div_pos; unfold SCALE; lia). unfold SCALE in *. split; nia.
Qed.

Lemma one_class_paid f fr (share : TributeData -> Z) (day : list TributeData) : Forall (fun tr => load_of fr (fi_of f tr) = share tr) day ->
  paid fr (fi_of f <$> day) = fi_of f <$> filter (fun tr => 0 < share tr) day.
Proof.
  intros Hs. unfold paid. induction Hs as [|tr l Htr Hs IH]; [done|]. cbn [fmap list_fmap]. rewrite !filter_cons, IH, Htr. by case_decide.
Qed.

Lemma one_class_items f fr now wwd e (share : TributeData -> Z) (l : list TributeData) : Forall (fun tr => load_of fr (fi_of f tr) = share tr) l ->
  loads fr (fi_of f <$> l) = lsum (share <$> l) /\
  gratis_load_minor <$> items_of now wwd e fr (fi_of f <$> l) = share <$> l /\ owner <$> items_of now wwd e fr (fi_of f <$> l) = tr_owner <$> l.
Proof.
  unfold loads, items_of. induction 1 as [|tr l Htr Hs (IH1 & IH2 & IH3)]; [done|]. cbn [fmap list_fmap lsum foldr].
  change (gratis_load_minor (issued_item now (params_of wwd e fr (fi_of f tr)))) with (load_of fr (fi_of f tr)).
  change (owner (issued_item now (params_of wwd e fr (fi_of f tr)))) with (tr_owner tr).
  rewrite Htr. unfold lsum in IH1. split_and!; [lia|f_equal; exact IH2|f_equal; exact IH3].
Qed.

Lemma one_class_start w now wwd alloc L D O N e k : lysis_pre w now wwd alloc L D O N e ->
  let day := of_day wwd L in let total := lsum (nominal_amount_minor <$> day) in
  Forall (fun tr => get_fidelity_index (lw_fidelity w) (tr_owner tr) = k) day -> alloc < 2 ^ 128 -> 0 < total < 2 ^ 128 ->
  let fr := [(k, alloc * SCALE / total)] in
  lysis w now wwd alloc = finish_lysis w wwd day (runM (issue_one now wwd e fr) (mkIssuing (lw_nod w) [] [] alloc) (fi_of (lw_fidelity w) <$> day)) /\
  loads fr (fi_of (lw_fidelity w) <$> day) <= alloc /\
  Forall (fun tr => load_of fr (fi_of (lw_fidelity w) tr) = nominal_amount_minor tr * (alloc * SCALE / total) / SCALE) day.
Proof.
  intros P day total Hk Ha Ht fr. pose proof P as [Rt [B Hs] Hd Hnow Ha0 He Hr Hf Hroom].
  assert (Hne : day <> []) by (intros E; unfold total in Ht; rewrite E in Ht; cbn in Ht; lia).
  pose proof (day_nominal _ _ _ _ _ _ _ _ _ P) as Hnn. fold day in Hnn.
  assert (Etot : foldl (wadd 256) 0 (nominal_amount_minor <$> day) = total) by (rewrite foldl_wadd; [done|lia|by apply Forall_fmap|lia]).
  split_and!; [|by eapply one_class_loads|].
  - unfold lysis. rewrite (day_tributes_spec _ _ _ _ _ Rt Hd). fold day. rewrite bool_decide_eq_false_2 by done. cbv zeta. rewrite Etot.
    rewrite (proj2 (Z.eqb_neq total 0)) by lia. rewrite (one_class_fractions day _ k _ _ Hne Hk), wmul_small by (unfold SCALE; lia). by rewrite He, combine_fi.
  - apply Forall_forall. intros tr Htr. apply one_class_share; [by apply (proj1 (Forall_forall _ _) Hk)|lia| |lia].
    split; [by apply (proj1 (Forall_forall _ _) Hnn)|]. apply elem_le_lsum; [by apply Forall_fmap|by apply list_elem_of_fmap_2].
Qed.

Lemma loads_pos fr X y : Forall (fun x => 0 < load_of fr x) X -> y ∈ X -> 0 < loads fr X.
Proof.
  intros HX Hy. unfold loads. apply Z.lt_le_trans with (load_of fr y); [by apply (proj1 (Forall_forall _ _) HX)|].
  apply elem_le_lsum; [|by apply list_elem_of_fmap_2]. apply Forall_fmap. eapply Forall_impl; [exact HX|]. cbn. lia.
Qed.

Lemma Forall_sublist {A} (P : A -> Prop) (l l' : list A) : Forall P l -> l' `sublist_of` l -> Forall P l'.
Proof. intros HP Hs. apply Forall_forall. intros x Hx. apply (proj1 (Forall_forall _ _) HP). by eapply elem_of_submseteq, sublist_submseteq. Qed.

(** A Nod that is there already although none was before the run is of the run. *)
Lemma second_nod now wwd e fr N X x : generate_nod_id (tr_owner x.1) wwd ∈ nod_id <$> (N ++ items_of now wwd e fr X) -> Forall (ready wwd e) X -> ready wwd e x ->
  generate_nod_id (tr_owner x.1) wwd ∉ nod_id <$> N -> exists y, y ∈ X /\ tr_owner y.1 = tr_owner x.1.
Proof.
  intros Hin HX Hx Hout. rewrite fmap_app, elem_of_app in Hin. destruct Hin as [?|Hin]; [done|].
  apply list_elem_of_fmap in Hin as (i & Ei & Hi). apply list_elem_of_fmap in Hi as (y & -> & Hy). exists y. split; [done|].
  rewrite issued_id in Ei. symmetry in Ei. apply nod_id_inj in Ei; [done|apply (rd_owner _ _ _ (proj1 (Forall_forall _ _) HX y Hy))|apply (rd_owner _ _ _ Hx)].
Qed.

Lemma one_class_outcome w now wwd alloc L D O N e k :
  lysis_pre w now wwd alloc L D O N e ->
  let day := of_day wwd L in
  let total := lsum (nominal_amount_minor <$> day) in
  let share tr := nominal_amount_minor tr * (alloc * SCALE / total) / SCALE in
  let paid := filter (fun tr => 0 < share tr) day in
  Forall (fun tr => get_fidelity_index (lw_fidelity w) (tr_owner tr) = k) day -> alloc < 2 ^ 128 -> 0 < total < 2 ^ 128 ->
  exists w' N' B r, lysis w now wwd alloc = (w', r) /\ stored (nw_nod (lw_nod w')) (N ++ N') B /\
    if decide (NoDup (tr_owner <$> paid)) then
      (exists ids, r = Ok (mkLysisResult ids (token_id <$> day) (alloc - lsum (share <$> paid)))) /\
      (gratis_load_minor <$> N' = share <$> paid /\ owner <$> N' = tr_owner <$> paid) /\
      exists D', tribute_rep (lw_tribute w') (but_all (token_id <$> paid) L) D' O
    else r = Err (Revert "nod already exists") /\ lw_tribute w' = lw_tribute w /\ gratis_in N < gratis_in (N ++ N').
Proof.
  intros P day total share pd Hk Ha Ht. pose proof P as [Rt [B Hs] Hd Hnow Ha0 He Hr Hf Hroom].
  destruct (one_class_start _ _ _ _ _ _ _ _ _ k P Hk Ha Ht) as (-> & Hload & Hsh). fold day total in Hload, Hsh |- *. set (fr := [(k, alloc * SCALE / total)]) in *.
  change (Forall (fun tr => load_of fr (fi_of (lw_fidelity w) tr) = share tr) day) in Hsh. pose proof (one_class_paid _ _ _ _ Hsh) as Epaid. fold pd in Epaid.
  destruct (issue_outcome now wwd e fr Hnow (fi_of (lw_fidelity w) <$> day) (mkIssuing (lw_nod w) [] [] alloc) N B) as (st & r & X & B' & E & S' & HP);
    [done|done|done|by rewrite length_fmap|]. fold day. rewrite E. unfold finish_lysis. rewrite Epaid in HP. destruct r as [u|er].
  - destruct HP as (-> & HP1 & HP2 & HP3 & HP4). rewrite fi_of_fst in HP1, HP3. cbn [st_done app st_left] in HP1, HP2.
    assert (Hsub : fi_of (lw_fidelity w) <$> pd `sublist_of` fi_of (lw_fidelity w) <$> of_day wwd L) by apply fmap_sublist, sublist_filter.
    destruct (lysis_burns _ _ _ _ _ _ _ Rt Hd Hsub) as (t1 & D' & Eb & Rb). rewrite fi_of_fst in Eb, Rb. rewrite HP1, Eb.
    destruct (one_class_items (lw_fidelity w) fr now wwd e share pd) as (I1 & I2 & I3); [eapply Forall_sublist; [exact Hsh|apply sublist_filter]|].
    do 4 eexists. split; [done|]. split; [exact S'|]. rewrite decide_True by done. split; [|split; [done|by exists D']].
    eexists. rewrite HP2, I1. done.
  - destruct HP as (-> & x & Y & Hp & Hin). do 4 eexists. split; [done|]. split; [exact S'|].
    rewrite gratis_in_app, gratis_of_items. assert (HX : X `sublist_of` fi_of (lw_fidelity w) <$> pd) by (rewrite Hp; by apply sublist_inserts_r).
    assert (Hpos : Forall (fun x => 0 < load_of fr x) X).
    { apply Forall_forall. intros y Hy. assert (Hy' : y ∈ paid fr (fi_of (lw_fidelity w) <$> day)) by (rewrite Epaid; eapply elem_of_submseteq, sublist_submseteq; done).
      by apply list_elem_of_filter in Hy' as [? _]. }
    assert (Hxp : x ∈ fi_of (lw_fidelity w) <$> day).
    { eapply elem_of_submseteq; [|apply sublist_submseteq, fmap_sublist, (sublist_filter (fun tr => 0 < share tr))]. fold pd. rewrite Hp, elem_of_app. right. by left. }
    destruct (second_nod now wwd e fr N X x) as (y & Hy & Ey); [done|..].
    { eapply Forall_sublist; [exact Hr|]. etransitivity; [exact HX|apply fmap_sublist, sublist_filter]. } { by apply (proj1 (Forall_forall _ _) Hr). }
    { apply list_elem_of_fmap in Hxp as (tr & -> & Htr). by apply (proj1 (Forall_forall _ _) Hf). }
    rewrite decide_False; [split_and!; [done|done|pose proof (loads_pos fr X y Hpos Hy); lia]|].
    rewrite <- (fi_of_fst (lw_fidelity w) pd), Hp, !fmap_app. intros Hnd. apply NoDup_app in Hnd as (_ & Hnd & _).
    apply (Hnd (tr_owner y.1)); [by apply list_elem_of_fmap_2, list_elem_of_fmap_2|]. rewrite Ey. by left.
Qed.

(** Where all owners of a day are of one fidelity class, the run is exactly
    this. If the tributes with a positive share have pairwise different owners,
    each of them gets a Nod with its pro-rata share of the allocation, rounded
    down, and is burned, and the rest of the allocation is returned. If two of them
    belong to one owner, which nothing prevents since tribute ids also depend on the
    draft, the run ends in the error of that owner's second Nod: no tribute is
    burned, and the Nods issued up to there, at least one of them, stay. *)
Theorem one_class_lysis_exact w now wwd alloc L D O N e k :
  lysis_pre w now wwd alloc L D O N e ->
  let day := of_day wwd L in
  let total := lsum (nominal_amount_minor <$> day) in
  let share tr := nominal_amount_minor tr * (alloc * SCALE / total) / SCALE in
  let paid := filter (fun tr => 0 < share tr) day in
  Forall (fun tr => get_fidelity_index (lw_fidelity w) (tr_owner tr) = k) day -> alloc < 2 ^ 128 -> 0 < total < 2 ^ 128 ->
  exists w' N' B r, lysis w now wwd alloc = (w', r) /\ stored (nw_nod (lw_nod w')) (N ++ N') B /\
    if decide (NoDup (tr_owner <$> paid)) then
      (exists ids, r = Ok (mkLysisResult ids (token_id <$> day) (alloc - lsum (share <$> paid)))) /\
      (gratis_load_minor <$> N' = share <$> paid /\ owner <$> N' = tr_owner <$> paid) /\
      exists D', tribute_rep (lw_tribute w') (but_all (token_id <$> paid) L) D' O
    else r = Err (Revert "nod already exists") /\ lw_tribute w' = lw_tribute w /\ gratis_in N < gratis_in (N ++ N').
Proof. apply one_class_outcome. Qed.
End Run.

(** ** The fixed-point root *)

Lemma bounded_pow_spec n mid target pow : 1 <= mid -> 1 <= pow -> pow < 2 ^ 256 -> 0 <= target < 2 ^ 255 ->
  match bounded_pow n mid target pow with
  | Some p => p = pow * mid ^ Z.of_nat n
  | None => target < pow * mid ^ Z.of_nat n
  end.
Proof.
  intros Hm. revert pow. induction n as [|n IH]; intros pow Hp Hp2 Ht; [cbn; lia|]. cbn [bounded_pow]. cbv zeta.
  rewrite Nat2Z.inj_succ, Z.pow_succ_r, Z.mul_assoc by lia. assert (1 <= mid ^ Z.of_nat n) by (pose proof (Z.pow_pos_nonneg mid (Z.of_nat n)); lia).
  rewrite (wmul_small 256 target 2) by lia. destruct (2 ^ 256 <=? pow * mid) eqn:E1; bools; cbn [orb].
  - assert (2 ^ 256 <= pow * mid * mid ^ Z.of_nat n) by nia. lia.
  - rewrite (wmul_small 256 pow mid) by nia. destruct (target * 2 <? pow * mid) eqn:E2; bools.
    + assert (pow * mid <= pow * mid * mid ^ Z.of_nat n) by nia. lia.
    + apply IH; [nia|lia|done].
Qed.

Definition is_root (q : nat) (target y : Z) : Prop := y ^ Z.of_nat q <= target < (y + 1) ^ Z.of_nat q.

Lemma root_search_spec q target fuel : (1 <= q)%nat -> 0 <= target < 2 ^ 255 -> forall lo hi, 1 <= lo <= hi -> hi < 2 ^ 255 -> hi - lo < 2 ^ Z.of_nat fuel ->
  lo ^ Z.of_nat q <= target < (hi + 1) ^ Z.of_nat q -> is_root q target (root_search fuel q target lo hi).
Proof.
  intros Hq Ht. induction fuel as [|fuel IH]; intros lo hi Hlo Hhi Hf Hinv; cbn [root_search].
  { cbn in Hf. replace hi with lo in Hinv by lia. exact Hinv. }
  destruct (lo <? hi) eqn:E; bools; [|by replace hi with lo in Hinv by lia].
  rewrite Nat2Z.inj_succ, Z.pow_succ_r in Hf by lia. pose proof (Z.div_mod (hi - lo + 1) 2 ltac:(lia)) as Hd. pose proof (Z.mod_pos_bound (hi - lo + 1) 2 ltac:(lia)).
  rewrite (wadd_small 256 (hi - lo) 1), (wadd_small 256 lo) by lia. set (mid := lo + (hi - lo + 1) / 2) in *. cbv zeta.
  pose proof (bounded_pow_spec (q - 1) mid target mid ltac:(lia) ltac:(lia) ltac:(lia) Ht) as Hb.
  replace (mid * mid ^ Z.of_nat (q - 1)) with (mid ^ Z.of_nat q) in Hb by (rewrite <- Z.pow_succ_r by lia; f_equal; lia).
  destruct (bounded_pow _ _ _ _) as [p|].
  - subst p. destruct (target <? mid ^ Z.of_nat q) eqn:E2; bools; apply IH; try lia; replace (mid - 1 + 1) with mid by lia; lia.
  - apply IH; try lia. replace (mid - 1 + 1) with mid by lia. lia.
Qed.

Lemma scaled_target q x : 0 < x -> x * SCALE ^ Z.of_nat q < 2 ^ 256 -> Nat.iter q (fun t => wmul 256 t SCALE) x = x * SCALE ^ Z.of_nat q.
Proof.
  intros Hx. induction q as [|q IH]; intros Hb; [cbn; lia|]. rewrite Nat2Z.inj_succ, Z.pow_succ_r in * by lia.
  assert (0 < SCALE ^ Z.of_nat q) as Hp by (apply Z.pow_pos_nonneg; unfold SCALE; lia). assert (1 < SCALE) as Hs by done.
  change (wmul 256 (Nat.iter q (fun t => wmul 256 t SCALE) x) SCALE = x * (SCALE * SCALE ^ Z.of_nat q)).
  generalize dependent (SCALE ^ Z.of_nat q). intros P IH Hb Hp. rewrite IH by nia. rewrite wmul_small; nia.
Qed.

(** The root of the policy weights is the integer part of the [q]-th root of
    [x * SCALE^q] only while [x * SCALE^(q-1)] stays below [2^255], which for the
    fifth root means [x < 6 * 10^-14]. For the arguments the weights take, which are
    at least one half, the product wraps: the fifth root of 1.5 comes out as about
    0.002 instead of 1.084, that of 2.5 comes out smaller still, and the tenth
    roots that divide them differ by ten orders of magnitude between groups of one
    and of two tributes. *)
Theorem fp_root_wraps :
  (forall x q, 0 < x -> x <> SCALE -> (1 <= q)%nat -> x * SCALE ^ Z.of_nat (q - 1) < 2 ^ 255 -> is_root q (x * SCALE ^ Z.of_nat (q - 1)) (fp_root x q)) /\
  fp_root (3 * SCALE / 2) 5 = 2077078257970026 /\ is_root 5 (3 * SCALE / 2 * SCALE ^ 4) 1084471771197698613 /\
  fp_root (5 * SCALE / 2) 5 < fp_root (3 * SCALE / 2) 5 /\
  fp_root SCALE 10 = SCALE /\ fp_root (2 * SCALE) 10 = 40174589.
Proof.
  split; [|vm_compute; repeat split; (reflexivity || discriminate)]. intros x q Hx Hne Hq Hb. unfold fp_root.
  rewrite (proj2 (Z.eqb_neq x 0)), (proj2 (Z.eqb_neq x SCALE)) by lia. cbv zeta. rewrite scaled_target by lia.
  assert (1 <= SCALE ^ Z.of_nat (q - 1)) by (pose proof (Z.pow_pos_nonneg SCALE (Z.of_nat (q - 1))); unfold SCALE in *; lia).
  apply root_search_spec; try done; [nia|unfold SCALE in *; nia|unfold SCALE in *; nia| |].
  - unfold root_fuel. assert (x < 2 ^ 255) by nia. unfold SCALE. change (2 ^ Z.of_nat 257) with (2 * 2 ^ 256). lia.
  - rewrite Z.pow_1_l by lia. split; [nia|]. replace q with (S (q - 1)) at 2 by lia. rewrite Nat2Z.inj_succ, Z.pow_succ_r by lia.
    assert (SCALE ^ Z.of_nat (q - 1) <= (Z.max x SCALE + 1) ^ Z.of_nat (q - 1)) by (apply Z.pow_le_mono_l; unfold SCALE in *; lia). nia.
Qed.

(** ** A sample day *)

#[local] Existing Instance sample_crypto.
#[local] Existing Instance sample_keccak.

Definition sample_oracle : PriceOracle := {|
  get_pair_id _ := Ok 1;
  get_worldwide_day_vwap_for_pair_id _ _ := Ok (Some 5);
  get_max_active_scurve_value _ _ := Ok 2
|}.
#[local] Existing Instance sample_oracle.

(** Two tributes of the day, of owner 3 and of owner [o]. *)
Definition sample_day (o : Address) : list TributeData := [sample_tribute 9 3; sample_tribute 10 o].

Lemma sample_tributes o : is_address o -> o <> 0 -> exists t D O, tribute_rep t (sample_day o) D O.
Proof.
  intros Ho Hz. destruct (set_sealed_rep _ _ _ _ 20250110 false empty_tributes_rep) as (t & _ & R & Hop).
  assert (H1 : is_open t 20250110 = true) by (rewrite Hop; by rewrite decide_True).
  destruct (issue_rep _ _ _ _ _ R sample_fresh H1) as (t1 & _ & R1 & Hop1).
  assert (F : fresh [sample_tribute 9 3] (snoc_at 20250110 9 no_ids) (snoc_at 3 9 no_ids) (sample_tribute 10 o)).
  { assert (Hne : forall k d, 10 ∉ snoc_at k 9 no_ids d).
    { intros k d. unfold snoc_at. case_decide; [|apply not_elem_of_nil]. intros Hin. by apply list_elem_of_singleton in Hin. }
    split; [by split|done|intros Hin; by apply list_elem_of_singleton in Hin|apply Hne|apply Hne|..]; try done.
    unfold snoc_at. by case_decide. }
  destruct (issue_rep _ _ _ _ _ R1 F) as (t2 & _ & R2 & _); [by rewrite Hop1|]. eauto.
Qed.

Definition sample_lysis (t : TributeContract) : LysisWorld := mkLysisWorld t sample_empty ∅.

Lemma sample_pre t o D O a : is_address o -> o <> 0 -> 0 <= a < 2 ^ 128 -> tribute_rep t (sample_day o) D O ->
  lysis_pre (sample_lysis t) 1000 20250110 a (sample_day o) D O [] 5.
Proof.
  intros Ho Hz Ha R. split; try done; try lia.
  - destruct (run_stored sample_call sample_call_shrinks 0 sample_empty ltac:(constructor) eq_refl) as (L & B & Hs & Hl). destruct L; [by exists B|cbn in Hl; lia].
  - repeat constructor; try done; cbn; try lia; apply Ho.
  - repeat constructor; apply not_elem_of_nil.
Qed.

Lemma lysis_conserves_witness :
  exists t w' r N' B, lysis (sample_lysis t) 1000 20250110 10 = (w', Ok r) /\ stored (nw_nod (lw_nod w')) N' B /\ gratis_in N' + remaining_gratis r = 10.
Proof.
  destruct (sample_tributes 4) as (t & D & O & R); [unfold is_address; lia|lia|]. exists t.
  destruct (lysis_conserves (sample_lysis t) 1000 20250110 10 (sample_day 4) D O [] 5) as (fr & w' & r & N' & L' & _ & E & (B & Hs) & _ & _ & Eg & _).
  - apply sample_pre; [unfold is_address; lia|lia|lia|exact R].
  - reflexivity.
  - vm_compute. reflexivity.
  - cbn. apply NoDup_cons. split; [intros Hin; by apply list_elem_of_singleton in Hin|apply NoDup_singleton].
  - exists w', r, N', B. split; [exact E|]. split; [exact Hs|]. cbn [app] in Eg. unfold gratis_in in Eg at 2. cbn in Eg. lia.
Defined.

Lemma one_class_lysis_exact_witness :
  exists t w' N' B, lysis (sample_lysis t) 1000 20250110 10 = (w', Err (Revert "nod already exists")) /\ lw_tribute w' = t /\
    stored (nw_nod (lw_nod w')) N' B /\ 0 < gratis_in N'.
Proof.
  destruct (sample_tributes 3) as (t & D & O & R); [unfold is_address; lia|lia|]. exists t.
  destruct (one_class_lysis_exact (sample_lysis t) 1000 20250110 10 (sample_day 3) D O [] 5 1) as (w' & N' & B & r & E & Hs & HP).
  - apply sample_pre; [unfold is_address; lia|lia|lia|exact R].
  - repeat constructor.
  - lia.
  - split; vm_compute; reflexivity.
  - rewrite decide_False in HP; [|cbn; intros Hn; apply NoDup_cons in Hn as [Hn _]; apply Hn; left]. destruct HP as (-> & Et & Hg).
    exists w', N', B. split; [exact E|]. split; [exact Et|]. split; [exact Hs|]. cbn [app] in Hg. exact Hg.
Defined.
