(* ===== verification/Metadosis.v ===== *)
(** * Metadosis: the life of a worldwide day

    [crates/core/metadosis]: worldwide days with their timetable, the limits the
    daily emission leaves for them, and the daily run that creates the day, moves
    every day along its timetable, opens and seals its tributes and, when a day is
    ready, splits its limit between lysis, the auction and the unallocated Promis
    limit. Lysis and the tribute store are the ones of their files; the oracle's
    snapshots and the auction of [crates/core/desis] are the operations of a class. *)

From stdpp Require Import strings.
From S2P Require Import Prelude Time Storage Tokens Nod NodStore Tribute Lysis.

(** ** [constants.rs] *)

Definition FORMING_PERIOD_HOURS : u64 := 50.
Definition DEFAULT_LOOKBACK_DELAY_HOURS : u64 := 502.
Definition DEFAULT_OFFERING_PERIOD_HOURS : u64 := 50.
Definition WAITING_PERIOD_HOURS : u64 := 12.
Definition SYMBOLIC_RATE : u64 := 32.
Definition RED_DAY_REDUCTION_COEF : u64 := 8.
Definition BOOTSTRAP_DURATION_HOURS : u64 := 504.
Definition BOOTSTRAP_LOOKBACK_DELAY_HOURS : u64 := 0.
Definition BOOTSTRAP_OFFERING_PERIOD_HOURS : u64 := 48.
Definition MAX_DAY_LIMITS_KEPT : Z := 30.
Definition COMPLETED_WWD_RETENTION_DAYS : u64 := 30.
Definition SECONDS_PER_HOUR : u64 := 3600.

(** ** [schema.rs] *)

Module status.
Definition FORMING : Z := 0.
Definition LOOKBACK_DELAY : Z := 1.
Definition OFFERING : Z := 2.
Definition WAITING : Z := 3.
Definition READY : Z := 4.
Definition IN_PROGRESS : Z := 5.
Definition COMPLETED : Z := 6.
Definition FAILED : Z := 7.
End status.

Module day_type.
Definition UNKNOWN : Z := 0.
Definition GREEN : Z := 1.
Definition RED : Z := 2.
End day_type.

Record WorldwideDay := mkDay {
  wwd : u32;
  wwd_status : Z;
  wwd_type : Z;
  forming_start : u64;
  forming_end : u64;
  lookback_end : u64;
  offering_end : u64;
  scheduled_process_time : u64;
  previous_vwap : U256;
  current_vwap : U256
}.
#[global] Instance zeroed_day : Zeroed WorldwideDay := mkDay 0 0 0 0 0 0 0 0 0 0.
#[global] Instance day_record : StorageRecord Z WorldwideDay :=
  {| rec_key := wwd; rec_exists v := negb (forming_start v =? 0); rec_name := "WorldwideDay" |}.

Record MetadosisContract := mkMetadosis {
  bootstrap_end_time : u64;
  worldwide_days : gmap u32 WorldwideDay;
  day_limit_amount : gmap u32 U256;
  day_limit_used : gmap u32 bool;
  active_wwds : SVec u32;
  config_oracle_pair_hash : B256;
  day_limit_exists : gmap u32 bool;
  day_limit_dates : SVec u32
}.

Definition set_worldwide_days (c : MetadosisContract) (v : gmap u32 WorldwideDay) : MetadosisContract := {| c with worldwide_days := v |}.
Definition set_active_wwds (c : MetadosisContract) (v : SVec u32) : MetadosisContract := {| c with active_wwds := v |}.
Definition set_day_limit_dates (c : MetadosisContract) (v : SVec u32) : MetadosisContract := {| c with day_limit_dates := v |}.
Definition wr_day_limit_amount (c : MetadosisContract) (d : u32) (v : U256) : MetadosisContract := {| c with day_limit_amount := <[d := v]> (day_limit_amount c) |}.
Definition wr_day_limit_used (c : MetadosisContract) (d : u32) (v : bool) : MetadosisContract := {| c with day_limit_used := <[d := v]> (day_limit_used c) |}.
Definition wr_day_limit_exists (c : MetadosisContract) (d : u32) (v : bool) : MetadosisContract := {| c with day_limit_exists := <[d := v]> (day_limit_exists c) |}.
Definition set_bootstrap_end_time (c : MetadosisContract) (v : u64) : MetadosisContract := {| c with bootstrap_end_time := v |}.

(** ** [state.rs] *)

(** The fields of an entry, whether the record exists or not. *)
Definition entry (c : MetadosisContract) (d : u32) : WorldwideDay := rd (worldwide_days c) d.
Definition wr_entry (c : MetadosisContract) (d : u32) (v : WorldwideDay) : MetadosisContract := set_worldwide_days c (<[d := v]> (worldwide_days c)).

Definition get_status (c : MetadosisContract) (d : u32) : Z := wwd_status (entry c d).
Definition set_status (c : MetadosisContract) (d : u32) (s : Z) : MetadosisContract := wr_entry c d (let e := entry c d in {| e with wwd_status := s |}).
Definition get_day_type (c : MetadosisContract) (d : u32) : Z := wwd_type (entry c d).
Definition set_day_type (c : MetadosisContract) (d : u32) (t : Z) : MetadosisContract := wr_entry c d (let e := entry c d in {| e with wwd_type := t |}).

Definition create_worldwide_day (c : MetadosisContract) (d : u32) (start lookback_delay_hours offering_period_hours : u64) : res MetadosisContract :=
  let forming_end := wadd 64 start (wmul 64 FORMING_PERIOD_HOURS SECONDS_PER_HOUR) in
  let lookback_end := wadd 64 forming_end (wmul 64 lookback_delay_hours SECONDS_PER_HOUR) in
  let offering_end := wadd 64 lookback_end (wmul 64 offering_period_hours SECONDS_PER_HOUR) in
  let scheduled := wadd 64 offering_end (wmul 64 WAITING_PERIOD_HOURS SECONDS_PER_HOUR) in
  let? m := rcreate (worldwide_days c) (mkDay d status.FORMING day_type.UNKNOWN start forming_end lookback_end offering_end scheduled 0 0) in
  Ok (set_worldwide_days c m).

Definition delete_worldwide_day (c : MetadosisContract) (d : u32) : MetadosisContract :=
  set_worldwide_days c (rdelete (worldwide_days c) d).

(** The status the timetable of an entry gives at a time. *)
Definition timetable (e : WorldwideDay) (block_time : u64) : Z :=
  if block_time <? forming_end e then status.FORMING
  else if block_time <? lookback_end e then status.LOOKBACK_DELAY
  else if block_time <? offering_end e then status.OFFERING
  else if block_time <? scheduled_process_time e then status.WAITING
  else status.READY.

Definition update_wwd_status (c : MetadosisContract) (d : u32) (block_time : u64) : MetadosisContract * Z :=
  let current_status := get_status c d in
  if (current_status =? status.COMPLETED) || (current_status =? status.FAILED) then (c, current_status) else
  let new_status := timetable (entry c d) block_time in
  (if negb (new_status =? current_status) then set_status c d new_status else c, new_status).

Definition set_vwap (c : MetadosisContract) (d : u32) (vwap : U256) : res MetadosisContract :=
  ensure negb (vwap =? 0) else Revert "VWAP must be non-zero" in
  Ok (wr_entry c d (let e := entry c d in {| e with current_vwap := vwap |})).

Definition mark_completed (c : MetadosisContract) (d : u32) : res MetadosisContract :=
  ensure get_status c d =? status.READY else Revert "cannot mark WWD as COMPLETED (requires READY)" in
  Ok (set_status c d status.COMPLETED).

Definition mark_failed (c : MetadosisContract) (d : u32) : res MetadosisContract :=
  ensure negb (get_status c d =? status.COMPLETED) else Revert "cannot mark WWD as FAILED: day is already COMPLETED" in
  Ok (set_status c d status.FAILED).

(** A list of dates kept as a length and entries; a removal puts the last entry in the gap. *)
Fixpoint find_date (n : nat) (v : SVec u32) (d : u32) (i : u32) : option u32 :=
  match n with
  | O => None
  | S n => if rd (vdata v) i =? d then Some i else find_date n v d (i + 1)
  end.

Definition remove_date (v : SVec u32) (d : u32) : SVec u32 :=
  let count := vlen v in
  match find_date (Z.to_nat count) v d 0 with
  | Some idx =>
      let last := count - 1 in
      let data := if negb (idx =? last) then <[idx := rd (vdata v) last]> (vdata v) else vdata v in
      mkVec last (<[last := 0]> data)
  | None => v
  end.

Definition get_day_limit (c : MetadosisContract) (d : u32) : U256 := rd (day_limit_amount c) d.
Definition has_day_limit (c : MetadosisContract) (d : u32) : bool := rd (day_limit_exists c) d.
Definition is_day_limit_used (c : MetadosisContract) (d : u32) : bool := rd (day_limit_used c) d.
Definition mark_day_limit_used (c : MetadosisContract) (d : u32) : MetadosisContract := wr_day_limit_used c d true.

Definition get_all_day_limit_dates (c : MetadosisContract) : list u32 := filter (fun d => d <> 0) (vec_read_all (day_limit_dates c)).

Definition add_day_limit_date (c : MetadosisContract) (d : u32) : MetadosisContract := set_day_limit_dates c (vec_push (day_limit_dates c) d).
Definition remove_day_limit_date (c : MetadosisContract) (d : u32) : MetadosisContract := set_day_limit_dates c (remove_date (day_limit_dates c) d).

Definition delete_day_limit (c : MetadosisContract) (d : u32) : MetadosisContract :=
  let c := wr_day_limit_amount c d 0 in
  let c := wr_day_limit_used c d false in
  let c := wr_day_limit_exists c d false in
  remove_day_limit_date c d.

Definition oldest (l : list u32) : option u32 :=
  match l with [] => None | x :: l => Some (foldl Z.min x l) end.

(** The loop of [cleanup_old_day_limits]; each round removes a date. *)
Fixpoint cleanup_loop (fuel : nat) (c : MetadosisContract) : MetadosisContract :=
  match fuel with
  | O => c
  | S fuel =>
      let dates := get_all_day_limit_dates c in
      if len dates <=? MAX_DAY_LIMITS_KEPT then c else
      match oldest dates with
      | Some d => cleanup_loop fuel (delete_day_limit c d)
      | None => c
      end
  end.
Definition cleanup_old_day_limits (c : MetadosisContract) : MetadosisContract := cleanup_loop (Z.to_nat (vlen (day_limit_dates c))) c.

Definition record_day_limit (c : MetadosisContract) (d : u32) (amount : U256) : MetadosisContract :=
  let c := if negb (has_day_limit c d) then add_day_limit_date c d else c in
  let c := wr_day_limit_amount c d (wadd 256 (get_day_limit c d) amount) in
  let c := wr_day_limit_exists c d true in
  cleanup_old_day_limits c.

Definition record_day_limit_at (c : MetadosisContract) (timestamp : u64) (amount : U256) : MetadosisContract :=
  record_day_limit c (timestamp_to_date_key timestamp) amount.

Definition add_active_wwd (c : MetadosisContract) (d : u32) : MetadosisContract := set_active_wwds c (vec_push (active_wwds c) d).
Definition remove_active_wwd (c : MetadosisContract) (d : u32) : MetadosisContract := set_active_wwds c (remove_date (active_wwds c) d).
Definition get_all_active_wwds (c : MetadosisContract) : list u32 := vec_read_all (active_wwds c).
Definition get_active_wwds_by_status (c : MetadosisContract) (wanted_status : Z) : list u32 :=
  filter (fun d => get_status c d = wanted_status) (get_all_active_wwds c).

(** ** [emission_sink.rs] *)

Definition apply_sink (c : MetadosisContract) (timestamp : u64) (amount : U256) : res (MetadosisContract * U256) :=
  Ok (record_day_limit_at c timestamp amount, 0).

(** ** [runtime.rs] *)

Definition DEVNET_CHAIN_ID : u64 := 424242.
Definition TESTNET_CHAIN_ID : u64 := 54322345.
Definition is_devnet (chain_id : u64) : bool := chain_id =? DEVNET_CHAIN_ID.
Definition is_testnet (chain_id : u64) : bool := chain_id =? TESTNET_CHAIN_ID.

Record BlockContext := mkBlock { bk_number : u64; bk_timestamp : u64; bk_chain_id : u64 }.

Record MetadosisCalculation := mkCalc {
  day_gratis_demand : U256;
  day_gratis_limit : U256;
  day_gratis_allocation : U256;
  day_metadosis_limit_remainder : U256
}.

Definition calculate_metadosis (c : MetadosisContract) (d : u32) (tribute_nominal_total day_metadosis_limit : U256) : res MetadosisCalculation :=
  let dtype := get_day_type c d in
  let demand := wmul 256 tribute_nominal_total SYMBOLIC_RATE / 100 in
  let? (demand, limit) :=
    if dtype =? day_type.GREEN then Ok (demand, day_metadosis_limit)
    else if dtype =? day_type.RED then Ok (demand / RED_DAY_REDUCTION_COEF, day_metadosis_limit / RED_DAY_REDUCTION_COEF)
    else Err (Revert "worldwide day type is UNKNOWN") in
  let allocation := if demand <? limit then demand else limit in
  Ok (mkCalc demand limit allocation (wsub 256 day_metadosis_limit allocation)).

Definition effective_hours (chain_id : u64) : u64 * u64 :=
  if is_devnet chain_id || is_testnet chain_id then (BOOTSTRAP_LOOKBACK_DELAY_HOURS, BOOTSTRAP_OFFERING_PERIOD_HOURS)
  else (DEFAULT_LOOKBACK_DELAY_HOURS, DEFAULT_OFFERING_PERIOD_HOURS).

Definition determine_day_type (previous_vwap current_vwap : U256) : Z :=
  if (previous_vwap =? 0) || (current_vwap =? 0) then day_type.RED
  else if current_vwap >? previous_vwap then day_type.GREEN else day_type.RED.

(** The oracle's snapshots and the auction. The auction's stages are best effort:
    they answer whether they were taken and never fail. *)
Class DayServices (X : Type) := {
  prices : X -> PriceOracle;
  default_pair_hash : B256;
  pair_hash_to_id : X -> B256 -> Z;
  snapshot_vwap : X -> u32 -> Z -> option U256;
  store_snapshot : X -> u32 -> u64 -> u64 -> X * res unit;
  dispatch_stage_start : X -> u64 -> U256 -> X * bool;
  dispatch_stage_reveal : X -> u64 -> bool -> X * bool;
  dispatch_stage_clearing : X -> PromisLimit.PromisLimitContract -> u64 -> U256 -> X * PromisLimit.PromisLimitContract * bool
}.

Record World (X : Type) := mkWorld {
  w_md : MetadosisContract;
  w_lysis : LysisWorld;
  w_promis : PromisLimit.PromisLimitContract;
  w_ext : X
}.
Arguments mkWorld {X} _ _ _ _.
Arguments w_md {X} _.
Arguments w_lysis {X} _.
Arguments w_promis {X} _.
Arguments w_ext {X} _.

Section Runtime.
Context `{Crypto} {X : Type} `{DayServices X}.

Definition set_md (w : World X) (c : MetadosisContract) : World X := mkWorld c (w_lysis w) (w_promis w) (w_ext w).
Definition set_ext (w : World X) (x : X) : World X := mkWorld (w_md w) (w_lysis w) (w_promis w) x.
Definition w_tribute (w : World X) : TributeContract := lw_tribute (w_lysis w).
Definition set_tribute (w : World X) (t : TributeContract) : World X :=
  mkWorld (w_md w) (mkLysisWorld t (lw_nod (w_lysis w)) (lw_fidelity (w_lysis w))) (w_promis w) (w_ext w).

Definition initialize_bootstrap_if_needed (w : World X) (blk : BlockContext) : World X :=
  if (is_devnet (bk_chain_id blk) || is_testnet (bk_chain_id blk)) && (bootstrap_end_time (w_md w) =? 0) then
    set_md w (set_bootstrap_end_time (w_md w) (wadd 64 (bk_timestamp blk) (wmul 64 BOOTSTRAP_DURATION_HOURS SECONDS_PER_HOUR)))
  else w.

Definition create_worldwide_day_for_date (w : World X) (blk : BlockContext) (d : u32) : res (World X) :=
  if negb (forming_start (entry (w_md w) d) =? 0) then Ok w else
  let '(lookback_hours, offering_hours) := effective_hours (bk_chain_id blk) in
  let forming_start := WorldwideDay.start_timestamp d in
  let? c := create_worldwide_day (w_md w) d forming_start lookback_hours offering_hours in
  let w := set_md w (add_active_wwd c d) in
  let? t := seal_day (w_tribute w) d in
  Ok (set_tribute w t).

Definition create_initial_worldwide_day_if_needed (w : World X) (blk : BlockContext) : res (World X) :=
  if negb (bool_decide (get_all_active_wwds (w_md w) = [])) then Ok w
  else create_worldwide_day_for_date w blk (timestamp_to_date_key (bk_timestamp blk)).

Definition create_worldwide_day_if_needed (w : World X) (blk : BlockContext) : res (World X) :=
  create_worldwide_day_for_date w blk (WorldwideDay.from_timestamp (bk_timestamp blk)).

Definition init_genesis_day (w : World X) (blk : BlockContext) : res (World X) :=
  create_initial_worldwide_day_if_needed (initialize_bootstrap_if_needed w blk) blk.

Definition oracle_pair_hash (w : World X) : B256 :=
  let hash := config_oracle_pair_hash (w_md w) in
  if hash =? 0 then default_pair_hash else hash.

Definition contains (sub msg : string) : bool := match String.index 0 sub msg with Some _ => true | None => false end.

(** A day without trades has no snapshot, which is not an error. *)
Definition oracle_store_worldwide_day_vwap_snapshot (w : World X) (d : u32) (start_time end_time : u64) : res (World X) :=
  match store_snapshot (w_ext w) d start_time end_time with
  | (x, Ok _) => Ok (set_ext w x)
  | (x, Err (Revert msg)) => if contains "no VWAP data" msg then Ok (set_ext w x) else Err (Revert msg)
  | (_, Err e) => Err e
  end.

Definition oracle_worldwide_day_vwap_snapshot_value (w : World X) (d : u32) : U256 :=
  let pair_id := pair_hash_to_id (w_ext w) (oracle_pair_hash w) in
  if pair_id =? 0 then 0 else default 0 (snapshot_vwap (w_ext w) d pair_id).

Definition store_worldwide_day_vwap_snapshot (w : World X) (d : u32) : res (World X) :=
  oracle_store_worldwide_day_vwap_snapshot w d (forming_start (entry (w_md w) d)) (forming_end (entry (w_md w) d)).

Definition wr_vwaps (c : MetadosisContract) (d : u32) (previous current : U256) : MetadosisContract :=
  wr_entry c d (let e := entry c d in {| e with previous_vwap := previous; current_vwap := current |}).

Definition load_worldwide_day_rates_from_oracle_snapshots (w : World X) (d : u32) : World X :=
  let current_vwap := oracle_worldwide_day_vwap_snapshot_value w d in
  if current_vwap =? 0 then
    set_md w (set_day_type (wr_vwaps (w_md w) d 0 0) d day_type.RED)
  else
    let previous_vwap := oracle_worldwide_day_vwap_snapshot_value w (previous_date_key d) in
    set_md w (set_day_type (wr_vwaps (w_md w) d previous_vwap current_vwap) d (determine_day_type previous_vwap current_vwap)).

Definition update_wwd_status_machine (w : World X) (d : u32) (timestamp : u64) : res (World X) :=
  let current_status := get_status (w_md w) d in
  if (current_status =? status.IN_PROGRESS) || (current_status =? status.COMPLETED) || (current_status =? status.FAILED)
     || (current_status =? status.READY) then Ok w else
  let '(c, new_status) := update_wwd_status (w_md w) d timestamp in
  let w := set_md w c in
  if (current_status =? status.OFFERING) && (new_status =? status.OFFERING) then
    let auction_ts := scheduled_process_time (entry (w_md w) d) in
    let is_green_day := get_day_type (w_md w) d =? day_type.GREEN in
    Ok (set_ext w (fst (dispatch_stage_reveal (w_ext w) auction_ts is_green_day)))
  else if new_status =? current_status then Ok w else
  let? w :=
    if (current_status =? status.FORMING) && negb (new_status =? status.FORMING) then
      let? w := store_worldwide_day_vwap_snapshot w d in
      Ok (load_worldwide_day_rates_from_oracle_snapshots w d)
    else Ok w in
  let? w :=
    if (current_status <? status.OFFERING) && (new_status =? status.OFFERING) then
      let? t := unseal_day (w_tribute w) d in
      let w := set_tribute w t in
      let auction_ts := scheduled_process_time (entry (w_md w) d) in
      Ok (set_ext w (fst (dispatch_stage_start (w_ext w) auction_ts (current_vwap (entry (w_md w) d)))))
    else Ok w in
  if current_status =? status.OFFERING then
    let? t := seal_day (w_tribute w) d in
    Ok (set_tribute w t)
  else Ok w.

(** What a ready day returns to the unallocated limit. *)
Definition process_metadosis (w : World X) (now : u64) (d : u32) : res (World X * U256) :=
  if negb (has_day_limit (w_md w) d) then
    let? c := mark_failed (w_md w) d in
    Ok (set_md w c, 0)
  else
  let day_limit := get_day_limit (w_md w) d in
  if day_limit =? 0 then
    let? c := mark_failed (w_md w) d in
    Ok (set_md w (mark_day_limit_used c d), 0)
  else if get_day_type (w_md w) d =? day_type.UNKNOWN then
    let? c := mark_failed (w_md w) d in
    Ok (set_md w (mark_day_limit_used c d), day_limit)
  else
  let day_totals := get_day_totals (w_tribute w) d in
  if tribute_count day_totals =? 0 then
    let? c := mark_completed (w_md w) d in
    Ok (set_md w (mark_day_limit_used c d), day_limit)
  else
  let? calc := calculate_metadosis (w_md w) d (tribute_nominal_amount day_totals) day_limit in
  match @lysis _ (prices (w_ext w)) (w_lysis w) now d (day_gratis_allocation calc) with
  | (ly, Ok lysis_result) =>
      let w := mkWorld (w_md w) ly (w_promis w) (w_ext w) in
      let remainder := wadd 256 (remaining_gratis lysis_result) (day_metadosis_limit_remainder calc) in
      let '(w, to_promis_limit) :=
        if get_day_type (w_md w) d =? day_type.GREEN then
          let auction_ts := scheduled_process_time (entry (w_md w) d) in
          let '(x, promis, delivered) := dispatch_stage_clearing (w_ext w) (w_promis w) auction_ts remainder in
          (mkWorld (w_md w) (w_lysis w) promis x, if (delivered : bool) then 0 else remainder)
        else (w, remainder) in
      let? c := mark_completed (w_md w) d in
      Ok (set_md w (mark_day_limit_used c d), to_promis_limit)
  | (ly, Err _) =>
      let w := mkWorld (w_md w) ly (w_promis w) (w_ext w) in
      let? c := mark_failed (w_md w) d in
      Ok (set_md w (mark_day_limit_used c d), day_limit)
  end.

Definition cleanup_one (timestamp : u64) (c : MetadosisContract) (d : u32) : MetadosisContract :=
  let wwd_status := get_status c d in
  if negb (wwd_status =? status.COMPLETED) && negb (wwd_status =? status.FAILED) then c else
  let scheduled := scheduled_process_time (entry c d) in
  if (scheduled >? 0) && (saturating_sub timestamp scheduled >? COMPLETED_WWD_RETENTION_DAYS * 24 * 3600) then
    delete_worldwide_day (remove_active_wwd c d) d
  else c.

Definition cleanup_completed_days (c : MetadosisContract) (timestamp : u64) : MetadosisContract :=
  foldl (cleanup_one timestamp) c (get_all_active_wwds c).

(** The processing loop of [start_metadosis]. *)
Definition process_ready (now : u64) (acc : World X * U256) (d : u32) : res (World X * U256) :=
  let '(w, total_unallocated) := acc in
  if get_status (w_md w) d =? status.READY then
    let? (w, unallocated) := process_metadosis w now d in
    Ok (w, wadd 256 total_unallocated unallocated)
  else Ok (w, total_unallocated).

Definition start_metadosis (w : World X) (blk : BlockContext) : res (World X) :=
  let timestamp := bk_timestamp blk in
  let? w := if bk_number blk =? 1 then init_genesis_day w blk else Ok w in
  let? w := create_worldwide_day_if_needed w blk in
  let? w := foldM (fun w d => update_wwd_status_machine w d timestamp) w (get_all_active_wwds (w_md w)) in
  let? (w, total_unallocated) := foldM (process_ready timestamp) (w, 0) (get_all_active_wwds (w_md w)) in
  let? w :=
    if negb (total_unallocated =? 0) then
      let? promis := PromisLimit.add_to_total_unallocated (w_promis w) total_unallocated in
      Ok (mkWorld (w_md w) (w_lysis w) promis (w_ext w))
    else Ok w in
  Ok (set_md w (cleanup_completed_days (w_md w) timestamp)).
End Runtime.

(** ** What a ready day is worth *)

Section Day.
Context `{KeccakLaws} {X : Type} `{DayServices X}.

Lemma calculate_spec c d nominal limit : get_day_type c d = day_type.GREEN \/ get_day_type c d = day_type.RED -> 0 <= nominal -> 0 <= limit < 2 ^ 256 ->
  exists calc, calculate_metadosis c d nominal limit = Ok calc /\ 0 <= day_gratis_allocation calc <= limit /\
    day_metadosis_limit_remainder calc = limit - day_gratis_allocation calc.
Proof.
  intros Ht Hn Hl. unfold calculate_metadosis. cbv zeta.
  assert (Hd : 0 <= wmul 256 nominal SYMBOLIC_RATE / 100) by (apply Z.div_pos; [apply Z.mod_pos_bound; lia|lia]).
  set (demand := wmul 256 nominal SYMBOLIC_RATE / 100) in *.
  assert (0 <= demand / RED_DAY_REDUCTION_COEF) by (apply Z.div_pos; [lia|done]).
  assert (0 <= limit / RED_DAY_REDUCTION_COEF <= limit).
  { split; [apply Z.div_pos; [lia|done]|]. apply Z.div_le_upper_bound; [done|]. unfold RED_DAY_REDUCTION_COEF. lia. }
  destruct Ht as [-> | ->]; cbn; destruct (_ <? _) eqn:E; bools; (eexists; split; [done|]); cbn [day_gratis_allocation day_metadosis_limit_remainder];
    (split; [lia|]); rewrite wsub_small by lia; lia.
Qed.

(** What the clearing stage of the auction was given, if it took it. *)
Definition delivered (w : World X) (d : u32) (supply : Z) (w' : World X) : Prop :=
  dispatch_stage_clearing (w_ext w) (w_promis w) (scheduled_process_time (entry (w_md w) d)) supply = (w_ext w', w_promis w', true).

(** A day whose lysis can run: ready, with a limit, a type and tributes. *)
Record day_pre (w : World X) (d : u32) : Prop := {
  dp_ready : get_status (w_md w) d = status.READY;
  dp_limit : has_day_limit (w_md w) d = true /\ 0 < get_day_limit (w_md w) d < 2 ^ 256;
  dp_type : get_day_type (w_md w) d = day_type.GREEN \/ get_day_type (w_md w) d = day_type.RED;
  dp_count : tribute_count (get_day_totals (w_tribute w) d) <> 0;
  dp_nominal : 0 <= tribute_nominal_amount (get_day_totals (w_tribute w) d)
}.

Definition allocation (w : World X) (d : u32) : Z :=
  match calculate_metadosis (w_md w) d (tribute_nominal_amount (get_day_totals (w_tribute w) d)) (get_day_limit (w_md w) d) with
  | Ok calc => day_gratis_allocation calc
  | Err _ => 0
  end.

Lemma allocation_range w d : day_pre w d -> 0 <= allocation w d <= get_day_limit (w_md w) d.
Proof.
  intros [_ [_ Hl] Ht _ Hn]. unfold allocation. destruct (calculate_spec (w_md w) d _ (get_day_limit (w_md w) d) Ht Hn ltac:(lia)) as (calc & -> & Ha & _). done.
Qed.

Lemma set_status_get c d s : get_status (set_status c d s) d = s.
Proof. unfold get_status, set_status, entry, wr_entry. cbn [worldwide_days set_worldwide_days]. by rewrite rd_insert_eq. Qed.

(** The day when lysis went through. *)
Lemma process_Ok w now d ly r : day_pre w d -> @lysis _ (prices (w_ext w)) (w_lysis w) now d (allocation w d) = (ly, Ok r) ->
  0 <= remaining_gratis r <= allocation w d ->
  exists w' back, process_metadosis w now d = Ok (w', back) /\ w_lysis w' = ly /\
    get_status (w_md w') d = status.COMPLETED /\ is_day_limit_used (w_md w') d = true /\
    let rest := get_day_limit (w_md w) d - (allocation w d - remaining_gratis r) in
    (back = rest \/ (back = 0 /\ delivered w d rest w')).
Proof.
  intros P E Hr. pose proof P as [Hst [Hh Hl] Ht Hc Hn]. unfold process_metadosis, allocation in *. rewrite Hh. cbn [negb]. cbv zeta.
  rewrite (proj2 (Z.eqb_neq (get_day_limit (w_md w) d) 0)) by lia.
  assert (Htu : (get_day_type (w_md w) d =? day_type.UNKNOWN) = false) by (by destruct Ht as [-> | ->]). rewrite Htu, (proj2 (Z.eqb_neq _ _) Hc).
  destruct (calculate_spec (w_md w) d _ (get_day_limit (w_md w) d) Ht Hn ltac:(lia)) as (calc & Ec & Ha & Hrem). rewrite Ec in *. rewrite E, Hrem, wadd_small by lia.
  replace (remaining_gratis r + (get_day_limit (w_md w) d - day_gratis_allocation calc)) with (get_day_limit (w_md w) d - (day_gratis_allocation calc - remaining_gratis r)) by lia.
  cbn [w_md w_ext w_promis w_lysis]. unfold mark_completed. destruct (get_day_type (w_md w) d =? day_type.GREEN) eqn:Eg.
  - destruct (dispatch_stage_clearing _ _ _ _) as [[x promis] del] eqn:Ed. cbn [w_md set_md]. rewrite Hst. cbn [Z.eqb status.READY Pos.eqb].
    do 2 eexists. split; [done|]. split; [done|]. split; [exact (set_status_get _ _ _)|]. split; [unfold is_day_limit_used; cbn; by rewrite rd_insert_eq|].
    destruct del; [by right|by left].
  - cbn [w_md set_md]. rewrite Hst. cbn [Z.eqb status.READY Pos.eqb]. do 2 eexists. split; [done|]. split; [done|]. split; [exact (set_status_get _ _ _)|].
    split; [unfold is_day_limit_used; cbn; by rewrite rd_insert_eq|]. by left.
Qed.

(** The day when lysis failed: the state it left stays, and the whole limit goes back. *)
Lemma process_Err w now d ly e : day_pre w d -> @lysis _ (prices (w_ext w)) (w_lysis w) now d (allocation w d) = (ly, Err e) ->
  exists w', process_metadosis w now d = Ok (w', get_day_limit (w_md w) d) /\ w_lysis w' = ly /\
    get_status (w_md w') d = status.FAILED /\ is_day_limit_used (w_md w') d = true /\ w_promis w' = w_promis w.
Proof.
  intros P E. pose proof P as [Hst [Hh Hl] Ht Hc Hn]. unfold process_metadosis, allocation in *. rewrite Hh. cbn [negb]. cbv zeta.
  rewrite (proj2 (Z.eqb_neq (get_day_limit (w_md w) d) 0)) by lia.
  assert (Htu : (get_day_type (w_md w) d =? day_type.UNKNOWN) = false) by (by destruct Ht as [-> | ->]). rewrite Htu, (proj2 (Z.eqb_neq _ _) Hc).
  destruct (calculate_spec (w_md w) d _ (get_day_limit (w_md w) d) Ht Hn ltac:(lia)) as (calc & Ec & Ha & Hrem). rewrite Ec in *. rewrite E.
  unfold mark_failed. cbn [w_md]. rewrite Hst. cbn [Z.eqb negb status.READY status.COMPLETED Pos.eqb].
  eexists. split; [done|]. split; [done|]. split; [exact (set_status_get _ _ _)|]. split; [unfold is_day_limit_used; cbn; by rewrite rd_insert_eq|done].
Qed.

(** C26. The limit of a ready day with a recorded positive limit, a known type and
    one or more tributes, of different owners, is conserved. When the oracle prices the tributes,
    no Nod of that day exists yet and the allocation and the nominal amounts are
    below [2^128], the day is completed, never failed, its limit is marked as used,
    and what the new Nods carry together with what is returned to the unallocated
    Promis limit, or taken by the auction as its supply, is exactly the limit. The
    new Nods carry the loads of exactly the tributes the allocation covers, taken
    in the order of the day. *)
Theorem day_limit_conserved (w : World X) now d L D O N e :
  day_pre w d -> @lysis_pre _ (prices (w_ext w)) (w_lysis w) now d (allocation w d) L D O N e ->
  allocation w d < 2 ^ 128 -> lsum (nominal_amount_minor <$> of_day d L) < 2 ^ 128 -> NoDup (tr_owner <$> of_day d L) ->
  exists fr w' back N' B, day_fractions (w_lysis w) d (allocation w d) L fr /\
    let load tr := gratis_load fr tr (get_fidelity_index (lw_fidelity (w_lysis w)) (tr_owner tr)) in
    process_metadosis w now d = Ok (w', back) /\ stored (nw_nod (lw_nod (w_lysis w'))) (N ++ N') B /\
    get_status (w_md w') d = status.COMPLETED /\ is_day_limit_used (w_md w') d = true /\
    nw_gratis (lw_nod (w_lysis w')) = nw_gratis (lw_nod (w_lysis w)) /\
    gratis_load_minor <$> N' = load <$> covered load (allocation w d) (of_day d L) /\
    (gratis_in (N ++ N') + back = gratis_in N + get_day_limit (w_md w) d \/
     back = 0 /\ exists supply, delivered w d supply w' /\ gratis_in (N ++ N') + supply = gratis_in N + get_day_limit (w_md w) d).
Proof.
  intros P LP Ha Ht Hn. destruct (lysis_run _ _ _ _ _ _ _ _ _ LP Ha Ht Hn) as (fr & ly & Y & r & Efr & E & [I1 I2 [I3 I4] [B I5] I6 I7 I8]).
  assert (Hpos : 0 <= loads fr Y).
  { apply lsum_nonneg, Forall_fmap. eapply Forall_impl; [exact I2|]. cbn. lia. }
  destruct (process_Ok _ _ _ _ _ P E ltac:(lia)) as (w' & back & Ep & Ew & Hs & Hu & Hb).
  eexists fr, w', back, _, B. split; [done|]. cbv zeta. rewrite Ew. split; [done|]. split; [exact I5|]. split; [done|]. split; [done|]. split; [done|].
  split; [rewrite I1, covered_fmap; unfold items_of; rewrite <- !list_fmap_compose; done|].
  rewrite gratis_in_app, gratis_of_items. destruct Hb as [-> |[-> Hd]]; [left; lia|]. right. split; [done|]. eexists. split; [exact Hd|]. lia.
Qed.

(** C39. It is not when two tributes of a day belong to one owner. Lysis then fails
    half way, the day is marked as failed and its whole limit is returned, but the
    Nods issued before the failure keep their gratis: more than the limit is handed
    out, and the tributes those Nods were issued for are not burned. *)
Theorem failed_day_overallocates (w : World X) now d L D O N e k :
  day_pre w d -> @lysis_pre _ (prices (w_ext w)) (w_lysis w) now d (allocation w d) L D O N e ->
  let total := lsum (nominal_amount_minor <$> of_day d L) in
  let share tr := nominal_amount_minor tr * (allocation w d * SCALE / total) / SCALE in
  Forall (fun tr => get_fidelity_index (lw_fidelity (w_lysis w)) (tr_owner tr) = k) (of_day d L) -> allocation w d < 2 ^ 128 -> 0 < total < 2 ^ 128 ->
  ~ NoDup (tr_owner <$> filter (fun tr => 0 < share tr) (of_day d L)) ->
  exists w' N' B, process_metadosis w now d = Ok (w', get_day_limit (w_md w) d) /\ stored (nw_nod (lw_nod (w_lysis w'))) (N ++ N') B /\
    get_status (w_md w') d = status.FAILED /\ w_tribute w' = w_tribute w /\
    gratis_in N + get_day_limit (w_md w) d < gratis_in (N ++ N') + get_day_limit (w_md w) d.
Proof.
  intros P LP total share Hk Ha Ht Hdup. destruct (one_class_outcome _ _ _ _ _ _ _ _ _ k LP Hk Ha Ht) as (ly & N' & B & r & E & Hs & HP).
  rewrite decide_False in HP by exact Hdup. destruct HP as (-> & Et & Hg).
  destruct (process_Err _ _ _ _ _ P E) as (w' & Ep & Ew & Hst & _ & _). exists w', N', B. unfold w_tribute. rewrite Ew. split_and!; try done. lia.
Qed.
End Day.

(** ** Lists of dates *)

Lemma find_date_spec n v d : forall i, match find_date n v d i with
  | Some j => i <= j < i + Z.of_nat n /\ rd (vdata v) j = d
  | None => forall j, i <= j < i + Z.of_nat n -> rd (vdata v) j <> d
  end.
Proof.
  induction n as [|n IH]; intros i; cbn [find_date]; [lia|]. destruct (rd (vdata v) i =? d) eqn:E; bools; [lia|].
  specialize (IH (i + 1)). destruct (find_date n v d (i + 1)); [lia|]. intros j Hj. destruct (decide (j = i)) as [->|]; [done|apply IH; lia].
Qed.

Lemma remove_date_rep v l d : vec_rep v l -> d ∈ l -> exists l', vec_rep (remove_date v d) l' /\ l ≡ₚ d :: l'.
Proof.
  intros R Hin. pose proof R as (Hn & Hb & Hl). apply list_elem_of_lookup in Hin as [k Hk]. pose proof (lookup_lt_Some _ _ _ Hk) as Hkl.
  unfold remove_date. pose proof (find_date_spec (Z.to_nat (vlen v)) v d 0) as Hf. destruct (find_date _ _ _ _) as [j|].
  2: { exfalso. apply (Hf (Z.of_nat k)); [lia|]. specialize (Hl k Hkl). congruence. }
  destruct Hf as [Hj Ej]. destruct (exists_last (l := l)) as (l0 & y & ->); [intros ->; cbn in Hkl; lia|].
  rewrite length_app in *. cbn [length] in *. assert (Hjd : (l0 ++ [y]) !! Z.to_nat j = Some d) by (rewrite Hl by lia; rewrite Z2Nat.id by lia; by rewrite Ej).
  assert (Ey : rd (vdata v) (vlen v - 1) = y).
  { specialize (Hl (length l0) ltac:(lia)). rewrite lookup_app_r, Nat.sub_diag in Hl by lia. injection Hl as ->. f_equal. lia. }
  exists (<[Z.to_nat j := y]> l0). split; [|by apply swap_remove_perm]. cbv zeta. split_and!; cbn [vlen vdata]; rewrite ?length_insert; [lia|lia|].
  intros i Hi. rewrite rd_insert_ne by lia. specialize (Hl i ltac:(lia)). rewrite lookup_app_l in Hl by lia. destruct (j =? vlen v - 1) eqn:Ejl; bools; cbn [negb].
  - rewrite list_lookup_insert_ne by lia. done.
  - rewrite Ey. destruct (decide (i = Z.to_nat j)) as [->|Hne]; [rewrite list_lookup_insert_eq by lia; rewrite Z2Nat.id, rd_insert_eq by lia; done|].
    rewrite list_lookup_insert_ne, rd_insert_ne by lia. done.
Qed.

(** ** The limits of the days *)

(** The limits that are kept are those of the dates [l]. *)
Record limits_ok (c : MetadosisContract) (l : list Z) : Prop := {
  lk_dates : vec_rep (day_limit_dates c) l;
  lk_nodup : NoDup l;
  lk_nonzero : Forall (fun d => d <> 0) l;
  lk_exists : forall d, has_day_limit c d = bool_decide (d ∈ l);
  lk_none : forall d, d ∉ l -> get_day_limit c d = 0
}.

Lemma limit_dates c l : limits_ok c l -> get_all_day_limit_dates c = l.
Proof.
  intros K. unfold get_all_day_limit_dates. rewrite (vec_rep_read_all _ _ (lk_dates _ _ K)). pose proof (lk_nonzero _ _ K) as Hf. clear K.
  induction Hf as [|d l Hd Hl IH]; [done|]. rewrite filter_cons_True by done. by rewrite IH.
Qed.

Lemma foldl_min l : forall x, let m := foldl Z.min x l in (m = x \/ m ∈ l) /\ m <= x /\ forall y, y ∈ l -> m <= y.
Proof.
  induction l as [|z l IH]; intros x; cbn [foldl]; cbv zeta; [split_and!; [by left|lia|by intros y ?%not_elem_of_nil]|].
  destruct (IH (Z.min x z)) as (H1 & H2 & H3). split_and!; [|lia|].
  - destruct H1 as [->|H1]; [|right; by right]. destruct (Z.min_spec x z) as [[_ ->]|[_ ->]]; [by left|right; by left].
  - intros y [->|Hy]%elem_of_cons; [lia|by apply H3].
Qed.

Lemma oldest_spec l d : oldest l = Some d -> d ∈ l /\ forall x, x ∈ l -> d <= x.
Proof.
  destruct l as [|x l]; [done|]. cbn [oldest]. intros [= <-]. destruct (foldl_min l x) as (H1 & H2 & H3).
  split; [destruct H1 as [->|H1]; [by left|by right]|]. intros y [->|Hy]%elem_of_cons; [done|by apply H3].
Qed.

Lemma delete_limit_ok c l d : limits_ok c l -> d ∈ l ->
  exists l', limits_ok (delete_day_limit c d) l' /\ l ≡ₚ d :: l' /\ forall x, x <> d -> get_day_limit (delete_day_limit c d) x = get_day_limit c x.
Proof.
  intros [K1 K2 K3 K4 K5] Hd. destruct (remove_date_rep _ _ _ K1 Hd) as (l' & R & P). pose proof K2 as K2'. rewrite P in K2'. apply NoDup_cons in K2' as [Hn Hnd].
  assert (Hin : forall x, x ∈ l <-> x = d \/ x ∈ l') by (intros x; by rewrite P, elem_of_cons).
  exists l'. split; [split|split; [done|]].
  - exact R.
  - done.
  - rewrite P in K3. by apply Forall_cons_1 in K3 as [_ ?].
  - intros x. unfold has_day_limit, delete_day_limit. cbn. destruct (decide (x = d)) as [->|Hne].
    + rewrite rd_insert_eq, bool_decide_eq_false_2 by done. done.
    + rewrite rd_insert_ne by done. etransitivity; [apply K4|]. apply bool_decide_ext. naive_solver.
  - intros x Hx. unfold get_day_limit, delete_day_limit. cbn. destruct (decide (x = d)) as [->|Hne]; [by rewrite rd_insert_eq|].
    rewrite rd_insert_ne by done. apply K5. naive_solver.
  - intros x Hx. unfold get_day_limit, delete_day_limit. cbn. by rewrite rd_insert_ne.
Qed.

(** What the clean-up leaves of the dates [l]: the newest thirty. *)
Record trimmed (c c' : MetadosisContract) (l l' : list Z) : Prop := {
  tm_ok : limits_ok c' l';
  tm_len : len l' <= MAX_DAY_LIMITS_KEPT;
  tm_sub : forall d, d ∈ l' -> d ∈ l;
  tm_dropped : forall d, d ∈ l -> d ∉ l' -> MAX_DAY_LIMITS_KEPT <= len l' /\ forall x, x ∈ l' -> d < x;
  tm_amount : forall d, d ∈ l' -> get_day_limit c' d = get_day_limit c d
}.

Lemma trim_spec fuel : forall c l, limits_ok c l -> (length l <= fuel)%nat -> exists l', trimmed c (cleanup_loop fuel c) l l'.
Proof.
  assert (Hstop : forall c l, limits_ok c l -> len l <= MAX_DAY_LIMITS_KEPT -> trimmed c c l l) by (intros c l K Hl; split; done).
  induction fuel as [|fuel IH]; intros c l K Hl; cbn [cleanup_loop].
  { exists l. apply Hstop; [done|]. unfold len, MAX_DAY_LIMITS_KEPT. lia. }
  cbv zeta. rewrite (limit_dates c l K). destruct (Z.leb_spec (len l) MAX_DAY_LIMITS_KEPT) as [Hk|Hk]; [exists l; by apply Hstop|].
  destruct (oldest l) as [d|] eqn:Eo. 2: { destruct l; [by vm_compute in Hk|done]. }
  apply oldest_spec in Eo as [Hd Hmin]. destruct (delete_limit_ok c l d K Hd) as (l1 & K1 & P & Ha). pose proof (Permutation_length P) as Hlen. cbn [length] in Hlen.
  pose proof (lk_nodup _ _ K) as Hnd. rewrite P in Hnd. apply NoDup_cons in Hnd as [Hdn _].
  assert (Hin : forall x, x ∈ l <-> x = d \/ x ∈ l1) by (intros x; by rewrite P, elem_of_cons).
  destruct (IH (delete_day_limit c d) l1 K1 ltac:(lia)) as (l' & [T1 T2 T3 T4 T5]). exists l'. split; try done.
  - intros x Hx. apply Hin. right. by apply T3.
  - intros x Hx Hnx. apply Hin in Hx as [->|Hx]; [|by apply T4]. split.
    + destruct (decide (Forall (fun x => x ∈ l') l1)) as [Hall|Hnot].
      * assert (Hs : l1 ⊆+ l') by (apply NoDup_submseteq; [apply (lk_nodup _ _ K1)|by apply Forall_forall]). apply submseteq_length in Hs. unfold len in *. lia.
      * apply not_Forall_Exists, Exists_exists in Hnot as (x & Hx & Hnx'); [|intros x; apply _]. by apply (T4 x).
    + intros x Hx. apply T3 in Hx. assert (x <> d) by (by intros ->). pose proof (Hmin x ltac:(apply Hin; by right)). lia.
  - intros x Hx. rewrite T5 by done. apply Ha. intros ->. by apply Hdn, T3.
Qed.

Lemma trim_frame fuel : forall c, worldwide_days (cleanup_loop fuel c) = worldwide_days c /\ active_wwds (cleanup_loop fuel c) = active_wwds c.
Proof.
  induction fuel as [|fuel IH]; intros c; [done|]. cbn [cleanup_loop]. cbv zeta. destruct (_ <=? _); [done|]. destruct (oldest _) as [d|]; [|done]. apply (IH (delete_day_limit c d)).
Qed.

Lemma record_day_limit_frame c d amount : worldwide_days (record_day_limit c d amount) = worldwide_days c /\ active_wwds (record_day_limit c d amount) = active_wwds c.
Proof.
  unfold record_day_limit, cleanup_old_day_limits. cbv zeta. match goal with |- context [cleanup_loop ?n ?c'] => destruct (trim_frame n c') as [-> ->] end.
  by destruct (negb _).
Qed.

(** Recording an amount adds it to the limit of its day; of the dates then kept,
    those that go are older than thirty that stay. *)
Lemma record_day_limit_spec c l d amount : limits_ok c l -> len l < 2 ^ 32 - 1 -> d <> 0 -> 0 <= amount -> 0 <= get_day_limit c d -> get_day_limit c d + amount < 2 ^ 256 ->
  exists c1 l1 l', trimmed c1 (record_day_limit c d amount) l1 l' /\ (forall x, x ∈ l1 <-> x = d \/ x ∈ l) /\
    forall x, get_day_limit c1 x = get_day_limit c x + if decide (x = d) then amount else 0.
Proof.
  intros K Hl Hd Ha Hg Hb. pose proof K as [K1 K2 K3 K4 K5]. unfold record_day_limit. cbv zeta. set (c0 := if negb (has_day_limit c d) then add_day_limit_date c d else c).
  assert (Eg : forall x, get_day_limit c0 x = get_day_limit c x) by (intros x; unfold c0; by destruct (negb _)).
  assert (Eh : day_limit_exists c0 = day_limit_exists c) by (unfold c0; by destruct (negb _)). rewrite (wadd_small 256) by (rewrite Eg; lia). rewrite Eg.
  set (c1 := wr_day_limit_exists (wr_day_limit_amount c0 d (get_day_limit c d + amount)) d true).
  assert (H1 : exists l1, vec_rep (day_limit_dates c0) l1 /\ NoDup l1 /\ Forall (fun d => d <> 0) l1 /\ forall x, x ∈ l1 <-> x = d \/ x ∈ l).
  { unfold c0. rewrite K4. case_bool_decide as Hin; cbn [negb]; [exists l; split_and!; naive_solver|]. exists (l ++ [d]). destruct K1 as (? & ? & ?). split_and!.
    - apply vec_rep_push; [done|]. unfold len in Hl. lia.
    - apply NoDup_app. split_and!; [done|set_solver|apply NoDup_singleton].
    - apply Forall_app. split; [done|by constructor].
    - set_solver. }
  destruct H1 as (l1 & R1 & N1 & F1 & I1).
  assert (Ex : forall x, get_day_limit c1 x = get_day_limit c x + if decide (x = d) then amount else 0).
  { intros x. unfold get_day_limit at 1. unfold c1. cbn. rewrite rd_insert. destruct (decide (d = x)) as [->|Hne]; [by rewrite decide_True|]. rewrite decide_False by congruence. rewrite Z.add_0_r. apply Eg. }
  assert (Kc : limits_ok c1 l1).
  { split; try done.
    - intros x. unfold has_day_limit, c1. cbn. rewrite Eh, rd_insert. destruct (decide (d = x)) as [<-|Hne]; [rewrite bool_decide_eq_true_2 by (apply I1; by left); done|].
      etransitivity; [apply K4|]. apply bool_decide_ext. rewrite I1. naive_solver.
    - intros x Hx. rewrite Ex, decide_False, K5 by (intros Hx'; apply Hx, I1; auto). done. }
  destruct (trim_spec (Z.to_nat (vlen (day_limit_dates c1))) c1 l1 Kc) as (l' & T).
  { destruct R1 as (Hn & _ & _). change (day_limit_dates c1) with (day_limit_dates c0). lia. }
  exists c1, l1, l'. split_and!; done.
Qed.

(** ** The timetable *)

Definition terminal (s : Z) : Prop := s = status.COMPLETED \/ s = status.FAILED.

(** An entry that was last moved at [T]. *)
Record day_ok (T : Z) (d : u32) (e : WorldwideDay) : Prop := {
  do_u32 : is_u32 d;
  do_start : 0 < forming_start e;
  do_order : forming_start e + 86400 <= forming_end e <= lookback_end e /\ lookback_end e <= offering_end e <= scheduled_process_time e;
  do_fits : forming_end e < 2 ^ 64 - 2 ^ 32;
  do_type : 0 <= wwd_type e <= 2;
  do_status : terminal (wwd_status e) \/ (wwd_status e = timetable e T /\ wwd_status e <> status.READY)
}.

(** The store between two runs, the last of which was at [T]. *)
Record days_ok (T : Z) (c : MetadosisContract) (opened : Z -> bool) (A : list Z) : Prop := {
  dk_active : vec_rep (active_wwds c) A;
  dk_nodup : NoDup A;
  dk_absent : forall d, d ∉ A -> worldwide_days c !! d = None;
  dk_days : forall d, d ∈ A -> day_ok T d (entry c d);
  dk_open : forall d, opened d = bool_decide (d ∈ A /\ get_status c d = status.OFFERING)
}.

(** Every listed day starts when its date does. *)
Definition on_calendar (c : MetadosisContract) (A : list Z) : Prop := forall d, d ∈ A -> forming_start (entry c d) = WorldwideDay.start_timestamp d.

(** [e'] is [e] with its status moved to time [T], apart from prices and type. *)
Definition same_times (e e' : WorldwideDay) : Prop :=
  forming_start e' = forming_start e /\ forming_end e' = forming_end e /\ lookback_end e' = lookback_end e /\
  offering_end e' = offering_end e /\ scheduled_process_time e' = scheduled_process_time e.

Lemma timetable_same e e' T : same_times e e' -> timetable e' T = timetable e T.
Proof. intros (_ & E2 & E3 & E4 & E5). unfold timetable. by rewrite E2, E3, E4, E5. Qed.

Lemma timetable_mono e T T' : forming_end e <= lookback_end e -> lookback_end e <= offering_end e <= scheduled_process_time e -> T <= T' -> timetable e T <= timetable e T'.
Proof.
  intros H1 H2 HT. unfold timetable, status.FORMING, status.LOOKBACK_DELAY, status.OFFERING, status.WAITING, status.READY.
  repeat match goal with |- context [?a <? ?b] => destruct (Z.ltb_spec a b) end; lia.
Qed.

Lemma timetable_range e T : 0 <= timetable e T <= 4.
Proof. unfold timetable, status.FORMING, status.LOOKBACK_DELAY, status.OFFERING, status.WAITING, status.READY.
  repeat match goal with |- context [?a <? ?b] => destruct (Z.ltb_spec a b) end; lia. Qed.

Section Run.
Context `{KeccakLaws} {X : Type} `{DayServices X}.
Implicit Types w : World X.

(** What moving one day leaves alone. *)
Record frame (d : u32) (w w' : World X) : Prop := {
  fr_active : active_wwds (w_md w') = active_wwds (w_md w);
  fr_amounts : day_limit_amount (w_md w') = day_limit_amount (w_md w) /\ day_limit_exists (w_md w') = day_limit_exists (w_md w);
  fr_others : forall d', d' <> d -> worldwide_days (w_md w') !! d' = worldwide_days (w_md w) !! d';
  fr_nods : lw_nod (w_lysis w') = lw_nod (w_lysis w) /\ lw_fidelity (w_lysis w') = lw_fidelity (w_lysis w);
  fr_promis : w_promis w' = w_promis w
}.

Lemma frame_trans d w1 w2 w3 : frame d w1 w2 -> frame d w2 w3 -> frame d w1 w3.
Proof.
  intros [A1 [A2 A3] A4 [A5 A6] A7] [B1 [B2 B3] B4 [B5 B6] B7]. split; try congruence; [by split; congruence| |by split; congruence].
  intros d' Hne. by rewrite B4, A4.
Qed.

Lemma entry_wr c d v d' : entry (wr_entry c d v) d' = if decide (d = d') then v else entry c d'.
Proof. unfold entry, wr_entry. cbn [worldwide_days set_worldwide_days]. apply rd_insert. Qed.

Lemma wr_entry_others c d v d' : d' <> d -> worldwide_days (wr_entry c d v) !! d' = worldwide_days c !! d'.
Proof. intros Hne. cbn. by rewrite lookup_insert_ne. Qed.

Lemma frame_wr d w v : frame d w (set_md w (wr_entry (w_md w) d v)).
Proof. split; try done. intros d' Hne. by apply wr_entry_others. Qed.

Lemma frame_ext d w x : frame d w (set_ext w x).
Proof. by split. Qed.

Lemma frame_tribute d w t : frame d w (set_tribute w t).
Proof. by split. Qed.

(** For the window of a day the oracle only ever lacks data. *)
Definition snapshots_ok : Prop := forall (x : X) d a b, 0 < a -> a + 86400 <= b < 2 ^ 64 - 2 ^ 32 -> match snd (store_snapshot x d a b) with
  | Ok _ => True
  | Err (Revert msg) => contains "no VWAP data" msg = true
  | Err _ => False
  end.

Lemma store_snapshot_Ok w d : snapshots_ok -> 0 < forming_start (entry (w_md w) d) -> forming_start (entry (w_md w) d) + 86400 <= forming_end (entry (w_md w) d) < 2 ^ 64 - 2 ^ 32 -> exists x, store_worldwide_day_vwap_snapshot w d = Ok (set_ext w x).
Proof.
  intros Hs Ho Hf. unfold store_worldwide_day_vwap_snapshot, oracle_store_worldwide_day_vwap_snapshot.
  specialize (Hs (w_ext w) d (forming_start (entry (w_md w) d)) (forming_end (entry (w_md w) d)) Ho Hf).
  destruct (store_snapshot _ _ _ _) as [x [u|er]]; [by eexists|]. cbn [snd] in Hs. destruct er; try done. rewrite Hs. by eexists.
Qed.

Lemma load_rates_spec w d : exists w', load_worldwide_day_rates_from_oracle_snapshots w d = w' /\ frame d w w' /\ w_lysis w' = w_lysis w /\
  same_times (entry (w_md w) d) (entry (w_md w') d) /\ wwd_status (entry (w_md w') d) = wwd_status (entry (w_md w) d) /\
  (wwd_type (entry (w_md w') d) = day_type.GREEN \/ wwd_type (entry (w_md w') d) = day_type.RED).
Proof.
  eexists. split; [done|]. unfold load_worldwide_day_rates_from_oracle_snapshots. cbv zeta.
  assert (Ht : forall a b, determine_day_type a b = day_type.GREEN \/ determine_day_type a b = day_type.RED).
  { intros a b. unfold determine_day_type. destruct (_ || _); [by right|]. destruct (_ >? _); [by left|by right]. }
  assert (Hf : forall p q t, frame d w (set_md w (set_day_type (wr_vwaps (w_md w) d p q) d t))).
  { intros p q t. split; try done. intros d' Hne. cbn. by rewrite !lookup_insert_ne. }
  destruct (_ =? 0); (split; [apply Hf|]); (split; [done|]); cbn [w_md set_md]; unfold set_day_type, wr_vwaps; rewrite !entry_wr, !decide_True by done;
    (split; [by split_and!|]); (split; [done|]); cbn; [by right|apply Ht].
Qed.

(** The status a run at [ts] gives an entry, before it processes the ready days. *)
Definition moved (e : WorldwideDay) (ts : u64) : Z := if decide (terminal (wwd_status e)) then wwd_status e else timetable e ts.

Lemma update_status_spec c d ts : ~ terminal (get_status c d) ->
  exists c', update_wwd_status c d ts = (c', timetable (entry c d) ts) /\ same_times (entry c d) (entry c' d) /\
    get_status c' d = timetable (entry c d) ts /\ wwd_type (entry c' d) = wwd_type (entry c d) /\
    (c' = c \/ c' = set_status c d (timetable (entry c d) ts)).
Proof.
  intros Hn. unfold update_wwd_status, terminal in *. rewrite (proj2 (Z.eqb_neq _ status.COMPLETED)), (proj2 (Z.eqb_neq _ status.FAILED)) by tauto. cbn [orb]. cbv zeta.
  destruct (timetable (entry c d) ts =? get_status c d) eqn:E; cbn [negb]; eexists; (split; [done|]).
  - bools. split_and!; try done. by left.
  - unfold get_status at 1, set_status at 1 2 3. rewrite entry_wr, decide_True by done. split_and!; try done. by right.
Qed.

(** The seals a move sets. *)
Lemma set_sealed_world w L D O d b : tribute_rep (w_tribute w) L D O ->
  exists t, set_sealed (w_tribute w) d b = Ok t /\ tribute_rep (w_tribute (set_tribute w t)) L D O /\
    forall d', is_open (w_tribute (set_tribute w t)) d' = if decide (d' = d) then negb b else is_open (w_tribute w) d'.
Proof. intros R. destruct (set_sealed_rep _ _ _ _ d b R) as (t & E & R' & Ho). by exists t. Qed.

Record one_moved (d : u32) (ts : u64) (L : list TributeData) (D O : Z -> list Z) (w w' : World X) : Prop := {
  om_frame : frame d w w';
  om_rep : tribute_rep (w_tribute w') L D O;
  om_times : same_times (entry (w_md w) d) (entry (w_md w') d);
  om_type : 0 <= wwd_type (entry (w_md w') d) <= 2;
  om_status : get_status (w_md w') d = moved (entry (w_md w) d) ts;
  om_open : forall d', is_open (w_tribute w') d' = if decide (d' = d) then bool_decide (get_status (w_md w') d = status.OFFERING) else is_open (w_tribute w) d'
}.

(** The prices a day takes when it leaves the forming period. *)
Lemma leave_forming w d (b : bool) : snapshots_ok -> 0 < forming_start (entry (w_md w) d) -> forming_start (entry (w_md w) d) + 86400 <= forming_end (entry (w_md w) d) < 2 ^ 64 - 2 ^ 32 ->
  exists w', (if b then let? v := store_worldwide_day_vwap_snapshot w d in Ok (load_worldwide_day_rates_from_oracle_snapshots v d) else Ok w) = Ok w' /\
    frame d w w' /\ w_lysis w' = w_lysis w /\ same_times (entry (w_md w) d) (entry (w_md w') d) /\ get_status (w_md w') d = get_status (w_md w) d /\
    (0 <= wwd_type (entry (w_md w) d) <= 2 -> 0 <= wwd_type (entry (w_md w') d) <= 2).
Proof.
  intros Hs Ho Hf. destruct b; [|exists w; by split_and!]. destruct (store_snapshot_Ok w d Hs Ho Hf) as (x & ->).
  destruct (load_rates_spec (set_ext w x) d) as (w' & E & F & El & Et & Est & Hty). exists w'. rewrite E. split; [done|].
  split; [exact (frame_trans _ _ _ _ (frame_ext d w x) F)|]. split; [done|]. split; [done|]. split; [done|]. intros _. unfold day_type.GREEN, day_type.RED in Hty. lia.
Qed.

Lemma start_offering w d (b : bool) L D O : tribute_rep (w_tribute w) L D O ->
  exists w', (if b then
      let? t := unseal_day (w_tribute w) d in
      let w := set_tribute w t in
      let auction_ts := scheduled_process_time (entry (w_md w) d) in
      Ok (set_ext w (fst (dispatch_stage_start (w_ext w) auction_ts (current_vwap (entry (w_md w) d)))))
    else Ok w) = Ok w' /\ frame d w w' /\ tribute_rep (w_tribute w') L D O /\ w_md w' = w_md w /\
    forall d', is_open (w_tribute w') d' = if b && bool_decide (d' = d) then true else is_open (w_tribute w) d'.
Proof.
  intros R. destruct b; [|exists w; split_and!; try done]. destruct (set_sealed_world w L D O d false R) as (t & E & R' & Ho). unfold unseal_day. rewrite E.
  eexists. split; [done|]. split; [by split|]. split; [exact R'|]. split; [done|]. intros d'. unfold w_tribute, set_ext in *. cbn [w_lysis] in *. rewrite (Ho d').
  cbn [andb]. by case_decide; case_bool_decide.
Qed.

Lemma stop_offering w d (b : bool) L D O : tribute_rep (w_tribute w) L D O ->
  exists w', (if b then let? t := seal_day (w_tribute w) d in Ok (set_tribute w t) else Ok w) = Ok w' /\
    frame d w w' /\ tribute_rep (w_tribute w') L D O /\ w_md w' = w_md w /\
    forall d', is_open (w_tribute w') d' = if b && bool_decide (d' = d) then false else is_open (w_tribute w) d'.
Proof.
  intros R. destruct b; [|exists w; split_and!; try done]. destruct (set_sealed_world w L D O d true R) as (t & E & R' & Ho). unfold seal_day. rewrite E.
  eexists. split; [done|]. split; [by split|]. split; [exact R'|]. split; [done|]. intros d'. rewrite (Ho d'). cbn [andb]. by case_decide; case_bool_decide.
Qed.

Lemma same_times_trans e1 e2 e3 : same_times e1 e2 -> same_times e2 e3 -> same_times e1 e3.
Proof. unfold same_times. intros (? & ? & ? & ? & ?) (? & ? & ? & ? & ?). split_and!; congruence. Qed.

(** The steps of a move after the status is written. *)
Lemma move_tail w d (b1 b2 b3 : bool) L D O : tribute_rep (w_tribute w) L D O -> snapshots_ok ->
  0 < forming_start (entry (w_md w) d) -> forming_start (entry (w_md w) d) + 86400 <= forming_end (entry (w_md w) d) < 2 ^ 64 - 2 ^ 32 ->
  exists w', (let? v := (if b1 then let? v := store_worldwide_day_vwap_snapshot w d in Ok (load_worldwide_day_rates_from_oracle_snapshots v d) else Ok w) in
    let? v := (if b2 then
        let? t := unseal_day (w_tribute v) d in
        let v := set_tribute v t in
        let auction_ts := scheduled_process_time (entry (w_md v) d) in
        Ok (set_ext v (fst (dispatch_stage_start (w_ext v) auction_ts (current_vwap (entry (w_md v) d)))))
      else Ok v) in
    if b3 then let? t := seal_day (w_tribute v) d in Ok (set_tribute v t) else Ok v) = Ok w' /\
  frame d w w' /\ tribute_rep (w_tribute w') L D O /\ same_times (entry (w_md w) d) (entry (w_md w') d) /\ get_status (w_md w') d = get_status (w_md w) d /\
  (0 <= wwd_type (entry (w_md w) d) <= 2 -> 0 <= wwd_type (entry (w_md w') d) <= 2) /\
  forall d', is_open (w_tribute w') d' = if decide (d' = d) then (if b3 then false else if b2 then true else is_open (w_tribute w) d) else is_open (w_tribute w) d'.
Proof.
  intros R Hs Ho Hf. destruct (leave_forming w d b1 Hs Ho Hf) as (w1 & E1 & F1 & L1 & T1 & S1 & Y1).
  assert (R1 : tribute_rep (w_tribute w1) L D O) by (unfold w_tribute; by rewrite L1).
  destruct (start_offering w1 d b2 L D O R1) as (w2 & E2 & F2 & R2 & M2 & O2). destruct (stop_offering w2 d b3 L D O R2) as (w3 & E3 & F3 & R3 & M3 & O3).
  exists w3. rewrite E1, E2, E3. split; [done|]. split; [eapply frame_trans; [exact F1|by eapply frame_trans]|]. split; [done|]. rewrite M3, M2. split; [done|]. split; [done|]. split; [done|].
  intros d'. rewrite O3, O2. unfold w_tribute in *. rewrite L1. destruct (decide (d' = d)) as [->|Hne].
  - rewrite bool_decide_eq_true_2 by done. rewrite !andb_true_r. by destruct b3, b2.
  - rewrite bool_decide_eq_false_2 by done. by rewrite !andb_false_r.
Qed.

Lemma update_one w d ts T L D O : tribute_rep (w_tribute w) L D O -> snapshots_ok -> day_ok T d (entry (w_md w) d) -> T <= ts ->
  is_open (w_tribute w) d = bool_decide (get_status (w_md w) d = status.OFFERING) ->
  exists w', update_wwd_status_machine w d ts = Ok w' /\ one_moved d ts L D O w w'.
Proof.
  intros R Hs [Hu Hst Hord Hfit Hty Hstat] HT Hop. unfold update_wwd_status_machine. fold (get_status (w_md w) d) in Hstat. unfold moved.
  destruct Hstat as [Hterm|[Htt Hnr]].
  { exists w. split; [destruct Hterm as [-> | ->]; done|]. split; [by split|done|by split_and!|done|unfold moved; by rewrite decide_True|].
    intros d'. destruct (decide (d' = d)) as [->|]; [exact Hop|done]. }
  assert (Hnt : ~ terminal (get_status (w_md w) d)).
  { rewrite Htt. pose proof (timetable_range (entry (w_md w) d) T). unfold terminal, status.COMPLETED, status.FAILED. lia. }
  assert (Hlt : 0 <= get_status (w_md w) d <= 3).
  { rewrite Htt in *. pose proof (timetable_range (entry (w_md w) d) T). unfold status.READY in Hnr. lia. }
  pose proof (timetable_mono (entry (w_md w) d) T ts ltac:(lia) ltac:(lia) HT) as Hmono. rewrite <- Htt in Hmono.
  rewrite (proj2 (Z.eqb_neq _ status.IN_PROGRESS)), (proj2 (Z.eqb_neq _ status.COMPLETED)), (proj2 (Z.eqb_neq _ status.FAILED)), (proj2 (Z.eqb_neq _ status.READY))
    by (unfold status.IN_PROGRESS, status.COMPLETED, status.FAILED, status.READY; lia). cbn [orb].
  destruct (update_status_spec (w_md w) d ts Hnt) as (c' & -> & Etimes & Estat & Etype & Hc').
  assert (F0 : frame d w (set_md w c')) by (destruct Hc' as [-> | ->]; [by split|apply frame_wr]).
  assert (Hwin : 0 < forming_start (entry c' d) /\ forming_start (entry c' d) + 86400 <= forming_end (entry c' d) < 2 ^ 64 - 2 ^ 32) by (destruct Etimes as (-> & -> & _); lia). destruct Hwin as [Hwin Hfit'].
  assert (Hmv : moved (entry (w_md w) d) ts = timetable (entry (w_md w) d) ts) by (unfold moved; by rewrite decide_False).
  set (s0 := get_status (w_md w) d) in *. set (s1 := timetable (entry (w_md w) d) ts) in *.
  destruct (s0 =? status.OFFERING) eqn:E0; cbn [andb].
  - destruct (s1 =? status.OFFERING) eqn:E1.
    + eexists. split; [done|]. split; [eapply frame_trans; [exact F0|apply frame_ext]|exact R|exact Etimes|cbn [w_md set_md set_ext]; by rewrite Etype|by rewrite Hmv|].
      intros d'. cbn [w_md set_md set_ext]. rewrite Estat. destruct (decide (d' = d)) as [->|]; [|done]. bools. unfold w_tribute in *. cbn [w_lysis set_md set_ext]. rewrite Hop, E0, E1. by rewrite !bool_decide_eq_true_2.
    + rewrite (proj2 (Z.eqb_neq s1 s0)) by (bools; lia). bools.
      destruct (move_tail (set_md w c') d ((s0 =? status.FORMING) && negb (s1 =? status.FORMING)) ((s0 <? status.OFFERING) && false) true L D O R Hs Hwin Hfit') as (w' & E & F & R' & Et & Est & Ety & Ho).
      exists w'. split; [exact E|].
      split; [by eapply frame_trans|done|by eapply same_times_trans|apply Ety; cbn [w_md set_md]; by rewrite Etype|by rewrite Est, Hmv|]. intros d'. rewrite Ho, Est. cbn [w_md set_md]. rewrite Estat.
      destruct (decide (d' = d)); [by rewrite bool_decide_eq_false_2|done].
  - destruct (s1 =? s0) eqn:E1.
    { bools. eexists. split; [done|]. split; [exact F0|exact R|exact Etimes|cbn [w_md set_md]; by rewrite Etype|by rewrite Hmv|]. intros d'. cbn [w_md set_md]. rewrite Estat, E1.
      destruct (decide (d' = d)) as [->|]; [exact Hop|done]. }
    destruct (move_tail (set_md w c') d ((s0 =? status.FORMING) && negb (s1 =? status.FORMING)) ((s0 <? status.OFFERING) && (s1 =? status.OFFERING)) false L D O R Hs Hwin Hfit') as (w' & E & F & R' & Et & Est & Ety & Ho).
    exists w'. split; [exact E|]. split; [by eapply frame_trans|done|by eapply same_times_trans|apply Ety; cbn [w_md set_md]; by rewrite Etype|by rewrite Est, Hmv|]. intros d'. rewrite Ho, Est. cbn [w_md set_md]. rewrite Estat.
    destruct (decide (d' = d)) as [->|]; [|done]. change (w_tribute (set_md w c')) with (w_tribute w). rewrite Hop. bools. rewrite (bool_decide_eq_false_2 (s0 = status.OFFERING)) by done.
    destruct (s1 =? status.OFFERING) eqn:E2; bools; [|by rewrite andb_false_r, bool_decide_eq_false_2]. rewrite E2, bool_decide_eq_true_2, (proj2 (Z.ltb_lt _ _)) by (done || lia). done.
Qed.

(** ** The loop over the active days *)

Record all_moved (l : list Z) (ts : u64) (L : list TributeData) (D O : Z -> list Z) (w w' : World X) : Prop := {
  am_active : active_wwds (w_md w') = active_wwds (w_md w);
  am_limits : day_limit_amount (w_md w') = day_limit_amount (w_md w) /\ day_limit_exists (w_md w') = day_limit_exists (w_md w);
  am_nods : lw_nod (w_lysis w') = lw_nod (w_lysis w) /\ lw_fidelity (w_lysis w') = lw_fidelity (w_lysis w);
  am_promis : w_promis w' = w_promis w;
  am_rep : tribute_rep (w_tribute w') L D O;
  am_others : forall d, d ∉ l -> worldwide_days (w_md w') !! d = worldwide_days (w_md w) !! d /\ is_open (w_tribute w') d = is_open (w_tribute w) d;
  am_days : forall d, d ∈ l -> same_times (entry (w_md w) d) (entry (w_md w') d) /\ 0 <= wwd_type (entry (w_md w') d) <= 2 /\
    get_status (w_md w') d = moved (entry (w_md w) d) ts /\ is_open (w_tribute w') d = bool_decide (get_status (w_md w') d = status.OFFERING)
}.

Lemma entry_lookup c c' d : worldwide_days c' !! d = worldwide_days c !! d -> entry c' d = entry c d.
Proof. intros E. unfold entry, rd. by rewrite E. Qed.

Lemma update_all l : forall w ts T L D O, tribute_rep (w_tribute w) L D O -> snapshots_ok -> T <= ts -> NoDup l ->
  (forall d, d ∈ l -> day_ok T d (entry (w_md w) d) /\ is_open (w_tribute w) d = bool_decide (get_status (w_md w) d = status.OFFERING)) ->
  exists w', foldM (fun w d => update_wwd_status_machine w d ts) w l = Ok w' /\ all_moved l ts L D O w w'.
Proof.
  induction l as [|d l IH]; intros w ts T L D O R Hs HT Hn Hd.
  { exists w. split; [done|]. split; try done. intros d Hin. by apply not_elem_of_nil in Hin. }
  apply NoDup_cons in Hn as [Hnd Hn]. destruct (Hd d ltac:(left)) as [Hd1 Hd2].
  destruct (update_one w d ts T L D O R Hs Hd1 HT Hd2) as (w1 & E1 & [[F1 F2 F3 F4 F5] R1 T1 Y1 S1 O1]).
  assert (Heq : forall d', d' ∈ l -> entry (w_md w1) d' = entry (w_md w) d' /\ is_open (w_tribute w1) d' = is_open (w_tribute w) d').
  { intros d' Hin. assert (d' <> d) by (by intros ->). split; [by apply entry_lookup, F3|]. rewrite O1. by rewrite decide_False. }
  destruct (IH w1 ts T L D O R1 Hs HT Hn) as (w2 & E2 & [G1 G2 G3 G4 G5 G6 G7]).
  { intros d' Hin. destruct (Heq d' Hin) as [Ee Eo]. assert (Es : get_status (w_md w1) d' = get_status (w_md w) d') by (unfold get_status; by rewrite Ee).
    rewrite Ee, Eo, Es. apply Hd. by right. }
  exists w2. cbn [foldM]. rewrite E1. split; [done|]. destruct F2, F4, G2, G3. split; try congruence; try by (split; congruence).
  - intros d' Hin. apply not_elem_of_cons in Hin as [Hne Hin]. destruct (G6 d' Hin) as [-> ->]. rewrite F3 by done. rewrite O1. by rewrite decide_False.
  - intros d' Hin. apply elem_of_cons in Hin as [->|Hin].
    + destruct (G6 d Hnd) as [Gl Go]. rewrite Go. assert (Ee : entry (w_md w2) d = entry (w_md w1) d) by (by apply entry_lookup).
      assert (Es : get_status (w_md w2) d = get_status (w_md w1) d) by (unfold get_status; by rewrite Ee).
      rewrite Es, Ee. split_and!; try done; try apply Y1. rewrite O1. by rewrite decide_True.
    + destruct (Heq d' Hin) as [Ee Eo]. destruct (G7 d' Hin) as (K1 & K2 & K3 & K4). rewrite Ee in K1, K3. done.
Qed.

(** ** The loop over the ready days *)

Record processed (d : u32) (O : Z -> list Z) (w w' : World X) : Prop := {
  pr_active : active_wwds (w_md w') = active_wwds (w_md w);
  pr_others : forall d', d' <> d -> worldwide_days (w_md w') !! d' = worldwide_days (w_md w) !! d';
  pr_day : same_times (entry (w_md w) d) (entry (w_md w') d) /\ wwd_type (entry (w_md w') d) = wwd_type (entry (w_md w) d) /\ terminal (get_status (w_md w') d);
  pr_limits : day_limit_amount (w_md w') = day_limit_amount (w_md w) /\ day_limit_exists (w_md w') = day_limit_exists (w_md w);
  pr_open : forall d', is_open (w_tribute w') d' = is_open (w_tribute w) d';
  pr_rep : exists L D, tribute_rep (w_tribute w') L D O
}.

(** Closing the day changes its status and nothing else of it. *)
Lemma close_day (w w1 : World X) d s (used : bool) O : terminal s -> w_md w1 = w_md w -> (exists L D, tribute_rep (w_tribute w1) L D O) ->
  (forall d', is_open (w_tribute w1) d' = is_open (w_tribute w) d') ->
  let c := set_status (w_md w) d s in processed d O w (set_md w1 (if used then mark_day_limit_used c d else c)).
Proof.
  intros Ht Ew R Ho c.
  assert (Hd : worldwide_days (w_md (set_md w1 (if used then mark_day_limit_used c d else c))) = <[d := let e := entry (w_md w) d in {| e with wwd_status := s |}]> (worldwide_days (w_md w))) by (by destruct used).
  assert (Ee : entry (w_md (set_md w1 (if used then mark_day_limit_used c d else c))) d = let e := entry (w_md w) d in {| e with wwd_status := s |}).
  { unfold entry at 1. rewrite Hd. apply rd_insert_eq. }
  split; try done; try (by destruct used).
  - intros d' Hne. rewrite Hd. by rewrite lookup_insert_ne.
  - unfold get_status. rewrite Ee. by split_and!.
Qed.

Lemma process_total w now d L D O : tribute_rep (w_tribute w) L D O -> is_u32 d -> get_status (w_md w) d = status.READY -> 0 <= wwd_type (entry (w_md w) d) <= 2 ->
  exists w' back, process_metadosis w now d = Ok (w', back) /\ processed d O w w'.
Proof.
  intros R Hd Hst Hty. assert (Rw : exists L D, tribute_rep (w_tribute w) L D O) by eauto. unfold process_metadosis, mark_failed, mark_completed. cbn [w_md].
  assert (Hf : terminal status.FAILED) by (by right). assert (Hc : terminal status.COMPLETED) by (by left).
  rewrite Hst. cbn [Z.eqb negb status.READY status.COMPLETED Pos.eqb].
  destruct (has_day_limit _ _); cbn [negb]; [|do 2 eexists; split; [done|]; exact (close_day w w d _ false O Hf eq_refl Rw ltac:(done))]. cbv zeta.
  destruct (get_day_limit _ _ =? 0); [do 2 eexists; split; [done|]; exact (close_day w w d _ true O Hf eq_refl Rw ltac:(done))|].
  destruct (get_day_type _ _ =? day_type.UNKNOWN) eqn:Eu; [do 2 eexists; split; [done|]; exact (close_day w w d _ true O Hf eq_refl Rw ltac:(done))|].
  destruct (tribute_count _ =? 0); [do 2 eexists; split; [done|]; exact (close_day w w d _ true O Hc eq_refl Rw ltac:(done))|].
  assert (Hcalc : exists calc, calculate_metadosis (w_md w) d (tribute_nominal_amount (get_day_totals (w_tribute w) d)) (get_day_limit (w_md w) d) = Ok calc).
  { unfold calculate_metadosis. bools. unfold get_day_type, day_type.UNKNOWN in Eu. unfold get_day_type. cbv zeta.
    assert (Hor : wwd_type (entry (w_md w) d) = day_type.GREEN \/ wwd_type (entry (w_md w) d) = day_type.RED) by (unfold day_type.GREEN, day_type.RED; lia).
    destruct Hor as [-> | ->]; eexists; done. }
  destruct Hcalc as (calc & ->).
  destruct (@lysis_tributes _ _ (prices (w_ext w)) (w_lysis w) now d (day_gratis_allocation calc) L D O R Hd) as (L' & D' & R' & Ho').
  destruct (lysis _ _ _ _) as [ly [r|er]] eqn:El; cbn [fst] in R', Ho'.
  - destruct (get_day_type _ _ =? day_type.GREEN).
    + destruct (dispatch_stage_clearing _ _ _ _) as [[x promis] del]. cbn [w_md]. rewrite Hst. cbn [Z.eqb status.READY Pos.eqb]. do 2 eexists. split; [done|].
      by apply (close_day w (mkWorld (w_md w) ly promis x) d _ true O Hc); [|eauto|].
    + cbn [w_md]. rewrite Hst. cbn [Z.eqb status.READY Pos.eqb]. do 2 eexists. split; [done|]. by apply (close_day w (mkWorld (w_md w) ly (w_promis w) (w_ext w)) d _ true O Hc); [|eauto|].
  - do 2 eexists. split; [done|]. by apply (close_day w (mkWorld (w_md w) ly (w_promis w) (w_ext w)) d _ true O Hf); [|eauto|].
Qed.

Record all_processed (l : list Z) (O : Z -> list Z) (w w' : World X) : Prop := {
  ap_active : active_wwds (w_md w') = active_wwds (w_md w);
  ap_others : forall d, d ∉ l -> worldwide_days (w_md w') !! d = worldwide_days (w_md w) !! d;
  ap_days : forall d, d ∈ l -> same_times (entry (w_md w) d) (entry (w_md w') d) /\ wwd_type (entry (w_md w') d) = wwd_type (entry (w_md w) d) /\
    if decide (get_status (w_md w) d = status.READY) then terminal (get_status (w_md w') d) else get_status (w_md w') d = get_status (w_md w) d;
  ap_limits : day_limit_amount (w_md w') = day_limit_amount (w_md w) /\ day_limit_exists (w_md w') = day_limit_exists (w_md w);
  ap_open : forall d, is_open (w_tribute w') d = is_open (w_tribute w) d;
  ap_rep : exists L D, tribute_rep (w_tribute w') L D O
}.

Lemma process_all l : forall w now total O, (exists L D, tribute_rep (w_tribute w) L D O) -> NoDup l ->
  (forall d, d ∈ l -> is_u32 d /\ 0 <= wwd_type (entry (w_md w) d) <= 2) ->
  exists w' total', foldM (process_ready now) (w, total) l = Ok (w', total') /\ all_processed l O w w'.
Proof.
  induction l as [|d l IH]; intros w now total O R Hn Hd.
  { exists w, total. split; [done|]. split; try done. intros d Hin. by apply not_elem_of_nil in Hin. }
  apply NoDup_cons in Hn as [Hnd Hn]. destruct (Hd d ltac:(left)) as [Hd1 Hd2]. cbn [foldM]. unfold process_ready at 1.
  assert (Hstep : exists w1 t1, (if get_status (w_md w) d =? status.READY then
      let? (w0, unallocated) := process_metadosis w now d in Ok (w0, wadd 256 total unallocated) else Ok (w, total)) = Ok (w1, t1) /\ all_processed [d] O w w1).
  { destruct (_ =? _) eqn:Er; bools.
    - destruct R as (L & D & R). destruct (process_total w now d L D O R Hd1 Er Hd2) as (w1 & b & E & [P1 P2 (P3 & P4 & P5) P6 P7 P8]). rewrite E. do 2 eexists. split; [done|].
      split; try done; [intros d' Hin; apply P2; intros ->; apply Hin; by left|]. intros d' Hin. apply list_elem_of_singleton in Hin as ->. by rewrite decide_True.
    - do 2 eexists. split; [done|]. split; try done. intros d' Hin. apply list_elem_of_singleton in Hin as ->. split_and!; try done. by rewrite decide_False. }
  destruct Hstep as (w1 & t1 & -> & [Q1 Q2 Q3 [Q4 Q4'] Q5 Q6]).
  assert (Heq : forall d', d' ∈ l -> entry (w_md w1) d' = entry (w_md w) d').
  { intros d' Hin. apply entry_lookup, Q2. intros Hs. apply list_elem_of_singleton in Hs. by subst. }
  destruct (IH w1 now t1 O Q6 Hn) as (w2 & t2 & E2 & [G1 G2 G3 [G4 G4'] G5 G6]); [intros d' Hin; rewrite (Heq d' Hin); apply Hd; by right|].
  exists w2, t2. split; [done|]. split; try congruence; try by (split; congruence).
  - intros d' Hin. apply not_elem_of_cons in Hin as [Hne Hin]. rewrite G2, Q2; [done| |done]. by intros Hs%list_elem_of_singleton.
  - intros d' Hin. apply elem_of_cons in Hin as [->|Hin].
    + assert (Ee : entry (w_md w2) d = entry (w_md w1) d) by (apply entry_lookup; by apply G2).
      assert (Es : get_status (w_md w2) d = get_status (w_md w1) d) by (unfold get_status; by rewrite Ee). rewrite Ee, Es. apply Q3. left.
    + assert (Es : get_status (w_md w1) d' = get_status (w_md w) d') by (unfold get_status; by rewrite (Heq d' Hin)).
      destruct (G3 d' Hin) as (K1 & K2 & K3). rewrite (Heq d' Hin) in K1, K2. rewrite Es in K3. done.
Qed.

(** ** The new day *)

Lemma absent_entry c d : worldwide_days c !! d = None -> entry c d = zeroed_day.
Proof. intros E. unfold entry, rd. by rewrite E. Qed.

Lemma new_day_ok (blk : BlockContext) T d start : is_u32 d -> 0 < start < 2 ^ 63 -> T < start + 50 * 3600 ->
  let '(lookback, offering) := effective_hours (bk_chain_id blk) in
  forall c c', create_worldwide_day c d start lookback offering = Ok c' -> day_ok T d (entry c' d) /\ get_status c' d = status.FORMING /\ forming_start (entry c' d) = start.
Proof.
  intros Hd Hs HT. destruct (effective_hours (bk_chain_id blk)) as [lb off] eqn:Eh. intros c c' E.
  assert (Hb : 0 <= lb <= 502 /\ 0 <= off <= 50).
  { unfold effective_hours in Eh. destruct (_ || _); injection Eh as <- <-;
      unfold BOOTSTRAP_LOOKBACK_DELAY_HOURS, BOOTSTRAP_OFFERING_PERIOD_HOURS, DEFAULT_LOOKBACK_DELAY_HOURS, DEFAULT_OFFERING_PERIOD_HOURS; lia. }
  unfold create_worldwide_day in E. cbv zeta in E. unfold FORMING_PERIOD_HOURS, WAITING_PERIOD_HOURS, SECONDS_PER_HOUR in E.
  rewrite !wmul_small, !wadd_small in E by lia. destruct (rcreate _ _) as [m|] eqn:Em; [|done]. apply Ok_inj in E. subst c'.
  unfold rcreate in Em. destruct (rexists _ _); [done|]. apply Ok_inj in Em. subst m. unfold get_status, entry. cbn [worldwide_days set_worldwide_days rec_key day_record wwd].
  rewrite rd_insert_eq. split; [|by split]. split; cbn [forming_start forming_end lookback_end offering_end scheduled_process_time wwd_type wwd_status];
    [done|lia|lia|lia|unfold day_type.UNKNOWN; lia|].
  right. split; [|done]. unfold timetable. cbn [forming_end]. by rewrite (proj2 (Z.ltb_lt _ _)) by lia.
Qed.

Lemma create_spec w (blk : BlockContext) T ts A L D O d : days_ok T (w_md w) (is_open (w_tribute w)) A -> tribute_rep (w_tribute w) L D O ->
  is_u32 d -> 0 < WorldwideDay.start_timestamp d < 2 ^ 63 -> T <= ts < WorldwideDay.start_timestamp d + 50 * 3600 -> Z.of_nat (length A) < 2 ^ 32 - 1 ->
  exists w' A', create_worldwide_day_for_date w blk d = Ok w' /\ days_ok T (w_md w') (is_open (w_tribute w')) A' /\ tribute_rep (w_tribute w') L D O /\
    (d ∈ A' /\ (forall d', d' ∈ A -> d' ∈ A' /\ entry (w_md w') d' = entry (w_md w) d') /\
     (forall d', d' ∈ A' -> d' ∈ A \/ (d' = d /\ get_status (w_md w') d = status.FORMING /\ timetable (entry (w_md w') d) ts = status.FORMING))) /\ (on_calendar (w_md w) A -> on_calendar (w_md w') A') /\ w_promis w' = w_promis w /\
    day_limit_amount (w_md w') = day_limit_amount (w_md w) /\ day_limit_exists (w_md w') = day_limit_exists (w_md w).
Proof.
  intros [K1 K2 K3 K4 K5] R Hd Hs HT Hlen. unfold create_worldwide_day_for_date. destruct (decide (d ∈ A)) as [Hin|Hout].
  { pose proof (K4 d Hin) as [_ Hst _ _ _ _]. rewrite (proj2 (Z.eqb_neq _ 0)) by lia. cbn [negb]. exists w, A. split; [done|]. split; [by split|]. split; [done|].
    split_and!; try done. intros d' Hd'. by left. }
  pose proof (K3 d Hout) as Habs. rewrite (absent_entry _ _ Habs). cbn [negb Z.eqb forming_start zeroed_day].
  pose proof (new_day_ok blk T d (WorldwideDay.start_timestamp d) Hd Hs ltac:(lia)) as Hnew.
  pose proof (new_day_ok blk ts d (WorldwideDay.start_timestamp d) Hd Hs ltac:(lia)) as Hnew'. destruct (effective_hours (bk_chain_id blk)) as [lb off].
  assert (Ec : exists e, create_worldwide_day (w_md w) d (WorldwideDay.start_timestamp d) lb off = Ok (wr_entry (w_md w) d e)).
  { unfold create_worldwide_day. cbv zeta. eexists. rewrite rcreate_Ok; [done|]. cbn [rec_key day_record wwd]. unfold rget. by rewrite Habs. }
  destruct Ec as (e & Ec). rewrite Ec. cbv zeta. destruct (Hnew _ _ Ec) as (Hok & Hform & Hfs). destruct (Hnew' _ _ Ec) as [Hok' _].
  assert (Htt : timetable (entry (wr_entry (w_md w) d e) d) ts = status.FORMING).
  { destruct (do_status _ _ _ Hok') as [Ht|[<- _]]; [|exact Hform]. unfold get_status in Hform. rewrite Hform in Ht. by destruct Ht. }
  set (w1 := set_md w (add_active_wwd (wr_entry (w_md w) d e) d)).
  assert (R1 : tribute_rep (w_tribute w1) L D O) by done. destruct (set_sealed_world w1 L D O d true R1) as (t & Et & R2 & Ho). unfold seal_day. rewrite Et.
  assert (Eo : forall d', d' ∈ A -> entry (w_md (set_tribute w1 t)) d' = entry (w_md w) d').
  { intros d' Hd'. apply entry_lookup. cbn. apply lookup_insert_ne. by intros <-. }
  exists (set_tribute w1 t), (A ++ [d]). split; [done|]. split; [|split; [exact R2|]].
  - split.
    + cbn. apply vec_rep_push; [done|]. destruct K1 as (-> & _ & _). lia.
    + apply NoDup_app. split_and!; [done| |apply NoDup_singleton]. intros x Hx Hx'. apply list_elem_of_singleton in Hx'. by subst.
    + intros d' Hd'. rewrite elem_of_app, list_elem_of_singleton in Hd'. cbn. rewrite lookup_insert_ne by (intros <-; tauto). apply K3. tauto.
    + intros d' Hd'. rewrite elem_of_app, list_elem_of_singleton in Hd'. destruct Hd' as [Hd'| ->]; [rewrite (Eo d' Hd'); by apply K4|exact Hok].
    + intros d'. rewrite Ho. destruct (decide (d' = d)) as [->|Hne].
      * rewrite bool_decide_eq_false_2; [done|]. intros [_ Hst]. change (get_status (wr_entry (w_md w) d e) d = status.OFFERING) in Hst. by rewrite Hform in Hst.
      * change (w_tribute w1) with (w_tribute w). rewrite K5. apply bool_decide_ext. rewrite elem_of_app, list_elem_of_singleton.
        assert (Es : get_status (w_md (set_tribute w1 t)) d' = get_status (w_md w) d'); [|rewrite Es; tauto].
        unfold get_status, entry, rd. cbn. by rewrite lookup_insert_ne by done.
  - split; [|split; [|done]].
    + split; [apply elem_of_app; right; by left|]. split; [intros d' Hd'; split; [apply elem_of_app; by left|by apply Eo]|].
      intros d' Hd'. apply elem_of_app in Hd' as [?|Hd']; [by left|]. apply list_elem_of_singleton in Hd' as ->. right. split; [done|]. split; [exact Hform|exact Htt].
    + intros Hc d' Hd'. apply elem_of_app in Hd' as [Hd'|Hd']; [rewrite (Eo d' Hd'); by apply Hc|]. apply list_elem_of_singleton in Hd' as ->. exact Hfs.
Qed.

(** ** Dropping old days *)

Definition RETENTION_SECONDS : Z := COMPLETED_WWD_RETENTION_DAYS * 24 * 3600.
Definition expired (c : MetadosisContract) (ts : u64) (d : u32) : Prop :=
  terminal (get_status c d) /\ RETENTION_SECONDS < ts - scheduled_process_time (entry c d).

Record cleaned (c c' : MetadosisContract) (ts : u64) (A A' l : list Z) : Prop := {
  cl_active : vec_rep (active_wwds c') A';
  cl_nodup : NoDup A';
  cl_absent : forall d, d ∉ A' -> worldwide_days c' !! d = None;
  cl_kept : forall d, d ∈ A' -> d ∈ A /\ worldwide_days c' !! d = worldwide_days c !! d;
  cl_gone : forall d, d ∈ A -> d ∉ A' -> d ∈ l /\ expired c ts d;
  cl_limits : day_limit_amount c' = day_limit_amount c /\ day_limit_exists c' = day_limit_exists c
}.

Lemma cleanup_one_spec c A ts d : vec_rep (active_wwds c) A -> NoDup A -> (forall d, d ∉ A -> worldwide_days c !! d = None) -> d ∈ A ->
  exists A', cleaned c (cleanup_one ts c d) ts A A' [d].
Proof.
  intros R Hn Habs Hin. unfold cleanup_one. cbv zeta.
  assert (Hstay : exists A', cleaned c c ts A A' [d]) by (exists A; split; try done; intros x Hx Hno; by destruct Hno). destruct (negb _ && negb _) eqn:Es; [done|].
  destruct ((_ >? _) && _) eqn:Ee; [|exact Hstay]. apply andb_true_iff in Ee as [Ee1 Ee2]. bools. destruct (remove_date_rep _ _ _ R Hin) as (A' & R' & Hp).
  assert (Hin' : forall x, x ∈ A <-> x = d \/ x ∈ A') by (intros x; rewrite Hp, elem_of_cons; done). rewrite Hp in Hn. apply NoDup_cons in Hn as [Hd Hn].
  exists A'. split; [exact R'|done| | | |done].
  - intros x Hx. cbn. unfold rdelete. destruct (decide (x = d)) as [->|Hne]; [by rewrite lookup_delete_eq|]. rewrite lookup_delete_ne by done. apply Habs. rewrite Hin'. tauto.
  - intros x Hx. split; [rewrite Hin'; tauto|]. cbn. unfold rdelete. rewrite lookup_delete_ne; [done|]. by intros <-.
  - intros x Hx Hnx. apply Hin' in Hx as [->|]; [|done]. split; [by left|]. split; [|unfold RETENTION_SECONDS, saturating_sub, COMPLETED_WWD_RETENTION_DAYS in *; lia].
    apply andb_false_iff in Es as [Es|Es]; bools; [by left|by right].
Qed.

Lemma cleanup_days_spec l : forall c A ts, vec_rep (active_wwds c) A -> NoDup A -> (forall d, d ∉ A -> worldwide_days c !! d = None) -> NoDup l -> (forall d, d ∈ l -> d ∈ A) ->
  exists A', cleaned c (foldl (cleanup_one ts) c l) ts A A' l.
Proof.
  induction l as [|d l IH]; intros c A ts R Hn Habs Hl Hsub.
  { exists A. by split. }
  apply NoDup_cons in Hl as [Hdl Hl]. destruct (cleanup_one_spec c A ts d R Hn Habs) as (A1 & [C1 C2 C3 C4 C5 [C6 C6']]); [apply Hsub; left|].
  assert (Hs1 : forall x, x ∈ l -> x ∈ A1).
  { intros x Hx. destruct (decide (x ∈ A1)) as [|Hno]; [done|]. destruct (C5 x) as [Hd _]; [apply Hsub; by right|done|]. apply list_elem_of_singleton in Hd. by subst. }
  destruct (IH _ A1 ts C1 C2 C3 Hl Hs1) as (A2 & [G1 G2 G3 G4 G5 [G6 G6']]). exists A2. cbn [foldl]. split; try done; [| |by split; congruence].
  - intros x Hx. destruct (G4 x Hx) as [Hx1 ->]. by apply C4.
  - intros x Hx Hnx. destruct (decide (x ∈ A1)) as [Hx1|Hx1].
    + destruct (G5 x Hx1 Hnx) as [Hxl [He1 He2]]. split; [by right|]. destruct (C4 x Hx1) as [_ El]. unfold expired, get_status in *. rewrite (entry_lookup _ _ _ El) in He1, He2. done.
    + destruct (C5 x Hx Hx1) as [Hxd He]. apply list_elem_of_singleton in Hxd as ->. split; [by left|done].
Qed.

(** ** A run *)

Lemma from_timestamp_u32 ts : is_u32 (WorldwideDay.from_timestamp ts).
Proof. unfold is_u32, WorldwideDay.from_timestamp, timestamp_to_date_key, civil_date_from_days. cbv zeta. apply Z.mod_pos_bound. lia. Qed.

(** The status after a run, from the one the timetable gave in it. *)
Definition settled (s s' : Z) : Prop := if decide (s = status.READY) then terminal s' else s' = s.

Lemma moved_settled T ts d e e' : day_ok T d e -> same_times e e' -> 0 <= wwd_type e' <= 2 -> settled (moved e ts) (wwd_status e') -> day_ok ts d e'.
Proof.
  intros [Hu Hs Ho Hfit Hty Hst] Ht Hty' Hset. pose proof (timetable_same _ _ ts Ht) as Ett. destruct Ht as (E1 & E2 & E3 & E4 & E5). split; [done|lia|lia|lia|done|].
  unfold settled, moved in Hset. destruct (decide (terminal (wwd_status e))) as [Hterm|Hnt].
  - rewrite decide_False in Hset by (destruct Hterm as [-> | ->]; done). left. by rewrite Hset.
  - destruct (decide (timetable e ts = status.READY)) as [Hr|Hr]; [by left|]. right. rewrite Ett. split; [done|]. by rewrite Hset.
Qed.

Record run_done (ts : u64) (A A' : list Z) (O : Z -> list Z) (w w' : World X) : Prop := {
  ru_days : days_ok ts (w_md w') (is_open (w_tribute w')) A';
  ru_rep : exists L D, tribute_rep (w_tribute w') L D O;
  ru_moved : forall d, d ∈ A' -> d ∈ A -> settled (moved (entry (w_md w) d) ts) (get_status (w_md w') d);
  ru_new : forall d, d ∈ A' -> d ∉ A -> d = WorldwideDay.from_timestamp ts /\ get_status (w_md w') d = status.FORMING;
  ru_gone : forall d, d ∈ A -> d ∉ A' -> RETENTION_SECONDS < ts - scheduled_process_time (entry (w_md w) d);
  ru_today : WorldwideDay.from_timestamp ts ∈ A';
  ru_calendar : on_calendar (w_md w') A'
}.

(** From the states of the three loops to the state between runs. *)
Lemma assemble ts T A A1 A2 O L D w w1 w2 w3 c4 (d0 := WorldwideDay.from_timestamp ts) :
  days_ok T (w_md w1) (is_open (w_tribute w1)) A1 -> on_calendar (w_md w1) A1 -> d0 ∈ A1 -> ts < WorldwideDay.start_timestamp d0 + SECONDS_PER_DAY ->
  (forall d', d' ∈ A -> d' ∈ A1 /\ entry (w_md w1) d' = entry (w_md w) d') ->
  (forall d', d' ∈ A1 -> d' ∈ A \/ (d' = d0 /\ get_status (w_md w1) d0 = status.FORMING /\ timetable (entry (w_md w1) d0) ts = status.FORMING)) ->
  all_moved A1 ts L D O w1 w2 -> all_processed A1 O w2 w3 -> cleaned (w_md w3) c4 ts A1 A2 A1 ->
  forall w4, w_md w4 = c4 -> w_lysis w4 = w_lysis w3 -> run_done ts A A2 O w w4.
Proof.
  intros [K1 K2 K3 K4 K5] Hcal Htoday Hday HA1 HA2 [M1 M2 M3 M4 M5 M6 M7] [P1 P2 P3 P4 P5 P6] [C1 C2 C3 C4 C5 C6] w4 E4 El4.
  assert (Hset : forall d, d ∈ A1 -> same_times (entry (w_md w1) d) (entry (w_md w3) d) /\ 0 <= wwd_type (entry (w_md w3) d) <= 2 /\
    settled (moved (entry (w_md w1) d) ts) (get_status (w_md w3) d)).
  { intros d Hd. destruct (M7 d Hd) as (T1 & Y1 & S1 & _). destruct (P3 d Hd) as (T2 & Y2 & S2). split; [by eapply same_times_trans|]. split; [by rewrite Y2|].
    unfold settled. rewrite S1 in S2. done. }
  assert (Hent : forall d, d ∈ A2 -> d ∈ A1 /\ entry (w_md w4) d = entry (w_md w3) d).
  { intros d Hd. destruct (C4 d Hd) as [? Hl]. split; [done|]. rewrite E4. by apply entry_lookup. }
  assert (Hst : forall d, d ∈ A2 -> get_status (w_md w4) d = get_status (w_md w3) d) by (intros d Hd; unfold get_status; f_equal; by apply Hent).
  split; [split|..].
  - by rewrite E4.
  - done.
  - intros d Hd. rewrite E4. by apply C3.
  - intros d Hd. destruct (Hent d Hd) as [H1d ->]. destruct (Hset d H1d) as (Ht & Hy & Hs). by eapply moved_settled; [apply K4| | |].
  - intros d. unfold w_tribute. rewrite El4. fold (w_tribute w3). rewrite P5. destruct (decide (d ∈ A1)) as [Hd1|Hd1].
    + destruct (M7 d Hd1) as (_ & _ & _ & ->). destruct (P3 d Hd1) as (_ & _ & S2). destruct (decide (d ∈ A2)) as [Hd2|Hd2].
      * rewrite (Hst d Hd2). apply bool_decide_ext. destruct (decide (get_status (w_md w2) d = status.READY)) as [Hr|Hr]; [|rewrite S2; tauto].
        rewrite Hr. split; [done|]. intros [_ Ho]. rewrite Ho in S2. by destruct S2.
      * rewrite (bool_decide_eq_false_2 (d ∈ A2 /\ _)) by tauto. apply bool_decide_eq_false_2. intros Ho. destruct (C5 d Hd1 Hd2) as [_ [Ht _]].
        rewrite decide_False in S2 by (by rewrite Ho). rewrite S2, Ho in Ht. by destruct Ht.
    + destruct (M6 d Hd1) as [_ ->]. rewrite K5, !bool_decide_eq_false_2; [done| |tauto]. intros [Hd2 _]. by apply Hent in Hd2 as [? _].
  - unfold w_tribute. by rewrite El4.
  - intros d Hd HdA. destruct (HA1 d HdA) as [H1d Ee]. rewrite (Hst d Hd), <- Ee. by apply Hset.
  - intros d Hd HdA. destruct (Hent d Hd) as [H1d _]. destruct (HA2 d H1d) as [?|(-> & Hf & Htt)]; [done|]. split; [done|]. rewrite (Hst _ Hd).
    destruct (Hset _ H1d) as (_ & _ & Hs). unfold moved in Hs. fold (get_status (w_md w1) d0) in Hs. rewrite decide_False in Hs by (rewrite Hf; by intros []).
    rewrite Htt in Hs. exact Hs.
  - intros d HdA Hd. destruct (HA1 d HdA) as [H1d Ee]. destruct (C5 d H1d Hd) as [_ [_ He]]. destruct (Hset d H1d) as ((_ & _ & _ & _ & Et) & _). rewrite <- Ee, <- Et. exact He.
  - destruct (decide (d0 ∈ A2)) as [|Hno]; [done|exfalso]. destruct (C5 d0 Htoday Hno) as [_ [_ He]]. destruct (Hset d0 Htoday) as ((_ & _ & _ & _ & Et) & _).
    pose proof (do_order _ _ _ (K4 d0 Htoday)) as Ho. rewrite (Hcal d0 Htoday) in Ho. rewrite Et in He.
    unfold RETENTION_SECONDS, COMPLETED_WWD_RETENTION_DAYS, SECONDS_PER_DAY in *. lia.
  - intros d Hd. destruct (Hent d Hd) as [H1d ->]. destruct (Hset d H1d) as ((-> & _) & _). by apply Hcal.
Qed.

(** C18. The daily run keeps every worldwide day on its timetable. After a run at
    time [ts], in a block other than the first, with an oracle that at most lacks
    the data of a window, every listed day that had not ended before has the status its
    timetable gives at [ts], except that a day whose processing time has come has
    been processed in this very run and is completed or failed; a day ended before
    keeps its end. The day of [ts] is on the list afterwards, no other day is added,
    every listed day still starts when its date does, and only days that ended more
    than the retention period ago are dropped. The tributes of a day are open
    exactly while the day is offering. The run can only fail on an overflow of the
    unallocated limit. *)
Theorem daily_run_exact w (blk : BlockContext) T A L D O :
  let ts := bk_timestamp blk in
  days_ok T (w_md w) (is_open (w_tribute w)) A -> on_calendar (w_md w) A -> tribute_rep (w_tribute w) L D O -> snapshots_ok -> bk_number blk <> 1 ->
  T <= ts -> 2 * SECONDS_PER_DAY <= ts -> ts + UTC_PLUS_14_OFFSET < Calendar.horizon * SECONDS_PER_DAY -> Z.of_nat (length A) < 2 ^ 32 - 1 ->
  match start_metadosis w blk with
  | Ok w' => exists A', run_done ts A A' O w w'
  | Err e => e = Revert "promislimit total_unallocated overflow"
  end.
Proof.
  intros ts K Hc R Hs Hb HT Hts Hh Hlen. unfold start_metadosis. fold ts. cbv zeta. rewrite (proj2 (Z.eqb_neq _ 1) Hb).
  assert (Hw : let start := WorldwideDay.start_timestamp (WorldwideDay.from_timestamp ts) in start <= ts < start + SECONDS_PER_DAY).
  { apply worldwide_day_window; [unfold SECONDS_PER_DAY in *; lia|done]. }
  cbv zeta in Hw. unfold create_worldwide_day_if_needed. fold ts.
  destruct (create_spec w blk T ts A L D O (WorldwideDay.from_timestamp ts) K R (from_timestamp_u32 ts)) as (w1 & A1 & E1 & K1 & R1 & (Hin & HA1 & HA2) & Hc1 & _).
  { unfold SECONDS_PER_DAY, Calendar.horizon, UTC_PLUS_14_OFFSET in *. lia. } { unfold SECONDS_PER_DAY in *. lia. } { done. }
  rewrite E1. assert (EA : get_all_active_wwds (w_md w1) = A1) by (apply vec_rep_read_all, (dk_active _ _ _ _ K1)). rewrite EA.
  destruct (update_all A1 w1 ts T L D O R1 Hs HT (dk_nodup _ _ _ _ K1)) as (w2 & E2 & M2).
  { intros d Hd. split; [by apply (dk_days _ _ _ _ K1)|]. rewrite (dk_open _ _ _ _ K1). apply bool_decide_ext. tauto. }
  rewrite E2. assert (EA2 : get_all_active_wwds (w_md w2) = A1) by (unfold get_all_active_wwds; by rewrite (am_active _ _ _ _ _ _ _ M2)). rewrite EA2.
  destruct (process_all A1 w2 ts 0 O) as (w3 & total & E3 & P3).
  { exists L, D. apply (am_rep _ _ _ _ _ _ _ M2). } { apply (dk_nodup _ _ _ _ K1). }
  { intros d Hd. split; [apply (do_u32 _ _ _ (dk_days _ _ _ _ K1 d Hd))|by apply (am_days _ _ _ _ _ _ _ M2)]. }
  rewrite E3. assert (EA3 : vec_rep (active_wwds (w_md w3)) A1) by (rewrite (ap_active _ _ _ _ P3), (am_active _ _ _ _ _ _ _ M2); apply (dk_active _ _ _ _ K1)).
  destruct (cleanup_days_spec A1 (w_md w3) A1 ts EA3 (dk_nodup _ _ _ _ K1)) as (A2 & C4).
  { intros d Hd. rewrite (ap_others _ _ _ _ P3) by done. rewrite (proj1 (am_others _ _ _ _ _ _ _ M2 d Hd)). by apply (dk_absent _ _ _ _ K1). }
  { apply (dk_nodup _ _ _ _ K1). } { done. }
  assert (Hfin : forall w4, w_md w4 = w_md w3 -> w_lysis w4 = w_lysis w3 -> run_done ts A A2 O w (set_md w4 (cleanup_completed_days (w_md w4) ts))).
  { intros w4 Em El. eapply assemble; [exact K1|by apply Hc1|exact Hin|apply Hw|exact HA1|exact HA2|exact M2|exact P3|exact C4| |exact El].
    cbn [w_md set_md]. rewrite Em. unfold cleanup_completed_days, get_all_active_wwds. by rewrite (vec_rep_read_all _ _ EA3). }
  destruct (negb (total =? 0)); [|exists A2; by apply Hfin].
  unfold PromisLimit.add_to_total_unallocated. cbv zeta. destruct (checked_add _ _ _) as [n|]; cbn [ok_or]; [exists A2; by apply Hfin|done].
Qed.
End Run.

(** ** A sample day *)

#[local] Existing Instance sample_crypto.
#[local] Existing Instance sample_keccak.

Definition sample_services : DayServices unit := {|
  prices _ := sample_oracle;
  default_pair_hash := 1;
  pair_hash_to_id _ _ := 1;
  snapshot_vwap _ _ _ := Some 5;
  store_snapshot x _ _ _ := (x, Ok tt);
  dispatch_stage_start x _ _ := (x, true);
  dispatch_stage_reveal x _ _ := (x, true);
  dispatch_stage_clearing x p _ _ := (x, p, true)
|}.
#[local] Existing Instance sample_services.

Definition no_days : MetadosisContract := mkMetadosis 0 ∅ ∅ ∅ (mkVec 0 ∅) 0 ∅ (mkVec 0 ∅).

(** A green day that is ready, with a limit of 800. *)
Definition sample_ready : MetadosisContract :=
  mkMetadosis 0 (<[20250110 := mkDay 20250110 status.READY day_type.GREEN 1 2 3 4 5 0 0]> ∅) (<[20250110 := 800]> ∅) ∅ (mkVec 1 (<[0 := 20250110]> ∅)) 0 (<[20250110 := true]> ∅)
    (mkVec 1 (<[0 := 20250110]> ∅)).

Definition sample_world (t : TributeContract) : World unit := mkWorld sample_ready (sample_lysis t) (PromisLimit.mkLimit 0) tt.

(** The demand of its two tributes of 7 is 32% of 14. *)
Lemma sample_day_pre t o D O : tribute_rep t (sample_day o) D O -> day_pre (sample_world t) 20250110 /\ allocation (sample_world t) 20250110 = 4.
Proof.
  intros R. destruct (rep_totals _ _ _ _ R 20250110) as [Ec En].
  assert (Ea : allocation (sample_world t) 20250110 = 4).
  { unfold allocation, w_tribute, sample_world. cbn [w_lysis lw_tribute sample_lysis]. rewrite En. vm_compute. reflexivity. }
  split; [|done]. split; try done; try (by left); unfold w_tribute, sample_world; cbn [w_lysis lw_tribute sample_lysis]; [by rewrite Ec|by rewrite En].
Qed.

Lemma day_limit_conserved_witness :
  exists t w' back N' B, process_metadosis (sample_world t) 1000 20250110 = Ok (w', back) /\ stored (nw_nod (lw_nod (w_lysis w'))) N' B /\
    (gratis_in N' + back = 800 \/ back = 0 /\ exists supply, delivered (sample_world t) 20250110 supply w' /\ gratis_in N' + supply = 800).
Proof.
  destruct (sample_tributes 4) as (t & D & O & R); [unfold is_address; lia|lia|]. exists t. destruct (sample_day_pre _ _ _ _ R) as [P Ea].
  destruct (day_limit_conserved (sample_world t) 1000 20250110 (sample_day 4) D O [] 5) as (fr & w' & back & N' & B & _ & E & Hs & _ & _ & _ & _ & Hb).
  - exact P.
  - rewrite Ea. apply sample_pre; [unfold is_address; lia|lia|lia|exact R].
  - rewrite Ea. reflexivity.
  - vm_compute. reflexivity.
  - cbn. apply NoDup_cons. split; [intros Hin; by apply list_elem_of_singleton in Hin|apply NoDup_singleton].
  - exists w', back, N', B. split; [exact E|]. split; [exact Hs|exact Hb].
Defined.

Lemma failed_day_overallocates_witness :
  exists t w' N' B, process_metadosis (sample_world t) 1000 20250110 = Ok (w', 800) /\ stored (nw_nod (lw_nod (w_lysis w'))) N' B /\ 0 < gratis_in N'.
Proof.
  destruct (sample_tributes 3) as (t & D & O & R); [unfold is_address; lia|lia|]. exists t. destruct (sample_day_pre _ _ _ _ R) as [P Ea].
  destruct (failed_day_overallocates (sample_world t) 1000 20250110 (sample_day 3) D O [] 5 1) as (w' & N' & B & E & Hs & _ & _ & Hg).
  - exact P.
  - rewrite Ea. apply sample_pre; [unfold is_address; lia|lia|lia|exact R].
  - repeat constructor.
  - rewrite Ea. lia.
  - split; vm_compute; reflexivity.
  - rewrite Ea. cbn. intros Hn. apply NoDup_cons in Hn as [Hn _]. apply Hn. left.
  - exists w', N', B. split; [exact E|]. split; [exact Hs|]. change (gratis_in []) with 0 in Hg. cbn [app] in Hg. lia.
Defined.

Definition sample_start : World unit := mkWorld no_days (sample_lysis empty_tributes) (PromisLimit.mkLimit 0) tt.

Lemma no_days_ok : days_ok 0 (w_md sample_start) (is_open (w_tribute sample_start)) [].
Proof.
  split; [split; [done|split; [done|intros i Hi; cbn in Hi; lia]]|constructor|done| |].
  - intros d Hd. by apply not_elem_of_nil in Hd.
  - intros d. rewrite bool_decide_eq_false_2; [done|]. intros [Hd _]. by apply not_elem_of_nil in Hd.
Qed.

Lemma daily_run_exact_witness :
  exists w' A', start_metadosis sample_start (mkBlock 9 1736467200 DEVNET_CHAIN_ID) = Ok w' /\ run_done 1736467200 [] A' no_ids sample_start w'.
Proof.
  pose proof (daily_run_exact sample_start (mkBlock 9 1736467200 DEVNET_CHAIN_ID) 0 [] [] no_ids no_ids no_days_ok ltac:(intros d Hd; by apply not_elem_of_nil in Hd) empty_tributes_rep) as T.
  specialize (T ltac:(by intros x d a b) ltac:(discriminate) ltac:(discriminate) ltac:(discriminate) ltac:(reflexivity) ltac:(reflexivity)).
  assert (E : is_ok (start_metadosis sample_start (mkBlock 9 1736467200 DEVNET_CHAIN_ID)) = true) by (vm_compute; reflexivity).
  destruct (start_metadosis sample_start (mkBlock 9 1736467200 DEVNET_CHAIN_ID)) as [w'|e]; [|discriminate E].
  destruct T as (A' & T). exists w', A'. split; [reflexivity|exact T].
Defined.
