(* ===== verification/TributeFactory.v ===== *)
(** * TributeFactory: taking an offer

    [crates/core/tributefactory]: an encrypted offer is handed to the enclave with
    the price of the day; its public result is checked, its spending units are
    marked as used, the tribute is issued and the agents named in it are counted.
    The enclave, the oracle's registry and the parsing of hexadecimal text are
    operations of a class. *)

From stdpp Require Import strings.
From S2P Require Import Prelude Time Storage Tokens Nod NodStore Tribute Lysis Metadosis AgentReward.

Record EncryptedTributeOffer := mkOffer {
  eo_owner : Address;
  cipher_text : list Z;
  nonce : list Z;
  ephemeral_pubkey : U256;
  eo_reference_currency : Z;
  eo_tribute_price_minor : U256
}.

Inductive TributeOfferStatus : Type := Created | Rejected (reason : string).

Record TributeOfferResult := mkResult {
  or_token_id : B256;
  or_worldwide_day : u32;
  or_issuance_amount_minor : U256;
  or_issuance_currency : Z;
  or_nominal_amount_minor : U256;
  or_reference_currency : Z;
  or_tribute_price_minor : U256;
  su_hashes : list string;
  wallet_addresses : list string;
  sra_addresses : list string;
  or_status : TributeOfferStatus
}.

Record FactoryWorld (X : Type) := mkFactory {
  used_su_hashes : gmap B256 bool;
  fw_world : World X;
  fw_agents : AgentReward
}.
Arguments mkFactory {X} _ _ _.
Arguments used_su_hashes {X} _.
Arguments fw_world {X} _.
Arguments fw_agents {X} _.

Class OfferServices (X : Type) := {
  (** [process_tribute_offer_batch_via_enclave] on one offer *)
  enclave : X -> EncryptedTributeOffer -> result string (list TributeOfferResult);
  settlement_iso_to_pair : X -> Z -> B256;
  registered_pair_id : X -> B256 -> Z;
  day_vwap : X -> u32 -> Z -> res (option U256);
  max_scurve : X -> Z -> u64 -> res U256;
  hex_decode : string -> option (list Z);
  parse_address : string -> option Address
}.

(** ** [state.rs] *)

Definition mark_su_hash_used (used : gmap B256 bool) (su_hash : B256) : res (gmap B256 bool) :=
  ensure negb (rd used su_hash) else Revert "SU hash already used" in
  Ok (<[su_hash := true]> used).

Definition mark_su_hashes_used (used : gmap B256 bool) (hashes : list B256) : res (gmap B256 bool) := foldM mark_su_hash_used used hashes.

(** ** [runtime.rs] *)

Definition check_currency (currency : Z) : res unit :=
  ensure currency =? 840 else Revert "iso_code is not a valid currency" in
  Ok tt.

Definition strip_0x (s : string) : string := if String.prefix "0x" s then String.substring 2 (String.length s - 2) s else s.

Section Factory.
Context `{Crypto} {X : Type} `{DayServices X} `{OfferServices X}.

Definition parse_su_hash (hash : string) : res B256 :=
  let? bytes := ok_or (hex_decode (strip_0x hash)) (Revert "invalid SU hash hex") in
  ensure len bytes =? 32 else Revert "SU hash must be 32 bytes" in
  Ok (from_be_bytes bytes).

Definition parse_su_hashes (hashes : list string) : res (list B256) :=
  foldM (fun acc hash => let? h := parse_su_hash hash in Ok (acc ++ [h])) [] hashes.

Definition resolve_tribute_price (x : X) (issuance_currency : Z) (worldwide_day : u32) : res U256 :=
  let pair_hash := settlement_iso_to_pair x issuance_currency in
  ensure negb (pair_hash =? 0) else Revert "issuance currency not registered in oracle" in
  let pair_id := registered_pair_id x pair_hash in
  ensure negb (pair_id =? 0) else Revert "settlement currency pair not registered" in
  let? vwap := day_vwap x worldwide_day pair_id in
  let vwap := default 0 vwap in
  let? scurve := max_scurve x pair_id (WorldwideDay.to_timestamp_utc worldwide_day) in
  Ok (Z.max vwap scurve).

Definition is_empty {A} (l : list A) : bool := match l with [] => true | _ => false end.

Definition validate_agent_reward_addresses (wallets sras : list string) : res unit :=
  if is_empty wallets && is_empty sras then Ok tt else
  ensure negb (is_empty wallets) else Revert "wallet_addresses must be specified when sra_addresses is provided" in
  ensure negb (is_empty sras) else Revert "sra_addresses must be specified when wallet_addresses is provided" in
  ensure forallb (fun a => if parse_address a is Some _ then true else false) wallets else Revert "invalid wallet_address at index" in
  ensure forallb (fun a => if parse_address a is Some _ then true else false) sras else Revert "invalid sra_address at index" in
  Ok tt.

(** The counting of one list of agents. *)
Definition count_agents (increment : AgentReward -> u32 -> Address -> AgentReward) (e : PrecompileError) (day : u32) (c : AgentReward) (addresses : list string) : res AgentReward :=
  foldM (fun c s => let? a := ok_or (parse_address s) e in Ok (increment c day a)) c addresses.

(** The first half of [offer_tribute]: the price of the offering day and the
    enclave's answer, which must not be a rejection. *)
Definition open_offer (w : World X) (caller : Address) (cipher nonce : list Z) (pubkey : U256) (reference_currency : Z) : res TributeOfferResult :=
  let? _ := check_currency reference_currency in
  let? offering_day := ok_or (head (get_active_wwds_by_status (w_md w) status.OFFERING)) (Revert "no worldwide day is OFFERING") in
  let? tribute_price := resolve_tribute_price (w_ext w) reference_currency offering_day in
  ensure negb (tribute_price =? 0) else Revert "nominal price is zero" in
  let offer := mkOffer caller cipher nonce pubkey reference_currency tribute_price in
  let? results := match enclave (w_ext w) offer with Ok l => Ok l | Err e => Err (Revert ("decryption failed: " ++ e)) end in
  let? r := ok_or (head results) (Revert "decryption failed: empty enclave result") in
  match or_status r with
  | Created => Ok r
  | Rejected reason => Err (Revert ("decryption failed: " ++ reason))
  end.

Definition offered (caller : Address) (r : TributeOfferResult) : TributeData :=
  mkTribute (or_token_id r) caller (or_worldwide_day r) (or_issuance_amount_minor r) (or_issuance_currency r)
    (or_nominal_amount_minor r) (or_reference_currency r) (or_tribute_price_minor r).

(** The counting of the agents of an accepted offer. *)
Definition count_offer (c : AgentReward) (r : TributeOfferResult) : res AgentReward :=
  if negb (is_empty (wallet_addresses r)) && negb (is_empty (sra_addresses r)) then
    let? c := count_agents increment_waa_tribute (Revert "invalid wallet address") (or_worldwide_day r) c (wallet_addresses r) in
    count_agents increment_sra_tribute (Revert "invalid SRA address") (or_worldwide_day r) c (sra_addresses r)
  else Ok c.

(** The second half: the checks of the answer, the spending units, the tribute
    and the agents. *)
Definition accept_offer (w : FactoryWorld X) (caller : Address) (r : TributeOfferResult) : res (FactoryWorld X * U256) :=
  let world := fw_world w in
  ensure get_status (w_md world) (or_worldwide_day r) =? status.OFFERING else Revert "worldwide_day is not in OFFERING status" in
  ensure negb (bool_decide (is_Some (get_tribute (w_tribute world) (or_token_id r)))) else Revert "tribute already exists for this combination of parameters" in
  let? hashes := parse_su_hashes (su_hashes r) in
  let? used := mark_su_hashes_used (used_su_hashes w) hashes in
  let? _ := validate_agent_reward_addresses (wallet_addresses r) (sra_addresses r) in
  let? t := issue (w_tribute world) (offered caller r) in
  let? agents := count_offer (fw_agents w) r in
  Ok (mkFactory used (set_tribute world t) agents, or_token_id r).

Definition offer_tribute (w : FactoryWorld X) (caller : Address) (cipher nonce : list Z) (pubkey : U256) (reference_currency : Z) : res (FactoryWorld X * U256) :=
  let? r := open_offer (fw_world w) caller cipher nonce pubkey reference_currency in
  accept_offer w caller r.
End Factory.

(** ** Spending units *)

Lemma mark_spec hashes : forall used,
  match mark_su_hashes_used used hashes with
  | Ok used' => NoDup hashes /\ (forall h, h ∈ hashes -> rd used h = false) /\ forall h, rd used' h = bool_decide (h ∈ hashes) || rd used h
  | Err _ => ~ (NoDup hashes /\ forall h, h ∈ hashes -> rd used h = false)
  end.
Proof.
  unfold mark_su_hashes_used. induction hashes as [|h hashes IH]; intros used; cbn [foldM].
  { split_and!; [constructor|by intros h ?%not_elem_of_nil|]. intros h. by rewrite bool_decide_eq_false_2 by apply not_elem_of_nil. }
  unfold mark_su_hash_used at 1. destruct (rd used h) eqn:Eh; cbn [negb].
  { intros [_ Hn]. by rewrite Hn in Eh by left. }
  specialize (IH (<[h := true]> used)). destruct (foldM _ _ _) as [used'|e].
  - destruct IH as (Hnd & Hun & Hrd). assert (Hh : h ∉ hashes) by (intros Hin; specialize (Hun h Hin); by rewrite rd_insert_eq in Hun).
    split_and!; [by constructor| |].
    + intros x [->|Hx]%elem_of_cons; [done|]. specialize (Hun x Hx). by rewrite rd_insert_ne in Hun by (by intros ->).
    + intros x. rewrite Hrd. destruct (decide (x = h)) as [->|Hx].
      * rewrite rd_insert_eq, orb_true_r, bool_decide_eq_true_2 by left. done.
      * rewrite rd_insert_ne by done. f_equal. apply bool_decide_ext. rewrite elem_of_cons. naive_solver.
  - intros [Hnd Hun]. apply NoDup_cons in Hnd as [Hh Hnd]. apply IH. split; [done|]. intros x Hx.
    rewrite rd_insert_ne by (by intros ->). apply Hun. by right.
Qed.

Section Offers.
Context `{KeccakLaws} {X : Type} `{DayServices X} `{OfferServices X}.

(** Both lists of agents or none, and every entry an address. *)
Definition agents_valid (wallets sras : list string) : Prop :=
  (wallets = [] <-> sras = []) /\ Forall (fun s => is_Some (parse_address s)) (wallets ++ sras).

Lemma parses_forallb l : forallb (fun a => if parse_address a is Some _ then true else false) l = true <-> Forall (fun s => is_Some (parse_address s)) l.
Proof.
  induction l as [|a l IH]; cbn [forallb]; [by split|]. rewrite andb_true_iff, IH, Forall_cons. destruct (parse_address a); split; intros [? ?]; split; eauto; done.
Qed.

Lemma validate_spec wallets sras : match validate_agent_reward_addresses wallets sras with
  | Ok _ => agents_valid wallets sras
  | Err _ => ~ agents_valid wallets sras
  end.
Proof.
  unfold validate_agent_reward_addresses, agents_valid. destruct wallets as [|a ws], sras as [|b ss]; cbn [is_empty andb negb].
  - split; [done|constructor].
  - intros [[E _] _]. by specialize (E eq_refl).
  - intros [[_ E] _]. by specialize (E eq_refl).
  - pose proof (parses_forallb (a :: ws)) as P1. pose proof (parses_forallb (b :: ss)) as P2.
    destruct (forallb _ (a :: ws)), (forallb _ (b :: ss)); cbn [negb]; rewrite Forall_app; [|intros (_ & Hw & Hs)..].
    all: try (apply P1 in Hw; done); try (apply P2 in Hs; done).
    split; [done|]. split; [by apply P1|by apply P2].
Qed.

Lemma count_agents_spec increment e day l : forall c, Forall (fun s => is_Some (parse_address s)) l ->
  count_agents increment e day c l = Ok (foldl (fun c a => increment c day a) c (omap parse_address l)).
Proof.
  unfold count_agents. induction l as [|s l IH]; intros c Hl; [done|]. apply Forall_cons_1 in Hl as [[a Ea] Hl]. cbn [foldM omap list_omap]. rewrite Ea. cbn [ok_or foldl]. by apply IH.
Qed.

(** What the counting does to one index. *)
Definition counted (day : u32) (x : TributeIndex) (l : list string) : TributeIndex := foldl (fun x a => increment_tribute x day a) x (omap parse_address l).

Lemma count_waa day l : forall c, foldl (fun c a => increment_waa_tribute c day a) c l = mkAgent (foldl (fun x a => increment_tribute x day a) (waa c) l) (sra c) (claimable_rewards c).
Proof. induction l as [|a l IH]; intros c; [by destruct c|]. cbn [foldl]. by rewrite IH. Qed.

Lemma count_sra day l : forall c, foldl (fun c a => increment_sra_tribute c day a) c l = mkAgent (waa c) (foldl (fun x a => increment_tribute x day a) (sra c) l) (claimable_rewards c).
Proof. induction l as [|a l IH]; intros c; [by destruct c|]. cbn [foldl]. by rewrite IH. Qed.

Lemma count_offer_spec c r : agents_valid (wallet_addresses r) (sra_addresses r) ->
  count_offer c r = Ok (mkAgent (counted (or_worldwide_day r) (waa c) (wallet_addresses r)) (counted (or_worldwide_day r) (sra c) (sra_addresses r)) (claimable_rewards c)).
Proof.
  intros [Hi Hf]. apply Forall_app in Hf as [Hw Hs]. unfold count_offer. destruct (is_empty (wallet_addresses r)) eqn:Ew.
  - destruct (wallet_addresses r) eqn:E1; [|done]. rewrite (proj1 Hi eq_refl). by destruct c.
  - destruct (sra_addresses r) eqn:E2; [by rewrite (proj2 Hi eq_refl) in Ew|]. cbn [is_empty negb andb].
    rewrite count_agents_spec by done. rewrite count_waa. rewrite count_agents_spec by done. by rewrite count_sra.
Qed.

(** When an answer of the enclave is taken. *)
Record offer_valid (w : FactoryWorld X) (L : list TributeData) (r : TributeOfferResult) (hashes : list B256) : Prop := {
  ov_day : get_status (w_md (fw_world w)) (or_worldwide_day r) = status.OFFERING;
  ov_new : or_token_id r ∉ token_id <$> L;
  ov_hashes : parse_su_hashes (su_hashes r) = Ok hashes;
  ov_distinct : NoDup hashes;
  ov_unused : forall h, h ∈ hashes -> rd (used_su_hashes w) h = false;
  ov_agents : agents_valid (wallet_addresses r) (sra_addresses r)
}.

(** What taking it changes. *)
Record offer_done (w : FactoryWorld X) (caller : Address) (L : list TributeData) (D O : Z -> list Z) (r : TributeOfferResult) (hashes : list B256) (w' : FactoryWorld X) : Prop := {
  od_used : forall h, rd (used_su_hashes w') h = bool_decide (h ∈ hashes) || rd (used_su_hashes w) h;
  od_rep : tribute_rep (w_tribute (fw_world w')) (L ++ [offered caller r]) (snoc_at (or_worldwide_day r) (or_token_id r) D) (snoc_at caller (or_token_id r) O);
  od_open : forall d, is_open (w_tribute (fw_world w')) d = is_open (w_tribute (fw_world w)) d;
  od_world : fw_world w' = set_tribute (fw_world w) (w_tribute (fw_world w'));
  od_waa : waa (fw_agents w') = counted (or_worldwide_day r) (waa (fw_agents w)) (wallet_addresses r);
  od_sra : sra (fw_agents w') = counted (or_worldwide_day r) (sra (fw_agents w)) (sra_addresses r);
  od_claimable : claimable_rewards (fw_agents w') = claimable_rewards (fw_agents w)
}.

Lemma accept_spec w caller r T A L D O :
  days_ok T (w_md (fw_world w)) (is_open (w_tribute (fw_world w))) A -> tribute_rep (w_tribute (fw_world w)) L D O ->
  (or_token_id r ∉ token_id <$> L -> fresh L D O (offered caller r)) ->
  match accept_offer w caller r with
  | Ok (w', id) => id = or_token_id r /\ exists hashes, offer_valid w L r hashes /\ offer_done w caller L D O r hashes w'
  | Err _ => forall hashes, ~ offer_valid w L r hashes
  end.
Proof.
  intros K R F. unfold accept_offer. destruct (Z.eqb_spec (get_status (w_md (fw_world w)) (or_worldwide_day r)) status.OFFERING) as [Est|Est]; [|by intros hs []].
  destruct (bool_decide (is_Some (get_tribute _ _))) eqn:Eg; cbn [negb].
  { intros hs []. apply bool_decide_eq_true_1 in Eg as [tr Etr]. apply (rep_get _ _ _ _ R) in Etr as [Hin Hid]. destruct ov_new0. rewrite <- Hid. by apply list_elem_of_fmap_2. }
  assert (Hnew : or_token_id r ∉ token_id <$> L).
  { intros Hin. apply list_elem_of_fmap in Hin as (tr & Hid & Hin). apply bool_decide_eq_false_1 in Eg. destruct Eg. exists tr. by apply (rep_get _ _ _ _ R). }
  destruct (parse_su_hashes _) as [hs|e] eqn:Ep; [|intros hs []; congruence].
  pose proof (mark_spec hs (used_su_hashes w)) as M. destruct (mark_su_hashes_used _ _) as [used|e]; [|intros hs' [? ? E ? ? ?]; rewrite Ep in E; injection E as <-; tauto].
  pose proof (validate_spec (wallet_addresses r) (sra_addresses r)) as V. destruct (validate_agent_reward_addresses _ _); [|by intros hs' []].
  assert (Hop : is_open (w_tribute (fw_world w)) (tr_day (offered caller r)) = true).
  { rewrite (dk_open _ _ _ _ K). apply bool_decide_eq_true_2. cbn [tr_day offered]. split; [|done]. destruct (decide (or_worldwide_day r ∈ A)) as [|Hna]; [done|].
    apply (dk_absent _ _ _ _ K) in Hna. unfold get_status in Est. by rewrite (absent_entry _ _ Hna) in Est. }
  destruct (issue_rep _ _ _ _ _ R (F Hnew) Hop) as (t' & Ei & R' & Ho). rewrite Ei, (count_offer_spec _ _ V). split; [done|]. exists hs. destruct M as (M1 & M2 & M3). by split.
Qed.

(** C29. An offer is taken exactly when it should be. Between two daily runs, and
    for an answer of the enclave whose new tribute fits the store, [offer_tribute]
    succeeds if and only if the answer was [Created], its day is offering, its
    token id is new, its spending units parse, are pairwise distinct and unused,
    and its agents are given for both pools or for none. It then issues exactly
    that tribute to the caller, marks exactly those spending units, counts the
    named agents for that day and changes nothing else; the seal of the day never
    refuses what the status let through. *)
Theorem offer_exact w caller cipher nonce pubkey currency T A L D O :
  days_ok T (w_md (fw_world w)) (is_open (w_tribute (fw_world w))) A -> tribute_rep (w_tribute (fw_world w)) L D O ->
  (forall r, open_offer (fw_world w) caller cipher nonce pubkey currency = Ok r -> or_token_id r ∉ token_id <$> L -> fresh L D O (offered caller r)) ->
  match offer_tribute w caller cipher nonce pubkey currency with
  | Ok (w', id) => exists r hashes, open_offer (fw_world w) caller cipher nonce pubkey currency = Ok r /\ or_status r = Created /\ id = or_token_id r /\
      offer_valid w L r hashes /\ offer_done w caller L D O r hashes w' /\ days_ok T (w_md (fw_world w')) (is_open (w_tribute (fw_world w'))) A
  | Err e => open_offer (fw_world w) caller cipher nonce pubkey currency = Err e \/
      exists r, open_offer (fw_world w) caller cipher nonce pubkey currency = Ok r /\ forall hashes, ~ offer_valid w L r hashes
  end.
Proof.
  intros K R F. unfold offer_tribute. destruct (open_offer _ _ _ _ _ _) as [r|e] eqn:Eo; [|by left].
  pose proof (accept_spec w caller r T A L D O K R (F r eq_refl)) as S. destruct (accept_offer w caller r) as [[w' id]|e]; [|right; by exists r].
  destruct S as (-> & hs & V & Dn). exists r, hs. split_and!; try done.
  - unfold open_offer in Eo. inv_ok Eo. destruct (or_status _) eqn:Es in Eo; [|done]. by injection Eo as <-.
  - rewrite (od_world _ _ _ _ _ _ _ _ Dn). cbn [w_md set_tribute]. destruct K as [K1 K2 K3 K4 K5]. split; try done. intros d. rewrite <- K5, <- (od_open _ _ _ _ _ _ _ _ Dn d). by rewrite (od_world _ _ _ _ _ _ _ _ Dn).
Qed.

(** A step of the factory's contract with the spending units it uses up: an offer
    that was taken, or anything else the chain does, which cannot touch them. *)
Inductive factory_step : FactoryWorld X -> list B256 -> FactoryWorld X -> Prop :=
| step_offer w caller cipher nonce pubkey currency r hashes w' id :
    open_offer (fw_world w) caller cipher nonce pubkey currency = Ok r -> parse_su_hashes (su_hashes r) = Ok hashes ->
    offer_tribute w caller cipher nonce pubkey currency = Ok (w', id) -> factory_step w hashes w'
| step_other w world agents : factory_step w [] (mkFactory (used_su_hashes w) world agents).

Inductive factory_run : FactoryWorld X -> list B256 -> FactoryWorld X -> Prop :=
| run_nil w : factory_run w [] w
| run_snoc w spent w1 hashes w2 : factory_run w spent w1 -> factory_step w1 hashes w2 -> factory_run w (spent ++ hashes) w2.

(** C30. A spending unit is spent once. Over any run of offers, by any callers,
    days and enclave answers and with anything else happening in between, the
    spending units of the accepted offers are pairwise distinct, none of them was
    used before the run, and exactly they are used after it. *)
Theorem su_hashes_spent_once w spent w' : factory_run w spent w' ->
  NoDup spent /\ forall h, (h ∈ spent -> rd (used_su_hashes w) h = false) /\ rd (used_su_hashes w') h = bool_decide (h ∈ spent) || rd (used_su_hashes w) h.
Proof.
  induction 1 as [w|w spent w1 hashes w2 _ [Hnd IH] S].
  { split; [constructor|]. intros h. rewrite bool_decide_eq_false_2 by apply not_elem_of_nil. split; [by intros ?%not_elem_of_nil|done]. }
  assert (Hs : NoDup hashes /\ (forall h, h ∈ hashes -> rd (used_su_hashes w1) h = false) /\ forall h, rd (used_su_hashes w2) h = bool_decide (h ∈ hashes) || rd (used_su_hashes w1) h).
  { destruct S as [w1 caller cipher nonce pubkey currency r hashes w2 id Eo Ep Eq|w1 world agents].
    - unfold offer_tribute in Eq. rewrite Eo in Eq. unfold accept_offer in Eq. rewrite Ep in Eq. pose proof (mark_spec hashes (used_su_hashes w1)) as M.
      destruct (mark_su_hashes_used _ _) as [used|]; inv_ok Eq; done.
    - split; [constructor|]. split; [by intros h ?%not_elem_of_nil|]. intros h. by rewrite bool_decide_eq_false_2 by apply not_elem_of_nil. }
  destruct Hs as (Hn & Hu & Hr). assert (Hd : forall h, h ∈ spent -> h ∉ hashes).
  { intros h Hh Hh2. specialize (Hu h Hh2). by rewrite (proj2 (IH h)), bool_decide_eq_true_2 in Hu. }
  split; [by apply NoDup_app|]. intros h. rewrite Hr, (proj2 (IH h)), orb_assoc. split.
  - intros [Hh|Hh]%elem_of_app; [by apply IH|]. specialize (Hu h Hh). rewrite (proj2 (IH h)) in Hu. by apply orb_false_iff in Hu as [_ ?].
  - f_equal. rewrite orb_comm, <- bool_decide_or. apply bool_decide_ext. rewrite elem_of_app. tauto.
Qed.
(** ** The price of an offer *)

Lemma issue_get t tr t' : issue t tr = Ok t' -> get_tribute t' (token_id tr) = Some tr.
Proof.
  unfold issue, validate_tribute_for_issue. intros E. destruct (tr_owner tr =? 0) eqn:Eo; [done|]. destruct (issuance_amount_minor tr =? 0); [done|]. cbn [negb] in E.
  destruct (ensure_day_accepts_tributes _ _); [|done]. destruct (rcreate _ _) as [m|] eqn:Em; [|done]. unfold rcreate in Em. destruct (rexists _ _); [done|]. injection Em as <-.
  unfold bump_day_bucket in E. cbv zeta in E. rewrite store_day_totals_Ok in E. injection E as <-. bools. unfold get_tribute. cbn. rewrite rget_insert_eq. cbn. by rewrite (proj2 (Z.eqb_neq _ 0) Eo).
Qed.

(** The entry of a day as it is created on a chain. *)
Definition created_day (chain : u64) (d : u32) (start : u64) (e : WorldwideDay) : Prop :=
  let '(lookback, offering) := effective_hours chain in exists c c', create_worldwide_day c d start lookback offering = Ok c' /\ e = entry c' d.

Lemma created_times chain d start e : created_day chain d start e -> 0 <= start < 2 ^ 63 ->
  exists lookback offering, 48 <= offering /\ lookback_end e = start + (50 + lookback) * 3600 /\ offering_end e = start + (50 + lookback + offering) * 3600 /\ offering_end e <= scheduled_process_time e /\
    forming_end e <= lookback_end e /\ effective_hours chain = (lookback, offering).
Proof.
  unfold created_day. intros Hc Hs. destruct (effective_hours chain) as [lb off] eqn:Eh. destruct Hc as (c & c' & E & ->). exists lb, off.
  assert (Hb : 0 <= lb <= 502 /\ 48 <= off <= 50).
  { unfold effective_hours in Eh. destruct (_ || _); injection Eh as <- <-;
      unfold BOOTSTRAP_LOOKBACK_DELAY_HOURS, BOOTSTRAP_OFFERING_PERIOD_HOURS, DEFAULT_LOOKBACK_DELAY_HOURS, DEFAULT_OFFERING_PERIOD_HOURS; lia. }
  unfold create_worldwide_day in E. cbv zeta in E. unfold FORMING_PERIOD_HOURS, WAITING_PERIOD_HOURS, SECONDS_PER_HOUR in E.
  rewrite !wmul_small, !wadd_small in E by lia. destruct (rcreate _ _) as [m|] eqn:Em; [|done]. apply Ok_inj in E. subst c'.
  unfold rcreate in Em. destruct (rexists _ _); [done|]. apply Ok_inj in Em. subst m. unfold entry. cbn [worldwide_days set_worldwide_days rec_key day_record wwd]. rewrite rd_insert_eq.
  cbn [forming_end lookback_end offering_end scheduled_process_time]. split_and!; (done || lia).
Qed.

(** What the enclave does with the price it is handed: an offer it accepts carries it. *)
Definition price_echoed : Prop :=
  forall x o l r, enclave x o = Ok l -> head l = Some r -> or_status r = Created -> or_tribute_price_minor r = eo_tribute_price_minor o.

Lemma open_offer_price w caller cipher nonce pubkey currency r : price_echoed -> open_offer w caller cipher nonce pubkey currency = Ok r ->
  exists d0, head (get_active_wwds_by_status (w_md w) status.OFFERING) = Some d0 /\ resolve_tribute_price (w_ext w) currency d0 = Ok (or_tribute_price_minor r) /\ or_tribute_price_minor r <> 0.
Proof.
  intros Hp. unfold open_offer. destruct (check_currency _); [|done]. destruct (head (get_active_wwds_by_status _ _)) as [d0|]; cbn [ok_or]; [|done].
  destruct (resolve_tribute_price _ _ _) as [p|] eqn:Ep; [|done]. destruct (p =? 0) eqn:E0; cbn [negb]; [done|]. destruct (enclave _ _) as [l|] eqn:Ee; [|done].
  destruct (head l) as [r'|] eqn:Eh; cbn [ok_or]; [|done]. destruct (or_status r') eqn:Es; [|done]. intros [= <-]. exists d0. rewrite (Hp _ _ _ _ Ee Eh Es). cbn [eo_tribute_price_minor]. bools. done.
Qed.

(** C40. Offers of one day are priced with another day's price. Consecutive days are
    offering at the same time for at least a day: whatever the chain, from the
    start of the offering period of the later day to the end of that of the
    earlier one the timetable of both says OFFERING, and this is a day or more. An
    offer is taken for any offering day, the one its ciphertext names, but every
    tribute issued is priced with the price of the first offering day of the
    active list: for all other days this is another day's price, also where
    their own price is known and different. *)
Theorem offer_priced_for_another_day :
  (forall chain d1 d2 start e1 e2 ts, 0 <= start < 2 ^ 62 -> created_day chain d1 start e1 -> created_day chain d2 (start + SECONDS_PER_DAY) e2 ->
     lookback_end e2 + SECONDS_PER_DAY <= offering_end e1 /\
     (lookback_end e2 <= ts < offering_end e1 -> timetable e1 ts = status.OFFERING /\ timetable e2 ts = status.OFFERING)) /\
  (price_echoed -> forall (w : FactoryWorld X) caller cipher nonce pubkey currency w' id,
     offer_tribute w caller cipher nonce pubkey currency = Ok (w', id) ->
     exists d0 tr, head (get_active_wwds_by_status (w_md (fw_world w)) status.OFFERING) = Some d0 /\
       get_tribute (w_tribute (fw_world w')) id = Some tr /\ get_status (w_md (fw_world w)) (tr_day tr) = status.OFFERING /\
       resolve_tribute_price (w_ext (fw_world w)) currency d0 = Ok (tribute_price_minor tr) /\
       (forall p, resolve_tribute_price (w_ext (fw_world w)) currency (tr_day tr) = Ok p -> resolve_tribute_price (w_ext (fw_world w)) currency d0 <> Ok p ->
          tribute_price_minor tr <> p)).
Proof.
  split.
  - intros chain d1 d2 start e1 e2 ts Hs C1 C2. destruct (created_times _ _ _ _ C1 ltac:(lia)) as (lb & off & Ho & L1 & O1 & S1 & F1 & Eh1).
    destruct (created_times _ _ _ _ C2 ltac:(unfold SECONDS_PER_DAY; lia)) as (lb' & off' & _ & L2 & O2 & S2 & F2 & Eh2). rewrite Eh1 in Eh2. injection Eh2 as <- <-.
    unfold SECONDS_PER_DAY in *. split; [lia|]. intros Ht. unfold timetable.
    rewrite !(proj2 (Z.ltb_ge ts (forming_end _))), !(proj2 (Z.ltb_ge ts (lookback_end _))), !(proj2 (Z.ltb_lt ts (offering_end _))) by lia. done.
  - intros Hp w caller cipher nonce pubkey currency w' id E. unfold offer_tribute in E. destruct (open_offer _ _ _ _ _ _) as [r|] eqn:Eo; [|done].
    destruct (open_offer_price _ _ _ _ _ _ _ Hp Eo) as (d0 & Hd & Hpr & _). unfold accept_offer in E. destruct (_ =? status.OFFERING) eqn:Est; [bools|done].
    destruct (negb _); [|done]. destruct (parse_su_hashes _); [|done]. destruct (mark_su_hashes_used _ _); [|done]. destruct (validate_agent_reward_addresses _ _); [|done].
    destruct (issue _ _) as [t|] eqn:Ei; [|done]. destruct (count_offer _ _); [|done]. injection E as <- <-. apply issue_get in Ei.
    exists d0, (offered caller r). split_and!; try done. intros p _ Hne Hx. apply Hne. cbn [tribute_price_minor offered] in Hx. by rewrite <- Hx.
Qed.
End Offers.

(** ** Sample offers

    A development chain after its first four daily runs, one at each midnight, and
    an enclave that answers for the day in the ciphertext at the price it is given. *)

#[local] Existing Instance sample_crypto.
#[local] Existing Instance sample_keccak.
#[local] Existing Instance sample_services.

Definition sample_offers : OfferServices unit := {|
  enclave _ o := Ok [mkResult 77 (default 0 (head (cipher_text o))) 5 840 (5 * eo_tribute_price_minor o) 840 (eo_tribute_price_minor o) ["0x0a"; "0bcd"] ["w"] ["sr"] Created];
  settlement_iso_to_pair _ _ := 1;
  registered_pair_id _ _ := 1;
  day_vwap _ day _ := Ok (Some day);
  max_scurve _ _ _ := Ok 0;
  hex_decode s := Some (repeat (Z.of_nat (String.length s)) 32);
  parse_address s := Some (Z.of_nat (String.length s))
|}.
#[local] Existing Instance sample_offers.

Definition daily_runs (w : World unit) (times : list u64) : res (World unit) := foldM (fun w t => start_metadosis w (mkBlock 2 t DEVNET_CHAIN_ID)) w times.

Definition four_days : World unit :=
  match daily_runs sample_start ((fun k => k * SECONDS_PER_DAY) <$> [20000; 20001; 20002; 20003]) with Ok w => w | Err _ => sample_start end.

Definition sample_factory : FactoryWorld unit := mkFactory ∅ four_days (mkAgent (mkIndex ∅ ∅ ∅) (mkIndex ∅ ∅ ∅) ∅).

Lemma sample_echoed : price_echoed (X := unit).
Proof. intros x o l r [= <-] [= <-] _. reflexivity. Qed.

(** Two days are offering, and the tribute of the second is issued at the price of the first. *)
Lemma offer_priced_for_another_day_witness :
  get_active_wwds_by_status (w_md four_days) status.OFFERING = [20241004; 20241005] /\
  exists w' tr, offer_tribute sample_factory 3 [20241005] [] 0 840 = Ok (w', 77) /\ get_tribute (w_tribute (fw_world w')) 77 = Some tr /\
    tr_day tr = 20241005 /\ resolve_tribute_price tt 840 20241005 = Ok 20241005 /\ tribute_price_minor tr <> 20241005.
Proof.
  assert (Hl : get_active_wwds_by_status (w_md four_days) status.OFFERING = [20241004; 20241005]) by (vm_compute; reflexivity). split; [exact Hl|].
  assert (E : match offer_tribute sample_factory 3 [20241005] [] 0 840 with Ok (w', id) => id = 77 /\
    match get_tribute (w_tribute (fw_world w')) 77 with Some tr => tr_day tr = 20241005 | None => False end | Err _ => False end).
  { vm_compute. split; reflexivity. }
  destruct (offer_tribute sample_factory 3 [20241005] [] 0 840) as [[w' id]|] eqn:Eo; [|destruct E]. destruct E as [-> E]. exists w'.
  destruct (proj2 (offer_priced_for_another_day (X := unit)) sample_echoed _ _ _ _ _ _ _ _ Eo) as (d0 & tr & Hd & Hg & _ & _ & Hne).
  rewrite Hg in E. exists tr. split; [reflexivity|]. split; [exact Hg|]. split; [exact E|]. split; [reflexivity|].
  change (w_md (fw_world sample_factory)) with (w_md four_days) in Hd. rewrite Hl in Hd. injection Hd as <-. apply Hne; rewrite ?E; [reflexivity|discriminate].
Defined.

(** One day that is offering, its tributes unsealed. *)
Definition one_day : MetadosisContract :=
  mkMetadosis 0 (<[20250110 := mkDay 20250110 status.OFFERING day_type.UNKNOWN 1 180001 180002 360000 400000 0 0]> ∅) ∅ ∅ (mkVec 1 (<[0 := 20250110]> ∅)) 0 ∅ (mkVec 0 ∅).
Definition offering (t : TributeContract) : FactoryWorld unit :=
  mkFactory ∅ (mkWorld one_day (sample_lysis t) (PromisLimit.mkLimit 0) tt) (mkAgent (mkIndex ∅ ∅ ∅) (mkIndex ∅ ∅ ∅) ∅).

Lemma one_day_ok t : (forall d, is_open t d = if decide (d = 20250110) then true else is_open empty_tributes d) ->
  days_ok 200000 one_day (is_open t) [20250110].
Proof.
  intros Ho. split.
  - split; [done|]. split; [done|]. intros [|i] Hi; [done|]. cbn in Hi. lia.
  - apply NoDup_singleton.
  - intros d Hd. unfold one_day. cbn [worldwide_days]. rewrite lookup_insert_ne; [done|]. intros <-. by destruct Hd; left.
  - intros d Hd. apply list_elem_of_singleton in Hd as ->. split; [done|done|vm_compute; split_and!; discriminate|done|done|]. by right.
  - intros d. rewrite Ho. case_decide as E; [subst d; by rewrite bool_decide_eq_true_2 by (split; [by left|done])|].
    rewrite bool_decide_eq_false_2 by (intros [Hd%list_elem_of_singleton _]; done). done.
Qed.

Lemma offer_exact_witness : exists t w' r hashes, offer_tribute (offering t) 3 [20250110] [] 0 840 = Ok (w', 77) /\
  offer_valid (offering t) [] r hashes /\ offer_done (offering t) 3 [] no_ids no_ids r hashes w'.
Proof.
  destruct (set_sealed_rep _ _ _ _ 20250110 false empty_tributes_rep) as (t & Eu & R & Hop). exists t.
  pose proof (offer_exact (offering t) 3 [20250110] [] 0 840 200000 [20250110] [] no_ids no_ids (one_day_ok t Hop) R) as T.
  assert (E : match offer_tribute (offering t) 3 [20250110] [] 0 840 with Ok (_, id) => id = 77 | Err _ => False end).
  { vm_compute in Eu. injection Eu as <-. vm_compute. reflexivity. }
  specialize (T ltac:(intros r Er _; vm_compute in Er; injection Er as <-; constructor; try done; intros; apply not_elem_of_nil)).
  destruct (offer_tribute (offering t) 3 [20250110] [] 0 840) as [[w' id]|e]; [|destruct E]. subst id.
  destruct T as (r & hashes & _ & _ & _ & V & Dn & _). exists w', r, hashes. split; [reflexivity|]. split; [exact V|exact Dn].
Defined.

Lemma su_hashes_spent_once_witness : exists w' spent, factory_run sample_factory spent w' /\ length spent = 2%nat /\ NoDup spent.
Proof.
  destruct (offer_tribute sample_factory 3 [20241005] [] 0 840) as [[w' id]|e] eqn:E; [|vm_compute in E; discriminate E].
  destruct (open_offer (fw_world sample_factory) 3 [20241005] [] 0 840) as [r|e] eqn:Eo; [|vm_compute in Eo; discriminate Eo].
  assert (Ep : su_hashes r = ["0x0a"; "0bcd"]) by (vm_compute in Eo; injection Eo as <-; reflexivity).
  destruct (parse_su_hashes (su_hashes r)) as [hs|e] eqn:Eh; [|rewrite Ep in Eh; vm_compute in Eh; discriminate Eh].
  assert (S : factory_run sample_factory ([] ++ hs) w') by (eapply run_snoc; [apply run_nil|exact (step_offer _ _ _ _ _ _ _ _ _ _ Eo Eh E)]).
  exists w', hs. split; [exact S|]. split; [rewrite Ep in Eh; vm_compute in Eh; injection Eh as <-; reflexivity|].
  exact (proj1 (su_hashes_spent_once _ _ _ S)).
Defined.
