(* ===== verification/Cycle.v ===== *)
(** * Cycle: the daily triggers and the settlement of a day

    [crates/system/cycle], with [crates/system/accounting]: the trigger table and
    its dispatch on every block behind the accounting gate, and the daily handler
    that composes the other components. It settles the previous UTC day: the day's
    cap is allocated, the validators are topped up, the agent pools distributed,
    the rest recorded as the day's Metadosis limit, and the worldwide days moved.
    Gems and the scan of intex series are operations of a class. *)

From stdpp Require Import strings.
From S2P Require Import Prelude Time Native Storage Tokens Emission Nod NodStore Metadata Rewards Tribute Lysis Metadosis AgentReward TributeFactory.

Record CycleContract := mkCycle {
  last_executed_at : gmap u32 u64;
  last_executed_block_number : gmap u32 u64
}.

(** The contracts a block's begin zone touches. *)
Record Chain (X G : Type) := mkChain {
  ch_rewards : Rewards;
  ch_gems : G;
  ch_factory : FactoryWorld X;
  ch_balances : Balances;
  ch_cycle : CycleContract;
  last_accounted_block_number : u64
}.
Arguments mkChain {X G} _ _ _ _ _ _.
Arguments ch_rewards {X G} _.
Arguments ch_gems {X G} _.
Arguments ch_factory {X G} _.
Arguments ch_balances {X G} _.
Arguments ch_cycle {X G} _.
Arguments last_accounted_block_number {X G} _.

(** [outbe_gemfactory::api::mint_gem] and [outbe_intexfactory::called::run_daily]. *)
Class CycleServices (X G : Type) := {
  mint_gem : G -> Address -> GemTypes -> U256 -> res G;
  intex_run_daily : X -> BlockContext -> res X
}.

#[global] Instance sink_eq_dec : EqDecision EmissionSinkId.
Proof. solve_decision. Defined.

(** ** [triggers.rs] *)

Definition next_fire_at (period offset last : u64) : u64 :=
  if last <? offset then offset else
  let diff := last - offset in
  let k := wadd 64 (diff / period) 1 in
  wadd 64 offset (wmul 64 k period).

Section Cycle.
Context `{Crypto} {X G : Type} `{DayServices X} `{OfferServices X} `{CycleServices X G}.
Implicit Types (c : Chain X G) (blk : BlockContext).

Definition set_factory c (f : FactoryWorld X) : Chain X G := mkChain (ch_rewards c) (ch_gems c) f (ch_balances c) (ch_cycle c) (last_accounted_block_number c).
Definition set_world (f : FactoryWorld X) (w : World X) : FactoryWorld X := mkFactory (used_su_hashes f) w (fw_agents f).
Definition set_cycle c (y : CycleContract) : Chain X G := mkChain (ch_rewards c) (ch_gems c) (ch_factory c) (ch_balances c) y (last_accounted_block_number c).

(** ** [accounting/src/runtime.rs] *)

Definition record_phase1_progress c (block_number : u64) : res (Chain X G) :=
  let current := last_accounted_block_number c in
  ensure negb (block_number <? current) else Revert "last_accounted_block_number regression" in
  Ok (mkChain (ch_rewards c) (ch_gems c) (ch_factory c) (ch_balances c) (ch_cycle c) block_number).

(** ** [handler.rs] *)

(** [prev_day], the day before the [current_day] of the block. *)
Definition prev_day_of (block_ts : u64) : u32 :=
  let current_day := timestamp_to_date_key block_ts in
  previous_date_key current_day.

Definition amount_for (allocations : list EmissionAllocation) (sink : EmissionSinkId) : U256 :=
  match find (fun a => bool_decide (id a = sink)) allocations with Some a => amount a | None => 0 end.

(** The validators' part of the handler: the rewards, the gems and the excess. *)
Definition settle_validators (r : Rewards) (g : G) (prev_day : u32) (validator_amount : U256) : res (Rewards * G * U256) :=
  let fees := read_daily_fee_sum_raw r prev_day in
  let voters := read_voters_for_day r prev_day in
  if (validator_amount =? 0) || bool_decide (voters = []) || (validator_amount <=? fees) then Ok (r, g, validator_amount)
  else
    let? topup := ok_or (checked_sub validator_amount fees) (Revert "validator topup underflow") in
    let? (r, g, _) := add_topup_for_voters mint_gem r g prev_day topup voters in
    Ok (r, g, fees).

Definition run_emission_limit_daily c blk : res (Chain X G) :=
  let prev_day := prev_day_of (bk_timestamp blk) in
  let r := ch_rewards c in
  if is_day_settled r prev_day then Ok c else
  let? day_number := day_number_since_genesis r prev_day in
  let cap := day_emission_limit day_number in
  if cap =? 0 then Ok c else
  let? allocations := allocate_emission cap in
  let amount_for := amount_for allocations in
  let? (r, g, validator_excess) := settle_validators r (ch_gems c) prev_day (amount_for Emission.Validator) in
  let f := ch_factory c in
  let? (agents, b, agent_excess) := distribute_daily (fw_agents f) (ch_balances c) prev_day
    [(AgentReward.Waa, amount_for Emission.Waa); (AgentReward.Sra, amount_for Emission.Sra); (AgentReward.Cca, amount_for Emission.Cca); (AgentReward.Merchant, amount_for Emission.Merchant)] in
  let? total := ok_or (checked_add 256 (amount_for Emission.Metadosis) validator_excess) (Revert "metadosis terminal overflow") in
  let? metadosis_total := ok_or (checked_add 256 total agent_excess) (Revert "metadosis terminal overflow") in
  let w := fw_world f in
  let? md := dispatch_terminal_remainder_at apply_sink (w_md w) metadosis_total (date_key_to_utc_timestamp prev_day) in
  let? w := start_metadosis (set_md w md) blk in
  Ok (mkChain (mark_day_settled r prev_day) g (mkFactory (used_su_hashes f) w agents) b (ch_cycle c) (last_accounted_block_number c)).

Definition run_intex_daily c blk : res (Chain X G) :=
  let f := ch_factory c in
  let? x := intex_run_daily (w_ext (fw_world f)) blk in
  Ok (set_factory c (set_world f (set_ext (fw_world f) x))).

(** ** [triggers.rs], [state.rs] and [runtime.rs] *)

Record TriggerSpec := mkTrigger {
  trigger_id : u32;
  label : string;
  period_seconds : u64;
  start_offset_seconds : u64;
  requires_accounting_window : bool;
  handler : Chain X G -> BlockContext -> res (Chain X G)
}.

Definition ACTIVE_TRIGGERS : list TriggerSpec :=
  [mkTrigger 0 "emission_limit_1" 86400 0 true run_emission_limit_daily;
   mkTrigger 1 "intex_call_daily" 86400 0 false run_intex_daily].

Record AccountingWindow := mkWindow { start_block : u64; end_inclusive : u64 }.

Definition resolve_accounting_window (spec : TriggerSpec) blk : option AccountingWindow :=
  if negb (requires_accounting_window spec) then None
  else if bk_number blk <=? 1 then None
  else if period_seconds spec =? 0 then None
  else
    let last := saturating_sub (bk_number blk) 1 in
    let offset_in_period := start_offset_seconds spec mod period_seconds spec in
    let period_start_ts := saturating_add 64 (saturating_mul 64 (saturating_sub (bk_timestamp blk) offset_in_period / period_seconds spec) (period_seconds spec)) offset_in_period in
    Some (mkWindow period_start_ts last).

Definition accounting_gate_blocks (spec : TriggerSpec) c blk : bool :=
  match resolve_accounting_window spec blk with
  | None => false
  | Some window => last_accounted_block_number c <? end_inclusive window
  end.

(** One turn of the loop. *)
Definition dispatch_trigger blk c (spec : TriggerSpec) : res (Chain X G) :=
  let block_ts := bk_timestamp blk in
  let id := trigger_id spec in
  let y := ch_cycle c in
  let last := rd (last_executed_at y) id in
  if last =? 0 then Ok (set_cycle c (mkCycle (<[id := block_ts]> (last_executed_at y)) (last_executed_block_number y))) else
  let scheduled_at := next_fire_at (period_seconds spec) (start_offset_seconds spec) last in
  if block_ts <? scheduled_at then Ok c else
  if accounting_gate_blocks spec c blk then Ok c else
  let? fired := handler spec c blk in
  let y := ch_cycle fired in
  Ok (set_cycle fired (mkCycle (<[id := scheduled_at]> (last_executed_at y)) (<[id := bk_number blk]> (last_executed_block_number y)))).

Definition dispatch_triggers c blk : res (Chain X G) := foldM (dispatch_trigger blk) c ACTIVE_TRIGGERS.

(** ** [lifecycle.rs] *)

Definition begin_block c blk : res (Chain X G) :=
  let? chain :=
    if bk_number blk =? 1 then
      let f := ch_factory c in
      let? w := init_genesis_day (fw_world f) blk in
      Ok (set_factory c (set_world f w))
    else Ok c in
  dispatch_triggers chain blk.
End Cycle.

(** ** Days on the clock *)

Definition DAY : Z := SECONDS_PER_DAY.
Definition key_of (n : Z) : u32 := Calendar.key (date n).


Lemma key_of_pos n : 0 <= n -> 0 < key_of n.
Proof.
  intros Hn. destruct (decide (n = 0)) as [->|]; [done|]. pose proof (key_date_mono 0 n ltac:(lia) ltac:(lia)) as Hk. rewrite Z.add_0_l in Hk.
  transitivity (Calendar.key (date 0)); [done|exact Hk].
Qed.

Lemma prev_day_u32 ts : is_u32 (prev_day_of ts).
Proof. unfold prev_day_of, previous_date_key. cbv zeta. generalize (saturating_sub (date_key_to_utc_timestamp (timestamp_to_date_key ts)) SECONDS_PER_DAY) as t. intros t. unfold is_u32, timestamp_to_date_key, civil_date_from_days. cbv zeta. apply Z.mod_pos_bound. lia. Qed.

Lemma timestamp_key_of ts : 0 <= ts < Calendar.horizon * DAY -> timestamp_to_date_key ts = key_of (ts / DAY).
Proof.
  intros Hts. pose proof (Z.div_mod ts DAY ltac:(done)) as E. pose proof (Z.mod_pos_bound ts DAY ltac:(done)).
  rewrite E at 1. rewrite Z.mul_comm. apply timestamp_key; [|done]. unfold DAY, SECONDS_PER_DAY, Calendar.horizon in *. lia.
Qed.

Lemma prev_day_of_spec ts : DAY <= ts < Calendar.horizon * DAY -> prev_day_of ts = key_of (ts / DAY - 1).
Proof.
  intros Hts. unfold prev_day_of. rewrite timestamp_key_of by (unfold DAY, SECONDS_PER_DAY in *; lia). unfold previous_date_key, key_of.
  assert (Hn : 1 <= ts / DAY < Calendar.horizon) by (unfold DAY, SECONDS_PER_DAY, Calendar.horizon in *; split; [apply Z.div_le_lower_bound; lia|apply Z.div_lt_upper_bound; lia]).
  rewrite date_key_of_date by lia. unfold saturating_sub. rewrite Z.max_l by (unfold SECONDS_PER_DAY; lia).
  replace (ts / DAY * SECONDS_PER_DAY - SECONDS_PER_DAY) with ((ts / DAY - 1) * SECONDS_PER_DAY + 0) by lia. apply timestamp_key; [lia|done].
Qed.










(** ** The daily run keeps its days on the clock *)

Section Timed.
Context `{Crypto} {X G : Type} `{DayServices X} `{OfferServices X} `{CycleServices X G}.
Implicit Types w : World X.









(** Times at which the model's calendar is the real one. *)
Definition in_range (ts : Z) : Prop := DAY <= ts /\ ts + UTC_PLUS_14_OFFSET < Calendar.horizon * DAY.




End Timed.

(** ** The agents' counts and the settlement *)

Section Agents.
Context `{Crypto} {X G : Type} `{DayServices X} `{OfferServices X} `{CycleServices X G}.
Implicit Types (c : Chain X G) (x : TributeIndex).

Definition ch_md c : MetadosisContract := w_md (fw_world (ch_factory c)).
Definition ch_agents c : AgentReward := fw_agents (ch_factory c).







Lemma settle_validators_settled r (g : G) day amount r' g' ex d : settle_validators r g day amount = Ok (r', g', ex) -> is_day_settled r' d = is_day_settled r d.
Proof.
  intros E. unfold settle_validators in E. cbv zeta in E. destruct (_ || _) in E; [by injection E as <- _ _|]. destruct (ok_or _ _) as [topup|] in E; [|done].
  destruct (add_topup_for_voters _ _ _ _ _ _) as [[[r1 g1] x]|] eqn:E1; [|done]. injection E as <- _ _. unfold add_topup_for_voters in E1. inv_ok E1; done.
Qed.














End Agents.

(** ** The settlement of a day *)

Section Settlement.
Context `{KeccakLaws} {X G : Type} `{DayServices X} `{OfferServices X} `{CycleServices X G}.
Implicit Types c : Chain X G.

(** The share of each sink but the last: four percent of the cap. *)
Definition part (cap : U256) : Z := cap * 4 / 100.
Definition agent_pools (cap : U256) : list (PoolKind * U256) :=
  [(AgentReward.Waa, part cap); (AgentReward.Sra, part cap); (AgentReward.Cca, part cap); (AgentReward.Merchant, part cap)].

Lemma allocate_cap cap : 0 <= cap < 2 ^ 100 -> exists l, allocate_emission cap = Ok l /\
  amount_for l Emission.Validator = part cap /\ amount_for l Emission.Waa = part cap /\ amount_for l Emission.Sra = part cap /\
  amount_for l Emission.Cca = part cap /\ amount_for l Emission.Merchant = part cap /\ amount_for l Emission.Metadosis = cap - 5 * part cap.
Proof.
  intros Hc. destruct (allocate_spec cap active_emission_sinks [(Emission.Validator, 4); (Emission.Waa, 4); (Emission.Sra, 4); (Emission.Cca, 4); (Emission.Merchant, 4)] Emission.Metadosis) as [E _].
  { split; [reflexivity|done]. } { repeat constructor; discriminate. } { lia. } { lia. }
  eexists. split; [exact E|]. split_and!; try reflexivity.
  transitivity (cap - allocation_sum (fixed_amounts cap [(Emission.Validator, 4); (Emission.Waa, 4); (Emission.Sra, 4); (Emission.Cca, 4); (Emission.Merchant, 4)])); [reflexivity|].
  unfold allocation_sum, fixed_amounts, part. cbn [fmap list_fmap fst snd amount lsum foldr]. lia.
Qed.

Lemma midnight_key n : 0 <= n < Calendar.horizon -> timestamp_to_date_key (date_key_to_utc_timestamp (key_of n)) = key_of n.
Proof. intros Hn. unfold key_of at 1. rewrite date_key_of_date by done. rewrite <- (Z.add_0_r (n * _)). by apply timestamp_key. Qed.

(** What the validators are topped up with: their share less the day's fees. *)
Definition topup_of (r : Rewards) (p : u32) (cap : U256) : Z :=
  if bool_decide (read_voters_for_day r p = []) || (part cap <=? read_daily_fee_sum_raw r p) then 0 else part cap - read_daily_fee_sum_raw r p.

Definition gems_of (r : Rewards) (p : u32) (cap : U256) : list (Address * U256) :=
  if topup_of r p cap =? 0 then [] else shares (topup_of r p cap) (lsum (snd <$> read_voters_for_day r p)) (read_voters_for_day r p).

Lemma settle_validators_spec r (g : G) p n cap : day_number_since_genesis r p = Ok n -> rd (daily_topup_settled r) p = false -> 0 < cap < 2 ^ 100 ->
  Forall (fun v => 1 <= snd v) (read_voters_for_day r p) -> lsum (snd <$> read_voters_for_day r p) < 2 ^ 64 -> 0 <= read_daily_fee_sum_raw r p ->
  exists r', settle_validators r g p (part cap) =
      (let? g' := mint_all mint_gem (if n <? 21 then Genesis else Validator) g (gems_of r p cap) in Ok (r', g', part cap - topup_of r p cap)) /\
    0 <= topup_of r p cap <= part cap.
Proof.
  intros Hn Ht Hc Hv Hs Hf. assert (Hp : 0 <= part cap < 2 ^ 100) by (unfold part; split; [apply Z.div_pos; lia|apply Z.div_lt_upper_bound; lia]).
  unfold settle_validators. cbv zeta. unfold gems_of, topup_of. set (fees := read_daily_fee_sum_raw r p) in *. set (voters := read_voters_for_day r p) in *.
  destruct (bool_decide (voters = [])) eqn:Ev; [rewrite orb_true_r; cbn [orb]; exists r; cbn; rewrite Z.sub_0_r; split; [done|lia]|].
  destruct (Z.leb_spec (part cap) fees) as [Hle|Hlt]; cbn [orb]; rewrite ?orb_false_r, ?orb_true_r; [exists r; cbn; rewrite Z.sub_0_r; split; [done|lia]|].
  rewrite (proj2 (Z.eqb_neq (part cap) 0)), (proj2 (Z.eqb_neq (part cap - fees) 0)) by lia. cbn [orb]. unfold checked_sub. rewrite (proj2 (Z.leb_le fees (part cap))) by lia. cbn [ok_or].
  assert (Hv0 : Forall (fun v => 0 <= snd v) voters) by (eapply Forall_impl; [exact Hv|]; cbn; lia).
  assert (Htot : 0 < lsum (snd <$> voters)).
  { apply bool_decide_eq_false_1 in Ev. destruct voters as [|v voters]; [done|]. apply Forall_cons_1 in Hv as [Hv1 _]. apply Forall_cons_1 in Hv0 as [_ Hv0].
    cbn [fmap list_fmap]. change (lsum (?x :: ?y)) with (x + lsum y). pose proof (lsum_nonneg (snd <$> voters) ltac:(by apply Forall_fmap)). lia. }
  destruct (topup_spec mint_gem r g p (part cap - fees) voters n Ht Hn ltac:(lia) Hv0 ltac:(lia) ltac:(nia)) as (r' & E & _).
  exists r'. rewrite E. split; [|lia]. destruct (mint_all _ _ _ _); [do 2 f_equal; lia|done].
Qed.

(** A day that has just ended and its contracts, before it is settled. *)
Record settle_pre c (p : u32) (n : u32) (l : list Z) : Prop := {
  sp_open : is_day_settled (ch_rewards c) p = false;
  sp_number : day_number_since_genesis (ch_rewards c) p = Ok n /\ 0 <= n;
  sp_topup : rd (daily_topup_settled (ch_rewards c)) p = false;
  sp_voters : Forall (fun v => 1 <= snd v) (read_voters_for_day (ch_rewards c) p) /\ lsum (snd <$> read_voters_for_day (ch_rewards c) p) < 2 ^ 64;
  sp_fees : 0 <= read_daily_fee_sum_raw (ch_rewards c) p;
  sp_agents : agent_ok (ch_agents c) (ch_balances c) /\ wf_agent (ch_agents c) /\ msum (ch_balances c) < 2 ^ 255;
  sp_limits : limits_ok (ch_md c) l /\ len l <= MAX_DAY_LIMITS_KEPT;
  sp_newest : forall d, d ∈ l -> d <= p;
  sp_room : 0 <= get_day_limit (ch_md c) p < 2 ^ 255
}.

(** The limits after the unallocated rest of day [p] was recorded. *)
Definition recorded (md md' : MetadosisContract) (p : u32) (rest : Z) : Prop :=
  exists l', limits_ok md' l' /\ len l' <= MAX_DAY_LIMITS_KEPT /\ p ∈ l' /\
    forall d, d ∈ l' -> get_day_limit md' d = get_day_limit md d + if decide (d = p) then rest else 0.

Lemma record_newest md l k rest : limits_ok md l -> len l <= MAX_DAY_LIMITS_KEPT -> 0 <= k < Calendar.horizon -> (forall d, d ∈ l -> d <= key_of k) -> 0 <= rest ->
  0 <= get_day_limit md (key_of k) -> get_day_limit md (key_of k) + rest < 2 ^ 256 ->
  recorded md (record_day_limit_at md (date_key_to_utc_timestamp (key_of k)) rest) (key_of k) rest.
Proof.
  intros K Hl Hk Hnew Hr Hg Hb. unfold record_day_limit_at. rewrite midnight_key by done. unfold MAX_DAY_LIMITS_KEPT in Hl.
  assert (Hnz : key_of k <> 0). { pose proof (key_of_pos k ltac:(lia)). lia. }
  destruct (record_day_limit_spec md l (key_of k) rest K ltac:(lia) Hnz Hr Hg Hb) as (c1 & l1 & l' & [T1 T2 T3 T4 T5] & I1 & A1).
  exists l'. split_and!; try done; [|intros d Hd; rewrite T5 by done; apply A1].
  destruct (decide (key_of k ∈ l')) as [|Hn]; [done|exfalso]. destruct (T4 (key_of k) ltac:(apply I1; by left) Hn) as [Hlen Hold].
  destruct l' as [|d l']; [by vm_compute in Hlen|]. specialize (Hold d ltac:(by left)). destruct (proj1 (I1 d) (T3 d ltac:(by left))) as [->|Hd]; [lia|]. specialize (Hnew d Hd). lia.
Qed.

Lemma settle_steps c blk n l : let p := prev_day_of (bk_timestamp blk) in let cap := day_emission_limit n in let topup := topup_of (ch_rewards c) p cap in
  settle_pre c p n l -> in_range (bk_timestamp blk) ->
  exists r' agents' b' excess md',
    run_emission_limit_daily c blk = (
      let? g' := mint_all mint_gem (if n <? 21 then Genesis else Validator) (ch_gems c) (gems_of (ch_rewards c) p cap) in
      let? w := start_metadosis (set_md (fw_world (ch_factory c)) md') blk in
      Ok (mkChain (mark_day_settled r' p) g' (mkFactory (used_su_hashes (ch_factory c)) w agents') b' (ch_cycle c) (last_accounted_block_number c))) /\
    0 <= topup <= part cap /\
    paid_daily (ch_agents c) (ch_balances c) agents' b' (agent_pools cap) excess /\
    recorded (ch_md c) md' p (cap - 5 * part cap + (part cap - topup) + excess).
Proof.
  intros p cap topup [P1 [P2 Pn] P3 [P4 P4'] P5 (P6 & P6' & P6'') [P7 P7'] P8 P9] Hr. unfold run_emission_limit_daily. cbv zeta. fold p. rewrite P1, P2. fold cap.
  pose proof (day_emission_limit_bound n Pn) as Hc. fold cap in Hc. rewrite (proj2 (Z.eqb_neq cap 0)) by lia.
  destruct (allocate_cap cap ltac:(lia)) as (al & -> & -> & -> & -> & -> & -> & ->).
  destruct (settle_validators_spec (ch_rewards c) (ch_gems c) p n cap P2 P3 Hc P4 P4' P5) as (r' & -> & Ht). fold topup in Ht |- *.
  assert (Hp : 0 <= part cap /\ 100 * part cap <= 4 * cap) by (unfold part; pose proof (Z.mul_div_le (cap * 4) 100 ltac:(lia)); split; [apply Z.div_pos; lia|lia]).
  assert (Hsum : lsum (snd <$> agent_pools cap) = 4 * part cap) by (unfold agent_pools; cbn [fmap list_fmap snd lsum foldr]; lia).
  destruct (distribute_daily_spec (agent_pools cap) (ch_agents c) (ch_balances c) 0 p P6 P6') as (a' & b' & ex & Ed & Pd).
  { apply prev_day_u32. } { unfold agent_pools. repeat (apply Forall_cons_2; [cbn [snd]; lia|]). by apply Forall_nil_2. } { lia. } { lia. } { lia. }
  assert (Hex : 0 <= ex <= 2 * part cap).
  { pose proof (pd_excess _ _ _ _ _ _ Pd) as Hx. unfold agent_total, to_pool, agent_pools in Hx. cbn [fmap list_fmap fst snd lsum foldr] in Hx. lia. }
  eexists r', a', b', ex, (record_day_limit_at (ch_md c) _ _). split.
  { destruct (mint_all _ _ _ _) as [g'|]; [|done]. unfold distribute_daily. change (fw_agents (ch_factory c)) with (ch_agents c). unfold agent_pools in Ed. rewrite Ed, Z.add_0_l.
    unfold checked_add. rewrite (proj2 (Z.ltb_lt (cap - 5 * part cap + (part cap - topup)) _)) by lia. cbn [ok_or]. rewrite (proj2 (Z.ltb_lt _ _)) by lia. cbn [ok_or].
    unfold dispatch_terminal_remainder_at. rewrite (proj2 (Z.eqb_neq _ 0)) by lia. unfold apply_sink. cbv beta iota zeta. rewrite Z.eqb_refl. cbn [negb]. reflexivity. }
  split_and!; try done; try lia.
  unfold p. destruct Hr as [Hlo Hhi]. rewrite prev_day_of_spec by (unfold UTC_PLUS_14_OFFSET in *; lia). eapply record_newest; try done.
  - unfold DAY, SECONDS_PER_DAY, UTC_PLUS_14_OFFSET, Calendar.horizon in *. split; [apply Z.le_0_sub, Z.div_le_lower_bound; lia|apply Z.lt_sub_lt_add_r, Z.div_lt_upper_bound; lia].
  - intros d Hd. rewrite <- prev_day_of_spec by (unfold UTC_PLUS_14_OFFSET in *; lia). by apply P8.
  - lia.
  - rewrite <- prev_day_of_spec by (unfold UTC_PLUS_14_OFFSET in *; lia). apply P9.
  - rewrite <- prev_day_of_spec by (unfold UTC_PLUS_14_OFFSET in *; lia). fold p. lia.
Qed.

(** C3. A day is settled exactly and once. For a day that has just ended and was not
    settled, the daily handler divides the day's cap without loss: what the
    validators are topped up with, what the agents can claim more than before, what
    the CCA and the Merchant pools hold more than before and what the Metadosis limit
    of that day grew by sum up to the cap. The gems minted are the voters' pro-rata
    shares of the top-up. The handler can fail only where the mint of one of those
    gems or the Metadosis run that follows fails, and on a chain where the day is
    settled it does nothing. *)
Theorem daily_settlement_exact c blk n l : let p := prev_day_of (bk_timestamp blk) in let cap := day_emission_limit n in let topup := topup_of (ch_rewards c) p cap in
  settle_pre c p n l -> in_range (bk_timestamp blk) ->
  exists r' agents' b' md',
    run_emission_limit_daily c blk = (
      let? g' := mint_all mint_gem (if n <? 21 then Genesis else Validator) (ch_gems c) (gems_of (ch_rewards c) p cap) in
      let? w := start_metadosis (set_md (fw_world (ch_factory c)) md') blk in
      Ok (mkChain (mark_day_settled r' p) g' (mkFactory (used_su_hashes (ch_factory c)) w agents') b' (ch_cycle c) (last_accounted_block_number c))) /\
    0 <= topup <= part cap /\
    cap = topup + (msum (claimable_rewards agents') - msum (claimable_rewards (ch_agents c))) + (rd b' CCA_ADDRESS - rd (ch_balances c) CCA_ADDRESS)
      + (rd b' MERCHANT_ADDRESS - rd (ch_balances c) MERCHANT_ADDRESS) + (get_day_limit md' p - get_day_limit (ch_md c) p) /\
    has_day_limit md' p = true /\
    forall c2 blk2, ch_rewards c2 = mark_day_settled r' p -> prev_day_of (bk_timestamp blk2) = p -> run_emission_limit_daily c2 blk2 = Ok c2.
Proof.
  cbv zeta. intros P Hr. destruct (settle_steps c blk n l P Hr) as (r' & a' & b' & ex & md' & E & Ht & Pd & (l' & K & _ & Hp & Hl)).
  exists r', a', b', md'. split; [exact E|]. split; [done|]. split; [|split].
  - rewrite (pd_credited _ _ _ _ _ _ Pd), (pd_cca _ _ _ _ _ _ Pd), (pd_merchant _ _ _ _ _ _ Pd). rewrite (Hl _ Hp), decide_True by done.
    unfold agent_total, to_pool, agent_pools. cbn [fmap list_fmap fst snd lsum foldr]. lia.
  - rewrite (lk_exists _ _ K). by apply bool_decide_eq_true_2.
  - intros c2 blk2 Er Ep. unfold run_emission_limit_daily. cbv zeta. rewrite Ep, Er. unfold is_day_settled, mark_day_settled, wr_daily_settled. cbn [daily_settled]. by rewrite rd_insert_eq.
Qed.
End Settlement.

(** ** The slots of the daily trigger *)

Section Slots.
Context `{Crypto} {X G : Type} `{DayServices X} `{OfferServices X} `{CycleServices X G}.
Implicit Types c : Chain X G.

Lemma next_slot last : 0 <= last < 2 ^ 62 -> next_fire_at 86400 0 last = (last / DAY + 1) * DAY.
Proof.
  intros Hl. unfold next_fire_at. rewrite (proj2 (Z.ltb_ge last 0)) by lia. cbv zeta. rewrite Z.sub_0_r. change 86400 with DAY.
  assert (Hq : 0 <= last / DAY /\ DAY * (last / DAY) <= last) by (split; [apply Z.div_pos; [lia|done]|by apply Z.mul_div_le]).
  unfold DAY, SECONDS_PER_DAY in *. rewrite (wadd_small 64 (last / 86400)) by lia. rewrite (wmul_small 64) by lia. rewrite wadd_small by lia. lia.
Qed.

(** The handler leaves the dispatcher's state and the settlement of other days alone. *)
Lemma handler_frame c blk c' : run_emission_limit_daily c blk = Ok c' -> ch_cycle c' = ch_cycle c /\ last_accounted_block_number c' = last_accounted_block_number c /\
  forall d, d <> prev_day_of (bk_timestamp blk) -> is_day_settled (ch_rewards c') d = is_day_settled (ch_rewards c) d.
Proof.
  intros E. unfold run_emission_limit_daily in E. cbv zeta in E. set (p := prev_day_of (bk_timestamp blk)) in *.
  destruct (is_day_settled _ _) in E; [by injection E as <-|]. destruct (day_number_since_genesis _ _) as [n|]; [|done]. destruct (_ =? 0) in E; [by injection E as <-|].
  destruct (allocate_emission _) as [l|]; [|done]. destruct (settle_validators _ _ _ _) as [[[r g] vex]|] eqn:Ev; [|done]. destruct (distribute_daily _ _ _ _) as [[[a b] ex]|]; [|done].
  destruct (ok_or _ _) as [t1|] in E; [|done]. destruct (ok_or _ _) as [t2|] in E; [|done]. destruct (dispatch_terminal_remainder_at _ _ _ _) as [m|]; [|done].
  destruct (start_metadosis _ _) as [w|]; [|done]. injection E as <-. split_and!; try done. intros d Hd. cbn [ch_rewards].
  rewrite <- (settle_validators_settled _ _ _ _ _ _ _ d Ev). unfold is_day_settled, mark_day_settled, wr_daily_settled. cbn [daily_settled]. by rewrite rd_insert_ne.
Qed.

(** A block after its parent was accounted. *)
Definition accounted_block c (blk : BlockContext) : res (Chain X G) :=
  let? chain := record_phase1_progress c (bk_number blk - 1) in begin_block chain blk.
Definition slot c : Z := rd (last_executed_at (ch_cycle c)) 0.

Lemma block_slot c blk c' : accounted_block c blk = Ok c' -> 0 < slot c < 2 ^ 62 ->
  slot c' = (if (slot c / DAY + 1) * DAY <=? bk_timestamp blk then (slot c / DAY + 1) * DAY else slot c) /\
  forall d, d <> prev_day_of (bk_timestamp blk) -> is_day_settled (ch_rewards c') d = is_day_settled (ch_rewards c) d.
Proof.
  intros E Hs. unfold accounted_block, record_phase1_progress in E. cbv zeta in E. destruct (negb _) in E; [|done]. set (c0 := mkChain _ _ _ _ _ _) in E.
  unfold begin_block in E. assert (Hb : forall c1, (if bk_number blk =? 1 then let f := ch_factory c0 in let? w := init_genesis_day (fw_world f) blk in Ok (set_factory c0 (set_world f w)) else Ok c0) = Ok c1 ->
    ch_cycle c1 = ch_cycle c /\ ch_rewards c1 = ch_rewards c /\ last_accounted_block_number c1 = bk_number blk - 1).
  { intros c1 E1. destruct (_ =? 1) in E1; [cbv zeta in E1; destruct (init_genesis_day _ _) in E1; [|done]|]; by injection E1 as <-. }
  destruct (if bk_number blk =? 1 then _ else _) as [c1|]; [|done]. destruct (Hb c1 eq_refl) as (Ey & Er & Eacc). clear Hb.
  unfold dispatch_triggers, ACTIVE_TRIGGERS in E. cbn [foldM] in E. destruct (dispatch_trigger blk c1 _) as [c2|] eqn:E2; [|done]. destruct (dispatch_trigger blk c2 _) as [c3|] eqn:E3; [|done]. injection E as <-.
  assert (H3' : slot c3 = slot c2 /\ ch_rewards c3 = ch_rewards c2).
  { unfold dispatch_trigger in E3. cbv zeta in E3. cbn [trigger_id handler] in E3. unfold slot. destruct (_ =? 0) in E3; [injection E3 as <-; cbn; by rewrite rd_insert_ne|].
    destruct (_ <? _) in E3; [by injection E3 as <-|]. destruct (accounting_gate_blocks _ _ _) in E3; [by injection E3 as <-|].
    unfold run_intex_daily in E3. cbv zeta in E3. destruct (intex_run_daily _ _) in E3; [|done]. injection E3 as <-. cbn. by rewrite rd_insert_ne. }
  destruct H3' as [-> ->]. unfold dispatch_trigger in E2. cbv zeta in E2. cbn [trigger_id handler period_seconds start_offset_seconds] in E2. rewrite Ey in E2. fold (slot c) in E2.
  rewrite (proj2 (Z.eqb_neq (slot c) 0)) in E2 by lia. rewrite next_slot in E2 by lia. rewrite (Z.leb_antisym (bk_timestamp blk)). destruct (_ <? _) in E2 |- *; cbn [negb].
  { injection E2 as <-. unfold slot. by rewrite Ey, Er. }
  assert (Eg : forall sp, accounting_gate_blocks sp c1 blk = false).
  { intros sp. unfold accounting_gate_blocks, resolve_accounting_window. destruct (negb _); [done|]. destruct (Z.leb_spec (bk_number blk) 1); [done|]. destruct (_ =? 0); [done|].
    cbv zeta. cbn [end_inclusive]. rewrite Eacc. unfold saturating_sub. apply Z.ltb_ge. lia. }
  rewrite Eg in E2. destruct (run_emission_limit_daily c1 blk) as [c4|] eqn:E4; [|done]. injection E2 as <-. destruct (handler_frame _ _ _ E4) as (_ & _ & Hd). split.
  - unfold slot. cbn. apply rd_insert_eq.
  - intros d Hne. cbn [ch_rewards set_cycle]. rewrite <- Er. by apply Hd.
Qed.

(** C6. After a clock jump the missed slots are fired one per block. Take blocks that
    all fall into UTC day [D] on a chain whose last slot lies in day [j <= D]: every
    block advances the slot by exactly one day until it reaches day [D], so that
    catching up over [D - j] missed slots takes [D - j] blocks, and a later block of
    that day fires nothing. All of them can settle only the day before [D]: no day
    skipped by the jump is ever settled by them. *)
Theorem clock_jump_exact c blks c' D j : foldM accounted_block c blks = Ok c' ->
  0 < slot c -> slot c / DAY = j -> 1 <= j <= D -> D < Calendar.horizon - 1 -> Forall (fun blk => bk_timestamp blk / DAY = D) blks ->
  slot c' / DAY = Z.min D (j + len blks) /\
  forall d, d <> key_of (D - 1) -> is_day_settled (ch_rewards c') d = is_day_settled (ch_rewards c) d.
Proof.
  revert c j. induction blks as [|blk blks IH]; intros c j E Hs Ej Hj HD Hf; cbn [foldM] in E.
  { injection E as <-. unfold len. cbn [length]. split; [lia|done]. }
  destruct (accounted_block c blk) as [c1|] eqn:E1; [|done]. apply Forall_cons_1 in Hf as [Hb Hf].
  assert (Hdm : forall x, x = DAY * (x / DAY) + x mod DAY /\ 0 <= x mod DAY < DAY) by (intros x; split; [by apply Z.div_mod|by apply Z.mod_pos_bound]).
  assert (Hts : DAY <= bk_timestamp blk < Calendar.horizon * DAY) by (pose proof (Hdm (bk_timestamp blk)); unfold DAY, SECONDS_PER_DAY in *; nia).
  destruct (block_slot c blk c1 E1) as [Hslot Hset]; [pose proof (Hdm (slot c)); unfold DAY, SECONDS_PER_DAY, Calendar.horizon in *; nia|]. rewrite Ej in Hslot.
  rewrite prev_day_of_spec, Hb in Hset by done. pose proof (Hdm (bk_timestamp blk)) as [Hd1 Hd2]. rewrite Hb in Hd1.
  assert (Hnext : slot c1 / DAY = Z.min D (j + 1) /\ 0 < slot c1).
  { rewrite Hslot. destruct (Z.leb_spec ((j + 1) * DAY) (bk_timestamp blk)); [rewrite Z.div_mul by done|rewrite Ej]; unfold DAY, SECONDS_PER_DAY in *; split; nia. }
  destruct Hnext as [Hn1 Hn2]. destruct (IH c1 (Z.min D (j + 1)) E Hn2 Hn1 ltac:(lia) HD Hf) as [I1 I2]. split.
  - rewrite I1. unfold len. cbn [length]. lia.
  - intros d Hd. rewrite I2 by done. by apply Hset.
Qed.
End Slots.

(** ** A sample chain *)

#[local] Existing Instance sample_crypto.
#[local] Existing Instance sample_keccak.
#[local] Existing Instance sample_services.
#[local] Existing Instance sample_offers.

Definition sample_cycle : CycleServices unit (list (Address * U256)) := {| mint_gem := sample_mint; intex_run_daily x _ := Ok x |}.
#[local] Existing Instance sample_cycle.

(** A development chain since 2024-10-01, with one voter of weight 3 and fees of 7 on
    the fourth. *)
Definition sample_rewards : Rewards :=
  let r := no_rewards in
  {| r with genesis_utc_day := 20241001; daily_voter_count := <[20241004 := 1]> ∅; daily_voter_at := <[(20241004, 0) := 5]> ∅;
     daily_participation := <[(20241004, 5) := 3]> ∅; daily_fee_sum_raw := <[20241004 := 7]> ∅ |}.
Definition sample_chain : Chain unit (list (Address * U256)) :=
  mkChain sample_rewards [] (mkFactory ∅ sample_start (mkAgent (mkIndex ∅ ∅ ∅) (mkIndex ∅ ∅ ∅) ∅)) ∅ (mkCycle ∅ ∅) 100.
Definition block_at (number day : Z) : BlockContext := mkBlock number (day * DAY) DEVNET_CHAIN_ID.
Definition after (r : res (Chain unit (list (Address * U256)))) : Chain unit (list (Address * U256)) := match r with Ok c => c | Err _ => sample_chain end.

(** Three midnights, an offer for the first day, and the next midnight. *)
Definition sample_open : Chain unit (list (Address * U256)) := after (foldM begin_block sample_chain [block_at 1 20000; block_at 2 20001; block_at 3 20002]).
Definition sample_taken : Chain unit (list (Address * U256)) :=
  match offer_tribute (ch_factory sample_open) 3 [20241004] [] 0 840 with Ok (f, _) => set_factory sample_open f | Err _ => sample_open end.
Definition sample_later : Chain unit (list (Address * U256)) := after (begin_block sample_taken (block_at 4 20003)).

Lemma in_range_day n : 1 <= n < 1000000 -> in_range (n * DAY).
Proof. unfold in_range, DAY, SECONDS_PER_DAY, UTC_PLUS_14_OFFSET, Calendar.horizon. lia. Qed.


Lemma sample_settle_pre : settle_pre sample_chain 20241004 3 [].
Proof.
  split.
  - reflexivity.
  - split; [vm_compute; reflexivity|lia].
  - reflexivity.
  - change (read_voters_for_day (ch_rewards sample_chain) 20241004) with [(5, 3)]. split; [|reflexivity]. apply Forall_cons_2; [discriminate|by apply Forall_nil_2].
  - discriminate.
  - split; [exact empty_agent_ok|]. split; [split; exact empty_index_wf|]. change (ch_balances sample_chain) with (∅ : Balances). by rewrite msum_empty.
  - split; [|discriminate]. split; [|constructor|constructor| |reflexivity].
    + split; [reflexivity|split; [reflexivity|intros i Hi; cbn in Hi; lia]].
    + intros d. by rewrite bool_decide_eq_false_2 by apply not_elem_of_nil.
  - intros d Hd. by apply not_elem_of_nil in Hd.
  - split; [discriminate|reflexivity].
Qed.

Lemma sample_prev_day : prev_day_of (bk_timestamp (block_at 2 20001)) = 20241004.
Proof. vm_compute. reflexivity. Qed.

Lemma daily_settlement_exact_witness : is_ok (run_emission_limit_daily sample_chain (block_at 2 20001)) = true /\ exists agents' b' md', has_day_limit md' 20241004 = true /\
  day_emission_limit 3 = 42827502327392364999852680 + (msum (claimable_rewards agents') - 0) + (rd b' CCA_ADDRESS - 0) + (rd b' MERCHANT_ADDRESS - 0) + (get_day_limit md' 20241004 - 0).
Proof.
  split; [vm_compute; reflexivity|].
  pose proof (daily_settlement_exact sample_chain (block_at 2 20001) 3 []) as T. cbv zeta in T. rewrite sample_prev_day in T.
  specialize (T sample_settle_pre (in_range_day 20001 ltac:(lia))).
  destruct T as (r' & a' & b' & md' & _ & _ & Hc & Hh & _). exists a', b', md'. split; [exact Hh|].
  assert (Et : topup_of (ch_rewards sample_chain) 20241004 (day_emission_limit 3) = 42827502327392364999852680) by (vm_compute; reflexivity). rewrite Et in Hc.
  assert (E0 : msum (claimable_rewards (ch_agents sample_chain)) = 0) by apply msum_empty. rewrite E0 in Hc. exact Hc.
Defined.

Lemma clock_jump_exact_witness : exists c c', foldM accounted_block c [block_at 101 20003; block_at 102 20003] = Ok c' /\ slot c / DAY = 20000 /\ slot c' / DAY = 20002 /\
  is_day_settled (ch_rewards c') 20241005 = false.
Proof.
  destruct (begin_block sample_chain (block_at 1 20000)) as [c|e] eqn:E1; [|vm_compute in E1; discriminate E1]. exists c.
  assert (Hs : slot c = 20000 * DAY /\ is_day_settled (ch_rewards c) 20241005 = false /\ is_ok (foldM accounted_block c [block_at 101 20003; block_at 102 20003]) = true).
  { vm_compute in E1. injection E1 as <-. split; [vm_compute; reflexivity|]. split; vm_compute; reflexivity. }
  destruct Hs as (Hs & Hf & Hk). destruct (foldM accounted_block c [block_at 101 20003; block_at 102 20003]) as [c'|e] eqn:E; [|discriminate Hk]. exists c'.
  destruct (clock_jump_exact c _ c' 20003 20000 E) as [H1 H2].
  - rewrite Hs. reflexivity.
  - rewrite Hs. reflexivity.
  - lia.
  - reflexivity.
  - apply Forall_cons_2; [reflexivity|]. apply Forall_cons_2; [reflexivity|]. by apply Forall_nil_2.
  - split; [reflexivity|]. split; [rewrite Hs; reflexivity|]. split; [exact H1|]. rewrite H2; [exact Hf|]. vm_compute. discriminate.
Defined.
