(* ===== verification/Oracle.v ===== *)
(** * Oracle: pairs, exchange rates, feeders and votes

    [crates/system/oracle/src/contract.rs], and of [logic.rs] the pair registry,
    the exchange rates, the feeder delegation, the votes of a period and the
    penalty counters. The slots of the contract are grouped as the comments of
    [contract.rs] group them; a nested mapping is a map keyed by pairs. The price
    history is in [OraclePrices.v], the tally in [OracleTally.v]. *)

From Stdlib Require Import Ascii.
From S2P Require Import Prelude Storage ValidatorSet.

(** ** Text *)

(** The bytes of a string. *)
Definition str_bytes (s : string) : list Z := (fun a => Z.of_N (N_of_ascii a)) <$> String.list_ascii_of_string s.

Definition SLASH : Z := 47.
(** [str::contains('/')] and [str::is_empty] *)
Definition contains_slash (s : string) : bool := existsb (Z.eqb SLASH) (str_bytes s).
Definition str_is_empty (s : string) : bool := match s with EmptyString => true | _ => false end.

#[global] Instance zeroed_string : Zeroed string := EmptyString.

(** ** [contract.rs] *)

Definition SCALE_1E18 : U256 := 1000000000000000000.

Record OracleConfig := mkOracleConfig {
  config_vote_period : u64;
  config_reward_band : U256;
  config_slash_window : u64;
  config_min_valid_per_window : U256;
  config_slash_fraction : U256;
  config_lookback_duration : u64;
  config_enabled : bool;
  oracle_is_initialized : bool;
  config_allow_protected : bool
}.

Record PairRegistry := mkPairs {
  pair_count : u32;
  pair_id_to_hash : gmap u32 B256;
  pair_hash_to_id : gmap B256 u32;
  vote_target : gmap B256 bool;
  pair_id_to_base : gmap u32 string;
  pair_id_to_quote : gmap u32 string
}.

Record ExchangeRates := mkRates {
  exchange_rate : gmap B256 U256;
  exchange_rate_block : gmap B256 u64;
  exchange_rate_timestamp : gmap B256 u64
}.

Record PenaltyCounters := mkPenalty {
  penalty_success_count : gmap Address u64;
  penalty_abstain_count : gmap Address u64;
  penalty_miss_count : gmap Address u64;
  protected_validator : gmap Address bool
}.

Record Votes := mkVotes {
  vote_exists : gmap Address bool;
  vote_tuple_count : gmap Address u32;
  vote_pair_id : gmap (Address * u32) u32;
  vote_rate : gmap (Address * u32) U256;
  vote_volume : gmap (Address * u32) U256;
  voter_list : SVec Address
}.

Record PriceHistory := mkHistory {
  snapshot_write_idx : u64;
  snapshot_oldest_idx : u64;
  snapshot_timestamp : gmap u64 u64;
  snapshot_pair_count : gmap u64 u32;
  snapshot_pair_id : gmap (u64 * u32) u32;
  snapshot_rate : gmap (u64 * u32) U256;
  snapshot_volume : gmap (u64 * u32) U256;
  daily_pv_sum : gmap (u32 * u64) U256;
  daily_vol_sum : gmap (u32 * u64) U256
}.

Record SCurves := mkSCurves {
  scurve_count : u32;
  scurve_pair_id : gmap u32 u32;
  scurve_peak_day : gmap u32 u64;
  scurve_peak_price : gmap u32 U256;
  scurve_oldest_idx : u32;
  scurve_last_processed_day : u64
}.

Record Settlement := mkSettlement {
  settlement_count : u32;
  settlement_iso_to_denom : gmap Z B256;
  settlement_iso_to_pair : gmap Z B256;
  settlement_index_to_iso : gmap u32 Z;
  settlement_iso_to_denom_string : gmap Z string;
  reference_currencies : SVec Z
}.

Record DayVwaps := mkDayVwaps {
  worldwide_day_vwap_exists : gmap u32 bool;
  worldwide_day_vwap_start : gmap u32 u64;
  worldwide_day_vwap_end : gmap u32 u64;
  worldwide_day_vwap_pair_count : gmap u32 u32;
  worldwide_day_vwap_pair_id : gmap (u32 * u32) u32;
  worldwide_day_vwap_value : gmap (u32 * u32) U256
}.

Inductive OracleEvent : Type :=
| ExchangeRateUpdated (pairId : u32) (rate : U256) (blockNumber : u64)
| TallyCompleted (blockNumber : u64) (pairsUpdated : u32)
| ScurvePeakDetected (pairId : u32) (peakPrice : U256) (peakDay : u64)
| OracleForcedExit (validator : Address)
| OracleValidatorSlashed (validator : Address) (slashPercent : u64).

Record OracleContract := mkOracle {
  oc_config : OracleConfig;
  oc_pairs : PairRegistry;
  oc_rates : ExchangeRates;
  feeder_delegation : gmap Address Address;
  oc_penalty : PenaltyCounters;
  oc_votes : Votes;
  oc_history : PriceHistory;
  oc_scurves : SCurves;
  oc_settlement : Settlement;
  oc_days : DayVwaps;
  oc_events : list OracleEvent
}.

Definition set_oc_config (o : OracleContract) (c : OracleConfig) : OracleContract := {| o with oc_config := c |}.
Definition set_pairs (o : OracleContract) (p : PairRegistry) : OracleContract := {| o with oc_pairs := p |}.
Definition set_rates (o : OracleContract) (r : ExchangeRates) : OracleContract := {| o with oc_rates := r |}.
Definition set_feeders (o : OracleContract) (f : gmap Address Address) : OracleContract := {| o with feeder_delegation := f |}.
Definition set_penalty (o : OracleContract) (p : PenaltyCounters) : OracleContract := {| o with oc_penalty := p |}.
Definition set_votes (o : OracleContract) (v : Votes) : OracleContract := {| o with oc_votes := v |}.
Definition set_history (o : OracleContract) (h : PriceHistory) : OracleContract := {| o with oc_history := h |}.
Definition set_scurves (o : OracleContract) (c : SCurves) : OracleContract := {| o with oc_scurves := c |}.
Definition set_settlement (o : OracleContract) (x : Settlement) : OracleContract := {| o with oc_settlement := x |}.
Definition set_days (o : OracleContract) (d : DayVwaps) : OracleContract := {| o with oc_days := d |}.
Definition oc_emit (o : OracleContract) (e : OracleEvent) : OracleContract := {| o with oc_events := oc_events o ++ [e] |}.

(** ** [logic.rs]: the pair registry *)

Section Registry.
Context `{Crypto}.

Definition pair_hash (base quote : string) : B256 := keccak256 (str_bytes base ++ [SLASH] ++ str_bytes quote).

Definition register_pair (p : PairRegistry) (base quote : string) : res (PairRegistry * u32) :=
  ensure negb (contains_slash base || contains_slash quote) else Revert "pair base/quote must not contain '/' separator" in
  ensure negb (str_is_empty base || str_is_empty quote) else Revert "pair base/quote must not be empty" in
  let hash := pair_hash base quote in
  ensure rd (pair_hash_to_id p) hash =? 0 else Revert "pair already registered" in
  let new_id := wadd 32 (pair_count p) 1 in
  Ok ({| pair_count := new_id;
         pair_id_to_hash := <[new_id := hash]> (pair_id_to_hash p);
         pair_hash_to_id := <[hash := new_id]> (pair_hash_to_id p);
         vote_target := <[hash := true]> (vote_target p);
         pair_id_to_base := <[new_id := base]> (pair_id_to_base p);
         pair_id_to_quote := <[new_id := quote]> (pair_id_to_quote p) |}, new_id).

Definition wr_vote_target (p : PairRegistry) (hash : B256) (v : bool) : PairRegistry :=
  {| p with vote_target := <[hash := v]> (vote_target p) |}.

Definition deactivate_vote_target (p : PairRegistry) (caller : Address) (base quote : string) : res PairRegistry :=
  ensure caller =? 0 else Revert "only system can deactivate vote target" in
  let hash := pair_hash base quote in
  ensure negb (rd (pair_hash_to_id p) hash =? 0) else Revert "pair not registered" in
  Ok (wr_vote_target p hash false).

Definition activate_vote_target (p : PairRegistry) (caller : Address) (base quote : string) : res PairRegistry :=
  ensure caller =? 0 else Revert "only system can activate vote target" in
  let hash := pair_hash base quote in
  ensure negb (rd (pair_hash_to_id p) hash =? 0) else Revert "pair not registered" in
  Ok (wr_vote_target p hash true).

Definition get_pair_id (p : PairRegistry) (base quote : string) : u32 := rd (pair_hash_to_id p) (pair_hash base quote).
Definition is_vote_target (p : PairRegistry) (base quote : string) : bool := rd (vote_target p) (pair_hash base quote).

(** The ids of all the pairs, and of those that are voted on. *)
Definition pair_ids (p : PairRegistry) : list u32 := seqZ 1 (pair_count p).
Definition is_target_id (p : PairRegistry) (pid : u32) : bool := rd (vote_target p) (rd (pair_id_to_hash p) pid).
Definition get_vote_targets (p : PairRegistry) : list u32 := filter (fun pid => is_target_id p pid = true) (pair_ids p).

(** ** [logic.rs]: exchange rates *)

Definition update_exchange_rate (r : ExchangeRates) (hash : B256) (rate : U256) (block_number timestamp : u64) : ExchangeRates :=
  {| exchange_rate := <[hash := rate]> (exchange_rate r);
     exchange_rate_block := <[hash := block_number]> (exchange_rate_block r);
     exchange_rate_timestamp := <[hash := timestamp]> (exchange_rate_timestamp r) |}.

Definition get_exchange_rate (o : OracleContract) (base quote : string) : res (U256 * u64 * u64) :=
  let hash := pair_hash base quote in
  ensure negb (rd (pair_hash_to_id (oc_pairs o)) hash =? 0) else Revert "pair not registered" in
  let r := oc_rates o in
  Ok (rd (exchange_rate r) hash, rd (exchange_rate_block r) hash, rd (exchange_rate_timestamp r) hash).

Definition set_exchange_rate (o : OracleContract) (caller : Address) (base quote : string) (rate : U256) (block_number timestamp : u64) :
    res OracleContract :=
  ensure caller =? 0 else Revert "only system can set exchange rate directly" in
  let hash := pair_hash base quote in
  ensure negb (rd (pair_hash_to_id (oc_pairs o)) hash =? 0) else Revert "pair not registered" in
  Ok (set_rates o (update_exchange_rate (oc_rates o) hash rate block_number timestamp)).

Definition remove_excess_feeds (p : PairRegistry) (r : ExchangeRates) : ExchangeRates :=
  foldl (fun r pid =>
           let hash := rd (pair_id_to_hash p) pid in
           if rd (vote_target p) hash then r else update_exchange_rate r hash 0 0 0)
        r (pair_ids p).

(** ** [logic.rs]: feeder delegation *)

Definition get_feeder (o : OracleContract) (validator : Address) : Address := rd (feeder_delegation o) validator.

Definition delegate_feeder (vs : ValidatorSet) (o : OracleContract) (validator feeder : Address) : res OracleContract :=
  ensure (if get_validator vs validator is Some _ then true else false) else Revert "not a registered validator" in
  Ok (set_feeders o (<[validator := feeder]> (feeder_delegation o))).

Definition resolve_validator_for_feeder (vs : ValidatorSet) (o : OracleContract) (caller : Address) : res Address :=
  let all := get_all_validators vs in
  let delegated v := rd (feeder_delegation o) v in
  if existsb (fun v => (validator_address v =? caller) && ((delegated caller =? 0) || (delegated caller =? caller))) all
  then Ok caller
  else match List.find (fun v => delegated (validator_address v) =? caller) all with
       | Some v => Ok (validator_address v)
       | None => Err (Revert "caller is not a validator or delegated feeder")
       end.

(** ** [logic.rs]: votes *)

Fixpoint has_duplicate_pair (tuples : list (B256 * U256 * U256)) : bool :=
  match tuples with
  | [] => false
  | (h, _, _) :: rest => existsb (fun '(h', _, _) => h =? h') rest || has_duplicate_pair rest
  end.

(** One row of a stored vote. *)
Definition write_vote_tuple (validator : Address) (v : Votes) (idx pair_id : u32) (rate volume : U256) : Votes :=
  {| v with vote_pair_id := <[(validator, idx) := pair_id]> (vote_pair_id v);
     vote_rate := <[(validator, idx) := rate]> (vote_rate v);
     vote_volume := <[(validator, idx) := volume]> (vote_volume v) |}.

(** Mark the vote, store its rows, enlist the voter. *)
Definition store_vote (v : Votes) (validator : Address) (entries : list (u32 * U256 * U256)) : Votes :=
  let v := {| v with vote_exists := <[validator := true]> (vote_exists v);
              vote_tuple_count := <[validator := len entries mod 2 ^ 32]> (vote_tuple_count v) |} in
  let v := foldl (fun v '(i, (pair_id, rate, volume)) => write_vote_tuple validator v i pair_id rate volume)
                 v (combine (seqZ 0 (len entries)) entries) in
  {| v with voter_list := vec_push (voter_list v) validator |}.

Definition submit_vote (vs : ValidatorSet) (o : OracleContract) (caller : Address) (tuples : list (B256 * U256 * U256)) : res OracleContract :=
  let? validator := resolve_validator_for_feeder vs o caller in
  let p := oc_pairs o in
  ensure negb (len tuples mod 2 ^ 32 >? pair_count p) else Revert "vote tuple count exceeds registered pair count" in
  ensure negb (has_duplicate_pair tuples) else Revert "duplicate pair in vote submission" in
  ensure forallb (fun '(h, _, _) => rd (vote_target p) h) tuples else Revert "pair is not a vote target" in
  ensure negb (rd (vote_exists (oc_votes o)) validator) else Revert "validator already voted this period" in
  Ok (set_votes o (store_vote (oc_votes o) validator ((fun '(h, rate, volume) => (rd (pair_hash_to_id p) h, rate, volume)) <$> tuples))).

(** The voter at an index, zero outside the list. *)
Definition voter_at (v : Votes) (i : u32) : Address := default 0 (vec_get (voter_list v) i).
Definition voters (v : Votes) : list Address := voter_at v <$> seqZ 0 (vlen (voter_list v)).

Definition clear_vote (v : Votes) (voter : Address) : Votes :=
  let v := {| v with vote_exists := <[voter := false]> (vote_exists v) |} in
  let tuple_count := rd (vote_tuple_count v) voter in
  let v := foldl (fun v j => write_vote_tuple voter v j 0 0 0) v (seqZ 0 tuple_count) in
  {| v with vote_tuple_count := <[voter := 0]> (vote_tuple_count v) |}.

Definition clear_votes (v : Votes) : Votes :=
  let v := foldl clear_vote v (voters v) in
  {| v with voter_list := vec_clear (voter_list v) |}.

(** The rows of a stored vote. *)
Definition vote_rows (v : Votes) (validator : Address) : list (u32 * U256 * U256) :=
  (fun i => (rd (vote_pair_id v) (validator, i), rd (vote_rate v) (validator, i), rd (vote_volume v) (validator, i)))
    <$> seqZ 0 (rd (vote_tuple_count v) validator).

Definition get_aggregate_vote (v : Votes) (validator : Address) : bool * list u32 * list U256 * list U256 :=
  if rd (vote_exists v) validator then
    let rows := vote_rows v validator in
    (true, (fun '(p, _, _) => p) <$> rows, (fun '(_, r, _) => r) <$> rows, (fun '(_, _, w) => w) <$> rows)
  else (false, [], [], []).

(** ** [logic.rs]: penalty counters *)

Definition increment_success (c : PenaltyCounters) (a : Address) : PenaltyCounters :=
  {| c with penalty_success_count := <[a := wadd 64 (rd (penalty_success_count c) a) 1]> (penalty_success_count c) |}.
Definition increment_abstain (c : PenaltyCounters) (a : Address) : PenaltyCounters :=
  {| c with penalty_abstain_count := <[a := wadd 64 (rd (penalty_abstain_count c) a) 1]> (penalty_abstain_count c) |}.
Definition increment_miss (c : PenaltyCounters) (a : Address) : PenaltyCounters :=
  {| c with penalty_miss_count := <[a := wadd 64 (rd (penalty_miss_count c) a) 1]> (penalty_miss_count c) |}.
Definition reset_penalty_counter (c : PenaltyCounters) (a : Address) : PenaltyCounters :=
  {| c with penalty_success_count := <[a := 0]> (penalty_success_count c);
     penalty_abstain_count := <[a := 0]> (penalty_abstain_count c);
     penalty_miss_count := <[a := 0]> (penalty_miss_count c) |}.

Definition get_slash_window_progress (o : OracleContract) (validator : Address) : u64 * u64 * u64 * u64 :=
  let c := oc_penalty o in
  (rd (penalty_success_count c) validator, rd (penalty_abstain_count c) validator, rd (penalty_miss_count c) validator,
   config_slash_window (oc_config o)).

(** ** [logic.rs]: bulk views *)

Definition get_exchange_rates (o : OracleContract) : list U256 * list u64 * list u64 :=
  let hashes := rd (pair_id_to_hash (oc_pairs o)) <$> pair_ids (oc_pairs o) in
  (rd (exchange_rate (oc_rates o)) <$> hashes, rd (exchange_rate_block (oc_rates o)) <$> hashes,
   rd (exchange_rate_timestamp (oc_rates o)) <$> hashes).

Definition get_pairs (p : PairRegistry) : list u32 * list string * list string * list bool :=
  (pair_ids p, rd (pair_id_to_base p) <$> pair_ids p, rd (pair_id_to_quote p) <$> pair_ids p, is_target_id p <$> pair_ids p).

Definition get_settlement_currencies (x : Settlement) : list Z * list string * list B256 * list B256 :=
  let isos := rd (settlement_index_to_iso x) <$> seqZ 0 (settlement_count x) in
  (isos, rd (settlement_iso_to_denom_string x) <$> isos, rd (settlement_iso_to_denom x) <$> isos, rd (settlement_iso_to_pair x) <$> isos).

(** ** [api.rs] *)

Definition check_reference_currency (x : Settlement) (iso_code : Z) : res unit :=
  ensure existsb (Z.eqb iso_code) (omap (vec_get (reference_currencies x)) (seqZ 0 (vlen (reference_currencies x))))
  else Revert "iso_code is not a registered reference currency" in
  Ok tt.

Definition api_get_pair_id (o : OracleContract) (iso_code : Z) : res u32 :=
  let pair := rd (settlement_iso_to_pair (oc_settlement o)) iso_code in
  let id := rd (pair_hash_to_id (oc_pairs o)) pair in
  ensure negb (id =? 0) else Revert "pair not registered" in
  Ok id.
End Registry.

(** ** Pair names *)

Lemma str_bytes_inj s1 s2 : str_bytes s1 = str_bytes s2 -> s1 = s2.
Proof.
  intros E. assert (Inj eq eq (fun a => Z.of_N (N_of_ascii a))).
  { intros a b E1. apply N2Z.inj in E1. by rewrite <- (ascii_N_embedding a), E1, ascii_N_embedding. }
  apply (inj (fmap (fun a => Z.of_N (N_of_ascii a)))) in E.
  by rewrite <- (String.string_of_list_ascii_of_string s1), E, String.string_of_list_ascii_of_string.
Qed.

Lemma str_bytes_bytes s : bytes (str_bytes s).
Proof.
  apply Forall_fmap, Forall_forall. intros a _. cbn. destruct a as [[] [] [] [] [] [] [] []]; vm_compute; split; congruence.
Qed.

(** The first separator of a byte string splits it in one way only. *)
Lemma split_at_slash (l1 l2 r1 r2 : list Z) :
  SLASH ∉ l1 -> SLASH ∉ l2 -> l1 ++ SLASH :: r1 = l2 ++ SLASH :: r2 -> l1 = l2 /\ r1 = r2.
Proof.
  revert l2. induction l1 as [|x l1 IH]; intros [|y l2] H1 H2 E; cbn [app] in E.
  - by injection E as ->.
  - destruct H2. injection E as -> _. by left.
  - destruct H1. injection E as -> _. by left.
  - injection E as -> E. apply not_elem_of_cons in H1 as [_ H1], H2 as [_ H2]. destruct (IH l2 H1 H2 E). by subst.
Qed.

Lemma contains_slash_spec s : contains_slash s = bool_decide (SLASH ∈ str_bytes s).
Proof.
  unfold contains_slash. apply Bool.eq_iff_eq_true. rewrite bool_decide_eq_true, existsb_exists. setoid_rewrite <- list_elem_of_In.
  split; [intros (x & Hx & E); bools; by subst|]. intros Hx. exists SLASH. split; [done|apply Z.eqb_refl].
Qed.

(** A name that can be registered. *)
Definition pair_name_ok (base quote : string) : bool :=
  negb (contains_slash base || contains_slash quote) && negb (str_is_empty base || str_is_empty quote).

Lemma name_ok_no_slash b q : pair_name_ok b q = true -> SLASH ∉ str_bytes b.
Proof.
  unfold pair_name_ok. rewrite !contains_slash_spec. intros Hn. apply andb_prop in Hn as [Hn _].
  by apply negb_true_iff, orb_false_elim in Hn as [Hn%bool_decide_eq_false _].
Qed.

Lemma pair_hash_bytes b q : bytes (str_bytes b ++ [SLASH] ++ str_bytes q).
Proof. apply bytes_app; [apply str_bytes_bytes|]. apply bytes_app; [|apply str_bytes_bytes]. constructor; [unfold SLASH; lia|constructor]. Qed.

Lemma pair_hash_inj `{KeccakLaws} b1 q1 b2 q2 :
  pair_name_ok b1 q1 = true -> pair_name_ok b2 q2 = true -> pair_hash b1 q1 = pair_hash b2 q2 -> b1 = b2 /\ q1 = q2.
Proof.
  intros H1%name_ok_no_slash H2%name_ok_no_slash E. apply keccak_inj in E; [|apply pair_hash_bytes..].
  destruct (split_at_slash (str_bytes b1) (str_bytes b2) (str_bytes q1) (str_bytes q2)) as [E1 E2]; [done..|]. split; by apply str_bytes_inj.
Qed.

(** ** The registry is a bijection

    Ids [1 .. pair_count] and the hashes of their names, with every vote target
    among them. *)

Record pairs_ok `{Crypto} (p : PairRegistry) : Prop := {
  po_count : 0 <= pair_count p < 2 ^ 32;
  po_name i : 1 <= i <= pair_count p ->
    pair_name_ok (rd (pair_id_to_base p) i) (rd (pair_id_to_quote p) i) = true /\
    rd (pair_id_to_hash p) i = pair_hash (rd (pair_id_to_base p) i) (rd (pair_id_to_quote p) i);
  po_id i : 1 <= i <= pair_count p -> rd (pair_hash_to_id p) (rd (pair_id_to_hash p) i) = i;
  po_hash h : rd (pair_hash_to_id p) h <> 0 ->
    1 <= rd (pair_hash_to_id p) h <= pair_count p /\ rd (pair_id_to_hash p) (rd (pair_hash_to_id p) h) = h;
  po_target h : rd (vote_target p) h = true -> rd (pair_hash_to_id p) h <> 0
}.

Section PairsOk.
Context `{KeccakLaws}.
Implicit Types p : PairRegistry.

Lemma register_pair_Ok p base quote p' id :
  register_pair p base quote = Ok (p', id) <->
  pair_name_ok base quote = true /\ rd (pair_hash_to_id p) (pair_hash base quote) = 0 /\ id = wadd 32 (pair_count p) 1 /\
  p' = {| pair_count := id; pair_id_to_hash := <[id := pair_hash base quote]> (pair_id_to_hash p);
          pair_hash_to_id := <[pair_hash base quote := id]> (pair_hash_to_id p); vote_target := <[pair_hash base quote := true]> (vote_target p);
          pair_id_to_base := <[id := base]> (pair_id_to_base p); pair_id_to_quote := <[id := quote]> (pair_id_to_quote p) |}.
Proof.
  unfold register_pair, pair_name_ok. destruct (negb (contains_slash base || contains_slash quote)), (negb (str_is_empty base || str_is_empty quote));
    cbn [andb]; [|split; [discriminate|intros (? & _); discriminate]..].
  destruct (rd (pair_hash_to_id p) (pair_hash base quote) =? 0) eqn:E; bools; [|split; [discriminate|naive_solver]].
  split; [intros [= <- <-]; done|]. intros (_ & _ & -> & ->). done.
Qed.

Lemma register_pair_ok p base quote p' id :
  pairs_ok p -> pair_count p < 2 ^ 32 - 1 -> register_pair p base quote = Ok (p', id) ->
  pairs_ok p' /\ id = pair_count p + 1 /\ pair_count p' = id.
Proof.
  intros Hp Hc (Hn & Hf & Hid & ->)%register_pair_Ok. destruct (po_count _ Hp) as [Hc0 Hc1]. rewrite wadd_small in Hid by lia.
  split; [|done]. assert (Hne : forall i, 1 <= i <= pair_count p -> pair_hash base quote <> rd (pair_id_to_hash p) i).
  { intros i Hi Hq. rewrite Hq, (po_id _ Hp i Hi) in Hf. lia. }
  split; cbn [pair_count pair_id_to_hash pair_hash_to_id vote_target pair_id_to_base pair_id_to_quote]; [lia|..].
  - intros i Hi. rewrite !rd_insert. destruct (decide (id = i)) as [<-|]; [done|]. apply (po_name _ Hp). lia.
  - intros i Hi. rewrite (rd_insert (pair_id_to_hash p)). destruct (decide (id = i)) as [<-|Hni]; [by rewrite rd_insert_eq|].
    rewrite rd_insert_ne by (apply Hne; lia). apply (po_id _ Hp). lia.
  - intros h. rewrite (rd_insert (pair_hash_to_id p)). destruct (decide (pair_hash base quote = h)) as [<-|Hh].
    + intros _. rewrite rd_insert_eq. lia.
    + intros Hz. destruct (po_hash _ Hp h Hz) as [Hr Hq]. split; [lia|]. by rewrite rd_insert_ne by lia.
  - intros h. rewrite !rd_insert. destruct (decide (pair_hash base quote = h)) as [<-|]; [lia|apply (po_target _ Hp)].
Qed.

Lemma wr_vote_target_ok p h v : pairs_ok p -> rd (pair_hash_to_id p) h <> 0 -> pairs_ok (wr_vote_target p h v).
Proof.
  intros Hp Hh. split; cbn; [apply (po_count _ Hp)|apply (po_name _ Hp)|apply (po_id _ Hp)|apply (po_hash _ Hp)|].
  intros h'. rewrite rd_insert. destruct (decide (h = h')) as [<-|]; [done|apply (po_target _ Hp)].
Qed.

(** Names are looked up exactly: a well-formed name has an id exactly when it is
    the name of that id. *)
Lemma get_pair_id_iff p base quote i :
  pairs_ok p -> pair_name_ok base quote = true -> i <> 0 ->
  get_pair_id p base quote = i <-> 1 <= i <= pair_count p /\ rd (pair_id_to_base p) i = base /\ rd (pair_id_to_quote p) i = quote.
Proof.
  intros Hp Hn Hi. unfold get_pair_id. split.
  - intros <-. destruct (po_hash _ Hp _ Hi) as [Hr Hq]. destruct (po_name _ Hp _ Hr) as [Hn' Hh]. rewrite Hh in Hq.
    destruct (pair_hash_inj _ _ _ _ Hn' Hn Hq). done.
  - intros (Hr & <- & <-). destruct (po_name _ Hp _ Hr) as [_ <-]. apply (po_id _ Hp _ Hr).
Qed.

Lemma pairs_ok_empty : pairs_ok (mkPairs 0 ∅ ∅ ∅ ∅ ∅).
Proof. split; cbn; [lia|lia|lia|intros h; by rewrite rd_empty|intros h; rewrite rd_empty; discriminate]. Qed.
End PairsOk.

(** ** Rows in nested mappings

    Writing a list at the indices [k], [k + 1], ... of the inner mapping at [a]. *)

Definition fill {V} (m : gmap (Z * Z) V) (a k : Z) (l : list V) : gmap (Z * Z) V :=
  foldl (fun m '(i, x) => <[(a, i) := x]> m) m (combine (seqZ k (len l)) l).

Lemma fill_cons {V} (m : gmap (Z * Z) V) a k x l : fill m a k (x :: l) = fill (<[(a, k) := x]> m) a (k + 1) l.
Proof.
  unfold fill, len. rewrite seqZ_cons by (cbn; lia). cbn [combine foldl].
  by replace (Z.pred (Z.of_nat (length (x :: l)))) with (Z.of_nat (length l)) by (cbn; lia).
Qed.

Lemma rd_fill {V} `{Zeroed V} (m : gmap (Z * Z) V) a k l b j :
  rd (fill m a k l) (b, j) = if decide (a = b /\ k <= j) then default (rd m (b, j)) (l !! Z.to_nat (j - k)) else rd m (b, j).
Proof.
  revert m k. induction l as [|x l IH]; intros m k; [unfold fill, len; cbn; by case_decide|].
  rewrite fill_cons, IH, rd_insert. destruct (decide (a = b /\ k + 1 <= j)) as [[-> Hj]|Hn].
  - rewrite (decide_True (P := b = b /\ k <= j)) by lia. rewrite decide_False by (intros [= ?]; lia).
    replace (Z.to_nat (j - k)) with (S (Z.to_nat (j - (k + 1)))) by lia. done.
  - destruct (decide ((a, k) = (b, j))) as [[= -> ->]|Hne]; [rewrite decide_True by lia; by rewrite Z.sub_diag|].
    destruct (decide (a = b /\ k <= j)) as [[-> Hk]|]; [|done]. exfalso. assert (k <> j) by congruence. lia.
Qed.

Lemma rd_fill_in {V} `{Zeroed V} (m : gmap (Z * Z) V) a l : (fun i => rd (fill m a 0 l) (a, i)) <$> seqZ 0 (len l) = l.
Proof.
  apply list_eq. intros i. rewrite list_lookup_fmap. destruct (decide (i < length l)%nat) as [Hi|Hi].
  - rewrite lookup_seqZ_lt by (unfold len; lia). cbn. rewrite rd_fill, decide_True by lia.
    destruct (lookup_lt_is_Some_2 l i Hi) as [x Ex]. replace (Z.to_nat (0 + Z.of_nat i - 0)) with i by lia. by rewrite Ex.
  - rewrite (lookup_ge_None_2 l), lookup_seqZ_ge by (unfold len; lia). done.
Qed.

Lemma rd_fill_out {V} `{Zeroed V} (m : gmap (Z * Z) V) a k l b j : a <> b -> rd (fill m a k l) (b, j) = rd m (b, j).
Proof. intros. rewrite rd_fill, decide_False by naive_solver. done. Qed.

(** ** The votes of a period are a list of ballots *)

Definition vote_row (v : Votes) (a : Address) (i : u32) : u32 * U256 * U256 :=
  (rd (vote_pair_id v) (a, i), rd (vote_rate v) (a, i), rd (vote_volume v) (a, i)).

Definition write_rows (a : Address) (v : Votes) (k : u32) (es : list (u32 * U256 * U256)) : Votes :=
  foldl (fun v '(i, (pair_id, rate, volume)) => write_vote_tuple a v i pair_id rate volume) v (combine (seqZ k (len es)) es).

Lemma write_rows_cons a v k e es : write_rows a v k (e :: es) = write_rows a (write_vote_tuple a v k e.1.1 e.1.2 e.2) (k + 1) es.
Proof.
  unfold write_rows, len. rewrite seqZ_cons by (cbn; lia). cbn [combine foldl]. destruct e as [[p r] w]. cbn [fst snd].
  by replace (Z.pred (Z.of_nat (length ((p, r, w) :: es)))) with (Z.of_nat (length es)) by (cbn; lia).
Qed.

Lemma write_rows_eq a v k es :
  write_rows a v k es = {| v with vote_pair_id := fill (vote_pair_id v) a k ((fun e => e.1.1) <$> es);
                           vote_rate := fill (vote_rate v) a k ((fun e => e.1.2) <$> es);
                           vote_volume := fill (vote_volume v) a k (snd <$> es) |}.
Proof. revert v k. induction es as [|e es IH]; intros v k; [by destruct v|]. rewrite write_rows_cons, IH. cbn [fmap list_fmap]. by rewrite !fill_cons. Qed.

Lemma write_rows_frame a v k es :
  vote_exists (write_rows a v k es) = vote_exists v /\ vote_tuple_count (write_rows a v k es) = vote_tuple_count v /\
  voter_list (write_rows a v k es) = voter_list v.
Proof. by rewrite write_rows_eq. Qed.

Lemma write_rows_row a v k es b j :
  vote_row (write_rows a v k es) b j = if decide (a = b /\ k <= j) then default (vote_row v b j) (es !! Z.to_nat (j - k)) else vote_row v b j.
Proof.
  rewrite write_rows_eq. unfold vote_row. cbn. rewrite !rd_fill, !list_lookup_fmap. case_decide; [|done].
  by destruct (es !! Z.to_nat (j - k)) as [[[p r] w]|].
Qed.

Lemma zero_rows_write a v k n :
  foldl (fun v j => write_vote_tuple a v j 0 0 0) v (seqZ k n) = write_rows a v k (replicate (Z.to_nat n) (0, 0, 0)).
Proof.
  destruct (Z.le_gt_cases 0 n) as [Hn|Hn]; [|replace (Z.to_nat n) with 0%nat by lia; by rewrite seqZ_nil by lia].
  revert v k. pattern n. apply natlike_ind; [done| |done]. intros m Hm IH v k.
  rewrite Z2Nat.inj_succ, seqZ_cons by lia. cbn [replicate foldl]. rewrite Z.pred_succ, IH, write_rows_cons. done.
Qed.

Lemma vote_rows_eq v a : vote_rows v a = vote_row v a <$> seqZ 0 (rd (vote_tuple_count v) a).
Proof. done. Qed.

(** The stored votes are the ballots [L], in the order they came. *)
Record votes_rep (v : Votes) (L : list (Address * list (u32 * U256 * U256))) : Prop := {
  vr_list : vec_rep (voter_list v) L.*1;
  vr_nodup : NoDup L.*1;
  vr_exists a : rd (vote_exists v) a = bool_decide (a ∈ L.*1);
  vr_rows a es : (a, es) ∈ L -> vote_rows v a = es;
  vr_clear a : a ∉ L.*1 -> rd (vote_tuple_count v) a = 0
}.

Lemma store_vote_rep v L a es :
  votes_rep v L -> a ∉ L.*1 -> len L < 2 ^ 32 - 1 -> len es < 2 ^ 32 -> votes_rep (store_vote v a es) (L ++ [(a, es)]).
Proof.
  intros Hv Ha HL He. unfold store_vote. cbv zeta.
  set (v0 := {| v with vote_exists := _; vote_tuple_count := _ |}). change (foldl _ v0 _) with (write_rows a v0 0 es).
  pose proof (write_rows_frame a v0 0 es) as (E1 & E2 & E3). set (v1 := write_rows a v0 0 es) in *.
  assert (Hm : len es mod 2 ^ 32 = len es) by (apply Z.mod_small; unfold len in *; lia).
  assert (Hs : forall b, vote_rows {| v1 with voter_list := vec_push (voter_list v1) a |} b = vote_rows v1 b) by done.
  split; rewrite ?fmap_app; cbn [fmap list_fmap fst voter_list vote_exists vote_tuple_count].
  - rewrite E3. change (voter_list v0) with (voter_list v). apply vec_rep_push; [apply Hv|].
    destruct (vr_list _ _ Hv) as (-> & _). rewrite length_fmap. unfold len in HL. lia.
  - apply NoDup_app. split_and!; [apply Hv| |apply NoDup_singleton]. intros b Hb ->%list_elem_of_singleton. done.
  - intros b. rewrite E1. cbn. rewrite rd_insert, (vr_exists _ _ Hv). apply Bool.eq_iff_eq_true.
    destruct (decide (a = b)) as [<-|Hne]; rewrite !bool_decide_eq_true, elem_of_app, list_elem_of_singleton; naive_solver.
  - intros b fs Hb. rewrite Hs, vote_rows_eq, E2. cbn. rewrite rd_insert. apply elem_of_app in Hb as [Hb|[= -> ->]%list_elem_of_singleton].
    + assert (Hne : a <> b) by (intros <-; apply Ha; exact (list_elem_of_fmap_2 fst _ _ Hb)). rewrite decide_False by done.
      rewrite <- (vr_rows _ _ Hv b fs Hb), vote_rows_eq. apply list_fmap_ext. intros i j Hj. subst v1. rewrite write_rows_row, decide_False by naive_solver. done.
    + rewrite decide_True by done. rewrite Hm. apply list_eq. intros i. rewrite list_lookup_fmap. destruct (decide (i < length es)%nat) as [Hi|Hi].
      * rewrite lookup_seqZ_lt by (unfold len; lia). cbn. subst v1. rewrite write_rows_row, decide_True by lia.
        destruct (lookup_lt_is_Some_2 es i Hi) as [e Ee]. replace (Z.to_nat (0 + Z.of_nat i - 0)) with i by lia. by rewrite Ee.
      * rewrite (lookup_ge_None_2 es) by lia. by rewrite lookup_seqZ_ge by (unfold len; lia).
  - intros b. rewrite not_elem_of_app. intros [Hb Hb']. rewrite E2. cbn. rewrite rd_insert_ne; [by apply (vr_clear _ _ Hv)|].
    intros <-. apply Hb'. by left.
Qed.

Lemma voters_rep v l : vec_rep (voter_list v) l -> voters v = l.
Proof.
  intros Hl. unfold voters, voter_at. rewrite (proj1 Hl). apply list_eq. intros i. rewrite list_lookup_fmap.
  destruct (decide (i < length l)%nat) as [Hi|Hi]; [|rewrite (lookup_ge_None_2 l), lookup_seqZ_ge by lia; done].
  rewrite lookup_seqZ_lt by lia. cbn. rewrite (vec_rep_get _ l) by (done || lia). replace (Z.to_nat (0 + Z.of_nat i)) with i by lia.
  by destruct (lookup_lt_is_Some_2 l i Hi) as [x ->].
Qed.

Lemma clear_vote_frame v a b :
  voter_list (clear_vote v a) = voter_list v /\
  rd (vote_exists (clear_vote v a)) b = (if decide (a = b) then false else rd (vote_exists v) b) /\
  rd (vote_tuple_count (clear_vote v a)) b = (if decide (a = b) then 0 else rd (vote_tuple_count v) b).
Proof.
  unfold clear_vote. cbv zeta. rewrite zero_rows_write. set (v0 := {| v with vote_exists := _ |}).
  pose proof (write_rows_frame a v0 0 (replicate (Z.to_nat (rd (vote_tuple_count v0) a)) (0, 0, 0))) as (E1 & E2 & E3).
  cbn [voter_list vote_exists vote_tuple_count]. rewrite E1, E2, E3. cbn. by rewrite !rd_insert.
Qed.

Lemma clear_votes_frame l v b :
  voter_list (foldl clear_vote v l) = voter_list v /\
  rd (vote_exists (foldl clear_vote v l)) b = (if decide (b ∈ l) then false else rd (vote_exists v) b) /\
  rd (vote_tuple_count (foldl clear_vote v l)) b = (if decide (b ∈ l) then 0 else rd (vote_tuple_count v) b).
Proof.
  revert v. induction l as [|a l IH]; intros v; [by rewrite !decide_False by apply not_elem_of_nil|]. cbn [foldl].
  destruct (IH (clear_vote v a)) as (-> & -> & ->). destruct (clear_vote_frame v a b) as (-> & -> & ->). pose proof (elem_of_cons l b a) as Hc.
  split; [done|]. destruct (decide (b ∈ l)) as [Hb|Hb]; [by rewrite !decide_True by naive_solver|].
  destruct (decide (a = b)) as [->|Hne]; [by rewrite !decide_True by naive_solver|]. by rewrite !decide_False by naive_solver.
Qed.

Lemma clear_votes_rep v L : votes_rep v L -> votes_rep (clear_votes v) [].
Proof.
  intros Hv. unfold clear_votes. rewrite (voters_rep v _ (vr_list _ _ Hv)). set (v1 := foldl clear_vote v L.*1).
  assert (Hf := clear_votes_frame L.*1 v). fold v1 in Hf. split; cbn [voter_list vote_exists vote_tuple_count fmap list_fmap].
  - split; [done|]. split; [done|]. intros i Hi. cbn in Hi. lia.
  - constructor.
  - intros a. destruct (Hf a) as (_ & -> & _). rewrite (vr_exists _ _ Hv), (bool_decide_eq_false_2 (a ∈ [])) by apply not_elem_of_nil.
    case_decide; [done|]. by apply bool_decide_eq_false_2.
  - intros a es Ha. by apply not_elem_of_nil in Ha.
  - intros a _. cbn. destruct (Hf a) as (_ & _ & ->). case_decide; [done|]. by apply (vr_clear _ _ Hv).
Qed.

Lemma votes_rep_empty : votes_rep (mkVotes ∅ ∅ ∅ ∅ ∅ (mkVec 0 ∅)) [].
Proof.
  split; cbn.
  - split; [done|]. split; [done|]. intros i Hi. cbn in Hi. lia.
  - constructor.
  - intros a. rewrite rd_empty, bool_decide_eq_false_2 by apply not_elem_of_nil. done.
  - intros a es Ha. by apply not_elem_of_nil in Ha.
  - intros a _. by rewrite rd_empty.
Qed.

Section Submit.
Context `{Crypto}.

Lemma has_duplicate_pair_spec (tuples : list (B256 * U256 * U256)) :
  has_duplicate_pair tuples = false <-> NoDup ((fun t => t.1.1) <$> tuples).
Proof.
  induction tuples as [|[[h r] w] l IH]; [split; [constructor|done]|]. cbn [has_duplicate_pair fmap list_fmap fst]. rewrite NoDup_cons, orb_false_iff.
  change (list_fmap _ _ (fun t => t.1.1) l) with ((fun t : B256 * U256 * U256 => t.1.1) <$> l). rewrite IH.
  assert (He : existsb (fun '(h', _, _) => h =? h') l = false <-> h ∉ (fun t : B256 * U256 * U256 => t.1.1) <$> l); [|naive_solver].
  rewrite <- not_true_iff_false, existsb_exists. setoid_rewrite <- list_elem_of_In. split.
  - intros Hn ([[h' r'] w'] & -> & Hin)%list_elem_of_fmap. apply Hn. exists (h', r', w'). split; [done|]. apply Z.eqb_refl.
  - intros Hn ([[h' r'] w'] & Hin & E). bools. subst. apply Hn. exact (list_elem_of_fmap_2 (fun t => t.1.1) _ _ Hin).
Qed.

(** What a vote must satisfy. *)
Definition vote_allowed (p : PairRegistry) (tuples : list (B256 * U256 * U256)) : Prop :=
  len tuples <= pair_count p /\ NoDup ((fun t => t.1.1) <$> tuples) /\ Forall (fun t => rd (vote_target p) t.1.1 = true) tuples.

Definition ballot_of (p : PairRegistry) (tuples : list (B256 * U256 * U256)) : list (u32 * U256 * U256) :=
  (fun '(h, rate, volume) => (rd (pair_hash_to_id p) h, rate, volume)) <$> tuples.

Lemma submit_vote_iff vs o caller tuples L o' :
  votes_rep (oc_votes o) L -> len tuples < 2 ^ 32 ->
  submit_vote vs o caller tuples = Ok o' <->
  exists validator, resolve_validator_for_feeder vs o caller = Ok validator /\ vote_allowed (oc_pairs o) tuples /\ (validator ∉ L.*1) /\
    o' = set_votes o (store_vote (oc_votes o) validator (ballot_of (oc_pairs o) tuples)).
Proof.
  intros Hv Hl. unfold submit_vote, vote_allowed. destruct (resolve_validator_for_feeder vs o caller) as [a|e]; [|split; [discriminate|intros (? & ? & _); discriminate]].
  cbv zeta. rewrite Z.mod_small by (unfold len in *; lia). rewrite (vr_exists _ _ Hv).
  assert (Hf : forallb (fun '(h, _, _) => rd (vote_target (oc_pairs o)) h) tuples = true <-> Forall (fun t => rd (vote_target (oc_pairs o)) t.1.1 = true) tuples).
  { rewrite forallb_forall, Forall_forall. setoid_rewrite <- list_elem_of_In. split; [intros Hq [[h r] w]; apply Hq|intros Hq [[h r] w]; apply (Hq (h, r, w))]. }
  pose proof (has_duplicate_pair_spec tuples) as Hd. destruct (len tuples >? pair_count (oc_pairs o)) eqn:E1; bools.
  { split; [discriminate|]. intros (? & _ & (? & _) & _). lia. }
  destruct (has_duplicate_pair tuples); [split; [discriminate|]; intros (? & _ & (_ & Hn & _) & _); apply Hd in Hn; discriminate|].
  destruct (forallb _ tuples); [|split; [discriminate|]; intros (? & _ & (_ & _ & Hn) & _); apply Hf in Hn; discriminate].
  destruct (bool_decide (a ∈ L.*1)) eqn:E2; [apply bool_decide_eq_true in E2|apply bool_decide_eq_false in E2]; cbn [negb].
  - split; [discriminate|]. intros (b & [= <-] & _ & Hn & _). done.
  - split; [intros [= <-]; exists a; split_and!; first [done|by apply Hd|by apply Hf]|]. by intros (b & [= <-] & _ & _ & ->).
Qed.
End Submit.
