(* ===== verification/OraclePrices.v ===== *)
(** * OraclePrices: the price history of the oracle

    [crates/system/oracle/src/logic.rs] from the price snapshots on, and
    [scurve.rs]: the circular buffer of snapshots with its eviction, the
    volume-weighted and time-weighted averages, the stored averages of worldwide
    days, and the S-curves of past peaks. The buffer refines a list of snapshots in
    the order they were taken. *)

From S2P Require Import Prelude Storage Time Oracle.

Definition MAX_SNAPSHOT_RETENTION_SECONDS : u64 := 365 * 24 * 3600.
Definition DAY_SECONDS : u64 := 86400.

(** [str::contains] *)
Definition str_contains (needle s : string) : bool := match String.index 0 needle s with Some _ => true | None => false end.

(** ** Snapshots *)

(** A snapshot without volume weighs one unit. *)
Definition effective_volume (volume : U256) : U256 := if volume =? 0 then SCALE_1E18 else volume.

Definition write_snapshot_row (idx : u64) (h : PriceHistory) (i pair_id : u32) (rate volume : U256) : PriceHistory :=
  {| h with snapshot_pair_id := <[(idx, i) := pair_id]> (snapshot_pair_id h);
     snapshot_rate := <[(idx, i) := rate]> (snapshot_rate h);
     snapshot_volume := <[(idx, i) := volume]> (snapshot_volume h) |}.

Definition add_daily (utc_day_ts : u64) (h : PriceHistory) (e : u32 * U256 * U256) : PriceHistory :=
  let '(pair_id, rate, volume) := e in
  let vol := effective_volume volume in
  let pv := default MAX_U256 (checked_mul 256 rate vol) in
  let prev_pv := rd (daily_pv_sum h) (pair_id, utc_day_ts) in
  let prev_vol := rd (daily_vol_sum h) (pair_id, utc_day_ts) in
  {| h with daily_pv_sum := <[(pair_id, utc_day_ts) := saturating_add 256 prev_pv pv]> (daily_pv_sum h);
     daily_vol_sum := <[(pair_id, utc_day_ts) := saturating_add 256 prev_vol vol]> (daily_vol_sum h) |}.

(** The first of [n] snapshots from [i] on that is not older than the cutoff. *)
Fixpoint first_kept (n : nat) (h : PriceHistory) (cutoff i : u64) : u64 :=
  match n with
  | O => i
  | S n => if rd (snapshot_timestamp h) i >=? cutoff then i else first_kept n h cutoff (i + 1)
  end.

Definition evict_old_snapshots (h : PriceHistory) (current_timestamp : u64) : PriceHistory :=
  let oldest := snapshot_oldest_idx h in
  let write_idx := snapshot_write_idx h in
  let cutoff := saturating_sub current_timestamp MAX_SNAPSHOT_RETENTION_SECONDS in
  let new_oldest := first_kept (Z.to_nat (write_idx - oldest)) h cutoff oldest in
  if new_oldest =? oldest then h else {| h with snapshot_oldest_idx := new_oldest |}.

Definition write_snapshot (h : PriceHistory) (timestamp : u64) (entries : list (u32 * U256 * U256)) : PriceHistory :=
  let idx := snapshot_write_idx h in
  let h := {| h with snapshot_timestamp := <[idx := timestamp]> (snapshot_timestamp h);
              snapshot_pair_count := <[idx := len entries mod 2 ^ 32]> (snapshot_pair_count h) |} in
  let h := foldl (fun h '(i, (pair_id, rate, volume)) => write_snapshot_row idx h i pair_id rate volume)
                 h (combine (seqZ 0 (len entries)) entries) in
  let h := {| h with snapshot_write_idx := wadd 64 idx 1 |} in
  let utc_day_ts := timestamp - timestamp mod 86400 in
  let h := foldl (add_daily utc_day_ts) h entries in
  evict_old_snapshots h timestamp.

(** ** Averages *)

(** The loop of [binary_search_snapshot_idx]; [mid < high], so nothing wraps. *)
Fixpoint binary_search (fuel : nat) (h : PriceHistory) (target_time low high : u64) : u64 :=
  match fuel with
  | O => low
  | S fuel =>
      if low <? high then
        let mid := low + (high - low) / 2 in
        if rd (snapshot_timestamp h) mid <? target_time then binary_search fuel h target_time (mid + 1) high
        else binary_search fuel h target_time low mid
      else low
  end.

(** The interval halves, and indices are 64-bit. *)
Definition SEARCH_FUEL : nat := 65.
Definition binary_search_snapshot_idx (h : PriceHistory) (target_time lo hi : u64) : u64 := binary_search SEARCH_FUEL h target_time lo hi.

(** One round of the loop over the UTC days of a window. *)
Definition aggregate_step (h : PriceHistory) (pair_id : u32) (end_time : u64) (st : u64 * U256 * U256) : (u64 * U256 * U256) + (U256 * U256) :=
  let '(day, pv_total, vol_total) := st in
  if wadd 64 day 86400 <=? end_time then
    let pv := rd (daily_pv_sum h) (pair_id, day) in
    let vol := rd (daily_vol_sum h) (pair_id, day) in
    let '(pv_total, vol_total) :=
      if pv =? 0 then (pv_total, vol_total) else (saturating_add 256 pv_total pv, saturating_add 256 vol_total vol) in
    inl (wadd 64 day 86400, pv_total, vol_total)
  else inr (pv_total, vol_total).

(** More days than [2^64] seconds have. *)
Definition DAY_FUEL : positive := 2 ^ 48.

Definition try_daily_aggregate_vwap (h : PriceHistory) (pair_id : u32) (start_time end_time : u64) : res (option U256) :=
  if saturating_sub end_time start_time <? 86400 then Ok None else
  let start_day := start_time - start_time mod 86400 in
  match loopP DAY_FUEL (aggregate_step h pair_id end_time) (start_day, 0, 0) with
  | inl _ => Err OutOfGas
  | inr (pv_total, vol_total) => if vol_total =? 0 then Ok None else Ok (Some (pv_total / vol_total))
  end.

Definition NO_VWAP_DATA : PrecompileError := Revert "no VWAP data in the requested time range".
Definition NO_TWAP_DATA : PrecompileError := Revert "no TWAP data in the requested time range".

(** The row of a pair in a snapshot. *)
Definition find_row (h : PriceHistory) (idx : u64) (pair_id : u32) : option u32 :=
  List.find (fun p => rd (snapshot_pair_id h) (idx, p) =? pair_id) (seqZ 0 (rd (snapshot_pair_count h) idx)).

Definition vwap_step (h : PriceHistory) (pair_id : u32) (sums : U256 * U256) (idx : u64) : res (U256 * U256) :=
  let '(price_volume_sum, volume_sum) := sums in
  match find_row h idx pair_id with
  | None => Ok sums
  | Some p =>
      let rate := rd (snapshot_rate h) (idx, p) in
      let vol := effective_volume (rd (snapshot_volume h) (idx, p)) in
      let? pv := ok_or (checked_mul 256 rate vol) (Revert "VWAP overflow: rate * volume") in
      let? price_volume_sum := ok_or (checked_add 256 price_volume_sum pv) (Revert "VWAP overflow: sum accumulation") in
      let? volume_sum := ok_or (checked_add 256 volume_sum vol) (Revert "VWAP overflow: volume sum") in
      Ok (price_volume_sum, volume_sum)
  end.

(** The indices [a..b]. *)
Definition idx_range (a b : Z) : list Z := seqZ a (b - a).

Definition calculate_vwap (h : PriceHistory) (pair_id : u32) (start_time end_time : u64) : res U256 :=
  match try_daily_aggregate_vwap h pair_id start_time end_time with
  | Ok (Some vwap) => Ok vwap
  | Err e => Err e
  | Ok None =>
      if saturating_sub end_time start_time >=? 86400 then Err NO_VWAP_DATA else
      let write_idx := snapshot_write_idx h in
      let oldest_idx := snapshot_oldest_idx h in
      ensure negb (write_idx <=? oldest_idx) else NO_VWAP_DATA in
      let range_start := binary_search_snapshot_idx h start_time oldest_idx write_idx in
      let range_end := binary_search_snapshot_idx h (wadd 64 end_time 1) oldest_idx write_idx in
      let? (price_volume_sum, volume_sum) := foldM (vwap_step h pair_id) (0, 0) (idx_range range_start range_end) in
      ensure negb (volume_sum =? 0) else NO_VWAP_DATA in
      Ok (price_volume_sum / volume_sum)
  end.

Definition calculate_vwap_lookback (lookback_duration : u64) (h : PriceHistory) (pair_id : u32) (now lookback_seconds : u64) : res U256 :=
  let effective_lookback := Z.min lookback_seconds lookback_duration in
  let start_time := saturating_sub now effective_lookback in
  calculate_vwap h pair_id start_time now.

(** The timed prices of a pair in a window, oldest first. *)
Fixpoint twap_data (h : PriceHistory) (pair_id : u32) (start_time now : u64) (idxs : list u64) : list (u64 * U256) :=
  match idxs with
  | [] => []
  | idx :: idxs =>
      let ts := rd (snapshot_timestamp h) idx in
      if ts <? start_time then twap_data h pair_id start_time now idxs else
      if ts >? now then [] else
      match find_row h idx pair_id with
      | Some p => (ts, rd (snapshot_rate h) (idx, p)) :: twap_data h pair_id start_time now idxs
      | None => twap_data h pair_id start_time now idxs
      end
  end.

Definition twap_add (sums : U256 * U256) (price duration : U256) : res (U256 * U256) :=
  let '(price_time_sum, time_sum) := sums in
  let? pv := ok_or (checked_mul 256 price duration) (Revert "TWAP overflow") in
  let? price_time_sum := ok_or (checked_add 256 price_time_sum pv) (Revert "TWAP overflow") in
  let? time_sum := ok_or (checked_add 256 time_sum duration) (Revert "TWAP overflow") in
  Ok (price_time_sum, time_sum).

(** Every price weighs the time to the next one, the last the time to [now]. *)
Fixpoint twap_sums (now : u64) (sums : U256 * U256) (data : list (u64 * U256)) : res (U256 * U256) :=
  match data with
  | [] => Err (Revert "missing TWAP data")
  | (t, price) :: data' =>
      match data' with
      | [] =>
          let last_duration := saturating_sub now t in
          if last_duration =? 0 then Ok sums else twap_add sums price last_duration
      | (t', _) :: _ => let? sums := twap_add sums price (wsub 64 t' t) in twap_sums now sums data'
      end
  end.

Definition calculate_twap (lookback_duration : u64) (h : PriceHistory) (pair_id : u32) (now lookback_seconds : u64) : res U256 :=
  ensure negb ((lookback_seconds =? 0) || (lookback_seconds >? lookback_duration))
  else Revert "lookback_seconds must be > 0 and <= lookback_duration" in
  let start_time := saturating_sub now lookback_seconds in
  match twap_data h pair_id start_time now (idx_range (snapshot_oldest_idx h) (snapshot_write_idx h)) with
  | [] => Err NO_TWAP_DATA
  | [(_, price)] => Ok price
  | (_, first) :: _ as data =>
      let? (price_time_sum, time_sum) := twap_sums now (0, 0) data in
      if time_sum =? 0 then Ok first else Ok (price_time_sum / time_sum)
  end.

(** The averages of all the vote targets; a pair without data is left out. *)
Definition collect_averages (no_data : string -> bool) (average : u32 -> res U256) (lookback : u64) (pids : list u32) :
    res (list (u32 * U256 * u64)) :=
  foldM (fun acc pid =>
    match average pid with
    | Ok x => Ok (acc ++ [(pid, x, lookback)])
    | Err (Revert msg) => if no_data msg then Ok acc else Err (Revert msg)
    | Err e => Err e
    end) [] pids.

Definition calculate_twaps (o : OracleContract) (now lookback_seconds : u64) : res (list (u32 * U256 * u64)) :=
  let? rows := collect_averages (fun msg => str_contains "no TWAP data" msg || str_contains "no VWAP data" msg)
                 (fun pid => calculate_twap (config_lookback_duration (oc_config o)) (oc_history o) pid now lookback_seconds) lookback_seconds (get_vote_targets (oc_pairs o)) in
  match rows with [] => Err NO_TWAP_DATA | _ => Ok rows end.

Definition calculate_vwaps (o : OracleContract) (start_time end_time : u64) : res (list (u32 * U256 * u64)) :=
  ensure start_time <? end_time else Revert "start_time must be less than end_time" in
  let? rows := collect_averages (str_contains "no VWAP data") (fun pid => calculate_vwap (oc_history o) pid start_time end_time)
                 (end_time - start_time) (get_vote_targets (oc_pairs o)) in
  match rows with [] => Err NO_VWAP_DATA | _ => Ok rows end.

(** ** The averages of worldwide days *)

Definition store_worldwide_day_vwap_snapshot (o : OracleContract) (day : u32) (start_time end_time : u64) : res OracleContract :=
  let? rows := calculate_vwaps o start_time end_time in
  let d := oc_days o in
  let d := {| d with worldwide_day_vwap_exists := <[day := true]> (worldwide_day_vwap_exists d);
              worldwide_day_vwap_start := <[day := start_time]> (worldwide_day_vwap_start d);
              worldwide_day_vwap_end := <[day := end_time]> (worldwide_day_vwap_end d);
              worldwide_day_vwap_pair_count := <[day := len rows mod 2 ^ 32]> (worldwide_day_vwap_pair_count d) |} in
  let d := foldl (fun d '(i, (pair_id, vwap, _)) =>
                    {| d with worldwide_day_vwap_pair_id := <[(day, i) := pair_id]> (worldwide_day_vwap_pair_id d);
                       worldwide_day_vwap_value := <[(day, i) := vwap]> (worldwide_day_vwap_value d) |})
                 d (combine (seqZ 0 (len rows)) rows) in
  Ok (set_days o d).

Definition get_worldwide_day_vwap_snapshot (d : DayVwaps) (day : u32) : res (u64 * u64 * list u32 * list U256 * list u64) :=
  ensure rd (worldwide_day_vwap_exists d) day else Revert "worldwide day VWAP snapshot not found" in
  let start_time := rd (worldwide_day_vwap_start d) day in
  let end_time := rd (worldwide_day_vwap_end d) day in
  let lookback := saturating_sub end_time start_time in
  let idxs := seqZ 0 (rd (worldwide_day_vwap_pair_count d) day) in
  Ok (start_time, end_time, (fun i => rd (worldwide_day_vwap_pair_id d) (day, i)) <$> idxs,
      (fun i => rd (worldwide_day_vwap_value d) (day, i)) <$> idxs, (fun _ => lookback) <$> idxs).

Definition get_worldwide_day_vwap_for_pair_id (d : DayVwaps) (day pair_id : u32) : option U256 :=
  if rd (worldwide_day_vwap_exists d) day then
    (fun i => rd (worldwide_day_vwap_value d) (day, i)) <$>
      List.find (fun i => rd (worldwide_day_vwap_pair_id d) (day, i) =? pair_id) (seqZ 0 (rd (worldwide_day_vwap_pair_count d) day))
  else None.

(** ** Views of the history, newest first *)

Fixpoint history_scan (h : PriceHistory) (pair_id count : u32) (idxs : list u64) (found : u32) : list (u64 * U256 * U256) :=
  match idxs with
  | [] => []
  | idx :: idxs =>
      if found <? count then
        match find_row h idx pair_id with
        | Some p => (rd (snapshot_timestamp h) idx, rd (snapshot_rate h) (idx, p), rd (snapshot_volume h) (idx, p))
                      :: history_scan h pair_id count idxs (found + 1)
        | None => history_scan h pair_id count idxs found
        end
      else []
  end.

Definition newest_first (h : PriceHistory) : list u64 := reverse (idx_range (snapshot_oldest_idx h) (snapshot_write_idx h)).

Definition get_price_snapshot_history (h : PriceHistory) (pair_id count : u32) : list (u64 * U256 * U256) :=
  history_scan h pair_id count (newest_first h) 0.

(** The rows of a snapshot. *)
Definition snapshot_rows (h : PriceHistory) (idx : u64) : list (u32 * U256 * U256) :=
  (fun p => (rd (snapshot_pair_id h) (idx, p), rd (snapshot_rate h) (idx, p), rd (snapshot_volume h) (idx, p)))
    <$> seqZ 0 (rd (snapshot_pair_count h) idx).

Definition get_all_price_snapshot_history (h : PriceHistory) (count : u32) : list (u64 * u64 * (u32 * U256 * U256)) :=
  idx ← take (Z.to_nat count) (newest_first h);
  (fun row => (idx, rd (snapshot_timestamp h) idx, row)) <$> snapshot_rows h idx.

(** ** [scurve.rs] *)

Definition PERIOD : Z := 128.
Definition truncate_to_day (timestamp : u64) : u64 := timestamp / DAY_SECONDS * DAY_SECONDS.

Definition COEFFICIENTS : list U256 :=
  [
   1000000000000000000; 999960180425626732; 999917088812140809; 999870460263885930; 999820009122969866;
   999765427459612166; 999706383473257243; 999642519802931395; 999573451746113562; 999498765386374277;
   999418015631251544; 999330724163311368; 999236377309123402; 999134423833009877; 999024272664953417;
   998905290575010651; 998776799810049853; 998638075712641404; 998488344346554979; 998326780158598548;
   998152503712523620; 997964579537462315; 997762014140879616; 997543754244337388; 997308685309456044;
   997055630431288864; 996783349686807263; 996490540037190731; 996175835893934436; 995837810470146079;
   995474978049433634; 995085797315024556; 994668675890604814; 994221976251114414; 993744023165530121;
   993233112833517895; 992687523872639477; 992105530301327532; 991485416643820061; 990825495255355682;
   990124125927950627; 989379737787912106; 988590853435103334; 987756115200498774; 986874313312974705;
   985944415669576357; 984965598797599151; 983937279484725091; 982859146439322706; 981731191232210532;
   980553737670156189; 979327468667514300; 978053449623635163; 976733147288004089; 975368443109965511;
   973961640131506101; 972515462594043312; 971033047594784704; 969517928342881641; 967974008824358356;
   966405529977787170; 964817027796462168; 963213284090982391; 961599270950507679; 959980090212813386;
   958360909475119094; 956746896334644381; 955143152629164494; 953554650447839491; 951986171601268416;
   950442252082745132; 948927132830842068; 947444717831583350; 945998540294120671; 944591737315661262;
   943227033137622684; 941906730801991610; 940632711758112472; 939406442755470583; 938228989193416241;
   937101033986304066; 936022900940901681; 934994581628027510; 934015764756050415; 933085867112652068;
   932204065225127998; 931369326990523438; 930580442637714667; 929836054497676145; 929134685170271091;
   928474763781806711; 927854650124299241; 927272656552987296; 926727067592108766; 926216157260096651;
   925738204174512358; 925291504535021958; 924874383110602216; 924485202376193138; 924122369955480694;
   923784344531692336; 923469640388436042; 923176830738819509; 922904549994337908; 922651495116170728;
   922416426181289273; 922198166284747156; 921995600888164457; 921807676713103152; 921633400267028224;
   921471836079071793; 921322104712985368; 921183380615576919; 921054889850616121; 920935907760673356;
   920825756592616895; 920723803116503370; 920629456262315404; 920542164794375228; 920461415039252495;
   920386728679513211; 920317660622695377; 920253796952369418; 920194752966014606; 920140171302656906;
   920089720161740843; 920043091613485853; 920000000000000000].

Definition compute_scurve_value (peak_price : U256) (day_index : Z) : U256 :=
  if day_index >=? PERIOD then 0 else
  default 0 (checked_mul 256 peak_price (default 0 (COEFFICIENTS !! Z.to_nat day_index))) / SCALE_1E18.

Definition scurve_max_step (c : SCurves) (pair_id : u32) (target_day : u64) (max_value : U256) (idx : u32) : U256 :=
  if negb (rd (scurve_pair_id c) idx =? pair_id) then max_value else
  let peak_day := rd (scurve_peak_day c) idx in
  let peak_price := rd (scurve_peak_price c) idx in
  if target_day <? peak_day then max_value else
  let days_since := (target_day - peak_day) / DAY_SECONDS in
  if days_since >=? PERIOD then max_value else
  let value := compute_scurve_value peak_price days_since in
  if value >? max_value then value else max_value.

Definition get_max_active_scurve_value (c : SCurves) (pair_id : u32) (timestamp : u64) : U256 :=
  foldl (scurve_max_step c pair_id (truncate_to_day timestamp)) 0 (idx_range (scurve_oldest_idx c) (scurve_count c)).

(** The entries of a pair that are active on a day, with their values. *)
Definition get_scurve_entries (c : SCurves) (pair_id : u32) (current_timestamp : u64) : list (u64 * U256 * U256) :=
  let target_day := truncate_to_day current_timestamp in
  omap (fun idx =>
    if negb (rd (scurve_pair_id c) idx =? pair_id) then None else
    let peak_day := rd (scurve_peak_day c) idx in
    let peak_price := rd (scurve_peak_price c) idx in
    if target_day <? peak_day then None else
    let days_since := (target_day - peak_day) / DAY_SECONDS in
    if days_since >=? PERIOD then None else
    Some (peak_day, peak_price, compute_scurve_value peak_price days_since))
  (idx_range (scurve_oldest_idx c) (scurve_count c)).

Definition get_all_scurve_data (c : SCurves) : list (u32 * u64 * U256) :=
  (fun idx => (rd (scurve_pair_id c) idx, rd (scurve_peak_day c) idx, rd (scurve_peak_price c) idx)) <$> idx_range (scurve_oldest_idx c) (scurve_count c).

Definition get_all_scurve_data_for_pair (c : SCurves) (pair_id : u32) : list (u64 * U256) :=
  omap (fun '(p, day, price) => if p =? pair_id then Some (day, price) else None) (get_all_scurve_data c).

Definition store_scurve_entry (c : SCurves) (pair_id : u32) (peak_day : u64) (peak_price : U256) : SCurves :=
  let idx := scurve_count c in
  {| c with scurve_pair_id := <[idx := pair_id]> (scurve_pair_id c);
     scurve_peak_day := <[idx := peak_day]> (scurve_peak_day c);
     scurve_peak_price := <[idx := peak_price]> (scurve_peak_price c);
     scurve_count := wadd 32 idx 1 |}.

Fixpoint first_unexpired (n : nat) (c : SCurves) (cutoff : u64) (i : u32) : u32 :=
  match n with
  | O => i
  | S n => if rd (scurve_peak_day c) i >=? cutoff then i else first_unexpired n c cutoff (i + 1)
  end.

Definition evict_expired_scurves (c : SCurves) (current_timestamp : u64) : SCurves :=
  let count := scurve_count c in
  let oldest := scurve_oldest_idx c in
  let cutoff := saturating_sub current_timestamp (PERIOD * DAY_SECONDS) in
  let new_oldest := first_unexpired (Z.to_nat (count - oldest)) c cutoff oldest in
  if new_oldest =? oldest then c else {| c with scurve_oldest_idx := new_oldest |}.

Fixpoint close_scan (h : PriceHistory) (pair_id : u32) (day_start day_end : u64) (idxs : list u64) : U256 :=
  match idxs with
  | [] => 0
  | idx :: idxs =>
      let ts := rd (snapshot_timestamp h) idx in
      if ts <? day_start then 0 else
      if ts >=? day_end then close_scan h pair_id day_start day_end idxs else
      match find_row h idx pair_id with
      | Some p => rd (snapshot_rate h) (idx, p)
      | None => close_scan h pair_id day_start day_end idxs
      end
  end.

Definition get_daily_close (h : PriceHistory) (pair_id : u32) (day_start : u64) : U256 :=
  close_scan h pair_id day_start (wadd 64 day_start DAY_SECONDS) (newest_first h).

Definition process_daily_scurve (o : OracleContract) (pair_id : u32) (timestamp : u64) : OracleContract :=
  let current_day := truncate_to_day timestamp in
  let day_minus_1 := saturating_sub current_day DAY_SECONDS in
  let day_minus_2 := saturating_sub current_day (2 * DAY_SECONDS) in
  let day_minus_3 := saturating_sub current_day (3 * DAY_SECONDS) in
  let close_d1 := get_daily_close (oc_history o) pair_id day_minus_1 in
  let close_d2 := get_daily_close (oc_history o) pair_id day_minus_2 in
  let close_d3 := get_daily_close (oc_history o) pair_id day_minus_3 in
  if (close_d1 =? 0) || (close_d2 =? 0) || (close_d3 =? 0) then o else
  let o := if (close_d3 <? close_d2) && (close_d2 >? close_d1)
           then oc_emit (set_scurves o (store_scurve_entry (oc_scurves o) pair_id day_minus_2 close_d2)) (ScurvePeakDetected pair_id close_d2 day_minus_2)
           else o in
  set_scurves o (evict_expired_scurves (oc_scurves o) timestamp).

(** ** Nominal prices *)

Definition get_nominal_price_components (o : OracleContract) (pair_id : u32) (timestamp : u64) : res (U256 * U256 * U256 * string) :=
  let day_start := truncate_to_day timestamp in
  let day_end := saturating_add 64 day_start DAY_SECONDS in
  let? vwap := (match calculate_vwap (oc_history o) pair_id day_start day_end with
                | Ok vwap => Ok vwap
                | Err (Revert msg) => if str_contains "no VWAP data" msg then Ok 0 else Err (Revert msg)
                | Err e => Err e
                end) in
  let max_scurve := get_max_active_scurve_value (oc_scurves o) pair_id timestamp in
  if (vwap =? 0) && (max_scurve =? 0) then Ok (0, vwap, max_scurve, "none"%string) else
  if vwap >? max_scurve then Ok (vwap, vwap, max_scurve, "vwap"%string)
  else Ok (max_scurve, vwap, max_scurve, "scurve"%string).

(** ** The buffer is a list of snapshots *)

Abbreviation snapshot := (u64 * list (u32 * U256 * U256))%type.

(** The retained snapshots are [S], oldest first. *)
Record history_rep (h : PriceHistory) (S : list snapshot) : Prop := {
  hr_oldest : 0 <= snapshot_oldest_idx h;
  hr_write : snapshot_write_idx h = snapshot_oldest_idx h + len S;
  hr_fits : snapshot_write_idx h < 2 ^ 64;
  hr_at i s : S !! i = Some s ->
    rd (snapshot_timestamp h) (snapshot_oldest_idx h + Z.of_nat i) = s.1 /\
    snapshot_rows h (snapshot_oldest_idx h + Z.of_nat i) = s.2;
  hr_sorted : StronglySorted Z.le S.*1
}.

Definition write_snapshot_rows (idx : u64) (h : PriceHistory) (es : list (u32 * U256 * U256)) : PriceHistory :=
  foldl (fun h '(i, (pair_id, rate, volume)) => write_snapshot_row idx h i pair_id rate volume) h (combine (seqZ 0 (len es)) es).

Lemma write_snapshot_rows_eq idx h es :
  write_snapshot_rows idx h es = {| h with snapshot_pair_id := fill (snapshot_pair_id h) idx 0 ((fun e => e.1.1) <$> es);
                                    snapshot_rate := fill (snapshot_rate h) idx 0 ((fun e => e.1.2) <$> es);
                                    snapshot_volume := fill (snapshot_volume h) idx 0 (snd <$> es) |}.
Proof.
  unfold write_snapshot_rows. generalize 0. revert h. induction es as [|e es IH]; intros h k; [by destruct h|].
  cbn [fmap list_fmap]. rewrite !fill_cons. unfold len in *. rewrite seqZ_cons by (cbn; lia). cbn [combine foldl]. destruct e as [[p r] w]. cbn [fst snd].
  replace (Z.pred (Z.of_nat (length ((p, r, w) :: es)))) with (Z.of_nat (length es)) by (cbn; lia). apply IH.
Qed.

(** What does not belong to the daily sums. *)
Definition same_snapshots (h h' : PriceHistory) : Prop :=
  snapshot_write_idx h = snapshot_write_idx h' /\ snapshot_oldest_idx h = snapshot_oldest_idx h' /\ snapshot_timestamp h = snapshot_timestamp h' /\
  snapshot_rows h = snapshot_rows h'.

Lemma add_daily_same d es h : same_snapshots (foldl (add_daily d) h es) h.
Proof. revert h. induction es as [|[[p r] w] es IH]; intros h; [done|]. cbn [foldl]. destruct (IH (add_daily d h (p, r, w))) as (E1 & E2 & E3 & E4). done. Qed.

Lemma first_kept_spec n h cutoff i :
  exists k, first_kept n h cutoff i = i + Z.of_nat k /\ (k <= n)%nat /\
    (forall j, (j < k)%nat -> rd (snapshot_timestamp h) (i + Z.of_nat j) < cutoff) /\
    ((k < n)%nat -> cutoff <= rd (snapshot_timestamp h) (i + Z.of_nat k)).
Proof.
  revert i. induction n as [|n IH]; intros i; [exists 0%nat; cbn; split_and!; lia|]. cbn [first_kept].
  destruct (rd (snapshot_timestamp h) i >=? cutoff) eqn:E; bools.
  - exists 0%nat. rewrite Z.add_0_r. split_and!; lia.
  - destruct (IH (i + 1)) as (k & -> & Hk & Hlt & Hge). exists (S k). split_and!; [lia|lia| |].
    + intros [|j] Hj; [by rewrite Z.add_0_r|]. specialize (Hlt j ltac:(lia)). by replace (i + Z.of_nat (S j)) with (i + 1 + Z.of_nat j) by lia.
    + intros Hn. replace (i + Z.of_nat (S k)) with (i + 1 + Z.of_nat k) by lia. apply Hge. lia.
Qed.

Lemma filter_all {A} (P : A -> Prop) `{forall x, Decision (P x)} (l : list A) : Forall P l -> filter P l = l.
Proof. induction 1 as [|x l Hx Hl IH]; [done|]. rewrite filter_cons_True by done. by rewrite IH. Qed.

(** In a sorted list the expired snapshots are the first ones. *)
Lemma sorted_drop_filter (S : list snapshot) cutoff k :
  StronglySorted Z.le S.*1 -> (k <= length S)%nat -> (forall s, s ∈ take k S -> s.1 < cutoff) ->
  (forall s, S !! k = Some s -> cutoff <= s.1) -> drop k S = filter (fun s => cutoff <= s.1) S.
Proof.
  revert k. induction S as [|s S IH]; intros [|k] Hs Hk Hlt Hge; [done..| |].
  - rewrite drop_0. symmetry. cbn in Hs. apply StronglySorted_inv in Hs as [_ Hf]. specialize (Hge s eq_refl).
    apply filter_all, Forall_cons_2; [done|]. rewrite Forall_fmap in Hf. eapply Forall_impl; [exact Hf|]. cbn. intros x Hx. lia.
  - cbn in Hs. apply StronglySorted_inv in Hs as [Hs _]. cbn [drop]. rewrite filter_cons_False; last first.
    { specialize (Hlt s ltac:(left)). lia. }
    apply IH; [done|cbn in Hk; lia| |done]. intros x Hx. apply Hlt. by right.
Qed.

Lemma history_rep_same h h' S : same_snapshots h h' -> history_rep h' S -> history_rep h S.
Proof. intros (E1 & E2 & E3 & E4) [H1 H2 H3 H4 H5]. split; rewrite ?E1, ?E2; try done. intros i s Hs. rewrite E3, E4. by apply H4. Qed.

Lemma evict_rep h S now :
  history_rep h S -> history_rep (evict_old_snapshots h now) (filter (fun s => saturating_sub now MAX_SNAPSHOT_RETENTION_SECONDS <= s.1) S).
Proof.
  intros Hh. unfold evict_old_snapshots. cbv zeta. set (cutoff := saturating_sub now _). set (old := snapshot_oldest_idx h).
  destruct (first_kept_spec (Z.to_nat (snapshot_write_idx h - old)) h cutoff old) as (k & Ek & Hk & Hlt & Hge). rewrite Ek.
  pose proof (hr_write _ _ Hh) as Hw. pose proof (hr_oldest _ _ Hh). fold old in Hw, Hk, Hge. unfold len in Hw. assert (Hl : (k <= length S)%nat) by lia.
  assert (Ed : drop k S = filter (fun s => cutoff <= s.1) S).
  { apply sorted_drop_filter; [apply Hh|done| |].
    - intros s (j & Hj)%list_elem_of_lookup. apply lookup_take_Some in Hj as [Hj Hjk]. destruct (hr_at _ _ Hh j s Hj) as [<- _]. by apply Hlt.
    - intros s Hs. destruct (hr_at _ _ Hh k s Hs) as [<- _]. apply Hge. apply lookup_lt_Some in Hs.
      lia. }
  rewrite <- Ed. assert (Hr : history_rep {| h with snapshot_oldest_idx := old + Z.of_nat k |} (drop k S)).
  { split; cbn; [lia|unfold len; rewrite length_drop; lia|apply Hh| |].
    - intros i s Hi. rewrite lookup_drop in Hi. replace (old + Z.of_nat k + Z.of_nat i) with (old + Z.of_nat (k + i)) by lia. apply (hr_at _ _ Hh _ _ Hi).
    - rewrite fmap_drop. pose proof (hr_sorted _ _ Hh) as Hs. rewrite <- (take_drop k S.*1) in Hs. by apply StronglySorted_app_1_r in Hs. }
  destruct (old + Z.of_nat k =? old) eqn:E; bools; [|done]. replace k with 0%nat in * by lia. cbn [Z.of_nat] in Hr. rewrite Z.add_0_r in Hr. by destruct h.
Qed.

Lemma push_rep h S ts es :
  history_rep h S -> snapshot_write_idx h < 2 ^ 64 - 1 -> len es < 2 ^ 32 -> Forall (fun t => t <= ts) S.*1 ->
  history_rep
    (let h1 := {| h with snapshot_timestamp := <[snapshot_write_idx h := ts]> (snapshot_timestamp h);
                  snapshot_pair_count := <[snapshot_write_idx h := len es mod 2 ^ 32]> (snapshot_pair_count h) |} in
     let h2 := write_snapshot_rows (snapshot_write_idx h) h1 es in
     {| h2 with snapshot_write_idx := wadd 64 (snapshot_write_idx h) 1 |}) (S ++ [(ts, es)]).
Proof.
  intros Hh Hw Hl Hle. cbv zeta. rewrite write_snapshot_rows_eq. pose proof (hr_oldest _ _ Hh). pose proof (hr_write _ _ Hh) as Ew. unfold len in Ew.
  set (idx := snapshot_write_idx h) in *. split; cbn; [done|rewrite wadd_small by lia; unfold len; rewrite length_app; cbn; lia|rewrite wadd_small by lia; lia| |].
  - intros i s Hi. unfold snapshot_rows. cbn. rewrite !rd_insert. apply lookup_app_Some in Hi as [Hi|[Hi1 Hi2]].
    + pose proof (lookup_lt_Some _ _ _ Hi). destruct (hr_at _ _ Hh i s Hi) as [E1 E2]. rewrite !decide_False by lia. split; [done|]. rewrite <- E2.
      unfold snapshot_rows. apply list_fmap_ext. intros j p _. by rewrite !rd_fill_out by lia.
    + assert (i = length S) as -> by (apply lookup_lt_Some in Hi2; cbn in Hi2; lia). rewrite Nat.sub_diag in Hi2. injection Hi2 as <-. cbn [fst snd].
      replace (snapshot_oldest_idx h + Z.of_nat (length S)) with idx by lia. rewrite !decide_True by done. split; [done|].
      rewrite Z.mod_small by (unfold len in *; lia).
      pose proof (rd_fill_in (snapshot_pair_id h) idx ((fun e => e.1.1) <$> es)) as F1. pose proof (rd_fill_in (snapshot_rate h) idx ((fun e => e.1.2) <$> es)) as F2.
      pose proof (rd_fill_in (snapshot_volume h) idx (snd <$> es)) as F3. unfold len in *. rewrite length_fmap in F1, F2, F3.
      apply list_eq. intros j. apply (f_equal (lookup j)) in F1, F2, F3. rewrite !list_lookup_fmap in F1. rewrite !list_lookup_fmap in F2. rewrite !list_lookup_fmap in F3. rewrite list_lookup_fmap.
      destruct (seqZ 0 (Z.of_nat (length es)) !! j) as [x|], (es !! j) as [[[p r] w]|]; cbn in *; try done. congruence.
  - rewrite fmap_app. cbn. apply StronglySorted_app_2; [|apply Hh|repeat constructor]. intros x y Hx ->%list_elem_of_singleton.
    rewrite Forall_forall in Hle. by apply Hle.
Qed.

(** [write_snapshot] appends a snapshot and forgets those past the retention. *)
Lemma write_snapshot_rep h S ts es :
  history_rep h S -> snapshot_write_idx h < 2 ^ 64 - 1 -> len es < 2 ^ 32 -> Forall (fun t => t <= ts) S.*1 ->
  history_rep (write_snapshot h ts es) (filter (fun s => saturating_sub ts MAX_SNAPSHOT_RETENTION_SECONDS <= s.1) (S ++ [(ts, es)])).
Proof. intros Hh Hw Hl Hle. unfold write_snapshot. cbv zeta. apply evict_rep. eapply history_rep_same; [apply add_daily_same|]. by apply push_rep. Qed.

Lemma history_rep_empty : history_rep (mkHistory 0 0 ∅ ∅ ∅ ∅ ∅ ∅ ∅) [].
Proof. split; cbn; try done. constructor. Qed.

(** ** Averages over a window *)

Definition row_of (pair_id : u32) (rows : list (u32 * U256 * U256)) : option (U256 * U256) :=
  (fun r => (r.1.2, effective_volume r.2)) <$> List.find (fun r => r.1.1 =? pair_id) rows.

(** The prices of a pair in a window, with their weights. *)
Definition window_rows (S : list snapshot) (pair_id : u32) (start_time end_time : u64) : list (U256 * U256) :=
  omap (fun s => row_of pair_id s.2) (filter (fun s => start_time <= s.1 <= end_time) S).

Definition pv_sum (l : list (U256 * U256)) : Z := lsum ((fun x => x.1 * x.2) <$> l).
Definition vol_sum (l : list (U256 * U256)) : Z := lsum (snd <$> l).

(** Rates and volumes are unsigned. *)
Definition row_nonneg (r : u32 * U256 * U256) : Prop := 0 <= r.1.2 /\ 0 <= r.2.
Definition rows_nonneg (S : list snapshot) : Prop := Forall (fun s => Forall row_nonneg s.2) S.

Definition weighted (x : U256 * U256) : Prop := 0 <= x.1 /\ 0 < x.2.

Lemma effective_volume_pos w : 0 <= w -> 0 < effective_volume w.
Proof. intros. unfold effective_volume. destruct (w =? 0) eqn:E; bools; [done|lia]. Qed.

Lemma list_find_fmap {A B} (f : B -> bool) (g : A -> B) l : List.find f (g <$> l) = g <$> List.find (fun x => f (g x)) l.
Proof. induction l as [|x l IH]; [done|]. cbn. destruct (f (g x)); [done|apply IH]. Qed.

Lemma find_row_spec h idx pair_id :
  (fun p => (rd (snapshot_rate h) (idx, p), effective_volume (rd (snapshot_volume h) (idx, p)))) <$> find_row h idx pair_id = row_of pair_id (snapshot_rows h idx).
Proof. unfold row_of, snapshot_rows. rewrite list_find_fmap. cbn. unfold find_row. by destruct (List.find _ _). Qed.

Lemma row_of_weighted pair_id rows x : Forall row_nonneg rows -> row_of pair_id rows = Some x -> weighted x.
Proof.
  intros Hr E. unfold row_of in E. destruct (List.find _ rows) as [r|] eqn:Er; [|done]. injection E as <-.
  apply find_some in Er as [Hin _]. rewrite Forall_forall in Hr. destruct (Hr r); [by apply list_elem_of_In|]. split; [done|]. by apply effective_volume_pos.
Qed.

Lemma window_weighted S pair_id s e : rows_nonneg S -> Forall weighted (window_rows S pair_id s e).
Proof.
  intros Hr. apply Forall_forall. intros x ([t rows] & Hin & Hx)%list_elem_of_omap. apply list_elem_of_filter in Hin as [_ Hin].
  unfold rows_nonneg in Hr. rewrite Forall_forall in Hr. eapply row_of_weighted; [exact (Hr _ Hin)|exact Hx].
Qed.

Lemma weighted_sums l : Forall weighted l -> 0 <= pv_sum l /\ 0 <= vol_sum l /\ (l <> [] -> 0 < vol_sum l).
Proof.
  unfold pv_sum, vol_sum. induction 1 as [|[r v] l [Hr Hv] Hl (IH1 & IH2 & _)]; [done|]. cbn [fmap list_fmap fst snd] in *.
  change (lsum (r * v :: ?l)) with (r * v + lsum l). change (lsum (v :: ?l)) with (v + lsum l). cbn in Hr, Hv.
  unfold fmap in *. split_and!; [nia|lia|lia].
Qed.

(** A weighted average lies between the smallest and the largest price. *)
Lemma average_bounds l lo hi :
  Forall weighted l -> l <> [] -> Forall (fun x => lo <= x.1 <= hi) l -> lo <= pv_sum l / vol_sum l <= hi.
Proof.
  intros Hw Hne Hb. destruct (weighted_sums l Hw) as (_ & _ & Hv). specialize (Hv Hne).
  assert (lo * vol_sum l <= pv_sum l <= hi * vol_sum l); [|split; [apply Z.div_le_lower_bound; lia|apply Z.div_le_upper_bound; lia]].
  clear Hv Hne. unfold pv_sum, vol_sum in *. induction Hb as [|[r v] l Hr Hl IH]; [cbn; lia|]. apply Forall_cons_1 in Hw as [[Hr0 Hv0] Hw].
  cbn [fmap list_fmap fst snd] in *. change (lsum (r * v :: ?l)) with (r * v + lsum l). change (lsum (v :: ?l)) with (v + lsum l).
  specialize (IH Hw). unfold fmap in *. nia.
Qed.

Lemma binary_search_spec fuel h target lo hi :
  lo <= hi -> hi - lo < 2 ^ Z.of_nat fuel ->
  (forall i j, lo <= i -> i <= j -> j < hi -> rd (snapshot_timestamp h) i <= rd (snapshot_timestamp h) j) ->
  let r := binary_search fuel h target lo hi in
  lo <= r <= hi /\ (forall i, lo <= i < r -> rd (snapshot_timestamp h) i < target) /\ (forall i, r <= i < hi -> target <= rd (snapshot_timestamp h) i).
Proof.
  revert lo hi. induction fuel as [|fuel IH]; intros lo hi Hle Hf Hm; cbn [binary_search].
  { cbn in Hf. split_and!; intros; lia. }
  rewrite Nat2Z.inj_succ, Z.pow_succ_r in Hf by lia. destruct (lo <? hi) eqn:E; bools; [|cbv zeta; split_and!; intros; lia].
  pose proof (Z.div_mod (hi - lo) 2 ltac:(lia)). pose proof (Z.mod_pos_bound (hi - lo) 2 ltac:(lia)).
  set (mid := lo + (hi - lo) / 2). assert (Hmid : lo <= mid < hi) by (subst mid; lia). destruct (rd (snapshot_timestamp h) mid <? target) eqn:Et; bools.
  - destruct (IH (mid + 1) hi) as (Hr & Hl & Hg); [lia|subst mid; lia|intros; apply Hm; lia|]. split_and!; [lia|lia| |done].
    intros i Hi. destruct (Z.le_gt_cases i mid) as [Him|Him]; [|apply Hl; lia]. specialize (Hm i mid ltac:(lia) ltac:(lia) ltac:(lia)). lia.
  - destruct (IH lo mid) as (Hr & Hl & Hg); [lia|subst mid; lia|intros; apply Hm; lia|]. split_and!; [lia|lia|done|].
    intros i Hi. destruct (Z.le_gt_cases mid i) as [Him|Him]; [|apply Hg; lia]. specialize (Hm mid i ltac:(lia) ltac:(lia) ltac:(lia)). lia.
Qed.

Lemma idx_range_app a b c : a <= b -> b <= c -> idx_range a c = idx_range a b ++ idx_range b c.
Proof. intros. unfold idx_range. replace (c - a) with ((b - a) + (c - b)) by lia. rewrite seqZ_app by lia. by replace (a + (b - a)) with b by lia. Qed.

Lemma elem_of_idx_range i a b : i ∈ idx_range a b <-> a <= i < b.
Proof. unfold idx_range. rewrite elem_of_seqZ. lia. Qed.

Definition view (h : PriceHistory) (l : list u64) : list snapshot := (fun i => (rd (snapshot_timestamp h) i, snapshot_rows h i)) <$> l.

Lemma history_view h S : history_rep h S -> S = view h (idx_range (snapshot_oldest_idx h) (snapshot_write_idx h)).
Proof.
  intros Hh. pose proof (hr_write _ _ Hh) as Hw. unfold len in Hw. unfold view, idx_range. apply list_eq. intros i. rewrite list_lookup_fmap.
  destruct (S !! i) as [s|] eqn:E.
  - pose proof (lookup_lt_Some _ _ _ E). rewrite lookup_seqZ_lt by lia. cbn. destruct (hr_at _ _ Hh i s E) as [-> ->]. by destruct s.
  - apply lookup_ge_None in E. by rewrite lookup_seqZ_ge by lia.
Qed.

Lemma history_mono h S i j :
  history_rep h S -> snapshot_oldest_idx h <= i -> i <= j -> j < snapshot_write_idx h -> rd (snapshot_timestamp h) i <= rd (snapshot_timestamp h) j.
Proof.
  intros Hh Hi Hij Hj. pose proof (hr_write _ _ Hh) as Hw. unfold len in Hw. pose proof (hr_sorted _ _ Hh) as Hs.
  destruct (decide (i = j)) as [->|Hne]; [lia|].
  destruct (lookup_lt_is_Some_2 S (Z.to_nat (i - snapshot_oldest_idx h)) ltac:(lia)) as [s Es].
  destruct (lookup_lt_is_Some_2 S (Z.to_nat (j - snapshot_oldest_idx h)) ltac:(lia)) as [t Et].
  destruct (hr_at _ _ Hh _ _ Es) as [E1 _]. destruct (hr_at _ _ Hh _ _ Et) as [E2 _]. rewrite Z2Nat.id in E1, E2 by lia.
  replace (snapshot_oldest_idx h + (i - snapshot_oldest_idx h)) with i in E1 by lia. replace (snapshot_oldest_idx h + (j - snapshot_oldest_idx h)) with j in E2 by lia.
  rewrite E1, E2. rewrite <- (take_drop (Z.to_nat (j - snapshot_oldest_idx h)) S), fmap_app in Hs.
  eapply (StronglySorted_app_1_elem_of _ _ _ _ _ Hs); apply (list_elem_of_fmap_2 fst).
  - apply list_elem_of_lookup. exists (Z.to_nat (i - snapshot_oldest_idx h)). apply lookup_take_Some. split; [done|lia].
  - apply list_elem_of_lookup. exists 0%nat. by rewrite lookup_drop, Nat.add_0_r.
Qed.

Lemma filter_none {A} (P : A -> Prop) `{forall x, Decision (P x)} (l : list A) : Forall (fun x => ~ P x) l -> filter P l = [].
Proof. induction 1 as [|x l Hx Hl IH]; [done|]. by rewrite filter_cons_False. Qed.

Lemma omap_fmap {A B C} (f : B -> option C) (g : A -> B) (l : list A) : omap f (g <$> l) = omap (fun x => f (g x)) l.
Proof. induction l as [|x l IH]; [done|]. cbn. destruct (f (g x)); [f_equal|]; apply IH. Qed.

(** What the search for [target] returns. *)
Definition cut_at (h : PriceHistory) (target r : u64) : Prop :=
  snapshot_oldest_idx h <= r <= snapshot_write_idx h /\
  (forall i, snapshot_oldest_idx h <= i < r -> rd (snapshot_timestamp h) i < target) /\
  (forall i, r <= i < snapshot_write_idx h -> target <= rd (snapshot_timestamp h) i).

Lemma search_cut h S target : history_rep h S -> cut_at h target (binary_search_snapshot_idx h target (snapshot_oldest_idx h) (snapshot_write_idx h)).
Proof.
  intros Hh. pose proof (hr_write _ _ Hh) as Hw. unfold len in Hw. pose proof (hr_oldest _ _ Hh). pose proof (hr_fits _ _ Hh).
  apply binary_search_spec; [lia| |].
  - change (2 ^ Z.of_nat SEARCH_FUEL) with (2 * 2 ^ 64). lia.
  - intros i j. by apply (history_mono h S).
Qed.

(** Two cuts enclose the snapshots of the window. *)
Lemma window_range h S pair_id start_time end_time a b :
  history_rep h S -> cut_at h start_time a -> cut_at h (end_time + 1) b ->
  omap (fun i => row_of pair_id (snapshot_rows h i)) (idx_range a b) = window_rows S pair_id start_time end_time.
Proof.
  intros Hh (R1 & L1 & G1) (R2 & L2 & G2). unfold window_rows. destruct (Z.le_gt_cases start_time (end_time + 1)) as [Hse|Hse].
  - assert (a <= b). { destruct (Z.le_gt_cases a b) as [|Hlt]; [done|]. specialize (L1 b ltac:(lia)). specialize (G2 b ltac:(lia)). lia. }
    rewrite (history_view h S Hh), (idx_range_app (snapshot_oldest_idx h) a (snapshot_write_idx h)), (idx_range_app a b (snapshot_write_idx h)) by lia.
    unfold view. rewrite !fmap_app, !filter_app.
    rewrite (filter_none _ (_ <$> idx_range (snapshot_oldest_idx h) a)), (filter_all _ (_ <$> idx_range a b)), (filter_none _ (_ <$> idx_range b _)).
    + cbn [app]. rewrite app_nil_r. by rewrite omap_fmap.
    + apply Forall_fmap, Forall_forall. intros i Hi%elem_of_idx_range. cbn. specialize (G2 i ltac:(lia)). lia.
    + apply Forall_fmap, Forall_forall. intros i Hi%elem_of_idx_range. cbn. specialize (G1 i ltac:(lia)). specialize (L2 i ltac:(lia)). lia.
    + apply Forall_fmap, Forall_forall. intros i Hi%elem_of_idx_range. cbn. specialize (L1 i ltac:(lia)). lia.
  - assert (b <= a). { destruct (Z.le_gt_cases b a) as [|Hlt]; [done|]. specialize (L2 a ltac:(lia)). specialize (G1 a ltac:(lia)). lia. }
    unfold idx_range. rewrite seqZ_nil by lia. rewrite filter_none; [done|]. apply Forall_forall. intros s _. lia.
Qed.

Lemma pv_sum_cons x l : pv_sum (x :: l) = x.1 * x.2 + pv_sum l.
Proof. done. Qed.
Lemma vol_sum_cons x l : vol_sum (x :: l) = x.2 + vol_sum l.
Proof. done. Qed.
Lemma pv_sum_app l1 l2 : pv_sum (l1 ++ l2) = pv_sum l1 + pv_sum l2.
Proof. unfold pv_sum. by rewrite fmap_app, lsum_app. Qed.
Lemma vol_sum_app l1 l2 : vol_sum (l1 ++ l2) = vol_sum l1 + vol_sum l2.
Proof. unfold vol_sum. by rewrite fmap_app, lsum_app. Qed.

Lemma vwap_fold h pair_id l pv0 v0 :
  let rows := omap (fun i => row_of pair_id (snapshot_rows h i)) l in
  Forall weighted rows -> 0 <= pv0 -> 0 <= v0 -> pv0 + pv_sum rows < 2 ^ 256 -> v0 + vol_sum rows < 2 ^ 256 ->
  foldM (vwap_step h pair_id) (pv0, v0) l = Ok (pv0 + pv_sum rows, v0 + vol_sum rows).
Proof.
  cbv zeta. revert pv0 v0. induction l as [|i l IH]; intros pv0 v0 Hw Hp Hv Fp Fv; [cbn; by rewrite !Z.add_0_r|].
  cbn [foldM vwap_step]. pose proof (find_row_spec h i pair_id) as Er. cbn [omap list_omap] in *.
  destruct (find_row h i pair_id) as [p|]; cbn in Er; rewrite <- Er in *; [|by apply IH].
  change (list_omap _ _ ?f l) with (omap f l) in *. apply Forall_cons_1 in Hw as [[Hr Hx] Hw]. cbn [fst snd] in Hr, Hx.
  rewrite pv_sum_cons, vol_sum_cons in *. cbn [fst snd] in *. destruct (weighted_sums _ Hw) as (S1 & S2 & _).
  set (r := rd (snapshot_rate h) (i, p)) in *. set (v := effective_volume _) in *. assert (0 <= r * v) by nia.
  unfold checked_mul. rewrite (proj2 (Z.ltb_lt (r * v) (2 ^ 256))) by lia. cbn [ok_or].
  unfold checked_add. rewrite (proj2 (Z.ltb_lt (pv0 + r * v) (2 ^ 256))), (proj2 (Z.ltb_lt (v0 + v) (2 ^ 256))) by lia. cbn [ok_or].
  rewrite IH by (done || lia). f_equal. f_equal; lia.
Qed.

(** ** Daily sums *)

Definition day_of (ts : u64) : u64 := ts - ts mod 86400.

(** All the prices of a pair among some entries. *)
Definition rows_for (pair_id : u32) (es : list (u32 * U256 * U256)) : list (U256 * U256) :=
  omap (fun e => if e.1.1 =? pair_id then Some (e.1.2, effective_volume e.2) else None) es.

Definition day_rows (W : list snapshot) (pair_id : u32) (day : u64) : list (U256 * U256) :=
  s ← filter (fun s => day_of s.1 = day) W; rows_for pair_id s.2.

(** The daily sums are those of the snapshots ever written. *)
Definition daily_rep (h : PriceHistory) (W : list snapshot) : Prop :=
  forall pair_id day, rd (daily_pv_sum h) (pair_id, day) = pv_sum (day_rows W pair_id day) /\
                      rd (daily_vol_sum h) (pair_id, day) = vol_sum (day_rows W pair_id day).

(** No daily sum leaves 256 bits. *)
Definition daily_fit (W : list snapshot) : Prop :=
  forall pair_id day, pv_sum (day_rows W pair_id day) < 2 ^ 256 /\ vol_sum (day_rows W pair_id day) < 2 ^ 256.

Lemma rows_for_weighted pair_id es : Forall row_nonneg es -> Forall weighted (rows_for pair_id es).
Proof.
  intros Hr. apply Forall_forall. intros x (e & He & Hx)%list_elem_of_omap. rewrite Forall_forall in Hr. destruct (Hr e He).
  destruct (e.1.1 =? pair_id); [|done]. injection Hx as <-. split; [done|]. by apply effective_volume_pos.
Qed.

Lemma day_rows_app W1 W2 pair_id day : day_rows (W1 ++ W2) pair_id day = day_rows W1 pair_id day ++ day_rows W2 pair_id day.
Proof. unfold day_rows. by rewrite filter_app, bind_app. Qed.

Lemma day_rows_one ts es pair_id day : day_rows [(ts, es)] pair_id day = if decide (day_of ts = day) then rows_for pair_id es else [].
Proof. unfold day_rows. rewrite filter_cons. cbn [fst]. case_decide; [|done]. cbn. by rewrite app_nil_r. Qed.

(** The effect of a list of entries on the sums of their day. *)
Lemma add_daily_sums day es h :
  Forall row_nonneg es -> (forall k, 0 <= rd (daily_pv_sum h) k /\ 0 <= rd (daily_vol_sum h) k) ->
  (forall pair_id, rd (daily_pv_sum h) (pair_id, day) + pv_sum (rows_for pair_id es) < 2 ^ 256 /\
                   rd (daily_vol_sum h) (pair_id, day) + vol_sum (rows_for pair_id es) < 2 ^ 256) ->
  forall pair_id d, rd (daily_pv_sum (foldl (add_daily day) h es)) (pair_id, d)
      = rd (daily_pv_sum h) (pair_id, d) + (if decide (day = d) then pv_sum (rows_for pair_id es) else 0) /\
    rd (daily_vol_sum (foldl (add_daily day) h es)) (pair_id, d)
      = rd (daily_vol_sum h) (pair_id, d) + (if decide (day = d) then vol_sum (rows_for pair_id es) else 0).
Proof.
  revert h. induction es as [|[[q r] w] es IH]; intros h Hr Hp Hf pair_id d; [cbn; case_decide; lia|].
  apply Forall_cons_1 in Hr as [[Hr0 Hw0] Hr]. cbn in Hr0, Hw0. pose proof (effective_volume_pos w Hw0) as Hv. cbn [foldl].
  assert (Hrow : forall pid, rows_for pid ((q, r, w) :: es) = (if q =? pid then [(r, effective_volume w)] else []) ++ rows_for pid es).
  { intros pid. unfold rows_for. cbn. by destruct (q =? pid). }
  destruct (Hp (q, day)) as [Hp1 Hp2]. destruct (Hf q) as [F1 F2]. rewrite Hrow, Z.eqb_refl in F1, F2. cbn [app] in F1, F2. rewrite pv_sum_cons in F1. rewrite vol_sum_cons in F2. cbn [fst snd] in F1, F2.
  destruct (weighted_sums _ (rows_for_weighted q es Hr)) as (S1 & S2 & _).
  assert (E1 : default MAX_U256 (checked_mul 256 r (effective_volume w)) = r * effective_volume w) by (unfold checked_mul; rewrite (proj2 (Z.ltb_lt _ _)) by nia; done).
  assert (Hstep : forall k, rd (daily_pv_sum (add_daily day h (q, r, w))) k = rd (daily_pv_sum h) k + (if decide ((q, day) = k) then r * effective_volume w else 0) /\
                            rd (daily_vol_sum (add_daily day h (q, r, w))) k = rd (daily_vol_sum h) k + (if decide ((q, day) = k) then effective_volume w else 0)).
  { intros k. cbn. rewrite E1. rewrite !rd_insert. destruct (decide ((q, day) = k)) as [<-|]; [|lia]. unfold saturating_add. split; nia. }
  destruct (IH (add_daily day h (q, r, w))) with (pair_id := pair_id) (d := d) as [-> ->]; [done| | |].
  - intros k. destruct (Hstep k) as [-> ->]. destruct (Hp k). case_decide; nia.
  - intros pid. destruct (Hstep (pid, day)) as [-> ->]. destruct (Hf pid) as [G1 G2]. rewrite Hrow in G1, G2.
    destruct (q =? pid) eqn:Eq; bools; [subst; rewrite !decide_True by done|rewrite !decide_False by congruence];
      cbn [app] in G1, G2; rewrite ?pv_sum_cons in G1; rewrite ?vol_sum_cons in G2; cbn [fst snd] in *; lia.
  - destruct (Hstep (pair_id, d)) as [-> ->]. rewrite Hrow. destruct (decide (day = d)) as [<-|Hd]; [|rewrite !decide_False by congruence; lia].
    destruct (q =? pair_id) eqn:Eq; bools; [subst; rewrite !decide_True by done|rewrite !decide_False by congruence]; cbn [app]; rewrite ?pv_sum_cons, ?vol_sum_cons; cbn [fst snd]; lia.
Qed.

Lemma write_snapshot_daily h W ts es :
  daily_rep h W -> rows_nonneg (W ++ [(ts, es)]) -> daily_fit (W ++ [(ts, es)]) -> daily_rep (write_snapshot h ts es) (W ++ [(ts, es)]).
Proof.
  intros Hd Hr Hf. unfold write_snapshot. cbv zeta. set (h1 := {| h with snapshot_timestamp := _; snapshot_pair_count := _ |}).
  change (foldl _ h1 _) with (write_snapshot_rows (snapshot_write_idx h) h1 es). rewrite write_snapshot_rows_eq. set (h2 := {| _ with snapshot_write_idx := _ |}).
  assert (Hev : forall h now, daily_pv_sum (evict_old_snapshots h now) = daily_pv_sum h /\ daily_vol_sum (evict_old_snapshots h now) = daily_vol_sum h).
  { intros g now. unfold evict_old_snapshots. cbv zeta. by destruct (_ =? _). }
  apply Forall_app in Hr as [HrW Hr1]. apply Forall_cons_1 in Hr1 as [Hr1 _]. cbn in Hr1.
  assert (Hnn : forall k, 0 <= rd (daily_pv_sum h2) k /\ 0 <= rd (daily_vol_sum h2) k).
  { intros [pid d]. destruct (Hd pid d) as [E1 E2]. cbn. rewrite E1, E2. assert (Hw : Forall weighted (day_rows W pid d)).
    { apply Forall_forall. intros x (s & Hx & Hs)%list_elem_of_bind. apply list_elem_of_filter in Hs as [_ Hs].
      unfold rows_nonneg in HrW. rewrite Forall_forall in HrW. pose proof (rows_for_weighted pid s.2 (HrW s Hs)) as Hq. rewrite Forall_forall in Hq. by apply Hq. }
    destruct (weighted_sums _ Hw) as (? & ? & _). done. }
  intros pid d. change (ts - ts mod 86400) with (day_of ts). destruct (Hev (foldl (add_daily (day_of ts)) h2 es) ts) as [-> ->].
  destruct (add_daily_sums (day_of ts) es h2 Hr1 Hnn) with (pair_id := pid) (d := d) as [-> ->].
  - intros q. cbn. destruct (Hd q (day_of ts)) as [-> ->]. destruct (Hf q (day_of ts)) as [F1 F2].
    rewrite day_rows_app, day_rows_one, decide_True, pv_sum_app in F1 by done. rewrite day_rows_app, day_rows_one, decide_True, vol_sum_app in F2 by done. done.
  - cbn. destruct (Hd pid d) as [-> ->]. rewrite day_rows_app, day_rows_one, pv_sum_app, vol_sum_app. by case_decide.
Qed.

(** ** Windows of a day or more *)

(** All the prices written in [a, b). *)
Definition range_rows (W : list snapshot) (pair_id : u32) (a b : u64) : list (U256 * U256) :=
  s ← filter (fun s => a <= s.1 < b) W; rows_for pair_id s.2.

Definition row_pos (r : u32 * U256 * U256) : Prop := 0 < r.1.2 /\ 0 <= r.2.
Definition rows_pos (W : list snapshot) : Prop := Forall (fun s => Forall row_pos s.2) W.

Lemma rows_pos_nonneg W : rows_pos W -> rows_nonneg W.
Proof. intros Hr. eapply Forall_impl; [exact Hr|]. cbn. intros s Hs. eapply Forall_impl; [exact Hs|]. intros r [? ?]. split; [lia|done]. Qed.

Lemma bind_weighted (W : list snapshot) P `{forall s, Decision (P s)} pair_id : rows_nonneg W -> Forall weighted (s ← filter P W; rows_for pair_id s.2).
Proof.
  intros Hr. apply Forall_forall. intros x (s & Hx & Hs)%list_elem_of_bind. apply list_elem_of_filter in Hs as [_ Hs].
  unfold rows_nonneg in Hr. rewrite Forall_forall in Hr. pose proof (rows_for_weighted pair_id s.2 (Hr s Hs)) as Hq. rewrite Forall_forall in Hq. by apply Hq.
Qed.

(** One more day extends the range by the rows of that day. *)
Lemma range_rows_step W pair_id a k :
  a mod 86400 = 0 -> 0 <= k ->
  pv_sum (range_rows W pair_id a (a + 86400 * (k + 1))) = pv_sum (range_rows W pair_id a (a + 86400 * k)) + pv_sum (day_rows W pair_id (a + 86400 * k)) /\
  vol_sum (range_rows W pair_id a (a + 86400 * (k + 1))) = vol_sum (range_rows W pair_id a (a + 86400 * k)) + vol_sum (day_rows W pair_id (a + 86400 * k)).
Proof.
  intros Ha Hk. unfold range_rows, day_rows. induction W as [|[t es] W [IH1 IH2]]; [done|].
  assert (Hd : day_of t = a + 86400 * k <-> a + 86400 * k <= t < a + 86400 * (k + 1)).
  { unfold day_of. pose proof (Z.div_mod t 86400 ltac:(lia)). pose proof (Z.mod_pos_bound t 86400 ltac:(lia)). pose proof (Z.div_mod a 86400 ltac:(lia)). lia. }
  rewrite !filter_cons. cbn [fst].
  destruct (decide (a <= t < a + 86400 * (k + 1))) as [H1|H1], (decide (a <= t < a + 86400 * k)) as [H2|H2], (decide (day_of t = a + 86400 * k)) as [H3|H3];
    try (exfalso; lia); rewrite ?bind_cons, ?pv_sum_app, ?vol_sum_app; lia.
Qed.

Lemma range_rows_mono W pair_id a b c : rows_nonneg W -> b <= c ->
  pv_sum (range_rows W pair_id a b) <= pv_sum (range_rows W pair_id a c) /\ vol_sum (range_rows W pair_id a b) <= vol_sum (range_rows W pair_id a c).
Proof.
  intros Hr Hbc. unfold range_rows. induction W as [|[t es] W IH]; [done|]. apply Forall_cons_1 in Hr as [He Hr]. destruct (IH Hr) as [IH1 IH2].
  destruct (weighted_sums _ (rows_for_weighted pair_id es He)) as (S1 & S2 & _). rewrite !filter_cons. cbn [fst].
  destruct (decide (a <= t < b)) as [H1|H1], (decide (a <= t < c)) as [H2|H2]; try (exfalso; lia); rewrite ?bind_cons, ?pv_sum_app, ?vol_sum_app; cbn [snd] in *; lia.
Qed.

(** A day without a price has no volume either. *)
Lemma day_rows_zero W pair_id d : rows_pos W -> pv_sum (day_rows W pair_id d) = 0 -> vol_sum (day_rows W pair_id d) = 0.
Proof.
  intros Hr Hz. unfold day_rows in *. set (l := s ← _; _) in *. assert (Hp : Forall (fun x : U256 * U256 => 0 < x.1 /\ 0 < x.2) l).
  { apply Forall_forall. intros x (s & (e & He & Hx)%list_elem_of_omap & Hs)%list_elem_of_bind. apply list_elem_of_filter in Hs as [_ Hs].
    unfold rows_pos in Hr. rewrite Forall_forall in Hr. specialize (Hr s Hs). cbn in Hr. rewrite Forall_forall in Hr. destruct (Hr e He).
    destruct (e.1.1 =? pair_id); [|done]. injection Hx as <-. split; [done|]. by apply effective_volume_pos. }
  clearbody l. destruct Hp as [|x l [H1 H2] Hl]; [done|]. exfalso. rewrite pv_sum_cons in Hz.
  assert (Hw : Forall weighted l) by (eapply Forall_impl; [exact Hl|]; intros y [? ?]; split; [lia|done]). destruct (weighted_sums l Hw) as (S1 & _). nia.
Qed.

Lemma aggregate_loop h W pair_id d0 end_time :
  daily_rep h W -> rows_pos W -> d0 mod 86400 = 0 -> 0 <= d0 <= end_time -> end_time < 2 ^ 64 - 86400 ->
  let rows := range_rows W pair_id d0 (d0 + 86400 * ((end_time - d0) / 86400)) in
  pv_sum rows < 2 ^ 256 -> vol_sum rows < 2 ^ 256 ->
  loopP DAY_FUEL (aggregate_step h pair_id end_time) (d0, 0, 0) = inr (pv_sum rows, vol_sum rows).
Proof.
  intros Hd Hr Ha H0 He rows Fp Fv. set (n := (end_time - d0) / 86400) in *.
  assert (Hn : 86400 * n <= end_time - d0 < 86400 * (n + 1)).
  { subst n. pose proof (Z.div_mod (end_time - d0) 86400 ltac:(lia)). pose proof (Z.mod_pos_bound (end_time - d0) 86400 ltac:(lia)). lia. }
  set (Inv := fun st : u64 * U256 * U256 => exists k, 0 <= k <= n /\ st = (d0 + 86400 * k, pv_sum (range_rows W pair_id d0 (d0 + 86400 * k)), vol_sum (range_rows W pair_id d0 (d0 + 86400 * k)))).
  destruct (loopP_total Inv (fun r => r = (pv_sum rows, vol_sum rows)) (fun st => (end_time - st.1.1) / 86400) (aggregate_step h pair_id end_time) DAY_FUEL (d0, 0, 0)) as (r & -> & ->).
  - intros st st' (k & Hk & ->) E. cbn [aggregate_step fst] in *. rewrite wadd_small in E by lia. destruct (_ <=? end_time) eqn:Eb in E; [|done]. bools.
    assert (Hkn : k + 1 <= n) by lia. destruct (range_rows_step W pair_id d0 k Ha ltac:(lia)) as [S1 S2]. destruct (Hd pair_id (d0 + 86400 * k)) as [E1 E2]. rewrite E1, E2 in E.
    destruct (range_rows_mono W pair_id d0 (d0 + 86400 * (k + 1)) (d0 + 86400 * n) (rows_pos_nonneg _ Hr) ltac:(lia)) as [M1 M2]. fold rows in M1, M2.
    destruct (weighted_sums _ (bind_weighted W (fun s => d0 <= s.1 < d0 + 86400 * k) pair_id (rows_pos_nonneg _ Hr))) as (P1 & P2 & _).
    destruct (weighted_sums _ (bind_weighted W (fun s => day_of s.1 = d0 + 86400 * k) pair_id (rows_pos_nonneg _ Hr))) as (Q1 & Q2 & _).
    change (s ← filter _ W; _) with (range_rows W pair_id d0 (d0 + 86400 * k)) in P1, P2. change (s ← filter _ W; _) with (day_rows W pair_id (d0 + 86400 * k)) in Q1, Q2.
    assert (E' : st' = (d0 + 86400 * (k + 1), pv_sum (range_rows W pair_id d0 (d0 + 86400 * (k + 1))), vol_sum (range_rows W pair_id d0 (d0 + 86400 * (k + 1))))).
    { destruct (pv_sum (day_rows W pair_id (d0 + 86400 * k)) =? 0) eqn:Ez; bools; injection E as <-.
      - pose proof (day_rows_zero W pair_id _ Hr Ez). f_equal; [f_equal|]; lia.
      - unfold saturating_add. f_equal; [f_equal|]; lia. }
    subst st'. split; [exists (k + 1); split; [lia|done]|]. cbn [fst]. replace (end_time - (d0 + 86400 * k)) with (end_time - (d0 + 86400 * (k + 1)) + 1 * 86400) by lia.
    rewrite Z.div_add by lia. split; [apply Z.div_pos; lia|lia].
  - intros st r (k & Hk & ->) E. cbn [aggregate_step] in E. rewrite wadd_small in E by lia. destruct (_ <=? end_time) eqn:Eb in E; [destruct (_ =? 0) in E; discriminate E|]. bools.
    assert (k = n) as -> by lia. injection E as <-. done.
  - exists 0. rewrite Z.mul_0_r, Z.add_0_r. split; [lia|]. unfold range_rows. rewrite filter_none; [done|]. apply Forall_forall. intros s _. lia.
  - cbn [fst]. apply Z.div_lt_upper_bound; [lia|]. change (Z.pos DAY_FUEL) with (2 ^ 48). lia.
  - done.
Qed.

(** ** The averages of the contract *)

(** The average of some weighted prices. *)
Definition average_of (l : list (U256 * U256)) : res U256 :=
  match l with [] => Err NO_VWAP_DATA | _ => Ok (pv_sum l / vol_sum l) end.

Definition sums_fit (l : list (U256 * U256)) : Prop := pv_sum l < 2 ^ 256 /\ vol_sum l < 2 ^ 256.

Lemma average_of_sums l : Forall weighted l -> average_of l = (ensure negb (vol_sum l =? 0) else NO_VWAP_DATA in Ok (pv_sum l / vol_sum l)).
Proof.
  intros Hw. destruct l as [|x l]; [done|]. destruct (weighted_sums _ Hw) as (_ & _ & Hv). specialize (Hv ltac:(done)).
  by rewrite (proj2 (Z.eqb_neq _ _)) by lia.
Qed.

Lemma day_of_aligned t : day_of t mod 86400 = 0.
Proof. unfold day_of. pose proof (Z.div_mod t 86400 ltac:(lia)) as E. replace (t - t mod 86400) with (t / 86400 * 86400) by lia. apply Z.mod_mul. lia. Qed.

Lemma day_of_bounds t : day_of t <= t < day_of t + 86400.
Proof. unfold day_of. pose proof (Z.mod_pos_bound t 86400 ltac:(lia)). lia. Qed.

Lemma day_of_add n r : 0 <= r < 86400 -> day_of (86400 * n + r) = 86400 * n.
Proof. intros. unfold day_of. rewrite (Z.mul_comm 86400 n), (Z.add_comm (n * 86400)), Z.mod_add, Z.mod_small by lia. lia. Qed.

Lemma day_of_steps d0 e : d0 mod 86400 = 0 -> d0 + 86400 * ((e - d0) / 86400) = day_of e.
Proof.
  intros Hd. unfold day_of. pose proof (Z.div_mod d0 86400 ltac:(lia)). pose proof (Z.div_mod e 86400 ltac:(lia)). pose proof (Z.mod_pos_bound e 86400 ltac:(lia)).
  replace (e - d0) with (e mod 86400 + (e / 86400 - d0 / 86400) * 86400) by lia. rewrite Z.div_add by lia. rewrite (Z.div_small (e mod 86400)) by lia. lia.
Qed.

Lemma short_window_vwap h S pair_id start_time end_time :
  history_rep h S -> rows_nonneg S -> 0 <= end_time < 2 ^ 64 - 1 -> end_time - start_time < 86400 ->
  sums_fit (window_rows S pair_id start_time end_time) ->
  calculate_vwap h pair_id start_time end_time = average_of (window_rows S pair_id start_time end_time).
Proof.
  intros Hh Hr He Hs [Fp Fv]. unfold calculate_vwap, try_daily_aggregate_vwap.
  assert (Eq : (saturating_sub end_time start_time <? 86400) = true) by (apply Z.ltb_lt; unfold saturating_sub; lia).
  rewrite Eq. assert (Eg : (saturating_sub end_time start_time >=? 86400) = false) by (rewrite Z.geb_leb; apply Z.leb_gt; by apply Z.ltb_lt in Eq). rewrite Eg. cbv zeta.
  pose proof (window_weighted S pair_id start_time end_time Hr) as Hw.
  destruct (snapshot_write_idx h <=? snapshot_oldest_idx h) eqn:Eo; bools; cbn [negb].
  { pose proof (hr_write _ _ Hh) as Ew. destruct S as [|s S]; [done|]. unfold len in Ew. cbn [length] in Ew. lia. }
  rewrite wadd_small by lia.
  pose proof (search_cut h S start_time Hh) as C1. pose proof (search_cut h S (end_time + 1) Hh) as C2.
  pose proof (window_range h S pair_id start_time end_time _ _ Hh C1 C2) as Er.
  set (idxs := idx_range _ _) in *. pose proof (vwap_fold h pair_id idxs 0 0) as Ef. cbv zeta in Ef. rewrite Er in Ef.
  rewrite Ef by (done || lia). cbv beta iota. rewrite !Z.add_0_l. by rewrite average_of_sums.
Qed.

Lemma long_window_vwap h W pair_id start_time end_time :
  daily_rep h W -> rows_pos W -> 0 <= start_time -> 86400 <= end_time - start_time -> end_time < 2 ^ 64 - 86400 ->
  sums_fit (range_rows W pair_id (day_of start_time) (day_of end_time)) ->
  calculate_vwap h pair_id start_time end_time = average_of (range_rows W pair_id (day_of start_time) (day_of end_time)).
Proof.
  intros Hd Hr H0 Hs He [Fp Fv]. unfold calculate_vwap, try_daily_aggregate_vwap.
  assert (Eq : (saturating_sub end_time start_time <? 86400) = false) by (apply Z.ltb_ge; unfold saturating_sub; lia).
  assert (Eg : (saturating_sub end_time start_time >=? 86400) = true) by (rewrite Z.geb_leb; apply Z.leb_le; by apply Z.ltb_ge in Eq). rewrite Eq, Eg. cbv zeta.
  pose proof (day_of_bounds start_time). pose proof (day_of_steps (day_of start_time) end_time (day_of_aligned _)) as Es.
  assert (0 <= day_of start_time). { pose proof (Z.mod_le start_time 86400 ltac:(lia) ltac:(lia)). unfold day_of. lia. }
  change (start_time - start_time mod 86400) with (day_of start_time).
  rewrite (aggregate_loop h W pair_id (day_of start_time) end_time); rewrite ?Es; [|done|done|apply day_of_aligned|lia|lia|done|done].
  rewrite average_of_sums by (apply bind_weighted, rows_pos_nonneg, Hr). by destruct (vol_sum _ =? 0).
Qed.

(** C12. The volume-weighted average of a pair: over a window shorter than a day it
    is the average of the retained snapshots taken in the window, found by binary
    search; over a longer window it is the average of everything written in the UTC
    days from that of the start to that before the end, whether retained or not. In
    both cases the answer is the floor of the exact quotient, lies between the
    smallest and the largest price averaged, and is the no-data error exactly when
    there is no price. *)
Theorem vwap_exact (h : PriceHistory) (S W : list snapshot) (pair_id : u32) (start_time end_time : u64) :
  history_rep h S -> rows_nonneg S -> daily_rep h W -> rows_pos W -> 0 <= start_time <= end_time -> end_time < 2 ^ 64 - 86400 ->
  let l := if end_time - start_time <? 86400 then window_rows S pair_id start_time end_time
           else range_rows W pair_id (day_of start_time) (day_of end_time) in
  sums_fit l ->
  calculate_vwap h pair_id start_time end_time = average_of l /\
  forall lo hi v, Forall (fun x => lo <= x.1 <= hi) l -> calculate_vwap h pair_id start_time end_time = Ok v -> lo <= v <= hi.
Proof.
  intros Hh Hr Hd Hp H0 He l Hf. assert (Hw : Forall weighted l).
  { subst l. destruct (_ <? _); [by apply window_weighted|apply bind_weighted, rows_pos_nonneg, Hp]. }
  assert (E : calculate_vwap h pair_id start_time end_time = average_of l).
  { subst l. destruct (end_time - start_time <? 86400) eqn:Eb; bools; [by apply short_window_vwap; try lia|by apply long_window_vwap; try lia]. }
  split; [done|]. intros lo hi v Hb. rewrite E. destruct l as [|x l]; [done|]. intros [= <-]. by apply average_bounds.
Qed.

(** ** The stored averages of worldwide days *)

(** [get_worldwide_day_vwap_for_pair_id] as a search in the stored rows. *)
Definition day_rows_stored (d : DayVwaps) (day : u32) : list (u32 * U256) :=
  (fun i => (rd (worldwide_day_vwap_pair_id d) (day, i), rd (worldwide_day_vwap_value d) (day, i))) <$> seqZ 0 (rd (worldwide_day_vwap_pair_count d) day).

Lemma day_vwap_find d day pair_id :
  get_worldwide_day_vwap_for_pair_id d day pair_id =
  if rd (worldwide_day_vwap_exists d) day then snd <$> List.find (fun r => r.1 =? pair_id) (day_rows_stored d day) else None.
Proof. unfold get_worldwide_day_vwap_for_pair_id, day_rows_stored. rewrite list_find_fmap. cbn. destruct (rd _ day); [|done]. by destruct (List.find _ _). Qed.

Lemma collect_averages_Ok no_data average lookback pids rows :
  collect_averages no_data average lookback pids = Ok rows ->
  rows = omap (fun pid => match average pid with Ok x => Some (pid, x, lookback) | Err _ => None end) pids.
Proof.
  unfold collect_averages. set (f := omap _). enough (Hg : forall acc, foldM _ acc pids = Ok rows -> rows = acc ++ f pids) by apply Hg. subst f.
  induction pids as [|pid pids IH]; intros acc; cbn [foldM omap list_omap]; [intros [= <-]; by rewrite app_nil_r|].
  destruct (average pid) as [x|e] eqn:E.
  - intros Hr. rewrite (IH _ Hr), <- app_assoc. done.
  - destruct e; try discriminate. destruct (no_data msg); [|discriminate]. apply IH.
Qed.

Lemma calculate_vwaps_Ok o start_time end_time rows :
  calculate_vwaps o start_time end_time = Ok rows ->
  rows = omap (fun pid => match calculate_vwap (oc_history o) pid start_time end_time with Ok x => Some (pid, x, end_time - start_time) | Err _ => None end) (get_vote_targets (oc_pairs o)).
Proof.
  unfold calculate_vwaps. destruct (start_time <? end_time); [|done]. destruct (collect_averages _ _ _ _) as [l|e] eqn:E; [|done].
  apply collect_averages_Ok in E. rewrite <- E. clear E. destruct l; [done|]. by intros [= <-].
Qed.

Lemma find_averages (average : u32 -> res U256) lookback (pids : list u32) pair_id :
  snd ∘ fst <$> List.find (fun r : u32 * U256 * u64 => r.1.1 =? pair_id) (omap (fun pid => match average pid with Ok x => Some (pid, x, lookback) | Err _ => None end) pids) =
  if bool_decide (pair_id ∈ pids) then match average pair_id with Ok x => Some x | Err _ => None end else None.
Proof.
  induction pids as [|pid pids IH]; [by rewrite bool_decide_eq_false_2 by apply not_elem_of_nil|]. cbn [omap list_omap].
  change (list_omap _ _ ?f pids) with (omap f pids). pose proof (elem_of_cons pids pair_id pid) as Hc. destruct (decide (pid = pair_id)) as [->|Hne].
  - rewrite (bool_decide_eq_true_2 (pair_id ∈ _ :: _)) by (apply Hc; by left). destruct (average pair_id) as [x|e]; cbn; [by rewrite Z.eqb_refl|].
    rewrite IH. by case_bool_decide.
  - assert (bool_decide (pair_id ∈ pid :: pids) = bool_decide (pair_id ∈ pids)) as -> by (apply bool_decide_ext; naive_solver).
    destruct (average pid) as [x|e]; [|done]. cbn [List.find fst]. by rewrite (proj2 (Z.eqb_neq pid pair_id)) by done.
Qed.

(** The rows that [store_worldwide_day_vwap_snapshot] writes. *)
Lemma store_rows_eq day (rows : list (u32 * U256 * u64)) d k :
  foldl (fun d '(i, (pair_id, vwap, _)) =>
           {| d with worldwide_day_vwap_pair_id := <[(day, i) := pair_id]> (worldwide_day_vwap_pair_id d);
              worldwide_day_vwap_value := <[(day, i) := vwap]> (worldwide_day_vwap_value d) |}) d (combine (seqZ k (len rows)) rows)
  = {| d with worldwide_day_vwap_pair_id := fill (worldwide_day_vwap_pair_id d) day k ((fun r => r.1.1) <$> rows);
       worldwide_day_vwap_value := fill (worldwide_day_vwap_value d) day k ((fun r => r.1.2) <$> rows) |}.
Proof.
  revert d k. induction rows as [|r rows IH]; intros d k; [by destruct d|]. cbn [fmap list_fmap]. rewrite !fill_cons. unfold len in *. rewrite seqZ_cons by (cbn; lia).
  cbn [combine foldl]. destruct r as [[p v] x]. cbn [fst snd]. replace (Z.pred (Z.of_nat (length ((p, v, x) :: rows)))) with (Z.of_nat (length rows)) by (cbn; lia).
  apply IH.
Qed.

(** What is stored for a day is the average of every vote target that has one. *)
Lemma store_day_vwap_spec o day start_time end_time o' :
  store_worldwide_day_vwap_snapshot o day start_time end_time = Ok o' -> len (get_vote_targets (oc_pairs o)) < 2 ^ 32 ->
  (forall pair_id, get_worldwide_day_vwap_for_pair_id (oc_days o') day pair_id =
     if bool_decide (pair_id ∈ get_vote_targets (oc_pairs o)) then match calculate_vwap (oc_history o) pair_id start_time end_time with Ok v => Some v | Err _ => None end else None) /\
  (forall day' pair_id, day' <> day -> get_worldwide_day_vwap_for_pair_id (oc_days o') day' pair_id = get_worldwide_day_vwap_for_pair_id (oc_days o) day' pair_id) /\
  o' = set_days o (oc_days o').
Proof.
  unfold store_worldwide_day_vwap_snapshot. intros E Hl. destruct (calculate_vwaps o start_time end_time) as [l|e] eqn:E2; [|done].
  apply calculate_vwaps_Ok in E2. cbv zeta in E. injection E as <-. rewrite store_rows_eq. cbn [oc_days set_days].
  assert (Hlen : len l mod 2 ^ 32 = len l).
  { apply Z.mod_small. split; [unfold len; lia|]. eapply Z.le_lt_trans; [|exact Hl]. unfold len. apply Nat2Z.inj_le. subst l.
    clear. induction (get_vote_targets _) as [|pid pids IH]; [done|]. cbn. destruct (calculate_vwap _ _ _ _); cbn; change (list_omap _ _ ?f pids) with (omap f pids) in *; lia. }
  split; [|split; [|by destruct o]].
  - intros pair_id. rewrite day_vwap_find. cbn. rewrite !rd_insert_eq. rewrite <- (find_averages (fun pid => calculate_vwap (oc_history o) pid start_time end_time) (end_time - start_time)).
    rewrite <- E2. unfold day_rows_stored. cbn. rewrite rd_insert_eq, Hlen.
    assert (Er : (fun i => (rd (fill (worldwide_day_vwap_pair_id (oc_days o)) day 0 ((fun r => r.1.1) <$> l)) (day, i), rd (fill (worldwide_day_vwap_value (oc_days o)) day 0 ((fun r => r.1.2) <$> l)) (day, i))) <$> seqZ 0 (len l) = fst <$> l).
    { pose proof (rd_fill_in (worldwide_day_vwap_pair_id (oc_days o)) day ((fun r => r.1.1) <$> l)) as F1. pose proof (rd_fill_in (worldwide_day_vwap_value (oc_days o)) day ((fun r => r.1.2) <$> l)) as F2.
      unfold len in *. rewrite length_fmap in F1, F2. apply list_eq. intros j. apply (f_equal (lookup j)) in F1, F2. rewrite !list_lookup_fmap in F1. rewrite !list_lookup_fmap in F2. rewrite !list_lookup_fmap.
      destruct (seqZ 0 (Z.of_nat (length l)) !! j) as [x|], (l !! j) as [[[p v] w]|]; cbn in *; try done. congruence. }
    rewrite Er, list_find_fmap. by destruct (List.find _ l).
  - intros day' pair_id Hne. rewrite !day_vwap_find. cbn. rewrite rd_insert_ne by done. unfold day_rows_stored. cbn. rewrite rd_insert_ne by done.
    assert (Ee : (fun i => (rd (fill (worldwide_day_vwap_pair_id (oc_days o)) day 0 ((fun r => r.1.1) <$> l)) (day', i), rd (fill (worldwide_day_vwap_value (oc_days o)) day 0 ((fun r => r.1.2) <$> l)) (day', i)))
      <$> seqZ 0 (rd (worldwide_day_vwap_pair_count (oc_days o)) day') = day_rows_stored (oc_days o) day'); [|by rewrite Ee].
    apply list_fmap_ext. intros j x _. by rewrite !rd_fill_out by done.
Qed.

(** The average stored for a worldwide day [d] is that of two whole UTC days, the
    day before [d] and [d] itself, for every vote target with a price in them; other
    days keep theirs. The day forms from 10:00 of the day before to 12:00 of the day
    after, so prices of the ten hours before it starts count and prices of its last
    twelve hours do not. *)
Theorem worldwide_day_vwap_window (o o' : OracleContract) (W : list snapshot) (d : u32) (n : Z) :
  daily_rep (oc_history o) W -> rows_pos W -> len (get_vote_targets (oc_pairs o)) < 2 ^ 32 ->
  WorldwideDay.to_timestamp_utc d = 86400 * n -> 1 <= n < 2 ^ 40 ->
  let start_time := WorldwideDay.start_timestamp d in
  let end_time := start_time + 50 * 3600 in
  (forall pair_id, sums_fit (range_rows W pair_id (86400 * (n - 1)) (86400 * (n + 1)))) ->
  store_worldwide_day_vwap_snapshot o d start_time end_time = Ok o' ->
  start_time = 86400 * (n - 1) + 10 * 3600 /\ end_time = 86400 * (n + 1) + 12 * 3600 /\
  (forall pair_id, get_worldwide_day_vwap_for_pair_id (oc_days o') d pair_id =
     if bool_decide (pair_id ∈ get_vote_targets (oc_pairs o))
     then match average_of (range_rows W pair_id (86400 * (n - 1)) (86400 * (n + 1))) with Ok v => Some v | Err _ => None end else None) /\
  (forall d' pair_id, d' <> d -> get_worldwide_day_vwap_for_pair_id (oc_days o') d' pair_id = get_worldwide_day_vwap_for_pair_id (oc_days o) d' pair_id).
Proof.
  intros Hd Hr Hl Hu Hn start_time end_time Hf E.
  assert (Es : start_time = 86400 * (n - 1) + 10 * 3600).
  { subst start_time. unfold WorldwideDay.start_timestamp, saturating_sub, UTC_PLUS_14_OFFSET. unfold WorldwideDay.to_timestamp_utc in Hu. rewrite Hu. lia. }
  assert (Ee : end_time = 86400 * (n + 1) + 12 * 3600) by (subst end_time; lia). split; [done|]. split; [done|].
  destruct (store_day_vwap_spec o d start_time end_time o' E Hl) as (H1 & H2 & _). split; [|exact H2].
  assert (D1 : day_of start_time = 86400 * (n - 1)) by (rewrite Es; apply day_of_add; lia).
  assert (D2 : day_of end_time = 86400 * (n + 1)) by (rewrite Ee; apply day_of_add; lia).
  intros pair_id. rewrite H1. rewrite (long_window_vwap (oc_history o) W pair_id start_time end_time); rewrite ?D1, ?D2; [done|done|done|lia|lia|lia|apply Hf].
Qed.

Lemma loopP_forever {S R} (Inv : S -> Prop) (step : S -> S + R) :
  (forall s, Inv s -> exists s', step s = inl s' /\ Inv s') -> forall p s, Inv s -> exists s', loopP p step s = inl s' /\ Inv s'.
Proof.
  intros Hs. induction p as [p IH|p IH|]; intros s Hi; cbn [loopP]; [| |by apply Hs].
  - destruct (IH s Hi) as (s1 & -> & Hi1). destruct (IH s1 Hi1) as (s2 & -> & Hi2). by apply Hs.
  - destruct (IH s Hi) as (s1 & -> & Hi1). by apply IH.
Qed.

Lemma day_loop_returns (h : PriceHistory) (pair_id : u32) (start_time end_time : u64) :
  0 <= start_time <= end_time -> end_time < 2 ^ 64 - 86400 -> exists sums, loopP DAY_FUEL (aggregate_step h pair_id end_time) (day_of start_time, 0, 0) = inr sums.
Proof.
  intros H0 Hlt. pose proof (day_of_bounds start_time). assert (Hn : 0 <= day_of start_time). { pose proof (Z.mod_le start_time 86400 ltac:(lia) ltac:(lia)). unfold day_of. lia. }
  destruct (loopP_total (fun st => 0 <= st.1.1 <= end_time) (fun _ => True) (fun st => (end_time + 86400 - st.1.1) / 86400) (aggregate_step h pair_id end_time) DAY_FUEL (day_of start_time, 0, 0)) as (r & -> & _); [..|by exists r].
  - intros [[d a] b] st Hi E. cbn [fst] in Hi. cbn [aggregate_step] in E. destruct (Z.le_gt_cases (d + 86400) end_time) as [Hle|Hgt].
    + rewrite wadd_small in E by lia. rewrite (proj2 (Z.leb_le _ _)) in E by done.
      assert (st.1.1 = d + 86400) as -> by (destruct (_ =? 0) in E; injection E as <-; done). split; [lia|]. cbn [fst].
      replace (end_time + 86400 - d) with (end_time + 86400 - (d + 86400) + 1 * 86400) by lia. rewrite Z.div_add by lia. split; [apply Z.div_pos; lia|lia].
    + rewrite wadd_small in E by lia. rewrite (proj2 (Z.leb_gt _ _)) in E by lia. discriminate E.
  - done.
  - cbn [fst]. lia.
  - cbn [fst]. apply Z.div_lt_upper_bound; [lia|]. change (Z.pos DAY_FUEL) with (2 ^ 48). lia.
Qed.

(** Over a day or more the average exists or there is no data. *)
Lemma long_vwap_total h pair_id start_time end_time :
  0 <= start_time -> start_time + 86400 <= end_time < 2 ^ 64 - 86400 -> (exists v, calculate_vwap h pair_id start_time end_time = Ok v) \/ calculate_vwap h pair_id start_time end_time = Err NO_VWAP_DATA.
Proof.
  intros Hs He. unfold calculate_vwap, try_daily_aggregate_vwap. unfold saturating_sub. rewrite Z.max_l, (proj2 (Z.ltb_ge _ _)) by lia.
  change (start_time - start_time mod 86400) with (day_of start_time). destruct (day_loop_returns h pair_id start_time end_time ltac:(lia) ltac:(lia)) as [[pv vol] ->].
  destruct (vol =? 0); [|left; by eexists]. right. by rewrite Z.geb_leb, (proj2 (Z.leb_le _ _)) by lia.
Qed.

(** The loop over the UTC days of a window ends when the window does not reach
    the last day of the 64-bit clock. When it reaches the last 128 seconds the
    counter wraps around and every round is followed by another one: a query with
    such an end never returns. *)
Theorem vwap_window_loop (h : PriceHistory) (pair_id : u32) (start_time end_time : u64) :
  0 <= start_time <= end_time -> end_time < 2 ^ 64 ->
  (end_time < 2 ^ 64 - 86400 -> exists sums, loopP DAY_FUEL (aggregate_step h pair_id end_time) (day_of start_time, 0, 0) = inr sums) /\
  (2 ^ 64 - 128 <= end_time -> forall fuel, exists st, loopP fuel (aggregate_step h pair_id end_time) (day_of start_time, 0, 0) = inl st).
Proof.
  intros H0 He. pose proof (day_of_bounds start_time). pose proof (day_of_aligned start_time) as Ha.
  assert (Hn : 0 <= day_of start_time). { pose proof (Z.mod_le start_time 86400 ltac:(lia) ltac:(lia)). unfold day_of. lia. } split.
  - intros Hlt. by apply day_loop_returns.
  - intros Hge fuel. destruct (loopP_forever (fun st : u64 * U256 * U256 => (128 | st.1.1)) (aggregate_step h pair_id end_time)) with (p := fuel) (s := (day_of start_time, 0, 0)) as (st & -> & _); [| |by exists st].
    + intros [[d a] b] Hd. cbn [fst] in Hd. cbn [aggregate_step]. assert (Hw : (128 | wadd 64 d 86400)).
      { unfold wadd. apply Z.mod_divide; [lia|]. rewrite Z.mod_mod_divide by (by exists (2 ^ 57)).
        apply Z.mod_divide; [lia|]. apply Z.divide_add_r; [done|]. by exists 675. }
      assert (wadd 64 d 86400 <= end_time).
      { destruct Hw as [q Hq]. pose proof (wadd_fits 64 d 86400 ltac:(lia)) as Hf. unfold fits in Hf. rewrite Hq in *. lia. }
      rewrite (proj2 (Z.leb_le _ _)) by done. destruct (_ =? 0); eexists; (split; [done|exact Hw]).
    + cbn [fst]. apply Z.mod_divide in Ha; [|lia]. eapply Z.divide_trans; [|exact Ha]. by exists 675.
Qed.

(** ** S-curves *)

(** Entry [idx] seen on [target_day]: its value while it is active. *)
Definition active_value (c : SCurves) (pair_id : u32) (target_day : u64) (idx : u32) : Z :=
  let peak_day := rd (scurve_peak_day c) idx in
  if (rd (scurve_pair_id c) idx =? pair_id) && (peak_day <=? target_day) && ((target_day - peak_day) / DAY_SECONDS <? PERIOD)
  then compute_scurve_value (rd (scurve_peak_price c) idx) ((target_day - peak_day) / DAY_SECONDS) else 0.

Definition zmax (l : list Z) : Z := foldr Z.max 0 l.

Lemma coefficient_range i : 0 <= i < PERIOD -> 920000000000000000 <= default 0 (COEFFICIENTS !! Z.to_nat i) <= SCALE_1E18.
Proof.
  intros Hi. pose proof (range_forall (fun i => let k := default 0 (COEFFICIENTS !! Z.to_nat i) in (920000000000000000 <=? k) && (k <=? SCALE_1E18)) 0 PERIOD) as Hr.
  specialize (Hr ltac:(vm_compute; reflexivity) i ltac:(lia)). cbv beta zeta in Hr. bools. lia.
Qed.

Lemma coefficient_decreasing i : 0 <= i < PERIOD - 1 -> default 0 (COEFFICIENTS !! Z.to_nat (i + 1)) <= default 0 (COEFFICIENTS !! Z.to_nat i).
Proof.
  intros Hi. pose proof (range_forall (fun i => default 0 (COEFFICIENTS !! Z.to_nat (i + 1)) <=? default 0 (COEFFICIENTS !! Z.to_nat i)) 0 (PERIOD - 1)) as Hr.
  specialize (Hr ltac:(vm_compute; reflexivity) i ltac:(lia)). cbv beta in Hr. bools. lia.
Qed.

(** Over the 128 days an entry falls from its peak to 92 per cent of it. *)
Lemma scurve_value_range price i :
  0 <= i < PERIOD -> 0 <= price -> price * SCALE_1E18 < 2 ^ 256 -> price * 92 / 100 <= compute_scurve_value price i <= price.
Proof.
  intros Hi Hp Hf. pose proof (coefficient_range i Hi) as Hc. unfold compute_scurve_value. rewrite Z.geb_leb, (proj2 (Z.leb_gt _ _)) by lia.
  set (k := default 0 (COEFFICIENTS !! Z.to_nat i)) in *. unfold SCALE_1E18 in *.
  assert (price * k <= price * 1000000000000000000) by (apply Z.mul_le_mono_nonneg_l; lia). assert (price * 920000000000000000 <= price * k) by (apply Z.mul_le_mono_nonneg_l; lia).
  unfold checked_mul. rewrite (proj2 (Z.ltb_lt _ _)) by lia. cbn [default from_option id].
  split; [|apply Z.div_le_upper_bound; lia]. apply Z.div_le_lower_bound; [lia|]. pose proof (Z.mul_div_le (price * 92) 100 ltac:(lia)). lia.
Qed.

Lemma scurve_value_nonneg price i : 0 <= price -> 0 <= compute_scurve_value price i.
Proof.
  intros Hp. unfold compute_scurve_value. destruct (i >=? PERIOD) eqn:E; bools; [done|]. apply Z.div_pos; [|done]. unfold checked_mul.
  destruct (_ <? _); cbn [default from_option id]; [|done]. apply Z.mul_nonneg_nonneg; [done|]. destruct (Z.le_gt_cases 0 i) as [Hi|Hi].
  - pose proof (coefficient_range i ltac:(lia)). lia.
  - by replace (Z.to_nat i) with 0%nat by lia.
Qed.

Lemma max_step_value c pair_id target_day m idx :
  0 <= m -> 0 <= rd (scurve_peak_price c) idx -> scurve_max_step c pair_id target_day m idx = Z.max m (active_value c pair_id target_day idx).
Proof.
  intros Hm Hp. unfold scurve_max_step, active_value. cbv zeta. destruct (rd (scurve_pair_id c) idx =? pair_id); cbn [negb andb]; [|lia].
  rewrite Z.geb_leb. destruct (Z.ltb_spec target_day (rd (scurve_peak_day c) idx)), (Z.leb_spec (rd (scurve_peak_day c) idx) target_day); cbn [andb]; try lia.
  set (q := (target_day - rd (scurve_peak_day c) idx) / DAY_SECONDS). destruct (Z.leb_spec PERIOD q), (Z.ltb_spec q PERIOD); try lia.
  destruct (_ >? m) eqn:E; bools; lia.
Qed.

Lemma zmax_nonneg l : 0 <= zmax l.
Proof. unfold zmax. induction l; cbn; lia. Qed.

Lemma zmax_app l1 l2 : zmax (l1 ++ l2) = Z.max (zmax l1) (zmax l2).
Proof. unfold zmax. induction l1 as [|x l IH]; cbn; [pose proof (zmax_nonneg l2); unfold zmax in *; lia|lia]. Qed.

(** Prices are unsigned. *)
Definition scurve_prices (c : SCurves) : Prop := forall i, 0 <= rd (scurve_peak_price c) i.

Lemma max_active_value c pair_id ts :
  scurve_prices c -> get_max_active_scurve_value c pair_id ts = zmax (active_value c pair_id (truncate_to_day ts) <$> idx_range (scurve_oldest_idx c) (scurve_count c)).
Proof.
  intros Hp. unfold get_max_active_scurve_value. enough (Hg : forall l m, 0 <= m -> foldl (scurve_max_step c pair_id (truncate_to_day ts)) m l = Z.max m (zmax (active_value c pair_id (truncate_to_day ts) <$> l))).
  { rewrite Hg by lia. pose proof (zmax_nonneg (active_value c pair_id (truncate_to_day ts) <$> idx_range (scurve_oldest_idx c) (scurve_count c))). lia. }
  induction l as [|i l IH]; intros m Hm; [cbn; lia|]. cbn [foldl fmap list_fmap]. rewrite max_step_value by (done || apply Hp). rewrite IH by lia.
  change (zmax (?x :: ?l)) with (Z.max x (zmax l)). change (list_fmap _ _ ?f l) with (f <$> l). lia.
Qed.

Lemma first_unexpired_spec n c cutoff i :
  exists k, first_unexpired n c cutoff i = i + Z.of_nat k /\ (k <= n)%nat /\ forall j, (j < k)%nat -> rd (scurve_peak_day c) (i + Z.of_nat j) < cutoff.
Proof.
  revert i. induction n as [|n IH]; intros i; [exists 0%nat; cbn; split_and!; lia|]. cbn [first_unexpired].
  destruct (rd (scurve_peak_day c) i >=? cutoff) eqn:E; bools; [exists 0%nat; rewrite Z.add_0_r; split_and!; lia|].
  destruct (IH (i + 1)) as (k & -> & Hk & Hlt). exists (S k). split_and!; [lia|lia|].
  intros [|j] Hj; [by rewrite Z.add_0_r|]. specialize (Hlt j ltac:(lia)). by replace (i + Z.of_nat (S j)) with (i + 1 + Z.of_nat j) by lia.
Qed.

(** Entries start at midnight. *)
Record scurves_ok (c : SCurves) : Prop := {
  so_range : 0 <= scurve_oldest_idx c <= scurve_count c /\ scurve_count c < 2 ^ 32;
  so_aligned i : rd (scurve_peak_day c) i mod DAY_SECONDS = 0 /\ 0 <= rd (scurve_peak_day c) i;
  so_prices : scurve_prices c
}.

(** An entry that may be evicted is no longer active, today or later. *)
Lemma expired_inactive c pair_id now ts i :
  scurves_ok c -> 0 <= now <= ts -> rd (scurve_peak_day c) i < saturating_sub now (PERIOD * DAY_SECONDS) -> active_value c pair_id (truncate_to_day ts) i = 0.
Proof.
  intros Hc Hts Hlt. destruct (so_aligned _ Hc i) as [Ha H0]. unfold active_value. cbv zeta. set (d := rd (scurve_peak_day c) i) in *.
  assert (Hq : PERIOD <= (truncate_to_day ts - d) / DAY_SECONDS).
  { unfold saturating_sub, truncate_to_day, PERIOD, DAY_SECONDS in *. pose proof (Z.div_mod d 86400 ltac:(lia)) as E. rewrite Ha in E.
    replace (ts / 86400 * 86400 - d) with ((ts / 86400 - d / 86400) * 86400) by lia. rewrite Z.div_mul by lia.
    assert (d / 86400 + 128 <= ts / 86400); [|lia]. apply Z.div_le_lower_bound; lia. }
  rewrite (proj2 (Z.ltb_ge _ _)) by done. by rewrite andb_false_r.
Qed.

Lemma evict_invisible c pair_id now ts :
  scurves_ok c -> 0 <= now <= ts -> get_max_active_scurve_value (evict_expired_scurves c now) pair_id ts = get_max_active_scurve_value c pair_id ts.
Proof.
  intros Hc Hts. unfold evict_expired_scurves. cbv zeta. set (cutoff := saturating_sub now _).
  destruct (first_unexpired_spec (Z.to_nat (scurve_count c - scurve_oldest_idx c)) c cutoff (scurve_oldest_idx c)) as (k & -> & Hk & Hlt).
  destruct (_ =? _) eqn:E; bools; [done|]. rewrite !max_active_value by apply Hc. cbn [scurve_oldest_idx scurve_count].
  pose proof (so_range _ Hc). rewrite (idx_range_app (scurve_oldest_idx c) (scurve_oldest_idx c + Z.of_nat k) (scurve_count c)) by lia. rewrite fmap_app, zmax_app.
  change (active_value {| c with scurve_oldest_idx := _ |} pair_id (truncate_to_day ts)) with (active_value c pair_id (truncate_to_day ts)).
  assert (Hz : zmax (active_value c pair_id (truncate_to_day ts) <$> idx_range (scurve_oldest_idx c) (scurve_oldest_idx c + Z.of_nat k)) = 0).
  { assert (Hall : Forall (fun i => active_value c pair_id (truncate_to_day ts) i = 0) (idx_range (scurve_oldest_idx c) (scurve_oldest_idx c + Z.of_nat k))).
    { apply Forall_forall. intros i Hi%elem_of_idx_range. eapply (expired_inactive c pair_id now); [done|done|].
      specialize (Hlt (Z.to_nat (i - scurve_oldest_idx c)) ltac:(lia)). rewrite Z2Nat.id in Hlt by lia. by replace (scurve_oldest_idx c + (i - scurve_oldest_idx c)) with i in Hlt by lia. }
    unfold zmax. induction Hall as [|i l Hi Hl IH]; [done|]. cbn. rewrite Hi. change (list_fmap _ _ ?f l) with (f <$> l). rewrite IH. done. }
  rewrite Hz. pose proof (zmax_nonneg (active_value c pair_id (truncate_to_day ts) <$> idx_range (scurve_oldest_idx c + Z.of_nat k) (scurve_count c))). lia.
Qed.

Definition entry_value (pair_id : u32) (peak_day : u64) (peak_price : U256) (pair_id' : u32) (target_day : u64) : Z :=
  if (pair_id =? pair_id') && (peak_day <=? target_day) && ((target_day - peak_day) / DAY_SECONDS <? PERIOD)
  then compute_scurve_value peak_price ((target_day - peak_day) / DAY_SECONDS) else 0.

Lemma store_value c pair_id d price pair_id' ts :
  scurves_ok c -> scurve_count c < 2 ^ 32 - 1 -> 0 <= price ->
  get_max_active_scurve_value (store_scurve_entry c pair_id d price) pair_id' ts
  = Z.max (get_max_active_scurve_value c pair_id' ts) (entry_value pair_id d price pair_id' (truncate_to_day ts)).
Proof.
  intros Hc Hn Hp. pose proof (so_range _ Hc) as [Hr _]. assert (Hp' : scurve_prices (store_scurve_entry c pair_id d price)).
  { intros i. cbn. rewrite rd_insert. case_decide; [done|apply Hc]. }
  rewrite !max_active_value by (done || apply Hc). cbn [store_scurve_entry scurve_oldest_idx scurve_count]. rewrite wadd_small by lia.
  rewrite (idx_range_app (scurve_oldest_idx c) (scurve_count c) (scurve_count c + 1)) by lia. rewrite fmap_app, zmax_app. f_equal.
  - f_equal. apply list_fmap_ext. intros j i Hi. apply list_elem_of_lookup_2, elem_of_idx_range in Hi. unfold active_value. cbn. by rewrite !rd_insert_ne by lia.
  - unfold idx_range. replace (scurve_count c + 1 - scurve_count c) with 1 by lia. rewrite seqZ_cons, seqZ_nil by lia.
    unfold active_value, entry_value. cbn. rewrite !rd_insert_eq. destruct (_ && _); [|done]. apply Z.max_l, scurve_value_nonneg, Hp.
Qed.

Lemma store_ok c pair_id d price : scurves_ok c -> scurve_count c < 2 ^ 32 - 1 -> 0 <= price -> 0 <= d -> d mod DAY_SECONDS = 0 -> scurves_ok (store_scurve_entry c pair_id d price).
Proof.
  intros [H1 H2 H3] Hn Hp Hd Hm. split; cbn.
  - rewrite wadd_small by lia. lia.
  - intros i. rewrite rd_insert. case_decide; [done|apply H2].
  - intros i. cbn. rewrite rd_insert. case_decide; [done|apply H3].
Qed.

Lemma evict_ok c now : scurves_ok c -> scurves_ok (evict_expired_scurves c now).
Proof.
  intros Hc. unfold evict_expired_scurves. cbv zeta. set (cutoff := saturating_sub _ _). destruct (first_unexpired_spec (Z.to_nat (scurve_count c - scurve_oldest_idx c)) c cutoff (scurve_oldest_idx c)) as (k & -> & Hk & _).
  destruct (_ =? _); [done|]. destruct Hc as [H1 H2 H3]. split; cbn; [lia|done|done].
Qed.

(** ** Daily closes *)

(** The newest price of a pair in [a, b). *)
Definition closing_price (S : list snapshot) (pair_id : u32) (a b : u64) : U256 :=
  default 0 (head (omap (fun s => fst <$> row_of pair_id s.2) (filter (fun s => a <= s.1 < b) (reverse S)))).

Lemma close_scan_spec h pair_id a b l :
  StronglySorted Z.ge ((fun i => rd (snapshot_timestamp h) i) <$> l) ->
  close_scan h pair_id a b l = default 0 (head (omap (fun s => fst <$> row_of pair_id s.2) (filter (fun s => a <= s.1 < b) (view h l)))).
Proof.
  induction l as [|i l IH]; intros Hs; [done|]. cbn [fmap list_fmap] in Hs. apply StronglySorted_inv in Hs as [Hs Hf]. cbn [close_scan].
  change (view h (i :: l)) with ((rd (snapshot_timestamp h) i, snapshot_rows h i) :: view h l). set (t := rd (snapshot_timestamp h) i) in *.
  destruct (t <? a) eqn:Ea; bools.
  - rewrite filter_none; [done|]. apply Forall_cons_2; [cbn; lia|]. apply Forall_fmap. change (list_fmap _ _ ?f l) with (f <$> l) in Hf. rewrite Forall_fmap in Hf.
    eapply Forall_impl; [exact Hf|]. cbn. intros j Hj. lia.
  - destruct (t >=? b) eqn:Eb; bools; [rewrite filter_cons_False by (cbn; lia); by apply IH|]. rewrite filter_cons_True by (cbn; lia).
    pose proof (find_row_spec h i pair_id) as Er. cbn [omap list_omap snd]. rewrite <- Er. destruct (find_row h i pair_id) as [p|]; cbn; [done|]. by apply IH.
Qed.

Lemma sorted_reverse (l : list Z) : StronglySorted Z.le l -> StronglySorted Z.ge (reverse l).
Proof.
  induction 1 as [|x l Hs IH Hf]; [constructor|]. rewrite reverse_cons. apply StronglySorted_app_2; [|done|repeat constructor].
  intros y z Hy ->%list_elem_of_singleton. rewrite Forall_forall in Hf. rewrite elem_of_reverse in Hy. specialize (Hf y Hy). lia.
Qed.

Lemma daily_close_spec h S pair_id day :
  history_rep h S -> 0 <= day < 2 ^ 64 - 86400 -> get_daily_close h pair_id day = closing_price S pair_id day (day + 86400).
Proof.
  intros Hh Hd. unfold get_daily_close, newest_first, closing_price. rewrite wadd_small by (unfold DAY_SECONDS; lia). rewrite close_scan_spec.
  - rewrite (history_view h S Hh) at 1. unfold view. by rewrite fmap_reverse.
  - rewrite fmap_reverse. apply sorted_reverse. pose proof (hr_sorted _ _ Hh) as Hs. rewrite (history_view h S Hh) in Hs. unfold view in Hs. by rewrite <- list_fmap_compose in Hs.
Qed.

Lemma closing_price_nonneg S pair_id a b : rows_nonneg S -> 0 <= closing_price S pair_id a b.
Proof.
  intros Hr. unfold closing_price. destruct (head _) as [x|] eqn:E; [|done]. cbn. apply list_elem_of_lookup_2 with (i := 0%nat) in E || (rewrite head_lookup in E; apply list_elem_of_lookup_2 in E).
  apply list_elem_of_omap in E as (s & Hs & Hx). apply list_elem_of_filter in Hs as [_ Hs]. rewrite elem_of_reverse in Hs.
  unfold rows_nonneg in Hr. rewrite Forall_forall in Hr. specialize (Hr s Hs). destruct (row_of pair_id s.2) as [y|] eqn:Ey; [|done]. injection Hx as <-.
  by destruct (row_of_weighted _ _ _ Hr Ey).
Qed.

(** The last three closes before day [D] show a peak in the middle. *)
Definition is_peak (S : list snapshot) (pair_id : u32) (D : u64) : bool :=
  let close k := closing_price S pair_id (D - k * 86400) (D - k * 86400 + 86400) in
  (0 <? close 1) && (0 <? close 2) && (0 <? close 3) && (close 3 <? close 2) && (close 1 <? close 2).

Definition peak_price (S : list snapshot) (pair_id : u32) (D : u64) : U256 := closing_price S pair_id (D - 2 * 86400) (D - 2 * 86400 + 86400).

(** What the daily processing does to the curves. *)
Lemma process_daily_eq o S pair_id ts :
  history_rep (oc_history o) S -> rows_nonneg S -> 3 * 86400 <= ts < 2 ^ 64 - 86400 ->
  let D := truncate_to_day ts in
  let c := if is_peak S pair_id D then store_scurve_entry (oc_scurves o) pair_id (D - 2 * 86400) (peak_price S pair_id D) else oc_scurves o in
  oc_history (process_daily_scurve o pair_id ts) = oc_history o /\
  (oc_scurves (process_daily_scurve o pair_id ts) = evict_expired_scurves c ts \/ oc_scurves (process_daily_scurve o pair_id ts) = c).
Proof.
  intros Hh Hr Hts D c. assert (HD : 3 * 86400 <= D <= ts).
  { subst D. unfold truncate_to_day, DAY_SECONDS. pose proof (Z.div_mod ts 86400 ltac:(lia)). pose proof (Z.mod_pos_bound ts 86400 ltac:(lia)). lia. }
  assert (Hc : forall k, 1 <= k <= 3 -> get_daily_close (oc_history o) pair_id (saturating_sub D (k * DAY_SECONDS)) = closing_price S pair_id (D - k * 86400) (D - k * 86400 + 86400)).
  { intros k Hk. unfold saturating_sub, DAY_SECONDS. rewrite Z.max_l by lia. apply daily_close_spec; [done|lia]. }
  unfold process_daily_scurve. cbv zeta. fold D. pose proof (Hc 1 ltac:(lia)) as C1. rewrite Z.mul_1_l in C1. rewrite C1, (Hc 2), (Hc 3) by lia. clear C1 Hc.
  replace (saturating_sub D (2 * DAY_SECONDS)) with (D - 2 * 86400) by (unfold saturating_sub, DAY_SECONDS; lia).
  subst c. unfold is_peak, peak_price. cbv zeta. set (c1 := closing_price S pair_id (D - 1 * 86400) _). set (c2 := closing_price S pair_id (D - 2 * 86400) _). set (c3 := closing_price S pair_id (D - 3 * 86400) _).
  assert (0 <= c1 /\ 0 <= c2 /\ 0 <= c3) as (N1 & N2 & N3) by (split_and!; by apply closing_price_nonneg). rewrite Z.gtb_ltb.
  destruct (Z.eqb_spec c1 0), (Z.ltb_spec 0 c1); try lia; cbn [orb andb]; [by auto|].
  destruct (Z.eqb_spec c2 0), (Z.ltb_spec 0 c2); try lia; cbn [orb andb]; [by auto|].
  destruct (Z.eqb_spec c3 0), (Z.ltb_spec 0 c3); try lia; cbn [orb andb]; [by auto|].
  destruct (c3 <? c2); cbn [andb]; [|by auto]. destruct (c1 <? c2); by auto.
Qed.

(** C13. The daily S-curve processing, at the first block of a UTC day: a pair gets a
    new curve exactly when its last three daily closes rise and then fall, and from
    then on the price floor of every pair is the larger of what it was and the value
    of the new curve. Evicting expired curves is never visible, the processing keeps
    the curves well formed, and for 126 days the floor of a pair stays at 92 per cent
    or more of the peak. *)
Theorem daily_scurve_exact (o : OracleContract) (S : list snapshot) (pair_id : u32) (ts : u64) :
  history_rep (oc_history o) S -> rows_nonneg S -> scurves_ok (oc_scurves o) -> scurve_count (oc_scurves o) < 2 ^ 32 - 1 -> 3 * 86400 <= ts < 2 ^ 63 ->
  let D := truncate_to_day ts in
  let o' := process_daily_scurve o pair_id ts in
  scurves_ok (oc_scurves o') /\ oc_history o' = oc_history o /\
  (forall pair_id' ts', ts <= ts' ->
     get_max_active_scurve_value (oc_scurves o') pair_id' ts' =
     Z.max (get_max_active_scurve_value (oc_scurves o) pair_id' ts')
           (if is_peak S pair_id D then entry_value pair_id (D - 2 * 86400) (peak_price S pair_id D) pair_id' (truncate_to_day ts') else 0)) /\
  (is_peak S pair_id D = true -> peak_price S pair_id D * SCALE_1E18 < 2 ^ 256 ->
     forall ts', ts <= ts' < D + 126 * 86400 -> peak_price S pair_id D * 92 / 100 <= get_max_active_scurve_value (oc_scurves o') pair_id ts').
Proof.
  intros Hh Hr Hc Hn Hts D o'. destruct (process_daily_eq o S pair_id ts Hh Hr ltac:(lia)) as [Ehist Ecur]. fold D o' in Ehist, Ecur.
  pose proof (Z.div_mod ts 86400 ltac:(lia)) as Em. pose proof (Z.mod_pos_bound ts 86400 ltac:(lia)) as Eb.
  assert (HD : D = ts / 86400 * 86400) by done. pose proof (closing_price_nonneg S pair_id (D - 2 * 86400) (D - 2 * 86400 + 86400) Hr) as Np. fold (peak_price S pair_id D) in Np.
  set (c := if is_peak S pair_id D then _ else _) in Ecur. assert (Hok : scurves_ok c).
  { subst c. destruct (is_peak _ _ _); [|done]. apply store_ok; [done|done|done|lia|]. rewrite HD. unfold DAY_SECONDS. replace (ts / 86400 * 86400 - 2 * 86400) with ((ts / 86400 - 2) * 86400) by lia. apply Z.mod_mul. lia. }
  assert (Hval : forall pid t, ts <= t -> get_max_active_scurve_value (oc_scurves o') pid t = get_max_active_scurve_value c pid t).
  { intros pid t Ht. destruct Ecur as [->| ->]; [|done]. apply evict_invisible; [done|lia]. }
  assert (Hmax : forall pid t, get_max_active_scurve_value c pid t = Z.max (get_max_active_scurve_value (oc_scurves o) pid t) (if is_peak S pair_id D then entry_value pair_id (D - 2 * 86400) (peak_price S pair_id D) pid (truncate_to_day t) else 0)).
  { intros pid t. subst c. destruct (is_peak _ _ _); [by apply store_value|]. rewrite max_active_value by apply Hc. pose proof (zmax_nonneg (active_value (oc_scurves o) pid (truncate_to_day t) <$> idx_range (scurve_oldest_idx (oc_scurves o)) (scurve_count (oc_scurves o)))). lia. }
  split_and!; [destruct Ecur as [->| ->]; [by apply evict_ok|done]|done|intros; by rewrite Hval, Hmax|].
  intros Hpk Hf t Ht. rewrite Hval, Hmax, Hpk by lia. unfold entry_value. rewrite Z.eqb_refl. unfold truncate_to_day, DAY_SECONDS.
  pose proof (Z.div_mod t 86400 ltac:(lia)) as Et. pose proof (Z.mod_pos_bound t 86400 ltac:(lia)) as Etb.
  assert (Eq : (t / 86400 * 86400 - (D - 2 * 86400)) / 86400 = t / 86400 - (ts / 86400 - 2)).
  { rewrite HD. replace (t / 86400 * 86400 - (ts / 86400 * 86400 - 2 * 86400)) with ((t / 86400 - (ts / 86400 - 2)) * 86400) by lia. apply Z.div_mul. lia. }
  rewrite Eq, (proj2 (Z.leb_le _ _)), (proj2 (Z.ltb_lt _ _)) by (unfold PERIOD; lia). cbn [andb].
  destruct (scurve_value_range (peak_price S pair_id D) (t / 86400 - (ts / 86400 - 2))); [unfold PERIOD; lia|done|done|]. lia.
Qed.

(** ** A sample market *)

Definition total_rows (W : list snapshot) : list (U256 * U256) := s ← W; (fun e => (e.1.2, effective_volume e.2)) <$> s.2.

Lemma rows_for_le pair_id es : Forall row_nonneg es ->
  pv_sum (rows_for pair_id es) <= pv_sum ((fun e => (e.1.2, effective_volume e.2)) <$> es) /\ vol_sum (rows_for pair_id es) <= vol_sum ((fun e => (e.1.2, effective_volume e.2)) <$> es).
Proof.
  induction 1 as [|e es [H1 H2] Hes [IH1 IH2]]; [done|]. cbn [fmap list_fmap]. rewrite pv_sum_cons, vol_sum_cons. cbn [fst snd]. pose proof (effective_volume_pos _ H2).
  change (list_fmap _ _ ?f es) with (f <$> es). unfold rows_for in *. cbn [omap list_omap]. change (list_omap _ _ ?f es) with (omap f es).
  destruct (e.1.1 =? pair_id); rewrite ?pv_sum_cons, ?vol_sum_cons; cbn [fst snd]; nia.
Qed.

Lemma sums_le_total W (P : snapshot -> Prop) `{forall s, Decision (P s)} pair_id : rows_nonneg W ->
  pv_sum (s ← filter P W; rows_for pair_id s.2) <= pv_sum (total_rows W) /\ vol_sum (s ← filter P W; rows_for pair_id s.2) <= vol_sum (total_rows W).
Proof.
  induction 1 as [|s W Hs HW [IH1 IH2]]; [done|]. unfold total_rows in *. rewrite bind_cons, pv_sum_app, vol_sum_app. destruct (rows_for_le pair_id s.2 Hs) as [R1 R2].
  destruct (weighted_sums _ (rows_for_weighted pair_id s.2 Hs)) as (N1 & N2 & _). rewrite filter_cons. case_decide; rewrite ?bind_cons, ?pv_sum_app, ?vol_sum_app; lia.
Qed.

Lemma daily_fit_total W : rows_nonneg W -> sums_fit (total_rows W) -> daily_fit W.
Proof. intros Hr [F1 F2] pid d. destruct (sums_le_total W (fun s => day_of s.1 = d) pid Hr). unfold day_rows. lia. Qed.

Definition no_history : PriceHistory := mkHistory 0 0 ∅ ∅ ∅ ∅ ∅ ∅ ∅.
Definition write_all (W : list snapshot) : PriceHistory := foldl (fun h s => write_snapshot h s.1 s.2) no_history W.

Lemma write_all_daily W : rows_nonneg W -> sums_fit (total_rows W) -> daily_rep (write_all W) W.
Proof.
  unfold write_all. induction W as [|s W IH] using rev_ind; intros Hr Hf; [intros pid d; split; done|].
  rewrite foldl_app. cbn [foldl]. destruct s as [t es]. apply write_snapshot_daily; [|done|by apply daily_fit_total].
  unfold rows_nonneg in Hr. apply Forall_app in Hr as [Hr He]. apply IH; [done|]. destruct Hf as [F1 F2]. unfold total_rows in *. rewrite bind_app in F1, F2.
  rewrite pv_sum_app in F1. rewrite vol_sum_app in F2. apply Forall_cons_1 in He as [He _]. cbn in He.
  assert (Hw : Forall weighted ((fun e : u32 * U256 * U256 => (e.1.2, effective_volume e.2)) <$> es)).
  { apply Forall_fmap. eapply Forall_impl; [exact He|]. intros e [? ?]. split; [done|]. by apply effective_volume_pos. }
  destruct (weighted_sums _ Hw) as (N1 & N2 & _). cbn [mbind list_bind snd] in F1, F2. rewrite app_nil_r in F1, F2. unfold mbind in *. split; lia.
Qed.

(** Day 20077 is 2024-12-20: a price before the day starts to form, one in its middle
    and one shortly before it ends. *)
Definition sample_prices : list snapshot :=
  [(86400 * 20076 + 3600, [(1, 5, 2)]); (86400 * 20077 + 100, [(1, 7, 2)]); (86400 * 20078 + 3600, [(1, 90, 2)])].
Definition sample_pairs : PairRegistry :=
  match register_pair (H := sample_crypto) (mkPairs 0 ∅ ∅ ∅ ∅ ∅) "COEN" "0xUSD" with Ok (p, _) => p | Err _ => mkPairs 0 ∅ ∅ ∅ ∅ ∅ end.
Definition sample_market (W : list snapshot) : OracleContract :=
  mkOracle (mkOracleConfig 2 20000000000000000 96 50000000000000000 0 86400 true true false) sample_pairs (mkRates ∅ ∅ ∅) ∅ (mkPenalty ∅ ∅ ∅ ∅)
    (mkVotes ∅ ∅ ∅ ∅ ∅ (mkVec 0 ∅)) (write_all W) (mkSCurves 0 ∅ ∅ ∅ 0 0) (mkSettlement 0 ∅ ∅ ∅ ∅ (mkVec 0 ∅)) (mkDayVwaps ∅ ∅ ∅ ∅ ∅ ∅) [].

Lemma sample_rows : rows_pos sample_prices /\ sums_fit (total_rows sample_prices).
Proof. split; [|split; reflexivity]. repeat (apply Forall_cons_2; [repeat (apply Forall_cons_2; [split; cbn; lia|]); by apply Forall_nil_2|]). by apply Forall_nil_2. Qed.

Lemma sample_history_rep : history_rep (write_all sample_prices) sample_prices.
Proof.
  unfold write_all, sample_prices. cbn [foldl fst snd].
  set (s1 := (86400 * 20076 + 3600, [(1, 5, 2)])). set (s2 := (86400 * 20077 + 100, [(1, 7, 2)])). set (s3 := (86400 * 20078 + 3600, [(1, 90, 2)])).
  pose proof (write_snapshot_rep no_history [] s1.1 s1.2 history_rep_empty ltac:(done) ltac:(done) ltac:(by apply Forall_nil_2)) as R1.
  pose proof (write_snapshot_rep _ _ s2.1 s2.2 R1 ltac:(done) ltac:(done) ltac:(apply Forall_cons_2; [done|by apply Forall_nil_2])) as R2.
  exact (write_snapshot_rep _ _ s3.1 s3.2 R2 ltac:(done) ltac:(done) ltac:(apply Forall_cons_2; [done|apply Forall_cons_2; [done|by apply Forall_nil_2]])).
Qed.

Lemma vwap_exact_witness : calculate_vwap (write_all sample_prices) 1 (86400 * 20076) (86400 * 20078) = Ok 6 /\
  calculate_vwap (write_all sample_prices) 1 (86400 * 20077) (86400 * 20077 + 100) = Ok 7.
Proof.
  destruct sample_rows as [Hp Hf]. pose proof (write_all_daily _ (rows_pos_nonneg _ Hp) Hf) as Hd. split.
  - refine (eq_trans (proj1 (vwap_exact _ _ _ 1 (86400 * 20076) (86400 * 20078) sample_history_rep (rows_pos_nonneg _ Hp) Hd Hp ltac:(lia) ltac:(lia) _)) _); [split; reflexivity|reflexivity].
  - refine (eq_trans (proj1 (vwap_exact _ _ _ 1 (86400 * 20077) (86400 * 20077 + 100) sample_history_rep (rows_pos_nonneg _ Hp) Hd Hp ltac:(lia) ltac:(lia) _)) _); [split; reflexivity|reflexivity].
Defined.

Lemma worldwide_day_vwap_window_witness : exists o', store_worldwide_day_vwap_snapshot (sample_market sample_prices) 20241220 (86400 * 20076 + 36000) (86400 * 20078 + 43200) = Ok o' /\
  get_worldwide_day_vwap_for_pair_id (oc_days o') 20241220 1 = Some 6.
Proof.
  destruct sample_rows as [Hp Hf]. pose proof (write_all_daily _ (rows_pos_nonneg _ Hp) Hf) as Hd.
  destruct (store_worldwide_day_vwap_snapshot (sample_market sample_prices) 20241220 (86400 * 20076 + 36000) (86400 * 20078 + 43200)) as [o'|e] eqn:E; [|vm_compute in E; discriminate E].
  exists o'. split; [done|].
  destruct (worldwide_day_vwap_window (sample_market sample_prices) o' sample_prices 20241220 20077 Hd Hp ltac:(reflexivity) ltac:(reflexivity) ltac:(lia)) as (_ & _ & Hg & _).
  - intros pid. destruct (sums_le_total sample_prices (fun s => 86400 * (20077 - 1) <= s.1 < 86400 * (20077 + 1)) pid (rows_pos_nonneg _ Hp)). destruct Hf. split; unfold range_rows; lia.
  - exact E.
  - rewrite Hg. reflexivity.
Defined.

Lemma vwap_window_loop_witness : (exists sums, loopP DAY_FUEL (aggregate_step no_history 1 172800) (day_of 0, 0, 0) = inr sums) /\
  (forall fuel, exists st, loopP fuel (aggregate_step no_history 1 MAX_U64) (day_of 0, 0, 0) = inl st).
Proof.
  split.
  - apply (vwap_window_loop no_history 1 0 172800); lia.
  - apply (vwap_window_loop no_history 1 0 MAX_U64); vm_compute; try split; discriminate.
Defined.

Lemma daily_scurve_exact_witness : exists o', o' = process_daily_scurve (sample_market [(86400 * 20074 + 5, [(1, 100, 0)]); (86400 * 20075 + 5, [(1, 120, 0)]); (86400 * 20076 + 5, [(1, 110, 0)])]) 1 (86400 * 20077) /\
  110 <= get_max_active_scurve_value (oc_scurves o') 1 (86400 * 20200).
Proof.
  eexists. split; [reflexivity|]. set (s1 := (86400 * 20074 + 5, [(1, 100, 0)])). set (s2 := (86400 * 20075 + 5, [(1, 120, 0)])). set (s3 := (86400 * 20076 + 5, [(1, 110, 0)])).
  assert (R : history_rep (write_all [s1; s2; s3]) [s1; s2; s3]).
  { pose proof (write_snapshot_rep no_history [] s1.1 s1.2 history_rep_empty ltac:(done) ltac:(done) ltac:(by apply Forall_nil_2)) as R1.
    pose proof (write_snapshot_rep _ _ s2.1 s2.2 R1 ltac:(done) ltac:(done) ltac:(apply Forall_cons_2; [done|by apply Forall_nil_2])) as R2.
    exact (write_snapshot_rep _ _ s3.1 s3.2 R2 ltac:(done) ltac:(done) ltac:(apply Forall_cons_2; [done|apply Forall_cons_2; [done|by apply Forall_nil_2]])). }
  destruct (daily_scurve_exact (sample_market [s1; s2; s3]) [s1; s2; s3] 1 (86400 * 20077) R) as (_ & _ & _ & Hk).
  - repeat (apply Forall_cons_2; [repeat (apply Forall_cons_2; [split; cbn; lia|]); by apply Forall_nil_2|]). by apply Forall_nil_2.
  - split; [split; done|intros i; cbn; by rewrite rd_empty|intros i; cbn; by rewrite rd_empty].
  - done.
  - lia.
  - apply (Hk ltac:(reflexivity) ltac:(reflexivity) (86400 * 20200)). vm_compute. split; [discriminate|reflexivity].
Defined.
