(* ===== verification/OracleTally.v ===== *)
(** * OracleTally: the tally of a vote period

    [crates/system/oracle/src/tally.rs] and [hooks.rs]: the weighted median of a
    ballot, its standard deviation and reward band, the cross rates against a
    reference pair, the tally at the end of a vote period with the counters it
    keeps, and the per-block hook. An arithmetic panic is the error [PANIC]. *)

From S2P Require Import Prelude Native Storage ValidatorSet Staking Oracle OraclePrices.

Definition PANIC : PrecompileError := Fatal "panic".

Record VoteForTally := mkVote {
  vt_rate : U256;
  vt_volume : U256;
  vt_voter : Address;
  vt_power : u64
}.

Record Claim := mkClaimCount { win_count : u32; did_vote : bool }.
Definition default_claim : Claim := mkClaimCount 0 false.

(** ** Integer square root *)

(** The loop of [isqrt]; [None] is the division by zero. *)
Fixpoint isqrt_loop (fuel : nat) (n x y : U256) : option U256 :=
  match fuel with
  | O => None
  | S fuel =>
      if y <? x then
        if y =? 0 then None else isqrt_loop fuel n y (Z.shiftr (wadd 256 y (n / y)) 1)
      else Some x
  end.

(** The distance to the root halves in every round. *)
Definition ISQRT_FUEL : nat := 257.

Definition isqrt (n : U256) : option U256 :=
  if n =? 0 then Some 0 else
  if n =? 1 then Some 1 else
  isqrt_loop ISQRT_FUEL n n (Z.shiftr (wadd 256 n 1) 1).

(** ** Median and deviation *)

Definition total_power (ballot : list VoteForTally) : u64 := foldl (wadd 64) 0 (vt_power <$> ballot).

Fixpoint median_scan (half cumulative : u64) (ballot : list VoteForTally) : option U256 :=
  match ballot with
  | [] => None
  | vote :: ballot =>
      let cumulative := wadd 64 cumulative (vt_power vote) in
      if cumulative >=? half then Some (vt_rate vote) else median_scan half cumulative ballot
  end.

Definition weighted_median (ballot : list VoteForTally) : U256 :=
  let total := total_power ballot in
  if total =? 0 then 0 else
  match median_scan (total / 2) 0 ballot with
  | Some rate => rate
  | None => default 0 (vt_rate <$> last ballot)
  end.

Definition deviation (rate median : U256) : U256 := if rate >? median then rate - median else median - rate.

Fixpoint sum_squares (median sum_sq : U256) (ballot : list VoteForTally) : option U256 :=
  match ballot with
  | [] => Some sum_sq
  | vote :: ballot =>
      let d := deviation (vt_rate vote) median in
      match checked_mul 256 d d with
      | None => None
      | Some sq => match checked_add 256 sum_sq sq with None => None | Some sum_sq => sum_squares median sum_sq ballot end
      end
  end.

(** The outer [option] is the panic of [isqrt]; an overflow gives zero. *)
Definition standard_deviation (ballot : list VoteForTally) (median : U256) : option U256 :=
  match ballot with
  | [] => Some 0
  | _ =>
      match sum_squares median 0 ballot with
      | None => Some 0
      | Some sum_sq => isqrt (sum_sq / len ballot)
      end
  end.

(** ** One pair *)

(** [sort_by_key] on the rate, a stable sort. *)
Fixpoint insert_by_rate (v : VoteForTally) (l : list VoteForTally) : list VoteForTally :=
  match l with
  | [] => [v]
  | w :: l => if vt_rate v <=? vt_rate w then v :: w :: l else w :: insert_by_rate v l
  end.
Definition sort_by_rate (l : list VoteForTally) : list VoteForTally := foldr insert_by_rate [] l.

(** The first claim of a voter. *)
Fixpoint update_claim (voter : Address) (f : Claim -> Claim) (claims : list (Address * Claim)) : list (Address * Claim) :=
  match claims with
  | [] => []
  | (a, c) :: claims => if a =? voter then (a, f c) :: claims else (a, c) :: update_claim voter f claims
  end.

Definition add_win (c : Claim) : Claim := mkClaimCount (wadd 32 (win_count c) 1) (did_vote c).
Definition mark_voted (c : Claim) : Claim := mkClaimCount (win_count c) true.

Definition mark_vote (lower upper : U256) (claims : list (Address * Claim)) (vote : VoteForTally) : list (Address * Claim) :=
  let claims := if (vt_rate vote >=? lower) && (vt_rate vote <=? upper) then update_claim (vt_voter vote) add_win claims else claims in
  update_claim (vt_voter vote) mark_voted claims.

(** The band of winning rates around the median. *)
Definition reward_bounds (median std_dev reward_band : U256) : U256 * U256 :=
  let base_spread := default MAX_U256 (checked_mul 256 median reward_band) / wmul 256 2 SCALE_1E18 in
  let reward_spread := if std_dev >? base_spread then std_dev else base_spread in
  (saturating_sub median reward_spread, saturating_add 256 median reward_spread).

(** The sorted ballot, the claims and the median. *)
Definition tally_pair (ballot : list VoteForTally) (reward_band : U256) (claims : list (Address * Claim)) :
    option (list VoteForTally * list (Address * Claim) * U256) :=
  match ballot with
  | [] => Some ([], claims, 0)
  | _ =>
      let ballot := sort_by_rate ballot in
      let median := weighted_median ballot in
      match standard_deviation ballot median with
      | None => None
      | Some std_dev =>
          let '(lower, upper) := reward_bounds median std_dev reward_band in
          Some (ballot, foldl (mark_vote lower upper) claims ballot, median)
      end
  end.

Definition to_cross_rate (ballot : list VoteForTally) (reference_votes : list (Address * U256)) : list VoteForTally :=
  (fun vote =>
     match snd <$> List.find (fun '(addr, _) => addr =? vt_voter vote) reference_votes with
     | Some r =>
         if negb (r =? 0) && negb (vt_rate vote =? 0)
         then mkVote (default 0 (checked_mul 256 r SCALE_1E18) / vt_rate vote) (vt_volume vote) (vt_voter vote) (vt_power vote)
         else mkVote 0 0 (vt_voter vote) 0
     | None => mkVote 0 0 (vt_voter vote) 0
     end) <$> ballot.

(** ** The tally of a period *)

Record Ballot := mkBallot { b_pair : u32; b_hash : B256; b_votes : list VoteForTally }.

(** [v.stake / 1e18] in 64 bits, zero for a voter outside the active set. *)
Definition power_of (validators : list ValidatorRecord) (voter : Address) : u64 :=
  match List.find (fun v => validator_address v =? voter) validators with
  | Some v => clamp 64 (ValidatorSet.stake v / SCALE_1E18)
  | None => 0
  end.

(** Push a vote to the ballot of its pair. *)
Fixpoint push_vote (ballots : list Ballot) (pair_id : u32) (vote : VoteForTally) : list Ballot :=
  match ballots with
  | [] => []
  | b :: ballots =>
      if b_pair b =? pair_id then mkBallot (b_pair b) (b_hash b) (b_votes b ++ [vote]) :: ballots
      else b :: push_vote ballots pair_id vote
  end.

Definition collect_ballots (validators : list ValidatorRecord) (v : Votes) (ballots : list Ballot) : list Ballot :=
  foldl (fun ballots voter =>
    let power := power_of validators voter in
    foldl (fun ballots '(pair_id, rate, volume) => push_vote ballots pair_id (mkVote rate volume voter power)) ballots (vote_rows v voter))
  ballots (voters v).

(** [max_by_key] over [enumerate]: the last of the ballots with the highest power. *)
Fixpoint last_max (i best_i best : Z) (keys : list Z) : Z :=
  match keys with
  | [] => best_i
  | k :: keys => if k >=? best then last_max (i + 1) i k keys else last_max (i + 1) best_i best keys
  end.
Definition reference_index (ballots : list Ballot) : nat :=
  match (fun b => total_power (b_votes b)) <$> ballots with
  | [] => 0
  | k :: keys => Z.to_nat (last_max 1 0 k keys)
  end.

Definition total_volume (votes : list VoteForTally) : U256 := foldl (saturating_add 256) 0 (vt_volume <$> votes).

Record TallyState := mkTally { ts_rates : ExchangeRates; ts_events : list OracleEvent; ts_claims : list (Address * Claim); ts_entries : list (u32 * U256 * U256) }.

(** Publish a rate and its row of the snapshot. *)
Definition publish (block_number timestamp : u64) (st : TallyState) (b : Ballot) (rate : U256) : TallyState :=
  mkTally (update_exchange_rate (ts_rates st) (b_hash b) rate block_number timestamp)
          (ts_events st ++ [ExchangeRateUpdated (b_pair b) rate block_number])
          (ts_claims st) (ts_entries st ++ [(b_pair b, rate, total_volume (b_votes b))]).

Definition set_claims (st : TallyState) (claims : list (Address * Claim)) : TallyState := mkTally (ts_rates st) (ts_events st) claims (ts_entries st).

Definition actual_rate (ref_median cross_median : U256) : U256 := default 0 (checked_mul 256 ref_median SCALE_1E18) / cross_median.

Definition tally_cross (reward_band : U256) (block_number timestamp : u64) (ref_median : U256) (reference_votes : list (Address * U256)) (st : TallyState) (b : Ballot) :
    res TallyState :=
  match b_votes b with
  | [] => Ok st
  | votes =>
      let? (_, claims, cross_median) := ok_or (tally_pair (to_cross_rate votes reference_votes) reward_band (ts_claims st)) PANIC in
      let st := set_claims st claims in
      if negb (cross_median =? 0) && negb (ref_median =? 0) then
        let rate := actual_rate ref_median cross_median in
        if rate =? 0 then Ok st else Ok (publish block_number timestamp st b rate)
      else Ok st
  end.

(** All the ballots, the reference pair first. *)
Definition tally_ballots (reward_band : U256) (block_number timestamp : u64) (ballots : list Ballot) (st : TallyState) : res TallyState :=
  let ref_idx := reference_index ballots in
  let ref := default (mkBallot 0 0 []) (ballots !! ref_idx) in
  let? (votes, claims, ref_median) := ok_or (tally_pair (b_votes ref) reward_band (ts_claims st)) PANIC in
  let st := set_claims st claims in
  let ref := mkBallot (b_pair ref) (b_hash ref) votes in
  let reference_votes := (fun v => (vt_voter v, vt_rate v)) <$> votes in
  let st := if ref_median =? 0 then st else publish block_number timestamp st ref ref_median in
  foldM (tally_cross reward_band block_number timestamp ref_median reference_votes) st (take ref_idx ballots ++ drop (S ref_idx) ballots).

Definition count_claim (total_targets : u32) (p : PenaltyCounters) (c : Address * Claim) : PenaltyCounters :=
  if win_count c.2 =? total_targets then increment_success p c.1 else
  if negb (did_vote c.2) then increment_abstain p c.1 else increment_miss p c.1.

Section Tally.
Context `{Crypto}.

Definition run_tally (vs : ValidatorSet) (o : OracleContract) (block_number timestamp : u64) : res OracleContract :=
  if negb (config_enabled (oc_config o)) then Ok o else
  let reward_band := config_reward_band (oc_config o) in
  let all_validators := get_active_validators vs in
  match all_validators with
  | [] => Ok (set_votes o (clear_votes (oc_votes o)))
  | _ =>
      let claims := (fun v => (validator_address v, default_claim)) <$> all_validators in
      if vlen (voter_list (oc_votes o)) =? 0 then
        let o := set_penalty o (foldl (fun p v => increment_abstain p (validator_address v)) (oc_penalty o) all_validators) in
        Ok (set_votes o (clear_votes (oc_votes o)))
      else
        let active_pairs := get_vote_targets (oc_pairs o) in
        let total_targets := len active_pairs mod 2 ^ 32 in
        if total_targets =? 0 then Ok (set_votes o (clear_votes (oc_votes o))) else
        let ballots := collect_ballots all_validators (oc_votes o) ((fun pid => mkBallot pid (rd (pair_id_to_hash (oc_pairs o)) pid) []) <$> active_pairs) in
        let? st := tally_ballots reward_band block_number timestamp ballots (mkTally (oc_rates o) (oc_events o) claims []) in
        let entries := ts_entries st in
        let history := match entries with [] => oc_history o | _ => write_snapshot (oc_history o) timestamp entries end in
        let penalty := foldl (count_claim total_targets) (oc_penalty o) (ts_claims st) in
        Ok {| o with oc_rates := ts_rates st; oc_history := history; oc_penalty := penalty;
              oc_events := ts_events st ++ [TallyCompleted block_number (len entries mod 2 ^ 32)];
              oc_votes := clear_votes (oc_votes o) |}
  end.

(** ** [hooks.rs] *)

Variable env : BlockEnv.

(** [x.is_multiple_of(y)] for [y > 0] *)
Definition at_boundary (block_number period : u64) : bool := (period >? 0) && (block_number >? 0) && (block_number mod period =? 0).

Definition set_last_processed (o : OracleContract) (day : u64) : OracleContract :=
  let c := oc_scurves o in set_scurves o {| c with scurve_last_processed_day := day |}.

Definition run_begin_block (vs : ValidatorSet) (o : OracleContract) : res OracleContract :=
  let c := oc_config o in
  if negb (oracle_is_initialized c) then Ok o else
  let? o := (if at_boundary (block_number env) (config_vote_period c) then run_tally vs o (block_number env) (timestamp env) else Ok o) in
  let current_day := truncate_to_day (timestamp env) in
  if (current_day >? scurve_last_processed_day (oc_scurves o)) && (timestamp env >? 0) then
    let o := foldl (fun o pid => if is_target_id (oc_pairs o) pid then process_daily_scurve o pid (timestamp env) else o) o (pair_ids (oc_pairs o)) in
    Ok (set_last_processed o current_day)
  else Ok o.
End Tally.

(** ** The square root *)

Definition newton (n x : Z) : Z := (x + n / x) / 2.

(** A Newton step from above the root stays above it and halves the distance. *)
Lemma newton_above n x : 0 < n -> Z.sqrt n <= x -> 0 < x -> Z.sqrt n <= newton n x /\ n / x <= Z.sqrt n + 2.
Proof.
  intros Hn Hx H0. destruct (Z.sqrt_spec n ltac:(lia)) as [S1 S2]. unfold newton. set (s := Z.sqrt n) in *.
  pose proof (Z.div_mod n x ltac:(lia)). pose proof (Z.mod_pos_bound n x ltac:(lia)). set (q := n / x) in *. split.
  - apply Z.div_le_lower_bound; [lia|]. assert (2 * s - x < q + 1); [|lia]. apply (Zmult_lt_reg_r _ _ x); [lia|]. nia.
  - assert (q < s + 3); [|lia]. apply (Zmult_lt_reg_r _ _ x); [lia|]. nia.
Qed.

Lemma newton_halves n x : 0 < n -> Z.sqrt n < x -> newton n x - Z.sqrt n <= (x - Z.sqrt n) / 2.
Proof.
  intros Hn Hx. destruct (Z.sqrt_spec n ltac:(lia)) as [S1 S2]. pose proof (Z.sqrt_nonneg n). unfold newton. set (s := Z.sqrt n) in *.
  pose proof (Z.div_mod n x ltac:(lia)). pose proof (Z.mod_pos_bound n x ltac:(lia)). set (q := n / x) in *.
  assert (q <= s). { assert (q < s + 1); [|lia]. apply (Zmult_lt_reg_r _ _ x); [lia|]. nia. }
  assert ((x + q) / 2 <= (x - s + s * 2) / 2) by (apply Z.div_le_mono; lia). rewrite Z.div_add in * by lia. lia.
Qed.

Lemma isqrt_loop_spec fuel n x :
  1 < n < 2 ^ 256 - 1 -> Z.sqrt n <= x <= n -> x - Z.sqrt n < 2 ^ Z.of_nat fuel -> isqrt_loop (S fuel) n x (newton n x) = Some (Z.sqrt n).
Proof.
  intros Hn. pose proof (Z.sqrt_pos n) as Hp. assert (Hs : 0 < Z.sqrt n) by lia. assert (Hs2 : Z.sqrt n < 2 ^ 128). { apply Z.sqrt_lt_square; [lia|lia|]. change (2 ^ 128 * 2 ^ 128) with (2 ^ 256). lia. }
  revert x. induction fuel as [|fuel IH]; intros x Hx Hf; destruct (newton_above n x ltac:(lia) ltac:(lia) ltac:(lia)) as [Ha Hq].
  { change (2 ^ Z.of_nat 0) with 1 in Hf. assert (x = Z.sqrt n) as -> by lia. cbn [isqrt_loop]. by rewrite (proj2 (Z.ltb_ge _ _)) by lia. }
  rewrite Nat2Z.inj_succ, Z.pow_succ_r in Hf by lia.
  change (isqrt_loop (S (S fuel)) n x ?y) with (if y <? x then if y =? 0 then None else isqrt_loop (S fuel) n y (Z.shiftr (wadd 256 y (n / y)) 1) else Some x).
  destruct (Z.eq_dec x (Z.sqrt n)) as [->|Hne]; [by rewrite (proj2 (Z.ltb_ge _ _)) by lia|].
  pose proof (newton_halves n x ltac:(lia) ltac:(lia)) as Hh. pose proof (Z.div_mod (x - Z.sqrt n) 2 ltac:(lia)). pose proof (Z.mod_pos_bound (x - Z.sqrt n) 2 ltac:(lia)).
  rewrite (proj2 (Z.ltb_lt _ _)), (proj2 (Z.eqb_neq _ _)) by lia. destruct (newton_above n (newton n x) ltac:(lia) ltac:(lia) ltac:(lia)) as [_ Hq'].
  rewrite Z.shiftr_div_pow2, wadd_small by (pose proof (Z.div_pos n (newton n x) ltac:(lia) ltac:(lia)); lia). apply (IH (newton n x)); lia.
Qed.

Lemma isqrt_loop_zero fuel n x : 0 < x -> isqrt_loop (S fuel) n x 0 = None.
Proof. intros. cbn [isqrt_loop]. by rewrite (proj2 (Z.ltb_lt _ _)). Qed.

(** [isqrt] is the floor of the root, except at the largest word, where it divides by
    zero. *)
Lemma isqrt_spec n : 0 <= n < 2 ^ 256 -> isqrt n = if n =? MAX_U256 then None else Some (Z.sqrt n).
Proof.
  intros Hn. unfold isqrt, MAX_U256. destruct (Z.eqb_spec n 0) as [->|H0]; [done|]. destruct (Z.eqb_spec n 1) as [->|H1]; [done|].
  destruct (Z.eqb_spec n (2 ^ 256 - 1)) as [->|H2].
  { change (Z.shiftr (wadd 256 (2 ^ 256 - 1) 1) 1) with 0. by apply (isqrt_loop_zero 256). }
  rewrite Z.shiftr_div_pow2, wadd_small by lia. change (2 ^ 1) with 2. replace ((n + 1) / 2) with (newton n n) by (unfold newton; by rewrite Z.div_same by lia).
  pose proof (Z.sqrt_pos n). apply (isqrt_loop_spec 256); [lia| |change (2 ^ Z.of_nat 256) with (2 ^ 256); lia].
  split; [|lia]. destruct (Z.sqrt_spec n ltac:(lia)). nia.
Qed.

(** ** The deviation never panics *)

(** Rates are unsigned and powers add up in 64 bits. *)
Record ballot_ok (ballot : list VoteForTally) : Prop := {
  bo_rates : Forall (fun v => 0 <= vt_rate v) ballot;
  bo_powers : Forall (fun v => 0 <= vt_power v) ballot;
  bo_total : lsum (vt_power <$> ballot) < 2 ^ 64
}.

Lemma sum_squares_bounds median ballot acc v : 0 <= acc < 2 ^ 256 -> sum_squares median acc ballot = Some v -> acc <= v < 2 ^ 256.
Proof.
  revert acc. induction ballot as [|w ballot IH]; intros acc Ha; cbn [sum_squares]; [intros [= <-]; lia|].
  destruct (checked_mul 256 _ _) as [sq|] eqn:E1; [|done]. destruct (checked_add 256 acc sq) as [a|] eqn:E2; [|done].
  apply checked_mul_Some in E1 as [-> H1]. apply checked_add_Some in E2 as [-> H2]. intros E.
  set (d := deviation _ _) in *. pose proof (Z.square_nonneg d). specialize (IH (acc + d * d) ltac:(lia) E). lia.
Qed.

Lemma square_not_max d : d * d <> MAX_U256.
Proof.
  unfold MAX_U256. intros E. assert (Hm : (d * d) mod 4 = 3) by (rewrite E; reflexivity).
  rewrite Z.mul_mod in Hm by lia. pose proof (Z.mod_pos_bound d 4 ltac:(lia)) as Hr. set (r := d mod 4) in *.
  assert (r = 0 \/ r = 1 \/ r = 2 \/ r = 3) as [-> |[-> |[-> | ->]]] by lia; discriminate Hm.
Qed.

Lemma standard_deviation_total ballot median : exists s, standard_deviation ballot median = Some s /\ 0 <= s.
Proof.
  unfold standard_deviation. destruct ballot as [|w ballot]; [by exists 0|].
  destruct (sum_squares median 0 (w :: ballot)) as [v|] eqn:E; [|by exists 0].
  pose proof (sum_squares_bounds median _ 0 v ltac:(lia) E) as Hv. assert (Hl : 1 <= len (w :: ballot)) by (unfold len; cbn; lia).
  assert (Hq : 0 <= v / len (w :: ballot) < 2 ^ 256). { split; [apply Z.div_pos; lia|]. apply Z.div_lt_upper_bound; nia. }
  rewrite isqrt_spec by done. destruct (Z.eqb_spec (v / len (w :: ballot)) MAX_U256) as [Emax|]; [exfalso|eexists; split; [done|apply Z.sqrt_nonneg]].
  destruct ballot as [|w2 ballot].
  - change (len [w]) with 1 in Emax. rewrite Z.div_1_r in Emax. cbn [sum_squares] in E. destruct (checked_mul 256 _ _) as [sq|] eqn:E1; [|done].
    apply checked_mul_Some in E1 as [-> _]. destruct (checked_add 256 0 _) as [a|] eqn:E2; [|done]. apply checked_add_Some in E2 as [-> _]. injection E as <-.
    rewrite Z.add_0_l in Emax. by apply square_not_max in Emax.
  - assert (v / len (w :: w2 :: ballot) <= v / 2) by (apply Z.div_le_compat_l; [lia|unfold len; cbn; lia]). assert (v / 2 < MAX_U256) by (apply Z.div_lt_upper_bound; unfold MAX_U256; lia). lia.
Qed.

(** ** Sorting *)

Definition rate_le (v w : VoteForTally) : Prop := vt_rate v <= vt_rate w.

Lemma insert_by_rate_perm v l : insert_by_rate v l ≡ₚ v :: l.
Proof. induction l as [|w l IH]; [done|]. cbn [insert_by_rate]. destruct (_ <=? _); [done|]. rewrite IH. apply Permutation_swap. Qed.

Lemma sort_by_rate_perm l : sort_by_rate l ≡ₚ l.
Proof. unfold sort_by_rate. induction l as [|v l IH]; [done|]. cbn [foldr]. by rewrite insert_by_rate_perm, IH. Qed.

Lemma insert_by_rate_sorted v l : StronglySorted rate_le l -> StronglySorted rate_le (insert_by_rate v l).
Proof.
  induction 1 as [|w l Hs IH Hf]; [repeat constructor|]. cbn [insert_by_rate]. destruct (vt_rate v <=? vt_rate w) eqn:E; bools.
  - constructor; [by constructor|]. constructor; [done|]. eapply Forall_impl; [exact Hf|]. unfold rate_le. intros; lia.
  - constructor; [done|]. rewrite insert_by_rate_perm. constructor; [unfold rate_le; lia|done].
Qed.

Lemma sort_by_rate_sorted l : StronglySorted rate_le (sort_by_rate l).
Proof. unfold sort_by_rate. induction l as [|v l IH]; [constructor|]. by apply insert_by_rate_sorted. Qed.

Lemma ballot_ok_perm l l' : l ≡ₚ l' -> ballot_ok l -> ballot_ok l'.
Proof. intros Hp [H1 H2 H3]. split; [by rewrite <- Hp|by rewrite <- Hp|]. by rewrite <- (lsum_perm (vt_power <$> l) (vt_power <$> l')) by (by rewrite Hp). Qed.

(** ** The weighted median *)

Definition power_where (P : VoteForTally -> bool) (ballot : list VoteForTally) : Z := lsum (vt_power <$> filter (fun v => P v = true) ballot).

Lemma power_where_app P l1 l2 : power_where P (l1 ++ l2) = power_where P l1 + power_where P l2.
Proof. unfold power_where. by rewrite filter_app, fmap_app, lsum_app. Qed.

Lemma power_where_cons P v l : power_where P (v :: l) = (if P v then vt_power v else 0) + power_where P l.
Proof. unfold power_where. rewrite filter_cons. destruct (P v); [by rewrite decide_True|by rewrite decide_False by discriminate]. Qed.

Lemma power_where_perm P l l' : l ≡ₚ l' -> power_where P l = power_where P l'.
Proof. intros Hp. unfold power_where. apply lsum_perm. by rewrite Hp. Qed.

Lemma power_where_le P Q l : Forall (fun v => 0 <= vt_power v) l -> (forall v, v ∈ l -> P v = true -> Q v = true) -> 0 <= power_where P l <= power_where Q l.
Proof.
  induction 1 as [|v l Hv Hl IH]; intros Hi; [done|]. rewrite !power_where_cons. specialize (IH ltac:(intros w Hw; apply Hi; by right)).
  specialize (Hi v ltac:(left)). destruct (P v), (Q v); lia.
Qed.

Lemma power_where_all l : power_where (fun _ => true) l = lsum (vt_power <$> l).
Proof. unfold power_where. by rewrite filter_all by (by apply Forall_true). Qed.

Lemma power_where_none P l : (forall v, v ∈ l -> P v = false) -> power_where P l = 0.
Proof. intros Hn. unfold power_where. rewrite filter_none; [done|]. apply Forall_forall. intros v Hv. by rewrite Hn. Qed.

(** Where the scan stops. *)
Lemma median_scan_spec half c ballot :
  Forall (fun v => 0 <= vt_power v) ballot -> 0 <= c -> c + lsum (vt_power <$> ballot) < 2 ^ 64 -> half <= c + lsum (vt_power <$> ballot) -> c < half ->
  exists l1 v l2, ballot = l1 ++ v :: l2 /\ median_scan half c ballot = Some (vt_rate v) /\
    c + lsum (vt_power <$> l1) < half <= c + lsum (vt_power <$> l1) + vt_power v.
Proof.
  revert c. induction ballot as [|v ballot IH]; intros c Hp Hc Hf Hh Hlt; [cbn in *; lia|]. apply Forall_cons_1 in Hp as [Hv Hp].
  cbn [fmap list_fmap] in *. change (list_fmap _ _ vt_power ballot) with (vt_power <$> ballot) in *. change (lsum (vt_power v :: ?l)) with (vt_power v + lsum l) in *.
  assert (0 <= lsum (vt_power <$> ballot)) by (apply lsum_nonneg; by apply Forall_fmap). cbn [median_scan]. rewrite wadd_small by lia.
  destruct (c + vt_power v >=? half) eqn:E; bools.
  - exists [], v, ballot. split_and!; [done|done|cbn; lia|cbn; lia].
  - destruct (IH (c + vt_power v)) as (l1 & w & l2 & -> & Es & Hb); [done|lia|lia|lia|lia|]. exists (v :: l1), w, l2. split_and!; [done|done|..];
      cbn [fmap list_fmap]; change (list_fmap _ _ vt_power l1) with (vt_power <$> l1); change (lsum (vt_power v :: ?l)) with (vt_power v + lsum l); lia.
Qed.

Lemma total_power_sum ballot : ballot_ok ballot -> total_power ballot = lsum (vt_power <$> ballot).
Proof. intros Hb. unfold total_power. rewrite foldl_wadd; [done|done| |apply Hb]. apply Forall_fmap. apply Hb. Qed.

Lemma median_split ballot :
  ballot_ok ballot -> 2 <= lsum (vt_power <$> ballot) ->
  let m := weighted_median (sort_by_rate ballot) in
  (exists v, v ∈ ballot /\ vt_rate v = m /\ 0 < vt_power v) /\
  2 * power_where (fun v => vt_rate v <? m) ballot < lsum (vt_power <$> ballot) /\
  2 * power_where (fun v => m <? vt_rate v) ballot <= lsum (vt_power <$> ballot) + 1.
Proof.
  intros Hb HT. cbv zeta. pose proof (sort_by_rate_perm ballot) as Hp. pose proof (sort_by_rate_sorted ballot) as Hs.
  rewrite <- !(power_where_perm _ _ _ Hp). rewrite <- (lsum_perm (vt_power <$> sort_by_rate ballot) (vt_power <$> ballot)) in * by (by rewrite Hp).
  apply (ballot_ok_perm _ _ (symmetry Hp)) in Hb.
  set (l := sort_by_rate ballot) in *. set (T := lsum (vt_power <$> l)) in *. pose proof (Z.div_mod T 2 ltac:(lia)). pose proof (Z.mod_pos_bound T 2 ltac:(lia)).
  unfold weighted_median. rewrite (total_power_sum l Hb). fold T. rewrite (proj2 (Z.eqb_neq T 0)) by lia.
  destruct (median_scan_spec (T / 2) 0 l) as (l1 & v & l2 & El & -> & H1 & H2); [apply Hb|lia|apply Hb|fold T; lia|lia|]. rewrite Z.add_0_l in *.
  rewrite El in Hs. apply StronglySorted_app in Hs as (Hc & _ & Hs2). apply StronglySorted_inv in Hs2 as [_ Hf].
  assert (Hpw : Forall (fun v => 0 <= vt_power v) (l1 ++ v :: l2)) by (rewrite <- El; apply Hb). apply Forall_app in Hpw as [Hp1 Hp2]. apply Forall_cons_1 in Hp2 as [Hpv Hp2].
  assert (ET : T = lsum (vt_power <$> l1) + (vt_power v + lsum (vt_power <$> l2))) by (subst T; by rewrite El, fmap_app, lsum_app).
  split; [exists v; split; [rewrite <- Hp; fold l; rewrite El; apply elem_of_app; right; by left|split; [done|lia]]|]. rewrite El, !power_where_app, !power_where_cons, Z.ltb_irrefl.
  rewrite (power_where_none (fun w => vt_rate w <? vt_rate v) l2), (power_where_none (fun w => vt_rate v <? vt_rate w) l1).
  - pose proof (power_where_le (fun w => vt_rate w <? vt_rate v) (fun _ => true) l1 Hp1 ltac:(done)). pose proof (power_where_le (fun w => vt_rate v <? vt_rate w) (fun _ => true) l2 Hp2 ltac:(done)).
    rewrite power_where_all in *. lia.
  - intros w Hw. apply Z.ltb_ge. apply (Hc w v Hw). by left.
  - intros w Hw. apply Z.ltb_ge. rewrite Forall_forall in Hf. by apply Hf.
Qed.

(** With less than two units of power the threshold is zero: the lowest vote decides,
    whatever its power, and without power there is no rate. *)
Lemma median_degenerate ballot :
  ballot_ok ballot -> lsum (vt_power <$> ballot) < 2 ->
  let m := weighted_median (sort_by_rate ballot) in
  if lsum (vt_power <$> ballot) =? 0 then m = 0
  else (exists v, v ∈ ballot /\ vt_rate v = m) /\ forall v, v ∈ ballot -> m <= vt_rate v.
Proof.
  intros Hb HT. cbv zeta. pose proof (sort_by_rate_perm ballot) as Hp. pose proof (sort_by_rate_sorted ballot) as Hs.
  pose proof (lsum_perm (vt_power <$> sort_by_rate ballot) (vt_power <$> ballot) ltac:(by rewrite Hp)) as Et. pose proof (ballot_ok_perm _ _ (symmetry Hp) Hb) as Hb'.
  assert (H0 : 0 <= lsum (vt_power <$> ballot)) by (apply lsum_nonneg, Forall_fmap, Hb).
  unfold weighted_median. rewrite (total_power_sum _ Hb'), Et. destruct (_ =? 0) eqn:E; bools; [done|]. replace (lsum (vt_power <$> ballot)) with 1 in * by lia.
  destruct (sort_by_rate ballot) as [|v l] eqn:Es; [discriminate Et|]. change (1 / 2) with 0. cbn [median_scan]. pose proof (wadd_fits 64 0 (vt_power v) ltac:(lia)) as [Hw _].
  destruct (wadd 64 0 (vt_power v) >=? 0) eqn:Ew; bools; [|lia]. apply StronglySorted_inv in Hs as [_ Hf]. rewrite Forall_forall in Hf.
  split; [exists v; split; [rewrite <- Hp; by left|done]|]. intros w Hin. rewrite <- Hp in Hin. apply elem_of_cons in Hin as [->|Hin]; [done|]. by apply Hf.
Qed.

(** C15. The price a tally takes from a ballot cannot be moved by a minority: with at
    least two units of power in all, if votes holding more than half of it, by more
    than half a unit, lie in an interval, the weighted median lies in it too, and it
    is the rate of a vote with power. The threshold is rounded down, and the margin
    is needed: of three votes with one unit of power each the lowest decides, against
    two that agree. With a single unit of power in all the threshold is zero and the
    lowest rate of the ballot is taken, whatever the power of that vote; without any
    power the median is zero. *)
Theorem median_robust (ballot : list VoteForTally) (lo hi : U256) :
  ballot_ok ballot ->
  let total := lsum (vt_power <$> ballot) in
  let m := weighted_median (sort_by_rate ballot) in
  (2 <= total ->
     (total + 1 < 2 * power_where (fun v => (lo <=? vt_rate v) && (vt_rate v <=? hi)) ballot -> lo <= m <= hi) /\
     (exists v, v ∈ ballot /\ vt_rate v = m /\ 0 < vt_power v)) /\
  (total = 1 -> (exists v, v ∈ ballot /\ vt_rate v = m) /\ forall v, v ∈ ballot -> m <= vt_rate v) /\
  (total = 0 -> m = 0) /\
  weighted_median (sort_by_rate [mkVote 100 0 1 1; mkVote 100 0 2 1; mkVote 1 0 3 1]) = 1.
Proof.
  intros Hb. cbv zeta. pose proof (median_degenerate ballot Hb) as Hd. cbv zeta in Hd.
  split; [|split; [intros E; rewrite E in Hd; by apply Hd|split; [intros E; rewrite E in Hd; by apply Hd|reflexivity]]]. clear Hd.
  intros HT. destruct (median_split ballot Hb HT) as (Hv & Hlow & Hhigh). set (m := weighted_median _) in *. split; [|done].
  intros Hh. split.
  - destruct (Z.le_gt_cases lo m) as [|Hlt]; [done|exfalso]. pose proof (power_where_le (fun v => (lo <=? vt_rate v) && (vt_rate v <=? hi)) (fun v => m <? vt_rate v) ballot (bo_powers _ Hb)) as Hc.
    assert (forall v, v ∈ ballot -> (lo <=? vt_rate v) && (vt_rate v <=? hi) = true -> (m <? vt_rate v) = true) as Hi by (intros v _ E; bools; apply Z.ltb_lt; lia). specialize (Hc Hi). lia.
  - destruct (Z.le_gt_cases m hi) as [|Hlt]; [done|exfalso]. pose proof (power_where_le (fun v => (lo <=? vt_rate v) && (vt_rate v <=? hi)) (fun v => vt_rate v <? m) ballot (bo_powers _ Hb)) as Hc.
    assert (forall v, v ∈ ballot -> (lo <=? vt_rate v) && (vt_rate v <=? hi) = true -> (vt_rate v <? m) = true) as Hi by (intros v _ E; bools; apply Z.ltb_lt; lia). specialize (Hc Hi). lia.
Qed.

Lemma median_robust_witness :
  99 <= weighted_median (sort_by_rate [mkVote 100 0 1 20; mkVote 1 0 2 15; mkVote 101 0 3 10; mkVote 900 0 4 5]) <= 101 /\
  weighted_median (sort_by_rate [mkVote 100 0 1 1; mkVote 1 0 2 0]) <= 1.
Proof.
  split.
  - apply (median_robust [mkVote 100 0 1 20; mkVote 1 0 2 15; mkVote 101 0 3 10; mkVote 900 0 4 5] 99 101).
    + split; [repeat (apply Forall_cons_2; [cbn; lia|]); by apply Forall_nil_2|repeat (apply Forall_cons_2; [cbn; lia|]); by apply Forall_nil_2|reflexivity].
    + vm_compute. discriminate.
    + vm_compute. reflexivity.
  - apply (proj1 (proj2 (median_robust [mkVote 100 0 1 1; mkVote 1 0 2 0] 0 0
      ltac:(split; [repeat (apply Forall_cons_2; [cbn; lia|]); by apply Forall_nil_2|repeat (apply Forall_cons_2; [cbn; lia|]); by apply Forall_nil_2|reflexivity]))) eq_refl) with (v := mkVote 1 0 2 0).
    right. left.
Defined.

(** ** Claims *)

Definition claim_of (claims : list (Address * Claim)) (a : Address) : option Claim := snd <$> List.find (fun '(b, _) => b =? a) claims.

(** The votes of a validator in a ballot and in all of them. *)
Definition votes_by (a : Address) (l : list VoteForTally) : Z := len (filter (fun v => vt_voter v = a) l).
Definition all_votes_by (a : Address) (ballots : list Ballot) : Z := lsum ((fun b => votes_by a (b_votes b)) <$> ballots).

(** What [n] marked votes do to a claim. *)
Definition marked (n : Z) (c c' : Claim) : Prop := win_count c <= win_count c' <= win_count c + n /\ did_vote c' = did_vote c || (0 <? n).

(** The claims [cs'] are [cs] after marking [n a] votes of each validator [a]. *)
Definition claims_step (n : Address -> Z) (cs cs' : list (Address * Claim)) : Prop :=
  cs'.*1 = cs.*1 /\
  forall a c, claim_of cs a = Some c -> 0 <= win_count c -> win_count c + n a < 2 ^ 32 -> exists c', claim_of cs' a = Some c' /\ marked (n a) c c'.

Lemma votes_by_nonneg a l : 0 <= votes_by a l.
Proof. unfold votes_by, len. lia. Qed.

Lemma votes_by_cons a v l : votes_by a (v :: l) = (if vt_voter v =? a then 1 else 0) + votes_by a l.
Proof. unfold votes_by, len. rewrite filter_cons. destruct (Z.eqb_spec (vt_voter v) a); [rewrite decide_True by done|by rewrite decide_False by done]. cbn [length]. lia. Qed.

Lemma votes_by_perm a l l' : l ≡ₚ l' -> votes_by a l = votes_by a l'.
Proof. intros Hp. unfold votes_by, len. by rewrite Hp. Qed.

Lemma votes_by_fmap a (f : VoteForTally -> VoteForTally) l : (forall v, vt_voter (f v) = vt_voter v) -> votes_by a (f <$> l) = votes_by a l.
Proof. intros Hf. induction l as [|v l IH]; [done|]. change (f <$> v :: l) with (f v :: (f <$> l)). by rewrite !votes_by_cons, Hf, IH. Qed.

Lemma claims_step_refl cs : claims_step (fun _ => 0) cs cs.
Proof. split; [done|]. intros a c E _ _. exists c. split; [done|]. unfold marked. rewrite orb_false_r. split; [lia|done]. Qed.

Lemma claims_step_trans n1 n2 cs1 cs2 cs3 :
  (forall a, 0 <= n1 a) -> (forall a, 0 <= n2 a) -> claims_step n1 cs1 cs2 -> claims_step n2 cs2 cs3 -> claims_step (fun a => n1 a + n2 a) cs1 cs3.
Proof.
  intros P1 P2 [E1 H1] [E2 H2]. split; [congruence|]. intros a c Ec H0 Hf. specialize (P1 a). specialize (P2 a).
  destruct (H1 a c Ec H0 ltac:(lia)) as (c1 & Ec1 & Hw1 & Hd1). destruct (H2 a c1 Ec1 ltac:(lia) ltac:(lia)) as (c2 & Ec2 & Hw2 & Hd2).
  exists c2. split; [done|]. split; [lia|]. rewrite Hd2, Hd1, <- orb_assoc. f_equal.
  destruct (Z.ltb_spec 0 (n1 a)), (Z.ltb_spec 0 (n2 a)), (Z.ltb_spec 0 (n1 a + n2 a)); (done || lia).
Qed.

Lemma claims_step_ext n n' cs cs' : (forall a, n a = n' a) -> claims_step n cs cs' -> claims_step n' cs cs'.
Proof. intros E [H1 H2]. split; [done|]. intros a. rewrite <- E. apply H2. Qed.

Lemma update_claim_fst v f cs : (update_claim v f cs).*1 = cs.*1.
Proof. induction cs as [|[b c] cs IH]; [done|]. cbn [update_claim]. destruct (b =? v); [done|]. rewrite !fmap_cons. by rewrite IH. Qed.

Lemma claim_of_update v f cs a : claim_of (update_claim v f cs) a = if v =? a then f <$> claim_of cs a else claim_of cs a.
Proof.
  unfold claim_of. induction cs as [|[b c] cs IH]; [by destruct (v =? a)|]. cbn [update_claim]. destruct (Z.eqb_spec b v) as [->|Hb]; cbn [List.find].
  - by destruct (v =? a).
  - destruct (Z.eqb_spec b a) as [->|Ha]; [|done]. by rewrite (proj2 (Z.eqb_neq v a)) by done.
Qed.

Lemma mark_vote_step lo hi cs v : claims_step (fun a => if vt_voter v =? a then 1 else 0) cs (mark_vote lo hi cs v).
Proof.
  unfold mark_vote. split; [by destruct (_ && _); rewrite !update_claim_fst|]. intros a c Ec H0 Hf. rewrite claim_of_update.
  assert (Ew : claim_of (if (vt_rate v >=? lo) && (vt_rate v <=? hi) then update_claim (vt_voter v) add_win cs else cs) a =
               Some (if (vt_rate v >=? lo) && (vt_rate v <=? hi) && (vt_voter v =? a) then add_win c else c)).
  { destruct (_ && _); [|done]. rewrite claim_of_update, Ec. by destruct (_ =? a). }
  rewrite Ew. destruct (vt_voter v =? a); [|eexists; split; [by rewrite andb_false_r|]; unfold marked; rewrite orb_false_r; split; [lia|done]].
  eexists. split; [done|]. rewrite andb_true_r. unfold marked. split; [|by rewrite orb_true_r].
  destruct (_ && _); cbn [mark_voted add_win win_count]; [|lia]. rewrite wadd_small by lia. lia.
Qed.

Lemma mark_votes_step lo hi l cs : claims_step (fun a => votes_by a l) cs (foldl (mark_vote lo hi) cs l).
Proof.
  revert cs. induction l as [|v l IH]; intros cs; [apply claims_step_refl|]. cbn [foldl].
  eapply claims_step_ext; [|eapply (claims_step_trans (fun a => if vt_voter v =? a then 1 else 0) (fun a => votes_by a l)); [| |apply mark_vote_step|apply IH]].
  - intros a. by rewrite votes_by_cons.
  - intros a. destruct (_ =? _); lia.
  - intros a. apply votes_by_nonneg.
Qed.

(** The tally of a pair returns. *)
Lemma tally_pair_total ballot band cs :
  exists b cs', tally_pair ballot band cs = Some (b, cs', weighted_median b) /\ b = sort_by_rate ballot /\ claims_step (fun a => votes_by a ballot) cs cs'.
Proof.
  unfold tally_pair. destruct ballot as [|v ballot]; [by exists [], cs; split_and!; [..|apply claims_step_refl]|]. set (l := v :: ballot).
  destruct (standard_deviation_total (sort_by_rate l) (weighted_median (sort_by_rate l))) as (s & -> & _).
  destruct (reward_bounds _ _ _) as [lo hi]. do 2 eexists. split_and!; [done|done|].
  eapply claims_step_ext; [|apply mark_votes_step]. intros a. apply votes_by_perm, sort_by_rate_perm.
Qed.

(** ** All the ballots *)

Definition votes_nonneg (votes : list VoteForTally) : Prop := Forall (fun v => 0 <= vt_rate v /\ 0 <= vt_volume v) votes.

(** What the tally of a list of ballots does: it marks their votes and publishes
    positive rates for some of their pairs, each at most once. *)
Record tally_step (ballots : list Ballot) (st st' : TallyState) : Prop := {
  tst_claims : claims_step (fun a => all_votes_by a ballots) (ts_claims st) (ts_claims st');
  tst_entries : exists es, ts_entries st' = ts_entries st ++ es /\ Forall row_pos es /\ es.*1.*1 `sublist_of` (b_pair <$> ballots);
  tst_rates h : h ∉ (b_hash <$> ballots) -> rd (exchange_rate (ts_rates st')) h = rd (exchange_rate (ts_rates st)) h
}.

Lemma all_votes_by_app a b1 b2 : all_votes_by a (b1 ++ b2) = all_votes_by a b1 + all_votes_by a b2.
Proof. unfold all_votes_by. by rewrite fmap_app, lsum_app. Qed.

Lemma all_votes_by_single a b : all_votes_by a [b] = votes_by a (b_votes b).
Proof. unfold all_votes_by. cbn. lia. Qed.

Lemma all_votes_by_perm a b1 b2 : b1 ≡ₚ b2 -> all_votes_by a b1 = all_votes_by a b2.
Proof. intros Hp. unfold all_votes_by. apply lsum_perm. by rewrite Hp. Qed.

Lemma all_votes_by_nonneg a b : 0 <= all_votes_by a b.
Proof. unfold all_votes_by. apply lsum_nonneg, Forall_fmap, Forall_true. intros x. apply votes_by_nonneg. Qed.

Lemma tally_step_nil st : tally_step [] st st.
Proof. split; [apply claims_step_refl|exists []; by rewrite app_nil_r|done]. Qed.

Lemma tally_step_app b1 b2 st1 st2 st3 : tally_step b1 st1 st2 -> tally_step b2 st2 st3 -> tally_step (b1 ++ b2) st1 st3.
Proof.
  intros [C1 (es1 & E1 & P1 & S1) R1] [C2 (es2 & E2 & P2 & S2) R2]. split.
  - eapply claims_step_ext; [|eapply claims_step_trans; [| |exact C1|exact C2]]; intros a; [by rewrite all_votes_by_app|apply all_votes_by_nonneg..].
  - exists (es1 ++ es2). rewrite E2, E1, <- app_assoc. split; [done|]. split; [by apply Forall_app|]. rewrite !fmap_app. by apply sublist_app.
  - intros h Hh. rewrite fmap_app, not_elem_of_app in Hh. by rewrite R2, R1 by apply Hh.
Qed.

Lemma total_volume_nonneg votes : votes_nonneg votes -> 0 <= total_volume votes.
Proof.
  intros Hv. unfold total_volume. enough (Hg : forall acc, 0 <= acc -> 0 <= foldl (saturating_add 256) acc (vt_volume <$> votes)) by (by apply Hg).
  induction Hv as [|v votes [_ Hv] _ IH]; intros acc Ha; [done|]. rewrite fmap_cons. apply IH. unfold saturating_add. lia.
Qed.

(** A tallied ballot, with or without a published rate. *)
Lemma tally_step_claims b st cs : claims_step (fun a => votes_by a (b_votes b)) (ts_claims st) cs -> tally_step [b] st (set_claims st cs).
Proof.
  intros Hc. split; [|exists []; rewrite app_nil_r; split_and!; [done|done|apply sublist_nil_l]|done].
  eapply claims_step_ext; [|exact Hc]. intros a. by rewrite all_votes_by_single.
Qed.

Lemma tally_step_publish b b' st cs bn ts rate :
  b_pair b' = b_pair b -> b_hash b' = b_hash b -> claims_step (fun a => votes_by a (b_votes b)) (ts_claims st) cs -> 0 < rate -> votes_nonneg (b_votes b') ->
  tally_step [b] st (publish bn ts (set_claims st cs) b' rate).
Proof.
  intros Ep Eh Hc Hr Hv. split.
  - eapply claims_step_ext; [|exact Hc]. intros a. by rewrite all_votes_by_single.
  - eexists [_]. split; [done|]. split; [|cbn; by rewrite Ep]. constructor; [|done]. split; [done|]. by apply total_volume_nonneg.
  - intros h Hh. cbn in Hh. cbn [publish ts_rates update_exchange_rate exchange_rate]. rewrite Eh. rewrite rd_insert_ne; [done|]. intros E. apply Hh. rewrite E. by left.
Qed.

Lemma weighted_median_nonneg votes : votes_nonneg votes -> 0 <= weighted_median votes.
Proof.
  intros Hv. unfold weighted_median. destruct (_ =? 0); [done|].
  assert (Hs : forall half c r, median_scan half c votes = Some r -> 0 <= r).
  { intros half. induction Hv as [|v votes [Hr _] _ IH]; intros c r; [done|]. cbn [median_scan]. destruct (_ >=? _); [by intros [= <-]|apply IH]. }
  destruct (median_scan _ 0 votes) eqn:E; [by eapply Hs|]. destruct (last votes) as [v|] eqn:El; [|done]. cbn.
  apply last_Some in El as [l' ->]. unfold votes_nonneg in Hv. rewrite Forall_app in Hv. destruct Hv as [_ Hv]. by apply Forall_cons_1 in Hv as [[? _] _].
Qed.

Lemma to_cross_rate_nonneg votes refs : votes_nonneg votes -> Forall (fun r => 0 <= r.2) refs -> votes_nonneg (to_cross_rate votes refs).
Proof.
  intros Hv Hr. apply Forall_fmap. eapply Forall_impl; [exact Hv|]. intros v [H1 H2]. cbn.
  destruct (List.find _ refs) as [[a r]|] eqn:E; cbn; [|done]. destruct (negb _ && negb _) eqn:En; cbn; [|done]. bools. split; [|done].
  apply List.find_some in E as [Hin _]. rewrite Forall_forall in Hr. specialize (Hr (a, r) (proj2 (list_elem_of_In _ _) Hin)). cbn in Hr.
  apply Z.div_pos; [|lia]. unfold checked_mul. case_match; cbn; [unfold SCALE_1E18; lia|done].
Qed.

Lemma tally_cross_step band bn ts rm refs st b :
  votes_nonneg (b_votes b) -> 0 <= rm -> Forall (fun r => 0 <= r.2) refs -> exists st', tally_cross band bn ts rm refs st b = Ok st' /\ tally_step [b] st st'.
Proof.
  intros Hv Hrm Hr. unfold tally_cross. destruct (b_votes b) as [|v vs] eqn:Eb.
  { exists st. split; [done|]. replace st with (set_claims st (ts_claims st)) at 2 by (by destruct st). apply tally_step_claims. rewrite Eb. apply claims_step_refl. }
  set (cross := to_cross_rate (v :: vs) refs). destruct (tally_pair_total cross band (ts_claims st)) as (l & cs & -> & -> & Hc).
  assert (Hc' : claims_step (fun a => votes_by a (b_votes b)) (ts_claims st) cs).
  { eapply claims_step_ext; [|exact Hc]. intros a. rewrite Eb. apply votes_by_fmap. intros w. by repeat case_match. }
  assert (Hm : 0 <= weighted_median (sort_by_rate cross)). { apply weighted_median_nonneg. unfold votes_nonneg. rewrite sort_by_rate_perm. by apply to_cross_rate_nonneg. }
  cbn [ok_or]. set (m := weighted_median _) in *. destruct (negb (m =? 0) && negb (rm =? 0)) eqn:En; bools; [|eexists; split; [done|by apply tally_step_claims]].
  assert (0 <= actual_rate rm m). { apply Z.div_pos; [|lia]. unfold checked_mul. case_match; cbn; [unfold SCALE_1E18; lia|done]. }
  destruct (Z.eqb_spec (actual_rate rm m) 0); [eexists; split; [done|by apply tally_step_claims]|].
  eexists. split; [done|]. apply tally_step_publish; [done|done|done|lia|by rewrite Eb].
Qed.

Lemma tally_crosses_step band bn ts rm refs l st :
  Forall (fun b => votes_nonneg (b_votes b)) l -> 0 <= rm -> Forall (fun r => 0 <= r.2) refs ->
  exists st', foldM (tally_cross band bn ts rm refs) st l = Ok st' /\ tally_step l st st'.
Proof.
  intros Hl Hrm Hr. revert st. induction Hl as [|b l Hb Hl IH]; intros st; [exists st; split; [done|apply tally_step_nil]|].
  destruct (tally_cross_step band bn ts rm refs st b Hb Hrm Hr) as (st1 & E1 & S1). destruct (IH st1) as (st2 & E2 & S2).
  exists st2. cbn [foldM]. rewrite E1. split; [done|]. by apply (tally_step_app [b] l st st1 st2).
Qed.

Lemma last_max_bounds i bi best keys : 0 <= bi < i -> 0 <= last_max i bi best keys < i + len keys.
Proof.
  revert i bi best. induction keys as [|k keys IH]; intros i bi best Hb; cbn [last_max]; unfold len in *; cbn [length]; [lia|].
  destruct (k >=? best); [specialize (IH (i + 1) i k ltac:(lia))|specialize (IH (i + 1) bi best ltac:(lia))]; lia.
Qed.

Lemma reference_index_lt ballots : ballots <> [] -> (reference_index ballots < length ballots)%nat.
Proof.
  intros Hne. unfold reference_index. destruct ballots as [|b l]; [done|]. cbn [fmap list_fmap].
  pose proof (last_max_bounds 1 0 (total_power (b_votes b)) ((fun b => total_power (b_votes b)) <$> l) ltac:(lia)) as Hb. unfold len in Hb. rewrite length_fmap in Hb.
  change (list_fmap _ _ (fun b => total_power (b_votes b)) l) with ((fun b => total_power (b_votes b)) <$> l). cbn [length]. lia.
Qed.

(** The ballots with the reference pair first. *)
Definition reference_first (ballots : list Ballot) : list Ballot :=
  default (mkBallot 0 0 []) (ballots !! reference_index ballots) :: take (reference_index ballots) ballots ++ drop (S (reference_index ballots)) ballots.

Lemma reference_first_perm ballots : ballots <> [] -> reference_first ballots ≡ₚ ballots.
Proof.
  intros Hne. unfold reference_first. destruct (lookup_lt_is_Some_2 ballots (reference_index ballots) (reference_index_lt _ Hne)) as [b Eb].
  rewrite Eb. cbn [default from_option]. unfold id. etransitivity; [apply Permutation_middle|]. by rewrite take_drop_middle.
Qed.

Lemma tally_ballots_step band bn ts ballots st :
  ballots <> [] -> Forall (fun b => votes_nonneg (b_votes b)) ballots ->
  exists st', tally_ballots band bn ts ballots st = Ok st' /\ tally_step (reference_first ballots) st st'.
Proof.
  intros Hne Hv. pose proof (reference_first_perm ballots Hne) as Hp. rewrite <- Hp in Hv. unfold tally_ballots, reference_first in *. cbv zeta.
  set (ref := default _ _) in *. set (rest := take _ _ ++ drop _ _) in *. apply Forall_cons_1 in Hv as [Hr Hv].
  destruct (tally_pair_total (b_votes ref) band (ts_claims st)) as (l & cs & -> & -> & Hc). cbn [ok_or].
  assert (Hs : votes_nonneg (sort_by_rate (b_votes ref))) by (unfold votes_nonneg; by rewrite sort_by_rate_perm).
  pose proof (weighted_median_nonneg _ Hs) as Hm. set (m := weighted_median _) in *.
  set (st1 := if m =? 0 then _ else _). assert (S1 : tally_step [ref] st st1).
  { subst st1. destruct (Z.eqb_spec m 0); [by apply tally_step_claims|]. apply tally_step_publish; [done|done|done|lia|done]. }
  destruct (tally_crosses_step band bn ts m ((fun v => (vt_voter v, vt_rate v)) <$> sort_by_rate (b_votes ref)) rest st1 Hv Hm) as (st2 & E2 & S2).
  { apply Forall_fmap. eapply Forall_impl; [exact Hs|]. by intros v [? _]. }
  exists st2. split; [exact E2|]. by apply (tally_step_app [ref] rest st st1 st2).
Qed.

(** ** Collecting the votes *)

Abbreviation ballot_key b := (b_pair b, b_hash b).
Abbreviation row := (u32 * U256 * U256)%type.

(** The rows of a vote that name a pair of the list. *)
Definition target_rows (targets : list u32) (es : list row) : list row := filter (fun r => r.1.1 ∈ targets) es.

Lemma votes_by_app a l1 l2 : votes_by a (l1 ++ l2) = votes_by a l1 + votes_by a l2.
Proof. unfold votes_by, len. rewrite filter_app, length_app. lia. Qed.

Lemma push_vote_keys ballots pid v : (fun b => ballot_key b) <$> push_vote ballots pid v = (fun b => ballot_key b) <$> ballots.
Proof. induction ballots as [|b l IH]; [done|]. cbn [push_vote]. destruct (_ =? pid); [done|]. rewrite !fmap_cons. by rewrite IH. Qed.

Lemma push_vote_count a ballots pid v :
  all_votes_by a (push_vote ballots pid v) = all_votes_by a ballots + (if bool_decide (pid ∈ b_pair <$> ballots) && (vt_voter v =? a) then 1 else 0).
Proof.
  induction ballots as [|b l IH]; [done|]. cbn [push_vote]. rewrite (all_votes_by_app a [b] l : all_votes_by a (b :: l) = _), all_votes_by_single, fmap_cons.
  destruct (Z.eqb_spec (b_pair b) pid) as [E|E].
  - rewrite (all_votes_by_app a [_] l : all_votes_by a (_ :: l) = _), all_votes_by_single. cbn [b_votes]. rewrite votes_by_app, votes_by_cons.
    rewrite bool_decide_eq_true_2 by (rewrite E; by left). cbn [andb]. change (votes_by a []) with 0. lia.
  - rewrite (all_votes_by_app a [_] _ : all_votes_by a (b :: push_vote l pid v) = _), all_votes_by_single, IH.
    rewrite (bool_decide_ext (pid ∈ b_pair b :: (b_pair <$> l)) (pid ∈ b_pair <$> l)) by (rewrite elem_of_cons; split; [intros [?|?]; [congruence|done]|auto]). lia.
Qed.

Lemma push_vote_nonneg ballots pid v :
  0 <= vt_rate v /\ 0 <= vt_volume v -> Forall (fun b => votes_nonneg (b_votes b)) ballots -> Forall (fun b => votes_nonneg (b_votes b)) (push_vote ballots pid v).
Proof.
  intros Hv. induction 1 as [|b l Hb Hl IH]; [constructor|]. cbn [push_vote]. destruct (_ =? pid); constructor; [|done|done|done].
  cbn [b_votes]. unfold votes_nonneg. apply Forall_app. split; [done|by constructor].
Qed.

(** The keys, the counts and the signs after some rows were pushed. *)
Record collected (n : Address -> Z) (b b' : list Ballot) : Prop := {
  cl_keys : (fun b => ballot_key b) <$> b' = (fun b => ballot_key b) <$> b;
  cl_count a : all_votes_by a b' = all_votes_by a b + n a;
  cl_nonneg : Forall (fun b => votes_nonneg (b_votes b)) b -> Forall (fun b => votes_nonneg (b_votes b)) b'
}.

Lemma keys_pairs (b b' : list Ballot) : (fun b => ballot_key b) <$> b' = (fun b => ballot_key b) <$> b -> b_pair <$> b' = b_pair <$> b /\ b_hash <$> b' = b_hash <$> b.
Proof.
  intros E. pose proof (f_equal (fmap (M := list) fst) E) as E1. pose proof (f_equal (fmap (M := list) snd) E) as E2. rewrite <- !list_fmap_compose in E1, E2. split; [exact E1|exact E2].
Qed.

Lemma collected_trans n1 n2 b1 b2 b3 : collected n1 b1 b2 -> collected n2 b2 b3 -> collected (fun a => n1 a + n2 a) b1 b3.
Proof. intros [K1 C1 N1] [K2 C2 N2]. split; [congruence|intros a; rewrite C2, C1; lia|auto]. Qed.

Lemma collect_rows_spec voter power targets es ballots :
  b_pair <$> ballots = targets -> Forall row_nonneg es ->
  collected (fun a => if voter =? a then len (target_rows targets es) else 0) ballots
    (foldl (fun ballots '(pair_id, rate, volume) => push_vote ballots pair_id (mkVote rate volume voter power)) ballots es).
Proof.
  intros Ht Hes. revert ballots Ht. induction Hes as [|[[pid rate] vol] es [H1 H2] Hes IH]; intros ballots Ht.
  { split; [done|intros a; change (len (target_rows targets [])) with 0; cbn [foldl]; destruct (voter =? a); lia|done]. }
  cbn [foldl]. set (b1 := push_vote ballots pid _). pose proof (push_vote_keys ballots pid (mkVote rate vol voter power)) as Hk.
  assert (S1 : collected (fun a => if bool_decide (pid ∈ targets) && (voter =? a) then 1 else 0) ballots b1).
  { split; [exact Hk|intros a; subst targets; apply (push_vote_count a ballots pid (mkVote rate vol voter power))|by apply push_vote_nonneg]. }
  assert (Ht1 : b_pair <$> b1 = targets) by (rewrite <- Ht; by apply keys_pairs). specialize (IH b1 Ht1).
  destruct (collected_trans _ _ _ _ _ S1 IH) as [K C N]. split; [exact K| |exact N]. intros a. rewrite C. f_equal.
  unfold target_rows, len. rewrite filter_cons. cbn [fst]. destruct (voter =? a); [|by rewrite andb_false_r]. rewrite andb_true_r.
  case_bool_decide; [rewrite decide_True by done; cbn [length]; lia|rewrite decide_False by done; lia].
Qed.

Lemma collect_ballots_spec validators v targets l ballots :
  NoDup l -> Forall (fun w => Forall row_nonneg (vote_rows v w)) l -> b_pair <$> ballots = targets ->
  collected (fun a => if bool_decide (a ∈ l) then len (target_rows targets (vote_rows v a)) else 0) ballots
    (foldl (fun ballots voter => let power := power_of validators voter in
       foldl (fun ballots '(pair_id, rate, volume) => push_vote ballots pair_id (mkVote rate volume voter power)) ballots (vote_rows v voter)) ballots l).
Proof.
  intros Hn Hl. revert ballots. induction Hl as [|w l Hw Hl IH]; intros ballots Ht; [split; [done|intros a; cbn [foldl]; rewrite bool_decide_eq_false_2 by (intros E; inversion E); lia|done]|].
  apply NoDup_cons in Hn as [Hwl Hn]. cbn [foldl]. pose proof (collect_rows_spec w (power_of validators w) targets (vote_rows v w) ballots Ht Hw) as S1. cbv zeta in *.
  set (b1 := foldl _ ballots (vote_rows v w)) in *. assert (Ht1 : b_pair <$> b1 = targets) by (rewrite <- Ht; apply keys_pairs, S1).
  destruct (collected_trans _ _ _ _ _ S1 (IH Hn b1 Ht1)) as [K C N]. split; [exact K| |exact N]. intros a. rewrite C. f_equal.
  destruct (Z.eqb_spec w a) as [->|Hne].
  - rewrite (bool_decide_eq_false_2 (a ∈ l)), (bool_decide_eq_true_2 (a ∈ a :: l)) by (done || by left). lia.
  - rewrite (bool_decide_ext (a ∈ w :: l) (a ∈ l)) by (rewrite elem_of_cons; split; [intros [?|?]; [congruence|done]|auto]). lia.
Qed.

(** ** Counting the outcomes *)

Definition counters (p : PenaltyCounters) (a : Address) : u64 * u64 * u64 := (rd (penalty_success_count p) a, rd (penalty_abstain_count p) a, rd (penalty_miss_count p) a).

Lemma counters_success p a b : counters (increment_success p b) a = if a =? b then (wadd 64 (counters p a).1.1 1, (counters p a).1.2, (counters p a).2) else counters p a.
Proof. unfold counters, increment_success. cbn. rewrite rd_insert. case_match; case_match; bools; congruence. Qed.

Lemma counters_abstain p a b : counters (increment_abstain p b) a = if a =? b then ((counters p a).1.1, wadd 64 (counters p a).1.2 1, (counters p a).2) else counters p a.
Proof. unfold counters, increment_abstain. cbn. rewrite rd_insert. case_match; case_match; bools; congruence. Qed.

Lemma counters_miss p a b : counters (increment_miss p b) a = if a =? b then ((counters p a).1.1, (counters p a).1.2, wadd 64 (counters p a).2 1) else counters p a.
Proof. unfold counters, increment_miss. cbn. rewrite rd_insert. case_match; case_match; bools; congruence. Qed.

(** The outcome of a claim. *)
Definition outcome (total : u32) (c : Claim) (k : u64 * u64 * u64) : u64 * u64 * u64 :=
  let '(s, ab, m) := k in
  if win_count c =? total then (wadd 64 s 1, ab, m) else if did_vote c then (s, ab, wadd 64 m 1) else (s, wadd 64 ab 1, m).

Lemma count_claim_counters total p b c a : counters (count_claim total p (b, c)) a = if a =? b then outcome total c (counters p a) else counters p a.
Proof.
  unfold count_claim, outcome. cbn [fst snd]. destruct (counters p a) as [[s ab] m] eqn:E.
  destruct (win_count c =? total); [by rewrite counters_success, E|]. destruct (did_vote c); cbn [negb]; [by rewrite counters_miss, E|by rewrite counters_abstain, E].
Qed.

Lemma count_claims_counters total cs p a :
  NoDup cs.*1 -> counters (foldl (count_claim total) p cs) a = match claim_of cs a with Some c => outcome total c (counters p a) | None => counters p a end.
Proof.
  revert p. induction cs as [|[b c] cs IH]; intros p Hn; [done|]. rewrite fmap_cons in Hn. apply NoDup_cons in Hn as [Hb Hn]. cbn [foldl]. rewrite IH by done.
  rewrite count_claim_counters. unfold claim_of in *. cbn [List.find]. destruct (Z.eqb_spec b a) as [->|Hne].
  - rewrite Z.eqb_refl. destruct (List.find _ cs) as [[b' c']|] eqn:E; [exfalso|done]. apply List.find_some in E as [Hin Eb]. bools. subst b'.
    apply Hb, list_elem_of_fmap. exists (a, c'). split; [done|]. by apply list_elem_of_In.
  - by rewrite (proj2 (Z.eqb_neq a b)) by congruence.
Qed.

Lemma claim_of_default (addrs : list Address) a : claim_of ((fun b => (b, default_claim)) <$> addrs) a = if bool_decide (a ∈ addrs) then Some default_claim else None.
Proof.
  unfold claim_of. induction addrs as [|b l IH]; [done|]. cbn [fmap list_fmap List.find]. destruct (Z.eqb_spec b a) as [->|Hne]; [by rewrite bool_decide_eq_true_2 by left|].
  change (list_fmap _ _ (fun b => (b, default_claim)) l) with ((fun b => (b, default_claim)) <$> l). rewrite IH.
  rewrite (bool_decide_ext (a ∈ b :: l) (a ∈ l)) by (rewrite elem_of_cons; split; [intros [?|?]; [congruence|done]|auto]). done.
Qed.

Lemma len_pos {A} (l : list A) : l <> [] -> 0 < len l.
Proof. unfold len. destruct l; [done|cbn [length]; lia]. Qed.

Lemma target_rows_cover targets es :
  NoDup es.*1.*1 -> len (target_rows targets es) <= len targets /\ (len targets <= len (target_rows targets es) -> forall t, t ∈ targets -> t ∈ (target_rows targets es).*1.*1).
Proof.
  intros Hn. assert (Hs : (target_rows targets es).*1.*1 ⊆+ targets).
  { apply NoDup_submseteq.
    - eapply sublist_NoDup; [exact Hn|]. do 2 apply fmap_sublist. apply sublist_filter.
    - intros t (p & -> & (r & -> & Hr)%list_elem_of_fmap)%list_elem_of_fmap. by apply list_elem_of_filter in Hr as [? _]. }
  pose proof (submseteq_length _ _ Hs) as Hl. rewrite !length_fmap in Hl. unfold len. split; [lia|]. intros Hge t Ht.
  assert (Hp : (target_rows targets es).*1.*1 ≡ₚ targets) by (apply submseteq_length_Permutation; [done|rewrite !length_fmap; lia]). by rewrite Hp.
Qed.

Section TallySpec.
Context `{Crypto}.

Definition active_addresses (vs : ValidatorSet) : list Address := validator_address <$> get_active_validators vs.

(** Votes as [submit_vote] stores them: no pair twice, unsigned rows. *)
Definition votes_ok (L : list (Address * list row)) : Prop := Forall (fun v => NoDup v.2.*1.*1 /\ Forall row_nonneg v.2) L.

Lemma NoDup_active vs : registry_ok vs -> NoDup (active_addresses vs).
Proof. intros Hr. eapply sublist_NoDup; [by apply NoDup_get_all|]. apply fmap_sublist, sublist_filter. Qed.

Lemma vote_rows_ok v L a : votes_rep v L -> votes_ok L -> NoDup (vote_rows v a).*1.*1 /\ Forall row_nonneg (vote_rows v a) /\ (a ∉ L.*1 -> vote_rows v a = []).
Proof.
  intros Hr Hv. assert (Hn : a ∉ L.*1 -> vote_rows v a = []) by (intros Ha; unfold vote_rows; by rewrite (vr_clear _ _ Hr a Ha)).
  destruct (decide (a ∈ L.*1)) as [Ha|Ha]; [|rewrite (Hn Ha); split_and!; [constructor|constructor|done]].
  apply list_elem_of_fmap in Ha as ([a' es] & -> & Hin). cbn [fst] in *. rewrite (vr_rows _ _ Hr a' es Hin).
  unfold votes_ok in Hv. rewrite Forall_forall in Hv. destruct (Hv _ Hin) as [H1 H2]. split_and!; [done|done|].
  intros Ha. exfalso. apply Ha, list_elem_of_fmap. by exists (a', es).
Qed.

(** The ballots [run_tally] counts. *)
Definition period_ballots (vs : ValidatorSet) (o : OracleContract) : list Ballot :=
  collect_ballots (get_active_validators vs) (oc_votes o) ((fun pid => mkBallot pid (rd (pair_id_to_hash (oc_pairs o)) pid) []) <$> get_vote_targets (oc_pairs o)).

Lemma period_ballots_spec vs o L :
  votes_rep (oc_votes o) L -> votes_ok L ->
  b_pair <$> period_ballots vs o = get_vote_targets (oc_pairs o) /\ Forall (fun b => votes_nonneg (b_votes b)) (period_ballots vs o) /\
  forall a, all_votes_by a (period_ballots vs o) = len (target_rows (get_vote_targets (oc_pairs o)) (vote_rows (oc_votes o) a)).
Proof.
  intros Hr Hv. unfold period_ballots, collect_ballots. set (targets := get_vote_targets _). set (b0 := _ <$> targets).
  assert (Ht : b_pair <$> b0 = targets) by (subst b0; rewrite <- list_fmap_compose; apply list_fmap_id).
  destruct (collect_ballots_spec (get_active_validators vs) (oc_votes o) targets (voters (oc_votes o)) b0) as [K C N].
  - rewrite (voters_rep _ _ (vr_list _ _ Hr)). apply (vr_nodup _ _ Hr).
  - apply Forall_forall. intros w _. by eapply vote_rows_ok.
  - exact Ht.
  - split_and!; [rewrite <- Ht; by apply keys_pairs|apply N, Forall_fmap, Forall_true; intros x; constructor|]. intros a. rewrite C.
    assert (all_votes_by a b0 = 0) as ->. { subst b0. clear. unfold all_votes_by. induction targets as [|t l IH]; [done|]. rewrite !fmap_cons. cbn [lsum foldr]. cbn in IH |- *. exact IH. }
    case_bool_decide as Ha; [lia|]. rewrite (voters_rep _ _ (vr_list _ _ Hr)) in Ha.
    destruct (vote_rows_ok _ _ a Hr Hv) as (_ & _ & Hn). by rewrite (Hn Ha).
Qed.

(** The counters of a validator after a tally in which it sent these target rows. *)
Definition tallied (targets : list u32) (rows : list row) (k k' : u64 * u64 * u64) : Prop :=
  let '(s, ab, m) := k in
  (rows = [] -> k' = (s, wadd 64 ab 1, m)) /\
  (rows <> [] -> k' = (s, ab, wadd 64 m 1) \/ k' = (wadd 64 s 1, ab, m) /\ forall t, t ∈ targets -> t ∈ rows.*1.*1).

Lemma outcome_tallied targets es c k :
  NoDup es.*1.*1 -> 0 < len targets < 2 ^ 32 -> marked (len (target_rows targets es)) default_claim c ->
  tallied targets (target_rows targets es) k (outcome (len targets mod 2 ^ 32) c k).
Proof.
  intros Hn Ht [Hw Hd]. destruct (target_rows_cover targets es Hn) as [Hle Hc]. cbn [default_claim win_count did_vote orb] in *. rewrite Z.mod_small by lia.
  set (rows := target_rows targets es) in *. unfold tallied, outcome. destruct k as [[s ab] m]. split.
  - intros Er. assert (len rows = 0) by (by rewrite Er). assert ((0 <? len rows) = false) by (apply Z.ltb_ge; lia).
    rewrite (proj2 (Z.eqb_neq _ _)) by lia. rewrite Hd. by case_match.
  - intros Er. pose proof (len_pos rows Er). assert (Hb : (0 <? len rows) = true) by (by apply Z.ltb_lt).
    destruct (Z.eqb_spec (win_count c) (len targets)); [right; split; [done|apply Hc; lia]|left]. by rewrite Hd, Hb.
Qed.

(** The tally of a period with votes, in terms of its ballots. *)
Lemma run_tally_ballots vs o bn ts L :
  votes_rep (oc_votes o) L -> votes_ok L -> config_enabled (oc_config o) = true -> active_addresses vs <> [] -> L <> [] ->
  get_vote_targets (oc_pairs o) <> [] -> len (get_vote_targets (oc_pairs o)) < 2 ^ 32 ->
  exists st, tally_step (reference_first (period_ballots vs o)) (mkTally (oc_rates o) (oc_events o) ((fun a => (a, default_claim)) <$> active_addresses vs) []) st /\
    run_tally vs o bn ts = Ok {| o with oc_rates := ts_rates st;
      oc_history := match ts_entries st with [] => oc_history o | _ => write_snapshot (oc_history o) ts (ts_entries st) end;
      oc_penalty := foldl (count_claim (len (get_vote_targets (oc_pairs o)) mod 2 ^ 32)) (oc_penalty o) (ts_claims st);
      oc_events := ts_events st ++ [TallyCompleted bn (len (ts_entries st) mod 2 ^ 32)]; oc_votes := clear_votes (oc_votes o) |}.
Proof.
  intros Hr Hv He Ha HL Ht Hl. destruct (period_ballots_spec vs o L Hr Hv) as (Hp & Hn & _).
  destruct (tally_ballots_step (config_reward_band (oc_config o)) bn ts (period_ballots vs o) (mkTally (oc_rates o) (oc_events o) ((fun a => (a, default_claim)) <$> active_addresses vs) []))
    as (st & Est & Hst); [intros E; by rewrite E in Hp|done|].
  exists st. split; [done|]. unfold run_tally. rewrite He. cbn [negb]. fold (period_ballots vs o).
  assert (Ec : (fun v => (validator_address v, default_claim)) <$> get_active_validators vs = (fun a => (a, default_claim)) <$> active_addresses vs) by (unfold active_addresses; by rewrite <- list_fmap_compose).
  rewrite Ec. destruct (get_active_validators vs) eqn:Eg; [by unfold active_addresses in Ha; rewrite Eg in Ha|].
  rewrite (proj2 (Z.eqb_neq _ 0)). 2: { rewrite (proj1 (vr_list _ _ Hr)), length_fmap. destruct L; [done|cbn; lia]. }
  pose proof (len_pos _ Ht) as Ht0.
  rewrite Z.mod_small by lia. rewrite (proj2 (Z.eqb_neq _ 0)) by lia. by rewrite Est.
Qed.

Lemma vote_targets_bound p : pairs_ok p -> NoDup (get_vote_targets p) /\ len (get_vote_targets p) < 2 ^ 32.
Proof.
  intros Hp. pose proof (po_count _ Hp) as Hc. unfold get_vote_targets, pair_ids. split; [apply NoDup_filter, NoDup_seqZ|].
  pose proof (length_filter (fun pid => is_target_id p pid = true) (seqZ 1 (pair_count p))) as Hl. rewrite length_seqZ in Hl. unfold len. lia.
Qed.

Lemma period_ballots_hashes vs o L :
  votes_rep (oc_votes o) L -> votes_ok L -> b_hash <$> period_ballots vs o = rd (pair_id_to_hash (oc_pairs o)) <$> get_vote_targets (oc_pairs o).
Proof.
  intros Hr Hv. unfold period_ballots, collect_ballots. set (targets := get_vote_targets _). set (b0 := _ <$> targets).
  assert (Ht : b_pair <$> b0 = targets) by (subst b0; rewrite <- list_fmap_compose; apply list_fmap_id).
  destruct (collect_ballots_spec (get_active_validators vs) (oc_votes o) targets (voters (oc_votes o)) b0) as [K _ _].
  - rewrite (voters_rep _ _ (vr_list _ _ Hr)). apply (vr_nodup _ _ Hr).
  - apply Forall_forall. intros w _. by eapply vote_rows_ok.
  - exact Ht.
  - refine (eq_trans (proj2 (keys_pairs _ _ K)) _). subst b0. by rewrite <- list_fmap_compose.
Qed.
End TallySpec.

Lemma claim_of_None cs a : a ∉ cs.*1 -> claim_of cs a = None.
Proof.
  intros Ha. unfold claim_of. destruct (List.find _ cs) as [[b c]|] eqn:E; [exfalso|done]. apply List.find_some in E as [Hin Eb]. bools. subst b.
  apply Ha, list_elem_of_fmap. exists (a, c). split; [done|]. by apply list_elem_of_In.
Qed.

(** C8. The tally of a vote period cannot fail, and it judges every active validator
    exactly once: one that sent no price for a vote target abstains, one that sent
    some is counted as a miss or, only if it covered every target, as a success; the
    others keep their counters. At most one row per target, with a positive price,
    enters the history, no other pair's rate moves, and no vote is left over. *)
Theorem run_tally_exact `{Crypto} vs o bn ts L :
  registry_ok vs -> pairs_ok (oc_pairs o) -> votes_rep (oc_votes o) L -> votes_ok L -> config_enabled (oc_config o) = true ->
  active_addresses vs <> [] -> L <> [] -> get_vote_targets (oc_pairs o) <> [] ->
  let targets := get_vote_targets (oc_pairs o) in
  exists o' es, run_tally vs o bn ts = Ok o' /\ votes_rep (oc_votes o') [] /\
    (forall a, a ∈ active_addresses vs -> tallied targets (target_rows targets (vote_rows (oc_votes o) a)) (counters (oc_penalty o) a) (counters (oc_penalty o') a)) /\
    (forall a, a ∉ active_addresses vs -> counters (oc_penalty o') a = counters (oc_penalty o) a) /\
    oc_history o' = match es with [] => oc_history o | _ => write_snapshot (oc_history o) ts es end /\
    Forall row_pos es /\ NoDup es.*1.*1 /\ es.*1.*1 ⊆ targets /\
    (forall h, h ∉ (rd (pair_id_to_hash (oc_pairs o)) <$> targets) -> rd (exchange_rate (oc_rates o')) h = rd (exchange_rate (oc_rates o)) h).
Proof.
  intros Hg Hp Hr Hv He Ha HL Ht. cbv zeta. set (targets := get_vote_targets (oc_pairs o)) in *. pose proof (vote_targets_bound _ Hp) as [Hn Hl].
  destruct (run_tally_ballots vs o bn ts L Hr Hv He Ha HL Ht ltac:(lia)) as (st & [[Ef Hc] (es & Ee & Hpos & Hsub) Hrate] & E). cbn [ts_claims ts_entries ts_rates app] in *. subst es.
  destruct (period_ballots_spec vs o L Hr Hv) as (Hpairs & _ & Hcount). assert (Hne : period_ballots vs o <> []) by (intros E0; by rewrite E0 in Hpairs).
  pose proof (reference_first_perm _ Hne) as Hperm. pose proof (NoDup_active vs Hg) as Hna.
  assert (Hcs : NoDup (ts_claims st).*1) by (by rewrite Ef, <- list_fmap_compose, list_fmap_id).
  eexists _, (ts_entries st). split; [exact E|]. cbn [oc_votes oc_penalty oc_history oc_rates]. split_and!; [by eapply clear_votes_rep| | |done|done| | |].
  - intros a Hin. rewrite count_claims_counters by done. destruct (vote_rows_ok _ _ a Hr Hv) as (Hd & _ & _). pose proof (target_rows_cover targets _ Hd) as [Hle _].
    destruct (Hc a default_claim) as (c & -> & Hm); [rewrite claim_of_default, bool_decide_eq_true_2 by done; done|done|rewrite (all_votes_by_perm a _ _ Hperm), Hcount; change (win_count default_claim) with 0; fold targets; fold targets in Hl; lia|].
    rewrite (all_votes_by_perm a _ _ Hperm), Hcount in Hm. apply outcome_tallied; [done| |exact Hm]. fold targets in Hl. split; [by apply len_pos|exact Hl].
  - intros a Hin. rewrite count_claims_counters by done. rewrite claim_of_None; [done|]. by rewrite Ef, <- list_fmap_compose, list_fmap_id.
  - eapply sublist_NoDup; [|exact Hsub]. rewrite Hperm, Hpairs. exact Hn.
  - intros t Hi. subst targets. rewrite <- Hpairs, <- Hperm. by eapply elem_of_sublist.
  - intros h Hh. apply Hrate. rewrite Hperm. by rewrite (period_ballots_hashes vs o L Hr Hv).
Qed.

(** ** A single pair *)

(** The votes for a pair, in the order they were sent. *)
Definition pair_votes (validators : list ValidatorRecord) (L : list (Address * list row)) (pid : u32) : list VoteForTally :=
  v ← L; (fun r => mkVote r.1.2 r.2 v.1 (power_of validators v.1)) <$> filter (fun r => r.1.1 = pid) v.2.

(** The rates that win around the median of a ballot. *)
Definition winning_band (reward_band : U256) (ballot : list VoteForTally) : U256 * U256 :=
  let median := weighted_median (sort_by_rate ballot) in
  reward_bounds median (default 0 (standard_deviation (sort_by_rate ballot) median)) reward_band.

Lemma collect_one voter power pid h votes es :
  foldl (fun ballots '(pair_id, rate, volume) => push_vote ballots pair_id (mkVote rate volume voter power)) [mkBallot pid h votes] es =
  [mkBallot pid h (votes ++ ((fun r => mkVote r.1.2 r.2 voter power) <$> filter (fun r : row => r.1.1 = pid) es))].
Proof.
  revert votes. induction es as [|[[q rate] vol] es IH]; intros votes; [cbn; by rewrite app_nil_r|]. cbn [foldl push_vote b_pair b_hash b_votes]. rewrite filter_cons. cbn [fst].
  destruct (Z.eqb_spec pid q) as [->|Hne]; rewrite IH.
  - rewrite decide_True by done. by rewrite <- app_assoc.
  - by rewrite decide_False by congruence.
Qed.

Lemma collect_single validators v L pid h : votes_rep v L ->
  collect_ballots validators v [mkBallot pid h []] = [mkBallot pid h (pair_votes validators L pid)].
Proof.
  intros Hr. unfold collect_ballots, pair_votes. rewrite (voters_rep _ _ (vr_list _ _ Hr)). pose proof (vr_rows _ _ Hr) as Hrows. clear Hr.
  enough (Hg : forall votes, foldl (fun ballots voter => let power := power_of validators voter in
    foldl (fun ballots '(pair_id, rate, volume) => push_vote ballots pair_id (mkVote rate volume voter power)) ballots (vote_rows v voter)) [mkBallot pid h votes] L.*1 =
    [mkBallot pid h (votes ++ pair_votes validators L pid)]) by apply (Hg []).
  unfold pair_votes. induction L as [|[a es] L IH]; intros votes; [cbn; by rewrite app_nil_r|]. rewrite fmap_cons, bind_cons. cbn [foldl fst snd]. cbv zeta.
  rewrite (Hrows a es) by left. rewrite collect_one, IH; [by rewrite <- app_assoc|]. intros b fs Hin. apply Hrows. by right.
Qed.

(** Each voter has at most one vote in the ballot of a pair. *)
Lemma pair_votes_NoDup validators L pid : NoDup L.*1 -> votes_ok L -> NoDup (vt_voter <$> pair_votes validators L pid).
Proof.
  unfold pair_votes, votes_ok. induction L as [|[a es] L IH]; intros Hn Hv; [constructor|]. rewrite fmap_cons in Hn. apply NoDup_cons in Hn as [Ha Hn]. apply Forall_cons_1 in Hv as [[Hd _] Hv].
  rewrite bind_cons, fmap_app. cbn [fst snd] in *. apply NoDup_app. split_and!; [| |by apply IH].
  - assert (Hs : (filter (fun r : row => r.1.1 = pid) es).*1.*1 `sublist_of` es.*1.*1) by (do 2 apply fmap_sublist; apply sublist_filter).
    pose proof (sublist_NoDup _ _ Hd Hs) as Hf. pose proof (list_elem_of_filter (fun r : row => r.1.1 = pid) es) as He.
    destruct (filter _ es) as [|r1 [|r2 l]]; [constructor|apply NoDup_singleton|exfalso]. rewrite !fmap_cons in Hf. apply NoDup_cons in Hf as [Hf _]. apply Hf.
    rewrite (proj1 (proj1 (He r1) ltac:(by left))), <- (proj1 (proj1 (He r2) ltac:(by right; left))). by left.
  - intros x (v & -> & (r & -> & _)%list_elem_of_fmap)%list_elem_of_fmap (w & Ew & Hw)%list_elem_of_fmap. cbn [vt_voter] in Ew. apply Ha. rewrite Ew.
    apply list_elem_of_bind in Hw as ([b fs] & (r' & -> & _)%list_elem_of_fmap & Hin). apply list_elem_of_fmap. by exists (b, fs).
Qed.

Lemma mark_votes_exact lo hi l cs a c : NoDup (vt_voter <$> l) -> claim_of cs a = Some c ->
  claim_of (foldl (mark_vote lo hi) cs l) a = Some
    match List.find (fun v => vt_voter v =? a) l with
    | Some v => mark_voted (if (vt_rate v >=? lo) && (vt_rate v <=? hi) then add_win c else c)
    | None => c
    end.
Proof.
  revert cs c. induction l as [|v l IH]; intros cs c Hn Hc; [done|]. rewrite fmap_cons in Hn. apply NoDup_cons in Hn as [Hv Hn]. cbn [foldl List.find].
  assert (Hm : claim_of (mark_vote lo hi cs v) a = Some (if vt_voter v =? a then mark_voted (if (vt_rate v >=? lo) && (vt_rate v <=? hi) then add_win c else c) else c)).
  { unfold mark_vote. rewrite claim_of_update. destruct (vt_voter v =? a) eqn:Ea; destruct (_ && _); rewrite ?claim_of_update, ?Ea, Hc; done. }
  rewrite (IH _ _ Hn Hm). destruct (Z.eqb_spec (vt_voter v) a) as [Ea|]; [|done].
  destruct (List.find _ l) as [w|] eqn:Ew; [exfalso|done]. apply List.find_some in Ew as [Hin Ew]. bools. apply Hv. rewrite Ea, <- Ew. apply list_elem_of_fmap. exists w. split; [done|]. by apply list_elem_of_In.
Qed.

Lemma NoDup_fmap_elem {A B} (f : A -> B) l x y : NoDup (f <$> l) -> x ∈ l -> y ∈ l -> f x = f y -> x = y.
Proof.
  induction l as [|z l IH]; intros Hn Hx Hy E; [by apply not_elem_of_nil in Hx|]. rewrite fmap_cons in Hn. apply NoDup_cons in Hn as [Hz Hn].
  apply elem_of_cons in Hx as [->|Hx], Hy as [->|Hy]; [done| | |by apply IH]; exfalso; apply Hz; [rewrite E|rewrite <- E]; by apply list_elem_of_fmap_2.
Qed.

Lemma find_perm a l l' : l ≡ₚ l' -> NoDup (vt_voter <$> l) -> List.find (fun v => vt_voter v =? a) l = List.find (fun v => vt_voter v =? a) l'.
Proof.
  intros Hp Hn. assert (Hin : forall k k', k ≡ₚ k' -> NoDup (vt_voter <$> k) -> forall v, List.find (fun v => vt_voter v =? a) k = Some v -> List.find (fun v => vt_voter v =? a) k' = Some v).
  { clear. intros k k' Hp Hn v E. apply List.find_some in E as [Hv Ev]. apply list_elem_of_In in Hv. rewrite Hp in Hv. bools. subst a.
    destruct (List.find _ k') as [w|] eqn:E.
    - apply List.find_some in E as [Hw Ew]. apply list_elem_of_In in Hw. bools. f_equal. rewrite Hp in Hn. by eapply (NoDup_fmap_elem vt_voter).
    - apply list_elem_of_In in Hv. pose proof (List.find_none _ _ E v Hv) as Hf. cbn in Hf. bools. done. }
  destruct (List.find _ l) as [v|] eqn:E; [by rewrite (Hin l l' Hp Hn v E)|]. destruct (List.find _ l') as [w|] eqn:E'; [|done].
  rewrite (Hin l' l) with (v := w) in E; [done|done|by rewrite <- Hp|done].
Qed.


(** The tally of the ballots of a single pair. *)
Lemma tally_single band bn ts pid h votes st :
  let m := weighted_median (sort_by_rate votes) in
  exists cs, tally_ballots band bn ts [mkBallot pid h votes] st =
    Ok (if m =? 0 then set_claims st cs else publish bn ts (set_claims st cs) (mkBallot pid h (sort_by_rate votes)) m) /\
    cs.*1 = (ts_claims st).*1 /\
    (NoDup (vt_voter <$> votes) -> forall a c, claim_of (ts_claims st) a = Some c -> claim_of cs a = Some
       match List.find (fun v => vt_voter v =? a) votes with
       | Some v => mark_voted (if (vt_rate v >=? (winning_band band votes).1) && (vt_rate v <=? (winning_band band votes).2) then add_win c else c)
       | None => c
       end).
Proof.
  cbv zeta. change (tally_ballots band bn ts [mkBallot pid h votes] st) with
    (let? (sorted, claims, m) := ok_or (tally_pair votes band (ts_claims st)) PANIC in
     Ok (if m =? 0 then set_claims st claims else publish bn ts (set_claims st claims) (mkBallot pid h sorted) m)).
  unfold tally_pair, winning_band. destruct votes as [|v0 votes]; [exists (ts_claims st); by split_and!|]. set (l := v0 :: votes).
  destruct (standard_deviation_total (sort_by_rate l) (weighted_median (sort_by_rate l))) as (sd & -> & _). cbn [default from_option id].
  destruct (reward_bounds _ _ _) as [lo hi] eqn:Eb. cbn [ok_or fst snd]. exists (foldl (mark_vote lo hi) (ts_claims st) (sort_by_rate l)).
  split; [done|]. split; [apply (mark_votes_step lo hi)|]. intros Hn a c Hc.
  rewrite (mark_votes_exact lo hi _ _ a c); [|by rewrite sort_by_rate_perm|done]. by rewrite (find_perm a (sort_by_rate l) l (sort_by_rate_perm l)) by (by rewrite sort_by_rate_perm).
Qed.

(** C7. The tally of a market with one vote target, such as the default one. The rate
    becomes the power-weighted median of the votes of the period, unless it is zero,
    and one snapshot with it and the summed volume is written; nothing else is
    published. Every active validator is judged by its own vote: a success when the
    rate it sent is within the reward band around the median, a miss when it is
    outside, an abstention when it sent none. *)
Theorem one_pair_tally_exact `{Crypto} vs o bn ts L pid :
  registry_ok vs -> votes_rep (oc_votes o) L -> votes_ok L -> config_enabled (oc_config o) = true -> active_addresses vs <> [] -> L <> [] ->
  get_vote_targets (oc_pairs o) = [pid] ->
  let votes := pair_votes (get_active_validators vs) L pid in
  let median := weighted_median (sort_by_rate votes) in
  let band := winning_band (config_reward_band (oc_config o)) votes in
  exists o', run_tally vs o bn ts = Ok o' /\ votes_rep (oc_votes o') [] /\
    oc_rates o' = (if median =? 0 then oc_rates o else update_exchange_rate (oc_rates o) (rd (pair_id_to_hash (oc_pairs o)) pid) median bn ts) /\
    oc_history o' = (if median =? 0 then oc_history o else write_snapshot (oc_history o) ts [(pid, median, total_volume (sort_by_rate votes))]) /\
    (forall a, a ∈ active_addresses vs -> let '(s, ab, m) := counters (oc_penalty o) a in
       counters (oc_penalty o') a = match List.find (fun v => vt_voter v =? a) votes with
         | None => (s, wadd 64 ab 1, m)
         | Some v => if (band.1 <=? vt_rate v) && (vt_rate v <=? band.2) then (wadd 64 s 1, ab, m) else (s, ab, wadd 64 m 1)
         end).
Proof.
  intros Hg Hr Hv He Ha HL Ht. cbv zeta. set (votes := pair_votes _ L pid). set (h := rd (pair_id_to_hash (oc_pairs o)) pid).
  unfold run_tally. rewrite He. cbn [negb]. pose proof (NoDup_active vs Hg) as Hna. unfold active_addresses in *.
  destruct (tally_single (config_reward_band (oc_config o)) bn ts pid h votes (mkTally (oc_rates o) (oc_events o) ((fun v => (validator_address v, default_claim)) <$> get_active_validators vs) [])) as (cs & Et & Ef & Hc).
  specialize (Hc (pair_votes_NoDup _ L pid (vr_nodup _ _ Hr) Hv)). cbn [ts_claims] in *.
  assert (Hcs : NoDup cs.*1) by (rewrite Ef, <- list_fmap_compose; exact Hna).
  assert (Em : forall x y : res OracleContract, match get_active_validators vs with [] => x | _ :: _ => y end = y) by (intros x y; by destruct (get_active_validators vs)). rewrite Em. clear Em.
  rewrite (proj2 (Z.eqb_neq _ 0)) by (rewrite (proj1 (vr_list _ _ Hr)), length_fmap; destruct L; [done|cbn; lia]).
  rewrite Ht. change (len [pid] mod 2 ^ 32) with 1. cbn [Z.eqb fmap list_fmap]. fold h. rewrite (collect_single _ _ L pid h Hr). fold votes. rewrite Et.
  eexists. split; [reflexivity|]. cbn [oc_votes oc_rates oc_history oc_penalty]. split; [by eapply clear_votes_rep|].
  split; [by destruct (_ =? 0)|]. split; [by destruct (_ =? 0)|]. intros a Hin.
  assert (Ecs : ts_claims (if weighted_median (sort_by_rate votes) =? 0 then set_claims (mkTally (oc_rates o) (oc_events o) ((fun v => (validator_address v, default_claim)) <$> get_active_validators vs) []) cs
    else publish bn ts (set_claims (mkTally (oc_rates o) (oc_events o) ((fun v => (validator_address v, default_claim)) <$> get_active_validators vs) []) cs) (mkBallot pid h (sort_by_rate votes)) (weighted_median (sort_by_rate votes))) = cs) by (by destruct (_ =? 0)).
  rewrite Ecs, count_claims_counters by done. rewrite (Hc a default_claim).
  2: { pose proof (claim_of_default (validator_address <$> get_active_validators vs) a) as Hd. rewrite <- list_fmap_compose, bool_decide_eq_true_2 in Hd by done. exact Hd. }
  unfold outcome. destruct (counters (oc_penalty o) a) as [[s ab] m]. destruct (List.find _ votes) as [v|]; [|done]. rewrite Z.geb_leb. by destruct (_ && _).
Qed.


(** Validator 5 votes for the only pair. *)
Definition sample_ballot : OracleContract :=
  let o := sample_market [] in set_votes o (store_vote (oc_votes o) 5 [(1, 500, 3)]).

Lemma run_tally_exact_witness : exists o', run_tally sample_validators sample_ballot 2 1000 = Ok o' /\ votes_rep (oc_votes o') [] /\ counters (oc_penalty o') 7 = (0, 0, 0).
Proof.
  destruct (@run_tally_exact sample_crypto sample_validators sample_ballot 2 1000 [(5, [(1, 500, 3)])] sample_registry_ok) as (o' & es & E & Hv & _ & Hc & _).
  - unfold sample_ballot, sample_market. cbn [oc_pairs set_votes].
    destruct (register_pair (H := sample_crypto) (mkPairs 0 ∅ ∅ ∅ ∅ ∅) "COEN" "0xUSD") as [[p i]|e] eqn:Ep; [|vm_compute in Ep; discriminate Ep].
    unfold sample_pairs. rewrite Ep. eapply register_pair_ok; [apply pairs_ok_empty|reflexivity|exact Ep].
  - apply (store_vote_rep _ []); [exact votes_rep_empty|intros Hin; inversion Hin|reflexivity|reflexivity].
  - apply Forall_cons_2; [|by apply Forall_nil_2]. split; [apply NoDup_singleton|]. apply Forall_cons_2; [split; cbn; lia|by apply Forall_nil_2].
  - reflexivity.
  - vm_compute. discriminate.
  - discriminate.
  - vm_compute. discriminate.
  - exists o'. split; [exact E|]. split; [exact Hv|]. rewrite Hc; [reflexivity|]. vm_compute. intros Hin. inversion Hin as [|? ? ? Hin2]; inversion Hin2.
Defined.

Lemma registry_stake s a v : registry (wr_val_stake s a v) = registry s.
Proof. by destruct s. Qed.

(** Two units of stake give validator 5 the power to set the rate. *)
Lemma one_pair_tally_exact_witness : let vs := wr_val_stake sample_validators 5 (2 * SCALE_1E18) in
  exists o', @run_tally vs sample_ballot 2 1000 = Ok o' /\
    rd (exchange_rate (oc_rates o')) (rd (pair_id_to_hash sample_pairs) 1) = 500 /\ counters (oc_penalty o') 5 = (1, 0, 0).
Proof.
  intros vs. assert (Hvs : @registry_ok sample_crypto vs) by (eapply registry_ok_ext; [apply registry_stake|exact sample_registry_ok]).
  destruct (@one_pair_tally_exact sample_crypto vs sample_ballot 2 1000 [(5, [(1, 500, 3)])] 1 Hvs) as (o' & E & _ & Hr & _ & Hc).
  - apply (store_vote_rep _ []); [exact votes_rep_empty|intros Hin; inversion Hin|reflexivity|reflexivity].
  - apply Forall_cons_2; [|by apply Forall_nil_2]. split; [apply NoDup_singleton|]. apply Forall_cons_2; [split; cbn; lia|by apply Forall_nil_2].
  - reflexivity.
  - vm_compute. discriminate.
  - discriminate.
  - vm_compute. reflexivity.
  - exists o'. split; [exact E|]. split; [rewrite Hr; vm_compute; reflexivity|].
    assert (Ha : 5 ∈ active_addresses vs) by (apply (bool_decide_eq_true_1 _); vm_compute; reflexivity).
    specialize (Hc 5 Ha). assert (Ep : counters (oc_penalty sample_ballot) 5 = (0, 0, 0)) by reflexivity. rewrite Ep in Hc. rewrite Hc. vm_compute. reflexivity.
Defined.
