(* ===== verification/OracleSlash.v ===== *)
(** * OracleSlash: the slash window of the oracle

    [slash_and_reset_counters] of [crates/system/oracle/src/tally.rs] and the
    begin-zone phase of [hooks.rs] that calls it. It runs on the oracle together with
    the staking world it reads and punishes in: a validator whose share of valid
    votes in the window is too low is jailed and slashed, and all counters start
    again. *)

From S2P Require Import Prelude Native Storage ValidatorSet Staking Slash Oracle OraclePrices OracleTally.

Definition MAX_ORACLE_SLASH_WINDOW_VALIDATORS : Z := 128.

(** The oracle and what it punishes in. *)
Record OracleWorld := mkOracleWorld { ow_oracle : OracleContract; ow_world : World }.

Section SlashWindow.
Context `{Crypto}.
Variable env : BlockEnv.

Definition reset_validator (w : OracleWorld) (addr : Address) : OracleWorld :=
  mkOracleWorld (set_penalty (ow_oracle w) (reset_penalty_counter (oc_penalty (ow_oracle w)) addr)) (ow_world w).

(** The checkpointed block of the window: jail, slash if a fraction is set, reset. *)
Definition punish_underperformer (w : OracleWorld) (addr : Address) : res OracleWorld :=
  let o := ow_oracle w in
  let cw := ow_world w in
  let? vs := jail_validator env (valset cw) addr in
  let cw := mkWorld (staking cw) vs (balance cw) in
  let o := oc_emit o (OracleForcedExit addr) in
  let slash_fraction := config_slash_fraction (oc_config o) in
  let? w := (if slash_fraction =? 0 then Ok (mkOracleWorld o cw) else
             let pct := wmul 256 slash_fraction 100 / SCALE_1E18 in
             ensure pct <? 2 ^ 64 else PANIC in
             if pct >? 0 then
               let? (cw, _) := slash_stake env cw addr pct in
               Ok (mkOracleWorld (oc_emit o (OracleValidatorSlashed addr pct)) cw)
             else Ok (mkOracleWorld o cw)) in
  Ok (reset_validator w addr).

(** The share of valid votes of a validator in the window. *)
Definition valid_rate (p : PenaltyCounters) (addr : Address) : option U256 :=
  let success := rd (penalty_success_count p) addr in
  let total := wadd 64 (wadd 64 success (rd (penalty_abstain_count p) addr)) (rd (penalty_miss_count p) addr) in
  if total =? 0 then None else Some (wmul 256 success SCALE_1E18 / total).

Definition slash_validator (min_valid : U256) (allow_protected : bool) (w : OracleWorld) (v : ValidatorRecord) : res OracleWorld :=
  let addr := validator_address v in
  let p := oc_penalty (ow_oracle w) in
  if allow_protected && rd (protected_validator p) addr then Ok (reset_validator w addr) else
  match valid_rate p addr with
  | None => Ok (reset_validator w addr)
  | Some rate => if rate <? min_valid then punish_underperformer w addr else Ok (reset_validator w addr)
  end.

Definition slash_and_reset_counters (w : OracleWorld) : res OracleWorld :=
  let o := ow_oracle w in
  let all_validators := get_all_validators (valset (ow_world w)) in
  ensure negb (len all_validators >? MAX_ORACLE_SLASH_WINDOW_VALIDATORS) else Revert "Oracle slash-window validator set size exceeds cap" in
  let? w := foldM (slash_validator (config_min_valid_per_window (oc_config o)) (config_allow_protected (oc_config o))) w all_validators in
  let o := ow_oracle w in
  Ok (mkOracleWorld (set_rates o (remove_excess_feeds (oc_pairs o) (oc_rates o))) (ow_world w)).

Definition run_slash_window (w : OracleWorld) : res OracleWorld :=
  let c := oc_config (ow_oracle w) in
  if negb (oracle_is_initialized c) then Ok w else
  if at_boundary (block_number env) (config_slash_window c) then slash_and_reset_counters w else Ok w.

End SlashWindow.

Lemma registry_index vs vs' : registry vs' = registry vs -> address_to_index vs' = address_to_index vs.
Proof. by intros [= E _ _ _ _ _]. Qed.

(** ** One validator *)

(** The percentage a window slashes, zero when no fraction is set. *)
Definition window_percent (c : OracleConfig) : Z := if config_slash_fraction c =? 0 then 0 else wmul 256 (config_slash_fraction c) 100 / SCALE_1E18.

Definition underperforms (o : OracleContract) (a : Address) : bool :=
  negb (config_allow_protected (oc_config o) && rd (protected_validator (oc_penalty o)) a) &&
  match valid_rate (oc_penalty o) a with Some rate => rate <? config_min_valid_per_window (oc_config o) | None => false end.

Lemma slash_validator_eq env o cw v :
  slash_validator env (config_min_valid_per_window (oc_config o)) (config_allow_protected (oc_config o)) (mkOracleWorld o cw) v =
  if underperforms o (validator_address v) then punish_underperformer env (mkOracleWorld o cw) (validator_address v) else Ok (reset_validator (mkOracleWorld o cw) (validator_address v)).
Proof. unfold slash_validator, underperforms. cbv zeta. cbn [ow_oracle]. destruct (_ && rd _ _); [done|]. destruct (valid_rate _ _); [|done]. cbn [negb andb]. done. Qed.

(** What the window does to the oracle at a validator, apart from the events. *)
Definition reset_oracle (o o' : OracleContract) (a : Address) : Prop :=
  oc_config o' = oc_config o /\ oc_pairs o' = oc_pairs o /\
  (oc_rates o' = oc_rates o /\ oc_votes o' = oc_votes o /\ oc_history o' = oc_history o /\ oc_scurves o' = oc_scurves o /\ oc_settlement o' = oc_settlement o) /\
  oc_penalty o' = reset_penalty_counter (oc_penalty o) a.

Lemma counters_reset p a b : counters (reset_penalty_counter p a) b = if decide (b = a) then (0, 0, 0) else counters p b.
Proof. unfold counters, reset_penalty_counter. cbn. rewrite !rd_insert. repeat case_decide; subst; congruence. Qed.

Lemma underperforms_ext o o' a :
  oc_config o' = oc_config o -> counters (oc_penalty o') a = counters (oc_penalty o) a -> rd (protected_validator (oc_penalty o')) a = rd (protected_validator (oc_penalty o)) a ->
  underperforms o' a = underperforms o a.
Proof. unfold underperforms, valid_rate, counters. cbv zeta. intros -> [= -> -> ->] ->. done. Qed.

(** The state a validator's turn leaves to the others. *)
Record turn (a : Address) (w w' : OracleWorld) : Prop := {
  tn_oracle : reset_oracle (ow_oracle w) (ow_oracle w') a;
  tn_status b : b <> a -> rd (val_status (valset (ow_world w'))) b = rd (val_status (valset (ow_world w))) b;
  tn_registry : registry (valset (ow_world w')) = registry (valset (ow_world w))
}.

Lemma slash_status_frame env w a p w' x b : slash_stake env w a p = Ok (w', x) -> b <> a -> rd (val_status (valset w')) b = rd (val_status (valset w)) b.
Proof.
  intros E Hb. unfold slash_stake in E. cbv zeta in E. do 7 inv_ok_step E. apply Ok_inj in E. injection E as <- <-. cbn [valset].
  unfold demote_on_slash. destruct (_ && _ && _); [|done]. cbv zeta. destruct (_ =? status.ACTIVE); [|destruct (_ =? status.PENDING); [|done]]; cbn; by rewrite rd_insert_ne.
Qed.

Lemma punish_turn env w a w' : punish_underperformer env w a = Ok w' -> turn a w w'.
Proof.
  destruct w as [o cw]. unfold punish_underperformer. cbv zeta. cbn [ow_oracle ow_world]. destruct (jail_validator env (valset cw) a) as [vs|] eqn:Ej; [|done].
  pose proof (registry_punish _ _ _ _ _ Ej) as Hr. destruct (punish_status _ _ _ _ _ Ej) as (Hs & _ & _).
  assert (Hs' : forall b, b <> a -> rd (val_status vs) b = rd (val_status (valset cw)) b) by (intros b Hb; destruct Hs as [->|[_ ->]]; [done|by rewrite rd_insert_ne]).
  destruct (_ =? 0); [intros [= <-]; by split|]. destruct (_ <? _); [|done]. destruct (_ >? _); [|intros [= <-]; by split].
  destruct (slash_stake env _ a _) as [[cw' x]|] eqn:Es; [|done]. intros [= <-]. split; [done| |].
  - intros b Hb. cbn. rewrite (slash_status_frame _ _ _ _ _ _ b Es Hb). by apply Hs'.
  - cbn. rewrite (slash_registry _ _ _ _ _ _ Es). exact Hr.
Qed.

Lemma slash_validator_turn env o cw v w' :
  slash_validator env (config_min_valid_per_window (oc_config o)) (config_allow_protected (oc_config o)) (mkOracleWorld o cw) v = Ok w' -> turn (validator_address v) (mkOracleWorld o cw) w'.
Proof. rewrite slash_validator_eq. destruct (underperforms _ _); [apply punish_turn|]. intros [= <-]. by split. Qed.

(** ** A validator that cannot be jailed *)

Lemma turn_under a w w' b : turn a w w' -> b <> a -> underperforms (ow_oracle w') b = underperforms (ow_oracle w) b.
Proof. intros [(H1 & _ & _ & H2) _ _] Hb. apply underperforms_ext; [done|by rewrite H2, counters_reset, decide_False|by rewrite H2]. Qed.

Lemma blocked_fold env a l : forall w,
  NoDup (validator_address <$> l) -> a ∈ validator_address <$> l -> underperforms (ow_oracle w) a = true -> rd (address_to_index (valset (ow_world w))) a <> 0 ->
  rd (val_status (valset (ow_world w))) a = status.PENDING \/ rd (val_status (valset (ow_world w))) a = status.REGISTERED ->
  exists e, foldM (slash_validator env (config_min_valid_per_window (oc_config (ow_oracle w))) (config_allow_protected (oc_config (ow_oracle w)))) w l = Err e.
Proof.
  induction l as [|v l IH]; intros [o cw] Hn Hin Hu Hi Hs; [inversion Hin|]. cbn [foldM ow_oracle ow_world] in *. rewrite fmap_cons in Hn, Hin. apply NoDup_cons in Hn as [Hv Hn].
  destruct (slash_validator env _ _ (mkOracleWorld o cw) v) as [w1|e] eqn:E; [|by exists e]. destruct (decide (a = validator_address v)) as [Ea|Hne].
  - exfalso. rewrite slash_validator_eq, <- Ea, Hu in E. unfold punish_underperformer in E. cbn [ow_oracle ow_world] in E. destruct (jail_refused env (valset cw) a Hi Hs) as [e Ej]. by rewrite Ej in E.
  - apply elem_of_cons in Hin as [?|Hin]; [done|]. apply slash_validator_turn in E. pose proof (tn_oracle _ _ _ E) as (Ec & _). cbn [ow_oracle] in Ec.
    destruct (IH w1 Hn Hin) as [e Ef].
    + by rewrite (turn_under _ _ _ _ E Hne).
    + rewrite (registry_index _ _ (tn_registry _ _ _ E)). exact Hi.
    + by rewrite (tn_status _ _ _ E a Hne).
    + exists e. by rewrite <- Ec.
Qed.

(** A window with one underperformer that cannot be jailed punishes nobody: a
    validator that was jailed and unjailed itself is PENDING, it keeps the misses of
    the window, and the error of jailing it aborts the whole window. The phase is
    reverted, so every other underperformer goes free and no counter is reset. *)
Theorem pending_validator_blocks_window `{Crypto} env w a :
  registry_ok (valset (ow_world w)) -> rd (address_to_index (valset (ow_world w))) a <> 0 -> underperforms (ow_oracle w) a = true ->
  rd (val_status (valset (ow_world w))) a = status.PENDING \/ rd (val_status (valset (ow_world w))) a = status.REGISTERED ->
  exists e, slash_and_reset_counters env w = Err e.
Proof.
  intros Hr Hi Hu Hs. unfold slash_and_reset_counters. cbv zeta. destruct (negb _); [|by eexists].
  assert (Hin : a ∈ validator_address <$> get_all_validators (valset (ow_world w))).
  { destruct (get_validator_Some (valset (ow_world w)) a Hi) as [v Ev]. apply list_elem_of_fmap. exists v. pose proof (get_validator_address _ _ _ Ev) as Ea. split; [done|]. apply elem_of_get_all; [done|]. by rewrite Ea. }
  destruct (blocked_fold env a _ w (NoDup_get_all _ Hr) Hin Hu Hi Hs) as [e ->]. by exists e.
Qed.

(** ** A window that goes through *)

Definition hit (w : OracleWorld) (l : list Address) (b : Address) : bool := bool_decide (b ∈ l) && underperforms (ow_oracle w) b.

(** The window over the validators [l]: counters cleared, underperformers jailed and
    slashed. *)
Record window_effect (pct : Z) (l : list Address) (w w' : OracleWorld) : Prop := {
  we_config : oc_config (ow_oracle w') = oc_config (ow_oracle w);
  we_pairs : oc_pairs (ow_oracle w') = oc_pairs (ow_oracle w);
  we_rates : oc_rates (ow_oracle w') = oc_rates (ow_oracle w);
  we_counters b : counters (oc_penalty (ow_oracle w')) b = if bool_decide (b ∈ l) then (0, 0, 0) else counters (oc_penalty (ow_oracle w)) b;
  we_status b : rd (val_status (valset (ow_world w'))) b = if hit w l b then status.JAILED else rd (val_status (valset (ow_world w))) b;
  we_stake b : rd (stake_amount (staking (ow_world w'))) b =
    rd (stake_amount (staking (ow_world w))) b - if hit w l b then rd (stake_amount (staking (ow_world w))) b * pct / 100 else 0
}.

Lemma slashable_after `{Crypto} env w w' L a p x : slashable env w L p -> world_ok w' L -> felony_effect w w' a p x -> slashable env w' L p.
Proof.
  intros [Hw Hp (d & Hd & Ht) Hx] Hw' [_ _ _ Fb Fa Fc]. split; [done|done| |].
  - exists d. split; [|done]. unfold withdrawal_config in Fc. injection Fc as F1 F2. unfold slashed_withdrawal_delay in *. by rewrite F1, F2.
  - rewrite Fb, decide_True by done. lia.
Qed.

Lemma felony_refl w a : forall vs', val_status vs' = <[a := status.JAILED]> (val_status (valset w)) -> registry vs' = registry (valset w) ->
  felony_effect w (mkWorld (staking w) vs' (balance w)) a 0 0.
Proof. intros vs' E1 E2. split; [done|done|..]; intros; cbn [staking balance]; try case_decide; subst; rewrite ?Z.mul_0_r, ?Zdiv_0_l, ?Z.sub_0_r; done. Qed.

Lemma punish_ok `{Crypto} env w L a :
  slashable env (ow_world w) L (window_percent (oc_config (ow_oracle w))) -> rd (address_to_index (valset (ow_world w))) a <> 0 -> rd (val_status (valset (ow_world w))) a = status.ACTIVE ->
  exists w' x, punish_underperformer env w a = Ok w' /\ world_ok (ow_world w') L /\ felony_effect (ow_world w) (ow_world w') a (window_percent (oc_config (ow_oracle w))) x.
Proof.
  intros Hsl Hi Hs. destruct w as [o cw]. unfold punish_underperformer, window_percent in *. cbv zeta. cbn [ow_oracle ow_world] in *. change (oc_config (oc_emit o _)) with (oc_config o).
  assert (Hjail : exists vs, jail_validator env (valset cw) a = Ok vs /\ world_ok (mkWorld (staking cw) vs (balance cw)) L /\ felony_effect cw (mkWorld (staking cw) vs (balance cw)) a 0 0).
  { destruct (jail_active env (valset cw) a Hi Hs) as (vs & Ej & Est & Er). exists vs. split; [done|]. split; [|by apply felony_refl].
    destruct (sl_world _ _ _ _ Hsl) as (Hq & Hl & Hr). split_and!; [done|done|]. cbn [valset]. by eapply registry_ok_ext. }
  destruct (config_slash_fraction (oc_config o) =? 0).
  { destruct Hjail as (vs & -> & Hw & Hf). by eexists _, _. }
  set (pct := wmul 256 _ 100 / SCALE_1E18) in *. pose proof (sl_percent _ _ _ _ Hsl) as Hp. destruct (Z.ltb_spec pct (2 ^ 64)); [|lia].
  destruct (pct >? 0) eqn:E0; bools.
  - destruct (jail_slash_world env cw L a pct Hsl Hi Hs) as (vs & cw' & x & -> & -> & Hw & Hf). by eexists _, x.
  - assert (pct = 0) as -> by lia. destruct Hjail as (vs & -> & Hw & Hf). by eexists _, _.
Qed.

(** One turn of a validator that is ACTIVE if it underperforms. *)
Lemma slash_validator_ok `{Crypto} env w L v :
  slashable env (ow_world w) L (window_percent (oc_config (ow_oracle w))) -> rd (address_to_index (valset (ow_world w))) (validator_address v) <> 0 ->
  (underperforms (ow_oracle w) (validator_address v) = true -> rd (val_status (valset (ow_world w))) (validator_address v) = status.ACTIVE) ->
  exists w', slash_validator env (config_min_valid_per_window (oc_config (ow_oracle w))) (config_allow_protected (oc_config (ow_oracle w))) w v = Ok w' /\
    turn (validator_address v) w w' /\ slashable env (ow_world w') L (window_percent (oc_config (ow_oracle w))) /\
    window_effect (window_percent (oc_config (ow_oracle w))) [validator_address v] w w'.
Proof.
  intros Hsl Hi Ha. set (a := validator_address v) in *. set (pct := window_percent _) in *.
  assert (Hin : forall b, bool_decide (b ∈ [a]) = bool_decide (b = a)) by (intros b; apply bool_decide_ext; apply list_elem_of_singleton).
  enough (exists w', slash_validator env (config_min_valid_per_window (oc_config (ow_oracle w))) (config_allow_protected (oc_config (ow_oracle w))) w v = Ok w' /\ slashable env (ow_world w') L pct /\
    forall b, rd (val_status (valset (ow_world w'))) b = (if hit w [a] b then status.JAILED else rd (val_status (valset (ow_world w))) b) /\
      rd (stake_amount (staking (ow_world w'))) b = rd (stake_amount (staking (ow_world w))) b - if hit w [a] b then rd (stake_amount (staking (ow_world w))) b * pct / 100 else 0) as (w' & E & Hs' & Hb).
  { destruct w as [o cw]. pose proof (slash_validator_turn env o cw v w' E) as Ht. exists w'. split; [done|]. split; [done|]. split; [done|]. pose proof (tn_oracle _ _ _ Ht) as (E1 & E2 & (E3 & _) & E4).
    split; [done|done|done| |apply Hb|apply Hb]. intros b. rewrite E4, counters_reset, Hin. case_bool_decide; [by rewrite decide_True|by rewrite decide_False]. }
  destruct w as [o cw]. cbn [ow_oracle ow_world] in *. rewrite slash_validator_eq. fold a. unfold hit. cbn [ow_oracle ow_world].
  destruct (underperforms o a) eqn:Eu.
  - destruct (punish_ok env (mkOracleWorld o cw) L a Hsl Hi (Ha eq_refl)) as (w' & x & E & Hw & Hf). exists w'. split; [done|]. split; [by eapply slashable_after|].
    intros b. rewrite (fe_status _ _ _ _ _ Hf), (fe_stake _ _ _ _ _ Hf), rd_insert, Hin. cbn [ow_world]. destruct (decide (b = a)) as [->|Hne].
    + rewrite bool_decide_eq_true_2, Eu by done. cbn [andb]. by rewrite decide_True by done.
    + rewrite bool_decide_eq_false_2 by done. cbn [andb]. by rewrite decide_False by congruence.
  - eexists. split; [done|]. split; [done|]. intros b. rewrite Hin. cbn [reset_validator ow_world]. case_bool_decide as Eb; [rewrite Eb, Eu|]; cbn [andb]; (split; [done|lia]).
Qed.

Lemma window_effect_cons pct a l w w1 w2 :
  a ∉ l -> turn a w w1 -> window_effect pct [a] w w1 -> window_effect pct l w1 w2 -> window_effect pct (a :: l) w w2.
Proof.
  intros Ha Ht [A1 A2 A3 A4 A5 A6] [B1 B2 B3 B4 B5 B6].
  assert (Hb : forall b, hit w (a :: l) b = hit w [a] b || hit w1 l b /\ (hit w [a] b = true -> hit w1 l b = false) /\ (bool_decide (b ∈ a :: l) = bool_decide (b ∈ [a]) || bool_decide (b ∈ l))).
  { intros b. unfold hit. rewrite (bool_decide_ext (b ∈ a :: l) (b = a \/ b ∈ l)), (bool_decide_ext (b ∈ [a]) (b = a)), bool_decide_or by (apply elem_of_cons || apply list_elem_of_singleton).
    destruct (decide (b = a)) as [->|Hne]; [rewrite (bool_decide_eq_true_2 (a = a)), (bool_decide_eq_false_2 (a ∈ l)) by done; cbn [orb andb]; by rewrite orb_false_r|].
    rewrite (bool_decide_eq_false_2 (b = a)), (turn_under _ _ _ b Ht) by done. done. }
  split; [congruence|congruence|congruence|intros b; specialize (Hb b) as (E1 & E2 & E3)..].
  - rewrite B4, A4, E3. by destruct (bool_decide (b ∈ [a])), (bool_decide (b ∈ l)).
  - rewrite B5, A5, E1. by destruct (hit w [a] b), (hit w1 l b).
  - rewrite B6, A6, E1. destruct (hit w [a] b); cbn [orb]; [rewrite (E2 eq_refl); lia|]. rewrite Z.sub_0_r. by destruct (hit w1 l b).
Qed.

Lemma window_effect_nil pct w : window_effect pct [] w w.
Proof. split; try done. intros b. unfold hit. rewrite bool_decide_eq_false_2 by (intros Hn; inversion Hn). cbn [andb]. lia. Qed.

Lemma window_fold `{Crypto} env L l : forall w,
  NoDup (validator_address <$> l) -> slashable env (ow_world w) L (window_percent (oc_config (ow_oracle w))) ->
  (forall v, v ∈ l -> rd (address_to_index (valset (ow_world w))) (validator_address v) <> 0 /\
    (underperforms (ow_oracle w) (validator_address v) = true -> rd (val_status (valset (ow_world w))) (validator_address v) = status.ACTIVE)) ->
  exists w', foldM (slash_validator env (config_min_valid_per_window (oc_config (ow_oracle w))) (config_allow_protected (oc_config (ow_oracle w)))) w l = Ok w' /\
    world_ok (ow_world w') L /\ window_effect (window_percent (oc_config (ow_oracle w))) (validator_address <$> l) w w'.
Proof.
  induction l as [|v l IH]; intros w Hn Hsl Hl; [exists w; split; [done|]; split; [apply Hsl|apply window_effect_nil]|].
  rewrite fmap_cons in *. apply NoDup_cons in Hn as [Hv Hn]. destruct (Hl v ltac:(left)) as [Hi Ha].
  destruct (slash_validator_ok env w L v Hsl Hi Ha) as (w1 & E1 & Ht & Hs1 & We1). pose proof (we_config _ _ _ _ We1) as Ec.
  destruct (IH w1 Hn) as (w2 & E2 & Hw2 & We2); [by rewrite Ec| |].
  - intros u Hu. destruct (Hl u ltac:(by right)) as [Hiu Hau]. assert (Hne : validator_address u <> validator_address v) by (intros Eu; apply Hv; rewrite <- Eu; by apply list_elem_of_fmap_2).
    rewrite (turn_under _ _ _ _ Ht Hne), (tn_status _ _ _ Ht _ Hne). by rewrite (registry_index _ _ (tn_registry _ _ _ Ht)).
  - exists w2. cbn [foldM]. rewrite E1, <- Ec. split; [exact E2|]. split; [done|]. rewrite Ec in *. by eapply window_effect_cons.
Qed.

Lemma remove_excess_feeds_rate p r h :
  rd (exchange_rate (remove_excess_feeds p r)) h = if bool_decide (h ∈ rd (pair_id_to_hash p) <$> pair_ids p) && negb (rd (vote_target p) h) then 0 else rd (exchange_rate r) h.
Proof.
  unfold remove_excess_feeds. revert r. induction (pair_ids p) as [|i l IH]; intros r; [done|]. cbn [foldl]. rewrite IH, fmap_cons.
  set (hi := rd (pair_id_to_hash p) i). rewrite (bool_decide_ext (h ∈ hi :: _) (h = hi \/ h ∈ rd (pair_id_to_hash p) <$> l)), bool_decide_or by apply elem_of_cons.
  destruct (bool_decide (h ∈ _ <$> l) && _) eqn:E; bools.
  - rewrite H, orb_true_r. cbn [andb]. by rewrite H0.
  - destruct (decide (h = hi)) as [->|Hne].
    + rewrite (bool_decide_eq_true_2 (hi = hi)) by done. cbn [orb andb]. destruct (rd (vote_target p) hi); [done|]. cbn. by rewrite rd_insert_eq.
    + rewrite (bool_decide_eq_false_2 (h = hi)) by done. cbn [orb]. rewrite E. destruct (rd (vote_target p) hi); [done|]. cbn. by rewrite rd_insert_ne.
Qed.

(** C14. A slash window in which every underperformer is ACTIVE goes through for any
    registry within the cap: exactly the validators whose share of valid votes is
    below the minimum, and which are not protected, are jailed and lose the
    configured percentage of their stake; every counter starts again at zero, and
    the rates of pairs that are no vote targets are removed. *)
Theorem slash_window_exact `{Crypto} env w L :
  let vs := valset (ow_world w) in let o := ow_oracle w in let all := validator_address <$> get_all_validators vs in
  slashable env (ow_world w) L (window_percent (oc_config o)) -> len all <= MAX_ORACLE_SLASH_WINDOW_VALIDATORS ->
  (forall a, a ∈ all -> underperforms o a = true -> rd (val_status vs) a = status.ACTIVE) ->
  exists w', slash_and_reset_counters env w = Ok w' /\ world_ok (ow_world w') L /\
    (forall a, a ∈ all -> counters (oc_penalty (ow_oracle w')) a = (0, 0, 0)) /\
    (forall a, rd (val_status (valset (ow_world w'))) a = if hit w all a then status.JAILED else rd (val_status vs) a) /\
    (forall a, rd (stake_amount (staking (ow_world w'))) a = rd (stake_amount (staking (ow_world w))) a -
       if hit w all a then rd (stake_amount (staking (ow_world w))) a * window_percent (oc_config o) / 100 else 0) /\
    (forall pid, pid ∈ pair_ids (oc_pairs o) -> rd (exchange_rate (oc_rates (ow_oracle w'))) (rd (pair_id_to_hash (oc_pairs o)) pid) =
       if is_target_id (oc_pairs o) pid then rd (exchange_rate (oc_rates o)) (rd (pair_id_to_hash (oc_pairs o)) pid) else 0).
Proof.
  cbv zeta. intros Hsl Hcap Hact. pose proof (sl_world _ _ _ _ Hsl) as (_ & _ & Hr).
  destruct (window_fold env L (get_all_validators (valset (ow_world w))) w (NoDup_get_all _ Hr) Hsl) as (w' & E & Hw & We).
  { intros v Hv. split; [|apply Hact; by apply list_elem_of_fmap_2]. rewrite elem_of_get_all in Hv by done. rewrite <- get_validator_None. by rewrite Hv. }
  unfold slash_and_reset_counters. cbv zeta. rewrite Z.gtb_ltb, (proj2 (Z.ltb_ge _ _)) by (unfold len in *; rewrite length_fmap in Hcap; lia). cbn [negb]. rewrite E.
  eexists. split; [done|]. cbn [ow_world ow_oracle]. split; [done|]. destruct We as [W1 W2 W3 W4 W5 W6]. split_and!; [|done|done|].
  - intros a Ha. change (oc_penalty (set_rates ?o _)) with (oc_penalty o). by rewrite W4, bool_decide_eq_true_2.
  - intros pid Hpid. change (oc_rates (set_rates _ ?r)) with r. rewrite remove_excess_feeds_rate, W2, W3, bool_decide_eq_true_2 by (by apply list_elem_of_fmap_2).
    unfold is_target_id. cbn [andb]. by destruct (rd (vote_target _) _).
Qed.

(** A tenth of the stake is slashed; validator 5 has one valid vote of a hundred. *)
Definition sample_window (a : Address) : OracleContract :=
  let o := sample_market [] in
  {| o with oc_config := mkOracleConfig 2 20000000000000000 96 50000000000000000 100000000000000000 86400 true true false;
     oc_penalty := mkPenalty (<[a := 1]> ∅) ∅ (<[a := 99]> ∅) ∅ |}.

Lemma slash_window_exact_witness : exists w', slash_and_reset_counters sample_env (mkOracleWorld (sample_window 5) sample_world) = Ok w' /\
  rd (val_status (valset (ow_world w'))) 5 = status.JAILED /\ rd (stake_amount (staking (ow_world w'))) 5 = 2700 /\ counters (oc_penalty (ow_oracle w')) 5 = (0, 0, 0).
Proof.
  assert (Hall : validator_address <$> get_all_validators (valset sample_world) = [5; 6; 7]) by (vm_compute; reflexivity).
  assert (Hst : rd (stake_amount (staking sample_world)) 5 = 3000) by (vm_compute; reflexivity).
  destruct (@slash_window_exact sample_crypto sample_env (mkOracleWorld (sample_window 5) sample_world) sample_entries) as (w' & E & _ & Hc & Hs & Hk & _).
  - split; [exact sample_world_ok|vm_compute; split; discriminate|exists 200; split; vm_compute; reflexivity|vm_compute; reflexivity].
  - cbn [ow_world]. rewrite Hall. vm_compute. discriminate.
  - cbn [ow_world]. rewrite Hall. intros a Ha. repeat (apply elem_of_cons in Ha as [->|Ha]; [vm_compute; done|]). inversion Ha.
  - cbn [ow_world] in *. rewrite Hall in *. exists w'. split; [exact E|]. split; [rewrite Hs; vm_compute; reflexivity|]. split; [rewrite Hk, Hst; vm_compute; reflexivity|]. apply Hc. by left.
Defined.

(** Validator 7 is jailed and unjails itself. *)
Lemma pending_validator_blocks_window_witness : exists vs e,
  unjail_to_pending sample_env sample_validators 7 = Ok vs /\ slash_and_reset_counters sample_env (mkOracleWorld (sample_window 7) (mkWorld (staking sample_world) vs (balance sample_world))) = Err e.
Proof.
  assert (Hu : is_ok (unjail_to_pending sample_env sample_validators 7) = true) by (vm_compute; reflexivity).
  assert (Hx : rd (address_to_index sample_validators) 7 <> 0) by (vm_compute; discriminate).
  destruct (unjail_to_pending sample_env sample_validators 7) as [vs|] eqn:Ej; [|discriminate Hu]. exists vs. apply unjail_status in Ej as (_ & Es & _ & Er & _).
  destruct (@pending_validator_blocks_window sample_crypto sample_env (mkOracleWorld (sample_window 7) (mkWorld (staking sample_world) vs (balance sample_world))) 7) as [e E].
  - exact (registry_ok_ext _ _ Er sample_registry_ok).
  - cbn [ow_world valset]. rewrite (registry_index _ _ Er). exact Hx.
  - vm_compute. reflexivity.
  - left. cbn [ow_world valset]. rewrite Es. apply rd_insert_eq.
  - exists e. split; [reflexivity|exact E].
Defined.
