(* ===== verification/OracleGenesis.v ===== *)
(** * OracleGenesis: the genesis configuration of the oracle, import and export

    [OracleGenesisConfig], [init_from_genesis] and [export_genesis] of
    [crates/system/oracle/src/logic.rs]: the oracle is written from a configuration
    once, and a running oracle is exported to a configuration that another chain can
    start from. The theorem says what such a migration keeps and what it loses. *)

From S2P Require Import Prelude Native Storage ValidatorSet Oracle OraclePrices OracleTally.

(** [GenesisSnapshot] and [GenesisAggregateVote] are a time or a validator with rows,
    [GenesisScurveEntry] is pair, peak day and peak price. *)
Record OracleGenesisConfig := mkGenesis {
  g_vote_period : u64;
  g_reward_band : U256;
  g_slash_window : u64;
  g_min_valid_per_window : U256;
  g_slash_fraction : U256;
  g_lookback_duration : u64;
  g_pairs : list (string * string);
  g_initial_rates : list (string * string * U256);
  g_feeder_delegations : list (Address * Address);
  g_settlement_currencies : list (Z * string * string * string);
  g_reference_currencies : list Z;
  g_penalty_counters : list (Address * u64 * u64 * u64);
  g_aggregate_votes : list (Address * list row);
  g_snapshots : list (u64 * list row);
  g_scurve_entries : list (u32 * u64 * U256);
  g_protected_validators : list Address
}.

Definition default_config : OracleGenesisConfig :=
  mkGenesis 2 20000000000000000 96 50000000000000000 0 86400 [("COEN", "0xUSD")]%string [] [] [] [840] [] [] [] [] [].

Section Genesis.
Context `{Crypto}.

(** ** Import *)

Definition import_pairs (p : PairRegistry) (pairs : list (string * string)) : res PairRegistry :=
  foldM (fun p '(base, quote) => let? (p, _) := register_pair p base quote in Ok p) p pairs.

Definition import_rates (o : OracleContract) (rates : list (string * string * U256)) : res OracleContract :=
  foldM (fun o '(base, quote, rate) => set_exchange_rate o 0 base quote rate 0 0) o rates.

Definition import_feeders (f : gmap Address Address) (l : list (Address * Address)) : gmap Address Address :=
  foldl (fun f '(validator, feeder) => <[validator := feeder]> f) f l.

Definition import_settlement (p : PairRegistry) (x : Settlement) (c : Z * string * string * string) : res Settlement :=
  let '(iso_code, denom, pair_base, pair_quote) := c in
  ensure negb (iso_code =? 0) else Revert "settlement iso_code must be non-zero" in
  ensure negb (str_is_empty denom) else Revert "settlement denom must not be empty" in
  let pair_hash := pair_hash pair_base pair_quote in
  ensure negb (rd (pair_hash_to_id p) pair_hash =? 0) else Revert "settlement pair must be registered" in
  ensure rd (settlement_iso_to_denom x) iso_code =? 0 else Revert "settlement iso_code already registered" in
  let count := settlement_count x in
  Ok {| x with settlement_iso_to_denom := <[iso_code := keccak256 (str_bytes denom)]> (settlement_iso_to_denom x);
        settlement_iso_to_pair := <[iso_code := pair_hash]> (settlement_iso_to_pair x);
        settlement_index_to_iso := <[count := iso_code]> (settlement_index_to_iso x);
        settlement_iso_to_denom_string := <[iso_code := denom]> (settlement_iso_to_denom_string x);
        settlement_count := wadd 32 count 1 |}.

(** The codes seen so far and the array. *)
Definition import_reference (st : list Z * SVec Z) (iso_code : Z) : res (list Z * SVec Z) :=
  let '(seen, v) := st in
  ensure negb (iso_code =? 0) else Revert "reference iso_code must be non-zero" in
  ensure negb (existsb (Z.eqb iso_code) seen) else Revert "duplicate reference iso_code" in
  Ok (iso_code :: seen, vec_push v iso_code).

Definition import_penalties (p : PenaltyCounters) (l : list (Address * u64 * u64 * u64)) : PenaltyCounters :=
  foldl (fun p '(validator, success, abstain, miss) =>
    {| p with penalty_success_count := <[validator := success]> (penalty_success_count p);
       penalty_abstain_count := <[validator := abstain]> (penalty_abstain_count p);
       penalty_miss_count := <[validator := miss]> (penalty_miss_count p) |}) p l.

(** The pairs seen so far in a vote. *)
Definition validate_vote_pair (p : PairRegistry) (seen : list u32) (e : row) : res (list u32) :=
  let pair_id := e.1.1 in
  ensure negb ((pair_id =? 0) || (pair_id >? pair_count p)) else Revert "aggregate vote pair_id must be registered" in
  ensure negb (existsb (Z.eqb pair_id) seen) else Revert "duplicate pair in aggregate vote" in
  let pair_hash := rd (pair_id_to_hash p) pair_id in
  ensure negb (pair_hash =? 0) else Revert "aggregate vote pair metadata missing" in
  ensure rd (vote_target p) pair_hash else Revert "aggregate vote pair is not a vote target" in
  Ok (pair_id :: seen).

(** The validators seen so far. *)
Definition validate_vote (p : PairRegistry) (v : Votes) (seen : list Address) (vote : Address * list row) : res (list Address) :=
  let '(validator, entries) := vote in
  ensure negb (validator =? 0) else Revert "aggregate vote validator must be non-zero" in
  ensure negb (existsb (Z.eqb validator) seen) else Revert "duplicate aggregate vote validator" in
  ensure negb (rd (vote_exists v) validator) else Revert "aggregate vote already exists for validator" in
  ensure negb ((len entries >? 2 ^ 32 - 1) || (len entries mod 2 ^ 32 >? pair_count p)) else Revert "aggregate vote tuple count exceeds registered pair count" in
  let? _ := foldM (validate_vote_pair p) [] entries in
  Ok (validator :: seen).

Definition import_aggregate_votes (p : PairRegistry) (v : Votes) (votes : list (Address * list row)) : res Votes :=
  let? _ := foldM (validate_vote p v) [] votes in
  Ok (foldl (fun v '(validator, entries) => store_vote v validator entries) v votes).

Definition import_snapshots (h : PriceHistory) (l : list (u64 * list row)) : PriceHistory :=
  foldl (fun h s => write_snapshot h s.1 s.2) h l.

Definition import_scurves (c : SCurves) (l : list (u32 * u64 * U256)) : SCurves :=
  foldl (fun c '(pair_id, peak_day, peak_price) => store_scurve_entry c pair_id peak_day peak_price) c l.

Definition import_protected (o : OracleContract) (l : list Address) : OracleContract :=
  match l with
  | [] => o
  | _ =>
      let c := oc_config o in
      let p := oc_penalty o in
      {| o with oc_config := {| c with config_allow_protected := true |};
         oc_penalty := {| p with protected_validator := foldl (fun m validator => <[validator := true]> m) (protected_validator p) l |} |}
  end.

Definition write_config (c : OracleConfig) (g : OracleGenesisConfig) : OracleConfig :=
  {| c with config_vote_period := g_vote_period g; config_reward_band := g_reward_band g; config_slash_window := g_slash_window g;
     config_min_valid_per_window := g_min_valid_per_window g; config_slash_fraction := g_slash_fraction g;
     config_lookback_duration := g_lookback_duration g |}.

Definition mark_initialized (o : OracleContract) : OracleContract :=
  let c := oc_config o in
  set_oc_config o {| c with config_enabled := true; oracle_is_initialized := true |}.

Definition init_from_genesis (o : OracleContract) (g : OracleGenesisConfig) : res OracleContract :=
  if oracle_is_initialized (oc_config o) then Ok o else
  ensure negb (g_vote_period g =? 0) else Revert "vote_period must be > 0" in
  ensure negb (g_slash_window g =? 0) else Revert "slash_window must be > 0" in
  ensure negb (g_lookback_duration g >? MAX_SNAPSHOT_RETENTION_SECONDS) else Revert "lookback_duration exceeds snapshot retention window" in
  let o := set_oc_config o (write_config (oc_config o) g) in
  let? p := import_pairs (oc_pairs o) (g_pairs g) in
  let? o := import_rates (set_pairs o p) (g_initial_rates g) in
  let o := set_feeders o (import_feeders (feeder_delegation o) (g_feeder_delegations g)) in
  let? x := foldM (import_settlement (oc_pairs o)) (oc_settlement o) (g_settlement_currencies g) in
  let? (_, refs) := foldM import_reference ([], reference_currencies x) (g_reference_currencies g) in
  let o := set_settlement o {| x with reference_currencies := refs |} in
  let o := set_penalty o (import_penalties (oc_penalty o) (g_penalty_counters g)) in
  let? v := import_aggregate_votes (oc_pairs o) (oc_votes o) (g_aggregate_votes g) in
  let o := set_votes o v in
  let o := set_history o (import_snapshots (oc_history o) (g_snapshots g)) in
  let o := set_scurves o (import_scurves (oc_scurves o) (g_scurve_entries g)) in
  let o := import_protected o (g_protected_validators g) in
  Ok (mark_initialized o).

(** ** Export *)

(** A loop that pushes one result per element. *)
Definition mapR {A B} (f : A -> res B) (l : list A) : res (list B) := foldM (fun acc a => let? b := f a in Ok (acc ++ [b])) [] l.

Definition export_pair_metadata (p : PairRegistry) (pair_id : u32) : res (string * string * B256) :=
  let hash := rd (pair_id_to_hash p) pair_id in
  ensure negb (hash =? 0) else Revert "missing pair hash" in
  let base := rd (pair_id_to_base p) pair_id in
  let quote := rd (pair_id_to_quote p) pair_id in
  ensure negb (str_is_empty base || str_is_empty quote) else Revert "missing pair string metadata" in
  ensure pair_hash base quote =? hash else Revert "pair string metadata hash mismatch" in
  Ok (base, quote, hash).

Definition export_vote_pair (p : PairRegistry) (v : Votes) (validator : Address) (st : list u32 * list row) (tuple_idx : u32) : res (list u32 * list row) :=
  let '(seen, entries) := st in
  let pair_id := rd (vote_pair_id v) (validator, tuple_idx) in
  ensure negb (pair_id =? 0) else Revert "aggregate vote pair_id must be registered" in
  ensure negb (rd (pair_id_to_hash p) pair_id =? 0) else Revert "aggregate vote pair metadata missing" in
  ensure negb (existsb (Z.eqb pair_id) seen) else Revert "duplicate pair in aggregate vote" in
  Ok (pair_id :: seen, entries ++ [(pair_id, rd (vote_rate v) (validator, tuple_idx), rd (vote_volume v) (validator, tuple_idx))]).

Definition export_vote (p : PairRegistry) (v : Votes) (st : list Address * list (Address * list row)) (voter_idx : u32) : res (list Address * list (Address * list row)) :=
  let '(seen, votes) := st in
  let? validator := ok_or (vec_get (voter_list v) voter_idx) (Revert "missing aggregate vote validator") in
  ensure negb (validator =? 0) else Revert "aggregate vote validator must be non-zero" in
  ensure negb (existsb (Z.eqb validator) seen) else Revert "duplicate aggregate vote validator" in
  ensure rd (vote_exists v) validator else Revert "voter list contains validator without aggregate vote" in
  let? (_, entries) := foldM (export_vote_pair p v validator) ([], []) (seqZ 0 (rd (vote_tuple_count v) validator)) in
  Ok (validator :: seen, votes ++ [(validator, entries)]).

Definition export_aggregate_votes (p : PairRegistry) (v : Votes) : res (list (Address * list row)) :=
  let? (_, votes) := foldM (export_vote p v) ([], []) (seqZ 0 (vlen (voter_list v))) in
  Ok votes.

(** The pairs, and the rates that are not zero. *)
Definition export_pair (o : OracleContract) (st : list (string * string * U256) * list (string * string)) (pair_id : u32) :
    res (list (string * string * U256) * list (string * string)) :=
  let '(rates, pairs) := st in
  let? (base, quote, hash) := export_pair_metadata (oc_pairs o) pair_id in
  let rate := rd (exchange_rate (oc_rates o)) hash in
  let rates := if rate =? 0 then rates else rates ++ [(base, quote, rate)] in
  Ok (rates, pairs ++ [(base, quote)]).

Definition export_settlement (o : OracleContract) (idx : u32) : res (Z * string * string * string) :=
  let x := oc_settlement o in
  let iso_code := rd (settlement_index_to_iso x) idx in
  ensure negb (iso_code =? 0) else Revert "missing settlement iso metadata" in
  let denom := rd (settlement_iso_to_denom_string x) iso_code in
  ensure negb (str_is_empty denom) else Revert "missing settlement denom metadata" in
  ensure rd (settlement_iso_to_denom x) iso_code =? keccak256 (str_bytes denom) else Revert "settlement denom metadata hash mismatch" in
  let pair_id := rd (pair_hash_to_id (oc_pairs o)) (rd (settlement_iso_to_pair x) iso_code) in
  ensure negb (pair_id =? 0) else Revert "settlement pair metadata missing" in
  let? (base, quote, _) := export_pair_metadata (oc_pairs o) pair_id in
  Ok (iso_code, denom, base, quote).

Definition export_feeders (o : OracleContract) (validators : list Address) : list (Address * Address) :=
  omap (fun a => let feeder := rd (feeder_delegation o) a in if feeder =? 0 then None else Some (a, feeder)) validators.

Definition export_penalties (p : PenaltyCounters) (validators : list Address) : list (Address * u64 * u64 * u64) :=
  omap (fun a =>
    let success := rd (penalty_success_count p) a in
    let abstain := rd (penalty_abstain_count p) a in
    let miss := rd (penalty_miss_count p) a in
    if (success >? 0) || (abstain >? 0) || (miss >? 0) then Some (a, success, abstain, miss) else None) validators.

Definition export_snapshots (h : PriceHistory) : list (u64 * list row) :=
  (fun idx => (rd (snapshot_timestamp h) idx, snapshot_rows h idx)) <$> idx_range (snapshot_oldest_idx h) (snapshot_write_idx h).

Definition export_scurves (c : SCurves) : list (u32 * u64 * U256) :=
  (fun idx => (rd (scurve_pair_id c) idx, rd (scurve_peak_day c) idx, rd (scurve_peak_price c) idx)) <$> idx_range (scurve_oldest_idx c) (scurve_count c).

Definition export_protected (o : OracleContract) (validators : list Address) : list Address :=
  if config_allow_protected (oc_config o) then filter (fun a => rd (protected_validator (oc_penalty o)) a = true) validators else [].

Definition export_genesis (o : OracleContract) (validators : list Address) : res OracleGenesisConfig :=
  let c := oc_config o in
  let? (initial_rates, pairs) := foldM (export_pair o) ([], []) (pair_ids (oc_pairs o)) in
  let? aggregate_votes := export_aggregate_votes (oc_pairs o) (oc_votes o) in
  let? settlement_currencies := mapR (export_settlement o) (seqZ 0 (settlement_count (oc_settlement o))) in
  Ok {| g_vote_period := config_vote_period c; g_reward_band := config_reward_band c; g_slash_window := config_slash_window c;
        g_min_valid_per_window := config_min_valid_per_window c; g_slash_fraction := config_slash_fraction c;
        g_lookback_duration := config_lookback_duration c;
        g_pairs := pairs; g_initial_rates := initial_rates;
        g_feeder_delegations := export_feeders o validators;
        g_settlement_currencies := settlement_currencies;
        g_reference_currencies := vec_read_all (reference_currencies (oc_settlement o));
        g_penalty_counters := export_penalties (oc_penalty o) validators;
        g_aggregate_votes := aggregate_votes;
        g_snapshots := export_snapshots (oc_history o);
        g_scurve_entries := export_scurves (oc_scurves o);
        g_protected_validators := export_protected o validators |}.
End Genesis.

(** ** Pairs and rates *)

Definition pair_name (p : PairRegistry) (i : u32) : string * string := (rd (pair_id_to_base p) i, rd (pair_id_to_quote p) i).

(** The second registry holds the first [k] pairs of the first, all of them targets. *)
Record pairs_copy `{Crypto} (p p' : PairRegistry) (k : Z) : Prop := {
  pc_ok : pairs_ok p';
  pc_count : pair_count p' = k;
  pc_name i : 1 <= i <= k -> pair_name p' i = pair_name p i;
  pc_hash i : 1 <= i <= k -> rd (pair_id_to_hash p') i = rd (pair_id_to_hash p) i;
  pc_target i : 1 <= i <= k -> is_target_id p' i = true
}.

Section Pairs.
Context `{KeccakLaws}.

Lemma export_pair_metadata_ok p i :
  pairs_ok p -> 1 <= i <= pair_count p -> export_pair_metadata p i = Ok (pair_name p i, rd (pair_id_to_hash p) i).
Proof.
  intros Hp Hi. destruct (po_name _ Hp i Hi) as [Hn Hh]. unfold export_pair_metadata. cbv zeta.
  rewrite (proj2 (Z.eqb_neq (rd (pair_id_to_hash p) i) 0)) by (rewrite Hh; apply keccak_nonzero, pair_hash_bytes). cbn [negb].
  unfold pair_name_ok in Hn. apply andb_prop in Hn as [_ ->]. by rewrite Hh, Z.eqb_refl.
Qed.

Lemma hash_registered p i : pairs_ok p -> 1 <= i <= pair_count p -> rd (pair_id_to_hash p) i <> 0.
Proof. intros Hp Hi. destruct (po_name _ Hp i Hi) as [_ ->]. apply keccak_nonzero, pair_hash_bytes. Qed.

Definition rate_row (o : OracleContract) (i : u32) : option (string * string * U256) :=
  let rate := rd (exchange_rate (oc_rates o)) (rd (pair_id_to_hash (oc_pairs o)) i) in
  if rate =? 0 then None else Some (pair_name (oc_pairs o) i, rate).

Lemma export_pairs_ok o l rates names :
  pairs_ok (oc_pairs o) -> Forall (fun i => 1 <= i <= pair_count (oc_pairs o)) l ->
  foldM (export_pair o) (rates, names) l = Ok (rates ++ omap (rate_row o) l, names ++ (pair_name (oc_pairs o) <$> l)).
Proof.
  intros Hp Hl. revert rates names. induction Hl as [|i l Hi Hl IH]; intros rates names; [cbn; by rewrite !app_nil_r|].
  cbn [foldM]. unfold export_pair at 1. rewrite export_pair_metadata_ok by done. unfold pair_name at 1. cbv zeta. cbn [omap list_omap]. unfold rate_row at 1. cbv zeta.
  destruct (_ =? 0); rewrite IH, <- ?app_assoc; done.
Qed.

Lemma register_copy p p' k :
  pairs_ok p -> 0 <= k < pair_count p -> pairs_copy p p' k ->
  exists p'' id, register_pair p' (rd (pair_id_to_base p) (k + 1)) (rd (pair_id_to_quote p) (k + 1)) = Ok (p'', id) /\ pairs_copy p p'' (k + 1).
Proof.
  intros Hp Hk [Ho Hc Hn Hh Ht]. pose proof (po_count _ Hp) as Hmax. destruct (po_name _ Hp (k + 1) ltac:(lia)) as [Hname Hhash].
  set (b := rd (pair_id_to_base p) (k + 1)) in *. set (q := rd (pair_id_to_quote p) (k + 1)) in *.
  assert (Hfree : rd (pair_hash_to_id p') (pair_hash b q) = 0).
  { destruct (decide (rd (pair_hash_to_id p') (pair_hash b q) = 0)) as [|Hne]; [done|exfalso]. destruct (po_hash _ Ho _ Hne) as [Hr E]. set (j := rd (pair_hash_to_id p') _) in *.
    rewrite Hh in E by lia. rewrite <- Hhash in E. apply (f_equal (rd (pair_hash_to_id p))) in E. rewrite !(po_id _ Hp) in E by lia. lia. }
  set (p2 := {| pair_count := k + 1; pair_id_to_hash := <[k + 1 := pair_hash b q]> (pair_id_to_hash p'); pair_hash_to_id := <[pair_hash b q := k + 1]> (pair_hash_to_id p');
    vote_target := <[pair_hash b q := true]> (vote_target p'); pair_id_to_base := <[k + 1 := b]> (pair_id_to_base p'); pair_id_to_quote := <[k + 1 := q]> (pair_id_to_quote p') |}).
  assert (E : register_pair p' b q = Ok (p2, k + 1)) by (apply register_pair_Ok; rewrite wadd_small, Hc by lia; done).
  destruct (register_pair_ok p' b q p2 (k + 1) Ho ltac:(lia) E) as (Hok & _ & _). exists p2, (k + 1). split; [exact E|]. clear E.
  split; [exact Hok|done|..]; intros i Hi; unfold pair_name, is_target_id; cbn [p2 pair_id_to_base pair_id_to_quote pair_id_to_hash vote_target]; destruct (decide (i = k + 1)) as [->|Hne].
  - by rewrite !rd_insert_eq.
  - rewrite !rd_insert_ne by lia. apply Hn. lia.
  - by rewrite rd_insert_eq.
  - rewrite rd_insert_ne by lia. apply Hh. lia.
  - by rewrite !rd_insert_eq.
  - rewrite (rd_insert_ne (pair_id_to_hash p')) by lia. rewrite rd_insert. case_decide; [done|]. apply Ht. lia.
Qed.

Lemma import_pairs_copy p n :
  pairs_ok p -> Z.of_nat n <= pair_count p ->
  exists p', import_pairs (mkPairs 0 ∅ ∅ ∅ ∅ ∅) (pair_name p <$> seqZ 1 (Z.of_nat n)) = Ok p' /\ pairs_copy p p' (Z.of_nat n).
Proof.
  intros Hp. induction n as [|n IH]; intros Hn.
  { eexists. split; [done|]. split; [apply pairs_ok_empty|done|lia|lia|lia]. }
  destruct IH as (p1 & E1 & C1); [lia|]. destruct (register_copy p p1 (Z.of_nat n) Hp ltac:(lia) C1) as (p2 & id & E2 & C2). exists p2.
  rewrite seqZ_S, fmap_app. unfold import_pairs in *. rewrite foldM_app, E1. cbn [fmap list_fmap foldM]. unfold pair_name. replace (1 + Z.of_nat n) with (Z.of_nat n + 1) by lia. rewrite E2.
  split; [done|]. by replace (Z.of_nat (S n)) with (Z.of_nat n + 1) by lia.
Qed.

Lemma copy_ids p p' h : pairs_ok p -> pairs_copy p p' (pair_count p) -> rd (pair_hash_to_id p') h = rd (pair_hash_to_id p) h.
Proof.
  intros Hp [Ho Hc _ Hh _]. destruct (decide (rd (pair_hash_to_id p) h = 0)) as [E0|Hne].
  - rewrite E0. destruct (decide (rd (pair_hash_to_id p') h = 0)) as [|Hne']; [done|exfalso]. destruct (po_hash _ Ho _ Hne') as [Hr E]. rewrite Hc in Hr. rewrite Hh in E by lia.
    rewrite <- E, (po_id _ Hp) in E0 by lia. lia.
  - destruct (po_hash _ Hp _ Hne) as [Hr E]. rewrite <- E at 1. rewrite <- Hh by lia. apply (po_id _ Ho). lia.
Qed.

(** Whether an element of a list satisfies a test. *)
Lemma member_cons (a b : Z) l (t : bool) : bool_decide (b ∈ a :: l) && t = (bool_decide (b = a) && t) || (bool_decide (b ∈ l) && t).
Proof. rewrite (bool_decide_ext (b ∈ a :: l) (b = a \/ b ∈ l)), bool_decide_or, andb_orb_distrib_l by apply elem_of_cons. done. Qed.

Lemma import_rates_ok o l : forall o1,
  pairs_ok (oc_pairs o) -> Forall (fun i => 1 <= i <= pair_count (oc_pairs o) /\ rd (pair_hash_to_id (oc_pairs o1)) (rd (pair_id_to_hash (oc_pairs o)) i) <> 0) l ->
  exists r, import_rates o1 (omap (rate_row o) l) = Ok (set_rates o1 r) /\
    (forall h, (rd (exchange_rate_block (oc_rates o1)) h = 0 -> rd (exchange_rate_block r) h = 0) /\ (rd (exchange_rate_timestamp (oc_rates o1)) h = 0 -> rd (exchange_rate_timestamp r) h = 0)) /\
    forall h, rd (exchange_rate r) h = if bool_decide (h ∈ rd (pair_id_to_hash (oc_pairs o)) <$> l) && negb (rd (exchange_rate (oc_rates o)) h =? 0)
                                      then rd (exchange_rate (oc_rates o)) h else rd (exchange_rate (oc_rates o1)) h.
Proof.
  intros o1 Hp Hl. revert o1 Hl. induction l as [|i l IH]; intros o1 Hl; [exists (oc_rates o1); split; [by destruct o1|split; [by intros h|done]]|].
  apply Forall_cons_1 in Hl as [[Hi Hr] Hl]. set (h0 := rd (pair_id_to_hash (oc_pairs o)) i) in *. cbn [omap list_omap]. unfold rate_row at 1. cbv zeta. fold h0. destruct (Z.eqb_spec (rd (exchange_rate (oc_rates o)) h0) 0) as [E0|E0].
  - destruct (IH o1 Hl) as (r & E & Ht & Hh). exists r. split; [exact E|]. split; [exact Ht|]. intros h. rewrite Hh, fmap_cons, member_cons. fold h0. destruct (decide (h = h0)) as [->|Hne]; [rewrite E0; cbn [Z.eqb negb]; by rewrite !andb_false_r|by rewrite (bool_decide_eq_false_2 (h = h0))].
  - set (o2 := set_rates o1 (update_exchange_rate (oc_rates o1) h0 (rd (exchange_rate (oc_rates o)) h0) 0 0)). destruct (IH o2 Hl) as (r & E & Ht & Hh). exists r. split; [|split].
    + unfold import_rates in *. cbn [foldM]. unfold pair_name at 1, set_exchange_rate at 1. cbv zeta. cbn [Z.eqb]. destruct (po_name _ Hp i Hi) as [_ <-]. fold h0. rewrite (proj2 (Z.eqb_neq _ 0)) by done. exact E.
    + intros h. destruct (Ht h) as [T1 T2]. cbn [o2 set_rates oc_rates update_exchange_rate exchange_rate_block exchange_rate_timestamp] in T1, T2. rewrite rd_insert in T1, T2. split; intros Ez; [apply T1|apply T2]; by case_decide.
    + intros h. rewrite Hh, fmap_cons, member_cons. fold h0. destruct (bool_decide (h ∈ _ <$> l) && _) eqn:Em; [by rewrite orb_true_r|]. rewrite orb_false_r. cbn [o2 set_rates oc_rates update_exchange_rate exchange_rate]. rewrite rd_insert.
      destruct (decide (h = h0)) as [->|Hne].
      * rewrite bool_decide_eq_true_2, decide_True, (proj2 (Z.eqb_neq _ 0)) by done. done.
      * rewrite (bool_decide_eq_false_2 (h = h0)), decide_False by congruence. done.
Qed.
End Pairs.

(** ** Feeders, counters and protection *)

Lemma import_feeders_ok o l : forall f a,
  rd (import_feeders f (export_feeders o l)) a = if bool_decide (a ∈ l) && negb (rd (feeder_delegation o) a =? 0) then rd (feeder_delegation o) a else rd f a.
Proof.
  unfold import_feeders, export_feeders. induction l as [|b l IH]; intros f a; [done|]. cbn [omap list_omap]. cbv zeta. rewrite member_cons.
  destruct (Z.eqb_spec (rd (feeder_delegation o) b) 0) as [E0|E0]; cbn [foldl]; rewrite IH; destruct (bool_decide (a ∈ l) && _) eqn:Em; rewrite ?orb_true_r, ?orb_false_r; try done.
  - destruct (decide (a = b)) as [->|Hne]; [rewrite E0; cbn [Z.eqb negb]; by rewrite andb_false_r|by rewrite (bool_decide_eq_false_2 (a = b))].
  - rewrite rd_insert. destruct (decide (a = b)) as [->|Hne].
    + rewrite bool_decide_eq_true_2, decide_True, (proj2 (Z.eqb_neq _ 0)) by done. done.
    + rewrite (bool_decide_eq_false_2 (a = b)), decide_False by congruence. done.
Qed.

Lemma import_penalties_ok p l : forall q a,
  (forall b, let '(s, ab, m) := counters p b in 0 <= s /\ 0 <= ab /\ 0 <= m) -> counters q a = (0, 0, 0) \/ counters q a = counters p a ->
  counters (import_penalties q (export_penalties p l)) a = (if bool_decide (a ∈ l) then counters p a else counters q a) /\
  protected_validator (import_penalties q (export_penalties p l)) = protected_validator q.
Proof.
  unfold import_penalties, export_penalties. induction l as [|b l IH]; intros q a Hp Hq; [done|]. cbn [omap list_omap]. cbv zeta.
  rewrite (bool_decide_ext (a ∈ b :: l) (a = b \/ a ∈ l)), bool_decide_or by apply elem_of_cons. pose proof (Hp b) as Hb. unfold counters in Hb.
  destruct ((_ >? 0) || (_ >? 0) || (_ >? 0)) eqn:E; cbn [foldl]; bools.
  - set (q1 := {| q with penalty_success_count := _; penalty_abstain_count := _; penalty_miss_count := _ |}).
    assert (E1 : counters q1 a = if decide (b = a) then counters p a else counters q a) by (unfold counters; cbn; rewrite !rd_insert; case_decide; subst; done).
    destruct (IH q1 a Hp) as [-> ->]; [rewrite E1; case_decide; auto|]. split; [|done]. rewrite E1. destruct (bool_decide (a ∈ l)); rewrite ?orb_true_r, ?orb_false_r; [done|].
    case_bool_decide; [by rewrite decide_True by congruence|by rewrite decide_False by congruence].
  - destruct (IH q a Hp Hq) as [-> ->]. split; [|done]. destruct (bool_decide (a ∈ l)); rewrite ?orb_true_r, ?orb_false_r; [done|]. case_bool_decide as Ea; [|done]. subst b.
    assert (counters p a = (0, 0, 0)) as -> by (unfold counters; f_equal; [f_equal|]; lia). by destruct Hq as [?|Hq]; [|rewrite Hq; unfold counters; f_equal; [f_equal|]; lia].
Qed.

(** ** Settlement currencies *)

Definition iso_at (x : Settlement) (i : u32) : Z := rd (settlement_index_to_iso x) i.

Record settlement_ok `{Crypto} (p : PairRegistry) (x : Settlement) : Prop := {
  st_count : 0 <= settlement_count x < 2 ^ 32;
  st_iso i : 0 <= i < settlement_count x -> iso_at x i <> 0;
  st_inj i j : 0 <= i < settlement_count x -> 0 <= j < settlement_count x -> iso_at x i = iso_at x j -> i = j;
  st_denom i : 0 <= i < settlement_count x -> str_is_empty (rd (settlement_iso_to_denom_string x) (iso_at x i)) = false /\
    rd (settlement_iso_to_denom x) (iso_at x i) = keccak256 (str_bytes (rd (settlement_iso_to_denom_string x) (iso_at x i)));
  st_pair i : 0 <= i < settlement_count x -> rd (pair_hash_to_id p) (rd (settlement_iso_to_pair x) (iso_at x i)) <> 0;
  st_only iso : (forall i, 0 <= i < settlement_count x -> iso_at x i <> iso) -> rd (settlement_iso_to_denom x) iso = 0
}.

(** The first [k] currencies copied. *)
Record settlement_copy `{Crypto} (p : PairRegistry) (x x' : Settlement) (k : Z) : Prop := {
  sc_ok : settlement_ok p x';
  sc_count : settlement_count x' = k;
  sc_iso i : 0 <= i < k -> iso_at x' i = iso_at x i;
  sc_rows i : 0 <= i < k -> rd (settlement_iso_to_denom x') (iso_at x i) = rd (settlement_iso_to_denom x) (iso_at x i) /\
    rd (settlement_iso_to_denom_string x') (iso_at x i) = rd (settlement_iso_to_denom_string x) (iso_at x i) /\
    rd (settlement_iso_to_pair x') (iso_at x i) = rd (settlement_iso_to_pair x) (iso_at x i);
  sc_refs : reference_currencies x' = mkVec 0 ∅
}.

Definition settlement_row (o : OracleContract) (i : u32) : Z * string * string * string :=
  let x := oc_settlement o in
  let name := pair_name (oc_pairs o) (rd (pair_hash_to_id (oc_pairs o)) (rd (settlement_iso_to_pair x) (iso_at x i))) in
  (iso_at x i, rd (settlement_iso_to_denom_string x) (iso_at x i), name.1, name.2).

Lemma mapR_ok {A B} (f : A -> res B) (g : A -> B) l : Forall (fun a => f a = Ok (g a)) l -> mapR f l = Ok (g <$> l).
Proof.
  intros Hl. unfold mapR. enough (Hg : forall acc, foldM (fun acc a => let? b := f a in Ok (acc ++ [b])) acc l = Ok (acc ++ (g <$> l))) by apply Hg.
  induction Hl as [|a l Ha Hl IH]; intros acc; [cbn; by rewrite app_nil_r|]. cbn [foldM]. rewrite Ha, IH, fmap_cons, <- app_assoc. done.
Qed.

Section SettlementCopy.
Context `{KeccakLaws}.

Lemma export_settlement_ok o i :
  pairs_ok (oc_pairs o) -> settlement_ok (oc_pairs o) (oc_settlement o) -> 0 <= i < settlement_count (oc_settlement o) -> export_settlement o i = Ok (settlement_row o i).
Proof.
  intros Hp Hx Hi. unfold export_settlement, settlement_row. cbv zeta. change (rd (settlement_index_to_iso ?x) i) with (iso_at x i).
  rewrite (proj2 (Z.eqb_neq _ 0)) by by apply (st_iso _ _ Hx). destruct (st_denom _ _ Hx i Hi) as [-> ->]. cbn [negb]. rewrite Z.eqb_refl.
  pose proof (st_pair _ _ Hx i Hi) as Hr. rewrite (proj2 (Z.eqb_neq _ 0)) by done. destruct (po_hash _ Hp _ Hr) as [Hb _]. by rewrite export_pair_metadata_ok.
Qed.

Lemma settlement_ok_empty p : settlement_ok p (mkSettlement 0 ∅ ∅ ∅ ∅ (mkVec 0 ∅)).
Proof. split; cbn; try (intros; lia). intros iso _. by rewrite rd_empty. Qed.

Lemma import_settlement_copy o p x k :
  pairs_ok (oc_pairs o) -> settlement_ok (oc_pairs o) (oc_settlement o) -> (forall h, rd (pair_hash_to_id p) h = rd (pair_hash_to_id (oc_pairs o)) h) ->
  0 <= k < settlement_count (oc_settlement o) -> settlement_copy p (oc_settlement o) x k ->
  exists x', import_settlement p x (settlement_row o k) = Ok x' /\ settlement_copy p (oc_settlement o) x' (k + 1).
Proof.
  intros Hp Hx Hid Hk [Ho Hc Hi Hr Hrefs]. unfold import_settlement, settlement_row. cbv zeta. set (s := oc_settlement o) in *. set (iso := iso_at s k).
  pose proof (st_iso _ _ Hx k Hk) as Hiso. fold iso in Hiso. destruct (st_denom _ _ Hx k Hk) as [Hd Hh]. fold iso in Hd, Hh. pose proof (st_pair _ _ Hx k Hk) as Hpair. fold iso in Hpair.
  destruct (po_hash _ Hp _ Hpair) as [Hb Eh]. destruct (po_name _ Hp _ Hb) as [_ En]. unfold pair_name. cbn [fst snd]. rewrite <- En, Eh, Hid, Hd, (proj2 (Z.eqb_neq iso 0)), (proj2 (Z.eqb_neq _ 0)) by done. cbn [negb].
  assert (Hfree : rd (settlement_iso_to_denom x) iso = 0). { apply (st_only _ _ Ho). rewrite Hc. intros i Hii E. rewrite Hi in E by lia. apply (st_inj _ _ Hx) in E; lia. }
  rewrite Hfree. cbn [Z.eqb]. pose proof (st_count _ _ Hx). eexists. split; [done|]. rewrite wadd_small, Hc by lia.
  assert (Hat : forall i, rd (<[k := iso]> (settlement_index_to_iso x)) i = if decide (i = k) then iso else iso_at x i) by (intros i; rewrite rd_insert; destruct (decide (i = k)) as [->|]; [by rewrite decide_True|by rewrite decide_False by congruence]).
  assert (Hne : forall i, 0 <= i < k -> iso <> iso_at s i) by (intros i Hii E; apply (st_inj _ _ Hx) in E; lia).
  split; cbn; [split; cbn|done|..]; unfold iso_at; cbn; rewrite ?Hc.
  - lia.
  - intros i Hii. rewrite Hat. case_decide; [done|]. rewrite Hi by lia. apply (st_iso _ _ Hx). lia.
  - intros i j Hii Hjj. rewrite !Hat. repeat case_decide; subst; try done; rewrite ?Hi by lia; intros E; [by apply Hne in E; [|lia]|symmetry in E; by apply Hne in E; [|lia]|]. apply (st_inj _ _ Hx) in E; lia.
  - intros i Hii. rewrite Hat. case_decide; [by rewrite !rd_insert_eq|]. rewrite Hi by lia. rewrite !rd_insert_ne by (apply Hne; lia). destruct (Hr i ltac:(lia)) as (-> & -> & _). apply (st_denom _ _ Hx). lia.
  - intros i Hii. rewrite Hat, Hid. case_decide; [by rewrite rd_insert_eq|]. rewrite Hi by lia. rewrite rd_insert_ne by (apply Hne; lia). destruct (Hr i ltac:(lia)) as (_ & _ & ->). apply (st_pair _ _ Hx). lia.
  - intros iso' Hn. rewrite rd_insert. case_decide as E; [exfalso; apply (Hn k ltac:(lia)); rewrite Hat, decide_True by done; done|].
    apply (st_only _ _ Ho). rewrite Hc. intros i Hii E'. apply (Hn i ltac:(lia)). rewrite Hat, decide_False by lia. done.
  - intros i Hii. rewrite Hat. case_decide; [by subst|]. apply Hi. lia.
  - intros i Hii. destruct (decide (i = k)) as [->|Hik]; [change (rd (settlement_index_to_iso s) k) with iso; by rewrite !rd_insert_eq, Hh|]. change (rd (settlement_index_to_iso s) i) with (iso_at s i). rewrite !rd_insert_ne by (apply Hne; lia). apply Hr. lia.
  - exact Hrefs.
Qed.

Lemma import_settlements o p n :
  pairs_ok (oc_pairs o) -> settlement_ok (oc_pairs o) (oc_settlement o) -> (forall h, rd (pair_hash_to_id p) h = rd (pair_hash_to_id (oc_pairs o)) h) ->
  Z.of_nat n <= settlement_count (oc_settlement o) ->
  exists x, foldM (import_settlement p) (mkSettlement 0 ∅ ∅ ∅ ∅ (mkVec 0 ∅)) (settlement_row o <$> seqZ 0 (Z.of_nat n)) = Ok x /\ settlement_copy p (oc_settlement o) x (Z.of_nat n).
Proof.
  intros Hp Hx Hid. induction n as [|n IH]; intros Hn; [eexists; split; [done|]; split; [apply settlement_ok_empty|done|lia|lia|done]|].
  destruct IH as (x1 & E1 & C1); [lia|]. destruct (import_settlement_copy o p x1 (Z.of_nat n) Hp Hx Hid ltac:(lia) C1) as (x2 & E2 & C2). exists x2.
  rewrite seqZ_S, fmap_app, foldM_app, E1. cbn [fmap list_fmap foldM]. rewrite Z.add_0_l, E2. split; [done|]. by replace (Z.of_nat (S n)) with (Z.of_nat n + 1) by lia.
Qed.
End SettlementCopy.

(** ** Reference currencies *)

Lemma existsb_elem (a : Z) l : existsb (Z.eqb a) l = bool_decide (a ∈ l).
Proof.
  apply Bool.eq_iff_eq_true. rewrite bool_decide_eq_true, existsb_exists. setoid_rewrite <- list_elem_of_In.
  split; [intros (x & Hx & E); bools; by subst|]. intros Hx. exists a. split; [done|apply Z.eqb_refl].
Qed.

Lemma import_references_ok R : forall seen v R0,
  vec_rep v R0 -> NoDup R -> (forall r, r ∈ R -> r <> 0 /\ r ∉ seen) -> len R0 + len R < 2 ^ 32 ->
  exists seen' v', foldM import_reference (seen, v) R = Ok (seen', v') /\ vec_rep v' (R0 ++ R).
Proof.
  induction R as [|r R IH]; intros seen v R0 Hv Hn Hr Hl; [exists seen, v; by rewrite app_nil_r|]. apply NoDup_cons in Hn as [Hnr Hn]. destruct (Hr r ltac:(left)) as [H0 Hs].
  unfold len in *. cbn [length] in Hl. destruct (IH (r :: seen) (vec_push v r) (R0 ++ [r])) as (seen' & v' & E & Hv').
  - apply vec_rep_push; [done|]. rewrite (proj1 Hv). lia.
  - done.
  - intros r' Hr'. destruct (Hr r' ltac:(by right)) as [? ?]. split; [done|]. apply not_elem_of_cons. split; [intros ->; contradiction|done].
  - rewrite length_app. cbn [length]. lia.
  - exists seen', v'. cbn [foldM]. unfold import_reference at 1. rewrite (proj2 (Z.eqb_neq r 0)), existsb_elem, bool_decide_eq_false_2 by done. cbn [negb]. rewrite E. split; [done|]. by rewrite <- app_assoc in Hv'.
Qed.

(** ** Pending votes *)

Definition vote_wf (p : PairRegistry) (v : Address * list row) : Prop :=
  v.1 <> 0 /\ NoDup v.2.*1.*1 /\ Forall (fun e => 1 <= e.1.1 <= pair_count p) v.2 /\ Forall row_nonneg v.2.

Section VotesCopy.
Context `{KeccakLaws}.

Lemma vote_wf_len p v : 0 <= pair_count p -> vote_wf p v -> len v.2 <= pair_count p.
Proof.
  intros Hc (_ & Hn & Hf & _). assert (Hs : v.2.*1.*1 ⊆+ seqZ 1 (pair_count p)).
  { apply NoDup_submseteq; [done|]. intros i (x & -> & (e & -> & He)%list_elem_of_fmap)%list_elem_of_fmap. rewrite Forall_forall in Hf. specialize (Hf e He). apply elem_of_seqZ. lia. }
  apply submseteq_length in Hs. rewrite !length_fmap, length_seqZ in Hs. unfold len. lia.
Qed.

Definition vote_row_at (v : Votes) (a : Address) (i : u32) : row := (rd (vote_pair_id v) (a, i), rd (vote_rate v) (a, i), rd (vote_volume v) (a, i)).

Lemma export_vote_pairs_ok p v a l : forall seen es,
  pairs_ok p -> NoDup (vote_row_at v a <$> l).*1.*1 -> Forall (fun e => 1 <= e.1.1 <= pair_count p /\ e.1.1 ∉ seen) (vote_row_at v a <$> l) ->
  exists seen', foldM (export_vote_pair p v a) (seen, es) l = Ok (seen', es ++ (vote_row_at v a <$> l)).
Proof.
  induction l as [|i l IH]; intros seen es Hp Hn Hf; [exists seen; by rewrite app_nil_r|]. rewrite !fmap_cons in Hn. rewrite fmap_cons in Hf. apply NoDup_cons in Hn as [Hni Hn]. apply Forall_cons_1 in Hf as [[Hr Hs] Hf].
  cbn [vote_row_at fst] in Hni, Hr, Hs. destruct (IH (rd (vote_pair_id v) (a, i) :: seen) (es ++ [vote_row_at v a i]) Hp Hn) as [seen' E].
  - apply Forall_forall. intros e He. rewrite Forall_forall in Hf. destruct (Hf e He) as [? ?]. split; [done|]. apply not_elem_of_cons. split; [|done]. intros Ee. apply Hni. rewrite <- Ee. by do 2 apply list_elem_of_fmap_2.
  - exists seen'. cbn [foldM]. unfold export_vote_pair at 1. cbv zeta. rewrite (proj2 (Z.eqb_neq _ 0)) by lia. cbn [negb]. rewrite (proj2 (Z.eqb_neq (rd (pair_id_to_hash p) _) 0)) by (by apply hash_registered). cbn [negb].
    rewrite existsb_elem, bool_decide_eq_false_2 by done. cbn [negb]. change (rd (vote_pair_id v) (a, i), _, _) with (vote_row_at v a i). rewrite E, fmap_cons, <- app_assoc. done.
Qed.

Lemma export_votes_prefix p v L n :
  pairs_ok p -> votes_rep v L -> Forall (vote_wf p) L -> (n <= length L)%nat ->
  exists seen, foldM (export_vote p v) ([], []) (seqZ 0 (Z.of_nat n)) = Ok (seen, take n L) /\ (forall a, a ∈ seen <-> a ∈ (take n L).*1).
Proof.
  intros Hp Hv Hw. induction n as [|n IH]; intros Hn; [exists []; done|]. destruct IH as (seen & E & Hs); [lia|].
  destruct (lookup_lt_is_Some_2 L n ltac:(lia)) as [[a es] El]. rewrite seqZ_S, foldM_app, E. cbn [foldM]. rewrite Z.add_0_l. unfold export_vote.
  rewrite (vec_rep_get _ L.*1) by (apply Hv || lia). rewrite Nat2Z.id, list_lookup_fmap, El. cbn [ok_or fmap option_fmap option_map fst].
  assert (Hin : (a, es) ∈ L) by (by eapply list_elem_of_lookup_2). rewrite Forall_forall in Hw. destruct (Hw _ Hin) as (Hz & Hnd & Hf & _). cbn [fst snd] in *.
  rewrite (proj2 (Z.eqb_neq a 0)) by done. cbn [negb]. assert (Ha : a ∉ (take n L).*1).
  { intros (x & Ex & Hx)%list_elem_of_fmap. apply list_elem_of_lookup in Hx as [j Hj]. apply lookup_take_Some in Hj as [Hj Hjn].
    pose proof (NoDup_lookup _ j n a (vr_nodup _ _ Hv)) as Hq. rewrite !list_lookup_fmap, Hj, El in Hq. cbn in Hq. rewrite Ex in Hq. specialize (Hq eq_refl eq_refl). lia. }
  rewrite existsb_elem, bool_decide_eq_false_2 by (by rewrite Hs). cbn [negb]. rewrite (vr_exists _ _ Hv a), bool_decide_eq_true_2 by (apply list_elem_of_fmap; by exists (a, es)).
  assert (Er : vote_row_at v a <$> seqZ 0 (rd (vote_tuple_count v) a) = es) by exact (vr_rows _ _ Hv a es Hin).
  destruct (export_vote_pairs_ok p v a (seqZ 0 (rd (vote_tuple_count v) a)) [] [] Hp) as [seen' ->]; [by rewrite Er|rewrite Er; eapply Forall_impl; [exact Hf|]; intros e He; split; [done|intros X; inversion X]|].
  cbn [app]. rewrite Er. exists (a :: seen). rewrite (take_S_r _ _ _ El). split; [done|]. intros b. rewrite fmap_app, elem_of_app, elem_of_cons, Hs. cbn [fmap list_fmap fst]. rewrite list_elem_of_singleton. tauto.
Qed.

Lemma export_aggregate_votes_ok p v L : pairs_ok p -> votes_rep v L -> Forall (vote_wf p) L -> export_aggregate_votes p v = Ok L.
Proof.
  intros Hp Hv Hw. unfold export_aggregate_votes. rewrite (proj1 (vr_list _ _ Hv)), length_fmap. destruct (export_votes_prefix p v L (length L) Hp Hv Hw ltac:(lia)) as (seen & -> & _). by rewrite firstn_all.
Qed.

Lemma validate_pairs_ok p es : forall seen,
  pairs_ok p -> (forall i, 1 <= i <= pair_count p -> is_target_id p i = true) -> NoDup es.*1.*1 -> Forall (fun e : row => 1 <= e.1.1 <= pair_count p /\ e.1.1 ∉ seen) es ->
  exists seen', foldM (validate_vote_pair p) seen es = Ok seen'.
Proof.
  induction es as [|e es IH]; intros seen Hp Ht Hn Hf; [by exists seen|]. rewrite !fmap_cons in Hn. apply NoDup_cons in Hn as [Hne Hn]. apply Forall_cons_1 in Hf as [[Hr Hs] Hf].
  cbn [foldM]. unfold validate_vote_pair at 1. cbv zeta. rewrite (proj2 (Z.eqb_neq _ 0)), Z.gtb_ltb, (proj2 (Z.ltb_ge _ _)), existsb_elem, bool_decide_eq_false_2 by (done || lia). cbn [orb negb].
  rewrite (proj2 (Z.eqb_neq _ 0)) by (by apply hash_registered). cbn [negb]. specialize (Ht _ Hr) as Ht1. unfold is_target_id in Ht1. rewrite Ht1. apply IH; [done|done|done|].
  apply Forall_forall. intros e' He. rewrite Forall_forall in Hf. destruct (Hf e' He) as [? ?]. split; [done|]. apply not_elem_of_cons. split; [|done]. intros Ee. apply Hne. rewrite <- Ee. by do 2 apply list_elem_of_fmap_2.
Qed.

Lemma validate_votes_ok p v L : forall seen,
  pairs_ok p -> (forall i, 1 <= i <= pair_count p -> is_target_id p i = true) -> (forall a, rd (vote_exists v) a = false) -> Forall (vote_wf p) L -> NoDup L.*1 -> Forall (fun a => a ∉ seen) L.*1 ->
  exists seen', foldM (validate_vote p v) seen L = Ok seen'.
Proof.
  induction L as [|[a es] L IH]; intros seen Hp Ht Hv Hw Hn Hs; [by exists seen|]. rewrite fmap_cons in Hn, Hs. apply NoDup_cons in Hn as [Hna Hn]. apply Forall_cons_1 in Hs as [Hsa Hs]. apply Forall_cons_1 in Hw as [Hwa Hw].
  pose proof (po_count _ Hp) as Hc. pose proof (vote_wf_len p _ ltac:(lia) Hwa) as Hl. destruct Hwa as (Hz & Hd & Hf & _). cbn [fst snd] in *. cbn [foldM]. unfold validate_vote at 1.
  rewrite (proj2 (Z.eqb_neq a 0)), existsb_elem, bool_decide_eq_false_2, Hv by done. cbn [negb]. rewrite !Z.gtb_ltb. assert (0 <= len es) by (unfold len; lia).
  rewrite (proj2 (Z.ltb_ge (2 ^ 32 - 1) _)), Z.mod_small, (proj2 (Z.ltb_ge (pair_count p) _)) by lia. cbn [orb negb].
  destruct (validate_pairs_ok p es [] Hp Ht Hd) as [seen' ->]; [eapply Forall_impl; [exact Hf|]; intros e He; split; [done|intros X; inversion X]|].
  apply IH; [done..|]. apply Forall_forall. intros b Hb. rewrite Forall_forall in Hs. apply not_elem_of_cons. split; [intros ->; contradiction|by apply Hs].
Qed.

Lemma store_votes_rep L v L0 :
  votes_rep v L0 -> NoDup (L0 ++ L).*1 -> len (L0 ++ L) < 2 ^ 32 -> Forall (fun x : Address * list row => len x.2 < 2 ^ 32) L ->
  votes_rep (foldl (fun v '(validator, entries) => store_vote v validator entries) v L) (L0 ++ L).
Proof.
  revert v L0. induction L as [|[a es] L IH]; intros v L0 Hv Hn Hl Hf; [by rewrite app_nil_r|]. apply Forall_cons_1 in Hf as [Hes Hf]. cbn [foldl].
  rewrite (app_assoc L0 [(a, es)] L : L0 ++ (a, es) :: L = _) in *. apply IH; [|done|done|done]. rewrite fmap_app in Hn. apply NoDup_app in Hn as (Hn & _ & _).
  unfold len in *. rewrite !length_app in Hl. cbn [length] in Hl. apply store_vote_rep; [done| |unfold len; lia|done]. rewrite fmap_app in Hn. apply NoDup_app in Hn as (_ & Hd & _). intros Ha. apply (Hd a Ha). by left.
Qed.

Lemma import_aggregate_votes_ok p L :
  pairs_ok p -> (forall i, 1 <= i <= pair_count p -> is_target_id p i = true) -> Forall (vote_wf p) L -> NoDup L.*1 -> len L < 2 ^ 32 ->
  exists v, import_aggregate_votes p (mkVotes ∅ ∅ ∅ ∅ ∅ (mkVec 0 ∅)) L = Ok v /\ votes_rep v L.
Proof.
  intros Hp Ht Hw Hn Hl. unfold import_aggregate_votes. pose proof (po_count _ Hp) as Hc.
  destruct (validate_votes_ok p (mkVotes ∅ ∅ ∅ ∅ ∅ (mkVec 0 ∅)) L [] Hp Ht) as [seen ->]; [intros a; cbn; apply rd_empty|done|done|apply Forall_forall; intros a _ X; inversion X|].
  eexists. split; [done|]. apply (store_votes_rep L _ []); [exact votes_rep_empty|done|done|]. eapply Forall_impl; [exact Hw|]. intros x Hx. pose proof (vote_wf_len p x ltac:(lia) Hx). lia.
Qed.
End VotesCopy.

(** ** History and S-curves *)

Lemma export_snapshots_rep h S : history_rep h S -> export_snapshots h = S.
Proof. intros Hh. symmetry. exact (history_view h S Hh). Qed.

Lemma write_snapshot_idx h ts es : snapshot_write_idx (write_snapshot h ts es) = wadd 64 (snapshot_write_idx h) 1.
Proof.
  unfold write_snapshot, evict_old_snapshots. cbv zeta. set (h1 := foldl _ _ (combine _ _)). pose proof (add_daily_same (ts - ts mod 86400) es {| h1 with snapshot_write_idx := wadd 64 (snapshot_write_idx h) 1 |}) as (E & _).
  by destruct (_ =? _).
Qed.

(** Every snapshot lies in the retention window of every other one. *)
Definition within_retention (S : list snapshot) : Prop := forall s t, s ∈ S -> t ∈ S -> saturating_sub t.1 MAX_SNAPSHOT_RETENTION_SECONDS <= s.1.

Lemma import_snapshots_rep S :
  StronglySorted Z.le S.*1 -> within_retention S -> len S < 2 ^ 64 -> Forall (fun s => len s.2 < 2 ^ 32) S ->
  history_rep (import_snapshots no_history S) S /\ snapshot_write_idx (import_snapshots no_history S) = len S.
Proof.
  induction S as [|[ts es] S IH] using rev_ind; intros Hs Hw Hl Hf; [split; [exact history_rep_empty|done]|].
  rewrite fmap_app in Hs. apply StronglySorted_app in Hs as (Hc & Hs & _). apply Forall_app in Hf as [Hf Hf1]. apply Forall_cons_1 in Hf1 as [Hf1 _]. unfold len in *. rewrite length_app in *. cbn [length] in *.
  destruct (IH Hs ltac:(intros s t Hs1 Ht1; apply Hw; apply elem_of_app; by left) ltac:(lia) Hf) as [Hr Hi].
  unfold import_snapshots in *. rewrite foldl_app. cbn [foldl fst snd] in *. set (h := foldl _ no_history S) in *. split; [|rewrite write_snapshot_idx, wadd_small by lia; lia].
  pose proof (write_snapshot_rep h S ts es Hr ltac:(lia) Hf1) as Hrep. rewrite filter_all in Hrep.
  - apply Hrep, Forall_forall. intros t Ht. apply (Hc t ts Ht). by left.
  - apply Forall_forall. intros s Hs1. apply (Hw s (ts, es) Hs1). apply elem_of_app. right. by left.
Qed.

(** The entries that count, and how a value is looked up in them. *)
Definition max_step (pair_id : u32) (day : u64) (max_value : U256) (e : u32 * u64 * U256) : U256 :=
  let '(pid, peak_day, peak_price) := e in
  if negb (pid =? pair_id) then max_value else
  if day <? peak_day then max_value else
  if (day - peak_day) / DAY_SECONDS >=? PERIOD then max_value else
  let value := compute_scurve_value peak_price ((day - peak_day) / DAY_SECONDS) in
  if value >? max_value then value else max_value.

Lemma max_active_export c pair_id ts : get_max_active_scurve_value c pair_id ts = foldl (max_step pair_id (truncate_to_day ts)) 0 (export_scurves c).
Proof.
  unfold get_max_active_scurve_value, export_scurves. generalize 0. induction (idx_range (scurve_oldest_idx c) (scurve_count c)) as [|i l IH]; intros acc; [done|]. rewrite fmap_cons. cbn [foldl]. rewrite IH. done.
Qed.

Lemma import_scurves_export E :
  len E < 2 ^ 32 -> let c := import_scurves (mkSCurves 0 ∅ ∅ ∅ 0 0) E in export_scurves c = E /\ scurve_count c = len E /\ scurve_oldest_idx c = 0.
Proof.
  induction E as [|[[pid day] price] E IH] using rev_ind; intros Hl; [done|]. unfold len in *. rewrite length_app in Hl. cbn [length] in Hl. destruct (IH ltac:(lia)) as (E1 & E2 & E3).
  unfold import_scurves in *. cbv zeta in *. rewrite foldl_app. cbn [foldl]. set (c := foldl _ _ E) in *. unfold store_scurve_entry. cbv zeta. cbn [scurve_count scurve_oldest_idx]. rewrite wadd_small, length_app by lia. cbn [length].
  split; [|lia]. unfold export_scurves, idx_range in *. cbn [scurve_count scurve_oldest_idx scurve_pair_id scurve_peak_day scurve_peak_price]. rewrite E3, E2 in *. rewrite !Z.sub_0_r in *.
  replace (Z.of_nat (length E) + 1) with (Z.of_nat (S (length E))) by lia. rewrite seqZ_S, fmap_app. cbn [fmap list_fmap]. rewrite Z.add_0_l, !rd_insert_eq. f_equal. rewrite <- E1 at 1. rewrite E1.
  etransitivity; [|exact E1]. apply list_fmap_ext. intros k i Hk. apply lookup_seqZ in Hk as [-> Hk]. by rewrite !rd_insert_ne by lia.
Qed.

(** ** The migration *)

Definition fresh_oracle : OracleContract :=
  mkOracle (mkOracleConfig 0 0 0 0 0 0 false false false) (mkPairs 0 ∅ ∅ ∅ ∅ ∅) (mkRates ∅ ∅ ∅) ∅ (mkPenalty ∅ ∅ ∅ ∅)
    (mkVotes ∅ ∅ ∅ ∅ ∅ (mkVec 0 ∅)) no_history (mkSCurves 0 ∅ ∅ ∅ 0 0) (mkSettlement 0 ∅ ∅ ∅ ∅ (mkVec 0 ∅)) (mkDayVwaps ∅ ∅ ∅ ∅ ∅ ∅) [].

(** A validator the slash window spares. *)
Definition is_protected (o : OracleContract) (a : Address) : bool := config_allow_protected (oc_config o) && rd (protected_validator (oc_penalty o)) a.

(** A well-formed oracle with pending votes [L], price history [S] and reference
    currencies [R]. *)
Record oracle_wf `{Crypto} (o : OracleContract) (L : list (Address * list row)) (S : list snapshot) (R : list Z) : Prop := {
  wf_config : config_vote_period (oc_config o) <> 0 /\ config_slash_window (oc_config o) <> 0 /\ config_lookback_duration (oc_config o) <= MAX_SNAPSHOT_RETENTION_SECONDS;
  wf_initialized : oracle_is_initialized (oc_config o) = true;
  wf_pairs : pairs_ok (oc_pairs o);
  wf_counters b : let '(s, ab, m) := counters (oc_penalty o) b in 0 <= s /\ 0 <= ab /\ 0 <= m;
  wf_votes : votes_rep (oc_votes o) L /\ Forall (vote_wf (oc_pairs o)) L;
  wf_history : history_rep (oc_history o) S /\ within_retention S /\ Forall (fun s => len s.2 < 2 ^ 32) S;
  wf_scurves : 0 <= scurve_oldest_idx (oc_scurves o) <= scurve_count (oc_scurves o) /\ scurve_count (oc_scurves o) < 2 ^ 32;
  wf_settlement : settlement_ok (oc_pairs o) (oc_settlement o);
  wf_refs : vec_rep (reference_currencies (oc_settlement o)) R /\ NoDup R /\ (0 ∉ R)
}.

Lemma import_protected_ok o vals o1 :
  (forall a, is_protected o1 a = false) -> config_allow_protected (oc_config o1) = false -> (forall a, rd (protected_validator (oc_penalty o1)) a = false) ->
  forall a, is_protected (import_protected o1 (export_protected o vals)) a = bool_decide (a ∈ vals) && is_protected o a.
Proof.
  intros H0 H1 H2 a. assert (Hf : forall l (mp : gmap Address bool), (forall b, rd mp b = false) -> rd (foldl (fun m validator => <[validator := true]> m) mp l) a = bool_decide (a ∈ l)).
  { intros l mp Hm. enough (Hg : forall mp, rd (foldl (fun m validator => <[validator := true]> m) mp l) a = bool_decide (a ∈ l) || rd mp a) by (by rewrite Hg, Hm, orb_false_r).
    clear mp Hm. induction l as [|b l IH]; intros mp; [done|]. cbn [foldl]. rewrite IH, rd_insert, (bool_decide_ext (a ∈ b :: l) (a = b \/ a ∈ l)), bool_decide_or by apply elem_of_cons.
    destruct (decide (b = a)) as [->|Hne]; [by rewrite (bool_decide_eq_true_2 (a = a)), orb_true_r|by rewrite (bool_decide_eq_false_2 (a = b))]. }
  unfold export_protected, is_protected at 2. destruct (config_allow_protected (oc_config o)) eqn:Ea; cbn [andb]; [|cbn [import_protected]; by rewrite andb_false_r].
  set (l := filter _ vals). assert (El : bool_decide (a ∈ l) = bool_decide (a ∈ vals) && rd (protected_validator (oc_penalty o)) a).
  { apply Bool.eq_iff_eq_true. rewrite andb_true_iff, !bool_decide_eq_true. subst l. rewrite list_elem_of_filter. tauto. }
  rewrite <- El. unfold import_protected. destruct l as [|b l'] eqn:Eb; [by rewrite H0|]. unfold is_protected. cbn [oc_config oc_penalty config_allow_protected protected_validator andb]. apply Hf, H2.
Qed.

Section Migration.
Context `{KeccakLaws}.

(** The configuration a well-formed oracle is exported to. *)
Definition exported (o : OracleContract) (vals : list Address) (L : list (Address * list row)) (S : list snapshot) (R : list Z) : OracleGenesisConfig :=
  let c := oc_config o in
  {| g_vote_period := config_vote_period c; g_reward_band := config_reward_band c; g_slash_window := config_slash_window c;
     g_min_valid_per_window := config_min_valid_per_window c; g_slash_fraction := config_slash_fraction c; g_lookback_duration := config_lookback_duration c;
     g_pairs := pair_name (oc_pairs o) <$> pair_ids (oc_pairs o); g_initial_rates := omap (rate_row o) (pair_ids (oc_pairs o));
     g_feeder_delegations := export_feeders o vals;
     g_settlement_currencies := settlement_row o <$> seqZ 0 (settlement_count (oc_settlement o)); g_reference_currencies := R;
     g_penalty_counters := export_penalties (oc_penalty o) vals; g_aggregate_votes := L; g_snapshots := S;
     g_scurve_entries := export_scurves (oc_scurves o); g_protected_validators := export_protected o vals |}.

Lemma pair_ids_range p : Forall (fun i => 1 <= i <= pair_count p) (pair_ids p).
Proof. apply Forall_forall. intros i Hi%elem_of_seqZ. lia. Qed.

Lemma export_genesis_ok o vals L S R : oracle_wf o L S R -> export_genesis o vals = Ok (exported o vals L S R).
Proof.
  intros [_ _ Hp _ [Hv Hw] [Hh _] _ Hx [Hr _]]. unfold export_genesis. cbv zeta. rewrite (export_pairs_ok o (pair_ids (oc_pairs o)) [] [] Hp (pair_ids_range _)).
  rewrite (export_aggregate_votes_ok _ _ L Hp Hv Hw), (mapR_ok _ (settlement_row o)). 2: { apply Forall_forall. intros i Hi%elem_of_seqZ. apply export_settlement_ok; [done|done|lia]. }
  rewrite (vec_rep_read_all _ _ Hr), (export_snapshots_rep _ _ Hh). done.
Qed.

(** What a chain that starts from the export keeps. *)
Record kept (o o' : OracleContract) (vals : list Address) : Prop := {
  kp_config : let '(c, c') := (oc_config o, oc_config o') in
    (config_vote_period c', config_reward_band c', config_slash_window c', config_min_valid_per_window c', config_slash_fraction c', config_lookback_duration c') =
    (config_vote_period c, config_reward_band c, config_slash_window c, config_min_valid_per_window c, config_slash_fraction c, config_lookback_duration c);
  kp_pairs base quote : get_pair_id (oc_pairs o') base quote = get_pair_id (oc_pairs o) base quote;
  kp_names i : i ∈ pair_ids (oc_pairs o) -> pair_name (oc_pairs o') i = pair_name (oc_pairs o) i;
  kp_rates i : i ∈ pair_ids (oc_pairs o) ->
    rd (exchange_rate (oc_rates o')) (rd (pair_id_to_hash (oc_pairs o)) i) = rd (exchange_rate (oc_rates o)) (rd (pair_id_to_hash (oc_pairs o)) i);
  kp_validators a : a ∈ vals -> get_feeder o' a = get_feeder o a /\ counters (oc_penalty o') a = counters (oc_penalty o) a /\ is_protected o' a = is_protected o a;
  kp_scurves pair_id ts : get_max_active_scurve_value (oc_scurves o') pair_id ts = get_max_active_scurve_value (oc_scurves o) pair_id ts;
  kp_settlement : get_settlement_currencies (oc_settlement o') = get_settlement_currencies (oc_settlement o)
}.

(** What it does not keep. *)
Record lost (o o' : OracleContract) : Prop := {
  ls_targets i : i ∈ pair_ids (oc_pairs o) -> is_target_id (oc_pairs o') i = true;
  ls_times h : rd (exchange_rate_block (oc_rates o')) h = 0 /\ rd (exchange_rate_timestamp (oc_rates o')) h = 0;
  ls_days day pair_id : get_worldwide_day_vwap_for_pair_id (oc_days o') day pair_id = None;
  ls_processed : scurve_last_processed_day (oc_scurves o') = 0
}.

Lemma settlement_copy_view p x x' : 0 <= settlement_count x -> settlement_copy p x x' (settlement_count x) -> get_settlement_currencies x' = get_settlement_currencies x.
Proof.
  intros Hz [_ Hc Hi Hr _]. unfold get_settlement_currencies. cbv zeta. rewrite Hc. set (ids := seqZ 0 _).
  assert (Hids : Forall (fun i => 0 <= i < settlement_count x) ids) by (apply Forall_forall; intros i Hin%elem_of_seqZ; lia).
  assert (E : rd (settlement_index_to_iso x') <$> ids = rd (settlement_index_to_iso x) <$> ids) by (apply Forall_fmap_ext_1; eapply Forall_impl; [exact Hids|]; apply Hi).
  rewrite E. rewrite <- !list_fmap_compose. f_equal; [f_equal; [f_equal|]|]; apply Forall_fmap_ext_1; (eapply Forall_impl; [exact Hids|]); intros i Hii; destruct (Hr i Hii) as (? & ? & ?); done.
Qed.

(** The oracle before its flags are set. *)
Definition imported (o : OracleContract) (vals : list Address) (S : list snapshot) (p : PairRegistry) (r : ExchangeRates) (x : Settlement) (v : Votes) : OracleContract :=
  mkOracle (write_config (oc_config fresh_oracle) (exported o vals [] [] [])) p r (import_feeders ∅ (export_feeders o vals)) (import_penalties (mkPenalty ∅ ∅ ∅ ∅) (export_penalties (oc_penalty o) vals))
    v (import_snapshots no_history S) (import_scurves (mkSCurves 0 ∅ ∅ ∅ 0 0) (export_scurves (oc_scurves o))) x (mkDayVwaps ∅ ∅ ∅ ∅ ∅ ∅) [].

Lemma init_exported o vals L S R :
  oracle_wf o L S R ->
  exists p r x refs v, let o1 := imported o vals S p r {| x with reference_currencies := refs |} v in
    init_from_genesis fresh_oracle (exported o vals L S R) = Ok (mark_initialized (import_protected o1 (export_protected o vals))) /\
    pairs_copy (oc_pairs o) p (pair_count (oc_pairs o)) /\ settlement_copy p (oc_settlement o) x (settlement_count (oc_settlement o)) /\ vec_rep refs R /\ votes_rep v L /\
    (forall h, rd (exchange_rate_block r) h = 0 /\ rd (exchange_rate_timestamp r) h = 0) /\
    (forall h, rd (exchange_rate r) h = if bool_decide (h ∈ rd (pair_id_to_hash (oc_pairs o)) <$> pair_ids (oc_pairs o)) && negb (rd (exchange_rate (oc_rates o)) h =? 0) then rd (exchange_rate (oc_rates o)) h else 0).
Proof.
  intros [(C1 & C2 & C3) _ Hp _ [Hv Hw] _ _ Hx (Hr & Hrn & Hrz)]. pose proof (po_count _ Hp) as Hc. pose proof (st_count _ _ Hx) as Hsc.
  destruct (import_pairs_copy (oc_pairs o) (Z.to_nat (pair_count (oc_pairs o))) Hp ltac:(lia)) as (p & Ep & Cp). rewrite Z2Nat.id in Ep, Cp by lia.
  pose proof (fun h => copy_ids (oc_pairs o) p h Hp Cp) as Hids. set (c := write_config (oc_config fresh_oracle) (exported o vals L S R)).
  destruct (import_rates_ok o (pair_ids (oc_pairs o)) (set_pairs (set_oc_config fresh_oracle c) p) Hp) as (r & Er & Ht & Hrate).
  { apply Forall_forall. intros i Hi%elem_of_seqZ. split; [lia|]. cbn [oc_pairs set_pairs]. rewrite Hids, (po_id _ Hp) by lia. lia. }
  destruct (import_settlements o p (Z.to_nat (settlement_count (oc_settlement o))) Hp Hx Hids ltac:(lia)) as (x & Ex & Cx). rewrite Z2Nat.id in Ex, Cx by lia.
  destruct (import_references_ok R [] (mkVec 0 ∅) []) as (seen & refs & Eref & Hrefs); [split_and!; [done|done|cbn; lia]|done|intros a Ha; split; [intros ->; contradiction|intros X; inversion X]|unfold len; cbn; destruct Hr as (? & ? & _); lia|].
  destruct (import_aggregate_votes_ok p L (pc_ok _ _ _ Cp)) as (v & Ev & Hvr).
  { rewrite (pc_count _ _ _ Cp). apply (pc_target _ _ _ Cp). }
  { eapply Forall_impl; [exact Hw|]. unfold vote_wf. by rewrite (pc_count _ _ _ Cp). }
  { apply (vr_nodup _ _ Hv). }
  { pose proof (vr_list _ _ Hv) as (Hn & Hb & _). rewrite length_fmap in Hn. unfold len. lia. }
  exists p, r, x, refs, v. cbv zeta. split; [|split_and!; [done|done|done|done| |exact Hrate]].
  - unfold init_from_genesis. change (oracle_is_initialized (oc_config fresh_oracle)) with false. cbv iota zeta. fold c.
    cbn [exported g_vote_period g_slash_window g_lookback_duration g_pairs g_initial_rates g_settlement_currencies g_reference_currencies g_aggregate_votes].
    rewrite (proj2 (Z.eqb_neq _ 0)), (proj2 (Z.eqb_neq _ 0)), Z.gtb_ltb, (proj2 (Z.ltb_ge _ _)) by (done || lia). cbn [negb]. change (oc_pairs (set_oc_config fresh_oracle c)) with (mkPairs 0 ∅ ∅ ∅ ∅ ∅).
    unfold pair_ids in *. rewrite Ep, Er. cbn [oc_pairs oc_settlement set_rates set_pairs set_feeders set_oc_config fresh_oracle]. rewrite Ex, (sc_refs _ _ _ _ Cx), Eref. cbn [oc_pairs oc_votes set_settlement set_penalty set_feeders set_rates set_pairs set_oc_config fresh_oracle]. by rewrite Ev.
  - intros h. destruct (Ht h) as [T1 T2]. split; [apply T1|apply T2]; cbn; apply rd_empty.
Qed.

(** The last steps of the import only touch the flags and the protection. *)
Lemma flags_frame o l :
  let o' := mark_initialized (import_protected o l) in
  oc_pairs o' = oc_pairs o /\ oc_rates o' = oc_rates o /\ feeder_delegation o' = feeder_delegation o /\ oc_votes o' = oc_votes o /\ oc_history o' = oc_history o /\
  oc_scurves o' = oc_scurves o /\ oc_settlement o' = oc_settlement o /\ oc_days o' = oc_days o /\ (forall a, counters (oc_penalty o') a = counters (oc_penalty o) a) /\
  (forall a, is_protected o' a = is_protected (import_protected o l) a) /\ oracle_is_initialized (oc_config o') = true /\
  (config_vote_period (oc_config o'), config_reward_band (oc_config o'), config_slash_window (oc_config o'), config_min_valid_per_window (oc_config o'), config_slash_fraction (oc_config o'), config_lookback_duration (oc_config o')) =
  (config_vote_period (oc_config o), config_reward_band (oc_config o), config_slash_window (oc_config o), config_min_valid_per_window (oc_config o), config_slash_fraction (oc_config o), config_lookback_duration (oc_config o)).
Proof. by destruct l. Qed.

Lemma nonneg_counters (k : u64 * u64 * u64) (b : bool) : (let '(s, ab, m) := k in 0 <= s /\ 0 <= ab /\ 0 <= m) -> let '(s, ab, m) := if b then k else (0, 0, 0) in 0 <= s /\ 0 <= ab /\ 0 <= m.
Proof. destruct b; [done|]. lia. Qed.

Lemma settlement_refs p x refs : settlement_ok p x -> settlement_ok p {| x with reference_currencies := refs |}.
Proof. intros [H1 H2 H3 H4 H5 H6]. by split. Qed.

Lemma wf_scurve_len c : 0 <= scurve_oldest_idx c <= scurve_count c /\ scurve_count c < 2 ^ 32 -> len (export_scurves c) < 2 ^ 32.
Proof. intros Hc. unfold len, export_scurves, idx_range. rewrite length_fmap, length_seqZ. lia. Qed.

Lemma imported_wf o vals L S R p r x refs v l :
  oracle_wf o L S R -> pairs_copy (oc_pairs o) p (pair_count (oc_pairs o)) -> settlement_copy p (oc_settlement o) x (settlement_count (oc_settlement o)) -> vec_rep refs R -> votes_rep v L ->
  oracle_wf (mark_initialized (import_protected (imported o vals S p r {| x with reference_currencies := refs |} v) l)) L S R.
Proof.
  intros [Hcfg _ Hp Hcn [_ Hw] (Hh & Hret & Hlen) Hsc Hx (_ & Hrn & Hrz)] Cp Cx Hrefs Hv. set (o1 := imported _ _ _ _ _ _ _).
  destruct (flags_frame o1 l) as (F1 & _ & _ & F4 & F5 & F6 & F7 & _ & F9 & _ & F11 & _).
  destruct (import_snapshots_rep S (hr_sorted _ _ Hh) Hret ltac:(pose proof (hr_write _ _ Hh); pose proof (hr_fits _ _ Hh); pose proof (hr_oldest _ _ Hh); lia) Hlen) as [Hh' _].
  destruct (import_scurves_export (export_scurves (oc_scurves o)) (wf_scurve_len _ Hsc)) as (_ & E2 & E3).
  split; rewrite ?F1, ?F4, ?F5, ?F6, ?F7; [destruct l; exact Hcfg|exact F11|exact (pc_ok _ _ _ Cp)| | |done| |by apply settlement_refs, (sc_ok _ _ _ _ Cx)|done].
  - intros b. rewrite F9. cbn [o1 imported oc_penalty]. destruct (import_penalties_ok (oc_penalty o) vals (mkPenalty ∅ ∅ ∅ ∅) b Hcn ltac:(left; unfold counters; cbn; by rewrite !rd_empty)) as [-> _].
    unfold counters at 2. cbn. rewrite !rd_empty. apply nonneg_counters, Hcn.
  - split; [done|]. eapply Forall_impl; [exact Hw|]. unfold vote_wf. cbn [o1 imported oc_pairs]. by rewrite (pc_count _ _ _ Cp).
  - cbn [o1 imported oc_scurves]. rewrite E2, E3. pose proof (wf_scurve_len _ Hsc). unfold len in *. lia.
Qed.

Lemma imported_kept o vals L S R p r x refs v :
  oracle_wf o L S R -> pairs_copy (oc_pairs o) p (pair_count (oc_pairs o)) -> settlement_copy p (oc_settlement o) x (settlement_count (oc_settlement o)) ->
  (forall h, rd (exchange_rate r) h = if bool_decide (h ∈ rd (pair_id_to_hash (oc_pairs o)) <$> pair_ids (oc_pairs o)) && negb (rd (exchange_rate (oc_rates o)) h =? 0) then rd (exchange_rate (oc_rates o)) h else 0) ->
  kept o (mark_initialized (import_protected (imported o vals S p r {| x with reference_currencies := refs |} v) (export_protected o vals))) vals.
Proof.
  intros [_ _ Hp Hcn _ _ Hsc Hx _] Cp Cx Hrate. set (o1 := imported _ _ _ _ _ _ _). pose proof (st_count _ _ Hx) as Hst.
  destruct (flags_frame o1 (export_protected o vals)) as (F1 & F2 & F3 & _ & _ & F6 & F7 & _ & F9 & F10 & _ & F12).
  split; rewrite ?F1, ?F2, ?F6, ?F7.
  - exact F12.
  - intros base quote. exact (copy_ids _ _ _ Hp Cp).
  - intros i Hi%elem_of_seqZ. apply (pc_name _ _ _ Cp). lia.
  - intros i Hi. cbn [o1 imported oc_rates]. rewrite Hrate, bool_decide_eq_true_2 by (by apply list_elem_of_fmap_2). cbn [andb]. by destruct (Z.eqb_spec (rd (exchange_rate (oc_rates o)) (rd (pair_id_to_hash (oc_pairs o)) i)) 0).
  - intros a Ha. unfold get_feeder. rewrite F3, F9, F10. cbn [o1 imported feeder_delegation oc_penalty]. split_and!.
    + rewrite import_feeders_ok, bool_decide_eq_true_2, rd_empty by done. cbn [andb]. by destruct (Z.eqb_spec (rd (feeder_delegation o) a) 0).
    + destruct (import_penalties_ok (oc_penalty o) vals (mkPenalty ∅ ∅ ∅ ∅) a Hcn ltac:(left; unfold counters; cbn; by rewrite !rd_empty)) as [-> _]. by rewrite bool_decide_eq_true_2.
    + assert (Hpr : forall b, rd (protected_validator (oc_penalty o1)) b = false) by (intros b; cbn [o1 imported oc_penalty]; destruct (import_penalties_ok (oc_penalty o) vals (mkPenalty ∅ ∅ ∅ ∅) b Hcn ltac:(left; unfold counters; cbn; by rewrite !rd_empty)) as [_ ->]; apply rd_empty).
      rewrite import_protected_ok; [by rewrite bool_decide_eq_true_2|done|done|exact Hpr].
  - intros pair_id ts. cbn [o1 imported oc_scurves]. rewrite !max_active_export. by destruct (import_scurves_export (export_scurves (oc_scurves o)) (wf_scurve_len _ Hsc)) as (-> & _).
  - cbn [o1 imported oc_settlement]. exact (settlement_copy_view p (oc_settlement o) x (proj1 Hst) Cx).
Qed.
End Migration.

(** C11. A well-formed oracle can always be exported, and a fresh chain can always be
    started from the export. It keeps the parameters, the pairs with their ids and
    rates, the pending votes, the price history, the S-curve values, the settlement
    and reference currencies, and the delegations, counters and protection of the
    listed validators. It is not a full migration: every pair is a vote target
    again, also one that was deactivated, the rates have lost the block and time of
    their update, and no worldwide day has its average any more. *)
Theorem genesis_migration `{KeccakLaws} o vals L S R :
  oracle_wf o L S R ->
  exists g o', export_genesis o vals = Ok g /\ init_from_genesis fresh_oracle g = Ok o' /\ oracle_wf o' L S R /\ kept o o' vals /\ lost o o'.
Proof.
  intros Hw. destruct (init_exported o vals L S R Hw) as (p & r & x & refs & v & E & Cp & Cx & Hrefs & Hv & Ht & Hrate). cbv zeta in E.
  exists (exported o vals L S R). eexists. split; [by apply export_genesis_ok|]. split; [exact E|]. split; [by apply imported_wf|]. split; [by eapply imported_kept|].
  set (o1 := imported _ _ _ _ _ _ _). destruct (flags_frame o1 (export_protected o vals)) as (F1 & F2 & _ & _ & _ & F6 & _ & F8 & _). split; rewrite ?F1, ?F2, ?F6, ?F8.
  - intros i Hi%elem_of_seqZ. apply (pc_target _ _ _ Cp). lia.
  - exact Ht.
  - intros day pid. unfold get_worldwide_day_vwap_for_pair_id. cbn. by rewrite rd_empty.
  - cbn [o1 imported oc_scurves]. clear. induction (export_scurves (oc_scurves o)) as [|[[? ?] ?] l IH] using rev_ind; [done|]. unfold import_scurves in *. rewrite foldl_app. exact IH.
Qed.

(** An oracle with prices, a pending vote and a deactivated pair. *)
Definition sample_live : OracleContract :=
  let o := sample_market sample_prices in
  {| o with oc_pairs := wr_vote_target sample_pairs (pair_hash (H := sample_crypto) "COEN" "0xUSD") false;
     oc_votes := store_vote (oc_votes o) 5 [(1, 500, 3)]; oc_settlement := mkSettlement 0 ∅ ∅ ∅ ∅ (vec_push (mkVec 0 ∅) 840) |}.

Lemma sample_live_wf : oracle_wf (H := sample_crypto) sample_live [(5, [(1, 500, 3)])] sample_prices [840].
Proof.
  assert (Hp : pairs_ok (H := sample_crypto) sample_pairs).
  { destruct (register_pair (H := sample_crypto) (mkPairs 0 ∅ ∅ ∅ ∅ ∅) "COEN" "0xUSD") as [[p i]|e] eqn:Ep; [|vm_compute in Ep; discriminate Ep].
    unfold sample_pairs. rewrite Ep. eapply (register_pair_ok (H := sample_crypto)); [apply pairs_ok_empty|reflexivity|exact Ep]. }
  split.
  - split_and!; vm_compute; discriminate.
  - reflexivity.
  - apply wr_vote_target_ok; [exact Hp|vm_compute; discriminate].
  - intros b. unfold counters. cbn. rewrite !rd_empty. split_and!; done.
  - split; [apply (store_vote_rep _ []); [exact votes_rep_empty|intros X; inversion X|reflexivity|reflexivity]|]. apply Forall_cons_2; [|by apply Forall_nil_2]. split_and!; [discriminate|apply NoDup_singleton|..];
      (apply Forall_cons_2; [|by apply Forall_nil_2]); [split; [done|vm_compute; discriminate]|split; cbn; lia].
  - split; [exact sample_history_rep|]. split; [|repeat (apply Forall_cons_2; [reflexivity|]); by apply Forall_nil_2].
    assert (Hd : Forall (fun s => 86400 * 20076 <= s.1 <= 86400 * 20079) sample_prices) by (repeat (apply Forall_cons_2; [cbn; lia|]); by apply Forall_nil_2).
    intros s t Hs Ht. rewrite Forall_forall in Hd. pose proof (Hd s Hs). pose proof (Hd t Ht). unfold saturating_sub, MAX_SNAPSHOT_RETENTION_SECONDS. lia.
  - cbn. lia.
  - split; cbn; try (intros; lia). intros iso _. by rewrite rd_empty.
  - split; [apply (vec_rep_push _ []); [split_and!; [done|done|cbn; lia]|done]|]. split; [apply NoDup_singleton|]. intros X%list_elem_of_singleton. discriminate X.
Qed.

Lemma genesis_migration_witness : exists g o',
  export_genesis (H := sample_crypto) sample_live [5; 7] = Ok g /\ init_from_genesis (H := sample_crypto) fresh_oracle g = Ok o' /\ is_target_id (oc_pairs sample_live) 1 = false /\ is_target_id (oc_pairs o') 1 = true.
Proof.
  destruct (@genesis_migration sample_crypto sample_keccak sample_live [5; 7] _ _ _ sample_live_wf) as (g & o' & E1 & E2 & _ & _ & Hl). exists g, o'.
  split; [exact E1|]. split; [exact E2|]. split; [vm_compute; reflexivity|]. apply (ls_targets _ _ Hl). vm_compute. left.
Defined.
