(* ===== verification/OracleRun.v ===== *)
(** * OracleRun: the oracle as a state machine

    The calls and hooks that change the oracle, as steps at the time of their block,
    and the invariant every run keeps. Also the delegation of votes to a feeder,
    which the feeder does not have to accept. *)

From S2P Require Import Prelude Native Storage ValidatorSet Staking Slash Oracle OraclePrices OracleTally OracleSlash OracleGenesis.

(** ** Who votes for whom *)

Lemma find_seqZ (f : Z -> bool) n : forall m i, List.find f (seqZ m (Z.of_nat n)) = Some i <-> m <= i < m + Z.of_nat n /\ f i = true /\ forall k, m <= k < i -> f k = false.
Proof.
  induction n as [|n IH]; intros m i; [cbn; split; [done|lia]|]. rewrite seqZ_cons by lia. replace (Z.pred (Z.of_nat (S n))) with (Z.of_nat n) by lia. cbn [List.find]. destruct (f m) eqn:E.
  - split; [intros [= <-]; split_and!; [lia|lia|done|lia]|]. intros (Hi & Hf & Hk). f_equal. destruct (Z.eq_dec m i) as [|Hne]; [done|]. rewrite (Hk m) in E by lia. done.
  - rewrite IH. split; intros (Hi & Hf & Hk); (split_and!; [| |done|]); try lia.
    + intros k Hkk. destruct (Z.eq_dec k m) as [->|]; [done|]. apply Hk. lia.
    + destruct (Z.eq_dec m i) as [->|]; [congruence|lia].
    + intros k Hkk. apply Hk. lia.
Qed.

Section Feeders.
Context `{Crypto}.

(** The first validator in registration order that delegates to the caller. *)
Lemma find_delegator vs (d : Address -> Address) caller :
  registry_ok vs -> validator_address <$> List.find (fun v => d (validator_address v) =? caller) (get_all_validators vs) =
  rd (index_to_address vs) <$> List.find (fun i => d (rd (index_to_address vs) i) =? caller) (seqZ 1 (validator_count vs)).
Proof.
  intros Hr. pose proof (get_all_validators_map vs Hr) as E. rewrite <- (list_find_fmap (fun a => d a =? caller) validator_address), E. by rewrite list_find_fmap.
Qed.

Lemma self_feeder_false vs o caller :
  existsb (fun v => (validator_address v =? caller) && ((rd (feeder_delegation o) caller =? 0) || (rd (feeder_delegation o) caller =? caller))) (get_all_validators vs) =
  bool_decide (caller ∈ validator_address <$> get_all_validators vs) && ((rd (feeder_delegation o) caller =? 0) || (rd (feeder_delegation o) caller =? caller)).
Proof.
  destruct (_ || _); [|rewrite andb_false_r; induction (get_all_validators vs) as [|v l IH]; [done|]; cbn [existsb]; by rewrite andb_false_r, IH].
  rewrite andb_true_r. apply Bool.eq_iff_eq_true. rewrite bool_decide_eq_true, existsb_exists. setoid_rewrite <- list_elem_of_In. rewrite list_elem_of_fmap.
  split; intros (v & H1 & H2); exists v; [rewrite andb_true_r in H2; bools; done|]. rewrite andb_true_r. split; [done|]. subst. apply Z.eqb_refl.
Qed.

Lemma store_vote_exists v a es : vote_exists (store_vote v a es) = <[a := true]> (vote_exists v).
Proof.
  unfold store_vote. cbv zeta. set (v0 := {| v with vote_exists := _; vote_tuple_count := _ |}). change (foldl _ v0 _) with (write_rows a v0 0 es).
  cbn [vote_exists]. by destruct (write_rows_frame a v0 0 es) as (-> & _).
Qed.
End Feeders.

(** C38. A feeder does not have to accept a delegation, and a feeder named by two
    validators votes for the one registered first: any validator registered before
    [victim] can name the feeder of [victim] as its own, after which every vote of
    that feeder is stored as a vote of the attacker, and [victim] has none. *)
Theorem feeder_hijack `{Crypto} vs o victim attacker feeder :
  registry_ok vs -> resolve_validator_for_feeder vs o feeder = Ok victim -> victim <> feeder -> attacker <> feeder ->
  1 <= rd (address_to_index vs) attacker < rd (address_to_index vs) victim ->
  exists o', delegate_feeder vs o attacker feeder = Ok o' /\ resolve_validator_for_feeder vs o' feeder = Ok attacker /\
    rd (feeder_delegation o') victim = rd (feeder_delegation o) victim /\
    (forall tuples o'', submit_vote vs o' feeder tuples = Ok o'' -> rd (vote_exists (oc_votes o'')) attacker = true /\ rd (vote_exists (oc_votes o'')) victim = rd (vote_exists (oc_votes o)) victim).
Proof.
  intros Hr Hv Hvf Haf Hi. assert (Hne : attacker <> victim) by (intros ->; lia). unfold delegate_feeder. destruct (get_validator_Some vs attacker ltac:(lia)) as [va Eva]. rewrite Eva. eexists. split; [done|].
  set (d' := <[attacker := feeder]> (feeder_delegation o)). assert (Hres : resolve_validator_for_feeder vs (set_feeders o d') feeder = Ok attacker).
  { unfold resolve_validator_for_feeder in *. rewrite self_feeder_false in *. cbn [feeder_delegation set_feeders]. assert (E0 : rd d' feeder = rd (feeder_delegation o) feeder) by (apply rd_insert_ne; done).
    rewrite E0. destruct (_ && _); [by injection Hv as ->|]. pose proof (find_delegator vs (rd (feeder_delegation o)) feeder Hr) as F. pose proof (find_delegator vs (rd d') feeder Hr) as F'.
    destruct (List.find (fun v => rd (feeder_delegation o) (validator_address v) =? feeder) _) as [v|]; [|done]. injection Hv as Ev.
    destruct (List.find (fun i => rd (feeder_delegation o) _ =? feeder) _) as [iv|] eqn:Ef; [|done]. cbn in F. injection F as F. pose proof (ro_count _ Hr) as Hc. unfold fits in Hc.
    rewrite <- (Z2Nat.id (validator_count vs)) in Ef by lia. apply find_seqZ in Ef as (Hiv & _ & Hk). assert (Eiv : rd (address_to_index vs) victim = iv) by (rewrite <- Ev, F; apply (ro_address _ Hr); lia).
    destruct (ro_index _ Hr attacker ltac:(lia)) as [Hia Ea]. assert (Ef' : List.find (fun i => rd d' (rd (index_to_address vs) i) =? feeder) (seqZ 1 (validator_count vs)) = Some (rd (address_to_index vs) attacker)).
    { rewrite <- (Z2Nat.id (validator_count vs)) by lia. apply find_seqZ. split_and!; [lia|lia|rewrite Ea; unfold d'; rewrite rd_insert_eq; apply Z.eqb_refl|].
      intros k Hkk. unfold d'. rewrite rd_insert_ne; [apply Hk; lia|]. intros E. pose proof (ro_address _ Hr k ltac:(lia)) as Ek. rewrite <- E in Ek. lia. }
    rewrite Ef' in F'. destruct (List.find (fun v => rd d' (validator_address v) =? feeder) _) as [w|]; [|done]. cbn in F'. injection F' as ->. by rewrite Ea. }
  split; [exact Hres|]. split; [cbn; unfold d'; by rewrite rd_insert_ne|]. intros tuples o''. unfold submit_vote. rewrite Hres. cbv zeta. intros E. do 4 (inv_ok_step E). apply Ok_inj in E. subst o''.
  cbn [oc_votes set_votes set_feeders]. rewrite store_vote_exists, rd_insert_eq. split; [done|]. by rewrite rd_insert_ne.
Qed.

(** Validator 7 votes through 99, which validator 5, registered first, claims. *)
Lemma feeder_hijack_witness : exists o',
  delegate_feeder sample_validators (set_feeders (sample_market []) (<[7 := 99]> ∅)) 5 99 = Ok o' /\ resolve_validator_for_feeder sample_validators o' 99 = Ok 5.
Proof.
  assert (H7 : resolve_validator_for_feeder sample_validators (set_feeders (sample_market []) (<[7 := 99]> ∅)) 99 = Ok 7) by (vm_compute; reflexivity).
  assert (Hi : 1 <= rd (address_to_index sample_validators) 5 < rd (address_to_index sample_validators) 7) by (vm_compute; split; [discriminate|reflexivity]).
  destruct (@feeder_hijack sample_crypto sample_validators (set_feeders (sample_market []) (<[7 := 99]> ∅)) 7 5 99 sample_registry_ok H7 ltac:(lia) ltac:(lia) Hi) as (o' & E1 & E2 & _).
  exists o'. exact (conj E1 E2).
Defined.

(** ** Steps *)

Section Run.
Context `{KeccakLaws} (known : Address -> Prop).

(** The validator set of a block of the run: every validator it registers is [known]. *)
Definition known_set (vs : ValidatorSet) : Prop := registry_ok vs /\ Forall known (validator_address <$> get_all_validators vs).

(** A call or hook of the oracle in a block at time [ts]. Values of calls are
    unsigned; [vs] and [w] are the validator set and the staking world of the block. *)
Inductive oracle_step (ts : u64) : OracleContract -> OracleContract -> Prop :=
| StepVote vs o caller tuples o' :
    known_set vs -> Forall (fun t : B256 * U256 * U256 => 0 <= t.1.2 /\ 0 <= t.2) tuples -> len tuples < 2 ^ 32 ->
    submit_vote vs o caller tuples = Ok o' -> oracle_step ts o o'
| StepDelegate vs o validator feeder o' : delegate_feeder vs o validator feeder = Ok o' -> oracle_step ts o o'
| StepActivate o caller base quote p : activate_vote_target (oc_pairs o) caller base quote = Ok p -> oracle_step ts o (set_pairs o p)
| StepDeactivate o caller base quote p : deactivate_vote_target (oc_pairs o) caller base quote = Ok p -> oracle_step ts o (set_pairs o p)
| StepSetRate o caller base quote rate bn o' : set_exchange_rate o caller base quote rate bn ts = Ok o' -> oracle_step ts o o'
| StepBegin env vs o o' : registry_ok vs -> timestamp env = ts -> run_begin_block env vs o = Ok o' -> oracle_step ts o o'
| StepWindow env o w o' w' : timestamp env = ts -> run_slash_window env (mkOracleWorld o w) = Ok (mkOracleWorld o' w') -> oracle_step ts o o'
| StepDay o day s e o' : store_worldwide_day_vwap_snapshot o day s e = Ok o' -> oracle_step ts o o'.

(** The indices that only grow are far from their bounds. *)
Definition has_room (o : OracleContract) : Prop :=
  vlen (voter_list (oc_votes o)) < 2 ^ 32 - 1 /\ snapshot_write_idx (oc_history o) < 2 ^ 64 - 1 /\ scurve_count (oc_scurves o) + pair_count (oc_pairs o) < 2 ^ 32.

(** The invariant at time [now]: the voters of the pending votes are [known]. *)
Definition run_ok (now : u64) (R : list Z) (o : OracleContract) : Prop := exists L S, oracle_wf o L S R /\ Forall known L.*1 /\ Forall (fun t => t <= now) S.*1.

(** Changes that leave the invariant's parts alone. *)
Lemma wf_frame o o' L S R :
  oc_config o' = oc_config o -> oc_pairs o' = oc_pairs o -> (forall b, counters (oc_penalty o') b = counters (oc_penalty o) b) -> oc_votes o' = oc_votes o ->
  oc_history o' = oc_history o -> oc_scurves o' = oc_scurves o -> oc_settlement o' = oc_settlement o -> oracle_wf o L S R -> oracle_wf o' L S R.
Proof. intros E1 E2 E3 E4 E5 E6 E7 [? ? ? W ? ? ? ? ?]. split; rewrite ?E1, ?E2, ?E4, ?E5, ?E6, ?E7; try done. intros b. rewrite E3. apply W. Qed.

Lemma wf_target o L S R h t : oracle_wf o L S R -> rd (pair_hash_to_id (oc_pairs o)) h <> 0 -> oracle_wf (set_pairs o (wr_vote_target (oc_pairs o) h t)) L S R.
Proof.
  intros [W1 W2 W3 W4 W5 W6 W7 W8 W9] Hh. split; cbn [oc_config oc_pairs oc_penalty oc_votes oc_history oc_scurves oc_settlement set_pairs]; try done; [by apply wr_vote_target_ok|].
  destruct W8 as [? ? ? ? ? ?]. by split.
Qed.

Lemma elem_of_all vs a : registry_ok vs -> a ∈ validator_address <$> get_all_validators vs -> a <> 0.
Proof.
  intros Hr Ha ->. apply list_elem_of_fmap in Ha as (v & E & Hv). rewrite elem_of_get_all, <- E in Hv by done. assert (Hn : rd (address_to_index vs) 0 <> 0) by (rewrite <- get_validator_None; by rewrite Hv). by rewrite (ro_zero _ Hr) in Hn.
Qed.

Lemma resolve_registered vs o caller a : registry_ok vs -> resolve_validator_for_feeder vs o caller = Ok a -> a ∈ validator_address <$> get_all_validators vs.
Proof.
  intros Hr. unfold resolve_validator_for_feeder. rewrite self_feeder_false.
  assert (Hf : forall f v, List.find f (get_all_validators vs) = Some v -> validator_address v ∈ validator_address <$> get_all_validators vs)
    by (intros f v [Hin _]%List.find_some; by apply list_elem_of_fmap_2, list_elem_of_In).
  destruct (bool_decide _) eqn:Eb; cbn [andb].
  - apply bool_decide_eq_true in Eb. destruct (_ || _); [by intros [= <-]|]. destruct (List.find _ _) as [v|] eqn:Ef; [|done]. intros [= <-]. by eapply Hf.
  - destruct (List.find _ _) as [v|] eqn:Ef; [|done]. intros [= <-]. by eapply Hf.
Qed.

Lemma vote_step vs o caller tuples o' L S R :
  known_set vs -> Forall (fun t : B256 * U256 * U256 => 0 <= t.1.2 /\ 0 <= t.2) tuples -> len tuples < 2 ^ 32 -> vlen (voter_list (oc_votes o)) < 2 ^ 32 - 1 ->
  submit_vote vs o caller tuples = Ok o' -> oracle_wf o L S R -> Forall known L.*1 -> exists L', oracle_wf o' L' S R /\ Forall known L'.*1.
Proof.
  intros [Hr Hk] Hpos Hl Hroom E [W1 W2 W3 W4 [Hv Hw] W6 W7 W8 W9] HL. apply (submit_vote_iff vs o caller tuples L o' Hv Hl) in E as (a & Ea & (Hc & Hn & Ht) & Hna & ->).
  set (es := ballot_of (oc_pairs o) tuples). pose proof (po_count _ W3) as Hpc. assert (Hes : len es <= pair_count (oc_pairs o)) by (unfold es, ballot_of, len in *; rewrite length_fmap; done).
  pose proof (resolve_registered _ _ _ _ Hr Ea) as Hreg. exists (L ++ [(a, es)]). split.
  2:{ rewrite fmap_app. apply Forall_app. split; [done|]. constructor; [|done]. cbn [fst]. rewrite Forall_forall in Hk. by apply Hk. }
  split; cbn [oc_config oc_pairs oc_penalty oc_votes oc_history oc_scurves oc_settlement set_votes]; try done. split.
  - apply store_vote_rep; [done|done| |lia]. destruct (vr_list _ _ Hv) as (Hlen & _). rewrite length_fmap in Hlen. unfold len. lia.
  - apply Forall_app. split; [done|]. constructor; [|done]. rewrite Forall_forall in Ht. assert (Hid : forall t, t ∈ tuples -> rd (pair_hash_to_id (oc_pairs o)) t.1.1 <> 0) by (intros t Hin; by apply (po_target _ W3), Ht).
    split_and!; cbn [fst snd].
    + by eapply elem_of_all.
    + subst es. unfold ballot_of. rewrite <- !list_fmap_compose. apply NoDup_fmap_2_strong; [|by eapply NoDup_fmap_1]. intros [[h1 r1] v1] [[h2 r2] v2] H1 H2 E. cbn in E.
      assert (Eh : h1 = h2). { destruct (po_hash _ W3 _ (Hid _ H1)) as [_ F1]. destruct (po_hash _ W3 _ (Hid _ H2)) as [_ F2]. cbn in F1, F2. congruence. }
      subst h2. apply list_elem_of_lookup in H1 as [i Hi], H2 as [j Hj]. pose proof (NoDup_lookup _ i j h1 Hn) as Hq. rewrite !list_lookup_fmap, Hi, Hj in Hq. specialize (Hq eq_refl eq_refl). congruence.
    + apply Forall_fmap, Forall_forall. intros [[h r] v] Hin. cbn. destruct (po_hash _ W3 _ (Hid _ Hin)) as [Hb _]. exact Hb.
    + apply Forall_fmap. eapply Forall_impl; [exact Hpos|]. by intros [[h r] v].
Qed.

Lemma within_retention_filter S ts : Forall (fun s => s.1 <= ts) S -> within_retention (filter (fun s => saturating_sub ts MAX_SNAPSHOT_RETENTION_SECONDS <= s.1) S).
Proof.
  intros Hs s t [H1 _]%list_elem_of_filter [_ H2]%list_elem_of_filter. rewrite Forall_forall in Hs. specialize (Hs t H2). unfold saturating_sub in *. lia.
Qed.

Lemma Forall_filtered {A} (P Q : A -> Prop) `{forall x, Decision (Q x)} l : Forall P l -> Forall P (filter Q l).
Proof. intros Hl. apply Forall_forall. intros x [_ Hx]%list_elem_of_filter. rewrite Forall_forall in Hl. by apply Hl. Qed.

Lemma snapshot_step o h ts es L S R :
  oracle_wf o L S R -> Forall (fun t => t <= ts) S.*1 -> snapshot_write_idx (oc_history o) < 2 ^ 64 - 1 -> len es < 2 ^ 32 -> h = write_snapshot (oc_history o) ts es ->
  exists S', oracle_wf (set_history o h) L S' R /\ Forall (fun t => t <= ts) S'.*1.
Proof.
  intros [W1 W2 W3 W4 W5 (Hh & Hret & Hlen) W7 W8 W9] Hts Hroom Hes ->. eexists. assert (Hall : Forall (fun s => s.1 <= ts) (S ++ [(ts, es)])).
  { apply Forall_app. split; [by rewrite Forall_fmap in Hts|]. constructor; [cbn; lia|done]. }
  split.
  - split; cbn [oc_config oc_pairs oc_penalty oc_votes oc_history oc_scurves oc_settlement set_history]; try done. split; [by apply write_snapshot_rep|]. split; [by apply within_retention_filter|].
    apply Forall_filtered. apply Forall_app. split; [done|]. by constructor.
  - apply Forall_fmap, Forall_filtered. exact Hall.
Qed.

Lemma wadd_nonneg w a b : 0 <= w -> 0 <= wadd w a b.
Proof. intros Hw. unfold wadd. apply Z.mod_pos_bound. apply Z.pow_pos_nonneg; lia. Qed.

Lemma outcome_nonneg t c k : (let '(s, ab, m) := k in 0 <= s /\ 0 <= ab /\ 0 <= m) -> let '(s, ab, m) := outcome t c k in 0 <= s /\ 0 <= ab /\ 0 <= m.
Proof. destruct k as [[s ab] m]. intros (H1 & H2 & H3). unfold outcome. destruct (_ =? t); [|destruct (did_vote c)]; split_and!; (done || by apply wadd_nonneg). Qed.

Definition counters_nonneg (p : PenaltyCounters) : Prop := forall b, let '(s, ab, m) := counters p b in 0 <= s /\ 0 <= ab /\ 0 <= m.

Lemma count_claims_nonneg t cs : forall p, counters_nonneg p -> counters_nonneg (foldl (count_claim t) p cs).
Proof.
  induction cs as [|[a c] cs IH]; intros p Hp; [done|]. cbn [foldl]. apply IH. intros b. rewrite count_claim_counters. destruct (b =? a); [|apply Hp]. apply outcome_nonneg, Hp.
Qed.

Lemma abstains_nonneg (l : list ValidatorRecord) : forall p, counters_nonneg p -> counters_nonneg (foldl (fun p v => increment_abstain p (validator_address v)) p l).
Proof.
  induction l as [|v l IH]; intros p Hp; [done|]. cbn [foldl]. apply IH. intros b. rewrite counters_abstain. pose proof (Hp b) as Hb. destruct (counters p b) as [[s ab] m]. destruct (_ =? _); cbn [fst snd]; [|done]. split_and!; [lia|by apply wadd_nonneg|lia].
Qed.

Lemma wf_cleared o L S R : oracle_wf o L S R -> oracle_wf (set_votes o (clear_votes (oc_votes o))) [] S R.
Proof.
  intros [W1 W2 W3 W4 [Hv _] W6 W7 W8 W9]. split; cbn [oc_config oc_pairs oc_penalty oc_votes oc_history oc_scurves oc_settlement set_votes]; try done. split; [by eapply clear_votes_rep|constructor].
Qed.

Lemma wf_penalty o p L S R : counters_nonneg p -> oracle_wf o L S R -> oracle_wf (set_penalty o p) L S R.
Proof. intros Hp [W1 W2 W3 W4 W5 W6 W7 W8 W9]. by split. Qed.

Lemma votes_ok_wf p L : Forall (vote_wf p) L -> votes_ok L.
Proof. intros Hw. eapply Forall_impl; [exact Hw|]. by intros v (_ & Hn & _ & Hp). Qed.

(** What the tally leaves to the rest of the block. *)
Definition same_market (o o' : OracleContract) : Prop := oc_config o' = oc_config o /\ oc_pairs o' = oc_pairs o /\ oc_scurves o' = oc_scurves o.

Lemma tally_run_ok vs o bn ts o' L S R :
  oracle_wf o L S R -> Forall (fun t => t <= ts) S.*1 -> snapshot_write_idx (oc_history o) < 2 ^ 64 - 1 -> run_tally vs o bn ts = Ok o' ->
  same_market o o' /\ exists L' S', L' ⊆ L /\ oracle_wf o' L' S' R /\ Forall (fun t => t <= ts) S'.*1.
Proof.
  intros W Hts Hroom E. pose proof (list_subseteq_nil L) as Hnil. pose proof (wf_pairs _ _ _ _ W) as Hp. pose proof (wf_votes _ _ _ _ W) as [Hv Hw]. pose proof (vote_targets_bound _ Hp) as [Hn Hl].
  destruct (config_enabled (oc_config o)) eqn:Ee; [|unfold run_tally in E; rewrite Ee in E; cbn [negb] in E; injection E as <-; split; [done|exists L, S; done]].
  destruct (decide (active_addresses vs = [])) as [Ha|Ha].
  { unfold run_tally in E. rewrite Ee in E. unfold active_addresses in Ha. apply fmap_nil_inv in Ha. rewrite Ha in E. cbn [negb] in E. injection E as <-. split; [done|]. exists [], S. split; [done|]. split; [by eapply wf_cleared|done]. }
  destruct (decide (L = [])) as [->|HL].
  { unfold run_tally in E. rewrite Ee in E. cbn [negb] in E. destruct (get_active_validators vs) as [|a0 l0] eqn:Eg; [by unfold active_addresses in Ha; rewrite Eg in Ha|].
    rewrite (proj1 (vr_list _ _ Hv)) in E. cbn [fmap list_fmap length Z.of_nat Z.eqb] in E. injection E as <-. split; [done|]. exists [], S. split; [done|]. split; [|done].
    apply (wf_cleared (set_penalty o _) [] S R). apply wf_penalty; [|done]. apply (abstains_nonneg (a0 :: l0)). exact (wf_counters _ _ _ _ W). }
  destruct (decide (get_vote_targets (oc_pairs o) = [])) as [Ht|Ht].
  { unfold run_tally in E. rewrite Ee in E. cbn [negb] in E. destruct (get_active_validators vs) as [|a0 l0] eqn:Eg; [by unfold active_addresses in Ha; rewrite Eg in Ha|].
    rewrite (proj2 (Z.eqb_neq _ 0)) in E by (rewrite (proj1 (vr_list _ _ Hv)), length_fmap; destruct L; [done|cbn; lia]). rewrite Ht in E. cbn in E. injection E as <-. split; [done|]. exists [], S. split; [done|]. split; [by eapply wf_cleared|done]. }
  destruct (run_tally_ballots vs o bn ts L Hv (votes_ok_wf _ _ Hw) Ee Ha HL Ht Hl) as (st & [_ (es & Ees & _ & Hsub) _] & E'). rewrite E' in E. injection E as <-. cbn [ts_entries app] in Ees. subst es. split; [done|].
  assert (Hes : len (ts_entries st) < 2 ^ 32).
  { destruct (period_ballots_spec vs o L Hv (votes_ok_wf _ _ Hw)) as (Hpairs & _). assert (Hne : period_ballots vs o <> []) by (intros E0; by rewrite E0 in Hpairs).
    apply sublist_length in Hsub. rewrite (reference_first_perm _ Hne), Hpairs, !length_fmap in Hsub. unfold len in *. lia. }
  set (p' := foldl (count_claim _) (oc_penalty o) (ts_claims st)). assert (Hp' : counters_nonneg p') by (apply count_claims_nonneg; exact (wf_counters _ _ _ _ W)).
  pose proof (wf_penalty _ p' _ _ _ Hp' (wf_cleared _ _ _ _ W)) as W1. destruct (ts_entries st) as [|e0 es0] eqn:Ent.
  - exists [], S. split; [done|]. split; [|done]. by eapply wf_frame; [..|exact W1].
  - destruct (snapshot_step _ (write_snapshot (oc_history o) ts (e0 :: es0)) ts (e0 :: es0) [] S R W1 Hts Hroom Hes ltac:(reflexivity)) as (S' & W2 & Hts'). exists [], S'. split; [done|]. split; [|done]. by eapply wf_frame; [..|exact W2].
Qed.

Definition scurve_range (c : SCurves) : Prop := 0 <= scurve_oldest_idx c <= scurve_count c /\ scurve_count c < 2 ^ 32.

(** What the daily processing may change. *)
Definition same_but_curves (o o' : OracleContract) : Prop :=
  oc_config o' = oc_config o /\ oc_pairs o' = oc_pairs o /\ oc_penalty o' = oc_penalty o /\ oc_votes o' = oc_votes o /\ oc_history o' = oc_history o /\ oc_settlement o' = oc_settlement o.

Lemma evict_range c now : scurve_range c -> scurve_range (evict_expired_scurves c now) /\ scurve_count (evict_expired_scurves c now) = scurve_count c.
Proof.
  intros Hc. unfold evict_expired_scurves. cbv zeta. set (cutoff := saturating_sub _ _). destruct (first_unexpired_spec (Z.to_nat (scurve_count c - scurve_oldest_idx c)) c cutoff (scurve_oldest_idx c)) as (k & -> & Hk & _).
  destruct (_ =? _); [done|]. unfold scurve_range in *. cbn. split; [lia|done].
Qed.

Lemma process_range o pid ts :
  scurve_range (oc_scurves o) -> scurve_count (oc_scurves o) + 1 < 2 ^ 32 ->
  let o' := process_daily_scurve o pid ts in scurve_range (oc_scurves o') /\ scurve_count (oc_scurves o') <= scurve_count (oc_scurves o) + 1 /\ same_but_curves o o'.
Proof.
  intros Hc Hr. unfold process_daily_scurve. cbv zeta. destruct (_ || _ || _); [split; [done|]; split; [lia|done]|]. set (o1 := if _ && _ then _ else o).
  assert (H1 : scurve_range (oc_scurves o1) /\ scurve_count (oc_scurves o1) <= scurve_count (oc_scurves o) + 1 /\ same_but_curves o o1).
  { subst o1. destruct (_ && _); [|split; [done|]; split; [lia|done]]. cbn. rewrite wadd_small by (unfold scurve_range in Hc; lia). split; [|split; [lia|done]]. unfold scurve_range in *. cbn. rewrite wadd_small by lia. lia. }
  destruct H1 as (R1 & C1 & S1). destruct (evict_range _ ts R1) as [R2 C2]. cbn [oc_scurves set_scurves]. rewrite C2. done.
Qed.

Lemma process_all_range ts l : forall o,
  scurve_range (oc_scurves o) -> scurve_count (oc_scurves o) + len l < 2 ^ 32 ->
  let o' := foldl (fun o pid => if is_target_id (oc_pairs o) pid then process_daily_scurve o pid ts else o) o l in scurve_range (oc_scurves o') /\ same_but_curves o o'.
Proof.
  induction l as [|pid l IH]; intros o Hc Hr; [done|]. cbn [foldl]. unfold len in *. cbn [length] in Hr. destruct (is_target_id (oc_pairs o) pid); [|apply IH; [done|lia]].
  destruct (process_range o pid ts Hc ltac:(lia)) as (R1 & C1 & (S1 & S2 & S3 & S4 & S5 & S6)). destruct (IH (process_daily_scurve o pid ts) R1 ltac:(lia)) as (R2 & (T1 & T2 & T3 & T4 & T5 & T6)). split; [done|]. unfold same_but_curves. split_and!; congruence.
Qed.

Lemma wf_curves o o' L S R : oracle_wf o L S R -> scurve_range (oc_scurves o') -> same_but_curves o o' -> oracle_wf o' L S R.
Proof. intros [W1 W2 W3 W4 W5 W6 W7 W8 W9] Hc (E1 & E2 & E3 & E4 & E5 & E6). split; rewrite ?E1, ?E2, ?E3, ?E4, ?E5, ?E6; done. Qed.

Lemma begin_block_ok env vs o o' L S R :
  oracle_wf o L S R -> has_room o -> Forall (fun t => t <= timestamp env) S.*1 -> run_begin_block env vs o = Ok o' -> exists L' S', L' ⊆ L /\ oracle_wf o' L' S' R /\ Forall (fun t => t <= timestamp env) S'.*1.
Proof.
  intros W (_ & Hidx & Hcurve) Hts. unfold run_begin_block. cbv zeta. rewrite (wf_initialized _ _ _ _ W). cbn [negb].
  assert (Ht : forall o1, (if at_boundary (block_number env) (config_vote_period (oc_config o)) then run_tally vs o (block_number env) (timestamp env) else Ok o) = Ok o1 ->
    same_market o o1 /\ exists L' S', L' ⊆ L /\ oracle_wf o1 L' S' R /\ Forall (fun t => t <= timestamp env) S'.*1).
  { intros o1 E. destruct (at_boundary _ _); [by eapply tally_run_ok|]. injection E as <-. split; [done|by exists L, S]. }
  destruct (if at_boundary _ _ then _ else _) as [o1|] eqn:E1; [|done]. destruct (Ht o1 eq_refl) as ((Ec & Ep & Es) & L' & S' & HL & W1 & Hts1). destruct (_ && _); [|intros [= <-]; by exists L', S'].
  intros [= <-]. exists L', S'. split; [done|]. split; [|done]. pose proof (po_count _ (wf_pairs _ _ _ _ W)) as Hpc.
  assert (Hlen : scurve_count (oc_scurves o1) + len (pair_ids (oc_pairs o1)) < 2 ^ 32) by (rewrite Es, Ep; unfold pair_ids, len; rewrite length_seqZ; lia).
  destruct (process_all_range (timestamp env) (pair_ids (oc_pairs o1)) o1 (wf_scurves _ _ _ _ W1) Hlen) as [Hr Hs]. eapply wf_curves; [exact W1|exact Hr|exact Hs].
Qed.

Lemma reset_nonneg p a : counters_nonneg p -> counters_nonneg (reset_penalty_counter p a).
Proof. intros Hp b. rewrite counters_reset. case_decide; [lia|apply Hp]. Qed.

Lemma turn_wf a w w' L S R : turn a w w' -> oracle_wf (ow_oracle w) L S R -> oracle_wf (ow_oracle w') L S R.
Proof.
  intros [(E1 & E2 & (_ & E3 & E4 & E5 & E6) & E7) _ _] W. apply (wf_frame (set_penalty (ow_oracle w) (reset_penalty_counter (oc_penalty (ow_oracle w)) a))); try done; [intros b; by rewrite E7|].
  apply wf_penalty; [|done]. apply reset_nonneg. exact (wf_counters _ _ _ _ W).
Qed.

Lemma window_wf env l L S R : forall w w',
  foldM (slash_validator env (config_min_valid_per_window (oc_config (ow_oracle w))) (config_allow_protected (oc_config (ow_oracle w)))) w l = Ok w' ->
  oracle_wf (ow_oracle w) L S R -> oracle_wf (ow_oracle w') L S R.
Proof.
  induction l as [|v l IH]; intros [o cw] w' E W; [by injection E as <-|]. cbn [foldM ow_oracle] in *. destruct (slash_validator env _ _ (mkOracleWorld o cw) v) as [w1|] eqn:E1; [|done].
  apply slash_validator_turn in E1. pose proof (tn_oracle _ _ _ E1) as (Ec & _). cbn [ow_oracle] in Ec. rewrite <- Ec in E. apply (IH w1 w' E). by eapply turn_wf.
Qed.

Lemma slash_window_ok env o w o' w' L S R : run_slash_window env (mkOracleWorld o w) = Ok (mkOracleWorld o' w') -> oracle_wf o L S R -> oracle_wf o' L S R.
Proof.
  intros E W. unfold run_slash_window in E. cbv zeta in E. cbn [ow_oracle] in E. destruct (negb _); [by injection E as <- _|]. destruct (at_boundary _ _); [|by injection E as <- _].
  unfold slash_and_reset_counters in E. cbv zeta in E. cbn [ow_oracle] in E. inv_ok_step E. destruct (foldM _ _ _) as [w1|] eqn:E1; [|done]. injection E as <- _.
  pose proof (window_wf env _ L S R (mkOracleWorld o w) w1 E1 W) as W1. by eapply wf_frame; [..|exact W1].
Qed.

Lemma step_wf now ts R o o' : now <= ts -> run_ok now R o -> has_room o -> oracle_step ts o o' -> run_ok ts R o'.
Proof.
  intros Hle (L & S & W & Hk & Hts0) Hroom Hs. assert (Hts : Forall (fun t => t <= ts) S.*1) by (eapply Forall_impl; [exact Hts0|]; cbn; lia). clear Hts0.
  destruct Hs as [vs o caller tuples o' Hr Hpos Hl E|vs o validator feeder o' E|o caller base quote p E|o caller base quote p E|o caller base quote rate bn o' E|env vs o o' Hr Ht E|env o w o' w' Ht E|o day s e o' E].
  - destruct (vote_step vs o caller tuples o' L S R Hr Hpos Hl (proj1 Hroom) E W Hk) as (L' & W' & Hk'). by exists L', S.
  - unfold delegate_feeder in E. inv_ok_step E. apply Ok_inj in E. subst o'. exists L, S. split; [|by split]. by eapply wf_frame; [..|exact W].
  - unfold activate_vote_target in E. cbv zeta in E. do 2 inv_ok_step E. apply Ok_inj in E. subst p. bools. exists L, S. split; [|by split]. by apply wf_target.
  - unfold deactivate_vote_target in E. cbv zeta in E. do 2 inv_ok_step E. apply Ok_inj in E. subst p. bools. exists L, S. split; [|by split]. by apply wf_target.
  - unfold set_exchange_rate in E. cbv zeta in E. do 2 inv_ok_step E. apply Ok_inj in E. subst o'. exists L, S. split; [|by split]. by eapply wf_frame; [..|exact W].
  - subst ts. destruct (begin_block_ok env vs o o' L S R W Hroom Hts E) as (L' & S' & HL & W' & Hts'). exists L', S'. split; [done|]. split; [|done].
    apply Forall_forall. intros a (v & -> & Hv)%list_elem_of_fmap. rewrite Forall_forall in Hk. apply Hk, list_elem_of_fmap_2. by apply HL.
  - exists L, S. split; [|by split]. by eapply slash_window_ok.
  - unfold store_worldwide_day_vwap_snapshot in E. inv_ok_step E. apply Ok_inj in E. subst o'. exists L, S. split; [|by split]. by eapply wf_frame; [..|exact W].
Qed.

(** A run: steps at times that do not decrease, with room at each of them. *)
Inductive oracle_run : u64 -> OracleContract -> u64 -> OracleContract -> Prop :=
| RunNil now o : oracle_run now o now o
| RunCons now o ts o1 ts' o' : now <= ts -> has_room o -> oracle_step ts o o1 -> oracle_run ts o1 ts' o' -> oracle_run now o ts' o'.
End Run.

(** C9. The oracle stays well formed on every run of its calls and hooks, at times
    that do not decrease and while its indices have room: ids and names of pairs stay in bijection, a pending vote names registered pairs, each
    once, and belongs to a validator, the history stays sorted and within the
    retention window, and the counters, the S-curve range and the currencies keep
    their types. The voters are validators in this sense: for any set of addresses
    that contains every validator registered when a vote is submitted, and the
    voters pending at the start, the voters pending at the end are in that set. *)
Theorem oracle_run_wf `{KeccakLaws} known now o ts o' R : run_ok known now R o -> oracle_run known now o ts o' -> run_ok known ts R o'.
Proof. intros W Hr. induction Hr as [|now o ts o1 ts' o' Hle Hroom Hs Hr IH]; [done|]. apply IH. by eapply step_wf. Qed.

(** Validator 7 votes, next to the pending vote of validator 5. *)
Lemma oracle_run_wf_witness : exists o',
  submit_vote sample_validators sample_live 7 [] = Ok o' /\ run_ok (H := sample_crypto) (fun a => 5 <= a <= 7) (86400 * 20079) [840] o'.
Proof.
  destruct (submit_vote sample_validators sample_live 7 []) as [o'|e] eqn:E; [|vm_compute in E; discriminate E]. exists o'. split; [reflexivity|].
  apply (@oracle_run_wf sample_crypto sample_keccak (fun a => 5 <= a <= 7) (86400 * 20079) sample_live (86400 * 20079) o' [840]).
  - exists [(5, [(1, 500, 3)])], sample_prices. split; [exact sample_live_wf|]. split; [apply Forall_cons_2; [cbn; lia|by apply Forall_nil_2]|].
    repeat (apply Forall_cons_2; [vm_compute; discriminate|]). by apply Forall_nil_2.
  - assert (Ev : validator_address <$> get_all_validators sample_validators = [5; 6; 7]) by (vm_compute; reflexivity).
    eapply RunCons; [reflexivity|split_and!; vm_compute; reflexivity| |apply RunNil].
    apply (StepVote _ _ sample_validators sample_live 7 [] o'); [|by apply Forall_nil_2|reflexivity|exact E].
    split; [exact sample_registry_ok|]. rewrite Ev. repeat (apply Forall_cons_2; [lia|]). by apply Forall_nil_2.
Defined.
