(* ===== verification/OracleServices.v ===== *)
(** * OracleServices: the oracle behind the economic modules

    Lysis, Metadosis and the tribute factory are modelled against the classes
    [PriceOracle], [DayServices] and [OfferServices]. Here the oracle of this
    development implements the price operations of all three; what is left as a
    parameter is the auction ([AuctionStages]) and the enclave ([Enclave]). The
    theorems then hold of the modules composed with the real oracle. *)

From S2P Require Import Prelude Native Storage Time ValidatorSet Oracle OraclePrices OracleTally.
From S2P Require Import Tokens Emission Nod NodStore AgentReward Tribute Lysis Metadosis TributeFactory.

(** The stages of the auction, best effort. *)
Class AuctionStages (Y : Type) := {
  stage_start : Y -> u64 -> U256 -> Y * bool;
  stage_reveal : Y -> u64 -> bool -> Y * bool;
  stage_clearing : Y -> PromisLimit.PromisLimitContract -> u64 -> U256 -> Y * PromisLimit.PromisLimitContract * bool
}.

(** The enclave and the parsing of texts. *)
Class Enclave (Y : Type) := {
  run_enclave : Y -> EncryptedTributeOffer -> result string (list TributeOfferResult);
  decode_hex : string -> option (list Z);
  read_address : string -> option Address
}.

(** [api.rs] for a given state of the oracle. *)
Definition oracle_prices `{Crypto} (o : OracleContract) : PriceOracle := {|
  get_pair_id iso_code := Oracle.api_get_pair_id o iso_code;
  get_worldwide_day_vwap_for_pair_id day pair_id := Ok (OraclePrices.get_worldwide_day_vwap_for_pair_id (oc_days o) day pair_id);
  get_max_active_scurve_value day pair_id := Ok (OraclePrices.get_max_active_scurve_value (oc_scurves o) pair_id (WorldwideDay.to_timestamp_utc day))
|}.

Section Services.
Context `{Crypto} {Y : Type} `{AuctionStages Y} `{Enclave Y}.

(** Nothing is written before the averages are known. *)
Definition store_snapshot_on (x : OracleContract * Y) (day : u32) (start_time end_time : u64) : (OracleContract * Y) * res unit :=
  match OraclePrices.store_worldwide_day_vwap_snapshot x.1 day start_time end_time with
  | Ok o => ((o, x.2), Ok tt)
  | Err e => (x, Err e)
  end.

#[global] Instance oracle_days : DayServices (OracleContract * Y) := {|
  prices x := oracle_prices x.1;
  default_pair_hash := Oracle.pair_hash "COEN" "0xUSD";
  pair_hash_to_id x h := rd (Oracle.pair_hash_to_id (oc_pairs x.1)) h;
  snapshot_vwap x day pair_id := OraclePrices.get_worldwide_day_vwap_for_pair_id (oc_days x.1) day pair_id;
  store_snapshot := store_snapshot_on;
  dispatch_stage_start x ts price := let '(y, b) := stage_start x.2 ts price in ((x.1, y), b);
  dispatch_stage_reveal x ts green := let '(y, b) := stage_reveal x.2 ts green in ((x.1, y), b);
  dispatch_stage_clearing x p ts limit := let '(y, p, b) := stage_clearing x.2 p ts limit in ((x.1, y), p, b)
|}.

#[global] Instance oracle_offers : OfferServices (OracleContract * Y) := {|
  enclave x := run_enclave x.2;
  settlement_iso_to_pair x iso := rd (Oracle.settlement_iso_to_pair (oc_settlement x.1)) iso;
  registered_pair_id x h := rd (Oracle.pair_hash_to_id (oc_pairs x.1)) h;
  day_vwap x day pair_id := Ok (OraclePrices.get_worldwide_day_vwap_for_pair_id (oc_days x.1) day pair_id);
  max_scurve x pair_id ts := Ok (OraclePrices.get_max_active_scurve_value (oc_scurves x.1) pair_id ts);
  hex_decode := decode_hex;
  parse_address := read_address
|}.

(** ** The oracle only ever lacks data for the window of a day *)

Lemma collect_total (average : u32 -> res U256) lookback pids :
  (forall pid, (exists v, average pid = Ok v) \/ average pid = Err OraclePrices.NO_VWAP_DATA) ->
  exists rows, OraclePrices.collect_averages (OraclePrices.str_contains "no VWAP data") average lookback pids = Ok rows.
Proof.
  intros Ha. unfold OraclePrices.collect_averages. match goal with |- exists rows, foldM ?f [] pids = _ => enough (Hg : forall acc, exists rows, foldM f acc pids = Ok rows) by apply Hg end.
  induction pids as [|pid pids IH]; intros acc; [by exists acc|]. cbn [foldM]. destruct (Ha pid) as [[v ->]| ->]; apply IH.
Qed.

Lemma oracle_snapshots_ok : snapshots_ok (X := OracleContract * Y).
Proof.
  intros [o y] d a b Ha Hb. cbn [store_snapshot oracle_days]. unfold store_snapshot_on, OraclePrices.store_worldwide_day_vwap_snapshot, OraclePrices.calculate_vwaps. cbn [fst].
  rewrite (proj2 (Z.ltb_lt a b)) by lia. destruct (collect_total (fun pid => OraclePrices.calculate_vwap (oc_history o) pid a b) (b - a) (Oracle.get_vote_targets (oc_pairs o))) as [rows ->].
  { intros pid. apply OraclePrices.long_vwap_total; lia. }
  destruct rows; [vm_compute; reflexivity|done].
Qed.

(** ** The price and the type of a day that has formed *)

(** The average over the UTC day before day [n] and day [n] itself. *)
Definition two_day_vwap (W : list snapshot) (pair_id : u32) (n : Z) : option U256 :=
  match OraclePrices.average_of (OraclePrices.range_rows W pair_id (86400 * (n - 1)) (86400 * (n + 1))) with Ok v => Some v | Err _ => None end.

(** The pair whose average decides on the type of a day. *)
Definition typing_pair (w : World (OracleContract * Y)) : u32 := rd (Oracle.pair_hash_to_id (oc_pairs (w_ext w).1)) (oracle_pair_hash w).

Lemma previous_key n : 1 <= n < Calendar.horizon -> previous_date_key (Calendar.key (date n)) = Calendar.key (date (n - 1)).
Proof.
  intros Hn. unfold previous_date_key, saturating_sub. rewrite date_key_of_date by lia. rewrite Z.max_l by (unfold SECONDS_PER_DAY; lia).
  replace (n * SECONDS_PER_DAY - SECONDS_PER_DAY) with ((n - 1) * SECONDS_PER_DAY + 0) by lia. apply timestamp_key; [lia|done].
Qed.

Lemma previous_key_ne n : 1 <= n -> Calendar.key (date (n - 1)) <> Calendar.key (date n).
Proof. intros Hn. pose proof (key_date_mono (n - 1) 1 ltac:(lia) ltac:(lia)). replace (n - 1 + 1) with n in * by lia. lia. Qed.

(** The averages of a day that has none yet, also when no pair has a price. *)
Lemma day_snapshot_taken (o : OracleContract) (y : Y) d a b :
  0 < a -> a + 86400 <= b < 2 ^ 64 - 2 ^ 32 -> len (Oracle.get_vote_targets (oc_pairs o)) < 2 ^ 32 ->
  (forall p, OraclePrices.get_worldwide_day_vwap_for_pair_id (oc_days o) d p = None) ->
  exists o', (store_snapshot_on (o, y) d a b).1 = (o', y) /\ oc_pairs o' = oc_pairs o /\
    (forall p, OraclePrices.get_worldwide_day_vwap_for_pair_id (oc_days o') d p =
       if bool_decide (p ∈ Oracle.get_vote_targets (oc_pairs o)) then match OraclePrices.calculate_vwap (oc_history o) p a b with Ok v => Some v | Err _ => None end else None) /\
    (forall d' p, d' <> d -> OraclePrices.get_worldwide_day_vwap_for_pair_id (oc_days o') d' p = OraclePrices.get_worldwide_day_vwap_for_pair_id (oc_days o) d' p).
Proof.
  intros Ha Hb Hl Hn. unfold store_snapshot_on. cbn [fst snd]. destruct (OraclePrices.store_worldwide_day_vwap_snapshot o d a b) as [o'|e] eqn:E.
  - exists o'. destruct (OraclePrices.store_day_vwap_spec o d a b o' E Hl) as (H1' & H2' & E'). split; [done|]. split; [by rewrite E'|]. by split.
  - exists o. split; [done|]. split; [done|]. split; [|done]. intros p. rewrite Hn. revert E. unfold OraclePrices.store_worldwide_day_vwap_snapshot, OraclePrices.calculate_vwaps.
    rewrite (proj2 (Z.ltb_lt a b)) by lia. destruct (collect_total (fun pid => OraclePrices.calculate_vwap (oc_history o) pid a b) (b - a) (Oracle.get_vote_targets (oc_pairs o))) as [rows Er].
    { intros pid. apply OraclePrices.long_vwap_total; lia. }
    rewrite Er. destruct rows; [|done]. intros _. apply OraclePrices.collect_averages_Ok in Er.
    pose proof (OraclePrices.find_averages (fun pid => OraclePrices.calculate_vwap (oc_history o) pid a b) (b - a) (Oracle.get_vote_targets (oc_pairs o)) p) as Hf. cbv beta in Er, Hf. by rewrite <- Er in Hf.
Qed.

(** What a day loads from the averages that are stored. *)
Lemma load_rates_exact (w : World (OracleContract * Y)) d :
  let stored day := default 0 (OraclePrices.get_worldwide_day_vwap_for_pair_id (oc_days (w_ext w).1) day (typing_pair w)) in
  let current := stored d in let previous := stored (previous_date_key d) in
  let w' := load_worldwide_day_rates_from_oracle_snapshots w d in
  typing_pair w <> 0 ->
  current_vwap (entry (w_md w') d) = current /\ previous_vwap (entry (w_md w') d) = (if current =? 0 then 0 else previous) /\
  wwd_type (entry (w_md w') d) = (if negb (previous =? 0) && negb (current =? 0) && (previous <? current) then day_type.GREEN else day_type.RED) /\
  w_ext w' = w_ext w.
Proof.
  intros stored current previous w' Hp. assert (Ev : forall day, oracle_worldwide_day_vwap_snapshot_value w day = stored day).
  { intros day. unfold oracle_worldwide_day_vwap_snapshot_value. change (pair_hash_to_id (w_ext w) (oracle_pair_hash w)) with (typing_pair w). by rewrite (proj2 (Z.eqb_neq _ 0) Hp). }
  subst w'. unfold load_worldwide_day_rates_from_oracle_snapshots. rewrite !Ev. fold current previous.
  destruct (current =? 0) eqn:Ec; cbn [w_md set_md w_ext]; unfold set_day_type, wr_vwaps; rewrite !entry_wr, !decide_True by done; cbn [current_vwap previous_vwap wwd_type].
  - bools. by rewrite Ec, andb_false_r.
  - split; [done|]. split; [done|]. split; [|done]. unfold determine_day_type. rewrite Ec, orb_false_r, Z.gtb_ltb. by destruct (previous =? 0).
Qed.

(** C10. A day that has formed is priced by the oracle without fail: storing its
    averages and loading them never errs, whatever prices were recorded. Its current
    price is the average of the day before and of the day itself, in UTC, or zero
    without prices; its previous price is what was stored for the day before. The day
    is green exactly if both prices exist and the current one is higher, and red
    otherwise. The averages of other days and the registered pairs do not change. *)
Theorem formed_day_priced (w : World (OracleContract * Y)) (n : Z) (W : list snapshot) :
  let d := Calendar.key (date n) in
  let o := (w_ext w).1 in
  let stored x day := OraclePrices.get_worldwide_day_vwap_for_pair_id (oc_days x) day (typing_pair w) in
  2 <= n < Calendar.horizon ->
  forming_start (entry (w_md w) d) = WorldwideDay.start_timestamp d -> forming_end (entry (w_md w) d) = WorldwideDay.start_timestamp d + 50 * 3600 ->
  OraclePrices.daily_rep (oc_history o) W -> OraclePrices.rows_pos W ->
  (forall p, OraclePrices.sums_fit (OraclePrices.range_rows W p (86400 * (n - 1)) (86400 * (n + 1)))) ->
  len (Oracle.get_vote_targets (oc_pairs o)) < 2 ^ 32 -> typing_pair w ∈ Oracle.get_vote_targets (oc_pairs o) -> typing_pair w <> 0 ->
  (forall p, OraclePrices.get_worldwide_day_vwap_for_pair_id (oc_days o) d p = None) ->
  exists w', (let? v := store_worldwide_day_vwap_snapshot w d in Ok (load_worldwide_day_rates_from_oracle_snapshots v d)) = Ok w' /\
    let current := default 0 (two_day_vwap W (typing_pair w) n) in
    let previous := default 0 (stored o (Calendar.key (date (n - 1)))) in
    current_vwap (entry (w_md w') d) = current /\
    previous_vwap (entry (w_md w') d) = (if current =? 0 then 0 else previous) /\
    wwd_type (entry (w_md w') d) = (if negb (previous =? 0) && negb (current =? 0) && (previous <? current) then day_type.GREEN else day_type.RED) /\
    stored (w_ext w').1 d = two_day_vwap W (typing_pair w) n /\
    (forall d' p, d' <> d -> OraclePrices.get_worldwide_day_vwap_for_pair_id (oc_days (w_ext w').1) d' p = OraclePrices.get_worldwide_day_vwap_for_pair_id (oc_days o) d' p) /\
    oc_pairs (w_ext w').1 = oc_pairs o.
Proof.
  intros d o stored Hn Hfs Hfe Hd Hr Hf Hl Hp Hp0 Hnone.
  assert (Eu : date_key_to_utc_timestamp d = n * 86400) by (apply date_key_of_date; lia).
  assert (Es : WorldwideDay.start_timestamp d = 86400 * (n - 1) + 10 * 3600).
  { unfold WorldwideDay.start_timestamp, saturating_sub, UTC_PLUS_14_OFFSET. rewrite Eu. lia. }
  rewrite Es in Hfs, Hfe. unfold Calendar.horizon in Hn.
  unfold store_worldwide_day_vwap_snapshot, oracle_store_worldwide_day_vwap_snapshot. rewrite Hfs, Hfe. clear Es.
  set (a := 86400 * (n - 1) + 10 * 3600) in *. set (b := a + 50 * 3600) in *.
  pose proof (oracle_snapshots_ok (w_ext w) d a b ltac:(lia) ltac:(lia)) as Hok.
  destruct (day_snapshot_taken o (w_ext w).2 d a b ltac:(lia) ltac:(lia) Hl Hnone) as (o' & E1 & E2 & E3 & E4).
  assert (Hst : forall k : World (OracleContract * Y) -> res (World (OracleContract * Y)),
    (let? v := match store_snapshot (w_ext w) d a b with
     | (x, Ok _) => Ok (set_ext w x)
     | (x, Err (Revert msg)) => if contains "no VWAP data" msg then Ok (set_ext w x) else Err (Revert msg)
     | (_, Err e) => Err e
     end in k v) = k (set_ext w (o', (w_ext w).2))).
  { intros k. revert Hok E1. subst o. rewrite <- surjective_pairing. change (store_snapshot_on (w_ext w)) with (store_snapshot (w_ext w)).
    destruct (store_snapshot (w_ext w) d a b) as [x [u|[] ]]; cbn [fst snd]; try done; [by intros _ ->|]. by intros -> ->. }
  rewrite Hst. clear Hst Hok E1. eexists. split; [reflexivity|].
  assert (Ec : stored o' d = two_day_vwap W (typing_pair w) n).
  { subst stored. cbv beta. rewrite E3, bool_decide_eq_true_2 by done. unfold two_day_vwap.
    assert (D1 : OraclePrices.day_of a = 86400 * (n - 1)) by (apply OraclePrices.day_of_add; lia).
    assert (D2 : OraclePrices.day_of b = 86400 * (n + 1)) by (replace b with (86400 * (n + 1) + 12 * 3600) by lia; apply OraclePrices.day_of_add; lia).
    rewrite (OraclePrices.long_window_vwap (oc_history o) W (typing_pair w) a b); rewrite ?D1, ?D2; [done|done|done|lia|lia|lia|apply Hf]. }
  assert (Et : typing_pair (set_ext w (o', (w_ext w).2)) = typing_pair w) by (unfold typing_pair; cbn [w_ext set_ext fst]; by rewrite E2).
  pose proof (load_rates_exact (set_ext w (o', (w_ext w).2)) d) as L. cbv zeta in L. rewrite Et in L. specialize (L Hp0).
  cbn [w_ext set_ext fst] in L. rewrite (previous_key n ltac:(unfold Calendar.horizon; lia) : previous_date_key d = _) in L.
  rewrite (E4 (Calendar.key (date (n - 1)))) in L by (apply previous_key_ne; lia). subst stored. cbv beta in Ec |- *. rewrite Ec in L. destruct L as (L1 & L2 & L3 & ->). by split_and!.
Qed.
End Services.

(** ** A sample day *)

#[local] Existing Instance sample_crypto.
#[local] Existing Instance sample_keccak.

#[local] Instance sample_stages : AuctionStages unit := {|
  stage_start y _ _ := (y, true);
  stage_reveal y _ _ := (y, true);
  stage_clearing y p _ _ := (y, p, true)
|}.
#[local] Instance sample_tee : Enclave unit := {|
  run_enclave _ _ := Err "offline";
  decode_hex _ := None;
  read_address _ := None
|}.

(** 2024-12-20 has formed; the day before has no price. *)
Definition sample_formed : World (OracleContract * unit) :=
  mkWorld (mkMetadosis 0 (<[20241220 := mkDay 20241220 status.FORMING day_type.UNKNOWN (86400 * 20076 + 36000) (86400 * 20078 + 43200) (86400 * 20079) (86400 * 20080) (86400 * 20081) 0 0]> ∅)
             ∅ ∅ (mkVec 1 (<[0 := 20241220]> ∅)) 0 ∅ (mkVec 0 ∅))
    (sample_lysis empty_tributes) (PromisLimit.mkLimit 0) (OraclePrices.sample_market OraclePrices.sample_prices, tt).

Lemma formed_day_priced_witness :
  exists w', (let? v := store_worldwide_day_vwap_snapshot sample_formed 20241220 in Ok (load_worldwide_day_rates_from_oracle_snapshots v 20241220)) = Ok w' /\
    current_vwap (entry (w_md w') 20241220) = 6 /\ wwd_type (entry (w_md w') 20241220) = day_type.RED.
Proof.
  destruct OraclePrices.sample_rows as [Hp Hf]. pose proof (OraclePrices.write_all_daily _ (OraclePrices.rows_pos_nonneg _ Hp) Hf) as Hd.
  destruct (formed_day_priced sample_formed 20077 OraclePrices.sample_prices ltac:(split; [done|reflexivity]) ltac:(reflexivity) ltac:(reflexivity) Hd Hp) as (w' & E & E1 & _ & E3 & _).
  - intros pid. destruct (OraclePrices.sums_le_total OraclePrices.sample_prices (fun s => 86400 * (20077 - 1) <= s.1 < 86400 * (20077 + 1)) pid (OraclePrices.rows_pos_nonneg _ Hp)). destruct Hf. split; unfold OraclePrices.range_rows; lia.
  - reflexivity.
  - apply (bool_decide_eq_true_1 _). vm_compute. reflexivity.
  - apply (bool_decide_eq_true_1 _). vm_compute. reflexivity.
  - reflexivity.
  - exists w'. split; [exact E|]. split; [exact E1|exact E3].
Defined.
