(* ===== verification/Gem.v ===== *)
(** * Gem: the Gem store, its qualifier and the Gem factory

    [crates/core/gem] and [crates/core/gemfactory]. A gem is minted at the oracle's
    rate, parked in the price bin of its floor price while it is [Issued], qualified
    by the begin-block hook when it is mature and the rate is above its floor,
    settled by its owner against its cost and finally burned for Promis. Storage keys
    are hashes of their parts, as in the code; the calls to the asset and the vault
    are parameters. *)

From S2P Require Import Prelude LbMath BinTree Storage Tokens ValidatorSet Rewards Nod NodStore Oracle.

(** ** Lists in hashed slots

    An owner index and a price bin are both a count per key and one slot per
    position, at the hash of key and position. *)

Section Slots.
Variable slot_key : Z -> Z -> Z.

Definition slot_push (counts slots : gmap Z Z) (k v : Z) : gmap Z Z * gmap Z Z :=
  let count := rd counts k in
  (<[k := wadd 32 count 1]> counts, <[slot_key k count := v]> slots).

(** The first position that holds a value. *)
Definition slot_find (counts slots : gmap Z Z) (k v : Z) : option Z :=
  List.find (fun i => rd slots (slot_key k i) =? v) (seqZ 0 (rd counts k)).

(** Move the last value to a position and drop the last slot. *)
Definition slot_remove (counts slots : gmap Z Z) (k idx : Z) : gmap Z Z * gmap Z Z :=
  let last := rd counts k - 1 in
  let slots := if negb (idx =? last) then <[slot_key k idx := rd slots (slot_key k last)]> slots else slots in
  (<[k := last]> counts, <[slot_key k last := 0]> slots).
End Slots.

(** ** [schema.rs] *)

Inductive GemState : Type := Issued | Qualified | Settled.
Definition gem_state_code (s : GemState) : Z := match s with Issued => 0 | Qualified => 1 | Settled => 2 end.

Definition gem_type_code (t : GemTypes) : Z :=
  match t with Genesis => 0 | Rewards.Validator => 1 | Sra => 2 | Wallet => 3 | Cca => 4 | Merchant => 5 end.

Record GemData := mkGem {
  gem_id : U256;
  gem_owner : Address;
  gem_type : Z;
  gem_load : U256;
  gem_entry_price : U256;
  gem_cost_amount : U256;
  gem_floor_price : U256;
  gem_issuance_currency : Z;
  gem_reference_currency : Z;
  gem_state : Z;
  gem_issued_at : u64
}.

#[global] Instance gem_record : StorageRecord Z GemData :=
  {| rec_key := gem_id; rec_exists := fun g => negb (gem_owner g =? 0); rec_name := "GemData" |}.

Inductive GemEvent : Type :=
| GemQualified (gemId : U256) (qualifiedAt : u64)
| GemIssued (gemId : U256) (gemType : Z) (owner : Address) (gemLoad entryPrice costAmount floorPrice : U256) (issuedAt : u64)
| GemSettled (gemId : U256) (owner : Address) (amountPaid : U256) (issuanceCurrency : Z)
| GemBurned (gemId : U256) (owner : Address) (gemLoad : U256).

Record GemContract := mkGems {
  gem_supply : u64;
  gem_items : gmap U256 GemData;
  owner_gem_counts : gmap Address u32;
  owner_gem_ids : gmap B256 U256;
  all_gem_ids : SVec U256;
  gem_index : gmap U256 u32;
  gem_tree_root : U256;
  gem_tree_mid : gmap u32 U256;
  gem_tree_leaf : gmap u32 U256;
  gem_bin_count : gmap u32 u32;
  gem_bin_gems : gmap B256 U256;
  gem_logs : list GemEvent
}.

Definition set_gem_supply (g : GemContract) (v : u64) : GemContract := {| g with gem_supply := v |}.
Definition set_gem_items (g : GemContract) (v : gmap U256 GemData) : GemContract := {| g with gem_items := v |}.
Definition set_owner_gems (g : GemContract) (v : gmap Address u32 * gmap B256 U256) : GemContract :=
  {| g with owner_gem_counts := v.1; owner_gem_ids := v.2 |}.
Definition set_all_gem_ids (g : GemContract) (v : SVec U256) : GemContract := {| g with all_gem_ids := v |}.
Definition wr_gem_index (g : GemContract) (k : U256) (v : u32) : GemContract := {| g with gem_index := <[k := v]> (gem_index g) |}.
Definition set_gem_bins (g : GemContract) (v : gmap u32 u32 * gmap B256 U256) : GemContract :=
  {| g with gem_bin_count := v.1; gem_bin_gems := v.2 |}.
Definition gem_emit (g : GemContract) (e : GemEvent) : GemContract := {| g with gem_logs := gem_logs g ++ [e] |}.

#[global] Instance gem_tree_storage : BinTreeStorage GemContract := {|
  read_root := gem_tree_root;
  write_root g v := {| g with gem_tree_root := v |};
  read_mid g k := rd (gem_tree_mid g) k;
  write_mid g k v := {| g with gem_tree_mid := <[k := v]> (gem_tree_mid g) |};
  read_leaf g k := rd (gem_tree_leaf g) k;
  write_leaf g k v := {| g with gem_tree_leaf := <[k := v]> (gem_tree_leaf g) |}
|}.

#[global] Instance gem_tree_laws : BinTreeLaws GemContract.
Proof. split; intros; try done; apply rd_insert. Qed.

(** [From<GemError>]: the message of the error. *)
Definition GemNotFound : PrecompileError := Revert "gem not found".

Definition MATURITY_PERIOD_SECONDS : u64 := 21 * 24 * 60 * 60.
Definition QUALIFIER_REFERENCE_ISO : Z := 840.

Section Gem.
Context `{Crypto}.

(** ** [state.rs] *)

(** The ASCII bytes of [b"gem"]. *)
Definition GEM_TAG : list Z := [103; 101; 109].

Definition generate_gem_id (owner : Address) (amount : U256) (block_number : u64) : U256 :=
  keccak256 (GEM_TAG ++ be_bytes 20 owner ++ be_bytes 32 amount ++ be_bytes 8 block_number).

Definition get_gem (g : GemContract) (id : U256) : option GemData := rget (gem_items g) id.

Definition gem_owner_of (g : GemContract) (id : U256) : res Address :=
  let? item := ok_or (get_gem g id) GemNotFound in Ok (gem_owner item).

Definition token_of_owner_by_index (g : GemContract) (owner : Address) (index : u32) : res U256 :=
  let count := rd (owner_gem_counts g) owner in
  ensure negb (index >=? count) else Revert "index out of bounds" in
  Ok (rd (owner_gem_ids g) (owner_index_key owner index)).

Definition insert_unqualified (g : GemContract) (id floor_price : U256) : res GemContract :=
  let? bin_id := price_to_bin floor_price in
  let g := set_gem_bins g (slot_push bin_index_key (gem_bin_count g) (gem_bin_gems g) bin_id id) in
  Ok (fst (add g bin_id)).

Definition remove_unqualified (g : GemContract) (id floor_price : U256) : res GemContract :=
  let? bin_id := price_to_bin floor_price in
  let count := rd (gem_bin_count g) bin_id in
  if count =? 0 then Ok g else
  match slot_find bin_index_key (gem_bin_count g) (gem_bin_gems g) bin_id id with
  | None => Ok g
  | Some idx =>
      let g := set_gem_bins g (slot_remove bin_index_key (gem_bin_count g) (gem_bin_gems g) bin_id idx) in
      Ok (if count - 1 =? 0 then fst (remove g bin_id) else g)
  end.

Definition add_gem (g : GemContract) (item : GemData) : res GemContract :=
  ensure negb (rexists (gem_items g) (gem_id item)) else Revert "gem already exists" in
  let? items := rcreate (gem_items g) item in
  let g := set_gem_items g items in
  let g := set_owner_gems g (slot_push owner_index_key (owner_gem_counts g) (owner_gem_ids g) (gem_owner item) (gem_id item)) in
  let idx := vlen (all_gem_ids g) in
  let g := set_all_gem_ids g (vec_push (all_gem_ids g) (gem_id item)) in
  let g := wr_gem_index g (gem_id item) idx in
  let g := set_gem_supply g (wadd 64 (gem_supply g) 1) in
  if gem_state item =? gem_state_code Issued then insert_unqualified g (gem_id item) (gem_floor_price item) else Ok g.

Definition compact_gem_owner (g : GemContract) (owner : Address) (id : U256) : res GemContract :=
  let? _ := ok_or (checked_sub (rd (owner_gem_counts g) owner) 1) GemNotFound in
  let? idx := ok_or (slot_find owner_index_key (owner_gem_counts g) (owner_gem_ids g) owner id) GemNotFound in
  Ok (set_owner_gems g (slot_remove owner_index_key (owner_gem_counts g) (owner_gem_ids g) owner idx)).

(** The swap-and-pop on the list of all gems. *)
Definition unlist_gem (g : GemContract) (id : U256) : res GemContract :=
  let idx := rd (gem_index g) id in
  let? last := ok_or (checked_sub (vlen (all_gem_ids g)) 1) GemNotFound in
  let? g :=
    if negb (idx =? last) then
      let? last_id := ok_or (vec_get (all_gem_ids g) last) GemNotFound in
      let? v := vec_set (all_gem_ids g) idx last_id in
      Ok (wr_gem_index (set_all_gem_ids g v) last_id idx)
    else Ok g in
  let g := set_all_gem_ids g (fst (vec_pop (all_gem_ids g))) in
  Ok (wr_gem_index g id 0).

Definition burn_gem (g : GemContract) (item : GemData) : res GemContract :=
  let g := set_gem_items g (rdelete (gem_items g) (gem_id item)) in
  let? g := unlist_gem g (gem_id item) in
  let? g := compact_gem_owner g (gem_owner item) (gem_id item) in
  Ok (if gem_supply g >? 0 then set_gem_supply g (gem_supply g - 1) else g).

Definition set_state (g : GemContract) (id : U256) (new_state : GemState) : res GemContract :=
  let? item := ok_or (get_gem g id) GemNotFound in
  let? g :=
    if (gem_state item =? gem_state_code Issued) && negb (gem_state_code new_state =? gem_state_code Issued)
    then remove_unqualified g id (gem_floor_price item) else Ok g in
  let? items := rupdate (gem_items g) {| item with gem_state := gem_state_code new_state |} in
  Ok (set_gem_items g items).

(** ** [runtime.rs] and [hooks.rs] *)

Definition qualify (g : GemContract) (id : U256) (now : u64) (rate : U256) : res (GemContract * bool) :=
  let? item := ok_or (get_gem g id) GemNotFound in
  if negb (gem_state item =? gem_state_code Issued) then Ok (g, false) else
  if negb (gem_reference_currency item =? QUALIFIER_REFERENCE_ISO) then Ok (g, false) else
  let mature_at := saturating_add 64 (gem_issued_at item) MATURITY_PERIOD_SECONDS in
  if now <=? mature_at then Ok (g, false) else
  if rate <=? gem_floor_price item then Ok (g, false) else
  let? g := set_state g id Qualified in
  Ok (gem_emit g (GemQualified id now), true).

(** The ids of a bin, read before any of them is touched. *)
Definition read_bin_gems (g : GemContract) (bin_id : u32) : list U256 :=
  filter (fun id => id <> 0) ((fun i => rd (gem_bin_gems g) (bin_index_key bin_id i)) <$> seqZ 0 (rd (gem_bin_count g) bin_id)).

Definition qualify_one (now : u64) (rate : U256) (st : GemContract * u32) (id : U256) : res (GemContract * u32) :=
  let '(g, promoted) := st in
  let? (g, done) := qualify g id now rate in
  Ok (g, if (done : bool) then saturating_add 32 promoted 1 else promoted).

(** One turn of the walk over the bins. *)
Definition scan_step (now : u64) (rate : U256) (r_bin : u32) (s : GemContract * u32 * u32) : (GemContract * u32 * u32) + res (GemContract * u32) :=
  let '(g, promoted, cursor) := s in
  match find_first_left_inclusive g cursor with
  | Some next =>
      if next <=? r_bin then
        match foldM (qualify_one now rate) (g, promoted) (read_bin_gems g next) with
        | Err e => inr (Err e)
        | Ok (g, promoted) =>
            match checked_add 32 next 1 with
            | Some c => if c <=? MAX_BIN_ID then inl (g, promoted, c) else inr (Ok (g, promoted))
            | None => inr (Ok (g, promoted))
            end
        end
      else inr (Ok (g, promoted))
  | None => inr (Ok (g, promoted))
  end.

Definition scan_and_qualify (o : OracleContract) (g : GemContract) (now : u64) : res (GemContract * u32) :=
  let pair_hash := rd (settlement_iso_to_pair (oc_settlement o)) QUALIFIER_REFERENCE_ISO in
  if pair_hash =? 0 then Ok (g, 0) else
  let rate := rd (exchange_rate (oc_rates o)) pair_hash in
  if rate =? 0 then Ok (g, 0) else
  let? r_bin := price_to_bin rate in
  match loopP qualify_fuel (scan_step now rate r_bin) (g, 0, 0) with
  | inr r => r
  | inl _ => Err (Fatal "unreachable")
  end.
End Gem.

(** ** The Gem factory *)

Definition GEM_FACTORY_ADDRESS : Address := 0x2013.
Definition RESERVE_VAULT : Address := 0xC8ce1EFE882B0fbb1E2ABBEed828316bb282b76d.
Definition FLOOR_MARKUP_PERCENT : Z := 108.
Definition SRA_COEFFICIENT_PERCENT : Z := 64.

Record GemFactoryContract := mkGemFactory { total_gems_issued : U256; total_intex_parked : U256 }.
Record GemWorld := mkGemWorld { gw_gem : GemContract; gw_factory : GemFactoryContract; gw_promis : Promis.Promis }.

(** [GemAddParams] *)
Record GemAddParams := mkGemParams {
  ga_owner : Address;
  ga_type : Z;
  ga_load : U256;
  ga_entry_price : U256;
  ga_cost_amount : U256;
  ga_floor_price : U256;
  ga_issuance_currency : Z;
  ga_reference_currency : Z;
  ga_initial_state : GemState;
  ga_issued_at : u64
}.

Definition GemOverflow : PrecompileError := Revert "overflow".

(** [(entry * load * percent / 100) / 1e18] *)
Definition compute_cost (entry load percent : U256) : res U256 :=
  let? acc := ok_or (checked_mul 256 entry load) GemOverflow in
  let? acc := ok_or (checked_mul 256 acc percent) GemOverflow in
  Ok (acc / 100 / SCALE_1E18).

Definition floor_with_markup (coen_rate : U256) : res U256 :=
  let? acc := ok_or (checked_mul 256 coen_rate FLOOR_MARKUP_PERCENT) GemOverflow in
  Ok (acc / 100).

Definition compute_params (t : GemTypes) (load coen_rate : U256) : res (U256 * U256 * GemState) :=
  match t with
  | Merchant => Err (Revert "merchant flow deferred")
  | Genesis =>
      let? cost := compute_cost coen_rate load 100 in
      let? floor := floor_with_markup coen_rate in
      Ok (cost, floor, Qualified)
  | Sra =>
      let? cost := compute_cost coen_rate load SRA_COEFFICIENT_PERCENT in
      let? floor := floor_with_markup coen_rate in
      Ok (cost, floor, Issued)
  | Rewards.Validator | Wallet | Cca =>
      let? cost := compute_cost coen_rate load 100 in
      let? floor := floor_with_markup coen_rate in
      Ok (cost, floor, Issued)
  end.

Definition read_oracle_rate (o : OracleContract) (issuance_currency : Z) : res U256 :=
  let pair_hash := rd (settlement_iso_to_pair (oc_settlement o)) issuance_currency in
  ensure negb (pair_hash =? 0) else Revert "issuance currency is not registered" in
  let rate := rd (exchange_rate (oc_rates o)) pair_hash in
  ensure negb (rate =? 0) else Revert "oracle nominal unavailable" in
  Ok rate.

Section GemFactory.
Context `{Crypto}.

(** [gem/src/api.rs] *)
Definition api_add_gem (g : GemContract) (block_number : u64) (params : GemAddParams) : res (GemContract * U256) :=
  ensure negb (ga_owner params =? 0) else Revert "invalid owner" in
  let id := generate_gem_id (ga_owner params) (ga_load params) block_number in
  let item := mkGem id (ga_owner params) (ga_type params) (ga_load params) (ga_entry_price params) (ga_cost_amount params) (ga_floor_price params)
                (ga_issuance_currency params) (ga_reference_currency params) (gem_state_code (ga_initial_state params)) (ga_issued_at params) in
  let? g := add_gem g item in
  Ok (g, id).

Definition api_burn (g : GemContract) (id : U256) : res GemContract :=
  let? item := ok_or (get_gem g id) GemNotFound in
  ensure gem_state item =? gem_state_code Settled else Revert "invalid state transition" in
  burn_gem g item.

Definition mint_gem (o : OracleContract) (block_number now : u64) (w : GemWorld) (owner : Address) (t : GemTypes) (load : U256)
    (issuance_currency reference_currency : Z) : res (GemWorld * U256) :=
  ensure negb (owner =? 0) else Revert "invalid owner" in
  ensure negb (gem_type_code t =? gem_type_code Merchant) else Revert "merchant flow deferred" in
  let? _ := check_reference_currency (oc_settlement o) reference_currency in
  let? coen_rate := read_oracle_rate o issuance_currency in
  let? (cost_amount, floor_price, initial_state) := compute_params t load coen_rate in
  let entry_price := coen_rate in
  let params := mkGemParams owner (gem_type_code t) load entry_price cost_amount floor_price issuance_currency reference_currency initial_state now in
  let? (g, id) := api_add_gem (gw_gem w) block_number params in
  let? total := ok_or (checked_add 256 (total_gems_issued (gw_factory w)) 1) GemOverflow in
  let g := gem_emit g (GemIssued id (gem_type_code t) owner load entry_price cost_amount floor_price now) in
  Ok (mkGemWorld g (mkGemFactory total (total_intex_parked (gw_factory w))) (gw_promis w), id).

Section Settle.
(** A call to another contract, which may change anything or fail, and the first
    asset of the vault. *)
Variable call : GemWorld -> Address -> ExtCall -> res GemWorld.
Variable asset_at : GemWorld -> res Address.

Definition read_reserve_asset (w : GemWorld) : res Address :=
  let? asset := asset_at w in
  ensure negb (asset =? 0) else Revert "invalid asset" in
  Ok asset.

Definition deposit_to_vault (w : GemWorld) (caller : Address) (amount : U256) : res GemWorld :=
  let? asset := read_reserve_asset w in
  let? w := call w asset (TransferFrom caller GEM_FACTORY_ADDRESS amount) in
  let? w := call w asset (Approve RESERVE_VAULT amount) in
  call w RESERVE_VAULT (DepositLiquidity asset amount).

Definition set_gw_gem (w : GemWorld) (g : GemContract) : GemWorld := mkGemWorld g (gw_factory w) (gw_promis w).

Definition settle_gem (w : GemWorld) (caller : Address) (id : U256) : res GemWorld :=
  let? item := ok_or (get_gem (gw_gem w) id) GemNotFound in
  ensure gem_owner item =? caller else Revert "not gem owner" in
  ensure gem_state item =? gem_state_code Qualified else Revert "invalid state for action" in
  let? g := set_state (gw_gem w) id Settled in
  let? w := (if negb (gem_cost_amount item =? 0) then deposit_to_vault (set_gw_gem w g) caller (gem_cost_amount item) else Ok (set_gw_gem w g)) in
  Ok (set_gw_gem w (gem_emit (gw_gem w) (GemSettled id caller (gem_cost_amount item) (gem_issuance_currency item)))).
End Settle.

Definition mine_gem_promis (w : GemWorld) (caller : Address) (id nonce : U256) : res (GemWorld * U256) :=
  let? item := ok_or (get_gem (gw_gem w) id) GemNotFound in
  ensure gem_owner item =? caller else Revert "not gem owner" in
  ensure gem_state item =? gem_state_code Settled else Revert "invalid state for action" in
  let? _ := match validate_pow id nonce with Ok u => Ok u | Err e => Err (pow_error e) end in
  let? g := api_burn (gw_gem w) id in
  let? (p, _) := Promis.mine (gw_promis w) caller (gem_load item) in
  Ok (mkGemWorld (gem_emit g (GemBurned id caller (gem_load item))) (gw_factory w) p, gem_load item).
End GemFactory.

(** ** Lists in hashed slots: what they represent *)

Section SlotRep.
Variable slot_key : Z -> Z -> Z.
Variable D : Z -> Prop.
Hypothesis key_inj : forall k i k' i', D k -> D k' -> idx i -> idx i' -> slot_key k i = slot_key k' i' -> k = k' /\ i = i'.

Definition slot_rep (counts slots : gmap Z Z) (F : Z -> list Z) : Prop :=
  forall k, D k -> rd counts k = len (F k) /\ len (F k) < 2 ^ 32 /\ forall i v, F k !! i = Some v -> rd slots (slot_key k (Z.of_nat i)) = v.

Lemma slot_other (slots : gmap Z Z) (F : Z -> list Z) k i v k' j w : D k -> D k' -> idx i -> len (F k') < 2 ^ 32 -> F k' !! j = Some w -> k <> k' \/ i <> Z.of_nat j ->
  rd (<[slot_key k i := v]> slots) (slot_key k' (Z.of_nat j)) = rd slots (slot_key k' (Z.of_nat j)).
Proof.
  intros Hk Hk' Hi Hl Hj Hne. apply rd_insert_ne. pose proof (lookup_lt_Some _ _ _ Hj). unfold len in Hl.
  intros E. apply key_inj in E as [-> ->]; [by destruct Hne|done|done|done|unfold idx; lia].
Qed.

Lemma slot_push_rep (counts slots : gmap Z Z) (F : Z -> list Z) k v :
  slot_rep counts slots F -> D k -> len (F k) < 2 ^ 32 - 1 ->
  slot_rep (slot_push slot_key counts slots k v).1 (slot_push slot_key counts slots k v).2 (fun x => if decide (x = k) then F k ++ [v] else F x).
Proof.
  intros Hr Hk Hl k' Hk'. destruct (Hr k Hk) as (Ec & _ & _), (Hr k' Hk') as (Ec' & Hl' & Hs'). unfold slot_push. cbv zeta. cbn [fst snd]. rewrite Ec.
  assert (0 <= len (F k)) by (unfold len; lia). destruct (decide (k' = k)) as [->|Hne].
  - rewrite rd_insert_eq, wadd_small by lia. unfold len in *. rewrite length_app. cbn [length]. split; [lia|]. split; [lia|]. intros i w Hi.
    destruct (decide (i < length (F k))%nat).
    + rewrite lookup_app_l in Hi by done. rewrite (slot_other slots F k _ v k i w) by (done || (unfold idx, len; lia) || (right; lia)). by apply Hs'.
    + rewrite lookup_app_r in Hi by lia. apply list_lookup_singleton_Some in Hi as [Hi <-]. replace i with (length (F k)) by lia. apply rd_insert_eq.
  - rewrite rd_insert_ne by done. split; [done|]. split; [done|]. intros i w Hi. rewrite (slot_other slots F k _ v k' i w) by (done || (unfold idx; lia) || (left; done)). by apply Hs'.
Qed.

Lemma slot_find_rep (counts slots : gmap Z Z) (F : Z -> list Z) k v :
  slot_rep counts slots F -> D k ->
  match slot_find slot_key counts slots k v with
  | Some i => exists j, i = Z.of_nat j /\ F k !! j = Some v
  | None => v ∉ F k
  end.
Proof.
  intros Hr Hk. destruct (Hr k Hk) as (Ec & _ & Hs). unfold slot_find. rewrite Ec. destruct (List.find _ _) as [i|] eqn:E.
  - apply List.find_some in E as [Hi Ev]. apply list_elem_of_In, elem_of_seqZ in Hi. unfold len in Hi. exists (Z.to_nat i). split; [lia|].
    destruct (lookup_lt_is_Some_2 (F k) (Z.to_nat i) ltac:(lia)) as [w Hw]. rewrite Hw. f_equal. rewrite <- (Hs _ _ Hw), Z2Nat.id by lia. by bools.
  - intros (j & Hj)%list_elem_of_lookup. pose proof (lookup_lt_Some _ _ _ Hj). pose proof (List.find_none _ _ E (Z.of_nat j)) as Hf.
    cbv beta in Hf. rewrite (Hs _ _ Hj), Z.eqb_refl in Hf. apply not_true_iff_false in Hf; [done|]. apply list_elem_of_In, elem_of_seqZ. unfold len. lia.
Qed.

Lemma slot_remove_rep (counts slots : gmap Z Z) (F : Z -> list Z) k l0 y j v :
  slot_rep counts slots F -> D k -> F k = l0 ++ [y] -> F k !! j = Some v ->
  slot_rep (slot_remove slot_key counts slots k (Z.of_nat j)).1 (slot_remove slot_key counts slots k (Z.of_nat j)).2 (fun x => if decide (x = k) then <[j := y]> l0 else F x).
Proof.
  intros Hr Hk EF Hj k' Hk'. destruct (Hr k Hk) as (Ec & Hl & Hs), (Hr k' Hk') as (Ec' & Hl' & Hs'). unfold slot_remove. cbv zeta. cbn [fst snd]. rewrite Ec.
  assert (Elen : len (F k) = Z.of_nat (length l0) + 1) by (unfold len; rewrite EF, length_app; cbn; lia). rewrite Elen in *. replace (Z.of_nat (length l0) + 1 - 1) with (Z.of_nat (length l0)) by lia.
  pose proof (lookup_lt_Some _ _ _ Hj) as Hjl. unfold len in Elen. assert (Ey : rd slots (slot_key k (Z.of_nat (length l0))) = y) by (apply Hs; rewrite EF; by rewrite lookup_app_r, Nat.sub_diag by lia).
  destruct (decide (k' = k)) as [->|Hne].
  - rewrite rd_insert_eq. unfold len. rewrite length_insert. split; [lia|]. split; [lia|]. intros i w Hi.
    apply swap_remove_list in Hi as [Hil Hi]; [|lia]. assert (HFi : is_Some (F k !! i)) by (apply lookup_lt_is_Some_2; lia). destruct HFi as [u Hu].
    rewrite (slot_other _ F k (Z.of_nat (length l0)) 0 k i u) by (done || (unfold idx, len; lia) || (right; lia)).
    destruct (Z.eqb_spec (Z.of_nat j) (Z.of_nat (length l0))) as [Ej|Ej]; cbn [negb].
    + rewrite decide_False in Hi by lia. apply Hs. by rewrite EF, lookup_app_l.
    + rewrite Ey. destruct (decide (i = j)) as [->|Hij]; [subst w; apply rd_insert_eq|].
      rewrite (slot_other slots F k (Z.of_nat j) y k i u) by (done || (unfold idx, len; lia) || (right; lia)). apply Hs. by rewrite EF, lookup_app_l.
  - rewrite rd_insert_ne by done. split; [done|]. split; [done|]. intros i w Hi.
    rewrite (slot_other _ F k (Z.of_nat (length l0)) 0 k' i w) by (done || (unfold idx; lia) || (left; done)).
    destruct (negb _); [|by apply Hs']. rewrite (slot_other slots F k (Z.of_nat j) _ k' i w) by (done || (unfold idx; lia) || (left; done)). by apply Hs'.
Qed.
End SlotRep.
