(* ===== verification/GemStore.v ===== *)
(** * GemStore: the invariant of the Gem store and its qualifier

    The store refines a list of gems: the records, the owners' lists, the list of all
    gems and the price bins of the unqualified ones describe the same gems. The
    begin-block scan ends and qualifies exactly the gems that are due. *)

From S2P Require Import Prelude LbMath BinTree Storage Tokens ValidatorSet Rewards Nod NodStore Oracle OraclePrices Gem.

Section Store.
Context `{KeccakLaws}.
Implicit Types (g : GemContract) (i : GemData) (L : list GemData) (O B : Z -> list Z).

(** ** The price bins *)

(** Everything but the bins and the trie. *)
Definition gem_rest g := (gem_supply g, gem_items g, owner_gem_counts g, owner_gem_ids g, all_gem_ids g, gem_index g).

Lemma bin_key_inj b j b' j' : bin b -> bin b' -> idx j -> idx j' -> bin_index_key b j = bin_index_key b' j' -> b = b' /\ j = j'.
Proof. unfold bin, idx. intros. apply bin_index_key_inj; try done; lia. Qed.

Record bins_ok g B : Prop := {
  bk_slots : slot_rep bin_index_key bin (gem_bin_count g) (gem_bin_gems g) B;
  bk_tree : tree_ok g;
  bk_bits : forall b, bin b -> contains g b = negb (bool_decide (B b = []))
}.

Lemma gem_tree_frame g g' :
  gem_tree_root g' = gem_tree_root g -> gem_tree_mid g' = gem_tree_mid g -> gem_tree_leaf g' = gem_tree_leaf g ->
  (tree_ok g -> tree_ok g') /\ forall b, contains g' b = contains g b.
Proof.
  intros E1 E2 E3. split.
  - intros Hok. eapply tree_ok_ext; [exact Hok|exact E1|intros k; cbn; by rewrite E2|intros k; cbn; by rewrite E3].
  - intros b. unfold contains. cbn. by rewrite E3.
Qed.

Lemma bins_ok_frame g g' B :
  gem_tree_root g' = gem_tree_root g -> gem_tree_mid g' = gem_tree_mid g -> gem_tree_leaf g' = gem_tree_leaf g ->
  gem_bin_count g' = gem_bin_count g -> gem_bin_gems g' = gem_bin_gems g -> bins_ok g B -> bins_ok g' B.
Proof.
  intros E1 E2 E3 E4 E5 [S T C]. destruct (gem_tree_frame g g' E1 E2 E3) as [Ht Hc]. split; [by rewrite E4, E5|by apply Ht|].
  intros b Hb. rewrite Hc. by apply C.
Qed.

Lemma gem_add_frame g b : let g' := fst (add g b) in gem_rest g' = gem_rest g /\ gem_bin_count g' = gem_bin_count g /\ gem_bin_gems g' = gem_bin_gems g /\ gem_logs g' = gem_logs g.
Proof. unfold add. destruct (split b) as [[t m] l]. repeat case_match; done. Qed.

Lemma gem_remove_frame g b : let g' := fst (remove g b) in gem_rest g' = gem_rest g /\ gem_bin_count g' = gem_bin_count g /\ gem_bin_gems g' = gem_bin_gems g /\ gem_logs g' = gem_logs g.
Proof. unfold remove. destruct (split b) as [[t m] l]. repeat case_match; done. Qed.

Lemma insert_bin_spec g B id f b :
  bins_ok g B -> price_to_bin f = Ok b -> bin b -> len (B b) < 2 ^ 32 - 1 ->
  exists g', Gem.insert_unqualified g id f = Ok g' /\ gem_rest g' = gem_rest g /\ gem_logs g' = gem_logs g /\ bins_ok g' (fun x => if decide (x = b) then B b ++ [id] else B x).
Proof.
  intros [S T C] Ef Hb Hl. unfold Gem.insert_unqualified. rewrite Ef. set (g1 := set_gem_bins g _).
  destruct (gem_tree_frame g g1 eq_refl eq_refl eq_refl) as [Ht Hc]. destruct (add_spec g1 b (Ht T) Hb) as (g2 & E2 & T2 & C2).
  pose proof (gem_add_frame g1 b) as (F1 & F2 & F3 & F4). rewrite E2 in *. cbn [fst] in *. exists g2. split; [done|]. split; [done|]. split; [done|]. split; [| |].
  - rewrite F2, F3. apply (slot_push_rep bin_index_key bin bin_key_inj _ _ B b id S Hb Hl).
  - done.
  - intros b' Hb'. rewrite C2, Hc, C by done. destruct (Z.eqb_spec b' b) as [->|Hne]; [rewrite decide_True by done|by rewrite decide_False by done].
    cbn [orb]. symmetry. apply negb_true_iff, bool_decide_eq_false_2. by destruct (B b).
Qed.

Lemma remove_bin_spec g B id f b :
  bins_ok g B -> price_to_bin f = Ok b -> bin b -> id ∈ B b ->
  exists g' l, Gem.remove_unqualified g id f = Ok g' /\ gem_rest g' = gem_rest g /\ gem_logs g' = gem_logs g /\ B b ≡ₚ id :: l /\ bins_ok g' (fun x => if decide (x = b) then l else B x).
Proof.
  intros [S T C] Ef Hb Hin. unfold Gem.remove_unqualified. rewrite Ef. destruct (S b Hb) as (Ec & _ & _).
  destruct (exists_last (l := B b)) as (l0 & y & El); [intros E; rewrite E in Hin; by apply not_elem_of_nil in Hin|].
  assert (Elen : len (B b) = len l0 + 1) by (unfold len; rewrite El, length_app; cbn; lia). assert (0 <= len l0) by (unfold len; lia).
  rewrite Ec, (proj2 (Z.eqb_neq _ 0)) by lia. pose proof (slot_find_rep bin_index_key bin _ _ B b id S Hb) as Hf.
  destruct (slot_find _ _ _ _ _) as [i|]; [|done]. destruct Hf as (j & -> & Hj). set (g1 := set_gem_bins g _).
  pose proof (slot_remove_rep bin_index_key bin bin_key_inj _ _ B b l0 y j id S Hb El Hj) as S1.
  destruct (gem_tree_frame g g1 eq_refl eq_refl eq_refl) as [Ht Hc]. rewrite El in Hj. pose proof (swap_remove_perm l0 y j id Hj) as Hp.
  rewrite Elen. destruct (Z.eqb_spec (len l0 + 1 - 1) 0) as [E0|E0].
  - destruct (remove_spec g1 b (Ht T) Hb) as (g2 & E2 & T2 & C2). pose proof (gem_remove_frame g1 b) as (F1 & F2 & F3 & F4). rewrite E2 in *. cbn [fst] in *.
    exists g2, (<[j := y]> l0). split; [done|]. split; [done|]. split; [done|]. split; [by rewrite El|]. split; [by rewrite F2, F3|done|].
    intros b' Hb'. rewrite C2, Hc, C by done. assert (l0 = []) as -> by (destruct l0; [done|unfold len in *; cbn in *; lia]).
    destruct (Z.eqb_spec b' b) as [->|Hne]; [by rewrite decide_True by done|by rewrite decide_False by done].
  - exists g1, (<[j := y]> l0). split; [done|]. split; [done|]. split; [done|]. split; [by rewrite El|]. split; [exact S1|by apply Ht|].
    intros b' Hb'. rewrite Hc, C by done. destruct (decide (b' = b)) as [->|]; [|done]. f_equal. apply bool_decide_ext. rewrite El. split; intros E.
    + by destruct l0.
    + apply (f_equal length) in E. rewrite length_insert in E. destruct l0; [done|cbn in E; lia].
Qed.

(** ** The store *)

(** An owner and an id, one of the three states, a load and a price on the ladder. *)
Record gem_ok i : Prop := {
  go_owner : 0 < gem_owner i < 2 ^ 160;
  go_id : gem_id i <> 0;
  go_state : 0 <= gem_state i <= 2;
  go_load : 0 <= gem_load i < 2 ^ 256;
  go_priced : priced (gem_floor_price i)
}.

Definition parked_at (b : Z) i : bool := (gem_state i =? gem_state_code Issued) && match price_to_bin (gem_floor_price i) with Ok b' => b' =? b | Err _ => false end.

Record gem_stored g L O B : Prop := {
  gs_gems : forall id i, get_gem g id = Some i <-> i ∈ L /\ gem_id i = id;
  gs_ok : Forall gem_ok L;
  gs_ids : NoDup (gem_id <$> L);
  gs_supply : gem_supply g = len L;
  gs_fits : len L < 2 ^ 32;
  gs_slots : slot_rep owner_index_key address (owner_gem_counts g) (owner_gem_ids g) O;
  gs_owners : forall o, address o -> O o ≡ₚ gem_id <$> filter (fun i => gem_owner i = o) L;
  gs_all : exists ids, global_rep (all_gem_ids g) (gem_index g) ids /\ ids ≡ₚ gem_id <$> L;
  gs_bins : bins_ok g B;
  gs_parked : forall b, bin b -> B b ≡ₚ gem_id <$> filter (fun i => parked_at b i = true) L
}.

Lemma gem_stored_perm g L L' O B : L ≡ₚ L' -> gem_stored g L O B -> gem_stored g L' O B.
Proof.
  intros Hp [G1 G2 G3 G4 G5 G6 G7 (ids & G8 & G9) G10 G11]. split; [| |by rewrite <- Hp|by unfold len; rewrite <- Hp|by unfold len; rewrite <- Hp|done| | |done|].
  - intros id i. by rewrite G1, Hp.
  - by rewrite <- Hp.
  - intros o Ho. rewrite (G7 o Ho). by rewrite Hp.
  - exists ids. split; [done|]. by rewrite G9, Hp.
  - intros b Hb. rewrite (G11 b Hb). by rewrite Hp.
Qed.

(** The invariant does not look at the events. *)
Lemma gem_stored_frame g g' L O B : gem_rest g' = gem_rest g -> bins_ok g' B -> gem_stored g L O B -> gem_stored g' L O B.
Proof. intros E Hb [G1 G2 G3 G4 G5 G6 G7 G8 G9 G10]. injection E as E1 E2 E3 E4 E5 E6. split; unfold get_gem in *; rewrite ?E1, ?E2, ?E3, ?E4, ?E5, ?E6; try done. Qed.

Lemma gem_elem g L O B i : gem_stored g L O B -> i ∈ L -> exists L', L ≡ₚ i :: L' /\ get_gem g (gem_id i) = Some i /\ gem_ok i.
Proof.
  intros S Hi. destruct (proj1 (elem_of_Permutation L i) Hi) as [L' Hp]. exists L'. split; [done|]. split; [by apply (gs_gems _ _ _ _ S)|].
  pose proof (gs_ok _ _ _ _ S) as Hok. rewrite Forall_forall in Hok. by apply Hok.
Qed.

Lemma ok_bin i : gem_ok i -> exists b, price_to_bin (gem_floor_price i) = Ok b /\ bin b /\ forall b', parked_at b' i = (gem_state i =? 0) && (b =? b').
Proof. intros Hi. destruct (priced_bin _ (go_priced _ Hi)) as (b & E & Hb). exists b. split; [done|]. split; [done|]. intros b'. unfold parked_at. by rewrite E. Qed.

Lemma filter_len_le {A} (P : A -> Prop) `{forall x, Decision (P x)} (l : list A) (ids : list Z) (f : A -> Z) : ids ≡ₚ f <$> filter P l -> len ids <= len l.
Proof. intros E. unfold len. rewrite E, length_fmap. apply Nat2Z.inj_le, length_filter. Qed.

Lemma gem_absent g L O B id : gem_stored g L O B -> id ∉ gem_id <$> L -> get_gem g id = None.
Proof. intros S Hn. destruct (get_gem g id) as [i|] eqn:E; [|done]. apply (gs_gems _ _ _ _ S) in E as [Hi <-]. exfalso. apply Hn. by apply list_elem_of_fmap_2. Qed.

(** A store with one more gem, whatever the bins hold. *)
Lemma gem_stored_add g g' L O B B' i :
  gem_stored g L O B -> gem_ok i -> gem_id i ∉ gem_id <$> L -> len L < 2 ^ 32 - 1 ->
  gem_items g' = <[gem_id i := i]> (gem_items g) -> gem_supply g' = wadd 64 (gem_supply g) 1 ->
  (owner_gem_counts g', owner_gem_ids g') = slot_push owner_index_key (owner_gem_counts g) (owner_gem_ids g) (gem_owner i) (gem_id i) ->
  all_gem_ids g' = vec_push (all_gem_ids g) (gem_id i) -> gem_index g' = <[gem_id i := vlen (all_gem_ids g)]> (gem_index g) ->
  bins_ok g' B' -> (forall b, bin b -> B' b ≡ₚ gem_id <$> filter (fun i => parked_at b i = true) (i :: L)) ->
  gem_stored g' (i :: L) (fun o => if decide (o = gem_owner i) then O o ++ [gem_id i] else O o) B'.
Proof.
  intros S Hi Hn Hl E1 E2 E3 E4 E5 Hb HB. destruct S as [G1 G2 G3 G4 G5 G6 G7 (ids & G8 & G9) _ _]. pose proof (go_owner _ Hi) as Ho. assert (Ha : address (gem_owner i)) by (unfold address; lia).
  assert (0 <= len L) by (unfold len; lia). assert (Elen : len (i :: L) = len L + 1) by (unfold len; cbn [length]; lia). split.
  - intros id j. unfold get_gem in *. rewrite E1, elem_of_cons. destruct (decide (gem_id i = id)) as [<-|Hne].
    + rewrite rget_insert_eq. cbn [rec_exists gem_record]. rewrite (proj2 (Z.eqb_neq _ 0)) by lia. cbn [negb]. split; [intros [= <-]; auto|].
      intros [[->|Hj] Ej]; [done|exfalso]. apply Hn. rewrite <- Ej. by apply list_elem_of_fmap_2.
    + rewrite rget_insert_ne by done. rewrite G1. split; [intros [? ?]; auto|]. intros [[->|?] ?]; [done|auto].
  - by constructor.
  - rewrite fmap_cons. by constructor.
  - rewrite E2, G4, Elen. apply wadd_small; lia.
  - lia.
  - intros o Hok. pose proof (slot_push_rep owner_index_key address owner_index_key_inj _ _ O (gem_owner i) (gem_id i) G6 Ha) as Hs. rewrite <- E3 in Hs. cbn [fst snd] in Hs.
    pose proof (filter_len_le _ L (O (gem_owner i)) gem_id (G7 _ Ha)). specialize (Hs ltac:(lia) o Hok). cbv beta in Hs. destruct (decide (o = gem_owner i)) as [E|]; [rewrite E in *|]; exact Hs.
  - intros o Hok. rewrite filter_cons. destruct (decide (o = gem_owner i)) as [->|Hne].
    + rewrite decide_True by done. rewrite (G7 _ Hok), fmap_cons. by rewrite Permutation_app_comm.
    + rewrite decide_False by congruence. by apply G7.
  - exists (ids ++ [gem_id i]). rewrite E4, E5. split; [|rewrite fmap_cons, G9; by rewrite Permutation_app_comm].
    apply global_rep_add; [done|by rewrite G9|]. apply Permutation_length in G9. rewrite length_fmap in G9. unfold len in *. lia.
  - done.
  - done.
Qed.

Lemma add_gem_spec g L O B i :
  gem_stored g L O B -> gem_ok i -> gem_id i ∉ gem_id <$> L -> len L < 2 ^ 32 - 1 ->
  exists g' O' B', add_gem g i = Ok g' /\ gem_stored g' (i :: L) O' B' /\ gem_logs g' = gem_logs g.
Proof.
  intros S Hi Hn Hl. pose proof (gem_absent g L O B (gem_id i) S Hn) as Hg. unfold add_gem, get_gem in *. rewrite rexists_get, Hg, bool_decide_eq_false_2 by (by intros []).
  cbn [negb]. rewrite (rcreate_Ok (gem_items g) i Hg). cbv zeta. set (g4 := set_gem_supply _ _).
  assert (Hb4 : bins_ok g4 B) by (eapply bins_ok_frame; [..|exact (gs_bins _ _ _ _ S)]; done). destruct (ok_bin i Hi) as (b & Eb & Hb & Hp).
  pose proof (gs_parked _ _ _ _ S) as HB. destruct (gem_state i =? gem_state_code Issued) eqn:Es.
  - pose proof (filter_len_le _ L (B b) gem_id (HB b Hb)). destruct (insert_bin_spec g4 B (gem_id i) (gem_floor_price i) b Hb4 Eb Hb ltac:(lia)) as (g5 & E5 & F & Fl & Hb5).
    exists g5. do 2 eexists. split; [exact E5|]. split; [|by rewrite Fl]. injection F as F1 F2 F3 F4 F5 F6.
    eapply (gem_stored_add g g5 L O B); [done|done|done|done|by rewrite F2|by rewrite F1|by rewrite F3, F4|by rewrite F5|by rewrite F6|exact Hb5|].
    intros b' Hb'. rewrite filter_cons, Hp. change 0 with (gem_state_code Issued). rewrite Es. cbn [andb]. destruct (decide (b' = b)) as [->|Hne].
    + rewrite Z.eqb_refl, decide_True by done. rewrite fmap_cons, (HB b Hb). by rewrite Permutation_app_comm.
    + rewrite (proj2 (Z.eqb_neq b b')), decide_False by done. by apply HB.
  - exists g4. do 2 eexists. split; [done|]. split; [|done]. eapply (gem_stored_add g g4 L O B); try done.
    intros b' Hb'. rewrite filter_cons, Hp. change 0 with (gem_state_code Issued). rewrite Es. cbn [andb]. rewrite decide_False by done. by apply HB.
Qed.

(** ** Changing the state of a gem *)

Definition in_state (st : GemState) i : GemData := {| i with gem_state := gem_state_code st |}.

(** A store in which one gem got a new state. *)
Lemma gem_stored_update g g' L O B B' i st :
  gem_stored g (i :: L) O B -> gem_items g' = <[gem_id i := in_state st i]> (gem_items g) -> gem_supply g' = gem_supply g ->
  owner_gem_counts g' = owner_gem_counts g -> owner_gem_ids g' = owner_gem_ids g -> all_gem_ids g' = all_gem_ids g -> gem_index g' = gem_index g ->
  bins_ok g' B' -> (forall b, bin b -> B' b ≡ₚ gem_id <$> filter (fun i => parked_at b i = true) (in_state st i :: L)) ->
  gem_stored g' (in_state st i :: L) O B'.
Proof.
  intros [G1 G2 G3 G4 G5 G6 G7 (ids & G8 & G9) _ _] E1 E2 E3 E4 E5 E6 Hb HB. apply Forall_cons in G2 as [Hi G2].
  pose proof (go_owner _ Hi) as Ho. assert (Hni : gem_id i ∉ gem_id <$> L) by (rewrite fmap_cons in G3; by apply NoDup_cons in G3 as [? _]). split.
  - intros id j. unfold get_gem in *. rewrite E1, elem_of_cons. destruct (decide (gem_id i = id)) as [<-|Hne].
    + rewrite rget_insert_eq. cbn [rec_exists gem_record in_state gem_owner]. rewrite (proj2 (Z.eqb_neq _ 0)) by lia. cbn [negb]. split; [intros [= <-]; auto|].
      intros [[->|Hj] Ej]; [done|exfalso]. apply Hni. rewrite <- Ej. by apply list_elem_of_fmap_2.
    + rewrite rget_insert_ne by done. rewrite G1, elem_of_cons. split; intros [[->|?] ?]; auto; done.
  - constructor; [|done]. destruct Hi as [H1 H2 H3 H4 H5]. split; [exact H1|exact H2|by destruct st; cbn|exact H4|exact H5].
  - exact G3.
  - by rewrite E2.
  - exact G5.
  - by rewrite E3, E4.
  - intros o Hok. rewrite (G7 o Hok), !filter_cons. cbn [in_state gem_owner]. by case_decide.
  - exists ids. rewrite E5, E6. by split.
  - done.
  - done.
Qed.

Lemma parked_in_state b st i L : st <> Issued -> filter (fun i => parked_at b i = true) (in_state st i :: L) = filter (fun i => parked_at b i = true) L.
Proof. intros Hst. by rewrite filter_cons, decide_False by (by destruct st). Qed.

Lemma set_state_spec g L O B i st :
  gem_stored g (i :: L) O B -> st <> Issued ->
  exists g' B', set_state g (gem_id i) st = Ok g' /\ gem_stored g' (in_state st i :: L) O B' /\ gem_logs g' = gem_logs g.
Proof.
  intros S Hst. destruct (gem_elem g _ O B i S ltac:(by left)) as (_ & _ & Hg & Hi). unfold set_state. rewrite Hg. cbn [ok_or].
  assert (Ens : negb (gem_state_code st =? gem_state_code Issued) = true) by (by destruct st). rewrite Ens, andb_true_r.
  pose proof (gs_parked _ _ _ _ S) as HB. destruct (ok_bin i Hi) as (b & Eb & Hb & Hp).
  assert (Hup : forall m : gmap Z GemData, rget m (gem_id i) = Some i -> rupdate m (in_state st i) = Ok (<[gem_id i := in_state st i]> m)) by (intros m Hm; exact (rupdate_Ok m (in_state st i) i Hm)).
  change {| i with gem_state := gem_state_code st |} with (in_state st i).
  destruct (gem_state i =? gem_state_code Issued) eqn:Es.
  - destruct (remove_bin_spec g B (gem_id i) (gem_floor_price i) b (gs_bins _ _ _ _ S) Eb Hb) as (g1 & l & E1 & F & Fl & Hl & Hb1).
    { rewrite (HB b Hb). apply list_elem_of_fmap_2, list_elem_of_filter. split; [|by left]. rewrite Hp, Z.eqb_refl. change 0 with (gem_state_code Issued). by rewrite Es. }
    rewrite E1. injection F as F1 F2 F3 F4 F5 F6. rewrite Hup by (by rewrite F2). do 2 eexists. split; [reflexivity|]. split; [|done].
    eapply (gem_stored_update g); [exact S|cbn; by rewrite F2|done|done|done|done|done|eapply bins_ok_frame; [..|exact Hb1]; done|].
    intros b' Hb'. rewrite parked_in_state by done. specialize (HB b' Hb'). rewrite filter_cons, Hp in HB. change 0 with (gem_state_code Issued) in HB. rewrite Es in HB.
    cbn [andb] in HB. destruct (decide (b' = b)) as [->|Hne].
    + rewrite Z.eqb_refl, decide_True, fmap_cons, Hl in HB by done. by apply Permutation_cons_inv in HB.
    + by rewrite (proj2 (Z.eqb_neq b b')), decide_False in HB by done.
  - rewrite Hup by exact Hg. do 2 eexists. split; [reflexivity|]. split; [|done].
    eapply (gem_stored_update g); [exact S|done|done|done|done|done|done|eapply bins_ok_frame; [..|exact (gs_bins _ _ _ _ S)]; done|].
    intros b' Hb'. rewrite (HB b' Hb'), parked_in_state, filter_cons, Hp by done. change 0 with (gem_state_code Issued). rewrite Es. cbn [andb]. by rewrite decide_False by done.
Qed.

(** ** Burning a gem *)

Definition with_gem_list g (v : SVec Z) (ix : gmap Z Z) : GemContract := {| g with all_gem_ids := v; gem_index := ix |}.

Lemma unlist_gem_spec g ids id :
  global_rep (all_gem_ids g) (gem_index g) ids -> id ∈ ids ->
  exists v ix ids', unlist_gem g id = Ok (with_gem_list g v ix) /\ global_rep v ix ids' /\ ids ≡ₚ id :: ids'.
Proof.
  intros Hg Hin. destruct (exists_last (l := ids)) as (l0 & y & ->); [intros ->; by apply not_elem_of_nil in Hin|].
  apply list_elem_of_lookup in Hin as [m Hm]. destruct (global_rep_remove _ _ _ _ m _ Hg Hm) as (v1 & v2 & Hset & Epop & Hg').
  destruct Hg as (Hv & _ & Hix). pose proof Hv as (Hn & _). rewrite length_app in Hn. cbn [length] in Hn.
  unfold unlist_gem. rewrite (Hix _ _ Hm). unfold checked_sub. rewrite (proj2 (Z.leb_le _ _)) by lia. cbn [ok_or].
  replace (vlen (all_gem_ids g) - 1) with (Z.of_nat (length l0)) by lia. pose proof (swap_remove_perm l0 y m id Hm) as Hp.
  destruct (negb (Z.of_nat m =? Z.of_nat (length l0))).
  - destruct Hset as [Eg Es]. rewrite Eg. cbn [ok_or]. rewrite Es. do 3 eexists. split; [reflexivity|]. cbn [all_gem_ids set_all_gem_ids wr_gem_index gem_index]. by rewrite Epop.
  - subst v1. do 3 eexists. split; [reflexivity|]. by rewrite Epop.
Qed.

Lemma compact_gem_owner_spec g O o id :
  slot_rep owner_index_key address (owner_gem_counts g) (owner_gem_ids g) O -> address o -> id ∈ O o ->
  exists c s l, compact_gem_owner g o id = Ok (set_owner_gems g (c, s)) /\ slot_rep owner_index_key address c s (fun x => if decide (x = o) then l else O x) /\ O o ≡ₚ id :: l.
Proof.
  intros S Ho Hin. destruct (S o Ho) as (Ec & _ & _). destruct (exists_last (l := O o)) as (l0 & y & El); [intros E; rewrite E in Hin; by apply not_elem_of_nil in Hin|].
  unfold compact_gem_owner, checked_sub. rewrite Ec, (proj2 (Z.leb_le _ _)) by (unfold len; rewrite El, length_app; cbn; lia). cbn [ok_or].
  pose proof (slot_find_rep owner_index_key address _ _ O o id S Ho) as Hf. destruct (slot_find _ _ _ _ _) as [i|]; [|done]. destruct Hf as (j & -> & Hj). cbn [ok_or].
  pose proof (slot_remove_rep owner_index_key address owner_index_key_inj _ _ O o l0 y j id S Ho El Hj) as S1. rewrite El in Hj. pose proof (swap_remove_perm l0 y j id Hj) as Hp. rewrite <- El in Hp.
  destruct (slot_remove _ _ _ _ _) as [c s]. by exists c, s, (<[j := y]> l0).
Qed.

Lemma burn_gem_spec g L O B i :
  gem_stored g (i :: L) O B -> gem_state i <> gem_state_code Issued ->
  exists g' O', burn_gem g i = Ok g' /\ gem_stored g' L O' B /\ gem_logs g' = gem_logs g.
Proof.
  intros [G1 G2 G3 G4 G5 G6 G7 (ids & G8 & G9) G10 G11] Hst. apply Forall_cons in G2 as [Hi G2]. rewrite fmap_cons in G3. apply NoDup_cons in G3 as [Hni G3].
  pose proof (go_owner _ Hi) as Ho. assert (Ha : address (gem_owner i)) by (unfold address; lia). assert (0 <= len L) by (unfold len; lia).
  assert (Elen : len (i :: L) = len L + 1) by (unfold len; cbn [length]; lia). unfold burn_gem. set (g1 := set_gem_items g _).
  destruct (unlist_gem_spec g1 ids (gem_id i) G8) as (v & ix & ids' & E1 & G8' & Hp); [by rewrite G9; left|]. rewrite E1.
  pose proof (G7 _ Ha) as Hown. rewrite filter_cons, decide_True, fmap_cons in Hown by done.
  destruct (compact_gem_owner_spec (with_gem_list g1 v ix) O (gem_owner i) (gem_id i) G6 Ha) as (c & s & l & E2 & G6' & Hp'); [by rewrite Hown; left|]. rewrite E2.
  change (gem_supply _) with (gem_supply g). rewrite G4, Elen, (proj2 (Z.gtb_lt _ _)) by lia. do 2 eexists. split; [reflexivity|]. split; [split|done].
  - intros id j. unfold get_gem in *. cbn. destruct (decide (gem_id i = id)) as [<-|Hne].
    + rewrite rget_delete_eq. split; [done|]. intros [Hj Ej]. exfalso. apply Hni. rewrite <- Ej. by apply list_elem_of_fmap_2.
    + rewrite rget_delete_ne, G1, elem_of_cons by done. split; intros [? ?]; [|auto]. naive_solver.
  - done.
  - done.
  - cbn. lia.
  - lia.
  - exact G6'.
  - intros o Hok. cbv beta. destruct (decide (o = gem_owner i)) as [->|Hne].
    + rewrite Hp' in Hown. by apply Permutation_cons_inv in Hown.
    + rewrite (G7 o Hok), filter_cons, decide_False by congruence. done.
  - exists ids'. split; [exact G8'|]. rewrite Hp, fmap_cons in G9. by apply Permutation_cons_inv in G9.
  - eapply bins_ok_frame; [..|exact G10]; done.
  - intros b Hb. rewrite (G11 b Hb), filter_cons, decide_False; [done|]. unfold parked_at. by rewrite (proj2 (Z.eqb_neq _ _) Hst).
Qed.

(** ** The begin-block scan *)

(** What the hook qualifies: an issued gem in the reference currency, past its
    maturity, whose floor price is below the rate. *)
Definition due (now rate : Z) i : bool :=
  (gem_state i =? gem_state_code Issued) && (gem_reference_currency i =? QUALIFIER_REFERENCE_ISO) &&
  (saturating_add 64 (gem_issued_at i) MATURITY_PERIOD_SECONDS <? now) && (gem_floor_price i <? rate).

Definition ripen_if (now rate : Z) (f : GemData -> bool) i : GemData := if f i && due now rate i then in_state Qualified i else i.
Definition ripened (now rate : Z) (f : GemData -> bool) L : list GemData := ripen_if now rate f <$> L.

Section Scan.
Variables now rate : Z.
Implicit Types f : GemData -> bool.

Lemma ripen_id f i : gem_id (ripen_if now rate f i) = gem_id i.
Proof. unfold ripen_if. by destruct (f i && _). Qed.

Lemma ripened_ids f L : gem_id <$> ripened now rate f L = gem_id <$> L.
Proof. unfold ripened. rewrite <- list_fmap_compose. apply list_fmap_ext. intros. apply ripen_id. Qed.

Lemma ripened_ext f f' L : (forall i, i ∈ L -> due now rate i = true -> f i = f' i) -> ripened now rate f L = ripened now rate f' L.
Proof.
  intros Hf. apply list_fmap_ext. intros k i Hi. unfold ripen_if. destruct (due now rate i) eqn:E; [|by rewrite !andb_false_r].
  by rewrite (Hf i) by (done || by eapply list_elem_of_lookup_2).
Qed.

(** A gem ripens once. *)
Lemma ripened_ripened f f' L : ripened now rate f' (ripened now rate f L) = ripened now rate (fun i => f i || f' i) L.
Proof.
  unfold ripened. rewrite <- list_fmap_compose. apply list_fmap_ext. intros _ i _. unfold compose, ripen_if.
  destruct (f i); cbn [andb orb]; [|done]. destruct (due now rate i) eqn:E; [by rewrite andb_false_r|]. by rewrite E, andb_false_r.
Qed.

Lemma ripened_none f L : (forall i, i ∈ L -> due now rate i = true -> f i = false) -> ripened now rate f L = L.
Proof.
  intros Hf. rewrite (ripened_ext f (fun _ => false)) by done. unfold ripened, ripen_if. cbn [andb]. apply list_fmap_id.
Qed.

(** Ripening the one gem with an id. *)
Lemma ripened_one L L' i : L ≡ₚ i :: L' -> NoDup (gem_id <$> L) -> ripened now rate (fun j => gem_id j =? gem_id i) L ≡ₚ ripen_if now rate (fun _ => true) i :: L'.
Proof.
  intros Hp Hnd. rewrite Hp, fmap_cons in Hnd. apply NoDup_cons in Hnd as [Hni _]. unfold ripened. rewrite Hp, fmap_cons. unfold ripen_if at 1 3. rewrite Z.eqb_refl.
  change (ripen_if now rate (fun j => gem_id j =? gem_id i) <$> L') with (ripened now rate (fun j => gem_id j =? gem_id i) L'). rewrite ripened_none; [done|]. intros j Hj _. apply Z.eqb_neq. intros E. apply Hni. rewrite <- E. by apply list_elem_of_fmap_2.
Qed.

Lemma gem_qualify_spec g L O B i :
  gem_stored g L O B -> i ∈ L ->
  exists g' B', qualify g (gem_id i) now rate = Ok (g', due now rate i) /\ gem_stored g' (ripened now rate (fun j => gem_id j =? gem_id i) L) O B'.
Proof.
  intros S Hin. destruct (gem_elem g L O B i S Hin) as (L' & Hp & Hg & Hi). pose proof (ripened_one L L' i Hp (gs_ids _ _ _ _ S)) as Hr.
  unfold qualify. rewrite Hg. cbn [ok_or]. destruct (due now rate i) eqn:Ed.
  - unfold ripen_if in Hr. cbn [andb] in Hr. rewrite Ed in Hr. unfold due in Ed. apply andb_true_iff in Ed as [[[-> ->]%andb_true_iff E3]%andb_true_iff E4]. cbn [negb]. bools.
    rewrite (proj2 (Z.leb_gt _ _)), (proj2 (Z.leb_gt _ _)) by lia.
    destruct (set_state_spec g L' O B i Qualified (gem_stored_perm _ _ _ _ _ Hp S) ltac:(done)) as (g1 & B1 & E1 & S1 & _). rewrite E1. do 2 eexists. split; [reflexivity|].
    eapply (gem_stored_frame g1); [done|eapply bins_ok_frame; [..|exact (gs_bins _ _ _ _ S1)]; done|]. eapply gem_stored_perm; [|exact S1]. by rewrite Hr.
  - exists g, B. split; [|eapply gem_stored_perm; [|exact S]; rewrite Hr; unfold ripen_if; cbn [andb]; by rewrite Ed].
    unfold due in Ed. destruct (gem_state i =? gem_state_code Issued); cbn [negb andb] in *; [|done]. destruct (gem_reference_currency i =? QUALIFIER_REFERENCE_ISO); cbn [negb andb] in *; [|done].
    destruct (_ <? now) eqn:E1; cbn [andb] in Ed; bools; [|by rewrite (proj2 (Z.leb_le _ _)) by lia].
    destruct (now <=? _); [done|]. by rewrite (proj2 (Z.leb_le _ _)) by lia.
Qed.

Lemma gem_qualify_all ids : forall g L O B n,
  gem_stored g L O B -> (forall id, id ∈ ids -> id ∈ gem_id <$> L) ->
  exists g' n' B', foldM (qualify_one now rate) (g, n) ids = Ok (g', n') /\ gem_stored g' (ripened now rate (fun j => bool_decide (gem_id j ∈ ids)) L) O B'.
Proof.
  induction ids as [|id ids IH]; intros g L O B n S Hids; cbn [foldM].
  - exists g, n, B. split; [done|]. by rewrite ripened_none by (intros; by apply bool_decide_eq_false_2, not_elem_of_nil).
  - destruct (proj1 (list_elem_of_fmap _ _ _) (Hids id ltac:(by left))) as (i & -> & Hi). destruct (gem_qualify_spec g L O B i S Hi) as (g1 & B1 & E1 & S1).
    unfold qualify_one at 1. rewrite E1. edestruct IH as (g2 & n2 & B2 & E2 & S2); [exact S1|intros x Hx; rewrite ripened_ids; apply Hids; by right|].
    exists g2, n2, B2. split; [exact E2|]. rewrite ripened_ripened in S2. erewrite ripened_ext; [exact S2|]. intros j _ _. cbv beta.
    destruct (Z.eqb_spec (gem_id j) (gem_id i)) as [E|E]; cbn [orb]; [apply bool_decide_eq_true_2; rewrite E; by left|].
    apply bool_decide_ext. rewrite elem_of_cons. naive_solver.
Qed.

Definition bin_of i : Z := match price_to_bin (gem_floor_price i) with Ok b => b | Err _ => 0 end.
Definition walked (cursor : Z) L : list GemData := ripened now rate (fun j => bin_of j <? cursor) L.

(** Where the walk finds a gem that is still due. *)
Lemma due_parked g L O B cursor i :
  gem_stored g (walked cursor L) O B -> Forall gem_ok L -> i ∈ L -> due now rate i = true -> cursor <= bin_of i ->
  price_to_bin (gem_floor_price i) = Ok (bin_of i) /\ bin (bin_of i) /\ gem_id i ∈ B (bin_of i) /\ contains g (bin_of i) = true /\
  forall b, bin b -> gem_id i ∈ B b -> b = bin_of i.
Proof.
  intros S Hok Hi Hd Hc. rewrite Forall_forall in Hok. destruct (ok_bin i (Hok i Hi)) as (b & Eb & Hb & Hp).
  assert (Ebo : bin_of i = b) by (unfold bin_of; by rewrite Eb). rewrite Ebo in *.
  assert (Hw : i ∈ walked cursor L). { apply list_elem_of_fmap. exists i. split; [|done]. unfold ripen_if. rewrite (proj2 (Z.ltb_ge _ _)) by lia. done. }
  pose proof (gs_parked _ _ _ _ S) as HB. assert (Hin : gem_id i ∈ B b).
  { rewrite (HB b Hb). apply list_elem_of_fmap_2, list_elem_of_filter. split; [|done]. rewrite Hp, Z.eqb_refl, andb_true_r. unfold due in Hd.
    change 0 with (gem_state_code Issued). by destruct (gem_state i =? gem_state_code Issued). }
  split_and!; [done|done|done| |].
  - rewrite (bk_bits _ _ (gs_bins _ _ _ _ S) b Hb). apply negb_true_iff, bool_decide_eq_false_2. intros E. rewrite E in Hin. by apply not_elem_of_nil in Hin.
  - intros b' Hb' Hin'. rewrite (HB b' Hb') in Hin'. apply list_elem_of_fmap in Hin' as (j & Ej & [Hpj Hj]%list_elem_of_filter).
    assert (j = i) as ->; [|rewrite Hp in Hpj; by bools]. pose proof (proj2 (gs_gems _ _ _ _ S (gem_id i) j) (conj Hj (eq_sym Ej))). pose proof (proj2 (gs_gems _ _ _ _ S (gem_id i) i) (conj Hw eq_refl)). congruence.
Qed.

Lemma read_bin_gems_spec g L O B b : gem_stored g L O B -> bin b -> read_bin_gems g b = B b.
Proof.
  intros S Hb. unfold read_bin_gems. destruct (bk_slots _ _ (gs_bins _ _ _ _ S) b Hb) as (-> & _ & Hs).
  assert (E : (fun m => rd (gem_bin_gems g) (bin_index_key b m)) <$> seqZ 0 (len (B b)) = B b).
  { unfold len. apply list_eq. intros m. rewrite list_lookup_fmap. destruct (B b !! m) as [k|] eqn:E.
    - pose proof (lookup_lt_Some _ _ _ E). rewrite lookup_seqZ_lt by lia. cbn. rewrite Z.add_0_l. f_equal. by apply Hs.
    - apply lookup_ge_None_1 in E. by rewrite lookup_seqZ_ge by lia. }
  rewrite E. apply filter_all, Forall_forall. intros x Hx. rewrite (gs_parked _ _ _ _ S b Hb) in Hx. apply list_elem_of_fmap in Hx as (j & -> & [_ Hj]%list_elem_of_filter).
  pose proof (gs_ok _ _ _ _ S) as Hok. rewrite Forall_forall in Hok. apply (go_id j), Hok, Hj.
Qed.

Lemma scan_bin g L O B cursor next n :
  gem_stored g (walked cursor L) O B -> Forall gem_ok L -> cursor <= next -> bin next -> (forall j, cursor <= j < next -> contains g j = false) ->
  exists g' n' B', foldM (qualify_one now rate) (g, n) (read_bin_gems g next) = Ok (g', n') /\ gem_stored g' (walked (next + 1) L) O B'.
Proof.
  intros S Hok Hc Hb Hlow. rewrite (read_bin_gems_spec _ _ _ _ _ S Hb). destruct (gem_qualify_all (B next) g _ O B n S) as (g' & n' & B' & E & S').
  { intros id Hid. rewrite (gs_parked _ _ _ _ S next Hb) in Hid. apply list_elem_of_fmap in Hid as (j & -> & [_ Hj]%list_elem_of_filter). by apply list_elem_of_fmap_2. }
  exists g', n', B'. split; [exact E|]. unfold walked in S'. rewrite ripened_ripened in S'. unfold walked. erewrite ripened_ext; [exact S'|]. intros i Hi Hd. cbv beta.
  destruct (Z.ltb_spec (bin_of i) cursor) as [Hlt|Hge]; cbn [orb]; [apply Z.ltb_lt; lia|].
  destruct (due_parked g L O B cursor i S Hok Hi Hd Hge) as (_ & Hbi & Hin & Hbit & Huniq). destruct (decide (bin_of i = next)) as [En|Hne].
  - rewrite En in *. rewrite bool_decide_eq_true_2 by done. apply Z.ltb_lt. lia.
  - rewrite bool_decide_eq_false_2 by (intros Hx; apply Hne; symmetry; by apply Huniq). apply Z.ltb_ge.
    destruct (decide (bin_of i < next)); [|lia]. rewrite Hlow in Hbit by lia. discriminate.
Qed.

Lemma scan_end g L O B cursor r_bin :
  gem_stored g (walked cursor L) O B -> Forall gem_ok L -> price_to_bin rate = Ok r_bin -> 0 <= rate < 2 ^ 256 ->
  (forall b, cursor <= b <= r_bin -> bin b -> contains g b = false) -> gem_stored g (ripened now rate (fun _ => true) L) O B.
Proof.
  intros S Hok Hr Hrate Hnone. erewrite ripened_ext; [exact S|]. intros i Hi Hd. cbv beta. symmetry. apply Z.ltb_lt.
  destruct (decide (bin_of i < cursor)) as [|Hge]; [done|exfalso]. destruct (due_parked g L O B cursor i S Hok Hi Hd ltac:(lia)) as (Eb & Hbi & _ & Hbit & _).
  rewrite Forall_forall in Hok. pose proof (go_priced _ (Hok i Hi)) as [Hf _]. assert (gem_floor_price i < rate) by (unfold due in Hd; bools; lia).
  destruct (price_to_bin_mono (gem_floor_price i) rate _ _ ltac:(lia) ltac:(lia) Eb Hr) as [_ Hle]. rewrite Hnone in Hbit by (done || lia). discriminate.
Qed.

Definition scan_inv O L (s : GemContract * Z * Z) : Prop := let '(g, _, cursor) := s in (exists B, gem_stored g (walked cursor L) O B) /\ 0 <= cursor <= MAX_BIN_ID.
Definition scan_post O L (r : res (GemContract * Z)) : Prop := exists g n B, r = Ok (g, n) /\ gem_stored g (ripened now rate (fun _ => true) L) O B.

Lemma scan_walk g L O B r_bin :
  gem_stored g L O B -> price_to_bin rate = Ok r_bin -> 0 <= rate < 2 ^ 256 ->
  exists r, loopP qualify_fuel (scan_step now rate r_bin) (g, 0, 0) = inr r /\ scan_post O L r.
Proof.
  intros S Hr Hrate. pose proof (gs_ok _ _ _ _ S) as Hok. apply (loopP_total (scan_inv O L) (scan_post O L) (fun s => MAX_BIN_ID - s.2)).
  - intros [[g1 n1] cursor] [[g2 n2] c2] [[B1 S1] Hc] E. unfold scan_step in E.
    pose proof (find_spec g1 cursor (bk_tree _ _ (gs_bins _ _ _ _ S1)) ltac:(lia)) as Hfind. destruct (find_first_left_inclusive g1 cursor) as [next|]; [|done].
    destruct Hfind as (H1 & H2 & H3 & H4). destruct (next <=? r_bin) eqn:Enext; [bools|done].
    destruct (scan_bin g1 L O B1 cursor next n1 S1 Hok H1 H2 H4) as (g3 & n3 & B3 & Ef & S3). rewrite Ef in E.
    unfold checked_add in E. rewrite (proj2 (Z.ltb_lt (next + 1) (2 ^ 32))) in E by (unfold bin in H2; lia).
    destruct (next + 1 <=? MAX_BIN_ID) eqn:Em; [bools|done]. injection E as <- <- <-. cbn [snd]. split; [|lia]. split; [by exists B3|lia].
  - intros [[g1 n1] cursor] r [[B1 S1] Hc] E. unfold scan_step in E.
    pose proof (find_spec g1 cursor (bk_tree _ _ (gs_bins _ _ _ _ S1)) ltac:(lia)) as Hfind. destruct (find_first_left_inclusive g1 cursor) as [next|].
    2: { injection E as <-. exists g1, n1, B1. split; [done|]. eapply scan_end; [exact S1|done|exact Hr|done|]. intros b Hb Hbin. apply Hfind; [lia|done]. }
    destruct Hfind as (H1 & H2 & H3 & H4). destruct (next <=? r_bin) eqn:Enext; bools.
    2: { injection E as <-. exists g1, n1, B1. split; [done|]. eapply scan_end; [exact S1|done|exact Hr|done|]. intros b Hb Hbin. apply H4. lia. }
    destruct (scan_bin g1 L O B1 cursor next n1 S1 Hok H1 H2 H4) as (g3 & n3 & B3 & Ef & S3). rewrite Ef in E.
    unfold checked_add in E. rewrite (proj2 (Z.ltb_lt (next + 1) (2 ^ 32))) in E by (unfold bin in H2; lia).
    destruct (next + 1 <=? MAX_BIN_ID) eqn:Em; [done|bools]. injection E as <-. exists g3, n3, B3. split; [done|].
    eapply scan_end; [exact S3|done|exact Hr|done|]. intros b Hb Hbin. exfalso. unfold bin in Hbin. change MAX_BIN_ID with (2 ^ 24 - 1) in Em. lia.
  - split; [|change MAX_BIN_ID with (2 ^ 24 - 1); lia]. exists B. unfold walked. rewrite ripened_none; [done|]. intros i Hi _. apply Z.ltb_ge.
    rewrite Forall_forall in Hok. destruct (ok_bin i (Hok i Hi)) as (b & Eb & Hb & _). unfold bin_of. rewrite Eb. unfold bin in Hb. lia.
  - change MAX_BIN_ID with (2 ^ 24 - 1). unfold qualify_fuel. cbn [snd]. lia.
Qed.
End Scan.
End Store.
