(* ===== verification/GemFactory.v ===== *)
(** * GemFactory: minting, settling and mining gems

    The entry points of the factory keep the invariant of the Gem store, and the loads
    of the gems become Promis once. A run of the factory is a sequence of mints,
    begin-block scans, settlements and minings; the daily settlement of the Cycle mints
    the validators' gems through the factory. *)

From S2P Require Import Prelude LbMath BinTree Storage Tokens ValidatorSet Rewards Nod NodStore Oracle OraclePrices Gem GemStore.

Section Factory.
Context `{KeccakLaws}.
Implicit Types (g : GemContract) (w : GemWorld) (i : GemData) (L : list GemData) (O B : Z -> list Z) (o : OracleContract).

(** ** The scan against the oracle *)

(** The COEN price in an ISO currency; zero when there is none. *)
Definition iso_rate o (iso : Z) : Z :=
  let pair_hash := rd (settlement_iso_to_pair (oc_settlement o)) iso in
  if pair_hash =? 0 then 0 else rd (exchange_rate (oc_rates o)) pair_hash.

(** Prices that fit the price ladder, with the markup of the floor price. *)
Definition oracle_priced o : Prop := forall h, 0 <= rd (exchange_rate (oc_rates o)) h < 2 ^ 148.

Lemma priced_small f : 0 <= f < 2 ^ 149 -> priced f.
Proof.
  intros Hf. split; [lia|]. intros Hne. split; [lia|]. apply Z.div_lt_upper_bound; unfold PRECISION; lia.
Qed.

Lemma iso_rate_bound o iso : oracle_priced o -> 0 <= iso_rate o iso < 2 ^ 148.
Proof. intros Ho. unfold iso_rate. destruct (_ =? 0); [lia|apply Ho]. Qed.

Lemma scan_and_qualify_spec o g L O B now :
  oracle_priced o -> gem_stored g L O B ->
  exists g' n B', scan_and_qualify o g now = Ok (g', n) /\ gem_stored g' (ripened now (iso_rate o QUALIFIER_REFERENCE_ISO) (fun _ => true) L) O B'.
Proof.
  intros Ho S. pose proof (iso_rate_bound o QUALIFIER_REFERENCE_ISO Ho) as Hr. unfold scan_and_qualify, iso_rate in *. cbv zeta.
  assert (H00 : gem_stored g (ripened now 0 (fun _ => true) L) O B).
  { rewrite ripened_none; [done|]. intros i Hi Hd. exfalso. pose proof (gs_ok _ _ _ _ S) as Hok. rewrite Forall_forall in Hok. pose proof (go_priced _ (Hok i Hi)) as [? _].
    unfold due in Hd. bools. lia. }
  destruct (_ =? 0); [by exists g, 0, B|]. set (r := rd _ _) in *. destruct (Z.eqb_spec r 0) as [->|Hne]; [by exists g, 0, B|].
  destruct (priced_bin r (priced_small r ltac:(lia))) as (b & Eb & _). rewrite Eb. destruct (scan_walk now r g L O B b S Eb ltac:(lia)) as (x & E & (g' & n & B' & -> & S')).
  rewrite E. by exists g', n, B'.
Qed.

(** ** Minting *)

Lemma gem_id_bytes a x n : bytes (GEM_TAG ++ be_bytes 20 a ++ be_bytes 32 x ++ be_bytes 8 n).
Proof.
  apply Forall_app. split; [by repeat constructor|]. apply Forall_app. split; [apply bytes_be|]. apply Forall_app. split; apply bytes_be.
Qed.

Lemma generate_gem_id_inj a x n a' x' n' :
  address a -> address a' -> 0 <= x < 2 ^ 256 -> 0 <= x' < 2 ^ 256 -> 0 <= n < 2 ^ 64 -> 0 <= n' < 2 ^ 64 ->
  generate_gem_id a x n = generate_gem_id a' x' n' -> a = a' /\ x = x' /\ n = n'.
Proof.
  unfold address. intros Ha Ha' Hx Hx' Hn Hn' E. apply keccak_inj in E.
  - apply app_inv_head in E. apply app_inj_1 in E as [E1 E]; [|by rewrite !length_be_bytes]. apply app_inj_1 in E as [E2 E3]; [|by rewrite !length_be_bytes].
    apply be_bytes_inj in E1, E2, E3; try done.
  - apply gem_id_bytes.
  - apply gem_id_bytes.
Qed.

Lemma generate_gem_id_nonzero a x n : generate_gem_id a x n <> 0.
Proof. apply keccak_nonzero, gem_id_bytes. Qed.

Definition initial_state (t : GemTypes) : GemState := match t with Genesis => Qualified | _ => Issued end.
Definition cost_percent (t : GemTypes) : Z := match t with Sra => 64 | _ => 100 end.

(** The gem a mint makes. *)
Definition minted (rate n now : Z) (owner : Address) (t : GemTypes) (load iss ref : Z) : GemData :=
  mkGem (generate_gem_id owner load n) owner (gem_type_code t) load rate (rate * load * cost_percent t / 100 / SCALE_1E18) (rate * 108 / 100) iss ref
    (gem_state_code (initial_state t)) now.

Lemma compute_params_spec t load rate : t <> Merchant ->
  compute_params t load rate =
    if (rate * load <? 2 ^ 256) && (rate * load * cost_percent t <? 2 ^ 256) && (rate * 108 <? 2 ^ 256)
    then Ok (rate * load * cost_percent t / 100 / SCALE_1E18, rate * 108 / 100, initial_state t) else Err GemOverflow.
Proof.
  intros Ht. destruct t; try done; unfold compute_params, compute_cost, floor_with_markup, checked_mul, FLOOR_MARKUP_PERCENT, SRA_COEFFICIENT_PERCENT; cbn [cost_percent initial_state];
    (destruct (_ <? _); cbn [ok_or andb]; [|done]); (destruct (_ <? _); cbn [ok_or andb]; [|done]); by destruct (_ <? _).
Qed.

Definition minted_world w g : GemWorld := mkGemWorld g (mkGemFactory (total_gems_issued (gw_factory w) + 1) (total_intex_parked (gw_factory w))) (gw_promis w).

(** What a mint checks, and what it does. *)
Definition mint_ok o w (owner : Address) (t : GemTypes) (load iss ref : Z) : Prop :=
  owner <> 0 /\ t <> Merchant /\ check_reference_currency (oc_settlement o) ref = Ok tt /\ iso_rate o iss <> 0 /\
  iso_rate o iss * load < 2 ^ 256 /\ iso_rate o iss * load * cost_percent t < 2 ^ 256 /\ total_gems_issued (gw_factory w) + 1 < 2 ^ 256.

Lemma read_oracle_rate_spec o iso : read_oracle_rate o iso = Ok (iso_rate o iso) <-> iso_rate o iso <> 0.
Proof.
  unfold read_oracle_rate, iso_rate. cbv zeta. set (h := rd (settlement_iso_to_pair _) _). destruct (h =? 0); cbn [negb]; [by split|].
  set (r := rd (exchange_rate _) h). destruct (Z.eqb_spec r 0) as [->|Hne]; cbn [negb]; by split.
Qed.

Lemma minted_ok rate n now owner t load iss ref : 0 < owner < 2 ^ 160 -> 0 <= load < 2 ^ 256 -> 0 <= rate < 2 ^ 148 -> gem_ok (minted rate n now owner t load iss ref).
Proof.
  intros Ho Hl Hr. split; [exact Ho|apply generate_gem_id_nonzero|by destruct t; cbn|exact Hl|]. apply priced_small. cbn [gem_floor_price minted].
  split; [apply Z.div_pos; lia|apply Z.div_lt_upper_bound; lia].
Qed.

Lemma gem_emit_stored g L O B e : gem_stored g L O B -> gem_stored (gem_emit g e) L O B.
Proof. intros S. eapply (gem_stored_frame g); [done| |exact S]. eapply bins_ok_frame; [..|exact (gs_bins _ _ _ _ S)]; done. Qed.

Lemma mint_gem_spec o n now w L O B owner t load iss ref :
  oracle_priced o -> gem_stored (gw_gem w) L O B -> address owner -> 0 <= load < 2 ^ 256 -> len L < 2 ^ 32 - 1 ->
  mint_ok o w owner t load iss ref -> generate_gem_id owner load n ∉ gem_id <$> L ->
  exists g' O' B', mint_gem o n now w owner t load iss ref = Ok (minted_world w g', generate_gem_id owner load n) /\
    gem_stored g' (minted (iso_rate o iss) n now owner t load iss ref :: L) O' B'.
Proof.
  intros Ho S Ha Hl Hlen (M1 & M2 & M3 & M4 & M5 & M6 & M7) Hn. pose proof (iso_rate_bound o iss Ho) as Hr. unfold address in Ha. unfold mint_gem. rewrite (proj2 (Z.eqb_neq owner 0)) by done. cbn [negb].
  assert (Et : (gem_type_code t =? gem_type_code Merchant) = false) by (by destruct t). rewrite Et, M3, (proj2 (read_oracle_rate_spec o iss) M4). cbn [negb].
  rewrite compute_params_spec, !(proj2 (Z.ltb_lt _ _)) by (done || lia). cbn [andb]. cbv zeta. unfold api_add_gem. cbn [ga_owner]. rewrite (proj2 (Z.eqb_neq owner 0)) by done. cbn [negb]. cbv zeta.
  set (i := minted (iso_rate o iss) n now owner t load iss ref). pose proof (minted_ok (iso_rate o iss) n now owner t load iss ref ltac:(lia) Hl Hr) as Hi.
  destruct (add_gem_spec (gw_gem w) L O B i S Hi Hn Hlen) as (g' & O' & B' & E & S' & _).
  change (add_gem (gw_gem w) _) with (add_gem (gw_gem w) i). rewrite E. unfold checked_add. rewrite (proj2 (Z.ltb_lt _ _)) by done. cbn [ok_or].
  do 3 eexists. split; [reflexivity|]. apply gem_emit_stored. exact S'.
Qed.

Lemma mint_gem_inv o n now w L O B owner t load iss ref w' id :
  oracle_priced o -> gem_stored (gw_gem w) L O B -> 0 <= load < 2 ^ 256 -> mint_gem o n now w owner t load iss ref = Ok (w', id) ->
  mint_ok o w owner t load iss ref /\ generate_gem_id owner load n ∉ gem_id <$> L.
Proof.
  intros Ho S Hl E. unfold mint_gem in E. destruct (Z.eqb_spec owner 0); [done|]. cbn [negb] in E. destruct (gem_type_code t =? _) eqn:Et in E; [done|]. cbn [negb] in E.
  assert (Ht : t <> Merchant) by (by intros ->). destruct (check_reference_currency _ _) as [[]|] eqn:Ec in E; [|done].
  destruct (read_oracle_rate o iss) as [r|] eqn:Er in E; [|done]. assert (r = iso_rate o iss /\ iso_rate o iss <> 0) as [-> Hr].
  { destruct (decide (iso_rate o iss = 0)) as [E0|Hne]; [|rewrite (proj2 (read_oracle_rate_spec o iss) Hne) in Er; by injection Er as <-].
    exfalso. unfold read_oracle_rate, iso_rate in *. cbv zeta in *. destruct (_ =? 0) in Er, E0; [done|]. cbn [negb] in Er. rewrite E0 in Er. done. }
  rewrite compute_params_spec in E by done. destruct (_ && _) eqn:Eb in E; [|done]. bools. destruct (api_add_gem _ _ _) as [[g' id']|] eqn:Ea in E; [|done].
  destruct (checked_add _ _ _) as [tot|] eqn:Ek in E; [|done]. apply checked_add_Some in Ek as [_ Ek]. split; [split_and!; done|].
  unfold api_add_gem in Ea. destruct (negb _) in Ea; [|done]. cbv zeta in Ea. destruct (add_gem _ _) eqn:Eadd in Ea; [|done]. unfold add_gem in Eadd. rewrite rexists_get in Eadd.
  case_bool_decide as Hex; [done|]. intros (i & Ei & Hi)%list_elem_of_fmap. apply Hex. exists i. by apply (gs_gems _ _ _ _ S).
Qed.

(** ** Settling and mining *)

(** A store of gems next to the Promis supply: what the gems still carry and what
    was mined from them sum up to [T]. *)
Definition gem_ledger w L (T : Z) : Prop :=
  (exists O B, gem_stored (gw_gem w) L O B) /\ supply_ok (gw_promis w) /\ Promis.supply (gw_promis w) + lsum (gem_load <$> L) = T.

Lemma gem_ledger_perm w L L' T : L ≡ₚ L' -> gem_ledger w L T -> gem_ledger w L' T.
Proof. intros Hp ((O & B & S) & Hs & E). split_and!; [exists O, B; by eapply gem_stored_perm|done|]. by rewrite <- (lsum_perm (gem_load <$> L)) by (by rewrite Hp). Qed.

Lemma get_ledger w L T id i : gem_ledger w L T -> get_gem (gw_gem w) id = Some i -> gem_id i = id /\ exists L', L ≡ₚ i :: L' /\ gem_ledger w (i :: L') T.
Proof.
  intros Hl E. pose proof Hl as ((O & B & S) & _). apply (gs_gems _ _ _ _ S) in E as [Hi <-]. split; [done|].
  destruct (gem_elem _ _ _ _ i S Hi) as (L' & Hp & _). exists L'. split; [done|]. by eapply gem_ledger_perm.
Qed.

Lemma set_state_ledger w i L T st g : gem_ledger w (i :: L) T -> st <> Issued -> set_state (gw_gem w) (gem_id i) st = Ok g -> gem_ledger (set_gw_gem w g) (in_state st i :: L) T.
Proof.
  intros ((O & B & S) & Hs & E) Hst Eg. destruct (set_state_spec _ _ _ _ i st S Hst) as (g' & B' & E' & S' & _). rewrite Eg in E'. injection E' as <-.
  split_and!; [by exists O, B'|done|exact E].
Qed.

Lemma emit_ledger w L T e : gem_ledger w L T -> gem_ledger (set_gw_gem w (gem_emit (gw_gem w) e)) L T.
Proof. intros ((O & B & S) & Hs & E). split_and!; [exists O, B; by apply gem_emit_stored|done|done]. Qed.

(** Mining burns a settled gem of the caller and turns its load into Promis. *)
Lemma mine_gem_spec w L T caller id nonce w' x :
  gem_ledger w L T -> mine_gem_promis w caller id nonce = Ok (w', x) ->
  exists i L', L ≡ₚ i :: L' /\ gem_id i = id /\ gem_owner i = caller /\ gem_state i = gem_state_code Settled /\ is_ok (validate_pow id nonce) = true /\ x = gem_load i /\
    gem_ledger w' L' T /\ get_gem (gw_gem w') id = None /\ Promis.balance (gw_promis w') = <[caller := rd (Promis.balance (gw_promis w)) caller + x]> (Promis.balance (gw_promis w)).
Proof.
  intros Hl E. unfold mine_gem_promis in E. destruct (get_gem (gw_gem w) id) as [i|] eqn:Eg; [cbn [ok_or] in E|done]. destruct (Z.eqb_spec (gem_owner i) caller) as [Eo|]; [|done].
  destruct (Z.eqb_spec (gem_state i) (gem_state_code Settled)) as [Es|]; [|done]. destruct (validate_pow id nonce) as [u|] eqn:Ep; [|done].
  unfold api_burn in E. rewrite Eg in E. cbn [ok_or] in E. rewrite Es, Z.eqb_refl in E. destruct (get_ledger w L T id i Hl Eg) as (Eid & L' & Hp & (O & B & S) & Hs & ET).
  destruct (burn_gem_spec _ _ _ _ _ S) as (g' & O' & Eb & S' & _); [by rewrite Es|]. rewrite Eb in E. pose proof (proj1 (Forall_cons_1 _ _ _ (gs_ok _ _ _ _ S))) as Hi.
  pose proof (mine_spec (gw_promis w) caller (gem_load i) Hs (proj1 (go_load _ Hi))) as Hm. unfold Promis.mine in E. destruct (negb (gem_load i =? 0) && _ && _) in Hm.
  2: { destruct Hm as [e Hm]. by rewrite Hm in E. }
  destruct Hm as (p & Ep' & Hs' & Hbal & Hsup). rewrite Ep' in E. injection E as <- <-. exists i, L'. split_and!; try done.
  - split_and!; [exists O', B; by apply gem_emit_stored|done|]. cbn [gw_promis]. change (Promis.supply p) with (Tokens.total_supply p). rewrite Hsup, <- ET, fmap_cons. change (Tokens.total_supply (gw_promis w)) with (Promis.supply (gw_promis w)). change (lsum (?a :: ?l)) with (a + lsum l). lia.
  - cbn [gw_gem]. change (get_gem (gem_emit g' _)) with (get_gem g'). apply (gem_absent _ _ _ _ _ S'). pose proof (gs_ids _ _ _ _ S) as Hnd. rewrite fmap_cons in Hnd. apply NoDup_cons in Hnd as [Hnd _]. by rewrite Eid in Hnd.
Qed.

Section Run.
Variable call : GemWorld -> Address -> ExtCall -> res GemWorld.
Variable asset_at : GemWorld -> res Address.

(** The asset and the vault reach the gems only through [settle_gem] and
    [mine_gem_promis], the entry points of the precompile. *)
Hypothesis call_keeps : forall w a c w' L T, gem_ledger w L T -> call w a c = Ok w' -> exists L', gem_ledger w' L' T /\ len L' <= len L.

Lemma settle_gem_spec w L T caller id w' :
  gem_ledger w L T -> settle_gem call asset_at w caller id = Ok w' ->
  (exists i, i ∈ L /\ gem_id i = id /\ gem_owner i = caller /\ gem_state i = gem_state_code Qualified) /\ exists L', gem_ledger w' L' T /\ len L' <= len L.
Proof.
  intros Hl E. unfold settle_gem in E. destruct (get_gem (gw_gem w) id) as [i|] eqn:Eg; [cbn [ok_or] in E|done]. destruct (Z.eqb_spec (gem_owner i) caller) as [Eo|]; [|done].
  destruct (Z.eqb_spec (gem_state i) (gem_state_code Qualified)) as [Es|]; [|done]. destruct (get_ledger w L T id i Hl Eg) as (Eid & L' & Hp & Hl'). subst id.
  destruct (set_state (gw_gem w) (gem_id i) Settled) as [g|] eqn:E1; [|done]. pose proof (set_state_ledger w i L' T Settled g Hl' ltac:(done) E1) as H1.
  split; [exists i; split_and!; [rewrite Hp; by left|done..]|]. assert (Elen : len (in_state Settled i :: L') = len L) by (unfold len; by rewrite Hp).
  assert (Hpay : exists w1 L1, (w' = set_gw_gem w1 (gem_emit (gw_gem w1) (GemSettled (gem_id i) caller (gem_cost_amount i) (gem_issuance_currency i)))) /\ gem_ledger w1 L1 T /\ len L1 <= len L).
  { destruct (negb _) in E; [|injection E as <-; exists (set_gw_gem w g), (in_state Settled i :: L'); split_and!; [done|done|lia]].
    unfold deposit_to_vault in E. destruct (read_reserve_asset _ _) as [asset|]; [|done]. destruct (call _ _ _) as [w1|] eqn:C1 in E; [|done].
    destruct (call w1 _ _) as [w2|] eqn:C2 in E; [|done]. destruct (call w2 _ _) as [w3|] eqn:C3 in E; [|done]. injection E as <-.
    destruct (call_keeps _ _ _ _ _ _ H1 C1) as (L1 & K1 & N1). destruct (call_keeps _ _ _ _ _ _ K1 C2) as (L2 & K2 & N2). destruct (call_keeps _ _ _ _ _ _ K2 C3) as (L3 & K3 & N3).
    exists w3, L3. split_and!; [done|done|lia]. }
  destruct Hpay as (w1 & L1 & -> & K & N). exists L1. split; [by apply emit_ledger|done].
Qed.

(** ** Runs of the factory *)

Definition no_gems : GemContract := mkGems 0 ∅ ∅ ∅ (mkVec 0 ∅) ∅ 0 ∅ ∅ ∅ ∅ [].

(** The worlds the chain can be in after [k] gems of the total load [T] were minted. *)
Inductive gem_run : nat -> Z -> GemWorld -> Prop :=
| gem_run_empty f : gem_run 0 0 (mkGemWorld no_gems f (Promis.mkPromis 0 ∅ []))
| gem_run_mint k T w o n now owner t load iss ref w' id :
    gem_run k T w -> oracle_priced o -> address owner -> 0 <= load < 2 ^ 256 -> mint_gem o n now w owner t load iss ref = Ok (w', id) -> gem_run (S k) (T + load) w'
| gem_run_scan k T w o now g n :
    gem_run k T w -> oracle_priced o -> scan_and_qualify o (gw_gem w) now = Ok (g, n) -> gem_run k T (set_gw_gem w g)
| gem_run_settle k T w caller id w' :
    gem_run k T w -> settle_gem call asset_at w caller id = Ok w' -> gem_run k T w'
| gem_run_mine k T w caller id nonce w' x :
    gem_run k T w -> mine_gem_promis w caller id nonce = Ok (w', x) -> gem_run k T w'.

Lemma empty_gem_ledger f : gem_ledger (mkGemWorld no_gems f (Promis.mkPromis 0 ∅ [])) [] 0.
Proof.
  split_and!; [|split_and!; [intros a; cbn; by rewrite rd_empty|cbn; by rewrite msum_empty|done]|done]. exists (fun _ => []), (fun _ => []).
  destruct (empty_tree_rep no_gems) as (Hok & Hc & _); [done..|]. split; try done.
  - intros id i. split; [done|]. intros [Hi _]. by apply not_elem_of_nil in Hi.
  - constructor.
  - exists []. split; [|done]. split_and!; [split_and!; [done|done|intros i Hi; cbn in Hi; lia]|constructor|done].
Qed.

Lemma ripened_ledger w L T O B now rate f g :
  gem_ledger w L T -> gem_stored g (ripened now rate f L) O B -> gem_ledger (set_gw_gem w g) (ripened now rate f L) T.
Proof.
  intros (_ & Hs & E) S. split_and!; [by exists O, B|done|]. cbn [gw_promis set_gw_gem]. rewrite <- E. do 2 f_equal. unfold ripened. rewrite <- list_fmap_compose.
  apply list_fmap_ext. intros _ i _. unfold compose, ripen_if. by destruct (f i && _).
Qed.

Lemma gem_run_ledger k T w : gem_run k T w -> Z.of_nat k < 2 ^ 32 -> exists L, gem_ledger w L T /\ len L <= Z.of_nat k.
Proof.
  induction 1 as [f|k T w o n now owner t load iss ref w' id _ IH Ho Ha Hl E|k T w o now g n _ IH Ho E|k T w caller id w' _ IH E|k T w caller id nonce w' x _ IH E]; intros Hk.
  - exists []. split; [apply empty_gem_ledger|done].
  - destruct IH as (L & ((O & B & S) & Hs & ET) & Hlen); [lia|]. destruct (mint_gem_inv _ _ _ _ _ _ _ _ _ _ _ _ _ _ Ho S Hl E) as [Hm Hn].
    destruct (mint_gem_spec o n now w L O B owner t load iss ref Ho S Ha Hl ltac:(lia) Hm Hn) as (g' & O' & B' & E' & S'). rewrite E in E'. injection E' as -> ->.
    eexists. split; [split_and!; [exists O', B'; exact S'|done|]|unfold len in *; cbn [length]; lia]. rewrite fmap_cons. change (lsum (?a :: ?l)) with (a + lsum l). cbn [gem_load minted gw_promis minted_world]. lia.
  - destruct IH as (L & Hl & Hlen); [done|]. pose proof Hl as ((O & B & S) & _). destruct (scan_and_qualify_spec o _ L O B now Ho S) as (g' & n' & B' & E' & S'). rewrite E in E'. injection E' as <- <-.
    eexists. split; [by eapply ripened_ledger|]. unfold len, ripened in *. by rewrite length_fmap.
  - destruct IH as (L & Hl & Hlen); [done|]. destruct (settle_gem_spec _ _ _ _ _ _ Hl E) as (_ & L' & Hl' & Hlen'). exists L'. split; [done|lia].
  - destruct IH as (L & Hl & Hlen); [done|]. destruct (mine_gem_spec _ _ _ _ _ _ _ _ Hl E) as (i & L' & Hp & _ & _ & _ & _ & _ & Hl' & _). exists L'. split; [done|].
    unfold len in *. rewrite Hp in Hlen. cbn [length] in Hlen. lia.
Qed.

(** C16. The Gem store and the Promis it is worth. In every state the chain can reach
    by minting, scanning, settling and mining gems, the records, the owners' lists,
    the list of all gems, the supply and the price bins describe one list of gems,
    the bins exactly the issued ones; and the Promis mined so far plus the loads of
    the gems that are left are the loads minted: a load is mined at most once. *)
Theorem gem_store_ledger k T w :
  gem_run k T w -> Z.of_nat k < 2 ^ 32 ->
  exists L O B, gem_stored (gw_gem w) L O B /\ len L <= Z.of_nat k /\ supply_ok (gw_promis w) /\ Promis.supply (gw_promis w) + lsum (gem_load <$> L) = T.
Proof. intros Hr Hk. destruct (gem_run_ledger k T w Hr Hk) as (L & ((O & B & S) & Hs & E) & Hlen). by exists L, O, B. Qed.

(** C17. The begin-block hook qualifies exactly the gems that are due. In every
    reachable state the walk over the price bins ends without an error; afterwards a
    gem is qualified iff it was before, or it was issued in the reference currency,
    its maturity period is over and the rate is above its floor price; nothing else
    of any gem changes. *)
Theorem gem_scan_exact k T w o now :
  gem_run k T w -> Z.of_nat k < 2 ^ 32 -> oracle_priced o ->
  exists g n, scan_and_qualify o (gw_gem w) now = Ok (g, n) /\
    forall id, get_gem g id = (fun i => if due now (iso_rate o QUALIFIER_REFERENCE_ISO) i then in_state Qualified i else i) <$> get_gem (gw_gem w) id.
Proof.
  intros Hr Hk Ho. destruct (gem_run_ledger k T w Hr Hk) as (L & ((O & B & S) & _) & _). destruct (scan_and_qualify_spec o _ L O B now Ho S) as (g & n & B' & E & S').
  exists g, n. split; [done|]. intros id. destruct (get_gem (gw_gem w) id) as [i|] eqn:Eg; cbn [fmap option_fmap option_map].
  - apply (gs_gems _ _ _ _ S) in Eg as [Hi <-]. apply (gs_gems _ _ _ _ S'). split; [|by destruct (due _ _ i)]. apply list_elem_of_fmap. exists i. split; [|done]. by unfold ripen_if.
  - apply (gem_absent _ _ _ _ _ S'). rewrite ripened_ids. intros (i & -> & Hi)%list_elem_of_fmap. rewrite (proj2 (gs_gems _ _ _ _ S (gem_id i) i)) in Eg by done. done.
Qed.
End Run.

(** ** The gems of a daily top-up *)

(** The mint as the Cycle calls it, in US dollars. *)
Definition mint_usd o (n now : u64) w (owner : Address) (t : GemTypes) (load : U256) : res GemWorld :=
  let? (w, _) := mint_gem o n now w owner t load 840 840 in Ok w.

Definition usd_quoted o : Prop := check_reference_currency (oc_settlement o) 840 = Ok tt /\ iso_rate o 840 <> 0.

(** A gem of an earlier block. *)
Definition older (n : Z) i : Prop := exists b, 0 <= b < n /\ gem_id i = generate_gem_id (gem_owner i) (gem_load i) b.

Definition minted_list o (n now : Z) (t : GemTypes) (l : list (Address * U256)) : list GemData :=
  (fun p => minted (iso_rate o 840) n now (fst p) t (snd p) 840 840) <$> l.

Lemma mint_all_spec o n now t l : forall w L O B,
  oracle_priced o -> usd_quoted o -> t <> Merchant -> 0 <= n < 2 ^ 64 -> gem_stored (gw_gem w) L O B ->
  NoDup (fst <$> l) -> Forall (fun p => 0 < fst p < 2 ^ 160 /\ 0 <= snd p < 2 ^ 100) l ->
  (forall i p, i ∈ L -> p ∈ l -> gem_id i <> generate_gem_id (fst p) (snd p) n) ->
  len L + len l < 2 ^ 32 -> total_gems_issued (gw_factory w) + len l < 2 ^ 256 ->
  exists w' O' B', mint_all (mint_usd o n now) t w l = Ok w' /\ gem_stored (gw_gem w') (reverse (minted_list o n now t l) ++ L) O' B' /\ gw_promis w' = gw_promis w /\
    total_gems_issued (gw_factory w') = total_gems_issued (gw_factory w) + len l.
Proof.
  induction l as [|[a x] l IH]; intros w L O B Ho Hu Ht Hn S Hnd Hf Hfresh Hlen Htot.
  { exists w, O, B. split_and!; try done. unfold len. cbn. lia. }
  assert (El : len ((a, x) :: l) = len l + 1) by (unfold len; cbn [length]; lia). assert (0 <= len l /\ 0 <= len L) by (unfold len; lia). rewrite El in *.
  apply Forall_cons in Hf as [[Ha Hx] Hf]. cbn [fst snd] in Ha, Hx. rewrite fmap_cons in Hnd. cbn [fst] in Hnd. apply NoDup_cons in Hnd as [Hna Hnd]. destruct Hu as [Hu1 Hu2].
  pose proof (iso_rate_bound o 840 Ho) as Hr. assert (Hc : 64 <= cost_percent t <= 100) by (destruct t; cbn; lia). assert (Hprod : 0 <= iso_rate o 840 * x < 2 ^ 248) by nia.
  destruct (mint_gem_spec o n now w L O B a t x 840 840) as (g' & O' & B' & E & S'); [done|done|unfold address; lia|lia|lia| | |].
  { split_and!; [lia|done|done|done|lia|nia|lia]. }
  { intros (i & Ei & Hi)%list_elem_of_fmap. by apply (Hfresh i (a, x) Hi ltac:(by left)). }
  destruct (IH (minted_world w g') (minted (iso_rate o 840) n now a t x 840 840 :: L) O' B') as (w2 & O2 & B2 & E2 & S2 & Ep & Et2); [done|done|done|done|exact S'|done|done| | | |].
  - intros i p Hi Hp. apply elem_of_cons in Hi as [->|Hi]; [|apply Hfresh; [done|by right]]. rewrite Forall_forall in Hf. pose proof (Hf p Hp) as [Hp1 Hp2].
    intros Eid. apply generate_gem_id_inj in Eid as (Ea & _); [|unfold address; lia..]. apply Hna. rewrite Ea. by apply list_elem_of_fmap_2.
  - unfold len in *. cbn [length]. lia.
  - cbn [gw_factory minted_world total_gems_issued]. lia.
  - exists w2, O2, B2. split_and!; [|by unfold minted_list in *; rewrite fmap_cons, reverse_cons, <- app_assoc|done|rewrite Et2; cbn [gw_factory minted_world total_gems_issued]; lia].
    unfold mint_all in *. cbn [foldM fst snd]. unfold mint_usd at 1. by rewrite E.
Qed.

Lemma mint_unquoted o n now w owner t load : ~ usd_quoted o -> exists e, mint_usd o n now w owner t load = Err e.
Proof.
  intros Hq. destruct (mint_usd o n now w owner t load) as [w'|e] eqn:E; [exfalso|by eexists]. apply Hq. clear Hq. unfold mint_usd, mint_gem in E.
  destruct (negb _) in E; [|done]. destruct (negb _) in E; [|done]. destruct (check_reference_currency _ _) as [[]|] eqn:Ec in E; [|done]. split; [done|].
  intros E0. unfold read_oracle_rate, iso_rate in *. cbv zeta in *. destruct (_ =? 0) in E, E0; [done|]. cbn [negb] in E. by rewrite E0 in E.
Qed.
End Factory.

(** ** Samples *)

#[local] Existing Instance sample_crypto.
#[local] Existing Instance sample_keccak.

(** COEN quoted in US dollars. *)
Definition sample_usd (rate : Z) : OracleContract :=
  let x := sample_market [] in
  {| x with oc_rates := mkRates (<[7 := rate]> ∅) ∅ ∅; oc_settlement := mkSettlement 1 ∅ (<[840 := 7]> ∅) ∅ ∅ (vec_push (mkVec 0 ∅) 840) |}.
Definition no_gem_world : GemWorld := mkGemWorld no_gems (mkGemFactory 0 0) (Promis.mkPromis 0 ∅ []).
Definition sample_gem_call (w : GemWorld) (a : Address) (c : ExtCall) : res GemWorld := Ok w.
Definition sample_asset (w : GemWorld) : res Address := Ok 5.
Definition sample_minted (t : GemTypes) : GemWorld :=
  match mint_gem (sample_usd (10 ^ 18)) 3 1000 no_gem_world 7 t 100 840 840 with Ok (w, _) => w | Err _ => no_gem_world end.
Definition sample_gem : Z := generate_gem_id 7 100 3.
Definition sample_settled : GemWorld := match settle_gem sample_gem_call sample_asset (sample_minted Genesis) 7 sample_gem with Ok w => w | Err _ => no_gem_world end.
Definition sample_mined : GemWorld := match mine_gem_promis sample_settled 7 sample_gem 3 with Ok (w, _) => w | Err _ => no_gem_world end.

Lemma sample_gem_call_keeps w a c w' L T : gem_ledger w L T -> sample_gem_call w a c = Ok w' -> exists L', gem_ledger w' L' T /\ len L' <= len L.
Proof. intros Hl [= <-]. by exists L. Qed.

Lemma sample_usd_priced rate : 0 <= rate < 2 ^ 148 -> oracle_priced (sample_usd rate).
Proof. intros Hr h. unfold sample_usd. cbn [oc_rates exchange_rate]. rewrite rd_insert. case_decide; [done|]. by rewrite rd_empty. Qed.

Lemma sample_minted_run t : is_ok (mint_gem (sample_usd (10 ^ 18)) 3 1000 no_gem_world 7 t 100 840 840) = true -> gem_run sample_gem_call sample_asset 1 100 (sample_minted t).
Proof.
  intros E. unfold sample_minted. destruct (mint_gem _ _ _ _ _ _ _ _ _) as [[w id]|] eqn:Em; [|done].
  apply (gem_run_mint _ _ 0 0 no_gem_world (sample_usd (10 ^ 18)) 3 1000 7 t 100 840 840 w id); [apply gem_run_empty|by apply (sample_usd_priced (10 ^ 18))|done|done|exact Em].
Qed.

Lemma gem_store_ledger_witness : gem_run sample_gem_call sample_asset 1 100 sample_mined /\ Promis.supply (gw_promis sample_mined) = 100 /\
  exists L O B, gem_stored (gw_gem sample_mined) L O B /\ Promis.supply (gw_promis sample_mined) + lsum (gem_load <$> L) = 100.
Proof.
  assert (R : gem_run sample_gem_call sample_asset 1 100 sample_mined).
  { apply (gem_run_mine _ _ 1 100 sample_settled 7 sample_gem 3 sample_mined 100); [|vm_compute; reflexivity].
    apply (gem_run_settle _ _ 1 100 (sample_minted Genesis) 7 sample_gem sample_settled); [|vm_compute; reflexivity]. apply sample_minted_run. vm_compute. reflexivity. }
  split; [exact R|]. split; [vm_compute; reflexivity|].
  destruct (gem_store_ledger sample_gem_call sample_asset sample_gem_call_keeps 1 100 sample_mined R eq_refl) as (L & O & B & S & _ & _ & E). exists L, O, B. split; [exact S|exact E].
Defined.

Lemma gem_scan_exact_witness : exists g n, scan_and_qualify (sample_usd (2 * 10 ^ 18)) (gw_gem (sample_minted Rewards.Validator)) 3000000 = Ok (g, n) /\
  gem_state <$> get_gem g sample_gem = Some (gem_state_code Qualified).
Proof.
  assert (R : gem_run sample_gem_call sample_asset 1 100 (sample_minted Rewards.Validator)) by (apply sample_minted_run; vm_compute; reflexivity).
  destruct (gem_scan_exact sample_gem_call sample_asset sample_gem_call_keeps 1 100 _ (sample_usd (2 * 10 ^ 18)) 3000000 R eq_refl (sample_usd_priced (2 * 10 ^ 18) ltac:(lia))) as (g & n & E & Hg).
  exists g, n. split; [exact E|]. specialize (Hg sample_gem). rewrite Hg. vm_compute. reflexivity.
Defined.
