(* ===== verification/GemCycle.v ===== *)
(** * GemCycle: the daily settlement with the Gem factory behind it

    The Cycle's settlement of a day is stated over any mint. Here the mint is the
    factory's: the day's gems are minted in US dollars, one per voter with a share, or
    the whole settlement fails. *)

From S2P Require Import Prelude Time LbMath BinTree Storage Tokens ValidatorSet Rewards Emission AgentReward Metadosis TributeFactory Nod NodStore Cycle.
From S2P Require Import Oracle OraclePrices Gem GemStore GemFactory.

Section Daily.
Context `{KeccakLaws} {X : Type} `{DayServices X} `{OfferServices X}.
Variables (o : OracleContract) (blk : BlockContext) (intex : X -> BlockContext -> res X).
Implicit Types (c : Chain X GemWorld) (L : list GemData) (O B : Z -> list Z).

(** The Cycle's services in one block. *)
#[local] Instance gem_services : CycleServices X GemWorld :=
  {| Cycle.mint_gem := mint_usd o (bk_number blk) (bk_timestamp blk); intex_run_daily := intex |}.

Lemma shares_bound topup voters : 0 <= topup -> Forall (fun v => 0 <= snd v) voters ->
  Forall (fun p => p.1 ∈ fst <$> voters /\ 0 <= p.2 <= topup) (shares topup (lsum (snd <$> voters)) voters).
Proof.
  intros Ht Hv. apply Forall_forall. intros p [Hp (v & -> & Hin)%list_elem_of_fmap]%list_elem_of_filter. cbn [fst snd] in *.
  split; [by apply list_elem_of_fmap_2|]. split; [lia|]. rewrite Forall_forall in Hv. pose proof (Hv v Hin).
  assert (Hle : snd v <= lsum (snd <$> voters)).
  { apply elem_of_Permutation in Hin as [r Hr]. rewrite (lsum_perm _ (snd <$> (v :: r))) by (by rewrite Hr). cbn [fmap list_fmap]. change (lsum (?a :: ?l)) with (a + lsum l).
    pose proof (lsum_nonneg (snd <$> r)) as Hn. rewrite Forall_fmap, Forall_forall in Hn. specialize (Hn (fun u Hu => Hv u ltac:(rewrite Hr; by right))). lia. }
  destruct (decide (lsum (snd <$> voters) = 0)) as [->|Hne]; [rewrite Z.div_0_r in *; lia|]. apply Z.div_le_upper_bound; nia.
Qed.

Lemma gems_of_fine r p cap : 0 < cap < 2 ^ 100 -> 0 <= read_daily_fee_sum_raw r p -> Forall (fun v => 1 <= snd v) (read_voters_for_day r p) ->
  NoDup (fst <$> read_voters_for_day r p) -> Forall (fun v => 0 < fst v < 2 ^ 160) (read_voters_for_day r p) ->
  NoDup (fst <$> gems_of r p cap) /\ Forall (fun q => 0 < fst q < 2 ^ 160 /\ 0 <= snd q < 2 ^ 100) (gems_of r p cap) /\ len (gems_of r p cap) <= len (read_voters_for_day r p).
Proof.
  intros Hc Hf Hv Hnd Ha. unfold gems_of. destruct (_ =? 0); [split_and!; [constructor|by apply Forall_nil_2|unfold len; cbn; lia]|].
  assert (Ht : 0 <= topup_of r p cap < 2 ^ 100).
  { assert (0 <= part cap < 2 ^ 100) by (unfold part; split; [apply Z.div_pos; lia|apply Z.div_lt_upper_bound; lia]). unfold topup_of. destruct (_ || _) eqn:E; [lia|]. bools. lia. }
  set (voters := read_voters_for_day r p) in *. assert (Hsub : fst <$> shares (topup_of r p cap) (lsum (snd <$> voters)) voters `sublist_of` fst <$> voters).
  { generalize (lsum (snd <$> voters)). intros tot. clear. induction voters as [|[v x] voters IH]; [constructor|]. rewrite shares_cons. destruct (decide _); cbn; by constructor. }
  split_and!.
  - by eapply sublist_NoDup.
  - eapply Forall_impl; [apply shares_bound; [lia|eapply Forall_impl; [exact Hv|cbn; lia]]|]. intros q [(v & -> & Hin)%list_elem_of_fmap Hq]. rewrite Forall_forall in Ha. split; [by apply Ha|lia].
  - apply sublist_length in Hsub. rewrite !length_fmap in Hsub. unfold len. lia.
Qed.

(** A store of gems of earlier blocks, and a day's voters the factory can mint to. *)
Record gem_day c (p : u32) L : Prop := {
  gd_stored : exists O B, gem_stored (gw_gem (ch_gems c)) L O B;
  gd_older : Forall (older (bk_number blk)) L;
  gd_number : 0 <= bk_number blk < 2 ^ 64;
  gd_distinct : NoDup (fst <$> read_voters_for_day (ch_rewards c) p);
  gd_voters : Forall (fun v => 0 < fst v < 2 ^ 160) (read_voters_for_day (ch_rewards c) p);
  gd_room : len L + len (read_voters_for_day (ch_rewards c) p) < 2 ^ 32;
  gd_total : total_gems_issued (gw_factory (ch_gems c)) + len (read_voters_for_day (ch_rewards c) p) < 2 ^ 256
}.

(** C5. The daily settlement mints its gems through the factory, and cannot settle
    without a dollar price. On a chain whose gems are of earlier blocks, with rates on
    the price ladder: when COEN is quoted in US dollars, the settlement of the day
    fails only where the Metadosis run fails, and the store then holds, besides the
    old gems, one gem per voter with a share, with that share as its load, qualified
    at once in the first 21 days and issued after; when there is no dollar quote and
    the day has a gem to mint, the settlement fails as a whole. *)
Theorem daily_gems_exact c n l L : let p := prev_day_of (bk_timestamp blk) in let cap := day_emission_limit n in
  let t := if n <? 21 then Genesis else Rewards.Validator in let gems := gems_of (ch_rewards c) p cap in
  settle_pre c p n l -> in_range (bk_timestamp blk) -> oracle_priced o -> gem_day c p L ->
  (usd_quoted o -> exists r' w' agents' b' md' O' B',
    run_emission_limit_daily c blk = (let? w := start_metadosis (set_md (fw_world (ch_factory c)) md') blk in
      Ok (mkChain (mark_day_settled r' p) w' (mkFactory (used_su_hashes (ch_factory c)) w agents') b' (ch_cycle c) (last_accounted_block_number c))) /\
    gem_stored (gw_gem w') (reverse (minted_list o (bk_number blk) (bk_timestamp blk) t gems) ++ L) O' B' /\ gw_promis w' = gw_promis (ch_gems c)) /\
  (~ usd_quoted o -> gems <> [] -> exists e, run_emission_limit_daily c blk = Err e).
Proof.
  cbv zeta. set (p := prev_day_of _). set (cap := day_emission_limit n). intros P Hr Ho [(O & B & S) D2 D3 D4 D5 D6 D7].
  destruct (settle_steps c blk n l P Hr) as (r' & a' & b' & ex & md' & E & _). fold p cap in E. pose proof (day_emission_limit_bound n (proj2 (sp_number _ _ _ _ P))) as Hc. fold cap in Hc.
  destruct (gems_of_fine (ch_rewards c) p cap Hc (sp_fees _ _ _ _ P) (proj1 (sp_voters _ _ _ _ P)) D4 D5) as (G1 & G2 & G3).
  assert (Ht : (if n <? 21 then Genesis else Rewards.Validator) <> Rewards.Merchant) by (by destruct (n <? 21)). split.
  - intros Hu. destruct (mint_all_spec o (bk_number blk) (bk_timestamp blk) (if n <? 21 then Genesis else Rewards.Validator) (gems_of (ch_rewards c) p cap) (ch_gems c) L O B)
      as (w' & O' & B' & E' & S' & Ep & _); [done|done|done|done|done|done|done| |lia|lia|].
    { intros i q Hi Hq Eid. rewrite Forall_forall in D2. rewrite Forall_forall in G2. destruct (D2 i Hi) as (nb & Hnb & Eg). pose proof (G2 q Hq) as [Hq1 Hq2].
      pose proof (gs_ok _ _ _ _ S) as Hok. rewrite Forall_forall in Hok. pose proof (Hok i Hi) as Hi'. pose proof (go_owner _ Hi'). pose proof (go_load _ Hi').
      rewrite Eg in Eid. apply generate_gem_id_inj in Eid as (_ & _ & En); unfold address; lia. }
    exists r', w', a', b', md', O', B'. split_and!; [|exact S'|exact Ep]. rewrite E. change Cycle.mint_gem with (mint_usd o (bk_number blk) (bk_timestamp blk)). by rewrite E'.
  - intros Hu Hg. rewrite E. destruct (gems_of (ch_rewards c) p cap) as [|q gems]; [done|]. unfold mint_all. cbn [foldM].
    destruct (mint_unquoted o (bk_number blk) (bk_timestamp blk) (ch_gems c) (fst q) (if n <? 21 then Genesis else Rewards.Validator) (snd q) Hu) as [e Ee].
    exists e. change Cycle.mint_gem with (mint_usd o (bk_number blk) (bk_timestamp blk)). by rewrite Ee.
Qed.
End Daily.

(** ** A sample day *)

#[local] Existing Instance sample_crypto.
#[local] Existing Instance sample_keccak.
#[local] Existing Instance sample_services.
#[local] Existing Instance sample_offers.

Definition sample_gem_chain : Chain unit GemWorld :=
  mkChain sample_rewards no_gem_world (mkFactory ∅ sample_start (mkAgent (mkIndex ∅ ∅ ∅) (mkIndex ∅ ∅ ∅) ∅)) ∅ (mkCycle ∅ ∅) 100.
Definition no_intex (x : unit) (_ : BlockContext) : res unit := Ok x.
Definition sample_daily (o : OracleContract) : res (Chain unit GemWorld) :=
  @run_emission_limit_daily _ unit GemWorld _ (gem_services o (block_at 2 20001) no_intex) sample_gem_chain (block_at 2 20001).

Lemma sample_gem_settle_pre : settle_pre sample_gem_chain 20241004 3 [].
Proof. destruct sample_settle_pre as [P1 P2 P3 P4 P5 P6 P7 P8 P9]. split; [exact P1|exact P2|exact P3|exact P4|exact P5|exact P6|exact P7|exact P8|exact P9]. Qed.

Lemma sample_gem_day : gem_day (block_at 2 20001) sample_gem_chain 20241004 [].
Proof.
  change (read_voters_for_day (ch_rewards sample_gem_chain) 20241004) with [(5, 3)].
  split; [exact (proj1 (empty_gem_ledger (mkGemFactory 0 0)))|by apply Forall_nil_2|done|..];
    change (read_voters_for_day (ch_rewards sample_gem_chain) 20241004) with [(5, 3)]; [apply NoDup_singleton|by repeat constructor|done|done].
Qed.

Lemma daily_gems_exact_witness :
  (is_ok (sample_daily (sample_usd (10 ^ 18))) = true /\ exists w' O' B', gem_stored (gw_gem w') (reverse (minted_list (sample_usd (10 ^ 18)) 2 (20001 * DAY) Genesis (gems_of sample_rewards 20241004 (day_emission_limit 3))) ++ []) O' B') /\
  exists e, sample_daily (sample_market []) = Err e.
Proof.
  split; [split; [vm_compute; reflexivity|]|].
  - pose proof (daily_gems_exact (sample_usd (10 ^ 18)) (block_at 2 20001) no_intex sample_gem_chain 3 [] []) as T. cbv zeta in T. rewrite sample_prev_day in T.
    specialize (T sample_gem_settle_pre (in_range_day 20001 ltac:(lia)) (sample_usd_priced (10 ^ 18) ltac:(lia)) sample_gem_day). destruct T as [T _].
    destruct T as (r' & w' & a' & b' & md' & O' & B' & _ & S & _); [split; vm_compute; [reflexivity|discriminate]|]. exists w', O', B'. exact S.
  - pose proof (daily_gems_exact (sample_market []) (block_at 2 20001) no_intex sample_gem_chain 3 [] []) as T. cbv zeta in T. rewrite sample_prev_day in T.
    apply T; [exact sample_gem_settle_pre|apply (in_range_day 20001); lia|intros h; change (0 <= 0 < 2 ^ 148); lia|exact sample_gem_day|intros [E _]; vm_compute in E; discriminate E|vm_compute; discriminate].
Defined.
